(* ===== verification/_CoqProject ===== *)
-Q . S2P
Prelude.v
UsbErrors.v
Platform.v
UsbAccessory.v
UsbRightDatabase.v
UsbRightDbHelper.v
RightRecords.v
UsbRightManager.v
UsbRightManagerProofs.v
RightTheorems.v
UsbDeviceManager.v
UsbDeviceProofs.v
UsbDeviceTheorems.v
UsbPortManager.v
Base64.v
UsbAccessoryManager.v
UsbAccessoryProofs.v
UsbAccessoryTheorems.v
UsbDevice.v
UsbDeviceTree.v
UsbDescriptorParser.v
UsbDescriptorTheorems.v
SerialManager.v
SerialTheorems.v
UsbInterfaceType.v
UsbHostManager.v
UsbHostPolicy.v
UsbHostDescriptor.v
UsbHostProofs.v
UsbHostTables.v
UsbHostTheorems.v
UsbHostExamples.v
UsbHostTransfer.v
UsbService.v
UsbServiceClaims.v
UsbServiceHost.v
UsbServiceDevice.v
UsbServiceSerial.v
UsbServiceLife.v
UsbServiceSteps.v
UsbServiceFrames.v
UsbServiceClaimProofs.v
UsbServiceConnProofs.v
UsbServiceManagers.v
UsbServiceUnload.v
UsbServiceTheorems.v
UsbServiceExamples.v
UsbSrvClient.v
UsbSrvServer.v
UsbSrvClientProofs.v
UsbSrvClientSteps.v
UsbSrvClientTheorems.v
UsbSrvClientExamples.v
UsbFunctionSwitchWindow.v
UsbSwitchWindowTheorems.v
UsbConnectionNotifier.v
UsbNotifierTheorems.v
UsbTransferCallbacks.v
UsbTransferTheorems.v
HeapLogic.v
OhUsbManager.v
OhUsbManagerProofs.v
OhUsbManagerTheorems.v
UsbCli.v
UsbCliTheorems.v
UsbUtilities.v
NapiUtil.v
UsbInfoParse.v
UsbInfo.v
UsbInfoAsync.v
SerialInfo.v
NapiLaws.v
UsbInfoRoundTrip.v
UsbInfoProofs.v
UsbInfoTheorems.v
UsbInfoPromises.v
UsbInfoExamples.v
SerialInfoTheorems.v
UsbManagerImpl.v
UsbManagerTheorems.v
