(* ===== verification/Prelude.v ===== *)
(** * A verification development for the USB manager service

    The service (services/native) stands between applications and USB: it
    decides which application may use which device, switches the functions the
    board offers as a gadget, tracks its ports, runs the accessory protocol,
    parses the descriptors of attached devices and hands the device tree to
    clients.  This library models that logic and proves it correct.

    ** The parts and their files

    - [Prelude]: machine integers with their wrap-around ([to_u8] .. [to_i64]),
      decimal texts ([std::to_string], [strtoull], [std::stoul]), C strings, the
      state monad the components are written in with its Hoare triples, the
      tactics [run] and [zbool] and the hint database [usb].
    - [UsbErrors]: usb_errors.h.  The base of the error codes is fixed by the
      build and is the class [ErrCodeBase].
    - [Platform]: what several components call outside the repository, each a
      class of operations with a class of laws: cJSON ([CJson]), the IPC parcel
      ([Parcel], [MessageParcel]), the one-shot timer ([DelayTimer]).  Each has a
      small concrete instance on which the witnesses run.
    - The right subsystem.  [UsbRightDatabase] (usb_right_database.cpp) wraps a
      relational store, the class [RdbStore], any of whose calls may fail; the
      meaning of the predicates, of the SQL conditions and of the value buckets
      the code uses is written out over the rows of the table.
      [UsbRightDbHelper] (usb_right_db_helper.cpp) builds the queries, the
      upsert and the deletions on it, each one transaction.  [RightRecords] is
      the interface the manager relies on, with its laws; the helper is proved
      to implement it ([helper_records_laws]).  [UsbRightManager]
      (usb_right_manager.cpp) is written and verified against the interface:
      [HasRight], [AddDeviceRight], [RemoveDeviceRight], the three
      [RequestRight] with their dialogs, the clean-ups, the event subscriber and
      [Init].  [MemStore] is a store in memory, which satisfies the laws.
    - [UsbDeviceManager] (usb_device_manager.cpp): the functions of the gadget,
      their names, the delayed connect and disconnect, notifications, the shell.
    - [UsbPortManager] (usb_port_manager.cpp, usb_port.h,
      usb_manager_subscriber.cpp): the table of ports.
    - [UsbAccessory] (usb_accessory.h), [Base64] and [UsbAccessoryManager]
      (usb_accessory_manager.cpp): the accessory record, the decoder, the state
      machine with its two timers.
    - [UsbDevice] (usb_device.h, usb_config.h, usb_interface.h,
      usb_endpoint.h): the device tree with its parcel and JSON forms.
    - [UsbDescriptorParser] (usb_descriptor_parser.cpp, usbd_type.h): from the
      bytes of the kernel to that tree.
    - [SerialManager] (serial_manager.cpp): serial ports, the tokens that own
      them, the audit of first reads and writes, the dump commands.
    - The host manager (usb_host_manager.cpp).  [UsbHostManager]: the table of
      attached devices, the broadcasts, the queries.  [UsbHostPolicy]:
      authorisation, the requests of the enterprise device manager and the
      strategy an arriving device runs, arrivals and departures.
      [UsbHostDescriptor]: a device read through the parser, with its strings.
      [UsbInterfaceType] (usb_interface_type.h): the types policies speak of.
      The services it calls are the class [HostPlatform], the serial manager the
      class [PortList], of which [serial_port_list] is the instance.
      [UsbHostTransfer]: the requests it passes on to the host service, transfers
      and their callbacks and recipients, starting and stopping.
    - The service (usb_service.cpp), the front end that owns the managers.
      [UsbService]: its state, the caller and the check of rights, behind the
      class [RightService].  [UsbServiceClaims]: claims on interfaces, exclusive
      or shared, and who uses which device, with the
      listeners that are told.  [UsbServiceHost], [UsbServiceDevice],
      [UsbServiceSerial]: the requests that end at the host manager, at the
      device, accessory and port managers (each a class of operations) and at the
      serial manager.  [UsbServiceLife]: starting, stopping, unloading, driver
      events, deaths, the dump command.  [UsbServiceSteps]: requests as data and
      the steps of the service.  What a transfer fault reports
      (usb_report_sys_event.cpp) is at the end of [UsbHostTransfer].  The managers of
      this library are instances of the classes ([UsbServiceManagers]).
    - The client library (interfaces/innerkits/native: usb_srv_client.cpp,
      usb_device_pipe.cpp, usb_request.cpp, claim_exclusive_callback.cpp).
      [UsbSrvClient]: finding the service, watching its death, every request, the
      listeners of exclusive claims.  The generated proxy is the class [IUsbServer],
      one event per request of IUsbServer.idl, indexed by the type of its answer;
      [UsbSrvServer] says how the service of this library answers each, and the
      class [ServerLaws] that a proxy passes calls on to it or fails.  What other
      threads do while a method holds no lock is the parameter [others].
    - [UsbTransferCallbacks] (usb_transfer_callback_impl.cpp,
      usb_bulkcallback_impl.cpp, struct_parcel.cpp, usbd_callback_stub.cpp,
      usbd_callback_server.cpp, usbd_bulk_callback.cpp): a completed transfer on its
      way from the driver to the process that asked for it.
    - [UsbFunctionSwitchWindow] (usb_function_switch_window.cpp): the dialog that
      asks for a function, its connections and its late answers.
      [UsbConnectionNotifier] (usb_connection_notifier.cpp): the notifications.
    - [OhUsbManager] (interfaces/kits/capi/src/ohusb_manager.cpp): the functions for
      C programs.  [HeapLogic] is the memory they use, with an allocator (the class
      [Malloc]) that may refuse at any call, and a separation logic over it: a [bi] of
      Iris whose assertions hold of parts of the heap.
    - [UsbCli] (tools/ohos-usbManager): the command-line tool, with a JSON library
      whose allocations may fail (the class [CJsonMemory]).
    - [UsbUtilities] (usb_settings_datashare.cpp, usb_api_metrics.cpp): the settings,
      over a data share that may fail, and the indices of error codes.
    - The JavaScript binding (interfaces/kits/js/napi: usb_info.cpp, napi_util.cpp;
      usb_napi_errors.cpp).  The engine is the class [Napi], one operation for each
      napi_ function the code calls, on values that are handles or null, each with a
      status that the code reads or ignores as it does there.  [NapiUtil]: the errors
      and the fields of objects.  [UsbInfoParse]: devices, ports and accessories to
      objects and back.  [UsbInfo]: the functions of the module that answer at once,
      over the state of the engine, the client library and the rest of the process
      (allocator, descriptors, metrics), each handler with its checks in their order.
      [UsbInfoAsync]: those that answer with a promise; the work that is queued has
      the two lambdas of the code, [g_..Execute] and [g_..Complete], as two steps.
      The same file has the transfers that answer through a callback, over shared
      memory, and the table of the module ([UsbInit]).  [NapiLaws] is the class of
      laws the theorems rely on: what an engine shows of its values ([NapiView]) and
      that its functions make and read them as documented, never change an object
      they were not given, and keep the first exception.  [Engine] is a small engine
      that obeys them ([toy_laws]).
      [SerialInfo] (serial_info.cpp, serial_napi_errors.h): the serial functions, a
      library of its own in the same process, with its own table of messages; what a
      refused copy leaves is the class [MemcpyFailure].
    - The ArkTS binding (frameworks/ets/taihe: ohos.usbManager.impl.cpp,
      ohos.usbManager.serial.impl.cpp and their interface descriptions).
      [UsbManagerImpl] has both modules: [taihe] the structures, [UsbManager] the
      functions of devices, functions, ports and accessories, [SerialPorts] those of
      serial ports.  The runtime is the class [Ani], and the handler of the main thread
      a queue of [Task]s.  A program's transfers and claims are the record [Library];
      a context is in it while the client library or the queue holds it.

    A component's state is a record with the fields of the class, every method a
    definition in the state monad with the method's name (overloads have a
    suffix).  Calls that only have an effect outside (notifications, broadcasts,
    reports) append to a trace in the state.  A null pointer that the code
    dereferences, an exception nobody catches and a read outside a buffer are
    explicit results ([None], [Fault]), never a default value.

    ** What is proved

    - [RightTheorems]: a check says yes only for a record that is valid now
      (C1), and exactly then when the database answers ([HasRight_exact]); revoking revokes
      (C3), but for the console user, granting grants for the validity period (C4), a request succeeds
      only with a right (C5); no clean-up takes a usable right away while
      the bundle manager answers (C6, C8; also
      [RemoveDeviceAllRight_scope]); token texts ([AddDeviceRightByToken_returns]);
      the subscription ([Init_retries]) and the sorted list
      ([StringVectorSortAndUniq_spec]).
    - [RightTheorems] (at its end): the transactions under them: the upsert is atomic on a
      store that fails anywhere (C33), the deletion and the expiry test are exact
      ([DeleteRightRecord_exact], [IsRecordExpired_exact]).
    - [UsbDeviceTheorems]: the invariant of all reachable states (C16), names and
      masks round-trip ([ConvertString_roundtrip], [ConvertFromString_names]), the
      broadcast loop ends ([BroadcastFuncChange_names]), function switching by
      branch ([SetCurrentFunctions_branches]), bounces of the line
      ([HandleEvent_bounce]), no file transfer after a disconnect or a user switch
      ([run_disconnect_no_transfer], [UserChangeProcess_no_transfer]).
    - [UsbPortManager] (at its end): the reachable tables and [UpdatePort]
      ([UpdatePort_exact]), [GetPorts] ([GetPorts_table]), the parcel
      ([port_parcel_roundtrip]).
    - [UsbAccessoryTheorems]: the order of broadcasts in all reachable states (C24),
      Base64 ([Base64Decode_encode]), debouncing ([HandleEvent_debounced]),
      recognition ([GetAccessorySerialNumber_exact]), the encodings of an accessory
      ([USBAccessory_roundtrip]).
    - [UsbDeviceTree]: a device tree through a parcel (C27) and through JSON
      ([UsbDevice_json_roundtrip]), with what is lost.
    - [UsbDescriptorTheorems]: the parser terminates inside the buffer on any
      bytes (C29), adds what each descriptor says, in order, up to the first that
      cannot be added (C38), reads back a serialised
      tree (C31), and the device descriptor ([ParseDeviceDescriptor_spec]).
    - [SerialTheorems]: only the owner of a port uses it ([serial_owner_only]) and it stays the
      owner whatever others do ([serial_ownership_stable]); the audit of all
      reachable states ([serial_audit]).
    - [UsbHostTheorems]: what applications hear about devices, in all states
      reached by arrivals, departures and policy requests that interleave (C10),
      by a simulation of the requests by the three steps of [policy_step]; each
      policy does to every device exactly what it asks, whatever the order of the
      tables (C11; also [ManageInterfaceType_exact], [ManageDevicePolicy_exact]), by
      a function on single devices that the loops are shown to map over the table ([UsbHostProofs], [UsbHostTables]); the
      strategy of an arriving device never waits (C36).  [UsbHostExamples]: the
      concrete platform of their witnesses.
    - [UsbServiceTheorems], for every interleaving of the steps of the service:
      no request about a device (C9) and no serial port (C14) without the right (the
      speed of a device and the state of an interface take the permission of a system
      application in its place),
      no policy request by others than the administrator ([manage_needs_admin]); claims are held
      and their recipients are exactly those needed (C21), an exclusive owner
      stays (C26), the bulk and submitted transfers of others are refused (C34), claims end with their holder (C7);
      listeners know the table of connections (C32); the service unloads when
      nothing is attached and not before (C35).  The claims are a small machine
      that the steps are shown to drive ([UsbServiceClaimProofs]); listeners follow the table by the relation of
      [UsbServiceConnProofs]; what each step leaves alone is in
      [UsbServiceFrames], by classes of views; the timer is in
      [UsbServiceUnload].  [UsbServiceExamples]: a concrete service, the
      witnesses, and what the checks leave out.
    - [UsbSrvClientTheorems], for every state the library reaches with other threads
      between its locks: an operation on a pipe is at most the one request it
      stands for (C13), succeeds through library and service only with the right that
      the service asks for (C17), and fails without a connection ([disconnected_requests_fail]); the service in use is
      the one whose death is watched, unless its proxy has no object (C19); conflicts of an
      exclusive claim reach its listener (C25).
      [UsbSrvClientProofs] has the rules that follow a method to the one call it
      makes, [UsbSrvClientSteps] the steps and what they leave
      alone, [UsbSrvClientExamples] a client, the service and their witnesses.
    - [UsbSwitchWindowTheorems]: a dialog is shown only while it is wanted (C23), a
      request that nothing refuses is carried out, at once or when the system has booted or
      the dialog is found (C22), and the null pointer behind a
      dismissal that comes before the dialog ([late_connection_faults]).
    - [UsbNotifierTheorems]: device manager and notifier together show that
      debugging is on exactly when it is (C2); which notification of the connection
      is shown and who takes it back ([connection_notification]).
    - [UsbTransferTheorems]: a completed transfer runs the callback of the process
      that asked, once and with what the driver reported, but for packets of an earlier
      one, or is lost (C40).
    - [OhUsbManagerTheorems]: the list of devices a C program gets is its own, is
      given back to the last block, and nothing leaks whichever allocation fails; its
      strings may then be empty (C20); null pointers ([null_pointers_refused]), pipes
      ([connect_gives_the_pipe]), one answer for each request of a permission
      ([permission_callbacks_once]).  [OhUsbManagerProofs] has the assertions for the
      structures and the specifications of the copies; the theorems are followed by a
      program that runs short of memory.
    - [UsbCliTheorems]: whatever the service and the memory do, the tool prints what
      ohos-usbManager.json documents ([output_is_documented]); with memory it is the
      list ([device_list_exact]); the flags come first ([flags_come_first]).  Runs of the tool follow them.
    - The JavaScript binding.  [UsbInfoTheorems]: a call with too few arguments or
      one of another type throws the documented error and does nothing else, for
      every function of the table of signatures as far as the table goes (C12); the device getDevices lists is
      the one connectDevice opens (C15).  [UsbInfoRoundTrip]: an object made of a
      device reads back as that device, but for the fields that the object has no place
      for, cut names and the power of its configurations, doubled (C18).  [UsbInfoPromises]: a promise is settled once,
      with what the service answered (C39); a bulk transfer passes the bytes of the
      array on and writes at most the array (C37).  [UsbInfoProofs] has the rules
      behind them, [UsbInfoExamples] a script on the concrete engine.
      [SerialInfoTheorems]: the serial functions of numbers answer with what the service
      answers or throw the code for it, or undefined where it has no message (C28); which bytes are sent and where those that
      come are put ([serial_write_sends_the_array], [serial_read_fills_the_array]); the
      list of ports ([serial_port_list]) and promises ([serial_promises_settle]).
    - The ArkTS binding.  [UsbManagerTheorems]: the laws of a runtime ([AniLaws]) and of
      one that works ([AniWorks]); in all states reached by submissions, completions,
      claims, conflicts and tasks in any order, every submitted transfer calls its
      function once and no deleted context is used, if the service reports the end of each
      once (C30), by the invariant [well_formed]; which errors are set ([fail_with_sets], [unsupported_throws],
      [serial_check_answers]), what structures carry ([endpoint_returns],
      [device_is_opened], [attributes_return]) and lose ([power_doubles]); at its end a
      runtime, a program and its runs.
    - [UsbUtilities] (at its end): an update sets exactly its setting, or is lost
      ([Update_sets]); the index of a code ([SetErrorCode_index]).

    The lemmas behind them are in the files of the components and in
    [UsbRightManagerProofs], [UsbDeviceProofs] and [UsbAccessoryProofs].  A
    theorem with hypotheses is followed by a run that applies it to a concrete
    state.  Examples record behaviour that is surprising: rights deleted because
    the bundle manager is away ([tidy_without_bundle_manager]), a control request
    that schedules a disconnect ([control_request_disconnects]), authentication
    that survives it ([auth_survives_with_mtp]), a stale role in a notification
    ([role_notification_is_old]), an empty vector read ([ports_info_out_of_range]),
    colliding accessory keys ([accessory_keys_collide]), a machine left without
    its timeout ([configuring_without_timeout]), a first read that is not
    reported ([death_hides_first_read]), a global prohibition that an empty list lifts
    ([a_global_prohibition_is_dropped]), an arrival that hides a departure
    ([an_arrival_at_an_occupied_address]), a trust list against the policy on
    serial devices ([the_trust_list_enables_a_serial_device]), an exclusive claim
    that an ordinary one ends ([a_normal_claim_ends_exclusivity]) and that a queued
    request ignores ([a_queued_request_ignores_the_claim]), an identity that outlives
    its device ([an_arrival_keeps_the_old_identity]), a script that gets an exception
    for a transfer that runs ([a_wrong_direction_is_thrown_and_transferred]), a
    handle that closes another accessory ([a_wrong_handle_closes_the_accessory]) or
    any descriptor ([any_descriptor_is_closed]), packets whose lengths are exchanged
    ([packet_lengths_are_swapped]) and a refused read that answers
    ([a_refused_read_answers]).

    ** Bounds and fuel

    The loop of the broadcast runs over the bits of a 32-bit mask: 32 iterations
    are enough ([BroadcastFuncChange_names]).  The parser of descriptors gets one unit of fuel per byte
    and one more: each round passes at least two bytes (C29).  The loop of
    [Init] has its own bound, [MAX_RETRY_TIMES], and so has the check for the dialog.  The loop of [GetUsbPolicy] gets
    one attempt more than pauses fit into its time limit, and one is enough (C36).
    The wait for the common event service has one round per retry that its
    counter still allows ([COMMEVENT_ROUNDS]), the wait for the driver its own
    bound ([SERVICE_STARTUP_MAX_TIME]).  All other recursion is
    structural.

    ** The build, and what is not modelled

    The build modelled is the one services/BUILD.gn selects
    (USB_MANAGER_V2_0, USB_MANAGER_PASS_THROUGH), with the shell's setting a
    parameter.  [SetUsbd] of the other build and logging are left out.  Locks are
    not modelled: each method is one step; where a method waits for the user while
    others run, the steps of the others are a parameter (C5), and delayed tasks
    are steps of their own (C16, C24, C35); an arriving device holds no lock while
    its policy runs, and others run there (C10).  [ClaimInterfaceExclusive] gives its lock
    up between its test and its entry, and is one step all the same.  The service and the host manager
    point to one serial manager; the object is kept in the host manager.  The
    numbers of cJSON are integers.

    Not modelled: the code that is generated from the interface descriptions of the
    ArkTS binding, of which only the keys of enumerations matter (the class
    [TaiheEnum]); the time a submission takes, which is logged; the dialog, a user interface; the timer wrapper
    and the reports, which forward to the system; [GetSetUid] of the notifier and [InitSerial] of
    the service, which nothing calls. *)
From stdpp Require Export base gmap strings list fin_maps pretty sorting.
From Stdlib Require Export ZArith Lia Ascii.

#[global] Open Scope Z_scope.

(** ** Machine integers

    The sources use [int32_t], [uint32_t], [int64_t], [uint64_t] and [uint8_t].
    Values are [Z]; a conversion between widths is written out where the code
    has one (an assignment between types, a [static_cast]). *)

Definition u8_max : Z := 255.
Definition u32_max : Z := 4294967295.
Definition to_u8 (z : Z) : Z := z `mod` 2 ^ 8.
Definition to_u32 (z : Z) : Z := z `mod` 2 ^ 32.
Definition to_u64 (z : Z) : Z := z `mod` 2 ^ 64.
Definition to_i32 (z : Z) : Z := (z + 2 ^ 31) `mod` 2 ^ 32 - 2 ^ 31.
Definition to_i64 (z : Z) : Z := (z + 2 ^ 63) `mod` 2 ^ 64 - 2 ^ 63.

Definition in_i32 (z : Z) : Prop := - 2 ^ 31 <= z < 2 ^ 31.
Definition in_u8 (z : Z) : Prop := 0 <= z < 2 ^ 8.
Definition in_u32 (z : Z) : Prop := 0 <= z < 2 ^ 32.
Definition in_i64 (z : Z) : Prop := - 2 ^ 63 <= z < 2 ^ 63.
Definition in_u64 (z : Z) : Prop := 0 <= z < 2 ^ 64.

Lemma to_u8_range z : in_u8 (to_u8 z).
Proof. unfold in_u8, to_u8. apply Z.mod_pos_bound. lia. Qed.
Lemma to_u32_range z : in_u32 (to_u32 z).
Proof. unfold in_u32, to_u32. apply Z.mod_pos_bound. lia. Qed.
Lemma to_u64_range z : in_u64 (to_u64 z).
Proof. unfold in_u64, to_u64. apply Z.mod_pos_bound. lia. Qed.
Lemma to_i32_range z : in_i32 (to_i32 z).
Proof.
  unfold in_i32, to_i32.
  pose proof (Z.mod_pos_bound (z + 2 ^ 31) (2 ^ 32)). lia.
Qed.
Lemma to_u32_id z : in_u32 z → to_u32 z = z.
Proof. unfold in_u32, to_u32. intros. by apply Z.mod_small. Qed.
Lemma to_u64_id z : in_u64 z → to_u64 z = z.
Proof. unfold in_u64, to_u64. intros. by apply Z.mod_small. Qed.
Lemma to_i32_id z : in_i32 z → to_i32 z = z.
Proof. unfold in_i32, to_i32. intros. rewrite Z.mod_small; lia. Qed.
Lemma to_i64_id z : in_i64 z → to_i64 z = z.
Proof. unfold in_i64, to_i64. intros. rewrite Z.mod_small; lia. Qed.

(** Storing an unsigned 64-bit value in a signed column and reading it back
    unsigned gives the value again. *)
Lemma to_u64_to_i64 z : in_u64 z → to_u64 (to_i64 z) = z.
Proof.
  unfold in_u64, to_u64, to_i64. intros Hz.
  rewrite Zminus_mod, Z.mod_mod, <- Zminus_mod by lia.
  replace (z + 2 ^ 63 - 2 ^ 63) with z by lia. by apply Z.mod_small.
Qed.
Lemma to_i32_to_u32 z : in_i32 z → to_i32 (to_u32 z) = z.
Proof.
  unfold in_i32, to_u32, to_i32. intros Hz.
  rewrite Zplus_mod, Z.mod_mod, <- Zplus_mod by lia.
  rewrite Z.mod_small; lia.
Qed.

(** A flag test [(x & mask) != 0]. *)
Definition has_flag (x mask : Z) : bool := negb (Z.land x mask =? 0).

(** ** Decimal texts

    [std::to_string] is stdpp's [pretty]; [digits_value] is what [strtoul] and
    [strtol] compute on a string of digits. *)

Definition is_digit (c : ascii) : bool := (48 <=? Z.of_N (N_of_ascii c)) && (Z.of_N (N_of_ascii c) <=? 57).
Definition digit_value (c : ascii) : Z := Z.of_N (N_of_ascii c) - 48.
Fixpoint all_digits (s : string) : bool :=
  match s with "" => true | String c s => is_digit c && all_digits s end.
Fixpoint digits_value_go (acc : Z) (s : string) : Z :=
  match s with "" => acc | String c s => digits_value_go (acc * 10 + digit_value c) s end.
Definition digits_value (s : string) : Z := digits_value_go 0 s.

Lemma pretty_char_digit x : (x < 10)%N →
  is_digit (pretty_N_char x) = true ∧ digit_value (pretty_N_char x) = Z.of_N x.
Proof.
  intros Hx.
  assert (x = 0 ∨ x = 1 ∨ x = 2 ∨ x = 3 ∨ x = 4 ∨ x = 5 ∨ x = 6 ∨ x = 7 ∨ x = 8 ∨ x = 9)%N as Hc by lia.
  by repeat destruct Hc as [->|Hc]; subst.
Qed.

Lemma digits_value_pretty_go x s acc : acc = 0 → (0 < x)%N →
  digits_value_go acc (pretty_N_go x s) = digits_value_go (Z.of_N x) s ∧
  all_digits (pretty_N_go x s) = all_digits s.
Proof.
  revert s acc. induction (N.lt_wf_0 x) as [x _ IH]. intros s acc -> Hx.
  rewrite pretty_N_go_step by done.
  destruct (pretty_char_digit (x `mod` 10)) as [Hd Hv]; [by apply N.mod_lt|].
  destruct (decide (x `div` 10 = 0)%N) as [Hz|Hz].
  - rewrite Hz, pretty_N_go_0. cbn [digits_value_go all_digits]. rewrite Hd, Hv.
    split; [|done]. f_equal.
    pose proof (N.Div0.div_mod x 10) as Hdm. rewrite Hz in Hdm. rewrite Hdm at 2. lia.
  - destruct (IH (x `div` 10)%N) with (s := String (pretty_N_char (x `mod` 10)) s) (acc := 0) as [-> ->];
      [apply N.div_lt; lia|done|by apply N.neq_0_lt_0|].
    cbn [digits_value_go all_digits]. rewrite Hd, Hv. split; [|done]. f_equal.
    pose proof (N.Div0.div_mod x 10) as Hdm. rewrite Hdm at 3. lia.
Qed.

Lemma digits_value_pretty z : 0 <= z → digits_value (pretty z) = z ∧ all_digits (pretty z) = true.
Proof.
  intros Hz. destruct z as [|p|p]; [done| |lia].
  change (pretty (Z.pos p)) with (pretty (N.pos p)). unfold pretty, pretty_N.
  case_decide; [lia|].
  destruct (digits_value_pretty_go (N.pos p) "" 0) as [H1 H2]; [done|lia|].
  unfold digits_value. rewrite H1, H2. done.
Qed.

(** The value of an optionally signed decimal text. *)
Definition dec_value (s : string) : Z :=
  match s with String "-" s => - digits_value s | _ => digits_value s end.

Lemma dec_value_pretty z : dec_value (pretty z) = z.
Proof.
  destruct (decide (0 <= z)) as [Hz|Hz].
  - destruct (digits_value_pretty z Hz) as [Hv Hd]. revert Hv Hd.
    unfold dec_value. destruct (pretty z) as [|c s] eqn:E; [done|].
    intros Hv Hd. destruct (ascii_dec c "-") as [->|Hc]; [done|].
    destruct c as [[] [] [] [] [] [] [] []]; done.
  - destruct z as [|p|p]; [lia|lia|].
    change (pretty (Z.neg p)) with (String "-" (pretty (Z.pos p))).
    cbn [dec_value]. destruct (digits_value_pretty (Z.pos p)) as [-> _]; lia.
Qed.

#[global] Instance pretty_Z_injective : Inj (=) (=) (pretty : Z → string).
Proof. intros a b E. by rewrite <- (dec_value_pretty a), <- (dec_value_pretty b), E. Qed.
(** Digits before a dash are found again. *)
Lemma digits_dash s1 s2 r1 r2 : all_digits s1 = true → all_digits s2 = true →
  s1 +:+ "-" +:+ r1 = s2 +:+ "-" +:+ r2 → s1 = s2 ∧ r1 = r2.
Proof.
  revert s2. induction s1 as [|c s1 IH]; intros [|c2 s2]; cbn [all_digits]; intros Hd1 Hd2 E.
  - by injection E.
  - injection E as <- _. done.
  - injection E as -> _. done.
  - apply andb_true_iff in Hd1 as [_ Hd1], Hd2 as [_ Hd2]. injection E as <- E.
    destruct (IH s2 Hd1 Hd2 E) as [<- <-]. done.
Qed.
Lemma string_app_assoc (a b c : string) : (a +:+ b) +:+ c = a +:+ (b +:+ c).
Proof. induction a as [|x a IH]; [done|exact (f_equal (String x) IH)]. Qed.
Lemma prefix_app p s : String.prefix p s = true → ∃ r, s = p +:+ r.
Proof.
  revert s. induction p as [|c p IH]; intros s; [by exists s|]. destruct s as [|c' s]; [done|]. cbn [String.prefix].
  destruct (ascii_dec c c') as [<-|]; [|done]. intros Hp. destruct (IH s Hp) as [r ->]. by exists r.
Qed.

(** *** [strtoul], [strtol], [stoul]

    The C functions skip white space, take an optional sign and the longest run
    of digits. *)
Definition is_space (c : ascii) : bool :=
  let n := Z.of_N (N_of_ascii c) in (n =? 32) || ((9 <=? n) && (n <=? 13)).
Fixpoint skip_spaces (s : string) : string :=
  match s with String c s' => if is_space c then skip_spaces s' else s | "" => "" end.
Fixpoint digit_run (s : string) : string * string :=
  match s with
  | String c s' => if is_digit c then let '(d, r) := digit_run s' in (String c d, r) else ("", s)
  | "" => ("", "")
  end.
(** Sign, digits and the rest; no digits means no conversion. *)
Definition scan_number (s : string) : bool * string * string :=
  let s := skip_spaces s in
  let '(neg, s) := match s with
                   | String "-" s' => (true, s')
                   | String "+" s' => (false, s')
                   | _ => (false, s)
                   end in
  let '(d, r) := digit_run s in (neg, d, r).

(** [errno == ERANGE] after [strtoull(s, nullptr, 10)]. *)
Definition strtoull_erange (s : string) : bool :=
  let '(_, d, _) := scan_number s in 2 ^ 64 - 1 <? digits_value d.

(** [std::stoul], with [unsigned long] of maximum [ulong_max]; [None] is an
    exception (no digits, or out of range). *)
Definition std_stoul (ulong_max : Z) (s : string) : option Z :=
  let '(neg, d, _) := scan_number s in
  if bool_decide (d = "") then None
  else if ulong_max <? digits_value d then None
  else Some (if neg then (- digits_value d) `mod` (ulong_max + 1) else digits_value d).

(** The regular expression [^[0-9]+$]. *)
Definition match_digits (s : string) : bool := negb (bool_decide (s = "")) && all_digits s.

Lemma digit_run_all s : all_digits s = true → digit_run s = (s, "").
Proof.
  induction s as [|c s IH]; [done|]. cbn [all_digits digit_run]. intros [Hc Hs]%andb_true_iff.
  by rewrite Hc, IH.
Qed.

Lemma scan_number_digits s : all_digits s = true → scan_number s = (false, s, "").
Proof.
  intros H. unfold scan_number.
  assert (skip_spaces s = s) as ->.
  { destruct s as [|c s]; [done|]. cbn [skip_spaces]. cbn [all_digits] in H.
    apply andb_true_iff in H as [Hc _]. replace (is_space c) with false; [done|]. symmetry.
    unfold is_digit in Hc. unfold is_space. apply andb_true_iff in Hc as [H1%Z.leb_le _].
    apply orb_false_iff. split; [apply Z.eqb_neq; lia|]. apply andb_false_iff. right. apply Z.leb_gt. lia. }
  destruct s as [|c s]; [done|].
  assert (c ≠ "-"%char ∧ c ≠ "+"%char) as [H1 H2].
  { cbn [all_digits] in H. apply andb_true_iff in H as [Hc _]. split; by intros ->. }
  pose proof (digit_run_all _ H) as Hd.
  destruct c as [[] [] [] [] [] [] [] []]; try done; cbv beta iota zeta; by rewrite Hd.
Qed.

(** [s.c_str()] read as a C string: up to the first NUL. *)
Fixpoint c_str (s : string) : string :=
  match s with
  | "" => ""
  | String c s => if bool_decide (c = Ascii.zero) then "" else String c (c_str s)
  end.

(** ** Hexadecimal texts

    [std::hex], with [std::uppercase] for the second alphabet, without leading
    zeros; eight digits hold a [uint32_t]. *)
Definition hex_lower : string := "0123456789abcdef".
Definition hex_upper : string := "0123456789ABCDEF".
Fixpoint hex_go (digits : string) (fuel : nat) (n : Z) (acc : string) : string :=
  match fuel with
  | O => acc
  | S fuel =>
      if n =? 0 then acc
      else hex_go digits fuel (n `div` 16) (String (default Ascii.zero (String.get (Z.to_nat (n `mod` 16)) digits)) acc)
  end.
Definition hex_text (digits : string) (n : Z) : string := if n =? 0 then "0" else hex_go digits 8 n "".
(** [std::setw] with [std::setfill('0')]. *)
Definition zero_fill (width : nat) (s : string) : string :=
  String.concat "" (repeat "0" (width - String.length s)) +:+ s.

(** ** Lists filtered by a boolean test *)

Lemma filter_negb_none {A} (f : A → bool) l :
  length (List.filter f l) = 0%nat → List.filter (λ x, negb (f x)) l = l.
Proof.
  induction l as [|x l IH]; [done|]. simpl. destruct (f x); simpl; [done|].
  intros H. by rewrite IH.
Qed.

Lemma length_filter_existsb {A} (f : A → bool) l :
  (0 <? Z.of_nat (length (List.filter f l))) = existsb f l.
Proof.
  induction l as [|x l IH]; [done|]. simpl. destruct (f x); simpl; [|done].
  apply Z.ltb_lt. lia.
Qed.

Lemma filter_ext_bool {A} (f g : A → bool) l : (∀ x, f x = g x) → List.filter f l = List.filter g l.
Proof. intros H. induction l as [|x l IH]; [done|]. simpl. by rewrite H, IH. Qed.

Lemma existsb_ext_bool {A} (f g : A → bool) l : (∀ x, f x = g x) → existsb f l = existsb g l.
Proof. intros H. induction l as [|x l IH]; [done|]. simpl. by rewrite H, IH. Qed.

(** ** The first occurrence of an element removed

    Lists of listeners and of death recipients. *)

Fixpoint remove_one {A} `{!EqDecision A} (x : A) (l : list A) : list A :=
  match l with [] => [] | y :: l => if bool_decide (y = x) then l else y :: remove_one x l end.

Section RemoveOne.
Context {A : Type} `{!EqDecision A}.
Implicit Types (x y : A) (l : list A).

Lemma elem_of_remove_one_incl x y l : y ∈ remove_one x l → y ∈ l.
Proof. induction l as [|z l IH]; [done|]. cbn [remove_one]. case_bool_decide; rewrite ?elem_of_cons; tauto. Qed.
Lemma elem_of_remove_one_ne x y l : y ≠ x → y ∈ remove_one x l ↔ y ∈ l.
Proof.
  intros Hy. induction l as [|z l IH]; [done|]. cbn [remove_one]. case_bool_decide; rewrite ?elem_of_cons; [subst z|]; tauto.
Qed.
Lemma NoDup_remove_one x l : NoDup l → NoDup (remove_one x l).
Proof.
  induction 1 as [|z l Hz Hl IH]; [constructor|]. cbn [remove_one]. case_bool_decide; [done|].
  constructor; [|done]. intros Hi. by apply Hz, (elem_of_remove_one_incl x).
Qed.
Lemma elem_of_remove_one x y l : NoDup l → y ∈ remove_one x l ↔ y ∈ l ∧ y ≠ x.
Proof.
  intros Hl. destruct (decide (y = x)) as [->|Hy]; [|rewrite elem_of_remove_one_ne by done; tauto].
  split; [|tauto]. intros Hi. exfalso. induction Hl as [|z l Hz Hl IH]; [by apply not_elem_of_nil in Hi|].
  cbn [remove_one] in Hi. case_bool_decide; [by subst|]. apply elem_of_cons in Hi as [?|?]; [congruence|auto].
Qed.
Lemma remove_one_app x l l' : x ∈ l → remove_one x (l ++ l') = remove_one x l ++ l'.
Proof.
  induction l as [|y l IH]; [by intros ?%not_elem_of_nil|]. cbn [remove_one app]. case_bool_decide; [done|].
  intros [?|?]%elem_of_cons; [congruence|]. cbn. by rewrite IH.
Qed.
Lemma filter_remove_one (f : A → bool) x l : f x = false → List.filter f (remove_one x l) = List.filter f l.
Proof.
  intros Hx. induction l as [|y l IH]; [done|]. cbn [remove_one]. case_bool_decide as E; [subst y|].
  - cbn. by rewrite Hx.
  - cbn. by rewrite IH.
Qed.
(** Seen through a partial function that is injective there. *)
Lemma omap_remove_one {B} `{!EqDecision B} (f : A → option B) x l :
  (∀ y, f y = f x → f x ≠ None → y = x) →
  omap f (remove_one x l) = match f x with Some b => remove_one b (omap f l) | None => omap f l end.
Proof.
  intros Hf. induction l as [|y l IH]; [by destruct (f x)|]. cbn [remove_one]. case_bool_decide as E.
  - subst y. cbn. destruct (f x) as [b|]; cbn; [by rewrite bool_decide_true|done].
  - cbn. rewrite IH. destruct (f y) as [c|] eqn:Ey, (f x) as [b|] eqn:Ex; cbn; try done.
    rewrite bool_decide_false; [done|]. intros ->. apply E, Hf; congruence.
Qed.
Lemma omap_remove_one_None {B} (f : A → option B) x l : f x = None → omap f (remove_one x l) = omap f l.
Proof.
  intros Hx. induction l as [|y l IH]; [done|]. cbn [remove_one]. case_bool_decide as E; [subst y|]; cbn.
  - by rewrite Hx.
  - by rewrite IH.
Qed.
End RemoveOne.

(** ** The state monad

    Stateful code is a function of the state it touches; the notations are
    stdpp's [x ← m; k] and [m1;; m2]. *)

Definition state (S A : Type) : Type := S → A * S.
#[global] Instance state_ret S : MRet (state S) := λ A a s, (a, s).
#[global] Instance state_bind S : MBind (state S) :=
  λ A B f m s, let '(a, s') := m s in f a s'.
Definition get {S} : state S S := λ s, (s, s).
Definition gets {S A} (f : S → A) : state S A := λ s, (f s, s).
Definition modify {S} (f : S → S) : state S () := λ s, ((), f s).

(** Run a step of a sub-object stored in a field of the state. *)
Definition zoom {S T A} (prj : S → T) (upd : T → S → S) (m : state T A) : state S A :=
  λ s, let '(a, t) := m (prj s) in (a, upd t s).

(** The C++ [for] over a vector, with a body that may leave the function early
    by returning [Some]. *)
Fixpoint for_return {S A R} (body : A → state S (option R)) (l : list A) : state S (option R) :=
  match l with
  | [] => mret None
  | x :: l => r ← body x; match r with Some v => mret (Some v) | None => for_return body l end
  end.
Fixpoint for_each {S A} (body : A → state S ()) (l : list A) : state S () :=
  match l with
  | [] => mret ()
  | x :: l => body x;; for_each body l
  end.

Lemma bind_run {S A B} (m : state S A) (f : A → state S B) s :
  (m ≫= f) s = f (m s).1 (m s).2.
Proof. unfold mbind, state_bind. by destruct (m s). Qed.
Lemma ret_run {S A} (a : A) (s : S) : (mret a : state S A) s = (a, s).
Proof. done. Qed.

(** ** Triples: pre/post reasoning on monadic code *)

Definition triple {S A} (P : S → Prop) (m : state S A) (Q : A → S → Prop) : Prop :=
  ∀ s, P s → Q (m s).1 (m s).2.

Lemma triple_ret {S A} (P : S → Prop) (a : A) (Q : A → S → Prop) :
  (∀ s, P s → Q a s) → triple P (mret a) Q.
Proof. intros H s Hs. apply H, Hs. Qed.
Lemma triple_bind {S A B} P (R : A → S → Prop) (m : state S A) (f : A → state S B) Q :
  triple P m R → (∀ a, triple (R a) (f a) Q) → triple P (m ≫= f) Q.
Proof. intros Hm Hf s Hs. rewrite bind_run. apply Hf, Hm, Hs. Qed.
Lemma triple_conseq {S A} (P P' : S → Prop) (m : state S A) (Q Q' : A → S → Prop) :
  triple P' m Q' → (∀ s, P s → P' s) → (∀ a s, Q' a s → Q a s) → triple P m Q.
Proof. intros H HP HQ s Hs. apply HQ, H, HP, Hs. Qed.
(** A fact about the value so far moves into the context. *)
Lemma triple_pure {S A} (φ : Prop) (P : S → Prop) (m : state S A) (Q : A → S → Prop) :
  (φ → triple P m Q) → triple (λ s, φ ∧ P s) m Q.
Proof. intros H s [Hφ Hs]. by apply H. Qed.
Lemma triple_if {S A} P (b : bool) (m1 m2 : state S A) Q :
  (b = true → triple P m1 Q) → (b = false → triple P m2 Q) →
  triple P (if b then m1 else m2) Q.
Proof. destruct b; auto. Qed.
Lemma triple_modify {S} (P : S → Prop) f (Q : () → S → Prop) :
  (∀ s, P s → Q () (f s)) → triple P (modify f) Q.
Proof. intros H s Hs. apply H, Hs. Qed.

(** An invariant kept by every iteration is kept by the loop. *)
Lemma triple_for_each {S A} (I : S → Prop) (body : A → state S ()) l :
  (∀ x, x ∈ l → triple I (body x) (λ _, I)) → triple I (for_each body l) (λ _, I).
Proof.
  induction l as [|x l IH]; intros H; cbn [for_each]; [by apply triple_ret|].
  apply (triple_bind _ (λ _, I)); [apply H; left|]. intros []. apply IH. intros y Hy. apply H. by right.
Qed.

(** ** Runs: how a computation may change the state

    [Runs R f]: the state after [f] is related to the state before.  For a
    preorder this follows the structure of the code; the tactic [runs] does so,
    with the facts about calls in the hint database of the same name. *)

Definition Runs {S A} (R : relation S) (f : state S A) : Prop := ∀ s, R s (f s).2.

Section Runs.
Context {S : Type} (R : relation S) `{!PreOrder R}.

Lemma runs_ret {A} (a : A) : Runs R (mret a).
Proof. intros s. reflexivity. Qed.
Lemma runs_gets {A} (f : S → A) : Runs R (gets f).
Proof. intros s. reflexivity. Qed.
Lemma runs_bind {A B} (f : state S A) (g : A → state S B) : Runs R f → (∀ a, Runs R (g a)) → Runs R (f ≫= g).
Proof. intros Hf Hg s. rewrite bind_run. etransitivity; [apply Hf|apply Hg]. Qed.
(** What is read is the state the rest runs from. *)
Lemma runs_get_at {A} (g : S → state S A) : (∀ s, R s (g s s).2) → Runs R (get ≫= g).
Proof. intros Hg s. rewrite bind_run. apply Hg. Qed.
Lemma runs_get {A} (g : S → state S A) : (∀ s, Runs R (g s)) → Runs R (get ≫= g).
Proof. intros Hg s. rewrite bind_run. apply Hg. Qed.
Lemma runs_modify f : (∀ s, R s (f s)) → Runs R (modify f).
Proof. intros Hf s. apply Hf. Qed.
Lemma runs_if {A} (b : bool) (f g : state S A) : Runs R f → Runs R g → Runs R (if b then f else g).
Proof. by destruct b. Qed.
Lemma runs_for_each {A} (body : A → state S ()) l : (∀ x, Runs R (body x)) → Runs R (for_each body l).
Proof. intros Hb. induction l; cbn [for_each]; [apply runs_ret|]. apply runs_bind; auto. Qed.
Lemma runs_for_return {A X} (body : A → state S (option X)) l : (∀ x, Runs R (body x)) → Runs R (for_return body l).
Proof.
  intros Hb. induction l; cbn [for_return]; [apply runs_ret|]. apply runs_bind; [done|]. intros []; [apply runs_ret|done].
Qed.
Lemma runs_mapM {A B} (body : A → state S B) l : (∀ x, Runs R (body x)) → Runs R (mapM body l).
Proof.
  intros Hb. induction l; cbn [mapM]; [apply runs_ret|].
  apply runs_bind; [done|]. intros y. apply runs_bind; [done|]. intros z. apply runs_ret.
Qed.
Lemma runs_rtc (T : relation S) : (∀ s s', T s s' → R s s') → ∀ s s', rtc T s s' → R s s'.
Proof. intros HT. induction 1; [reflexivity|]. etransitivity; eauto. Qed.
End Runs.
Lemma runs_weaken {S A} (R R' : relation S) (f : state S A) : (∀ s s', R s s' → R' s s') → Runs R f → Runs R' f.
Proof. intros Hw Hf s. apply Hw, Hf. Qed.
(** A relation on a part of the state. *)
Lemma runs_zoom {S T A} (R : relation S) (prj : S → T) (upd : T → S → S) (f : state T A) :
  (∀ s, R s (upd (f (prj s)).2 s)) → Runs R (zoom prj upd f).
Proof. intros Hf s. unfold zoom. specialize (Hf s). by destruct (f (prj s)). Qed.

Create HintDb runs discriminated.
Ltac runs := repeat match goal with
  | |- ∀ _, _ => intros ?
  | |- Runs _ (mret _) => apply runs_ret; apply _
  | |- Runs _ (gets _) => apply runs_gets; apply _
  | |- Runs _ (get ≫= _) => apply runs_get; intros ?
  | |- Runs _ _ => solve [auto with runs]
  | |- Runs _ (_ ≫= _) => apply runs_bind; [apply _| |]
  | |- Runs _ (if _ then _ else _) => apply runs_if
  | |- Runs _ (for_each _ _) => apply runs_for_each; [apply _|]
  | |- Runs _ (for_return _ _) => apply runs_for_return; [apply _|]
  | |- Runs _ (mapM _ _) => apply runs_mapM; [apply _|]
  | |- Runs _ (let '(_, _) := ?p in _) => destruct p as [? ?]
  | |- Runs _ (match ?o with Some _ => _ | None => _ end) => destruct o
  | |- Runs _ (match ?o with _ => _ end) => destruct o
  | |- Runs _ _ => progress (cbv zeta beta)
  end.

(** ** Automation *)

Create HintDb usb discriminated.

(** Split the next pair bound by a [let], boolean test or match on an option,
    the innermost scrutinee first. *)
Ltac destruct_scrutinee m :=
  lazymatch m with
  | context [let '(_, _) := ?n in _] => destruct_scrutinee n
  | context [if ?b then _ else _] => destruct_scrutinee b
  | context [match ?o with Some _ => _ | None => _ end] => destruct_scrutinee o
  | (_, _) => fail
  | true => fail
  | false => fail
  | Some _ => fail
  | None => fail
  | _ => let E := fresh "E" in destruct m eqn:E
  end.
Ltac run_step :=
  match goal with
  | |- context [let '(_, _) := ?m in _] => destruct_scrutinee m
  | |- context [if ?b then _ else _] => destruct_scrutinee b
  | |- context [match ?o with Some _ => _ | None => _ end] => destruct_scrutinee o
  end.
Ltac run_unfold := unfold mbind, state_bind, mret, state_ret, get, gets, modify, zoom in *; cbn beta iota zeta in *.
Ltac run := run_unfold; repeat (run_step; cbn beta iota zeta in *).

(** Turn boolean comparisons in the context into propositions. *)
Ltac zbool :=
  repeat match goal with
  | H : (_ =? _) = true |- _ => apply Z.eqb_eq in H
  | H : (_ =? _) = false |- _ => apply Z.eqb_neq in H
  | H : (_ <? _) = true |- _ => apply Z.ltb_lt in H
  | H : (_ <? _) = false |- _ => apply Z.ltb_ge in H
  | H : (_ <=? _) = true |- _ => apply Z.leb_le in H
  | H : (_ <=? _) = false |- _ => apply Z.leb_gt in H
  | H : negb _ = true |- _ => apply negb_true_iff in H
  | H : negb _ = false |- _ => apply negb_false_iff in H
  | H : (_ && _)%bool = true |- _ => apply andb_true_iff in H; destruct H
  | H : (_ || _)%bool = false |- _ => apply orb_false_iff in H; destruct H
  | H : bool_decide _ = true |- _ => apply bool_decide_eq_true in H
  | H : bool_decide _ = false |- _ => apply bool_decide_eq_false in H
  end.
