(* ===== verification/UsbErrors.v ===== *)
(** * Error codes of the service (utils/native/include/usb_errors.h)

    [UsbErrCode] is an enumeration whose values are consecutive from two bases
    computed by [ErrCodeOffset(SUBSYS_USB, module)], which the platform's
    errors.h defines; the base is the parameter [USBFWK_SERVICE_ERR_OFFSET] of
    the class [ErrCodeBase].  What the code relies on is that the codes are
    positive [int32_t] values, hence all different from [UEC_OK] and from the
    negative [USB_RIGHT_*] codes. *)
From S2P Require Import Prelude.

Class ErrCodeBase := {
  USBFWK_SERVICE_ERR_OFFSET : Z;
  err_offset_range : 0 < USBFWK_SERVICE_ERR_OFFSET < 2 ^ 31 - 1024;
}.

Definition USB_OFFSET : Z := 100.
Definition UEC_OK : Z := 0.

(** The enumerators of [UsbErrCode], in the order of the source. *)
Inductive UsbErrCode :=
  | UEC_INTERFACE_NO_MEMORY
  | UEC_INTERFACE_INVALID_OPERATION
  | UEC_INTERFACE_INVALID_VALUE
  | UEC_INTERFACE_NAME_NOT_FOUND
  | UEC_INTERFACE_PERMISSION_DENIED
  | UEC_INTERFACE_NO_INIT
  | UEC_INTERFACE_ALREADY_EXISTS
  | UEC_INTERFACE_DEAD_OBJECT
  | UEC_INTERFACE_OVERFLOW
  | UEC_INTERFACE_ENOUGH_DATA
  | UEC_INTERFACE_WOULD_BLOCK
  | UEC_INTERFACE_TIMED_OUT
  | UEC_INTERFACE_WRITE_PARCEL_ERROR
  | UEC_INTERFACE_READ_PARCEL_ERROR
  | UEC_INTERFACE_GET_SYSTEM_ABILITY_MANAGER_FAILED
  | UEC_INTERFACE_GET_USB_SERVICE_FAILED
  | UEC_INTERFACE_ADD_DEATH_RECIPIENT_FAILED
  | UEC_INTERFACE_INNER_ERR
  | UEC_INTREFACE_END
  | UEC_SERVICE_NO_MEMORY
  | UEC_SERVICE_INVALID_OPERATION
  | UEC_SERVICE_INVALID_VALUE
  | UEC_SERVICE_NAME_NOT_FOUND
  | UEC_SERVICE_PERMISSION_DENIED
  | UEC_SERVICE_NO_INIT
  | UEC_SERVICE_ALREADY_EXISTS
  | UEC_SERVICE_DEAD_OBJECT
  | UEC_SERVICE_OVERFLOW
  | UEC_SERVICE_ENOUGH_DATA
  | UEC_SERVICE_WOULD_BLOCK
  | UEC_SERVICE_TIMED_OUT
  | UEC_SERVICE_WRITE_PARCEL_ERROR
  | UEC_SERVICE_READ_PARCEL_ERROR
  | UEC_SERVICE_GET_SYSTEM_ABILITY_MANAGER_FAILED
  | UEC_SERVICE_GET_USB_SERVICE_FAILED
  | UEC_SERVICE_ADD_DEATH_RECIPIENT_FAILED
  | UEC_SERVICE_INNER_ERR
  | UEC_SERVICE_PERMISSION_DENIED_SYSAPI
  | UEC_SERVICE_PERMISSION_CHECK_HDC
  | UEC_SERVICE_NOT_SUPPORT_SWITCH_PORT
  | UEC_SERVICE_END
  | UEC_SERVICE_PRE_MANAGE_INTERFACE_FAILED
  | UEC_SERVICE_EXECUTE_POLICY_FAILED
  | UEC_SERVICE_PREPARE_EDM_SA_FAILED
  | UEC_SERVICE_GET_EDM_SERVICE_FAILED
  | UEC_SERVICE_EDM_DEVICE_SIZE_EXCEED
  | UEC_SERVICE_EDM_SA_TIME_OUT_FAILED
  | UEC_SERVICE_EDM_SEND_REQUEST_FAILED
  | UEC_SERVICE_OBJECT_CREATE_FAILED
  | UEC_SERVICE_GET_TOKEN_INFO_FAILED
  | UEC_SERVICE_ACCESSORY_NOT_MATCH
  | UEC_SERVICE_ACCESSORY_REOPEN
  | UEC_SERVICE_ACCESSORY_OPEN_NATIVE_NODE_FAILED
  | UEC_SERVICE_DATABASE_OPERATION_FAILED
  | UEC_SERVICE_FUNCTION_NOT_SUPPORT
  | UEC_SERVICE_PERMISSION_DENIED_SYSAPI_FAILED
  | UEC_SERIAL_PORT_REPEAT_OPEN
  | UEC_SERIAL_PORT_REPEAT_CLOSE
  | UEC_SERIAL_PORT_NOT_OPEN
  | UEC_SERIAL_IO_EXCEPTION
  | UEC_SERIAL_DEVICENOTOPEN
  | UEC_SERIAL_OTHER_ERROR
  | UEC_SERIAL_PORT_NOT_EXIST
  | UEC_SERIAL_PORT_OCCUPIED
  | UEC_SERIAL_DATEBASE_ERROR
  | UEC_INTERFACE_BUSY
  | UEC_SERVICE_IO_EXCEPTION.

#[global] Instance UsbErrCode_eq_dec : EqDecision UsbErrCode.
Proof. solve_decision. Defined.

(** The value of an enumerator relative to [USBFWK_SERVICE_ERR_OFFSET]. *)
Definition UsbErrCode_index (e : UsbErrCode) : Z :=
  match e with
  | UEC_INTERFACE_NO_MEMORY => 0
  | UEC_INTERFACE_INVALID_OPERATION => 1
  | UEC_INTERFACE_INVALID_VALUE => 2
  | UEC_INTERFACE_NAME_NOT_FOUND => 3
  | UEC_INTERFACE_PERMISSION_DENIED => 4
  | UEC_INTERFACE_NO_INIT => 5
  | UEC_INTERFACE_ALREADY_EXISTS => 6
  | UEC_INTERFACE_DEAD_OBJECT => 7
  | UEC_INTERFACE_OVERFLOW => 8
  | UEC_INTERFACE_ENOUGH_DATA => 9
  | UEC_INTERFACE_WOULD_BLOCK => 10
  | UEC_INTERFACE_TIMED_OUT => 11
  | UEC_INTERFACE_WRITE_PARCEL_ERROR => 12
  | UEC_INTERFACE_READ_PARCEL_ERROR => 13
  | UEC_INTERFACE_GET_SYSTEM_ABILITY_MANAGER_FAILED => 14
  | UEC_INTERFACE_GET_USB_SERVICE_FAILED => 15
  | UEC_INTERFACE_ADD_DEATH_RECIPIENT_FAILED => 16
  | UEC_INTERFACE_INNER_ERR => 17
  | UEC_INTREFACE_END => 18
  | UEC_SERVICE_NO_MEMORY => USB_OFFSET + 0
  | UEC_SERVICE_INVALID_OPERATION => USB_OFFSET + 1
  | UEC_SERVICE_INVALID_VALUE => USB_OFFSET + 2
  | UEC_SERVICE_NAME_NOT_FOUND => USB_OFFSET + 3
  | UEC_SERVICE_PERMISSION_DENIED => USB_OFFSET + 4
  | UEC_SERVICE_NO_INIT => USB_OFFSET + 5
  | UEC_SERVICE_ALREADY_EXISTS => USB_OFFSET + 6
  | UEC_SERVICE_DEAD_OBJECT => USB_OFFSET + 7
  | UEC_SERVICE_OVERFLOW => USB_OFFSET + 8
  | UEC_SERVICE_ENOUGH_DATA => USB_OFFSET + 9
  | UEC_SERVICE_WOULD_BLOCK => USB_OFFSET + 10
  | UEC_SERVICE_TIMED_OUT => USB_OFFSET + 11
  | UEC_SERVICE_WRITE_PARCEL_ERROR => USB_OFFSET + 12
  | UEC_SERVICE_READ_PARCEL_ERROR => USB_OFFSET + 13
  | UEC_SERVICE_GET_SYSTEM_ABILITY_MANAGER_FAILED => USB_OFFSET + 14
  | UEC_SERVICE_GET_USB_SERVICE_FAILED => USB_OFFSET + 15
  | UEC_SERVICE_ADD_DEATH_RECIPIENT_FAILED => USB_OFFSET + 16
  | UEC_SERVICE_INNER_ERR => USB_OFFSET + 17
  | UEC_SERVICE_PERMISSION_DENIED_SYSAPI => USB_OFFSET + 18
  | UEC_SERVICE_PERMISSION_CHECK_HDC => USB_OFFSET + 19
  | UEC_SERVICE_NOT_SUPPORT_SWITCH_PORT => USB_OFFSET + 20
  | UEC_SERVICE_END => USB_OFFSET + 21
  | UEC_SERVICE_PRE_MANAGE_INTERFACE_FAILED => USB_OFFSET + 22
  | UEC_SERVICE_EXECUTE_POLICY_FAILED => USB_OFFSET + 23
  | UEC_SERVICE_PREPARE_EDM_SA_FAILED => USB_OFFSET + 24
  | UEC_SERVICE_GET_EDM_SERVICE_FAILED => USB_OFFSET + 25
  | UEC_SERVICE_EDM_DEVICE_SIZE_EXCEED => USB_OFFSET + 26
  | UEC_SERVICE_EDM_SA_TIME_OUT_FAILED => USB_OFFSET + 27
  | UEC_SERVICE_EDM_SEND_REQUEST_FAILED => USB_OFFSET + 28
  | UEC_SERVICE_OBJECT_CREATE_FAILED => USB_OFFSET + 29
  | UEC_SERVICE_GET_TOKEN_INFO_FAILED => USB_OFFSET + 30
  | UEC_SERVICE_ACCESSORY_NOT_MATCH => USB_OFFSET + 31
  | UEC_SERVICE_ACCESSORY_REOPEN => USB_OFFSET + 32
  | UEC_SERVICE_ACCESSORY_OPEN_NATIVE_NODE_FAILED => USB_OFFSET + 33
  | UEC_SERVICE_DATABASE_OPERATION_FAILED => USB_OFFSET + 34
  | UEC_SERVICE_FUNCTION_NOT_SUPPORT => USB_OFFSET + 35
  | UEC_SERVICE_PERMISSION_DENIED_SYSAPI_FAILED => USB_OFFSET + 36
  | UEC_SERIAL_PORT_REPEAT_OPEN => USB_OFFSET + 37
  | UEC_SERIAL_PORT_REPEAT_CLOSE => USB_OFFSET + 38
  | UEC_SERIAL_PORT_NOT_OPEN => USB_OFFSET + 39
  | UEC_SERIAL_IO_EXCEPTION => USB_OFFSET + 40
  | UEC_SERIAL_DEVICENOTOPEN => USB_OFFSET + 41
  | UEC_SERIAL_OTHER_ERROR => USB_OFFSET + 42
  | UEC_SERIAL_PORT_NOT_EXIST => USB_OFFSET + 43
  | UEC_SERIAL_PORT_OCCUPIED => USB_OFFSET + 44
  | UEC_SERIAL_DATEBASE_ERROR => USB_OFFSET + 45
  | UEC_INTERFACE_BUSY => USB_OFFSET + 46
  | UEC_SERVICE_IO_EXCEPTION => USB_OFFSET + 47
  end.

Definition all_UsbErrCode : list UsbErrCode :=
    [ UEC_INTERFACE_NO_MEMORY; UEC_INTERFACE_INVALID_OPERATION; UEC_INTERFACE_INVALID_VALUE;
    UEC_INTERFACE_NAME_NOT_FOUND; UEC_INTERFACE_PERMISSION_DENIED; UEC_INTERFACE_NO_INIT;
    UEC_INTERFACE_ALREADY_EXISTS; UEC_INTERFACE_DEAD_OBJECT; UEC_INTERFACE_OVERFLOW;
    UEC_INTERFACE_ENOUGH_DATA; UEC_INTERFACE_WOULD_BLOCK; UEC_INTERFACE_TIMED_OUT;
    UEC_INTERFACE_WRITE_PARCEL_ERROR; UEC_INTERFACE_READ_PARCEL_ERROR;
    UEC_INTERFACE_GET_SYSTEM_ABILITY_MANAGER_FAILED; UEC_INTERFACE_GET_USB_SERVICE_FAILED;
    UEC_INTERFACE_ADD_DEATH_RECIPIENT_FAILED; UEC_INTERFACE_INNER_ERR; UEC_INTREFACE_END;
    UEC_SERVICE_NO_MEMORY; UEC_SERVICE_INVALID_OPERATION; UEC_SERVICE_INVALID_VALUE;
    UEC_SERVICE_NAME_NOT_FOUND; UEC_SERVICE_PERMISSION_DENIED; UEC_SERVICE_NO_INIT;
    UEC_SERVICE_ALREADY_EXISTS; UEC_SERVICE_DEAD_OBJECT; UEC_SERVICE_OVERFLOW;
    UEC_SERVICE_ENOUGH_DATA; UEC_SERVICE_WOULD_BLOCK; UEC_SERVICE_TIMED_OUT;
    UEC_SERVICE_WRITE_PARCEL_ERROR; UEC_SERVICE_READ_PARCEL_ERROR;
    UEC_SERVICE_GET_SYSTEM_ABILITY_MANAGER_FAILED; UEC_SERVICE_GET_USB_SERVICE_FAILED;
    UEC_SERVICE_ADD_DEATH_RECIPIENT_FAILED; UEC_SERVICE_INNER_ERR;
    UEC_SERVICE_PERMISSION_DENIED_SYSAPI; UEC_SERVICE_PERMISSION_CHECK_HDC;
    UEC_SERVICE_NOT_SUPPORT_SWITCH_PORT; UEC_SERVICE_END; UEC_SERVICE_PRE_MANAGE_INTERFACE_FAILED;
    UEC_SERVICE_EXECUTE_POLICY_FAILED; UEC_SERVICE_PREPARE_EDM_SA_FAILED;
    UEC_SERVICE_GET_EDM_SERVICE_FAILED; UEC_SERVICE_EDM_DEVICE_SIZE_EXCEED;
    UEC_SERVICE_EDM_SA_TIME_OUT_FAILED; UEC_SERVICE_EDM_SEND_REQUEST_FAILED;
    UEC_SERVICE_OBJECT_CREATE_FAILED; UEC_SERVICE_GET_TOKEN_INFO_FAILED;
    UEC_SERVICE_ACCESSORY_NOT_MATCH; UEC_SERVICE_ACCESSORY_REOPEN;
    UEC_SERVICE_ACCESSORY_OPEN_NATIVE_NODE_FAILED; UEC_SERVICE_DATABASE_OPERATION_FAILED;
    UEC_SERVICE_FUNCTION_NOT_SUPPORT; UEC_SERVICE_PERMISSION_DENIED_SYSAPI_FAILED;
    UEC_SERIAL_PORT_REPEAT_OPEN; UEC_SERIAL_PORT_REPEAT_CLOSE; UEC_SERIAL_PORT_NOT_OPEN;
    UEC_SERIAL_IO_EXCEPTION; UEC_SERIAL_DEVICENOTOPEN; UEC_SERIAL_OTHER_ERROR;
    UEC_SERIAL_PORT_NOT_EXIST; UEC_SERIAL_PORT_OCCUPIED; UEC_SERIAL_DATEBASE_ERROR;
    UEC_INTERFACE_BUSY; UEC_SERVICE_IO_EXCEPTION ].

(** The enumerator with a given relative value: 19 codes from 0, the rest from
    [USB_OFFSET]. *)
Definition UsbErrCode_of_index (i : Z) : option UsbErrCode :=
  all_UsbErrCode !! Z.to_nat (if i <? USB_OFFSET then i else i - USB_OFFSET + 19).

Lemma UsbErrCode_of_index_index e : UsbErrCode_of_index (UsbErrCode_index e) = Some e.
Proof. by destruct e. Qed.

#[global] Instance UsbErrCode_index_inj : Inj (=) (=) UsbErrCode_index.
Proof.
  intros e1 e2 Heq. apply (inj Some). by rewrite <- !UsbErrCode_of_index_index, Heq.
Qed.

Section Values.
Context `{!ErrCodeBase}.

(** The [int32_t] an enumerator converts to. *)
Definition uec (e : UsbErrCode) : Z := USBFWK_SERVICE_ERR_OFFSET + UsbErrCode_index e.

Lemma uec_index_range e : 0 <= UsbErrCode_index e <= 200.
Proof. destruct e; unfold UsbErrCode_index, USB_OFFSET; lia. Qed.

Lemma uec_pos e : 0 < uec e.
Proof. pose proof (uec_index_range e). pose proof err_offset_range. unfold uec. lia. Qed.

Lemma uec_in_i32 e : in_i32 (uec e).
Proof.
  pose proof (uec_index_range e). pose proof err_offset_range.
  unfold uec, in_i32. lia.
Qed.

Lemma uec_not_OK e : uec e ≠ UEC_OK.
Proof. pose proof (uec_pos e). unfold UEC_OK. lia. Qed.

#[global] Instance uec_inj : Inj (=) (=) uec.
Proof. intros e1 e2 Heq. apply UsbErrCode_index_inj. unfold uec in Heq. lia. Qed.
End Values.

(** [UsbRightErrCode]. *)
Definition USB_RIGHT_OK : Z := 0.
Definition USB_RIGHT_FAILURE : Z := -1.
Definition USB_RIGHT_RDB_EXECUTE_FAILTURE : Z := -2.
Definition USB_RIGHT_RDB_NO_INIT : Z := -3.
Definition USB_RIGHT_RDB_EMPTY : Z := -4.
Definition USB_RIGHT_PERMISSION_DENIED : Z := -5.
Definition USB_RIGHT_NOP : Z := -6.
Definition USB_RIGHT_OVERFLOW : Z := -7.

#[export] Hint Resolve uec_not_OK uec_pos : usb.

(** A base with the shape [errors.h] gives it, for evaluating the model. *)
Definition demo_err_base : ErrCodeBase.
Proof. refine {| USBFWK_SERVICE_ERR_OFFSET := 83886080 |}. lia. Defined.
