(* ===== verification/Platform.v ===== *)
(** * Platform libraries the components share

    Interfaces of code outside the repository that several components call:
    cJSON trees and their printer, and the IPC parcel.  Each is a class of
    operations with a class of the laws the callers rely on; a small concrete
    instance of each evaluates the model. *)
From S2P Require Import Prelude.

(** ** cJSON *)

Set Warnings "-register-all".

(** The trees the sources build with [cJSON_CreateObject], [cJSON_CreateArray],
    [cJSON_CreateNumber], [cJSON_AddBoolToObject] and [cJSON_AddStringToObject]. *)
Inductive cjson :=
  | JNumber (z : Z)
  | JBool (b : bool)
  | JString (s : string)
  | JArray (items : list cjson)
  | JObject (members : list (string * cjson)).

Class CJson := {
  cJSON_Create_ok : bool;                       (* allocation of a node succeeds *)
  cJSON_PrintUnformatted : cjson → option string;
  cJSON_Parse : string → option cjson;
  cJSON_GetObjectItem : cjson → string → option cjson;
  (* what [cJSON_GetArraySize] and [cJSON_GetArrayItem] reach *)
  cJSON_items : cjson → list cjson;
}.

(** The library compares the names of an object's items without regard to case. *)
Definition lower_char (c : ascii) : ascii :=
  let n := N_of_ascii c in if (65 <=? n)%N && (n <=? 90)%N then ascii_of_N (n + 32) else c.
Fixpoint lower (s : string) : string :=
  match s with "" => "" | String c s => String (lower_char c) (lower s) end.
Definition member (kvs : list (string * cjson)) (k : string) : option cjson :=
  snd <$> find (λ p, bool_decide (lower p.1 = lower k)) kvs.

(** [item->valueint]: the number, kept in the range of [int]. *)
Definition valueint (z : Z) : Z := Z.max (- 2 ^ 31) (Z.min (2 ^ 31 - 1) z).
Lemma valueint_id z : in_i32 z → valueint z = z.
Proof. unfold in_i32, valueint. lia. Qed.

(** Printing succeeds and parses back; an item is the first with its name. *)
Class CJsonLaws `{!CJson} := {
  law_json_create : cJSON_Create_ok = true;
  law_json_print j : is_Some (cJSON_PrintUnformatted j);
  law_json_parse j s : cJSON_PrintUnformatted j = Some s → cJSON_Parse s = Some j;
  law_json_item kvs k : cJSON_GetObjectItem (JObject kvs) k = member kvs k;
  law_json_items l : cJSON_items (JArray l) = l;
}.

(** *** A printer that is a numbering of the trees *)

(** Trees and back, to number them. *)
Fixpoint json_to_tree (j : cjson) : gen_tree (Z + string) :=
  match j with
  | JNumber z => GenLeaf (inl z)
  | JBool b => GenNode 3 (if b then [GenLeaf (inl 1)] else [])
  | JString s => GenLeaf (inr s)
  | JArray l => GenNode 0 (map json_to_tree l)
  | JObject kvs => GenNode 1 (map (λ '(k, v), GenNode 2 [GenLeaf (inr k); json_to_tree v]) kvs)
  end.
Fixpoint json_of_tree (t : gen_tree (Z + string)) : cjson :=
  match t with
  | GenLeaf (inl z) => JNumber z
  | GenLeaf (inr s) => JString s
  | GenNode 0 l => JArray (map json_of_tree l)
  | GenNode 3 l => JBool (match l with [] => false | _ => true end)
  | GenNode _ l => JObject (map (λ t,
      match t with GenNode _ [GenLeaf (inr k); v] => (k, json_of_tree v) | _ => ("", JNumber 0) end) l)
  end.
Fixpoint json_of_to_tree j : json_of_tree (json_to_tree j) = j.
Proof.
  destruct j as [z|b|s|l|kvs]; cbn [json_to_tree json_of_tree]; [done|by destruct b|done| |]; f_equal.
  - induction l as [|j l IH]; cbn [map]; [done|]. f_equal; [apply json_of_to_tree|exact IH].
  - induction kvs as [|[k v] kvs IH]; cbn [map]; [done|].
    f_equal; [f_equal; apply json_of_to_tree|exact IH].
Qed.

Definition number_json : CJson := {|
  cJSON_Create_ok := true;
  cJSON_PrintUnformatted j := Some (pretty (Z.pos (encode (json_to_tree j))));
  cJSON_Parse s := json_of_tree <$> decode (Z.to_pos (dec_value s));
  cJSON_GetObjectItem j k := match j with JObject kvs => member kvs k | _ => None end;
  cJSON_items j := match j with JArray l => l | JObject kvs => kvs.*2 | _ => [] end;
|}.
Lemma number_json_laws : @CJsonLaws number_json.
Proof.
  split; [done|by eexists| |done|done]. intros j s [= <-]. simpl.
  rewrite dec_value_pretty, Pos2Z.id, decode_encode. cbn. by rewrite json_of_to_tree.
Qed.

(** ** Parcels *)

(** [Parcel] writes append to the buffer and may fail; reads consume it, a read
    that fails gives [None]. *)
Class Parcel (P : Type) := {
  WriteString : string → state P bool;
  ReadString : state P string;
  WriteInt32 : Z → state P bool;
  ReadInt32 : state P (option Z);
  WriteUint32 : Z → state P bool;
  ReadUint32 : state P (option Z);
  WriteUint16 : Z → state P bool;
  ReadUint16 : state P (option Z);
  WriteUint8 : Z → state P bool;
  ReadUint8 : state P (option Z);
}.

(** The values left to read; signed and unsigned 32-bit integers are the same
    four bytes. *)
Inductive parcel_item := PStr (s : string) | PWord (z : Z) | PUint16 (z : Z) | PUint8 (z : Z)
  | PToken (s : string) | PUint64 (z : Z) | PObject.

(** A written value that is first in the buffer is read back. *)
Class ParcelLaws (P : Type) `{!Parcel P} := {
  contents : P → list parcel_item;
  law_write_string s p :
    (WriteString s p).1 = true → contents (WriteString s p).2 = contents p ++ [PStr s];
  law_read_string s l p : contents p = PStr s :: l →
    (ReadString p).1 = s ∧ contents (ReadString p).2 = l;
  law_write_int32 z p : (WriteInt32 z p).1 = true →
    contents (WriteInt32 z p).2 = contents p ++ [PWord (to_u32 z)];
  law_read_int32 z l p : contents p = PWord z :: l →
    (ReadInt32 p).1 = Some (to_i32 z) ∧ contents (ReadInt32 p).2 = l;
  law_write_uint32 z p : (WriteUint32 z p).1 = true →
    contents (WriteUint32 z p).2 = contents p ++ [PWord (to_u32 z)];
  law_read_uint32 z l p : contents p = PWord z :: l →
    (ReadUint32 p).1 = Some z ∧ contents (ReadUint32 p).2 = l;
  law_write_uint16 z p : (WriteUint16 z p).1 = true →
    contents (WriteUint16 z p).2 = contents p ++ [PUint16 z];
  law_read_uint16 z l p : contents p = PUint16 z :: l →
    (ReadUint16 p).1 = Some z ∧ contents (ReadUint16 p).2 = l;
  law_write_uint8 z p : (WriteUint8 z p).1 = true →
    contents (WriteUint8 z p).2 = contents p ++ [PUint8 z];
  law_read_uint8 z l p : contents p = PUint8 z :: l →
    (ReadUint8 p).1 = Some z ∧ contents (ReadUint8 p).2 = l;
}.

(** A parcel with room: no write fails. *)
Class RoomyParcel (P : Type) `{!Parcel P} := {
  room_string s p : (WriteString s p).1 = true;
  room_int32 z p : (WriteInt32 z p).1 = true;
  room_uint32 z p : (WriteUint32 z p).1 = true;
  room_uint16 z p : (WriteUint16 z p).1 = true;
  room_uint8 z p : (WriteUint8 z p).1 = true;
}.

(** *** A parcel that is its list of items *)
#[export] Instance list_parcel : Parcel (list parcel_item) := {
  WriteString s p := (true, p ++ [PStr s]);
  ReadString p := match p with PStr s :: p => (s, p) | _ => ("", p) end;
  WriteInt32 z p := (true, p ++ [PWord (to_u32 z)]);
  ReadInt32 p := match p with PWord z :: p => (Some (to_i32 z), p) | _ => (None, p) end;
  WriteUint32 z p := (true, p ++ [PWord (to_u32 z)]);
  ReadUint32 p := match p with PWord z :: p => (Some z, p) | _ => (None, p) end;
  WriteUint16 z p := (true, p ++ [PUint16 z]);
  ReadUint16 p := match p with PUint16 z :: p => (Some z, p) | _ => (None, p) end;
  WriteUint8 z p := (true, p ++ [PUint8 z]);
  ReadUint8 p := match p with PUint8 z :: p => (Some z, p) | _ => (None, p) end;
}.
#[export] Instance list_parcel_laws : ParcelLaws (list parcel_item).
Proof. refine {| contents := λ p, p |}; by intros; subst. Defined.
#[export] Instance list_parcel_roomy : RoomyParcel (list parcel_item).
Proof. by split. Qed.

(** *** Marshalling code

    The macro [WRITE_PARCEL_AND_RETURN_FALSE_WHEN_FAIL] writes one field and
    returns on failure; a sequence of such writes is [write_fields]. *)
Inductive field := FString (s : string) | FInt32 (z : Z) | FUint32 (z : Z) | FUint16 (z : Z) | FUint8 (z : Z).

Section Fields.
Context {P : Type} `{!Parcel P}.

Definition write_field (f : field) : state P bool :=
  match f with
  | FString s => WriteString s | FInt32 z => WriteInt32 z | FUint32 z => WriteUint32 z
  | FUint16 z => WriteUint16 z | FUint8 z => WriteUint8 z
  end.
Fixpoint write_fields (l : list field) : state P bool :=
  match l with
  | [] => mret true
  | f :: l => ok ← write_field f; if negb ok then mret false else write_fields l
  end.

(** [data.ReadInt32()] and its kin give 0 when there is nothing to read. *)
Definition read_i32 : state P Z := z ← ReadInt32; mret (default 0 z).
Definition read_u32 : state P Z := z ← ReadUint32; mret (default 0 z).
Definition read_u16 : state P Z := z ← ReadUint16; mret (default 0 z).
Definition read_u8 : state P Z := z ← ReadUint8; mret (default 0 z).

Definition field_item (f : field) : parcel_item :=
  match f with
  | FString s => PStr s | FInt32 z | FUint32 z => PWord (to_u32 z)
  | FUint16 z => PUint16 z | FUint8 z => PUint8 z
  end.

Lemma write_field_spec `{!ParcelLaws P} f p : (write_field f p).1 = true →
  contents (write_field f p).2 = contents p ++ [field_item f].
Proof.
  destruct f; cbn [write_field field_item];
    eauto using law_write_string, law_write_int32, law_write_uint32, law_write_uint16, law_write_uint8.
Qed.
Lemma write_fields_spec `{!ParcelLaws P} l p : (write_fields l p).1 = true →
  contents (write_fields l p).2 = contents p ++ map field_item l.
Proof.
  revert p. induction l as [|f l IH]; intros p; cbn [write_fields map].
  - rewrite ret_run. intros _. by rewrite app_nil_r.
  - rewrite bind_run. destruct (write_field f p).1 eqn:E; cbn [negb]; [|by rewrite ret_run].
    intros H. rewrite IH, (write_field_spec _ _ E) by done. by rewrite <- app_assoc.
Qed.

(** A write that succeeds and appends [items]. *)
Definition writes (m : state P bool) `{!ParcelLaws P} (items : list parcel_item) : Prop :=
  ∀ p, (m p).1 = true ∧ contents (m p).2 = contents p ++ items.

(** Reading: from [contents p = item :: l] to the value and [l]. *)
Definition reads {A} (m : state P A) `{!ParcelLaws P} (a : A) (items : list parcel_item) : Prop :=
  ∀ p l, contents p = items ++ l → (m p).1 = a ∧ contents (m p).2 = l.

Lemma writes_fields `{!ParcelLaws P, !RoomyParcel P} l : writes (write_fields l) (map field_item l).
Proof.
  intros p. assert ((write_fields l p).1 = true) as H.
  { revert p. induction l as [|f l IH]; intros p; [done|]. cbn [write_fields]. rewrite bind_run.
    assert ((write_field f p).1 = true) as ->; [|by apply IH].
    destruct f; cbn [write_field]; auto using room_string, room_int32, room_uint32, room_uint16, room_uint8. }
  split; [done|]. by apply write_fields_spec.
Qed.

Lemma reads_ret `{!ParcelLaws P} {A} (a : A) : reads (mret a) a [].
Proof. intros p l Hp. by rewrite ret_run. Qed.
Lemma reads_bind `{!ParcelLaws P} {A B} (m : state P A) (f : A → state P B) a b i1 i2 :
  reads m a i1 → reads (f a) b i2 → reads (m ≫= f) b (i1 ++ i2).
Proof.
  intros H1 H2 p l Hp. rewrite bind_run. rewrite <- app_assoc in Hp.
  destruct (H1 _ _ Hp) as [Ha Hl]. rewrite Ha. by apply H2.
Qed.
Lemma reads_cons `{!ParcelLaws P} {A B} (m : state P A) (f : A → state P B) a b x i :
  reads m a [x] → reads (f a) b i → reads (m ≫= f) b (x :: i).
Proof. intros H1 H2. by apply (reads_bind _ _ a b [x] i). Qed.
Lemma reads_string `{!ParcelLaws P} s : reads ReadString s [PStr s].
Proof. intros p l Hp. by apply law_read_string. Qed.
Lemma reads_i32 `{!ParcelLaws P} z : in_i32 z → reads read_i32 z [PWord (to_u32 z)].
Proof.
  intros Hz p l Hp. unfold read_i32. rewrite bind_run, ret_run. cbn [fst snd]. destruct (law_read_int32 _ _ _ Hp) as [-> ->].
  cbn. by rewrite to_i32_to_u32.
Qed.
Lemma reads_u32 `{!ParcelLaws P} z : in_u32 z → reads read_u32 z [PWord (to_u32 z)].
Proof.
  intros Hz p l Hp. unfold read_u32. rewrite bind_run, ret_run. cbn [fst snd]. destruct (law_read_uint32 _ _ _ Hp) as [-> ->].
  cbn. by rewrite to_u32_id.
Qed.
Lemma reads_u16 `{!ParcelLaws P} z : reads read_u16 z [PUint16 z].
Proof.
  intros p l Hp. unfold read_u16. rewrite bind_run, ret_run. cbn [fst snd]. by destruct (law_read_uint16 _ _ _ Hp) as [-> ->].
Qed.
Lemma reads_u8 `{!ParcelLaws P} z : reads read_u8 z [PUint8 z].
Proof.
  intros p l Hp. unfold read_u8. rewrite bind_run, ret_run. cbn [fst snd]. by destruct (law_read_uint8 _ _ _ Hp) as [-> ->].
Qed.
End Fields.
#[export] Hint Resolve reads_ret reads_string reads_i32 reads_u32 reads_u16 reads_u8 : usb.

(** *** Messages

    A [MessageParcel] starts with the token of the interface; an object that
    marshals itself is preceded by a mark. *)
Class MessageParcel (P : Type) `{!Parcel P} := {
  new_parcel : P;
  WriteInterfaceToken : string → state P bool;
  ReadInterfaceToken : state P string;
  WriteUint64 : Z → state P bool;
  ReadUint64 : state P (option Z);
  WriteParcelable : state P bool → state P bool;                  (* the object's [Marshalling] *)
  ReadParcelable {A} : state P (option A) → state P (option A);   (* the class's [Unmarshalling] *)
}.
Class MessageParcelLaws (P : Type) `{!Parcel P, !MessageParcel P, !ParcelLaws P} := {
  law_new_parcel : contents new_parcel = [];
  law_write_token s p : (WriteInterfaceToken s p).1 = true ∧ contents (WriteInterfaceToken s p).2 = contents p ++ [PToken s];
  law_read_token s l p : contents p = PToken s :: l →
    (ReadInterfaceToken p).1 = s ∧ contents (ReadInterfaceToken p).2 = l;
  law_write_uint64 z p : (WriteUint64 z p).1 = true ∧ contents (WriteUint64 z p).2 = contents p ++ [PUint64 (to_u64 z)];
  law_read_uint64 z l p : contents p = PUint64 z :: l →
    (ReadUint64 p).1 = Some z ∧ contents (ReadUint64 p).2 = l;
  law_write_parcelable m p : ∃ p', contents p' = contents p ++ [PObject] ∧ WriteParcelable m p = m p';
  law_read_parcelable {A} (m : state P (option A)) l p : contents p = PObject :: l →
    ∃ p', contents p' = l ∧ ReadParcelable m p = m p';
}.
#[export] Instance list_message_parcel : MessageParcel (list parcel_item) := {
  new_parcel := [];
  WriteInterfaceToken s p := (true, p ++ [PToken s]);
  ReadInterfaceToken p := match p with PToken s :: p => (s, p) | _ => ("", p) end;
  WriteUint64 z p := (true, p ++ [PUint64 (to_u64 z)]);
  ReadUint64 p := match p with PUint64 z :: p => (Some z, p) | _ => (None, p) end;
  WriteParcelable m p := m (p ++ [PObject]);
  ReadParcelable A m p := match p with PObject :: p => m p | _ => (None, p) end;
}.
#[export] Instance list_message_parcel_laws : MessageParcelLaws (list parcel_item).
Proof. split; intros; cbn in *; subst; eauto. Qed.

(** ** Delayed tasks *)

(** [Utils::Timer] behind [UsbTimerWrapper] (services/native/src/usb_timer_wraper.cpp):
    register a task with its delay in milliseconds, forget it by its identifier.
    [K] are the tasks a component registers. *)
Class DelayTimer (K T : Type) := {
  timer_Register : K → Z → bool → state T Z;
  timer_Unregister : Z → state T ();
}.

(** [pending t] are the tasks the timer will run; registration may fail, and
    then changes nothing. *)
Class DelayTimerLaws (K T : Type) `{!DelayTimer K T} := {
  pending : T → gmap Z K;
  law_register k d once t : let '(id, t') := timer_Register k d once t in
    pending t' = pending t ∨ (pending t !! id = None ∧ pending t' = <[id := k]> (pending t));
  law_unregister id t : pending (timer_Unregister id t).2 = delete id (pending t);
}.

(** A timer that is the map of its tasks. *)
#[export] Instance map_timer {K} : DelayTimer K (gmap Z K) := {
  timer_Register k _ _ t := (fresh (dom t), <[fresh (dom t) := k]> t);
  timer_Unregister id t := ((), delete id t);
}.
#[export] Instance map_timer_laws {K} : DelayTimerLaws K (gmap Z K).
Proof.
  refine {| pending t := t |}; [|done]. intros k d once t. right. split; [|done].
  apply not_elem_of_dom, is_fresh.
Defined.

(** At most the task with identifier [id] is pending. *)
Definition only_task {K} (id : Z) (t : gmap Z K) : Prop := ∀ i k, t !! i = Some k → i = id.
Lemma only_task_delete {K} id (t : gmap Z K) : only_task id t → delete id t = ∅.
Proof.
  intros H. apply map_eq. intros i. rewrite lookup_empty.
  destruct (decide (i = id)) as [->|Hne]; [apply lookup_delete_eq|].
  rewrite lookup_delete_ne by done. destruct (t !! i) eqn:E; [|done]. by apply H in E.
Qed.
