(* ===== verification/UsbAccessory.v ===== *)
(** * Accessory records (interfaces/innerkits/native/include/usb_accessory.h)

    The class [USBAccessory]: five strings, with its JSON and parcel forms. *)
From S2P Require Import Prelude Platform.

Definition ACC_SIZE : nat := 5.
Definition ACC_MANUFACTURER_INDEX : nat := 0.
Definition ACC_PRODUCT_INDEX : nat := 1.
Definition ACC_DESCRIPTION_INDEX : nat := 2.
Definition ACC_VERSION_INDEX : nat := 3.
Definition ACC_SERIAL_NUMBER_INDEX : nat := 4.

Record USBAccessory := {
  manufacturer_ : string;
  product_ : string;
  description_ : string;
  version_ : string;
  serialNumber_ : string;
}.
#[global] Instance USBAccessory_eq_dec : EqDecision USBAccessory.
Proof. solve_decision. Defined.

Module USBAccessory.
(** The default constructor. *)
Definition empty : USBAccessory := Build_USBAccessory "" "" "" "" "".

Definition SetSerialNumber (s : string) (a : USBAccessory) : USBAccessory := {|
  manufacturer_ := manufacturer_ a; product_ := product_ a; description_ := description_ a;
  version_ := version_ a; serialNumber_ := s |}.
Definition SetDescription (s : string) (a : USBAccessory) : USBAccessory := {|
  manufacturer_ := manufacturer_ a; product_ := product_ a; description_ := s;
  version_ := version_ a; serialNumber_ := serialNumber_ a |}.

(** Short vectors leave the object as it is; extra strings are ignored. *)
Definition SetAccessory (accessorys : list string) (a : USBAccessory) : USBAccessory :=
  if (length accessorys <? ACC_SIZE)%nat then a
  else {| manufacturer_ := nth ACC_MANUFACTURER_INDEX accessorys "";
          product_ := nth ACC_PRODUCT_INDEX accessorys "";
          description_ := nth ACC_DESCRIPTION_INDEX accessorys "";
          version_ := nth ACC_VERSION_INDEX accessorys "";
          serialNumber_ := nth ACC_SERIAL_NUMBER_INDEX accessorys "" |}.

Definition compare (s1 s2 : string) : bool := bool_decide (s1 = s2).
Definition eq (a obj : USBAccessory) : bool :=
  compare (manufacturer_ a) (manufacturer_ obj) && compare (product_ a) (product_ obj) &&
  compare (description_ a) (description_ obj) && compare (version_ a) (version_ obj) &&
  compare (serialNumber_ a) (serialNumber_ obj).

Definition ToString (a : USBAccessory) : string :=
  "USBAccessory[" +:+
  ("manufacturer=" +:+ manufacturer_ a +:+ "," +:+
   "product=" +:+ product_ a +:+ "," +:+
   "description=" +:+ description_ a +:+ "," +:+
   "version=" +:+ version_ a +:+ "," +:+
   "serialNumber=" +:+ serialNumber_ a +:+ ";  ") +:+ "]".

Section Json.
Context `{!CJson}.

Definition GetStringValue (jsonObject : cjson) (key : string) : string :=
  match cJSON_GetObjectItem jsonObject key with
  | Some (JString s) => s
  | _ => ""
  end.

(** The constructor from JSON; a null pointer leaves the strings empty. *)
Definition of_cjson (accesory : option cjson) : USBAccessory :=
  match accesory with
  | None => empty
  | Some j => {| manufacturer_ := GetStringValue j "manufacturer";
                 product_ := GetStringValue j "product";
                 description_ := GetStringValue j "description";
                 version_ := GetStringValue j "version";
                 serialNumber_ := GetStringValue j "serialNumber" |}
  end.

Definition json_tree (a : USBAccessory) : cjson :=
  JObject [("manufacturer", JString (c_str (manufacturer_ a))); ("product", JString (c_str (product_ a)));
           ("description", JString (c_str (description_ a))); ("version", JString (c_str (version_ a)));
           ("serialNumber", JString (c_str (serialNumber_ a)))].

Definition GetJsonString (a : USBAccessory) : string :=
  if negb cJSON_Create_ok then ""
  else match cJSON_PrintUnformatted (json_tree a) with None => "" | Some s => s end.
End Json.

Section Parcels.
Context {P : Type} `{!Parcel P}.

Definition Marshalling (a : USBAccessory) : state P bool :=
  write_fields [FString (manufacturer_ a); FString (product_ a); FString (description_ a);
                FString (version_ a); FString (serialNumber_ a)].

Definition Unmarshalling : state P USBAccessory :=
  m ← ReadString; p ← ReadString; d ← ReadString; v ← ReadString; s ← ReadString;
  mret {| manufacturer_ := m; product_ := p; description_ := d; version_ := v; serialNumber_ := s |}.
End Parcels.

(** ** Lemmas *)

Lemma eq_spec a b : eq a b = true ↔ a = b.
Proof.
  unfold eq, compare. rewrite !andb_true_iff, !bool_decide_eq_true.
  split; [|by intros ->; repeat split].
  destruct a, b; simpl. intros [[[[-> ->] ->] ->] ->]. done.
Qed.

(** No field has an embedded NUL. *)
Definition c_safe (a : USBAccessory) : Prop :=
  Forall (λ s, c_str s = s) [manufacturer_ a; product_ a; description_ a; version_ a; serialNumber_ a].

Lemma json_roundtrip `{!CJson, !CJsonLaws} a :
  c_safe a → of_cjson (cJSON_Parse (GetJsonString a)) = a.
Proof.
  unfold c_safe. rewrite !Forall_cons. intros (H1 & H2 & H3 & H4 & H5 & _).
  unfold GetJsonString. rewrite law_json_create. cbn [negb].
  destruct (law_json_print (json_tree a)) as [s Hs]. rewrite Hs, (law_json_parse _ _ Hs).
  unfold of_cjson, GetStringValue, json_tree.
  rewrite !law_json_item.
  cbn. rewrite H1, H2, H3, H4, H5. by destruct a.
Qed.

Lemma parcel_roundtrip {P} `{!Parcel P, !ParcelLaws P} a (p : P) :
  contents p = [] → (Marshalling a p).1 = true →
  (Unmarshalling (Marshalling a p).2).1 = a ∧ contents (Unmarshalling (Marshalling a p).2).2 = [].
Proof.
  intros Hp H. pose proof (write_fields_spec _ _ H) as Hc. fold (Marshalling a) in Hc.
  rewrite Hp in Hc. cbn [app map field_item] in Hc.
  assert (reads Unmarshalling a [PStr (manufacturer_ a); PStr (product_ a); PStr (description_ a);
    PStr (version_ a); PStr (serialNumber_ a)]) as HR.
  { unfold Unmarshalling. repeat (eapply reads_cons; [by auto with usb|]). destruct a. apply reads_ret. }
  apply HR. by rewrite app_nil_r.
Qed.
End USBAccessory.
