(* ===== verification/UsbRightDatabase.v ===== *)
(** * The right database (services/native/src/usb_right_database.cpp)

    [UsbRightDataBase] wraps a [NativeRdb::RdbStore], a relational store the
    platform provides.  The store is a parameter: [RdbStore] lists the calls the
    sources make on it and on the result sets it returns, [RdbStoreLaws] what
    the callers rely on (the documented behaviour of SQL statements and
    transactions over the table [usbRightInfoTable]).  The wrapper itself, with
    its null checks and error codes, is defined here. *)
From S2P Require Import Prelude UsbErrors.

(** ** Data passed to the store *)

(** A typed value: [PutInt], [PutLong] and [PutString] of [ValuesBucket]. *)
Inductive Value :=
  | VInt (z : Z)
  | VLong (z : Z)
  | VString (s : string).
#[global] Instance Value_eq_dec : EqDecision Value.
Proof. solve_decision. Defined.

Definition ValuesBucket := list (string * Value).

(** The builder calls of [RdbPredicates], in call order. *)
Inductive PredicateCall :=
  | BeginWrap
  | EndWrap
  | And
  | EqualTo (column value : string)
  | In_ (column : string) (values : list string)
  | Distinct.
Definition RdbPredicates := list PredicateCall.

Definition USB_RIGHT_TABLE_NAME : string := "usbRightInfoTable".
Definition CREATE_USB_RIGHT_TABLE : string :=
  "CREATE TABLE IF NOT EXISTS [usbRightInfoTable](" +:+
  "[id] INTEGER PRIMARY KEY AUTOINCREMENT, " +:+
  "[uid] INTEGER, " +:+
  "[installTime] INTEGER, " +:+
  "[updateTime] INTEGER, " +:+
  "[requestTime] INTEGER, " +:+
  "[validPeriod] INTEGER, " +:+
  "[deviceName] TEXT," +:+
  "[bundleName] TEXT," +:+
  "[tokenId] TEXT);".
Definition SQL_ADD_TOKEN_ID : string :=
  "ALTER TABLE usbRightInfoTable ADD COLUMN tokenId TEXT DEFAULT ''".

(** ** The platform's store *)

(** Each call returns its error code (and out-parameters); [W] is the store's
    state, [RS] a result set with its cursor. *)
Class RdbStore (W RS : Type) := {
  E_OK : Z;
  store_BeginTransaction : state W Z;
  store_Commit : state W Z;
  store_RollBack : state W Z;
  store_Insert : string → ValuesBucket → state W (Z * Z);
  store_Update : string → ValuesBucket → string → list string → state W (Z * Z);
  store_UpdateWith : ValuesBucket → RdbPredicates → state W (Z * Z);
  store_Delete : string → string → list string → state W (Z * Z);
  store_DeleteWith : RdbPredicates → state W (Z * Z);
  store_Query : RdbPredicates → list string → state W (option RS);
  store_QuerySql : string → state W (option RS);
  store_ExecuteSql : string → state W Z;
  rs_GetRowCount : RS → Z * Z;
  rs_GetColumnCount : RS → Z * Z;
  rs_GetAllColumnNames : RS → Z * list string;
  rs_GetColumnIndex : string → RS → Z * Z;
  rs_GoToRow : Z → state RS Z;
  rs_GetInt : Z → RS → Z * Z;
  rs_GetLong : Z → RS → Z * Z;
  rs_GetString : Z → RS → Z * string;
  rs_IsEnded : RS → bool;
}.

(** ** The wrapper *)

Section Wrapper.
Context {W RS : Type} `{!RdbStore W RS}.

(** [store_]: null when [GetRdbStore] failed in the constructor. *)
Record UsbRightDataBase := { store_ : option W }.

(** Run a call on the store, or return [dflt] when the pointer is null. *)
Definition with_store {A} (dflt : A) (m : state W A) : state UsbRightDataBase A := λ db,
  match store_ db with
  | None => (dflt, db)
  | Some w => let '(a, w') := m w in (a, {| store_ := Some w' |})
  end.

Definition map_error (ret : Z) : Z :=
  if negb (ret =? E_OK) then USB_RIGHT_RDB_EXECUTE_FAILTURE else USB_RIGHT_OK.

Definition BeginTransaction : state UsbRightDataBase Z :=
  with_store USB_RIGHT_RDB_NO_INIT (ret ← store_BeginTransaction; mret (map_error ret)).

Definition Commit : state UsbRightDataBase Z :=
  with_store USB_RIGHT_RDB_NO_INIT (ret ← store_Commit; mret (map_error ret)).

Definition RollBack : state UsbRightDataBase Z :=
  with_store USB_RIGHT_RDB_NO_INIT (ret ← store_RollBack; mret (map_error ret)).

(** Returns the new row's id, an [int64_t], or a negative code. *)
Definition Insert (insertValues : ValuesBucket) : state UsbRightDataBase Z :=
  with_store USB_RIGHT_RDB_NO_INIT (
    '(ret, outRowId) ← store_Insert USB_RIGHT_TABLE_NAME insertValues;
    mret (if negb (ret =? E_OK) then USB_RIGHT_RDB_EXECUTE_FAILTURE else outRowId)).

(** The first component is [changedRows], 0 when the store is null. *)
Definition UpdateWith (values : ValuesBucket) (predicates : RdbPredicates)
  : state UsbRightDataBase (Z * Z) :=
  with_store (0, USB_RIGHT_RDB_NO_INIT) (
    '(ret, changedRows) ← store_UpdateWith values predicates;
    mret (changedRows, map_error ret)).

Definition Update (values : ValuesBucket) (whereClause : string) (whereArgs : list string)
  : state UsbRightDataBase (Z * Z) :=
  with_store (0, USB_RIGHT_RDB_NO_INIT) (
    '(ret, changedRows) ← store_Update USB_RIGHT_TABLE_NAME values whereClause whereArgs;
    mret (changedRows, map_error ret)).

Definition DeleteWith (predicates : RdbPredicates) : state UsbRightDataBase Z :=
  with_store USB_RIGHT_RDB_NO_INIT (
    '(ret, _) ← store_DeleteWith predicates; mret (map_error ret)).

Definition Delete (whereClause : string) (whereArgs : list string)
  : state UsbRightDataBase (Z * Z) :=
  with_store (0, USB_RIGHT_RDB_NO_INIT) (
    '(ret, changedRows) ← store_Delete USB_RIGHT_TABLE_NAME whereClause whereArgs;
    mret (changedRows, map_error ret)).

Definition ExecuteSql (sql : string) : state UsbRightDataBase Z :=
  with_store USB_RIGHT_RDB_NO_INIT (ret ← store_ExecuteSql sql; mret (map_error ret)).

(** [selectionArgs] is not passed on. *)
Definition QuerySql (sql : string) (selectionArgs : list string)
  : state UsbRightDataBase (option RS) := with_store None (store_QuerySql sql).

Definition Query (predicates : RdbPredicates) (columns : list string)
  : state UsbRightDataBase (option RS) := with_store None (store_Query predicates columns).

(** [UsbRightDataBaseCallBack]: schema creation and upgrade, on the raw store. *)
Definition OnCreate : state W Z :=
  ret ← store_ExecuteSql CREATE_USB_RIGHT_TABLE; mret (map_error ret).

Definition OnUpgrade (oldVersion newVersion : Z) : state W Z :=
  if oldVersion >=? newVersion then mret USB_RIGHT_OK
  else _ ← store_ExecuteSql SQL_ADD_TOKEN_ID; mret USB_RIGHT_OK.

Definition OnDowngrade (oldVersion newVersion : Z) : state W Z := mret USB_RIGHT_OK.
End Wrapper.
Arguments UsbRightDataBase : clear implicits.
Arguments Build_UsbRightDataBase {W} _.

(** ** The table, and what the store's statements mean on it *)

Record Row := {
  row_id : Z;
  row_uid : Z;
  row_installTime : Z;
  row_updateTime : Z;
  row_requestTime : Z;
  row_validPeriod : Z;
  row_deviceName : string;
  row_bundleName : string;
  row_tokenId : string;
}.
#[global] Instance Row_eq_dec : EqDecision Row.
Proof. solve_decision. Defined.

Definition table_columns : list string :=
  ["id"; "uid"; "installTime"; "updateTime"; "requestTime"; "validPeriod"; "deviceName";
   "bundleName"; "tokenId"].

Definition row_values (r : Row) : list Value :=
  [VLong (row_id r); VLong (row_uid r); VLong (row_installTime r); VLong (row_updateTime r);
   VLong (row_requestTime r); VLong (row_validPeriod r); VString (row_deviceName r);
   VString (row_bundleName r); VString (row_tokenId r)].

Definition value_text (v : Value) : string :=
  match v with VInt z | VLong z => pretty z | VString s => s end.
Definition value_int (v : Value) : Z :=
  match v with VInt z | VLong z => z | VString _ => 0 end.

(** The value in a named column of a row. *)
Definition column_value (c : string) (r : Row) : Value :=
  default (VString "") (snd <$> find (λ p, bool_decide (p.1 = c)) (zip table_columns (row_values r))).

(** Column comparison with a bound text argument.  An INTEGER column compares
    numerically, which on the decimal texts [std::to_string] produces is
    equality of the texts. *)
Definition column_eq (c v : string) (r : Row) : bool := bool_decide (value_text (column_value c r) = v).

Lemma column_eq_uid v r : column_eq "uid" v r = bool_decide (pretty (row_uid r) = v).
Proof. reflexivity. Qed.
Lemma column_eq_validPeriod v r : column_eq "validPeriod" v r = bool_decide (pretty (row_validPeriod r) = v).
Proof. reflexivity. Qed.
Lemma column_eq_deviceName v r : column_eq "deviceName" v r = bool_decide (row_deviceName r = v).
Proof. reflexivity. Qed.
Lemma column_eq_bundleName v r : column_eq "bundleName" v r = bool_decide (row_bundleName r = v).
Proof. reflexivity. Qed.
Lemma column_eq_tokenId v r : column_eq "tokenId" v r = bool_decide (row_tokenId r = v).
Proof. reflexivity. Qed.
Lemma column_requestTime r : value_int (column_value "requestTime" r) = row_requestTime r.
Proof. reflexivity. Qed.
Lemma pretty_decide (x y : Z) : bool_decide (pretty x = pretty y) = bool_decide (x = y).
Proof. apply bool_decide_ext. split; [apply (inj pretty)|congruence]. Qed.

Create Rewrite HintDb usb_columns.
#[export] Hint Rewrite column_eq_uid column_eq_validPeriod column_eq_deviceName column_eq_bundleName
  column_eq_tokenId column_requestTime pretty_decide dec_value_pretty : usb_columns.

Definition call_match (c : PredicateCall) (r : Row) : bool :=
  match c with
  | EqualTo col v => column_eq col v r
  | In_ col vs => existsb (λ v, column_eq col v r) vs
  | BeginWrap | EndWrap | And | Distinct => true
  end.

(** Predicates whose tests are joined by [And] only: all must hold. *)
Definition predicates_match (ps : RdbPredicates) (r : Row) : bool :=
  forallb (λ c, call_match c r) ps.

Definition is_distinct (ps : RdbPredicates) : bool :=
  existsb (λ c, match c with Distinct => true | _ => false end) ps.

(** Conjunctions of column tests, the WHERE clauses the sources use, with the
    text they are written as. *)
Inductive SqlTest :=
  | SqlEq (column : string)
  | SqlLt (column : string)
  | SqlNotIn2 (column : string).
#[global] Instance SqlTest_eq_dec : EqDecision SqlTest.
Proof. solve_decision. Defined.

Definition test_text (t : SqlTest) : string :=
  match t with
  | SqlEq c => c +:+ " = ?"
  | SqlLt c => c +:+ " < ?"
  | SqlNotIn2 c => c +:+ " NOT IN (?, ?)"
  end.
Fixpoint where_text (ts : list SqlTest) : string :=
  match ts with
  | [] => ""
  | [t] => test_text t
  | t :: ts => test_text t +:+ " AND " +:+ where_text ts
  end.

(** Evaluate the tests, consuming the bound arguments from the left. *)
Fixpoint where_holds (ts : list SqlTest) (args : list string) (r : Row) : bool :=
  match ts, args with
  | [], _ => true
  | SqlEq c :: ts, a :: args => column_eq c a r && where_holds ts args r
  | SqlLt c :: ts, a :: args =>
      (value_int (column_value c r) <? dec_value a) && where_holds ts args r
  | SqlNotIn2 c :: ts, a :: b :: args =>
      negb (column_eq c a r) && negb (column_eq c b r) && where_holds ts args r
  | _, _ => false
  end.

(** The row an INSERT of a bucket adds, and what UPDATE makes of a row. *)
Definition bucket_value (vs : ValuesBucket) (c : string) (old : Value) : Value :=
  default old (snd <$> find (λ p, bool_decide (p.1 = c)) vs).
Definition bucket_update (vs : ValuesBucket) (r : Row) : Row := {|
  row_id := row_id r;
  row_uid := value_int (bucket_value vs "uid" (VLong (row_uid r)));
  row_installTime := value_int (bucket_value vs "installTime" (VLong (row_installTime r)));
  row_updateTime := value_int (bucket_value vs "updateTime" (VLong (row_updateTime r)));
  row_requestTime := value_int (bucket_value vs "requestTime" (VLong (row_requestTime r)));
  row_validPeriod := value_int (bucket_value vs "validPeriod" (VLong (row_validPeriod r)));
  row_deviceName := value_text (bucket_value vs "deviceName" (VString (row_deviceName r)));
  row_bundleName := value_text (bucket_value vs "bundleName" (VString (row_bundleName r)));
  row_tokenId := value_text (bucket_value vs "tokenId" (VString (row_tokenId r)));
|}.
Definition empty_row (id : Z) : Row := {|
  row_id := id; row_uid := 0; row_installTime := 0; row_updateTime := 0; row_requestTime := 0;
  row_validPeriod := 0; row_deviceName := ""; row_bundleName := ""; row_tokenId := "" |}.
Definition bucket_row (id : Z) (vs : ValuesBucket) : Row := bucket_update vs (empty_row id).

(** The content of a query's result: its columns and its rows. *)
Definition query_columns (columns : list string) : list string :=
  match columns with [] => table_columns | _ => columns end.
Definition query_rows (ps : RdbPredicates) (columns : list string) (rows : list Row) : list (list Value) :=
  let sel := map (λ r, map (λ c, column_value c r) (query_columns columns))
                 (List.filter (predicates_match ps) rows) in
  if is_distinct ps then remove_dups sel else sel.

(** ** What the callers rely on

    [view w] is the table as the connection sees it, [base w] the table at the
    start of the open transaction (none outside a transaction), [rs_rep rs cols
    rows pos] says that result set [rs] holds [rows] with its cursor at [pos].  A
    failing statement changes nothing; a rollback ends the transaction. *)
Class RdbStoreLaws (W RS : Type) `{!RdbStore W RS} (clauses : list (list SqlTest)) := {
  view : W → list Row;
  base : W → option (list Row);
  rs_rep : RS → list string → list (list Value) → Z → Prop;

  law_begin w : let '(ret, w') := store_BeginTransaction w in
    view w' = view w ∧ (if ret =? E_OK then base w' = Some (view w) else base w' = base w);
  law_commit w : let '(ret, w') := store_Commit w in
    view w' = view w ∧ (if ret =? E_OK then base w' = None else base w' = base w);
  law_rollback w : let '(_, w') := store_RollBack w in
    view w' = default (view w) (base w) ∧ base w' = None;
  law_insert vs w : let '(ret, rowid, w') := store_Insert USB_RIGHT_TABLE_NAME vs w in
    base w' = base w ∧
    (if ret =? E_OK then 0 < rowid < 2 ^ 63 ∧ view w' = view w ++ [bucket_row rowid vs]
     else view w' = view w);
  law_update vs ts args w : ts ∈ clauses →
    let '(ret, changed, w') := store_Update USB_RIGHT_TABLE_NAME vs (where_text ts) args w in
    base w' = base w ∧
    (if ret =? E_OK
     then view w' = map (λ r, if where_holds ts args r then bucket_update vs r else r) (view w)
     else view w' = view w);
  law_delete ts args w : ts ∈ clauses →
    let '(ret, changed, w') := store_Delete USB_RIGHT_TABLE_NAME (where_text ts) args w in
    base w' = base w ∧
    (if ret =? E_OK
     then view w' = List.filter (λ r, negb (where_holds ts args r)) (view w) ∧
          changed = Z.of_nat (length (List.filter (where_holds ts args) (view w)))
     else view w' = view w ∧ changed = 0);
  law_delete_with ps w : let '(ret, _, w') := store_DeleteWith ps w in
    base w' = base w ∧
    (if ret =? E_OK then view w' = List.filter (λ r, negb (predicates_match ps r)) (view w)
     else view w' = view w);
  law_query ps cols w : let '(rs, w') := store_Query ps cols w in
    view w' = view w ∧ base w' = base w ∧
    (∀ r, rs = Some r → ∃ pos, rs_rep r (query_columns cols) (query_rows ps cols (view w)) pos);

  law_rs_rows rs cols rows p : rs_rep rs cols rows p →
    rs_GetRowCount rs = (E_OK, Z.of_nat (length rows)) ∧
    rs_GetColumnCount rs = (E_OK, Z.of_nat (length cols)) ∧
    rs_GetAllColumnNames rs = (E_OK, cols);
  law_rs_index rs cols rows p i c : rs_rep rs cols rows p → cols !! i = Some c →
    (∀ j, cols !! j = Some c → j = i) → rs_GetColumnIndex c rs = (E_OK, Z.of_nat i);
  law_rs_goto rs cols rows p i : rs_rep rs cols rows p → (i < length rows)%nat →
    ∃ rs', rs_GoToRow (Z.of_nat i) rs = (E_OK, rs') ∧ rs_rep rs' cols rows (Z.of_nat i);
  law_rs_get rs cols rows i vs k v : rs_rep rs cols rows (Z.of_nat i) →
    rows !! i = Some vs → vs !! k = Some v →
    (∀ z, v = VLong z → rs_GetInt (Z.of_nat k) rs = (E_OK, to_i32 z) ∧
                        rs_GetLong (Z.of_nat k) rs = (E_OK, z)) ∧
    rs_GetString (Z.of_nat k) rs = (E_OK, value_text v);
  law_rs_ended rs cols rows p : rs_rep rs cols rows p →
    rs_IsEnded rs = (Z.of_nat (length rows) <=? p);
}.

(** A store whose calls never report a failure. *)
Class RdbReliable (W RS : Type) `{!RdbStore W RS} : Prop := {
  reliable_begin w : (store_BeginTransaction w).1 = E_OK;
  reliable_commit w : (store_Commit w).1 = E_OK;
  reliable_insert vs w : (store_Insert USB_RIGHT_TABLE_NAME vs w).1.1 = E_OK;
  reliable_update vs wh args w : (store_Update USB_RIGHT_TABLE_NAME vs wh args w).1.1 = E_OK;
  reliable_delete wh args w : (store_Delete USB_RIGHT_TABLE_NAME wh args w).1.1 = E_OK;
  reliable_query ps cols w : is_Some (store_Query ps cols w).1;
}.

(** ** The wrapper under the laws *)

Section WrapperSpec.
Context {W RS : Type} `{!RdbStore W RS} {clauses : list (list SqlTest)}
  `{!RdbStoreLaws W RS clauses}.
Implicit Types db : UsbRightDataBase W.

(** The table and the open transaction seen through the wrapper. *)
Definition db_view db : list Row := match store_ db with Some w => view w | None => [] end.
Definition db_base db : option (list Row) := match store_ db with Some w => base w | None => None end.

Lemma map_error_cases ret :
  ret = E_OK ∧ map_error ret = 0 ∨ ret ≠ E_OK ∧ map_error ret = -2.
Proof. unfold map_error. destruct (ret =? E_OK) eqn:E; zbool; auto. Qed.

Lemma map_error_OK : map_error E_OK = USB_RIGHT_OK.
Proof. unfold map_error. by rewrite Z.eqb_refl. Qed.

Lemma with_store_run {A} (dflt a : A) m db db' : with_store dflt m db = (a, db') →
  (store_ db = None ∧ a = dflt ∧ db' = db) ∨
  (∃ w w', store_ db = Some w ∧ m w = (a, w') ∧ db' = {| store_ := Some w' |}).
Proof.
  unfold with_store. destruct (store_ db) as [w|]; [|intros [= <- <-]; by left].
  destruct (m w) as [b w'] eqn:E. intros [= <- <-]. right. by exists w, w'.
Qed.

(** From a call [H] through the wrapper and the law of the store's call: the
    null branch is solved, [HL] is the law's conclusion in the other. *)
Ltac wrapper H law :=
  apply with_store_run in H; destruct H as [(Hs & ? & ->)|(w & w' & Hs & H & ->)];
  unfold db_view, db_base; rewrite ?Hs; cbn [store_];
  [ simplify_eq; unfold USB_RIGHT_RDB_NO_INIT; repeat split; auto with lia
  | pose proof (law w) as HL; run_unfold;
    repeat match type of H with
           | context [let '(_, _) := ?m in _] => destruct m as [? ?] in H, HL
           end; simplify_eq ].
Ltac by_code :=
  match goal with
  | |- context [map_error ?r] =>
      let Hr := fresh in
      destruct (map_error_cases r) as [[-> ->]|[Hr ->]];
      [ rewrite Z.eqb_refl in *; right | apply Z.eqb_neq in Hr; rewrite ?Hr in *; left ]
  end; intuition (auto with lia).

Lemma begin_spec db ret db' : BeginTransaction db = (ret, db') →
  db_view db' = db_view db ∧
  (ret < 0 ∧ db_base db' = db_base db ∨ ret = 0 ∧ db_base db' = Some (db_view db)).
Proof. intros H. wrapper H law_begin. destruct HL as [-> HL]. split; [done|]. by_code. Qed.

Lemma commit_spec db ret db' : Commit db = (ret, db') →
  db_view db' = db_view db ∧
  (ret < 0 ∧ db_base db' = db_base db ∨ ret = 0 ∧ db_base db' = None).
Proof. intros H. wrapper H law_commit. destruct HL as [-> HL]. split; [done|]. by_code. Qed.

Lemma rollback_spec db ret db' : RollBack db = (ret, db') →
  db_view db' = default (db_view db) (db_base db) ∧ db_base db' = None.
Proof. intros H. wrapper H law_rollback. done. Qed.

Lemma insert_spec vs db ret db' : Insert vs db = (ret, db') →
  db_base db' = db_base db ∧
  (-3 <= ret < 0 ∧ db_view db' = db_view db ∨
   0 < ret < 2 ^ 63 ∧ db_view db' = db_view db ++ [bucket_row ret vs]).
Proof.
  intros H. wrapper H (law_insert vs). destruct HL as [-> HL]. split; [done|].
  destruct (_ =? E_OK); simpl; [by right|left].
  split; [unfold USB_RIGHT_RDB_EXECUTE_FAILTURE; lia|done].
Qed.

Lemma update_spec vs ts args db changed ret db' : ts ∈ clauses →
  Update vs (where_text ts) args db = ((changed, ret), db') →
  db_base db' = db_base db ∧
  (ret < 0 ∧ db_view db' = db_view db ∨
   ret = 0 ∧ db_view db' =
     map (λ r, if where_holds ts args r then bucket_update vs r else r) (db_view db)).
Proof.
  intros Hts H. wrapper H (λ w, law_update vs ts args w Hts).
  destruct HL as [-> HL]. split; [done|]. by_code.
Qed.

Lemma delete_spec ts args db changed ret db' : ts ∈ clauses →
  Delete (where_text ts) args db = ((changed, ret), db') →
  db_base db' = db_base db ∧
  (ret < 0 ∧ changed = 0 ∧ db_view db' = db_view db ∨
   ret = 0 ∧ db_view db' = List.filter (λ r, negb (where_holds ts args r)) (db_view db) ∧
   changed = Z.of_nat (length (List.filter (where_holds ts args) (db_view db)))).
Proof.
  intros Hts H. wrapper H (λ w, law_delete ts args w Hts).
  destruct HL as [-> HL]. split; [done|]. by_code.
Qed.

Lemma delete_with_spec ps db ret db' : DeleteWith ps db = (ret, db') →
  db_base db' = db_base db ∧
  (ret < 0 ∧ db_view db' = db_view db ∨
   ret = 0 ∧ db_view db' = List.filter (λ r, negb (predicates_match ps r)) (db_view db)).
Proof. intros H. wrapper H (law_delete_with ps). destruct HL as [-> HL]. split; [done|]. by_code. Qed.

Lemma query_spec ps cols db rs db' : Query ps cols db = (rs, db') →
  db_view db' = db_view db ∧ db_base db' = db_base db ∧
  (∀ r, rs = Some r → ∃ pos, rs_rep r (query_columns cols) (query_rows ps cols (db_view db)) pos).
Proof.
  intros H. apply with_store_run in H. unfold db_view, db_base.
  destruct H as [(Hs & -> & ->)|(w & w' & Hs & H & ->)]; rewrite ?Hs; cbn [store_]; [done|].
  pose proof (law_query ps cols w) as HL. by rewrite H in HL.
Qed.
End WrapperSpec.

(** Destruct the facts of every wrapper call recorded in the context. *)
Ltac db_facts :=
  repeat match goal with
  | H : BeginTransaction _ = _ |- _ => apply begin_spec in H; destruct H as [? [[? ?]|[? ?]]]
  | H : Commit _ = _ |- _ => apply commit_spec in H; destruct H as [? [[? ?]|[? ?]]]
  | H : RollBack _ = _ |- _ => apply rollback_spec in H; destruct H as [? ?]
  | H : Insert _ _ = _ |- _ => apply insert_spec in H; destruct H as [? [[? ?]|[? ?]]]
  | H : DeleteWith _ _ = _ |- _ => apply delete_with_spec in H; destruct H as [? [[? ?]|[? ?]]]
  | H : Query _ _ _ = _ |- _ => apply query_spec in H; destruct H as (? & ? & ?)
  end.
