(* ===== verification/UsbRightDbHelper.v ===== *)
(** * The right records (services/native/src/usb_right_db_helper.cpp)

    [UsbRightDbHelper] keeps the permission records (user, device, bundle,
    token): queries, upserts and deletions, each in a transaction of the store.
    The operations below are the methods of the class; [RightRecordLaws] at the
    end is the interface the right manager is verified against. *)
From S2P Require Import Prelude UsbErrors UsbRightDatabase.

Definition USB_RIGHT_VALID_PERIOD_MIN : Z := 0.
Definition USB_RIGHT_VALID_PERIOD_MAX : Z := 0xFFFFFFFF.
Definition USB_RIGHT_VALID_PERIOD_SET : Z := 0x0FFFFFFF.

Record UsbRightAppInfo := {
  primaryKeyId : Z;  (* uint32_t *)
  uid : Z;           (* int32_t *)
  installTime : Z;   (* uint64_t *)
  updateTime : Z;    (* uint64_t *)
  requestTime : Z;   (* uint64_t *)
  validPeriod : Z;   (* uint64_t *)
}.

Record UsbRightTableInfo := {
  rowCount : Z;
  columnCount : Z;
  primaryKeyIndex : Z;
  uidIndex : Z;
  installTimeIndex : Z;
  updateTimeIndex : Z;
  requestTimeIndex : Z;
  validPeriodIndex : Z;
  deviceNameIndex : Z;
  bundleNameIndex : Z;
}.

(** [IsRecordExpired(info, expiredTime)]: the record does not grant at time
    [expiredTime]. *)
Definition IsInfoExpired (info : UsbRightAppInfo) (expiredTime : Z) : bool :=
  if expiredTime <? requestTime info then true
  else if validPeriod info =? USB_RIGHT_VALID_PERIOD_MIN then false
  else if validPeriod info =? USB_RIGHT_VALID_PERIOD_MAX then false
  else if to_u64 (expiredTime - requestTime info) <? validPeriod info then false
  else if (updateTime info <? installTime info) || (requestTime info <? installTime info) then true
  else true.

(** The buckets of [Put*] calls. *)
Definition info_bucket (deviceName bundleName : string) (info : UsbRightAppInfo) : ValuesBucket :=
  [("uid", VInt (uid info));
   ("installTime", VLong (to_i64 (installTime info)));
   ("updateTime", VLong (to_i64 (updateTime info)));
   ("requestTime", VLong (to_i64 (requestTime info)));
   ("validPeriod", VLong (to_i64 (validPeriod info)));
   ("deviceName", VString deviceName);
   ("bundleName", VString bundleName)].

Definition record_predicates (uid : Z) (deviceName bundleName tokenId : string) : RdbPredicates :=
  [BeginWrap; EqualTo "uid" (pretty uid); And; EqualTo "deviceName" deviceName; And;
   EqualTo "bundleName" bundleName; And; EqualTo "tokenId" tokenId; EndWrap].

(** The WHERE clauses of the file, by their tests. *)
Definition clause_record : list SqlTest := [SqlEq "uid"; SqlEq "deviceName"; SqlEq "bundleName"; SqlEq "tokenId"].
Definition clause_uid_device_bundle : list SqlTest := [SqlEq "uid"; SqlEq "deviceName"; SqlEq "bundleName"].
Definition clause_uid_device : list SqlTest := [SqlEq "uid"; SqlEq "deviceName"].
Definition clause_uid_bundle : list SqlTest := [SqlEq "uid"; SqlEq "bundleName"].
Definition clause_uid : list SqlTest := [SqlEq "uid"].
Definition clause_normal_expired : list SqlTest := [SqlEq "uid"; SqlLt "requestTime"; SqlNotIn2 "validPeriod"].
Definition clause_period_device : list SqlTest := [SqlEq "validPeriod"; SqlEq "deviceName"].
Definition right_clauses : list (list SqlTest) :=
  [clause_record; clause_uid_device_bundle; clause_uid_device; clause_uid_bundle; clause_uid;
   clause_normal_expired; clause_period_device].

Section Helper.
Context {W RS : Type} `{!RdbStore W RS}.
(** The value of an [int32_t] the code has not initialised. *)
Context (uninit : Z).

Abbreviation DB := (UsbRightDataBase W).

(** [rightDatabase_], null or the wrapper. *)
Record UsbRightDbHelper := { rightDatabase_ : option DB }.

(** The null check most methods start with. *)
Definition with_db {A} (dflt : A) (m : state DB A) : state UsbRightDbHelper A := λ h,
  match rightDatabase_ h with
  | None => (dflt, h)
  | Some db => let '(a, db') := m db in (a, {| rightDatabase_ := Some db' |})
  end.

(** *** Reading result sets *)

(** One step of the scan of the column names, in the order of the tests. *)
Definition set_column (t : UsbRightTableInfo) (i : Z) (c : string) : UsbRightTableInfo := {|
  rowCount := rowCount t;
  columnCount := columnCount t;
  primaryKeyIndex := if bool_decide (c = "id") then i else primaryKeyIndex t;
  uidIndex := if bool_decide (c = "uid") then i else uidIndex t;
  installTimeIndex := if bool_decide (c = "installTime") then i else installTimeIndex t;
  updateTimeIndex := if bool_decide (c = "updateTime") then i else updateTimeIndex t;
  requestTimeIndex := if bool_decide (c = "requestTime") then i else requestTimeIndex t;
  validPeriodIndex := if bool_decide (c = "validPeriod") then i else validPeriodIndex t;
  bundleNameIndex := if bool_decide (c = "bundleName") then i else bundleNameIndex t;
  deviceNameIndex := if bool_decide (c = "deviceName") then i else deviceNameIndex t;
|}.
Fixpoint scan_columns (t : UsbRightTableInfo) (i : Z) (names : list string) : UsbRightTableInfo :=
  match names with
  | [] => t
  | c :: names => scan_columns (set_column t i c) (i + 1) names
  end.
Definition uninit_table : UsbRightTableInfo :=
  Build_UsbRightTableInfo uninit uninit uninit uninit uninit uninit uninit uninit uninit uninit.

Definition GetResultSetTableInfo (resultSet : option RS) : Z * UsbRightTableInfo :=
  match resultSet with
  | None => (USB_RIGHT_RDB_EXECUTE_FAILTURE, uninit_table)
  | Some rs =>
      let '(e1, rows) := rs_GetRowCount rs in
      let '(e2, cols) := rs_GetColumnCount rs in
      let '(e3, names) := rs_GetAllColumnNames rs in
      if negb (e1 =? E_OK) || negb (e2 =? E_OK) || negb (e3 =? E_OK)
      then (USB_RIGHT_RDB_EXECUTE_FAILTURE, uninit_table)
      else
        let t := scan_columns uninit_table 0 names in
        (USB_RIGHT_OK,
         {| rowCount := rows; columnCount := cols;
            primaryKeyIndex := primaryKeyIndex t; uidIndex := uidIndex t;
            installTimeIndex := installTimeIndex t; updateTimeIndex := updateTimeIndex t;
            requestTimeIndex := requestTimeIndex t; validPeriodIndex := validPeriodIndex t;
            deviceNameIndex := deviceNameIndex t; bundleNameIndex := bundleNameIndex t |})
  end.

(** The six reads of one row; no record when one of them fails. *)
Definition read_info (t : UsbRightTableInfo) (rs : RS) : option UsbRightAppInfo :=
  let '(e0, key) := rs_GetInt (primaryKeyIndex t) rs in
  let '(e1, u) := rs_GetInt (uidIndex t) rs in
  let '(e2, inst) := rs_GetLong (installTimeIndex t) rs in
  let '(e3, updt) := rs_GetLong (updateTimeIndex t) rs in
  let '(e4, rqst) := rs_GetLong (requestTimeIndex t) rs in
  let '(e5, vald) := rs_GetLong (validPeriodIndex t) rs in
  if (e0 =? E_OK) && (e1 =? E_OK) && (e2 =? E_OK) && (e3 =? E_OK) && (e4 =? E_OK) && (e5 =? E_OK)
  then Some {| primaryKeyId := to_u32 key; uid := u; installTime := to_u64 inst;
               updateTime := to_u64 updt; requestTime := to_u64 rqst; validPeriod := to_u64 vald |}
  else None.

(** The row loop: [n] rows left, [i] the next one. *)
Fixpoint read_rows (t : UsbRightTableInfo) (n : nat) (i : Z) (rs : RS) (infos : list UsbRightAppInfo)
  : list UsbRightAppInfo :=
  match n with
  | O => infos
  | S n =>
      let '(e, rs) := rs_GoToRow i rs in
      if negb (e =? E_OK) then infos
      else
        let infos := match read_info t rs with Some info => infos ++ [info] | None => infos end in
        if rs_IsEnded rs then infos else read_rows t n (i + 1) rs infos
  end.

Definition GetResultRightRecordEx (resultSet : option RS) (infos : list UsbRightAppInfo)
  : Z * list UsbRightAppInfo :=
  let '(ret, table) := GetResultSetTableInfo resultSet in
  if ret <? USB_RIGHT_OK then (ret, infos)
  else
    match resultSet with
    | None => (ret, infos)
    | Some rs =>
        let infos := read_rows table (Z.to_nat (rowCount table)) 0 rs infos in
        (to_i32 (Z.of_nat (length infos)), infos)
    end.

(** *** Queries *)

Definition QueryAndGetResult (rdbPredicates : RdbPredicates) (columns : list string)
  (infos : list UsbRightAppInfo) : state UsbRightDbHelper (Z * list UsbRightAppInfo) :=
  with_db (USB_RIGHT_RDB_EXECUTE_FAILTURE, infos) (
    ret ← BeginTransaction;
    if ret <? USB_RIGHT_OK then mret (ret, infos) else
    resultSet ← Query rdbPredicates columns;
    match resultSet with
    | None => _ ← RollBack; mret (USB_RIGHT_RDB_EXECUTE_FAILTURE, infos)
    | Some _ =>
        ret ← Commit;
        if ret <? USB_RIGHT_OK then _ ← RollBack; mret (ret, infos)
        else mret (GetResultRightRecordEx resultSet infos)
    end).

Definition QueryRightRecord (uid : Z) (deviceName bundleName tokenId : string)
  (infos : list UsbRightAppInfo) : state UsbRightDbHelper (Z * list UsbRightAppInfo) :=
  QueryAndGetResult (record_predicates uid deviceName bundleName tokenId) [] infos.

Definition QueryUserRightRecord (uid : Z) (infos : list UsbRightAppInfo)
  : state UsbRightDbHelper (Z * list UsbRightAppInfo) :=
  QueryAndGetResult [EqualTo "uid" (pretty uid)] [] infos.

Definition QueryDeviceRightRecord (uid : Z) (deviceName : string) (infos : list UsbRightAppInfo)
  : state UsbRightDbHelper (Z * list UsbRightAppInfo) :=
  QueryAndGetResult
    [BeginWrap; EqualTo "uid" (pretty uid); And; EqualTo "deviceName" deviceName; EndWrap] [] infos.

Definition QueryAppRightRecord (uid : Z) (bundleName : string) (infos : list UsbRightAppInfo)
  : state UsbRightDbHelper (Z * list UsbRightAppInfo) :=
  QueryAndGetResult
    [BeginWrap; EqualTo "uid" (pretty uid); And; EqualTo "bundleName" bundleName; EndWrap] [] infos.

(** The loop over one column; [None] when [GoToRow] fails (the values read so
    far stay in the caller's vector, second component). *)
Fixpoint read_column (columnIndex : Z) (n : nat) (i : Z) (rs : RS) (vals : list string)
  : option Z * list string :=
  match n with
  | O => (None, vals)
  | S n =>
      let '(e, rs) := rs_GoToRow i rs in
      if negb (e =? E_OK) then (Some USB_RIGHT_RDB_EXECUTE_FAILTURE, vals)
      else
        let '(e, tempStr) := rs_GetString columnIndex rs in
        let vals := if e =? E_OK then vals ++ [tempStr] else vals in
        if rs_IsEnded rs then (None, vals) else read_column columnIndex n (i + 1) rs vals
  end.

Definition QueryAndGetResultColumnValues (rdbPredicates : RdbPredicates) (columns : list string)
  (columnName : string) (columnValues : list string) : state UsbRightDbHelper (Z * list string) :=
  with_db (USB_RIGHT_RDB_EXECUTE_FAILTURE, columnValues) (
    ret ← BeginTransaction;
    if ret <? USB_RIGHT_OK then mret (ret, columnValues) else
    resultSet ← Query rdbPredicates columns;
    match resultSet with
    | None => _ ← RollBack; mret (USB_RIGHT_RDB_EXECUTE_FAILTURE, columnValues)
    | Some rs =>
        ret ← Commit;
        if ret <? USB_RIGHT_OK then _ ← RollBack; mret (ret, columnValues) else
        let '(e1, rows) := rs_GetRowCount rs in
        let '(e2, columnIndex) := rs_GetColumnIndex columnName rs in
        if negb (e1 =? E_OK) || negb (e2 =? E_OK)
        then mret (USB_RIGHT_RDB_EXECUTE_FAILTURE, columnValues)
        else
          let '(err, vals) := read_column columnIndex (Z.to_nat rows) 0 rs columnValues in
          mret (match err with Some e => e | None => to_i32 (Z.of_nat (length vals)) end, vals)
    end).

Definition QueryRightRecordUids (uids : list string) : state UsbRightDbHelper (Z * list string) :=
  QueryAndGetResultColumnValues [Distinct] ["uid"] "uid" uids.

Definition QueryRightRecordApps (uid : Z) (apps : list string)
  : state UsbRightDbHelper (Z * list string) :=
  QueryAndGetResultColumnValues [EqualTo "uid" (pretty uid); Distinct] ["bundleName"] "bundleName" apps.

Definition QueryRightRecordCount : state UsbRightDbHelper Z :=
  with_db USB_RIGHT_RDB_EXECUTE_FAILTURE (
    ret ← BeginTransaction;
    if ret <? USB_RIGHT_OK then mret ret else
    resultSet ← Query [] [];
    match resultSet with
    | None => _ ← RollBack; mret USB_RIGHT_RDB_EXECUTE_FAILTURE
    | Some rs =>
        ret ← Commit;
        if ret <? USB_RIGHT_OK then _ ← RollBack; mret ret else
        let '(e, rows) := rs_GetRowCount rs in
        mret (if negb (e =? E_OK) then USB_RIGHT_RDB_EXECUTE_FAILTURE else rows)
    end).

(** [IsRecordExpired(uid, ...)]: no record grants. *)
Definition IsRecordExpired (uid : Z) (deviceName bundleName tokenId : string) (expiredTime : Z)
  : state UsbRightDbHelper bool :=
  '(ret, infos) ← QueryRightRecord uid deviceName bundleName tokenId [];
  if ret <=? 0 then mret true
  else mret (forallb (λ info, IsInfoExpired info expiredTime) infos).

(** *** Insertion and update *)

Definition AddRightRecord (deviceName bundleName : string) (info : UsbRightAppInfo)
  : state UsbRightDbHelper Z :=
  with_db USB_RIGHT_RDB_EXECUTE_FAILTURE (
    ret ← BeginTransaction;
    if ret <? USB_RIGHT_OK then mret ret else
    rowid ← Insert (info_bucket deviceName bundleName info);
    let ret := to_i32 rowid in
    if ret <? USB_RIGHT_OK then _ ← RollBack; mret ret else
    ret ← Commit;
    if ret <? USB_RIGHT_OK then _ ← RollBack; mret ret else mret ret).

Definition UpdateRightRecord (uid' : Z) (deviceName bundleName : string) (info : UsbRightAppInfo)
  : state UsbRightDbHelper Z :=
  with_db USB_RIGHT_RDB_EXECUTE_FAILTURE (
    ret ← BeginTransaction;
    if ret <? USB_RIGHT_OK then mret ret else
    '(_, ret) ← Update (info_bucket deviceName bundleName info)
      "uid = ? AND deviceName = ? AND bundleName = ?" [pretty (uid info); deviceName; bundleName];
    if ret <? USB_RIGHT_OK then _ ← RollBack; mret ret else
    ret ← Commit;
    if ret <? USB_RIGHT_OK then _ ← RollBack; mret ret else mret ret).

(** Both helpers of the upsert run on the open transaction of the caller. *)
Definition CheckIfNeedUpdateEx (uid : Z) (deviceName bundleName tokenId : string)
  : state DB (Z * bool) :=
  resultSet ← Query (record_predicates uid deviceName bundleName tokenId) [];
  match resultSet with
  | None => _ ← RollBack; mret (USB_RIGHT_RDB_EXECUTE_FAILTURE, false)
  | Some rs =>
      let '(e, rows) := rs_GetRowCount rs in
      if negb (e =? E_OK) then _ ← RollBack; mret (USB_RIGHT_RDB_EXECUTE_FAILTURE, false)
      else mret (USB_RIGHT_OK, 0 <? rows)
  end.

Definition AddOrUpdateRightRecordEx (isUpdate : bool) (uid' : Z) (deviceName bundleName tokenId : string)
  (info : UsbRightAppInfo) : state DB Z :=
  let values := info_bucket deviceName bundleName info ++ [("tokenId", VString tokenId)] in
  ret ← (if isUpdate
         then '(_, ret) ← Update values "uid = ? AND deviceName = ? AND bundleName = ? AND tokenId = ?"
                [pretty (uid info); deviceName; bundleName; tokenId]; mret ret
         else rowid ← Insert values; mret (to_i32 rowid));
  if ret <? USB_RIGHT_OK then _ ← RollBack; mret ret else mret ret.

Definition AddOrUpdateRightRecord (uid' : Z) (deviceName bundleName tokenId : string)
  (info : UsbRightAppInfo) : state UsbRightDbHelper Z :=
  with_db USB_RIGHT_RDB_EXECUTE_FAILTURE (
    ret ← BeginTransaction;
    if ret <? USB_RIGHT_OK then mret ret else
    '(ret, isUpdate) ← CheckIfNeedUpdateEx uid' deviceName bundleName tokenId;
    if ret <? USB_RIGHT_OK then mret ret else
    ret ← AddOrUpdateRightRecordEx isUpdate uid' deviceName bundleName tokenId info;
    if ret <? USB_RIGHT_OK then mret ret else
    ret ← Commit;
    if ret <? USB_RIGHT_OK then _ ← RollBack; mret ret else mret ret).

(** *** Deletion *)

(** The overload with a WHERE clause: after a failed commit and its rollback
    the function goes on to test [changedRows]. *)
Definition DeleteAndNoOtherOperation (whereClause : string) (whereArgs : list string)
  : state UsbRightDbHelper Z :=
  with_db USB_RIGHT_RDB_EXECUTE_FAILTURE (
    ret ← BeginTransaction;
    if ret <? USB_RIGHT_OK then mret ret else
    '(changedRows, ret) ← Delete whereClause whereArgs;
    if ret <? USB_RIGHT_OK then _ ← RollBack; mret ret else
    ret ← Commit;
    _ ← (if ret <? USB_RIGHT_OK then RollBack else mret 0);
    if changedRows <=? 0 then mret USB_RIGHT_RDB_EMPTY else mret ret).

Definition DeleteAndNoOtherOperationWith (rdbPredicates : RdbPredicates) : state UsbRightDbHelper Z :=
  with_db USB_RIGHT_RDB_EXECUTE_FAILTURE (
    ret ← BeginTransaction;
    if ret <? USB_RIGHT_OK then mret ret else
    ret ← DeleteWith rdbPredicates;
    if ret <? USB_RIGHT_OK then _ ← RollBack; mret ret else
    ret ← Commit;
    if ret <? USB_RIGHT_OK then _ ← RollBack; mret ret else mret ret).

Definition DeleteRightRecord (uid : Z) (deviceName bundleName tokenId : string) : state UsbRightDbHelper Z :=
  DeleteAndNoOtherOperation "uid = ? AND deviceName = ? AND bundleName = ? AND tokenId = ?"
    [pretty uid; deviceName; bundleName; tokenId].

Definition DeleteDeviceRightRecord (uid : Z) (deviceName : string) : state UsbRightDbHelper Z :=
  DeleteAndNoOtherOperation "uid = ? AND deviceName = ?" [pretty uid; deviceName].

Definition DeleteAppRightRecord (uid : Z) (bundleName : string) : state UsbRightDbHelper Z :=
  DeleteAndNoOtherOperation "uid = ? AND bundleName = ?" [pretty uid; bundleName].

Definition DeleteAppsRightRecord (uid : Z) (bundleNames : list string) : state UsbRightDbHelper Z :=
  DeleteAndNoOtherOperationWith
    [BeginWrap; EqualTo "uid" (pretty uid); And; In_ "bundleName" bundleNames; EndWrap].

Definition DeleteUidRightRecord (uid : Z) : state UsbRightDbHelper Z :=
  DeleteAndNoOtherOperation "uid = ?" [pretty uid].

Definition relativeExpiredTime (expiredTime : Z) : Z :=
  if expiredTime <=? USB_RIGHT_VALID_PERIOD_SET then 0
  else to_u64 (expiredTime - USB_RIGHT_VALID_PERIOD_SET).

Definition DeleteNormalExpiredRightRecord (uid expiredTime : Z) : state UsbRightDbHelper Z :=
  DeleteAndNoOtherOperation "uid = ? AND requestTime < ? AND validPeriod NOT IN (?, ?)"
    [pretty uid; pretty (relativeExpiredTime expiredTime);
     pretty USB_RIGHT_VALID_PERIOD_MIN; pretty USB_RIGHT_VALID_PERIOD_MAX].

Definition DeleteValidPeriodRightRecord (validPeriod : Z) (deviceName : string) : state UsbRightDbHelper Z :=
  DeleteAndNoOtherOperation "validPeriod = ? AND deviceName = ?" [pretty validPeriod; deviceName].
End Helper.
Arguments UsbRightDbHelper : clear implicits.
Arguments Build_UsbRightDbHelper {W} _.

(** ** What the operations do to the table *)

(** The key of a record. *)
Definition record_match (u : Z) (d b t : string) (r : Row) : bool :=
  bool_decide (row_uid r = u ∧ row_deviceName r = d ∧ row_bundleName r = b ∧ row_tokenId r = t).

(** What a row reads as. *)
Definition row_info (r : Row) : UsbRightAppInfo := {|
  primaryKeyId := to_u32 (to_i32 (row_id r));
  uid := to_i32 (row_uid r);
  installTime := to_u64 (row_installTime r);
  updateTime := to_u64 (row_updateTime r);
  requestTime := to_u64 (row_requestTime r);
  validPeriod := to_u64 (row_validPeriod r);
|}.

(** A row of the key that grants at time [now]. *)
Definition grants (u : Z) (d b t : string) (now : Z) (r : Row) : bool :=
  record_match u d b t r && negb (IsInfoExpired (row_info r) now).

(** The bucket of the upsert. *)
Definition right_bucket (d b t : string) (info : UsbRightAppInfo) : ValuesBucket :=
  info_bucket d b info ++ [("tokenId", VString t)].

(** Update the rows of the key, or append one with identifier [id]. *)
Definition upsert (id : Z) (d b t : string) (info : UsbRightAppInfo) (rows : list Row) : list Row :=
  if existsb (record_match (uid info) d b t) rows
  then map (λ r, if record_match (uid info) d b t r then bucket_update (right_bucket d b t info) r else r) rows
  else rows ++ [bucket_row id (right_bucket d b t info)].

Lemma record_match_and u d b t r :
  record_match u d b t r =
    bool_decide (row_uid r = u) && (bool_decide (row_deviceName r = d) &&
      (bool_decide (row_bundleName r = b) && bool_decide (row_tokenId r = t))).
Proof. unfold record_match. by rewrite !bool_decide_and. Qed.

Lemma record_predicates_match u d b t r :
  predicates_match (record_predicates u d b t) r = record_match u d b t r.
Proof.
  unfold predicates_match, record_predicates. cbn [forallb call_match].
  autorewrite with usb_columns. by rewrite record_match_and, !andb_true_r.
Qed.

Lemma clause_record_holds u d b t r :
  where_holds clause_record [pretty u; d; b; t] r = record_match u d b t r.
Proof.
  unfold clause_record. cbn [where_holds].
  autorewrite with usb_columns. by rewrite record_match_and, andb_true_r.
Qed.

(** Querying all columns returns the matching rows as they are stored. *)
Lemma query_rows_all ps rows : is_distinct ps = false →
  query_rows ps [] rows = map row_values (List.filter (predicates_match ps) rows).
Proof. intros H. unfold query_rows. by rewrite H. Qed.

Section HelperState.
Context {W RS : Type} `{!RdbStore W RS} `{!RdbStoreLaws W RS right_clauses}.
Implicit Types h : UsbRightDbHelper W.

(** The table and the open transaction, as the helper sees them. *)
Definition h_view h : list Row := match rightDatabase_ h with Some db => db_view db | None => [] end.
Definition h_base h : option (list Row) :=
  match rightDatabase_ h with Some db => db_base db | None => None end.

Lemma with_db_run {A} (dflt a : A) m h h' : with_db dflt m h = (a, h') →
  (rightDatabase_ h = None ∧ a = dflt ∧ h' = h) ∨
  (∃ db db', rightDatabase_ h = Some db ∧ m db = (a, db') ∧ h' = {| rightDatabase_ := Some db' |}).
Proof.
  unfold with_db. destruct (rightDatabase_ h) as [db|]; [|intros [= <- <-]; by left].
  destruct (m db) as [b db'] eqn:E. intros [= <- <-]. right. by exists db, db'.
Qed.
End HelperState.

(** Run a method from [H : method h = (out, h')]: the null branch is solved by
    the codes, every path of the other yields the facts of its calls. *)
Ltac helper_run H :=
  apply with_db_run in H; destruct H as [(Hdb & ? & ->)|(db & db' & Hdb & H & ->)];
  unfold h_view, h_base in *; rewrite ?Hdb in *; cbn [rightDatabase_] in *;
  [ simplify_eq; unfold USB_RIGHT_RDB_EXECUTE_FAILTURE; repeat split; auto with lia
  | revert H; run; intros; simplify_eq; db_facts; zbool;
    unfold USB_RIGHT_OK, USB_RIGHT_RDB_EXECUTE_FAILTURE, USB_RIGHT_RDB_EMPTY in *; try lia ].
(** Rewrite with the chain of view and transaction equations. *)
Ltac chain :=
  repeat match goal with
  | H : db_view ?x = _ |- context [db_view ?x] => rewrite H
  | H : db_base ?x = _ |- context [db_base ?x] => rewrite H
  | H : db_base ?x = _, H' : context [db_base ?x] |- _ => rewrite H in H'
  | H : db_view ?x = _, H' : context [db_view ?x] |- _ => rewrite H in H'
  end; cbn [default from_option].


Section HelperSpec.
Context {W RS : Type} `{!RdbStore W RS} `{!RdbStoreLaws W RS right_clauses}.
Context (uninit : Z).
Implicit Types h : UsbRightDbHelper W.

(** *** Reading a result set *)

Definition full_table (n : Z) : UsbRightTableInfo := {|
  rowCount := n; columnCount := 9; primaryKeyIndex := 0; uidIndex := 1; installTimeIndex := 2;
  updateTimeIndex := 3; requestTimeIndex := 4; validPeriodIndex := 5;
  deviceNameIndex := 6; bundleNameIndex := 7 |}.

Lemma table_info_spec rs rows p : rs_rep rs table_columns rows p →
  GetResultSetTableInfo uninit (Some rs) = (USB_RIGHT_OK, full_table (Z.of_nat (length rows))).
Proof.
  intros H. unfold GetResultSetTableInfo.
  destruct (law_rs_rows rs _ _ _ H) as (-> & -> & ->). by rewrite Z.eqb_refl.
Qed.

Lemma read_info_spec n rs rows i r :
  rs_rep rs table_columns (map row_values rows) (Z.of_nat i) → rows !! i = Some r →
  read_info (full_table n) rs = Some (row_info r).
Proof.
  intros Hrep Hi. unfold read_info. cbn [full_table primaryKeyIndex uidIndex installTimeIndex
    updateTimeIndex requestTimeIndex validPeriodIndex].
  assert (map row_values rows !! i = Some (row_values r)) as Hv.
  { change (map row_values rows) with (row_values <$> rows). by rewrite list_lookup_fmap, Hi. }
  assert (∀ k z, row_values r !! k = Some (VLong z) →
    rs_GetInt (Z.of_nat k) rs = (E_OK, to_i32 z) ∧ rs_GetLong (Z.of_nat k) rs = (E_OK, z)) as Hget.
  { intros k z Hk. destruct (law_rs_get rs _ _ _ _ _ _ Hrep Hv Hk) as [Hz _]. by apply Hz. }
  rewrite (proj1 (Hget 0%nat _ eq_refl) : rs_GetInt 0 rs = _).
  rewrite (proj1 (Hget 1%nat _ eq_refl) : rs_GetInt 1 rs = _).
  rewrite (proj2 (Hget 2%nat _ eq_refl) : rs_GetLong 2 rs = _).
  rewrite (proj2 (Hget 3%nat _ eq_refl) : rs_GetLong 3 rs = _).
  rewrite (proj2 (Hget 4%nat _ eq_refl) : rs_GetLong 4 rs = _).
  rewrite (proj2 (Hget 5%nat _ eq_refl) : rs_GetLong 5 rs = _).
  by rewrite Z.eqb_refl.
Qed.

Lemma read_rows_spec m n i rs rows p infos :
  rs_rep rs table_columns (map row_values rows) p → (i + n = length rows)%nat →
  read_rows (full_table m) n (Z.of_nat i) rs infos = infos ++ map row_info (drop i rows).
Proof.
  revert i rs p infos. induction n as [|n IH]; intros i rs p infos Hrep Hlen; cbn [read_rows].
  - rewrite drop_ge by lia. by rewrite app_nil_r.
  - destruct (lookup_lt_is_Some_2 rows i) as [r Hr]; [lia|].
    destruct (law_rs_goto rs _ _ _ i Hrep) as (rs' & -> & Hrep'); [rewrite length_map; lia|].
    rewrite Z.eqb_refl. cbn [negb]. rewrite (read_info_spec _ _ _ _ _ Hrep' Hr).
    rewrite (law_rs_ended _ _ _ _ Hrep'), length_map.
    replace (Z.of_nat (length rows) <=? Z.of_nat i) with false by (symmetry; apply Z.leb_gt; lia).
    replace (Z.of_nat i + 1) with (Z.of_nat (S i)) by lia.
    rewrite (IH _ _ _ _ Hrep') by lia. rewrite (drop_S _ _ _ Hr). cbn [map].
    by rewrite <- app_assoc.
Qed.

Lemma result_spec rs rows p infos : rs_rep rs table_columns (map row_values rows) p →
  GetResultRightRecordEx uninit (Some rs) infos =
    (to_i32 (Z.of_nat (length (infos ++ map row_info rows))), infos ++ map row_info rows).
Proof.
  intros H. unfold GetResultRightRecordEx. rewrite (table_info_spec _ _ _ H).
  cbn [USB_RIGHT_OK rowCount full_table]. rewrite length_map, Nat2Z.id.
  change (USB_RIGHT_OK <? USB_RIGHT_OK) with false. cbn beta iota zeta.
  change 0 with (Z.of_nat 0). by rewrite (read_rows_spec _ _ _ _ _ _ _ H).
Qed.

(** *** Transactions *)

Lemma query_spec_helper ps infos h ret infos' h' : is_distinct ps = false →
  QueryAndGetResult uninit ps [] infos h = ((ret, infos'), h') →
  h_view h' = h_view h ∧ (h_base h = None → h_base h' = None) ∧
  (ret < 0 ∧ infos' = infos ∨
   infos' = infos ++ map row_info (List.filter (predicates_match ps) (h_view h)) ∧
   ret = to_i32 (Z.of_nat (length infos'))).
Proof.
  intros Hd H. helper_run H; chain; (split; [done|split; [done|]]);
    try (left; split; [lia|done]).
  match goal with HQ : ∀ r, Some ?rs = Some r → _ |- _ => destruct (HQ _ eq_refl) as [pos Hrep] end.
  rewrite (query_rows_all _ _ Hd) in Hrep. cbn [query_columns] in Hrep. chain.
  match goal with HG : GetResultRightRecordEx _ _ _ = _ |- _ =>
    rewrite (result_spec _ _ _ _ Hrep) in HG end.
  simplify_eq. by right.
Qed.

Lemma where_text_clauses :
  "uid = ? AND deviceName = ? AND bundleName = ? AND tokenId = ?" = where_text clause_record ∧
  "uid = ? AND deviceName = ? AND bundleName = ?" = where_text clause_uid_device_bundle ∧
  "uid = ? AND deviceName = ?" = where_text clause_uid_device ∧
  "uid = ? AND bundleName = ?" = where_text clause_uid_bundle ∧
  "uid = ?" = where_text clause_uid ∧
  "uid = ? AND requestTime < ? AND validPeriod NOT IN (?, ?)" = where_text clause_normal_expired ∧
  "validPeriod = ? AND deviceName = ?" = where_text clause_period_device.
Proof. done. Qed.

(** A deletion by clause: either rows of the clause are gone, all of them, or
    the table is as before. *)
Lemma delete_clause_spec ts args h ret h' : ts ∈ right_clauses → h_base h = None →
  DeleteAndNoOtherOperation (where_text ts) args h = (ret, h') →
  h_base h' = None ∧
  (ret = USB_RIGHT_OK ∧ existsb (where_holds ts args) (h_view h) = true ∧
     h_view h' = List.filter (λ r, negb (where_holds ts args r)) (h_view h) ∨
   ret < 0 ∧ h_view h' = h_view h).
Proof.
  intros Hts Hb H. helper_run H.
  all: try match goal with HD : Delete _ _ _ = _ |- _ =>
    apply delete_spec in HD; [|done]; destruct HD as (? & [(? & ? & ?)|(? & ? & ?)]) end.
  all: subst; chain; try lia; (split; [done|]).
  all: first [right; split; [lia|done]|idtac].
  - right. split; [lia|]. apply filter_negb_none. lia.
  - left. split; [done|]. split; [|done]. rewrite <- length_filter_existsb. by apply Z.ltb_lt.
Qed.

Lemma delete_predicates_spec ps h ret h' : h_base h = None →
  DeleteAndNoOtherOperationWith ps h = (ret, h') →
  h_base h' = None ∧
  (ret = USB_RIGHT_OK ∧ h_view h' = List.filter (λ r, negb (predicates_match ps r)) (h_view h) ∨
   ret < 0 ∧ h_view h' = h_view h).
Proof.
  intros Hb H. helper_run H.
  all: chain; (split; [done|]); first [right; split; [lia|done]|left; split; [lia|done]].
Qed.

(** The test of the upsert runs in the open transaction [B]: it either closes
    it unchanged or says whether a row of the key exists. *)
Lemma check_spec u d b t db ret isUpdate db' B : db_base db = Some B → db_view db = B →
  CheckIfNeedUpdateEx u d b t db = ((ret, isUpdate), db') →
  (ret < 0 ∧ db_base db' = None ∧ db_view db' = B) ∨
  (ret = 0 ∧ db_base db' = Some B ∧ db_view db' = B ∧ isUpdate = existsb (record_match u d b t) B).
Proof.
  intros Hb Hv H. unfold CheckIfNeedUpdateEx in H. revert H. run; intros; simplify_eq; db_facts.
  all: chain; try (left; split; [unfold USB_RIGHT_RDB_EXECUTE_FAILTURE; lia|done]).
  right. split; [done|]. repeat (split; [congruence|]).
  match goal with HQ : ∀ r, Some ?rs = Some r → _ |- _ => destruct (HQ _ eq_refl) as [pos Hrep] end.
  destruct (law_rs_rows _ _ _ _ Hrep) as (Hc & _). rewrite query_rows_all, length_map in Hc by done.
  match goal with HR : rs_GetRowCount _ = (?z, _), HN : negb (?z =? _) = false |- _ =>
    rewrite Hc in HR; clear HN end.
  simplify_eq. rewrite length_filter_existsb. apply existsb_ext_bool. intros x.
  apply record_predicates_match.
Qed.

(** The write of the upsert, in the same transaction. *)
Lemma write_spec isUpdate u d b t info db ret db' B : db_base db = Some B → db_view db = B →
  isUpdate = existsb (record_match (uid info) d b t) B →
  AddOrUpdateRightRecordEx isUpdate u d b t info db = (ret, db') →
  (ret < 0 ∧ db_base db' = None ∧ db_view db' = B) ∨
  (0 <= ret ∧ db_base db' = Some B ∧ ∃ id, 0 < id < 2 ^ 63 ∧ db_view db' = upsert id d b t info B).
Proof.
  intros Hb Hv -> H. unfold AddOrUpdateRightRecordEx in H. revert H. unfold upsert.
  destruct (existsb _ B) eqn:HE; run; intros; simplify_eq; zbool.
  all: try match goal with HU : Update _ _ _ _ = _ |- _ =>
    apply (update_spec _ clause_record) in HU; [|by left]; destruct HU as (? & [(? & ?)|(? & ?)]) end.
  all: db_facts; unfold USB_RIGHT_OK in *; subst; chain; try lia.
  all: try (left; split; [lia|done]).
  - right. split; [lia|]. split; [done|]. exists 1. split; [lia|].
    apply map_ext. intros r. by rewrite clause_record_holds.
  - match goal with HI : 0 <= to_i32 ?z |- _ => rewrite to_i32_id in HI by (unfold in_i32; lia) end. lia.
  - right. split; [lia|]. split; [done|]. eauto.
Qed.

(** The upsert is atomic: a negative code leaves the table as it was, any other
    result means the record of the key is written. *)
Lemma upsert_spec d b t info h ret h' : h_base h = None →
  AddOrUpdateRightRecord (uid info) d b t info h = (ret, h') →
  h_base h' = None ∧
  (ret < 0 ∧ h_view h' = h_view h ∨
   0 <= ret ∧ ∃ id, 0 < id < 2 ^ 63 ∧ h_view h' = upsert id d b t info (h_view h)).
Proof.
  intros Hb H. helper_run H; chain; try (split; [done|]; left; split; [lia|done]).
  all: match goal with
    | HC : CheckIfNeedUpdateEx _ _ _ _ _ = _, HB : db_base _ = Some ?B |- _ =>
        apply (check_spec _ _ _ _ _ _ _ _ B) in HC; [|done|done] end.
  all: match goal with HC : _ ∨ _ |- _ =>
    destruct HC as [(? & ? & ?)|(? & ? & ? & ?)]; try lia end; subst.
  all: try (chain; split; [done|]; left; split; [lia|done]).
  all: match goal with
    | HC : AddOrUpdateRightRecordEx _ _ _ _ _ _ _ = _, HB : db_base ?x = Some ?B |- _ =>
        apply (write_spec _ _ _ _ _ _ _ _ _ B) in HC; [|done|done|done] end.
  all: match goal with HC : _ ∨ _ |- _ =>
    destruct HC as [(? & ? & ?)|(? & ? & id & ? & ?)]; try lia end; subst.
  all: chain; (split; [done|]).
  all: first [left; split; [lia|done] | right; split; [lia|]; exists id; split; [lia|done]].
Qed.

(** *** The expiry test *)

Lemma forallb_grants u d b t now rows :
  forallb (λ info, IsInfoExpired info now) (map row_info (List.filter (record_match u d b t) rows)) =
    negb (existsb (grants u d b t now) rows).
Proof.
  induction rows as [|r rows IH]; [done|]. simpl. unfold grants at 1.
  destruct (record_match u d b t r); simpl; [|done].
  rewrite IH. by destruct (IsInfoExpired (row_info r) now).
Qed.

(** Whatever fails on the way, "not expired" needs a granting record. *)
Lemma expired_sound u d b t now h e h' : IsRecordExpired uninit u d b t now h = (e, h') →
  h_view h' = h_view h ∧ (h_base h = None → h_base h' = None) ∧
  (e = false → existsb (grants u d b t now) (h_view h) = true).
Proof.
  unfold IsRecordExpired, QueryRightRecord. rewrite bind_run.
  destruct (QueryAndGetResult _ _ _ _ h) as [[ret infos] h1] eqn:HQ. simpl.
  apply query_spec_helper in HQ as (Hv & Hb & Hr); [|done].
  destruct (ret <=? 0) eqn:E; rewrite ret_run; intros [= <- <-]; (split; [done|]; split; [done|]); [done|].
  zbool. destruct Hr as [[? _]|[-> _]]; [lia|].
  rewrite (filter_ext_bool _ (record_match u d b t)) by (intros; apply record_predicates_match).
  cbn [app]. rewrite forallb_grants. intros H%negb_false_iff. done.
Qed.

(** A helper with its pointers set, on a store that does not fail. *)
Definition helper_ready h : Prop :=
  (∃ w, rightDatabase_ h = Some {| store_ := Some w |}) ∧ Z.of_nat (length (h_view h)) < 2 ^ 31.

Lemma query_reliable_result `{!RdbReliable W RS} ps infos w ret infos' h' :
  is_distinct ps = false →
  QueryAndGetResult uninit ps [] infos {| rightDatabase_ := Some {| store_ := Some w |} |} = ((ret, infos'), h') →
  infos' = infos ++ map row_info (List.filter (predicates_match ps) (view w)) ∧
  ret = to_i32 (Z.of_nat (length infos')).
Proof.
  intros Hd. unfold QueryAndGetResult, with_db, BeginTransaction, Query, Commit, with_store. cbn [rightDatabase_].
  pose proof (reliable_begin w) as H1. pose proof (law_begin w) as L1.
  run_unfold. cbn [store_]. destruct (store_BeginTransaction w) as [e1 w1]. cbn in H1. subst e1.
  rewrite map_error_OK. change (USB_RIGHT_OK <? USB_RIGHT_OK) with false. cbn [store_].
  pose proof (reliable_query ps [] w1) as [rs H2]. pose proof (law_query ps [] w1) as L2.
  destruct (store_Query ps [] w1) as [o w2]. cbn in H2. subst o. cbv beta iota. cbn [store_].
  pose proof (reliable_commit w2) as H3. destruct (store_Commit w2) as [e3 w3]. cbn in H3. subst e3.
  rewrite map_error_OK. change (USB_RIGHT_OK <? USB_RIGHT_OK) with false. cbv beta iota.
  destruct L2 as (_ & _ & L2), (L2 rs eq_refl) as [pos Hrep]. destruct L1 as [L1 _].
  rewrite (query_rows_all _ _ Hd), L1 in Hrep. rewrite (result_spec _ _ _ _ Hrep).
  by intros [= <- <- _].
Qed.

(** On a reliable store the test is exact. *)
Lemma expired_exact `{!RdbReliable W RS} u d b t now h e h' : helper_ready h →
  IsRecordExpired uninit u d b t now h = (e, h') → e = negb (existsb (grants u d b t now) (h_view h)).
Proof.
  intros [[w Hw] Hlen]. destruct h as [o]. cbn [rightDatabase_] in Hw. subst o.
  unfold IsRecordExpired, QueryRightRecord. rewrite bind_run.
  destruct (QueryAndGetResult _ _ _ _ _) as [[ret infos] h1] eqn:HQ. simpl.
  apply query_reliable_result in HQ as [Hi Hr]; [|done]. cbn [app] in Hi.
  rewrite (filter_ext_bool _ (record_match u d b t)) in Hi by (intros; apply record_predicates_match).
  unfold h_view, db_view in *. cbn [rightDatabase_ store_] in *.
  assert (length infos <= length (view w))%nat as Hle.
  { subst infos. rewrite length_map. apply List.filter_length_le. }
  rewrite to_i32_id in Hr by (unfold in_i32; lia). subst ret.
  rewrite <- forallb_grants, <- Hi.
  destruct (_ <=? 0) eqn:E; rewrite ret_run; intros [= <- <-]; [|done].
  zbool. by destruct infos; simpl in E; [|lia].
Qed.
End HelperSpec.

(** * A store in memory

    A concrete [RdbStore]: the table is a list of rows, a transaction keeps the
    list it started from. It satisfies the laws the right database is verified
    under, so those laws can hold, and the witnesses run on it. *)

Record MemStore := { mem_rows : list Row; mem_base : option (list Row); mem_next : Z }.
Record MemResult := { res_cols : list string; res_rows : list (list Value); res_pos : Z }.

Definition mem_set (rs : list Row) (w : MemStore) : MemStore :=
  {| mem_rows := rs; mem_base := mem_base w; mem_next := mem_next w |}.

(** The tests a WHERE text stands for. *)
Definition clause_of (text : string) : list SqlTest :=
  default [] (find (λ ts, bool_decide (where_text ts = text)) right_clauses).

Definition count (f : Row → bool) (rs : list Row) : Z := Z.of_nat (length (List.filter f rs)).

Definition cell (k : Z) (r : MemResult) : Value :=
  default (VString "") (res_rows r !! Z.to_nat (res_pos r) ≫= λ vs, vs !! Z.to_nat k).

Fixpoint index_of (c : string) (l : list string) (i : Z) : Z :=
  match l with [] => -1 | x :: l => if bool_decide (x = c) then i else index_of c l (i + 1) end.

#[export] Instance mem_store : RdbStore MemStore MemResult := {
  E_OK := 0;
  store_BeginTransaction := λ w, (0, {| mem_rows := mem_rows w; mem_base := Some (mem_rows w); mem_next := mem_next w |});
  store_Commit := λ w, (0, {| mem_rows := mem_rows w; mem_base := None; mem_next := mem_next w |});
  store_RollBack := λ w,
    (0, {| mem_rows := default (mem_rows w) (mem_base w); mem_base := None; mem_next := mem_next w |});
  store_Insert := λ _ vs w,
    let id := mem_next w in
    if (0 <? id) && (id <? 2 ^ 63)
    then ((0, id), {| mem_rows := mem_rows w ++ [bucket_row id vs]; mem_base := mem_base w; mem_next := id + 1 |})
    else ((0, 1), {| mem_rows := mem_rows w ++ [bucket_row 1 vs]; mem_base := mem_base w; mem_next := 2 |});
  store_Update := λ _ vs text args w,
    let f := where_holds (clause_of text) args in
    ((0, count f (mem_rows w)), mem_set (map (λ r, if f r then bucket_update vs r else r) (mem_rows w)) w);
  store_UpdateWith := λ vs ps w,
    let f := predicates_match ps in
    ((0, count f (mem_rows w)), mem_set (map (λ r, if f r then bucket_update vs r else r) (mem_rows w)) w);
  store_Delete := λ _ text args w,
    let f := where_holds (clause_of text) args in
    ((0, count f (mem_rows w)), mem_set (List.filter (λ r, negb (f r)) (mem_rows w)) w);
  store_DeleteWith := λ ps w,
    let f := predicates_match ps in
    ((0, count f (mem_rows w)), mem_set (List.filter (λ r, negb (f r)) (mem_rows w)) w);
  store_Query := λ ps cols w,
    (Some {| res_cols := query_columns cols; res_rows := query_rows ps cols (mem_rows w); res_pos := -1 |}, w);
  store_QuerySql := λ _ w, (None, w);
  store_ExecuteSql := λ _ w, (0, w);
  rs_GetRowCount := λ r, (0, Z.of_nat (length (res_rows r)));
  rs_GetColumnCount := λ r, (0, Z.of_nat (length (res_cols r)));
  rs_GetAllColumnNames := λ r, (0, res_cols r);
  rs_GetColumnIndex := λ c r, (0, index_of c (res_cols r) 0);
  rs_GoToRow := λ i r, (0, {| res_cols := res_cols r; res_rows := res_rows r; res_pos := i |});
  rs_GetInt := λ k r, (0, to_i32 (value_int (cell k r)));
  rs_GetLong := λ k r, (0, value_int (cell k r));
  rs_GetString := λ k r, (0, value_text (cell k r));
  rs_IsEnded := λ r, Z.of_nat (length (res_rows r)) <=? res_pos r;
}.

Lemma clause_of_text ts : ts ∈ right_clauses → clause_of (where_text ts) = ts.
Proof.
  intros H. assert (Forall (λ ts, clause_of (where_text ts) = ts) right_clauses) as HF.
  { apply (bool_decide_unpack _). by vm_compute. }
  rewrite Forall_forall in HF. by apply HF.
Qed.

Lemma index_of_unique c l i k : l !! i = Some c → (∀ j, l !! j = Some c → j = i) →
  index_of c l k = k + Z.of_nat i.
Proof.
  revert i k. induction l as [|x l IH]; intros i k Hi Hu; [done|]. simpl.
  case_bool_decide as Hx.
  - subst. pose proof (Hu 0%nat eq_refl) as <-. lia.
  - destruct i as [|i]; [by injection Hi|].
    rewrite (IH i); [lia|done|]. intros j Hj. specialize (Hu (S j) Hj). lia.
Qed.

#[export] Instance mem_laws : RdbStoreLaws MemStore MemResult right_clauses.
Proof.
  refine {| view := mem_rows; base := mem_base;
    rs_rep r cols rows p := res_cols r = cols ∧ res_rows r = rows ∧ res_pos r = p |}; try done.
  - intros vs [rs b n]. simpl. destruct (_ && _) eqn:E; simpl; (split; [done|]); (split; [|done]); zbool; lia.
  - intros vs ts args [rs b n] H. cbn -[where_holds bucket_update clause_of where_text]. by rewrite clause_of_text.
  - intros ts args [rs b n] H. cbn -[where_holds clause_of where_text]. by rewrite clause_of_text.
  - intros ps cols w. simpl. split; [done|]. split; [done|]. intros r [= <-]. by exists (-1).
  - by intros [] ? ? ? (<- & <- & <-).
  - intros [] ? ? ? i c (<- & <- & <-) Hi Hu. simpl. by rewrite (index_of_unique _ _ _ _ Hi Hu).
  - intros [] ? ? ? i (<- & <- & <-) Hi. simpl. eauto.
  - intros r cols rows i vs k v (<- & <- & Hp) Hi Hv.
    assert (cell (Z.of_nat k) r = v) as Hc.
    { unfold cell. rewrite Hp, !Nat2Z.id, Hi. simpl. by rewrite Hv. }
    cbn [mem_store rs_GetInt rs_GetLong rs_GetString E_OK]. rewrite Hc. split; [|done]. by intros z ->.
  - by intros [] ? ? ? (<- & <- & <-).
Defined.

#[export] Instance mem_reliable : RdbReliable MemStore MemResult.
Proof.
  split; try done. intros vs w. simpl. by destruct (_ && _).
Qed.

(** A helper on an in-memory table, outside a transaction. *)
Definition mem_helper (rs : list Row) : UsbRightDbHelper MemStore :=
  {| rightDatabase_ := Some {| store_ := Some {| mem_rows := rs; mem_base := None; mem_next := 100 |} |} |}.
