(* ===== verification/RightRecords.v ===== *)
(** * The interface between the right manager and the right database

    [RightRecords] lists the [UsbRightDbHelper] methods the right manager calls,
    [RightRecordsLaws] what they promise; the manager is verified against it.
    The instances at the end discharge it with [UsbRightDbHelper], on any store
    that satisfies [RdbStoreLaws], whichever of its calls fail; the database answers
    ([ready]) when none does. *)
From S2P Require Import Prelude UsbErrors UsbRightDatabase UsbRightDbHelper.

Class RightRecords (H : Type) := {
  rr_IsRecordExpired : Z → string → string → string → Z → state H bool;
  rr_AddOrUpdateRightRecord : Z → string → string → string → UsbRightAppInfo → state H Z;
  rr_DeleteRightRecord : Z → string → string → string → state H Z;
  rr_DeleteAppRightRecord : Z → string → state H Z;
  rr_DeleteAppsRightRecord : Z → list string → state H Z;
  rr_DeleteUidRightRecord : Z → state H Z;
  rr_DeleteNormalExpiredRightRecord : Z → Z → state H Z;
  rr_DeleteValidPeriodRightRecord : Z → string → state H Z;
  rr_QueryRightRecordApps : Z → list string → state H (Z * list string);
  rr_QueryRightRecordUids : list string → state H (Z * list string);
  rr_QueryAppRightRecord : Z → string → list UsbRightAppInfo → state H (Z * list UsbRightAppInfo);
}.

(** The rows a deletion leaves: all of them, or those outside [f]. *)
Definition deleted (f : Row → bool) (ret : Z) (rows rows' : list Row) : Prop :=
  ret = USB_RIGHT_OK ∧ rows' = List.filter (λ r, negb (f r)) rows ∨ ret < 0 ∧ rows' = rows.

(** The rows each deletion is about. *)
Definition app_match (u : Z) (b : string) (r : Row) : bool :=
  bool_decide (row_uid r = u) && bool_decide (row_bundleName r = b).
Definition apps_match (u : Z) (bs : list string) (r : Row) : bool :=
  bool_decide (row_uid r = u) && existsb (λ b, bool_decide (row_bundleName r = b)) bs.
Definition uid_match (u : Z) (r : Row) : bool := bool_decide (row_uid r = u).
Definition normal_expired_match (u now : Z) (r : Row) : bool :=
  bool_decide (row_uid r = u) && ((row_requestTime r <? relativeExpiredTime now) &&
    (negb (bool_decide (row_validPeriod r = USB_RIGHT_VALID_PERIOD_MIN)) &&
     negb (bool_decide (row_validPeriod r = USB_RIGHT_VALID_PERIOD_MAX)))).
Definition period_match (p : Z) (d : string) (r : Row) : bool :=
  bool_decide (row_validPeriod r = p) && bool_decide (row_deviceName r = d).

(** [rows h] is the table, [idle h] says no transaction is open, [ready h] that
    the database answers. *)
Class RightRecordsLaws (H : Type) `{!RightRecords H} := {
  rows : H → list Row;
  idle : H → Prop;
  ready : H → Prop;
  rr_expired_law u d b t now h e h' : idle h → rr_IsRecordExpired u d b t now h = (e, h') →
    rows h' = rows h ∧ idle h' ∧
    (e = false → existsb (grants u d b t now) (rows h) = true) ∧
    (ready h → e = negb (existsb (grants u d b t now) (rows h)));
  rr_upsert_law d b t info h ret h' : idle h →
    rr_AddOrUpdateRightRecord (uid info) d b t info h = (ret, h') →
    idle h' ∧ (ret < 0 ∧ rows h' = rows h ∨
      0 <= ret ∧ ∃ id, 0 < id < 2 ^ 63 ∧ rows h' = upsert id d b t info (rows h));
  rr_delete_law u d b t h ret h' : idle h → rr_DeleteRightRecord u d b t h = (ret, h') →
    idle h' ∧ deleted (record_match u d b t) ret (rows h) (rows h');
  rr_delete_app_law u b h ret h' : idle h → rr_DeleteAppRightRecord u b h = (ret, h') →
    idle h' ∧ deleted (app_match u b) ret (rows h) (rows h');
  rr_delete_apps_law u bs h ret h' : idle h → rr_DeleteAppsRightRecord u bs h = (ret, h') →
    idle h' ∧ deleted (apps_match u bs) ret (rows h) (rows h');
  rr_delete_uid_law u h ret h' : idle h → rr_DeleteUidRightRecord u h = (ret, h') →
    idle h' ∧ deleted (uid_match u) ret (rows h) (rows h');
  rr_delete_normal_law u now h ret h' : idle h →
    rr_DeleteNormalExpiredRightRecord u now h = (ret, h') →
    idle h' ∧ deleted (normal_expired_match u now) ret (rows h) (rows h');
  rr_delete_period_law p d h ret h' : idle h → rr_DeleteValidPeriodRightRecord p d h = (ret, h') →
    idle h' ∧ deleted (period_match p d) ret (rows h) (rows h');
  rr_query_apps_law u l h ret l' h' : idle h → rr_QueryRightRecordApps u l h = ((ret, l'), h') →
    rows h' = rows h ∧ idle h';
  rr_query_uids_law l h ret l' h' : idle h → rr_QueryRightRecordUids l h = ((ret, l'), h') →
    rows h' = rows h ∧ idle h';
  rr_query_app_law u b l h ret l' h' : idle h → rr_QueryAppRightRecord u b l h = ((ret, l'), h') →
    rows h' = rows h ∧ idle h' ∧
    (ret < 0 ∧ l' = l ∨ l' = l ++ map row_info (List.filter (app_match u b) (rows h)));
}.

(** Deletions only remove rows. *)
Lemma deleted_incl f ret rs rs' r : deleted f ret rs rs' → In r rs' → In r rs.
Proof. intros [[_ ->]|[_ ->]]; [|done]. by intros [? _]%List.filter_In. Qed.
Lemma deleted_ok f ret rs rs' r : deleted f ret rs rs' → ret = USB_RIGHT_OK → In r rs' → f r = false.
Proof.
  intros [[_ ->]|[Hr _]] HO; [|unfold USB_RIGHT_OK in HO; lia].
  intros [_ Hn]%List.filter_In. by apply negb_true_iff.
Qed.
Lemma deleted_keeps f ret rs rs' r : deleted f ret rs rs' → In r rs → f r = false → In r rs'.
Proof.
  intros [[_ ->]|[_ ->]] Hr Hf; [|done]. apply List.filter_In. split; [done|]. by rewrite Hf.
Qed.

(** ** The helper implements the interface *)

Section Instances.
Context {W RS : Type} `{!RdbStore W RS}.

(** [uninit] is the value of an uninitialised [int32_t]. *)
#[export] Instance helper_records (uninit : Z) : RightRecords (UsbRightDbHelper W) := {
  rr_IsRecordExpired := IsRecordExpired uninit;
  rr_AddOrUpdateRightRecord := AddOrUpdateRightRecord;
  rr_DeleteRightRecord := DeleteRightRecord;
  rr_DeleteAppRightRecord := DeleteAppRightRecord;
  rr_DeleteAppsRightRecord := DeleteAppsRightRecord;
  rr_DeleteUidRightRecord := DeleteUidRightRecord;
  rr_DeleteNormalExpiredRightRecord := DeleteNormalExpiredRightRecord;
  rr_DeleteValidPeriodRightRecord := DeleteValidPeriodRightRecord;
  rr_QueryRightRecordApps := QueryRightRecordApps;
  rr_QueryRightRecordUids := QueryRightRecordUids;
  rr_QueryAppRightRecord := QueryAppRightRecord uninit;
}.

Context `{!RdbStoreLaws W RS right_clauses}.

Lemma delete_clause_deleted ts args f h ret h' : ts ∈ right_clauses → h_base h = None →
  (∀ r, where_holds ts args r = f r) →
  DeleteAndNoOtherOperation (where_text ts) args h = (ret, h') →
  h_base h' = None ∧ deleted f ret (h_view h) (h_view h').
Proof.
  intros Hts Hb Hf H. destruct (delete_clause_spec _ _ _ _ _ Hts Hb H) as [? [(? & _ & ->)|[? ->]]].
  - split; [done|]. left. split; [done|]. apply filter_ext_bool. intros r. by rewrite Hf.
  - split; [done|]. by right.
Qed.

Lemma column_query_spec ps cols c vals h ret vals' h' : h_base h = None →
  QueryAndGetResultColumnValues ps cols c vals h = ((ret, vals'), h') →
  h_view h' = h_view h ∧ h_base h' = None.
Proof.
  intros Hb H. helper_run H; chain; done.
Qed.

(** Solve a deletion law by the tests [ts] of its WHERE clause. *)
Ltac by_clause ts H :=
  refine (delete_clause_deleted ts _ _ _ _ _ _ _ _ H);
  [by apply (bool_decide_unpack _)|done|];
  intros r; cbn [ts where_holds]; autorewrite with usb_columns; by rewrite ?andb_true_r.

#[export] Instance helper_records_laws (uninit : Z) :
  @RightRecordsLaws (UsbRightDbHelper W) (helper_records uninit).
Proof.
  refine {| rows := h_view; idle h := h_base h = None; ready h := helper_ready h ∧ RdbReliable W RS |};
    cbn [helper_records rr_IsRecordExpired rr_AddOrUpdateRightRecord rr_DeleteRightRecord
      rr_DeleteAppRightRecord rr_DeleteAppsRightRecord rr_DeleteUidRightRecord
      rr_DeleteNormalExpiredRightRecord rr_DeleteValidPeriodRightRecord
      rr_QueryRightRecordApps rr_QueryRightRecordUids rr_QueryAppRightRecord].
  - intros u d b t now h e h' Hb H. pose proof (expired_sound _ _ _ _ _ _ _ _ _ H) as (? & ? & ?).
    split; [done|]. split; [auto|]. split; [done|]. intros [Hr Hrel].
    exact (expired_exact _ _ _ _ _ _ _ _ _ Hr H).
  - intros * Hb H. exact (upsert_spec _ _ _ _ _ _ _ Hb H).
  - intros * Hb H. refine (delete_clause_deleted clause_record _ _ _ _ _ _ _ _ H);
      [by apply (bool_decide_unpack _)|done|]. apply clause_record_holds.
  - intros * Hb H. unfold app_match. by_clause clause_uid_bundle H.
  - intros u bs h ret h' Hb H. destruct (delete_predicates_spec _ _ _ _ Hb H) as [? [[? ->]|[? ->]]].
    + split; [done|]. left. split; [done|]. apply filter_ext_bool. intros r. f_equal.
      cbn [predicates_match forallb call_match]. unfold apps_match.
      unfold predicates_match. cbn [forallb call_match]. autorewrite with usb_columns.
      rewrite andb_true_r. done.
    + split; [done|]. by right.
  - intros * Hb H. unfold uid_match. by_clause clause_uid H.
  - intros * Hb H. unfold normal_expired_match. by_clause clause_normal_expired H.
  - intros * Hb H. unfold period_match. by_clause clause_period_device H.
  - intros * Hb H. exact (column_query_spec _ _ _ _ _ _ _ _ Hb H).
  - intros * Hb H. exact (column_query_spec _ _ _ _ _ _ _ _ Hb H).
  - intros u b l h ret l' h' Hb H. apply query_spec_helper in H as (? & ? & Hl); [|done].
    split; [done|]. split; [auto|]. destruct Hl as [?|[-> _]]; [by left|right].
    do 2 f_equal. apply filter_ext_bool. intros r. unfold predicates_match, app_match.
    cbn [forallb call_match]. autorewrite with usb_columns. by rewrite andb_true_r.
Defined.
End Instances.
