(* ===== verification/UsbRightManager.v ===== *)
(** * The right manager (services/native/src/usb_right_manager.cpp)

    Granting, asking for and revoking the right to use a device, the dialog that
    asks the user, and the clean-up of records on account and package events.
    The records are reached through [RightRecords]; everything else the code
    calls (accounts, bundles, tokens, abilities, system parameters) is the
    class [RightPlatform]. *)
From S2P Require Import Prelude UsbErrors Platform UsbAccessory UsbRightDatabase UsbRightDbHelper RightRecords.

Definition USB_RIGHT_USERID_INVALID : Z := -1.
Definition USB_RIGHT_USERID_DEFAULT : Z := 100.
Definition USB_RIGHT_USERID_CONSOLE : Z := 0.
Definition MAX_RETRY_TIMES : nat := 30.
Definition RETRY_INTERVAL_SECONDS : Z := 1.
Definition USB_MANAGE_ACCESS_USB_DEVICE : string := "ohos.permission.MANAGE_USB_CONFIG".
Definition DEVELOPERMODE_STATE : string := "const.security.developermode.state".
Definition DEFAULT_SERIAL_BUNDLE_NAME : string := "com.example.serial".
Definition DEFAULT_SERIAL_DEVICE_NAME : string := "1-1".
Definition FUNCTION_HDC_BIT : Z := 4.

(** [UsbRightTightUpChoose]. *)
Definition TIGHT_UP_USB_RIGHT_RECORD_NONE : Z := 0.
Definition TIGHT_UP_USB_RIGHT_RECORD_APP_UNINSTALLED : Z := 1.
Definition TIGHT_UP_USB_RIGHT_RECORD_USER_DELETED : Z := 2.
Definition TIGHT_UP_USB_RIGHT_RECORD_EXPIRED : Z := 4.
Definition TIGHT_UP_USB_RIGHT_RECORD_APP_REINSTALLED : Z := 8.
Definition TIGHT_UP_USB_RIGHT_RECORD_ALL : Z :=
  Z.lor (Z.lor TIGHT_UP_USB_RIGHT_RECORD_APP_UNINSTALLED TIGHT_UP_USB_RIGHT_RECORD_USER_DELETED)
    (Z.lor TIGHT_UP_USB_RIGHT_RECORD_EXPIRED TIGHT_UP_USB_RIGHT_RECORD_APP_REINSTALLED).

Record SerialDeviceIdentity := { busDev : string; serial_deviceName : string }.

(** The common events the right manager subscribes to. *)
Inductive CommonEvent :=
  | COMMON_EVENT_PACKAGE_REMOVED
  | COMMON_EVENT_BUNDLE_REMOVED
  | COMMON_EVENT_PACKAGE_FULLY_REMOVED
  | COMMON_EVENT_UID_REMOVED
  | COMMON_EVENT_USER_REMOVED
  | COMMON_EVENT_USER_STOPPED
  | COMMON_EVENT_DATA_SHARE_READY
  | COMMON_EVENT_POWER_CONNECTED
  | COMMON_EVENT_POWER_DISCONNECTED
  | COMMON_EVENT_USER_SWITCHED.
#[global] Instance CommonEvent_eq_dec : EqDecision CommonEvent.
Proof. solve_decision. Defined.

(** The calls an event makes on the service. *)
Inductive ServiceCall :=
  | InitSettingsDataHdcStatus
  | SetPhyConnect (connected : bool)
  | UserChangeProcess.

(** ** What the platform provides *)

(** [E] is the platform's state; a failed lookup of a system service is a
    [false] of the corresponding test. *)
Class RightPlatform (E : Type) := {
  ERR_OK : Z;
  system_clock_seconds : state E Z;
  has_sam : E → bool;
  has_bms_ability : E → bool;
  casts_to_bundle_mgr : E → bool;
  has_bundle_resource_proxy : E → bool;
  GetBundleResourceLabel : string → state E (Z * string);
  GetApplicationInfo : string → Z → state E bool;
  GetBundleInfo : string → Z → state E (option (Z * Z));    (* installTime, updateTime *)
  GetHapTokenInfo : Z → state E (Z * (Z * string));         (* userID, bundleName *)
  GetOsAccountLocalIdFromUid : state E (Z * Z);
  OsAccountManager_IsOsAccountExists : Z → state E (Z * bool);
  IsSystemAppByFullTokenID : E → bool;
  IsNativeToken : E → bool;
  VerifyAccessTokenDenied : string → E → bool;
  GetParameter : string → string → E → Z * string;
  GetBoolParameter : string → bool → E → bool;
  has_ability_manager : E → bool;
  AbilityManager_ConnectAbility : string → string → Z → state E Z;
  AbilityManager_DisconnectAbility : state E Z;
  SendRequest : Z → list string → state E (Z * option Z);   (* error, reply code *)
  SubscribeCommonEvent : list CommonEvent → state E bool;
  sleep : Z → state E ();
  StrToInt : string → option Z;
  call_service : ServiceCall → state E ();
  GetDeviceProductName : string → E → option string;
}.

(** ** State *)

(** [UsbAbilityConn]: the connection's remote object, set or null. *)
Record UsbAbilityConn := { remoteObject_ : bool }.

Record UsbRightManager (H E : Type) := {
  helper_ : option H;                          (* UsbRightDbHelper::GetInstance() *)
  usbAbilityConn_ : option UsbAbilityConn;
  usbDialogParams_ : gmap string string;
  waitDialogDisappear_ : Z;                    (* the semaphore's value *)
  platform_ : E;
}.
Arguments helper_ {H E} _.
Arguments usbAbilityConn_ {H E} _.
Arguments usbDialogParams_ {H E} _.
Arguments waitDialogDisappear_ {H E} _.
Arguments platform_ {H E} _.
Arguments Build_UsbRightManager {H E} _ _ _ _ _.

Section Fields.
Context {H E : Type}.
Implicit Types m : UsbRightManager H E.
Definition set_helper (h : option H) m :=
  Build_UsbRightManager h (usbAbilityConn_ m) (usbDialogParams_ m) (waitDialogDisappear_ m) (platform_ m).
Definition set_conn (c : option UsbAbilityConn) m :=
  Build_UsbRightManager (helper_ m) c (usbDialogParams_ m) (waitDialogDisappear_ m) (platform_ m).
Definition set_params (p : gmap string string) m :=
  Build_UsbRightManager (helper_ m) (usbAbilityConn_ m) p (waitDialogDisappear_ m) (platform_ m).
Definition set_sem (n : Z) m :=
  Build_UsbRightManager (helper_ m) (usbAbilityConn_ m) (usbDialogParams_ m) n (platform_ m).
Definition set_platform (e : E) m :=
  Build_UsbRightManager (helper_ m) (usbAbilityConn_ m) (usbDialogParams_ m) (waitDialogDisappear_ m) e.
End Fields.

Section Manager.
Context {H E : Type} `{!RightRecords H, !RightPlatform E, !ErrCodeBase, !CJson}.
(** The maximum of [unsigned long], 2^64-1 or 2^32-1. *)
Context (ulong_max : Z).
(** What the other threads do while a caller waits for the dialog: the user
    answers, the dialog's process calls the service, the connection closes. *)
Context (others : state (UsbRightManager H E) ()).

Abbreviation M := (state (UsbRightManager H E)).

Definition on_platform {A} (f : state E A) : M A := zoom platform_ set_platform f.
Definition ask {A} (f : E → A) : M A := gets (λ m, f (platform_ m)).

(** [helper == nullptr] returns [dflt]; otherwise call it. *)
Definition with_helper {A} (dflt : A) (f : state H A) : M A := λ m,
  match helper_ m with
  | None => (dflt, m)
  | Some h => let '(a, h') := f h in (a, set_helper (Some h') m)
  end.

(** *** Platform queries *)

Definition GetCurrentTimestamp : M Z :=
  time ← on_platform system_clock_seconds; mret (to_u64 time).

(** Not null. *)
Definition GetBundleMgr : M bool :=
  sam ← ask has_sam;
  if negb sam then mret false else
  bms ← ask has_bms_ability;
  if negb bms then mret false else ask casts_to_bundle_mgr.

Definition GetBundleResMgr : M bool :=
  bundleMgr ← GetBundleMgr;
  if negb bundleMgr then mret false else ask has_bundle_resource_proxy.

Definition GetAppName (bundleName : string) : M (option string) :=
  resMgr ← GetBundleResMgr;
  if negb resMgr then mret None else
  '(ret, label) ← on_platform (GetBundleResourceLabel bundleName);
  if negb (ret =? ERR_OK) then mret None else mret (Some label).

Definition IsSystemAppOrSa : M bool :=
  isSystemApp ← ask IsSystemAppByFullTokenID;
  if (isSystemApp : bool) then mret true else
  native ← ask IsNativeToken;
  if (native : bool) then mret true else mret false.

Definition VerifyPermission : M bool :=
  denied ← ask (VerifyAccessTokenDenied USB_MANAGE_ACCESS_USB_DEVICE);
  if (denied : bool) then mret false else mret true.

Definition IsAppInstalled (uid : Z) (bundleName : string) : M bool :=
  bundleMgr ← GetBundleMgr;
  if negb bundleMgr then mret false else
  ok ← on_platform (GetApplicationInfo bundleName uid);
  if negb ok then mret false else mret true.

(** [None] leaves the caller's times as they are. *)
Definition GetBundleInstallAndUpdateTime (uid : Z) (bundleName : string) : M (option (Z * Z)) :=
  bundleMgr ← GetBundleMgr;
  if negb bundleMgr then mret None else
  info ← on_platform (GetBundleInfo bundleName uid);
  match info with
  | None => mret None
  | Some (inst, updt) => mret (Some (to_u64 inst, to_u64 updt))
  end.

Definition GetCurrentUserId : M Z :=
  '(ret, uid) ← on_platform GetOsAccountLocalIdFromUid;
  if negb (ret =? UEC_OK) then mret USB_RIGHT_USERID_DEFAULT else mret uid.

Definition IsOsAccountExists (id : Z) : M (Z * bool) :=
  '(ret, isAccountExists) ← on_platform (OsAccountManager_IsOsAccountExists id);
  if negb (ret =? UEC_OK) then mret (USB_RIGHT_FAILURE, isAccountExists)
  else mret (USB_RIGHT_OK, isAccountExists).

Definition HasSetFuncRight (functions : Z) : M Z :=
  if negb (has_flag (to_u32 functions) FUNCTION_HDC_BIT) then mret UEC_OK else
  '(_, paramValue) ← ask (GetParameter "persist.hdc.control" "true");
  if negb (bool_decide (paramValue = "true")) then mret (uec UEC_SERVICE_PERMISSION_CHECK_HDC) else
  developer ← ask (GetBoolParameter DEVELOPERMODE_STATE false);
  if negb developer then mret (uec UEC_SERVICE_PERMISSION_CHECK_HDC) else mret UEC_OK.

(** *** Rights *)

Definition HasRight (deviceName bundleName tokenId : string) (userId : Z) : M bool :=
  if userId =? USB_RIGHT_USERID_CONSOLE then mret true else
  nowTime ← GetCurrentTimestamp;
  with_helper false
    (expired ← rr_IsRecordExpired userId deviceName bundleName tokenId nowTime; mret (negb expired)).

Definition right_info (uid installTime updateTime requestTime : Z) : UsbRightAppInfo := {|
  primaryKeyId := 0; uid := uid; installTime := installTime; updateTime := updateTime;
  requestTime := requestTime; validPeriod := USB_RIGHT_VALID_PERIOD_SET |}.

(** [AddDeviceRight] with the caller's bundle, token and user. *)
Definition AddDeviceRight (deviceName bundleName tokenId : string) (userId : Z) : M bool :=
  if userId =? USB_RIGHT_USERID_CONSOLE then mret true else
  installTime ← GetCurrentTimestamp;
  updateTime ← GetCurrentTimestamp;
  times ← GetBundleInstallAndUpdateTime userId bundleName;
  let '(installTime, updateTime) := default (installTime, updateTime) times in
  requestTime ← GetCurrentTimestamp;
  let info := right_info userId installTime updateTime requestTime in
  with_helper false (
    ret ← rr_AddOrUpdateRightRecord userId deviceName bundleName tokenId info;
    if ret <? 0 then mret false else mret true).

Definition IsAllDigits (bundleName : string) : bool := all_digits bundleName.

Definition IsWithinUint64Range (numberStr : string) : bool :=
  if bool_decide (numberStr = "") then false
  else if strtoull_erange (c_str numberStr) then false else true.

(** [AddDeviceRight] for the token in [tokenIdStr]; the result is [None] when
    [std::stoul] throws. *)
Definition AddDeviceRightByToken (deviceName tokenIdStr : string) : M (option bool) :=
  if negb (IsAllDigits tokenIdStr) then mret (Some false) else
  if negb (IsWithinUint64Range tokenIdStr) then mret (Some false) else
  match std_stoul ulong_max tokenIdStr with
  | None => mret None
  | Some n =>
      '(ret, (uid, bundleName)) ← on_platform (GetHapTokenInfo (to_u32 n));
      if negb (ret =? UEC_OK) then mret (Some false) else
      if uid =? USB_RIGHT_USERID_CONSOLE then mret (Some true) else
      installTime ← GetCurrentTimestamp;
      updateTime ← GetCurrentTimestamp;
      times ← GetBundleInstallAndUpdateTime uid bundleName;
      let '(installTime, updateTime) := default (installTime, updateTime) times in
      requestTime ← GetCurrentTimestamp;
      let info := right_info uid installTime updateTime requestTime in
      with_helper (Some false) (
        ret ← rr_AddOrUpdateRightRecord uid deviceName bundleName tokenIdStr info;
        if ret <? 0 then mret (Some false) else mret (Some true))
  end.

Definition RemoveDeviceRight (deviceName bundleName tokenId : string) (userId : Z) : M bool :=
  if userId =? USB_RIGHT_USERID_CONSOLE then mret true else
  with_helper false (
    ret ← rr_DeleteRightRecord userId deviceName bundleName tokenId;
    if ret <? 0 then mret false else mret true).

Definition CancelDeviceRight (deviceName bundleName tokenId : string) (userId : Z) : M Z :=
  if userId =? USB_RIGHT_USERID_CONSOLE then mret (uec UEC_SERVICE_INVALID_VALUE) else
  with_helper (uec UEC_SERVICE_INNER_ERR) (
    ret ← rr_DeleteRightRecord userId deviceName bundleName tokenId;
    if ret <? 0 then mret UEC_OK else mret UEC_OK).

(** *** The dialog *)

Definition ConnectAbility (userId : Z) : M Z :=
  conn ← gets usbAbilityConn_;
  match conn with
  | None => modify (set_conn (Some {| remoteObject_ := false |}))
  | Some _ => mret ()
  end;;
  abmc ← ask has_ability_manager;
  if negb abmc then mret USB_RIGHT_FAILURE else
  ret ← on_platform (AbilityManager_ConnectAbility "com.ohos.sceneboard" "com.ohos.sceneboard.systemdialog" userId);
  if negb (ret =? ERR_OK) then
    ret ← on_platform (AbilityManager_ConnectAbility "com.ohos.systemui" "com.ohos.systemui.dialog" userId);
    if negb (ret =? ERR_OK) then modify (set_conn None);; mret ret else mret USB_RIGHT_OK
  else mret USB_RIGHT_OK.

(** [sem_init], the connection, [sem_wait]. *)
Definition wait_dialog (userId : Z) : M bool :=
  modify (set_sem 0);;
  ret ← ConnectAbility userId;
  if negb (ret =? UEC_OK) then mret false else
  others;;
  modify (λ m, set_sem (waitDialogDisappear_ m - 1) m);;
  mret true.

Definition GetProductName (devName : string) : M (option string) := ask (GetDeviceProductName devName).

Definition ShowUsbDialog (busDev deviceName bundleName tokenId : string) (userId : Z) : M bool :=
  name ← GetAppName bundleName;
  let appName := default bundleName name in
  name ← GetProductName busDev;
  let productName := default busDev name in
  modify (set_params (<["productName" := productName]> (<["appName" := appName]>
    (<["tokenId" := tokenId]> (<["deviceName" := busDev]> (<["bundleName" := bundleName]> ∅))))));;
  wait_dialog userId.

Definition GetAccessoryName (access : USBAccessory) : string := product_ access.

Definition ShowAccessoryDialog (access : USBAccessory) (seriaValue bundleName tokenId : string) : M bool :=
  name ← GetAppName bundleName;
  let appName := default bundleName name in
  let accessoryName := GetAccessoryName access in
  modify (set_params (<["accessory" := USBAccessory.GetJsonString access]>
    (<["productName" := accessoryName]> (<["appName" := appName]>
    (<["tokenId" := tokenId]> (<["deviceName" := seriaValue]> (<["bundleName" := bundleName]> ∅)))))));;
  wait_dialog USB_RIGHT_USERID_INVALID.

Definition ShowSerialDialog (portId tokenId : Z) (bundleName busDev : string) : M bool :=
  name ← GetAppName bundleName;
  let appName := default bundleName name in
  let castId := to_i32 tokenId in
  if castId <? 0 then mret false else
  modify (set_params (<["productName" := "COM" +:+ pretty portId]> (<["appName" := appName]>
    (<["deviceName" := DEFAULT_SERIAL_DEVICE_NAME]> (<["bundleName" := DEFAULT_SERIAL_BUNDLE_NAME]>
    (<["tokenId" := pretty castId]> (<["portId" := pretty portId]> ∅)))))));;
  wait_dialog USB_RIGHT_USERID_INVALID.

Definition GetUserAgreementByDiag (busDev deviceName bundleName tokenId : string) (userId : Z) : M bool :=
  shown ← ShowUsbDialog busDev deviceName bundleName tokenId userId;
  if negb shown then mret false else HasRight deviceName bundleName tokenId userId.

Definition GetUserAgreementAccessory (access : USBAccessory) (seriaValue bundleName tokenId : string)
  (userId : Z) : M bool :=
  shown ← ShowAccessoryDialog access seriaValue bundleName tokenId;
  if negb shown then mret false else HasRight seriaValue bundleName tokenId userId.

(** [None] when [std::stoul] throws. *)
Definition GetUserAgreementSerial (portId : Z) (identity : SerialDeviceIdentity)
  (bundleName tokenId : string) (userId : Z) : M (option bool) :=
  if negb (match_digits tokenId) then mret (Some false) else
  match std_stoul ulong_max tokenId with
  | None => mret None
  | Some n =>
      let mTokenId := to_u32 n in
      shown ← ShowSerialDialog portId mTokenId bundleName (busDev identity);
      if negb shown then mret (Some false) else
      r ← HasRight (serial_deviceName identity) bundleName tokenId userId; mret (Some r)
  end.

Definition RequestRight (busDev deviceName bundleName tokenId : string) (userId : Z) : M Z :=
  has ← HasRight deviceName bundleName tokenId userId;
  if (has : bool) then mret UEC_OK else
  agreed ← GetUserAgreementByDiag busDev deviceName bundleName tokenId userId;
  if negb agreed then mret (uec UEC_SERVICE_PERMISSION_DENIED) else mret UEC_OK.

(** The code and the [result] out-parameter. *)
Definition RequestAccessoryRight (access : USBAccessory) (seriaValue bundleName tokenId : string)
  (userId : Z) : M (Z * bool) :=
  has ← HasRight seriaValue bundleName tokenId userId;
  if (has : bool) then mret (UEC_OK, true) else
  agreed ← GetUserAgreementAccessory access seriaValue bundleName tokenId userId;
  if negb agreed then mret (UEC_OK, false) else mret (UEC_OK, true).

Definition RequestSerialRight (portId : Z) (identity : SerialDeviceIdentity)
  (bundleName tokenId : string) (userId : Z) : M (option Z) :=
  has ← HasRight (serial_deviceName identity) bundleName tokenId userId;
  if (has : bool) then mret (Some UEC_OK) else
  agreed ← GetUserAgreementSerial portId identity bundleName tokenId userId;
  match agreed with
  | None => mret None
  | Some b => mret (Some (if negb b then uec UEC_SERVICE_PERMISSION_DENIED else UEC_OK))
  end.

(** The callbacks of [UsbAbilityConn]. *)
Definition OnAbilityConnectDone (remoteObject : bool) : M () :=
  if negb remoteObject then mret () else
  params ← gets usbDialogParams_;
  let paramJson := JObject ((λ p, (c_str p.1, JString (c_str p.2))) <$>
    merge_sort (λ p q, String.le p.1 q.1) (map_to_list params) ++
    [("ability.want.params.uiExtensionType", "sysDialog/common")]) in
  match cJSON_PrintUnformatted paramJson with
  | None => mret ()
  | Some paramStr =>
      '(ret, reply) ← on_platform (SendRequest 1
        ["bundleName"; "com.usb.right"; "abilityName"; "UsbServiceExtAbility"; "parameters"; paramStr]);
      if negb (ret =? ERR_OK) then mret () else
      match reply with
      | Some r => if negb (r =? ERR_OK) then mret ()
                  else modify (set_conn (Some {| remoteObject_ := remoteObject |}))
      | None => mret ()
      end
  end.

Definition OnAbilityDisconnectDone : M () :=
  modify (λ m, set_sem (waitDialogDisappear_ m + 1) m);;
  modify (λ m, set_conn ((λ _, {| remoteObject_ := false |}) <$> usbAbilityConn_ m) m).

Definition CloseDialog (conn : UsbAbilityConn) : M () :=
  if negb (remoteObject_ conn) then mret () else _ ← on_platform (SendRequest 3 []); mret ().

Definition UnShowUsbDialog : M bool :=
  conn ← gets usbAbilityConn_;
  match conn with
  | None => mret true
  | Some c =>
      abmc ← ask has_ability_manager;
      if negb abmc then mret false else
      CloseDialog c;;
      ret ← on_platform AbilityManager_DisconnectAbility;
      if negb (ret =? UEC_OK) then mret false else mret true
  end.

(** *** Clean-up *)

(** A null helper makes the clean-up functions return [false] as their
    [int32_t] code. *)
Definition FALSE_CODE : Z := 0.
Definition TRUE_CODE : Z := 1.

(** [sort] then [unique] and [erase]. *)
Fixpoint unique (l : list string) : list string :=
  match l with
  | [] => []
  | x :: l => match unique l with
              | [] => [x]
              | y :: l' => if bool_decide (x = y) then y :: l' else x :: y :: l'
              end
  end.
Definition StringVectorSortAndUniq (strings : list string) : list string :=
  unique (merge_sort String.le strings).

(** The index of the first occurrence. *)
Fixpoint StringVectorFound_from (strings : list string) (value : string) (i : Z) : option Z :=
  match strings with
  | [] => None
  | s :: strings => if bool_decide (value = s) then Some i else StringVectorFound_from strings value (i + 1)
  end.
Definition StringVectorFound (strings : list string) (value : string) : option Z :=
  StringVectorFound_from strings value 0.

Definition CleanUpRightTemporaryExpired (deviceName : string) : M Z :=
  with_helper FALSE_CODE (rr_DeleteValidPeriodRightRecord USB_RIGHT_VALID_PERIOD_MIN deviceName).

(** No null check in this one: [None] is a null helper that is dereferenced. *)
Definition CleanUpRightNormalExpired (uid : Z) : M (option Z) :=
  nowTime ← GetCurrentTimestamp;
  h ← gets helper_;
  match h with
  | None => mret None
  | Some _ => ret ← with_helper USB_RIGHT_FAILURE (rr_DeleteNormalExpiredRightRecord uid nowTime); mret (Some ret)
  end.

(** [None] is the null pointer of [CleanUpRightNormalExpired], here and below. *)
Definition CleanUpRightExpired (devices : list string) : M (option Z) :=
  for_each (λ dev, _ ← CleanUpRightTemporaryExpired dev; mret ()) devices;;
  uid ← GetCurrentUserId;
  CleanUpRightNormalExpired uid.

(** Delete the records of every listed bundle that is not installed; the code
    of the last deletion and the count of the successful ones. *)
Fixpoint delete_uninstalled (uid : Z) (apps : list string) (ret deleteApps : Z) : M (Z * Z) :=
  match apps with
  | [] => mret (ret, deleteApps)
  | app :: apps =>
      installed ← IsAppInstalled uid app;
      if negb installed then
        ret ← with_helper FALSE_CODE (rr_DeleteAppRightRecord uid app);
        if negb (ret =? USB_RIGHT_OK) then delete_uninstalled uid apps ret deleteApps
        else delete_uninstalled uid apps ret (deleteApps + 1)
      else delete_uninstalled uid apps ret deleteApps
  end.

(** Returns the code, [totalApps] and [deleteApps]. *)
Definition CleanUpRightAppUninstalled (uid : Z) : M (Z * Z * Z) :=
  h ← gets helper_;
  match h with
  | None => mret (FALSE_CODE, 0, 0)
  | Some _ =>
      '(ret, apps) ← with_helper (FALSE_CODE, []) (rr_QueryRightRecordApps uid []);
      if ret <=? 0 then mret (USB_RIGHT_NOP, 0, 0) else
      '(ret, deleteApps) ← delete_uninstalled uid apps ret 0;
      mret (ret, to_i32 (Z.of_nat (length apps)), deleteApps)
  end.

(** The overload for one bundle, called on its removal. *)
Definition CleanUpRightOneAppUninstalled (uid : Z) (bundleName : string) : M Z :=
  with_helper FALSE_CODE (
    '(ret, apps) ← rr_QueryRightRecordApps uid [];
    if ret <=? 0 then mret USB_RIGHT_NOP else
    match StringVectorFound apps bundleName with
    | None => mret USB_RIGHT_NOP
    | Some index => rr_DeleteAppRightRecord uid (nth (Z.to_nat index) apps "")
    end).

(** The bundles with a record from another installation; [None] when a query
    fails on the way. *)
Fixpoint find_reinstalled (uid : Z) (apps : list string) (deleteBundleNames : list string)
  : M (option (list string)) :=
  match apps with
  | [] => mret (Some deleteBundleNames)
  | bundleName :: apps =>
      '(ret, infos) ← with_helper (USB_RIGHT_FAILURE, []) (rr_QueryAppRightRecord uid bundleName []);
      if ret <? 0 then mret None else
      times ← GetBundleInstallAndUpdateTime uid bundleName;
      match times with
      | None => mret None
      | Some (inst, _) =>
          if existsb (λ info, negb (installTime info =? inst)) infos
          then find_reinstalled uid apps (deleteBundleNames ++ [bundleName])
          else find_reinstalled uid apps deleteBundleNames
      end
  end.

(** Returns the code, [totalApps] and [deleteApps]. *)
Definition CleanUpRightAppReinstalled (uid : Z) : M (Z * Z * Z) :=
  h ← gets helper_;
  match h with
  | None => mret (FALSE_CODE, 0, 0)
  | Some _ =>
      '(ret, apps) ← with_helper (FALSE_CODE, []) (rr_QueryRightRecordApps uid []);
      if ret <=? 0 then mret (USB_RIGHT_NOP, 0, 0) else
      let apps := StringVectorSortAndUniq apps in
      let totalApps := to_u32 (Z.of_nat (length apps)) in
      found ← find_reinstalled uid apps [];
      match found with
      | None => mret (USB_RIGHT_FAILURE, totalApps, 0)
      | Some deleteBundleNames =>
          let deleteBundleNames := StringVectorSortAndUniq deleteBundleNames in
          ret ← with_helper FALSE_CODE (rr_DeleteAppsRightRecord uid deleteBundleNames);
          if negb (ret =? USB_RIGHT_OK) then mret (ret, totalApps, 0)
          else mret (ret, totalApps, to_u32 (Z.of_nat (length deleteBundleNames)))
      end
  end.

(** Delete the records of every listed user without an account. *)
Fixpoint delete_users (uids : list string) (deleteUsers : Z) : M Z :=
  match uids with
  | [] => mret deleteUsers
  | s :: uids =>
      match StrToInt s with
      | None => delete_users uids deleteUsers
      | Some uid =>
          '(ret, isAccountExists) ← IsOsAccountExists uid;
          if negb (ret =? USB_RIGHT_OK) then delete_users uids deleteUsers else
          if negb isAccountExists then
            _ ← with_helper FALSE_CODE (rr_DeleteUidRightRecord uid);
            delete_users uids (deleteUsers + 1)
          else delete_users uids deleteUsers
      end
  end.

(** Returns the code, [totalUsers] and [deleteUsers]. *)
Definition CleanUpRightUserDeleted : M (Z * Z * Z) :=
  h ← gets helper_;
  match h with
  | None => mret (FALSE_CODE, 0, 0)
  | Some _ =>
      '(ret, uids) ← with_helper (FALSE_CODE, []) (rr_QueryRightRecordUids []);
      if ret <=? 0 then mret (USB_RIGHT_NOP, 0, 0) else
      deleteUsers ← delete_users uids 0;
      mret (USB_RIGHT_OK, to_i32 (Z.of_nat (length uids)), deleteUsers)
  end.

Definition CleanUpRightUserStopped (uid : Z) : M Z :=
  with_helper FALSE_CODE (rr_DeleteUidRightRecord uid).

(** Run [f] when the choice has the flag, else keep the code. *)
Definition choose_step {A} (choose flag : Z) (f : M A) (ret : A) : M A :=
  if has_flag choose flag then f else mret ret.

Definition TidyUpRight (choose : Z) : M (option Z) :=
  if choose =? TIGHT_UP_USB_RIGHT_RECORD_NONE then mret (Some USB_RIGHT_NOP) else
  if negb (Z.lor choose TIGHT_UP_USB_RIGHT_RECORD_ALL =? TIGHT_UP_USB_RIGHT_RECORD_ALL)
  then mret (Some (uec UEC_SERVICE_INVALID_VALUE)) else
  uid ← GetCurrentUserId;
  if uid =? USB_RIGHT_USERID_CONSOLE then mret (Some TRUE_CODE) else
  ret ← choose_step choose TIGHT_UP_USB_RIGHT_RECORD_APP_UNINSTALLED
          ('(ret, _, _) ← CleanUpRightAppUninstalled uid; mret ret) 0;
  ret ← choose_step choose TIGHT_UP_USB_RIGHT_RECORD_USER_DELETED
          ('(ret, _, _) ← CleanUpRightUserDeleted; mret ret) ret;
  ret ← choose_step choose TIGHT_UP_USB_RIGHT_RECORD_EXPIRED
          (CleanUpRightNormalExpired uid) (Some ret);
  match (ret : option Z) with
  | None => mret None
  | Some ret =>
      choose_step choose TIGHT_UP_USB_RIGHT_RECORD_APP_REINSTALLED
        ('(ret, _, _) ← CleanUpRightAppReinstalled uid; mret (Some ret)) (Some ret)
  end.

Definition RemoveDeviceAllRight (deviceName : string) : M (option bool) :=
  _ ← CleanUpRightTemporaryExpired deviceName;
  ret ← TidyUpRight TIGHT_UP_USB_RIGHT_RECORD_ALL;
  match (ret : option Z) with
  | None => mret None
  | Some _ => _ ← UnShowUsbDialog; mret (Some true)
  end.

(** *** Events *)

(** [userId] and [bundleName] are the event's parameters, [code] its code. *)
Definition OnReceiveEvent (event : CommonEvent) (userId : option Z) (bundleName : string) (code : Z) : M () :=
  match event with
  | COMMON_EVENT_PACKAGE_REMOVED | COMMON_EVENT_BUNDLE_REMOVED | COMMON_EVENT_PACKAGE_FULLY_REMOVED =>
      _ ← CleanUpRightOneAppUninstalled (default USB_RIGHT_USERID_DEFAULT userId) bundleName; mret ()
  | COMMON_EVENT_UID_REMOVED | COMMON_EVENT_USER_REMOVED => _ ← CleanUpRightUserDeleted; mret ()
  | COMMON_EVENT_USER_STOPPED => _ ← CleanUpRightUserStopped code; mret ()
  | COMMON_EVENT_DATA_SHARE_READY => on_platform (call_service InitSettingsDataHdcStatus)
  | COMMON_EVENT_POWER_CONNECTED => on_platform (call_service (SetPhyConnect true))
  | COMMON_EVENT_POWER_DISCONNECTED => on_platform (call_service (SetPhyConnect false))
  | COMMON_EVENT_USER_SWITCHED => on_platform (call_service UserChangeProcess)
  end.

Definition subscribed_events : list CommonEvent :=
  [COMMON_EVENT_PACKAGE_REMOVED; COMMON_EVENT_BUNDLE_REMOVED; COMMON_EVENT_PACKAGE_FULLY_REMOVED;
   COMMON_EVENT_UID_REMOVED; COMMON_EVENT_USER_REMOVED; COMMON_EVENT_USER_STOPPED;
   COMMON_EVENT_DATA_SHARE_READY; COMMON_EVENT_POWER_CONNECTED; COMMON_EVENT_POWER_DISCONNECTED;
   COMMON_EVENT_USER_SWITCHED].

(** The subscription loop, with the retries left. *)
Fixpoint subscribe (n : nat) : M Z :=
  match n with
  | O => mret (uec UEC_SERVICE_INNER_ERR)
  | S n =>
      ok ← on_platform (SubscribeCommonEvent subscribed_events);
      if negb ok then on_platform (sleep RETRY_INTERVAL_SECONDS);; subscribe n else mret UEC_OK
  end.
Definition Init : M Z := subscribe MAX_RETRY_TIMES.
End Manager.
