(* ===== verification/UsbRightManagerProofs.v ===== *)
(** * Theorems of the right manager

    Against [RightRecordsLaws]: what a right check says, what granting and
    revoking do to later checks, and what the clean-ups may remove. *)
From S2P Require Import Prelude UsbErrors Platform UsbAccessory UsbRightDatabase UsbRightDbHelper RightRecords UsbRightManager.

(** ** The platform's answers during a clean-up

    One answer per query while the clean-up runs. *)
Class RightSnapshot (E : Type) `{!RightPlatform E} := {
  snap_seconds : Z;
  snap_user : Z * Z;
  snap_installed : string → Z → bool;
  snap_times : string → Z → option (Z * Z);
  snap_account : Z → Z * bool;
  snap_bundle_mgr (e : E) : has_sam e && has_bms_ability e && casts_to_bundle_mgr e = true;
  snap_clock_law (e : E) : (system_clock_seconds e).1 = snap_seconds;
  snap_user_law (e : E) : (GetOsAccountLocalIdFromUid e).1 = snap_user;
  snap_installed_law b u (e : E) : (GetApplicationInfo b u e).1 = snap_installed b u;
  snap_times_law b u (e : E) : (GetBundleInfo b u e).1 = snap_times b u;
  snap_account_law u (e : E) : (OsAccountManager_IsOsAccountExists u e).1 = snap_account u;
}.

Section Stale.
Context {E : Type} `{!RightPlatform E, !RightSnapshot E}.

(** A record no one can use any more: its bundle is not installed for its
    user, its user has no account, it has expired, or a record of its bundle
    is from another installation. *)
Definition stale (table : list Row) (r : Row) : Prop :=
  snap_installed (row_bundleName r) (row_uid r) = false ∨
  snap_account (row_uid r) = (UEC_OK, false) ∨
  normal_expired_match (row_uid r) (to_u64 snap_seconds) r = true ∨
  ∃ inst updt r', snap_times (row_bundleName r) (row_uid r) = Some (inst, updt) ∧ In r' table ∧
    row_uid r' = row_uid r ∧ row_bundleName r' = row_bundleName r ∧
    to_u64 (row_installTime r') ≠ to_u64 inst.
End Stale.

Section Proofs.
Context {H E : Type} `{!RightRecords H, !RightRecordsLaws H, !RightPlatform E, !ErrCodeBase, !CJson}.
Context (ulong_max : Z) (others : state (UsbRightManager H E) ()).
Implicit Types m : UsbRightManager H E.

Abbreviation M := (state (UsbRightManager H E)).

(** The records, and no transaction left open. *)
Definition rights m : list Row := match helper_ m with Some h => rows h | None => [] end.
Definition settled m : Prop := match helper_ m with Some h => idle h | None => True end.
(** The database answers, and the helper is there. *)
Definition answers m : Prop := match helper_ m with Some h => ready h | None => False end.

Lemma with_helper_run {A} (dflt a : A) f m m' : with_helper dflt f m = (a, m') →
  (helper_ m = None ∧ a = dflt ∧ m' = m) ∨
  (∃ h h', helper_ m = Some h ∧ f h = (a, h') ∧ m' = set_helper (Some h') m).
Proof.
  unfold with_helper. destruct (helper_ m) as [h|] eqn:Hm; [|intros [= <- <-]; by left].
  destruct (f h) as [b h'] eqn:E'. intros [= <- <-]. right. by exists h, h'.
Qed.

(** *** One operation *)

Lemma HasRight_run d b t u m r m' : settled m → HasRight d b t u m = (r, m') →
  settled m' ∧ rights m' = rights m ∧
  let now := to_u64 (system_clock_seconds (platform_ m)).1 in
  (r = true → u = USB_RIGHT_USERID_CONSOLE ∨ existsb (grants u d b t now) (rights m) = true) ∧
  (answers m → r = (u =? USB_RIGHT_USERID_CONSOLE) || existsb (grants u d b t now) (rights m)).
Proof.
  intros Hm. unfold HasRight, GetCurrentTimestamp, on_platform. destruct (u =? _) eqn:Hu.
  - intros [= <- <-]. zbool. auto.
  - run_unfold. destruct (system_clock_seconds (platform_ m)) as [now e] eqn:Hc.
    intros Hr. apply with_helper_run in Hr as [(Hh & -> & ->)|(h & h' & Hh & Hr & ->)];
      cbn [set_platform helper_] in Hh; unfold settled, rights, answers in *;
      cbn [set_helper set_platform helper_]; rewrite Hh in *; [done|].
    destruct (rr_IsRecordExpired _ _ _ _ _ h) as [x h1] eqn:HE. injection Hr as <- <-.
    apply rr_expired_law in HE as (-> & Hi & Hs & Hx); [|done].
    split; [done|]. split; [done|]. cbn [fst snd].
    split.
    + intros ->%negb_true_iff. right. by apply Hs.
    + intros Ha. rewrite (Hx Ha). by rewrite negb_involutive.
Qed.

Lemma Cancel_run d b t u m c m' : settled m → CancelDeviceRight d b t u m = (c, m') →
  settled m' ∧ (rights m' = rights m ∨
    u ≠ USB_RIGHT_USERID_CONSOLE ∧ rights m' = List.filter (λ r, negb (record_match u d b t r)) (rights m)).
Proof.
  intros Hm. unfold CancelDeviceRight. destruct (u =? _) eqn:Hu; [intros [= <- <-]; auto|].
  intros Hr. apply with_helper_run in Hr as [(Hh & -> & ->)|(h & h' & Hh & Hr & ->)];
    unfold settled, rights in *; cbn [set_helper helper_]; rewrite Hh in *; [auto|].
  run_unfold. destruct (rr_DeleteRightRecord u d b t h) as [ret h1] eqn:HE.
  apply rr_delete_law in HE as (? & [[_ Hrs]|[_ Hrs]]); [| |done]; zbool;
    destruct (ret <? 0); injection Hr as <- <-; auto.
Qed.

Lemma Remove_run d b t u m ok m' : settled m → RemoveDeviceRight d b t u m = (ok, m') →
  settled m' ∧
  (ok = false ∧ rights m' = rights m ∨
   ok = true ∧ (u = USB_RIGHT_USERID_CONSOLE ∧ rights m' = rights m ∨
     rights m' = List.filter (λ r, negb (record_match u d b t r)) (rights m))).
Proof.
  intros Hm. unfold RemoveDeviceRight. destruct (u =? _) eqn:Hu; [intros [= <- <-]; zbool; auto 6|].
  intros Hr. apply with_helper_run in Hr as [(Hh & -> & ->)|(h & h' & Hh & Hr & ->)];
    unfold settled, rights in *; cbn [set_helper helper_]; rewrite Hh in *; [auto|].
  run_unfold. destruct (rr_DeleteRightRecord u d b t h) as [ret h1] eqn:HE.
  apply rr_delete_law in HE as (? & [[-> Hrs]|[Hn Hrs]]); [| |done].
  - injection Hr as <- <-. auto.
  - apply Z.ltb_lt in Hn. rewrite Hn in Hr. injection Hr as <- <-. auto.
Qed.

(** No row is left that grants a deleted record. *)
Lemma grants_deleted u d b t now rs :
  existsb (grants u d b t now) (List.filter (λ r, negb (record_match u d b t r)) rs) = false.
Proof.
  induction rs as [|r rs IH]; [done|]. simpl. destruct (record_match u d b t r) eqn:Er; simpl; [done|].
  unfold grants at 1. by rewrite Er.
Qed.

(** Rows of other keys keep granting. *)
Lemma grants_others u d b t u' d' b' t' now rs : (u', d', b', t') ≠ (u, d, b, t) →
  existsb (grants u' d' b' t' now) (List.filter (λ r, negb (record_match u d b t r)) rs) =
  existsb (grants u' d' b' t' now) rs.
Proof.
  intros Hne. induction rs as [|r rs IH]; [done|]. simpl. destruct (record_match u d b t r) eqn:Er; simpl; [|by rewrite IH].
  rewrite IH. unfold grants at 2. replace (record_match u' d' b' t' r) with false; [done|].
  symmetry. apply bool_decide_eq_false. intros (? & ? & ? & ?).
  apply bool_decide_eq_true in Er as (? & ? & ? & ?). congruence.
Qed.

(** The row an upsert writes reads back as the information it was given. *)
Lemma upsert_row_info d b t info r : in_i32 (uid info) → in_u64 (installTime info) →
  in_u64 (updateTime info) → in_u64 (requestTime info) → in_u64 (validPeriod info) →
  row_info (bucket_update (right_bucket d b t info) r) =
    {| primaryKeyId := to_u32 (to_i32 (row_id r)); uid := uid info; installTime := installTime info;
       updateTime := updateTime info; requestTime := requestTime info; validPeriod := validPeriod info |}
  ∧ record_match (uid info) d b t (bucket_update (right_bucket d b t info) r) = true.
Proof.
  intros. split; [|by apply bool_decide_eq_true].
  assert (bucket_update (right_bucket d b t info) r = {| row_id := row_id r; row_uid := uid info;
    row_installTime := to_i64 (installTime info); row_updateTime := to_i64 (updateTime info);
    row_requestTime := to_i64 (requestTime info); row_validPeriod := to_i64 (validPeriod info);
    row_deviceName := d; row_bundleName := b; row_tokenId := t |}) as -> by reflexivity.
  unfold row_info. cbn [row_id row_uid row_installTime row_updateTime row_requestTime row_validPeriod].
  by rewrite !to_u64_to_i64, (to_i32_id (uid info)).
Qed.

(** After an upsert some row of the key holds the information. *)
Lemma upsert_has_row id d b t info rs : in_i32 (uid info) → in_u64 (installTime info) →
  in_u64 (updateTime info) → in_u64 (requestTime info) → in_u64 (validPeriod info) →
  ∃ r, In r (upsert id d b t info rs) ∧ record_match (uid info) d b t r = true ∧
    requestTime (row_info r) = requestTime info ∧ validPeriod (row_info r) = validPeriod info.
Proof.
  intros Hu Hi Hp Hr Hv. unfold upsert. destruct (existsb _ rs) eqn:Hx.
  - apply existsb_exists in Hx as (r & Hin & Hmatch).
    exists (bucket_update (right_bucket d b t info) r).
    destruct (upsert_row_info d b t info r) as [-> ->]; try done. cbn [requestTime validPeriod].
    split; [|done]. apply in_map_iff. exists r. by rewrite Hmatch.
  - exists (bucket_row id (right_bucket d b t info)). unfold bucket_row.
    destruct (upsert_row_info d b t info (empty_row id)) as [-> ->]; try done.
    split; [|done]. apply in_or_app. right. by left.
Qed.

(** *** Granting *)

Lemma in_u64_to_u64 z : in_u64 (to_u64 z).
Proof. apply to_u64_range. Qed.

(** What [AddDeviceRight] does to the records: a failure leaves them, a success
    upserts a record requested at a time the clock showed. *)
Definition added (d b t : string) (u : Z) (rs rs' : list Row) : Prop :=
  ∃ inst updt e id, in_u64 inst ∧ in_u64 updt ∧
    rs' = upsert id d b t (right_info u inst updt (to_u64 (system_clock_seconds (E := E) e).1)) rs.

Lemma add_tail d b t u inst updt e m r m' : settled m → in_u64 inst → in_u64 updt →
  with_helper false (
    ret ← rr_AddOrUpdateRightRecord u d b t
            (right_info u inst updt (to_u64 (system_clock_seconds (E := E) e).1));
    if ret <? 0 then mret false else mret true) m = (r, m') →
  settled m' ∧ (r = false ∧ rights m' = rights m ∨ r = true ∧ added d b t u (rights m) (rights m')).
Proof.
  intros Hm Hi Hu Hr.
  apply with_helper_run in Hr as [(Hh & -> & ->)|(h & h' & Hh & Hr & ->)];
    unfold settled, rights in *; cbn [set_helper helper_]; rewrite Hh in *; [auto|].
  set (info := right_info _ _ _ _) in *. run_unfold.
  destruct (rr_AddOrUpdateRightRecord u d b t info h) as [ret h1] eqn:HA.
  apply (rr_upsert_law d b t info) in HA as (? & [[Hn ?]|(Hn & id & _ & ?)]); [| |done].
  - apply Z.ltb_lt in Hn. rewrite Hn in Hr. injection Hr as <- <-. auto.
  - apply Z.ltb_ge in Hn. rewrite Hn in Hr. injection Hr as <- <-.
    split; [done|]. right. split; [done|]. exists inst, updt, e, id. auto.
Qed.

Lemma clock_run (k : Z → M bool) m :
  (GetCurrentTimestamp ≫= k) m =
    k (to_u64 (system_clock_seconds (platform_ m)).1) (set_platform (system_clock_seconds (platform_ m)).2 m).
Proof.
  unfold GetCurrentTimestamp, on_platform. run_unfold.
  by destruct (system_clock_seconds (platform_ m)).
Qed.

Lemma times_run u b m o m' : GetBundleInstallAndUpdateTime u b m = (o, m') →
  helper_ m' = helper_ m ∧ (∀ p, o = Some p → in_u64 p.1 ∧ in_u64 p.2).
Proof.
  unfold GetBundleInstallAndUpdateTime, GetBundleMgr, on_platform, ask. run; intros; simplify_eq; (split; [done|]);
    intros p [= <-]; split; apply to_u64_range.
Qed.

Lemma Add_run d b t u m r m' : settled m → u ≠ USB_RIGHT_USERID_CONSOLE →
  AddDeviceRight d b t u m = (r, m') →
  settled m' ∧ (r = false ∧ rights m' = rights m ∨ r = true ∧ added d b t u (rights m) (rights m')).
Proof.
  intros Hm Hu. unfold AddDeviceRight. apply Z.eqb_neq in Hu. rewrite Hu.
  rewrite !clock_run. cbv beta. rewrite bind_run.
  destruct (GetBundleInstallAndUpdateTime u b _) as [o m1] eqn:Ht. apply times_run in Ht as [Hh Ho].
  cbn [fst snd set_platform helper_] in *.
  destruct (default _ o) as [inst updt] eqn:Hd. rewrite clock_run. cbv beta zeta.
  set (m2 := set_platform _ m1). intros Hr.
  assert (rights m2 = rights m ∧ settled m2) as [Hr2 Hs2].
  { unfold m2, rights, settled. cbn [set_platform helper_]. rewrite Hh. done. }
  rewrite <- Hr2. apply add_tail in Hr; [done|done| |];
    (destruct o as [[??]|]; simpl in Hd; injection Hd as <- <-;
      [destruct (Ho _ eq_refl); done|apply to_u64_range]).
Qed.

(** The added record grants for its validity period. *)
Lemma added_grants d b t u rs rs' : in_i32 u → added d b t u rs rs' →
  ∃ e, let request := to_u64 (system_clock_seconds (E := E) e).1 in
    ∀ now, request <= now < request + USB_RIGHT_VALID_PERIOD_SET → now < 2 ^ 64 →
      existsb (grants u d b t now) rs' = true.
Proof.
  intros Hu (inst & updt & e & id & Hi & Hp & ->). exists e. cbv zeta.
  set (request := to_u64 _). assert (in_u64 request) as Hreq by apply to_u64_range.
  intros now Hnow Hmax. apply existsb_exists.
  destruct (upsert_has_row id d b t (right_info u inst updt request) rs) as (r & Hin & Hma & Hrq & Hv); try done.
  exists r. split; [done|]. unfold grants. cbn [right_info uid requestTime validPeriod] in *. rewrite Hma. cbn.
  unfold IsInfoExpired. rewrite Hrq, Hv.
  replace (now <? request) with false by (symmetry; apply Z.ltb_ge; lia). cbn.
  rewrite to_u64_id by (unfold in_u64 in *; lia).
  unfold USB_RIGHT_VALID_PERIOD_SET in *. by replace (now - request <? 268435455) with true by (symmetry; apply Z.ltb_lt; lia).
Qed.

(** *** The dialog *)

Section Dialog.
Context (Hothers : triple settled others (λ _, settled)).

Lemma settled_platform {A} (f : state E A) : triple settled (on_platform f) (λ _, settled).
Proof. intros m Hm. unfold on_platform, zoom. destruct (f (platform_ m)). exact Hm. Qed.

(** Every step keeps [settled]. *)
Ltac settle :=
  repeat first
    [ apply triple_if; intros _
    | apply triple_ret; intros ??; assumption
    | apply settled_platform
    | exact Hothers
    | match goal with
      | |- triple _ (ask _) _ => intros m Hm; exact Hm
      | |- triple _ (gets _) _ => intros m Hm; exact Hm
      | |- triple _ (modify _) _ => intros m Hm; exact Hm
      | |- triple _ (mbind _ _) _ => apply (triple_bind _ (λ _, settled)); [|intros ?]
      | |- triple _ (match ?o with Some _ => _ | None => _ end) _ => destruct o
      | |- triple _ (let '(_, _) := ?p in _) _ => destruct p
      end ].

Lemma settled_app_name b : triple settled (GetAppName b) (λ _, settled).
Proof. unfold GetAppName, GetBundleResMgr, GetBundleMgr. settle. Qed.
Lemma settled_wait u : triple settled (wait_dialog others u) (λ _, settled).
Proof. unfold wait_dialog, ConnectAbility. settle. Qed.
Lemma settled_usb_dialog bd d b t u : triple settled (ShowUsbDialog others bd d b t u) (λ _, settled).
Proof.
  unfold ShowUsbDialog, GetProductName. apply (triple_bind _ (λ _, settled)); [apply settled_app_name|].
  intros name. cbv zeta. apply (triple_bind _ (λ _, settled)); [intros m Hm; exact Hm|]. intros pname. cbv zeta.
  apply (triple_bind _ (λ _, settled)); [intros m Hm; exact Hm|]. intros _. apply settled_wait.
Qed.

(** A yes of the dialog is a yes of the check that follows it. *)
Lemma agreement_run bd d b t u m r m' : settled m →
  GetUserAgreementByDiag others bd d b t u m = (r, m') →
  settled m' ∧ (r = true → u = USB_RIGHT_USERID_CONSOLE ∨
    ∃ e, existsb (grants u d b t (to_u64 (system_clock_seconds (E := E) e).1)) (rights m') = true).
Proof.
  intros Hm. unfold GetUserAgreementByDiag. rewrite bind_run.
  pose proof (settled_usb_dialog bd d b t u m Hm) as Hs.
  destruct (ShowUsbDialog others bd d b t u m) as [shown m1]. cbn [fst snd] in *.
  destruct shown; cbn [negb]; [|by intros [= <- <-]].
  intros Hr. apply HasRight_run in Hr as (? & Hrs & Hx & _); [|done]. split; [done|].
  intros Ht. rewrite Hrs. destruct (Hx Ht); eauto.
Qed.
End Dialog.

(** *** The clean-ups *)

Section Prune.
(** The rows a clean-up may remove, and the table it starts from. *)
Context (P : Row → Prop) (table : list Row).

(** The invariant of a clean-up: nothing is added, and what is gone is in [P]. *)
Definition pruned m : Prop :=
  settled m ∧ (∀ r, In r (rights m) → In r table) ∧ (∀ r, In r table → In r (rights m) ∨ P r).

Lemma pruned_helper {A} (dflt : A) (f : state H A) (Q : A → Prop) :
  Q dflt →
  (∀ h a h', idle h → (∀ r, In r (rows h) → In r table) → f h = (a, h') → idle h' ∧ Q a ∧
     (∀ r, In r (rows h') → In r (rows h)) ∧ (∀ r, In r (rows h) → In r (rows h') ∨ P r)) →
  triple pruned (with_helper dflt f) (λ a m, Q a ∧ pruned m).
Proof.
  intros HQ Hf m (Hs & Hin & Hout). destruct (with_helper dflt f m) as [a m'] eqn:Hr. simpl.
  apply with_helper_run in Hr as [(Hh & -> & ->)|(h & h' & Hh & Hr & ->)]; [done|].
  unfold pruned, settled, rights in *. cbn [set_helper helper_]. rewrite Hh in *.
  apply Hf in Hr as (Hi & Ha & K1 & K2); [|done|done]. split; [done|]. split; [done|].
  split; [by intros r ?%K1%Hin|]. intros r [[Hr|Hr]%K2|Hr]%Hout; auto.
Qed.

Lemma pruned_delete dflt (f : state H Z) (g : Row → bool) :
  (∀ r, g r = true → P r) →
  (∀ h ret h', idle h → f h = (ret, h') → idle h' ∧ deleted g ret (rows h) (rows h')) →
  triple pruned (with_helper dflt f) (λ _, pruned).
Proof.
  intros Hg Hf. eapply triple_conseq; [apply (pruned_helper dflt f (λ _, True))| |]; [done| |done|by intros ?? []].
  intros h a h' Hi _ Hr. apply Hf in Hr as [? Hd]; [|done]. split; [done|]. split; [done|].
  split; [intros r; by apply (deleted_incl _ _ _ _ _ Hd)|].
  intros r Hr. destruct (g r) eqn:Eg; [right; auto|left; by apply (deleted_keeps _ _ _ _ _ Hd)].
Qed.

Lemma pruned_platform {A} (f : state E A) (Q : A → Prop) :
  (∀ e, Q (f e).1) → triple pruned (on_platform f) (λ a m, Q a ∧ pruned m).
Proof.
  intros HQ m Hm. unfold on_platform, zoom. specialize (HQ (platform_ m)).
  destruct (f (platform_ m)) as [a e]. done.
Qed.
Lemma pruned_ask {A} (f : E → A) (Q : A → Prop) :
  (∀ e, Q (f e)) → triple pruned (ask f) (λ a m, Q a ∧ pruned m).
Proof. intros HQ m Hm. split; [apply HQ|exact Hm]. Qed.
Lemma pruned_gets {A} (f : UsbRightManager H E → A) : triple pruned (gets f) (λ _, pruned).
Proof. intros m Hm; exact Hm. Qed.
End Prune.

Section Snapshot.
Context `{!RightSnapshot E}.
Context (table : list Row).

Abbreviation I := (pruned (stale table) table).

Lemma clock_snap : triple I GetCurrentTimestamp (λ t m, t = to_u64 snap_seconds ∧ I m).
Proof.
  apply (triple_bind _ (λ t m, t = snap_seconds ∧ I m)); [apply pruned_platform, snap_clock_law|].
  intros t. by apply triple_ret; intros m [-> ?].
Qed.

Lemma bundle_mgr_snap : triple I GetBundleMgr (λ b m, b = true ∧ I m).
Proof.
  unfold GetBundleMgr. intros m Hm.
  pose proof (snap_bundle_mgr (platform_ m)) as Hb.
  apply andb_true_iff in Hb as [[K1 K2]%andb_true_iff K3].
  rewrite bind_run. unfold ask, gets. cbn [fst snd]. rewrite K1. cbn [negb].
  rewrite bind_run. cbn [fst snd]. rewrite K2. cbn [negb]. by rewrite K3.
Qed.

Lemma installed_snap u b : triple I (IsAppInstalled u b) (λ i m, i = snap_installed b u ∧ I m).
Proof.
  apply (triple_bind _ _ _ _ _ bundle_mgr_snap). intros x. apply triple_pure. intros ->. cbn [negb].
  eapply triple_bind; [apply (pruned_platform _ _ _ (λ i, i = snap_installed b u)), snap_installed_law|].
  intros [] m [<- Hm]; done.
Qed.

Lemma times_snap u b : triple I (GetBundleInstallAndUpdateTime u b) (λ t m,
  t = (λ p, (to_u64 p.1, to_u64 p.2)) <$> snap_times b u ∧ I m).
Proof.
  apply (triple_bind _ _ _ _ _ bundle_mgr_snap). intros x m [-> Hm]. cbn [negb]. rewrite bind_run.
  pose proof (pruned_platform (stale table) table (GetBundleInfo b u) (λ i, i = snap_times b u)
    (snap_times_law b u) m Hm) as [Ht Hm'].
  rewrite Ht. destruct (snap_times b u) as [[? ?]|]; done.
Qed.

Lemma account_snap u : triple I (IsOsAccountExists u) (λ p m,
  (p = (USB_RIGHT_OK, false) → snap_account u = (UEC_OK, false)) ∧ I m).
Proof.
  eapply triple_bind; [apply (pruned_platform _ _ _ (λ i, i = snap_account u)), snap_account_law|].
  intros [c x] m [Hc Hm]. destruct (negb (c =? UEC_OK)) eqn:Ec; (split; [|done]); [by intros [=]|].
  intros [= ->]. zbool. by rewrite <- Hc, Ec.
Qed.

(** *** Each clean-up keeps the invariant *)

Lemma stale_expired u r : normal_expired_match u (to_u64 snap_seconds) r = true → stale table r.
Proof.
  intros Hr. right; right; left. pose proof Hr as Hr'. unfold normal_expired_match in Hr.
  apply andb_true_iff in Hr as [Hu%bool_decide_eq_true _]. by rewrite Hu.
Qed.

Lemma keeps_normal_expired u : triple I (CleanUpRightNormalExpired u) (λ _, I).
Proof.
  eapply triple_bind; [apply clock_snap|]. intros now. apply triple_pure. intros ->.
  eapply (triple_bind _ (λ _, I)); [intros m Hm; exact Hm|]. intros [h|]; [|by apply triple_ret].
  eapply (triple_bind _ (λ _, I)); [|intros ret; by apply triple_ret].
  apply (pruned_delete _ _ _ _ (normal_expired_match u (to_u64 snap_seconds))); [|apply rr_delete_normal_law].
  apply stale_expired.
Qed.

Lemma keeps_delete_uninstalled u apps ret n : triple I (delete_uninstalled u apps ret n) (λ _, I).
Proof.
  revert ret n. induction apps as [|app apps IH]; intros ret n; [by apply triple_ret|].
  cbn [delete_uninstalled]. eapply triple_bind; [apply installed_snap|]. intros inst. apply triple_pure. intros ->.
  destruct (snap_installed app u) eqn:Hi; cbn [negb]; [apply IH|].
  eapply triple_bind.
  - apply (pruned_delete _ _ _ _ (app_match u app)); [|apply rr_delete_app_law].
    intros r [Hu%bool_decide_eq_true Hb%bool_decide_eq_true]%andb_true_iff. left. by rewrite Hu, Hb.
  - intros c. destruct (negb _); apply IH.
Qed.

(** A query leaves the table alone. *)
Lemma keeps_query {A} (dflt : Z * A) (f : state H (Z * A)) :
  (∀ h ret l h', idle h → f h = ((ret, l), h') → rows h' = rows h ∧ idle h') →
  triple I (with_helper dflt f) (λ _, I).
Proof.
  intros Hf. eapply triple_conseq; [apply (pruned_helper (stale table) table dflt f (λ _, True))| |]; [done| |done|by intros ?? []].
  intros h [ret l] h' Hi _ Hr. apply Hf in Hr as [-> ?]; auto.
Qed.

Lemma keeps_uninstalled u : triple I (CleanUpRightAppUninstalled u) (λ _, I).
Proof.
  eapply triple_bind; [apply pruned_gets|]. intros [h|]; [|by apply triple_ret].
  eapply triple_bind; [apply keeps_query, rr_query_apps_law|]. intros [ret apps].
  apply triple_if; intros _; [by apply triple_ret|].
  eapply triple_bind; [apply keeps_delete_uninstalled|]. intros [? ?]. by apply triple_ret.
Qed.

Lemma keeps_uid_delete u dflt : snap_account u = (UEC_OK, false) →
  triple I (with_helper dflt (rr_DeleteUidRightRecord u)) (λ _, I).
Proof.
  intros Ha. apply (pruned_delete _ _ _ _ (uid_match u)); [|apply rr_delete_uid_law].
  intros r Hu%bool_decide_eq_true. right; left. by rewrite Hu.
Qed.

Lemma keeps_delete_users uids n : triple I (delete_users uids n) (λ _, I).
Proof.
  revert n. induction uids as [|s uids IH]; intros n; [by apply triple_ret|]. cbn [delete_users].
  destruct (StrToInt s) as [u|]; [|apply IH].
  eapply triple_bind; [apply account_snap|]. intros [c ex]. apply triple_pure. intros Ha.
  destruct (negb (c =? USB_RIGHT_OK)) eqn:Ec; [apply IH|]. zbool. subst c.
  destruct ex; cbn [negb]; [apply IH|].
  eapply triple_bind; [apply keeps_uid_delete; by apply Ha|]. intros ?. apply IH.
Qed.

Lemma keeps_user_deleted : triple I CleanUpRightUserDeleted (λ _, I).
Proof.
  eapply triple_bind; [apply pruned_gets|]. intros [h|]; [|by apply triple_ret].
  eapply triple_bind; [apply keeps_query, rr_query_uids_law|]. intros [ret uids].
  apply triple_if; intros _; [by apply triple_ret|].
  eapply triple_bind; [apply keeps_delete_users|]. intros ?. by apply triple_ret.
Qed.

(** A bundle with a row from another installation. *)
Definition reinstalled (u : Z) (b : string) : Prop :=
  ∃ inst updt r', snap_times b u = Some (inst, updt) ∧ In r' table ∧
    row_uid r' = u ∧ row_bundleName r' = b ∧ to_u64 (row_installTime r') ≠ to_u64 inst.

Lemma keeps_query_app u b : triple I (with_helper (USB_RIGHT_FAILURE, []) (rr_QueryAppRightRecord u b []))
  (λ p m, (p.1 < 0 ∨ ∀ info, In info p.2 → ∃ r, In r table ∧ app_match u b r = true ∧ info = row_info r) ∧ I m).
Proof.
  apply (pruned_helper _ _ _ _ (λ p, p.1 < 0 ∨ ∀ info, In info p.2 →
    ∃ r, In r table ∧ app_match u b r = true ∧ info = row_info r)); [by left|].
  intros h [ret l] h' Hi Hin Hr. apply rr_query_app_law in Hr as (Hrows & ? & Hl); [|done].
  split; [done|]. rewrite Hrows. split; [|auto]. cbn [fst snd].
  destruct Hl as [[? _]|Hl]; [by left|]. right. intros info Hinfo. subst l.
  cbn [app] in Hinfo. apply in_map_iff in Hinfo as (r & <- & [Hr Hm]%List.filter_In). eauto.
Qed.

Lemma keeps_find_reinstalled u apps acc : (∀ b, In b acc → reinstalled u b) →
  triple I (find_reinstalled u apps acc)
    (λ o m, (∀ l b, o = Some l → In b l → reinstalled u b) ∧ I m).
Proof.
  revert acc. induction apps as [|b apps IH]; intros acc Hacc.
  { apply triple_ret. intros m Hm. split; [|done]. intros l b [= <-]. apply Hacc. }
  cbn [find_reinstalled]. eapply triple_bind; [apply keeps_query_app|].
  intros [ret infos]. apply triple_pure. intros Hinf. cbn [fst snd] in Hinf.
  destruct (ret <? 0) eqn:Er; [by apply triple_ret|]. zbool. destruct Hinf as [?|Hinf]; [lia|].
  eapply triple_bind; [apply times_snap|]. intros t. apply triple_pure. intros Ht.
  destruct (snap_times b u) as [[inst updt]|] eqn:Hs; cbn in Ht; subst t; [|by apply triple_ret].
  destruct (existsb _ infos) eqn:Hx; [|by apply IH].
  apply IH. intros b' [?|[<-|[]]]%in_app_or; [by apply Hacc|].
  apply existsb_exists in Hx as (info & Hi & Hne). destruct (Hinf _ Hi) as (r & Hr & Hma & ->).
  apply andb_true_iff in Hma as [Hu%bool_decide_eq_true Hb%bool_decide_eq_true].
  zbool. by exists inst, updt, r.
Qed.

(** Sorting and merging keeps the members. *)
Lemma unique_In l x : In x (unique l) ↔ In x l.
Proof.
  induction l as [|y l IH]; [done|]. cbn [unique]. destruct (unique l) as [|z l'].
  - simpl. simpl in IH. tauto.
  - case_bool_decide; simpl in *; [subst|]; tauto.
Qed.
Lemma sort_uniq_In l x : In x (StringVectorSortAndUniq l) ↔ In x l.
Proof.
  unfold StringVectorSortAndUniq. rewrite unique_In, <- !list_elem_of_In.
  apply elem_of_Permutation_proper, merge_sort_Permutation.
Qed.

Lemma keeps_app_reinstalled u : triple I (CleanUpRightAppReinstalled u) (λ _, I).
Proof.
  eapply triple_bind; [apply pruned_gets|]. intros [h|]; [|by apply triple_ret].
  eapply triple_bind; [apply keeps_query, rr_query_apps_law|]. intros [ret apps].
  apply triple_if; intros _; [by apply triple_ret|].
  eapply triple_bind; [apply (keeps_find_reinstalled _ _ []); by intros ? []|].
  intros [bs|]; apply triple_pure; intros Hb; [|by apply triple_ret]. cbv zeta.
  eapply triple_bind.
  - apply (pruned_delete _ _ _ _ (apps_match u (StringVectorSortAndUniq bs))); [|apply rr_delete_apps_law].
    intros r [Hu%bool_decide_eq_true Hx]%andb_true_iff.
    apply existsb_exists in Hx as (b & Hin & Hrb%bool_decide_eq_true).
    apply sort_uniq_In, (Hb _ _ eq_refl) in Hin as (inst & updt & r' & ?). right; right; right.
    exists inst, updt, r'. subst b u. tauto.
  - intros c. apply triple_if; intros _; by apply triple_ret.
Qed.

Lemma keeps_choose {A} choose flag (f : state _ A) ret : triple I f (λ _, I) →
  triple I (choose_step choose flag f ret) (λ _, I).
Proof. intros Hf. apply triple_if; intros _; [done|by apply triple_ret]. Qed.

Lemma keeps_tidy choose : triple I (TidyUpRight choose) (λ _, I).
Proof.
  unfold TidyUpRight. apply triple_if; intros _; [by apply triple_ret|].
  apply triple_if; intros _; [by apply triple_ret|].
  apply (triple_bind _ (λ _, I)).
  { eapply triple_bind; [apply (pruned_platform _ _ _ (λ _, True)); done|].
    intros [c u]. apply triple_pure. intros _. apply triple_if; intros _; by apply triple_ret. }
  intros u. apply triple_if; intros _; [by apply triple_ret|].
  eapply triple_bind; [apply keeps_choose|intros ?].
  { eapply triple_bind; [apply keeps_uninstalled|]. intros [[? ?] ?]. by apply triple_ret. }
  eapply triple_bind; [apply keeps_choose|intros ?].
  { eapply triple_bind; [apply keeps_user_deleted|]. intros [[? ?] ?]. by apply triple_ret. }
  eapply triple_bind; [apply keeps_choose, keeps_normal_expired|intros [ret|]; [|by apply triple_ret]].
  apply keeps_choose.
  eapply triple_bind; [apply keeps_app_reinstalled|]. intros [[? ?] ?]. by apply triple_ret.
Qed.

(** A table reached from [table] has fewer rows to compare with. *)
Lemma stale_mono t1 t2 r : (∀ x, In x t1 → In x t2) → stale t1 r → stale t2 r.
Proof.
  intros Hin [?|[?|[?|(inst & updt & r' & ? & Hr' & ?)]]]; [by left|by right; left|by right; right; left|].
  right; right; right. exists inst, updt, r'. eauto.
Qed.
End Snapshot.

Lemma pruned_start (P : Row → Prop) m : settled m → pruned P (rights m) m.
Proof. intros Hm. split; [done|]. auto. Qed.

(** Clean-ups in sequence. *)
Lemma pruned_trans (P1 P2 : Row → Prop) m m1 m2 :
  pruned P1 (rights m) m1 → pruned P2 (rights m1) m2 → pruned (λ r, P1 r ∨ P2 r) (rights m) m2.
Proof.
  intros (_ & K1 & K2) (? & K3 & K4). split; [done|]. split; [auto|].
  intros r [[?|?]%K4|?]%K2; auto.
Qed.
Lemma pruned_weaken (P1 P2 : Row → Prop) t m : (∀ r, P1 r → P2 r) → pruned P1 t m → pruned P2 t m.
Proof. intros HP (? & ? & K). split; [done|]. split; [done|]. intros r [?|?]%K; auto. Qed.

(** Closing the dialog does not touch the records. *)
Lemma unshow_pruned (P : Row → Prop) t m : pruned P t m → pruned P t (UnShowUsbDialog m).2.
Proof.
  intros Hm. unfold UnShowUsbDialog, CloseDialog, on_platform, ask.
  run_unfold. repeat (run_step; cbn beta iota zeta in *); simplify_eq; exact Hm.
Qed.

(** *** Expiry *)

(** The clean-up of expired records removes no record that still grants. *)
Lemma normal_expired_never_grants u d b t u' now now' r :
  in_u64 (row_requestTime r) → 0 <= row_validPeriod r →
  row_validPeriod r <= USB_RIGHT_VALID_PERIOD_SET ∨ row_validPeriod r = USB_RIGHT_VALID_PERIOD_MAX →
  0 <= now <= now' → now' < 2 ^ 64 →
  normal_expired_match u' now r = true → grants u d b t now' r = false.
Proof.
  intros Hreq Hv0 Hv Hn Hm Hx. unfold normal_expired_match in Hx.
  apply andb_true_iff in Hx as [_ [Hlt Hne]%andb_true_iff].
  apply andb_true_iff in Hne as [Hmin%negb_true_iff%bool_decide_eq_false Hmax%negb_true_iff%bool_decide_eq_false].
  destruct Hv as [Hv|?]; [|done]. apply Z.ltb_lt in Hlt. unfold relativeExpiredTime in Hlt.
  destruct (now <=? USB_RIGHT_VALID_PERIOD_SET) eqn:En; [unfold in_u64 in *; lia|]. zbool.
  unfold grants. apply andb_false_iff. right. apply negb_false_iff.
  unfold USB_RIGHT_VALID_PERIOD_SET, USB_RIGHT_VALID_PERIOD_MIN, USB_RIGHT_VALID_PERIOD_MAX, in_u64 in *.
  rewrite to_u64_id in Hlt by (unfold in_u64; lia).
  unfold IsInfoExpired. cbn [row_info requestTime validPeriod installTime updateTime].
  rewrite (to_u64_id (row_requestTime r)), (to_u64_id (row_validPeriod r)) by (unfold in_u64; lia).
  destruct (now' <? row_requestTime r); [done|].
  unfold USB_RIGHT_VALID_PERIOD_MIN, USB_RIGHT_VALID_PERIOD_MAX.
  replace (row_validPeriod r =? 0) with false by (symmetry; apply Z.eqb_neq; lia).
  replace (row_validPeriod r =? 4294967295) with false by (symmetry; apply Z.eqb_neq; lia).
  rewrite to_u64_id by (unfold in_u64; lia).
  replace (now' - row_requestTime r <? row_validPeriod r) with false by (symmetry; apply Z.ltb_ge; lia).
  by destruct (_ || _).
Qed.

Lemma existsb_filter_irrelevant {A} (f g : A → bool) l :
  (∀ x, In x l → g x = true → f x = false) → existsb f (List.filter (λ x, negb (g x)) l) = existsb f l.
Proof.
  induction l as [|x l IH]; intros Hf; [done|]. simpl. rewrite <- IH by (intros; apply Hf; [by right|done]).
  destruct (g x) eqn:Eg; simpl; [|done]. rewrite (Hf x) by (by try left). done.
Qed.

Lemma normal_expired_run u m c m' : settled m → CleanUpRightNormalExpired u m = (c, m') →
  settled m' ∧ (rights m' = rights m ∨
    rights m' = List.filter (λ r, negb (normal_expired_match u
      (to_u64 (system_clock_seconds (platform_ m)).1) r)) (rights m)).
Proof.
  intros Hm. unfold CleanUpRightNormalExpired, GetCurrentTimestamp, on_platform. run_unfold.
  destruct (system_clock_seconds (platform_ m)) as [now e] eqn:Hc. cbn [fst set_platform helper_]. unfold settled, rights in *.
  destruct (helper_ m) as [h|] eqn:Hh; [|intros [= <- <-]; cbn; rewrite Hh; auto].
  unfold with_helper. cbn [set_platform helper_]. rewrite Hh. destruct (rr_DeleteNormalExpiredRightRecord u (to_u64 now) h) as [ret h'] eqn:Hr. intros [= <- <-].
  apply rr_delete_normal_law in Hr as (? & [[_ ?]|[_ ?]]); auto.
Qed.

(** *** Token identifiers *)

Lemma all_digits_c_str s : all_digits s = true → c_str s = s.
Proof.
  induction s as [|c s IH]; [done|]. cbn [all_digits c_str]. intros [Hc Hs]%andb_true_iff.
  case_bool_decide as Hz; [by subst|]. by rewrite IH.
Qed.

(** Texts that pass both tests convert without an exception when [unsigned
    long] is at least as wide as [uint64_t]. *)
Lemma stoul_of_checked s : 2 ^ 64 - 1 <= ulong_max → IsAllDigits s = true → IsWithinUint64Range s = true →
  std_stoul ulong_max s = Some (digits_value s) ∧ digits_value s < 2 ^ 64.
Proof.
  intros Hu Hd Hr. unfold IsAllDigits, IsWithinUint64Range in *. rewrite all_digits_c_str in Hr by done.
  case_bool_decide as Hs; [done|]. unfold strtoull_erange in Hr. unfold std_stoul.
  rewrite scan_number_digits in * by done.
  destruct (2 ^ 64 - 1 <? digits_value s) eqn:E1; [done|]. zbool.
  rewrite bool_decide_eq_false_2 by done.
  replace (ulong_max <? digits_value s) with false by (symmetry; apply Z.ltb_ge; lia). split; [done|lia].
Qed.

(** *** Sorting *)

Lemma unique_head x l : ∃ y l', unique (x :: l) = y :: l' ∧ y = x.
Proof.
  cbn [unique]. destruct (unique l) as [|y l']; [eauto|]. case_bool_decide; subst; eauto.
Qed.
Lemma unique_sorted l : StronglySorted String.le l → StronglySorted (λ a b, String.le a b ∧ a ≠ b) (unique l).
Proof.
  induction l as [|x l IH]; intros Hs; [constructor|]. apply StronglySorted_inv in Hs as [Hs Hx].
  cbn [unique]. destruct (unique l) as [|y l'] eqn:Eu; [by repeat constructor|].
  specialize (IH Hs). case_bool_decide as Hxy; [done|].
  assert (Forall (String.le x) (y :: l')) as Hle.
  { rewrite <- Eu, Forall_forall. intros z Hz. rewrite Forall_forall in Hx. apply Hx.
    apply list_elem_of_In, unique_In, list_elem_of_In, Hz. }
  constructor; [done|]. apply StronglySorted_inv in IH as [_ IH].
  apply Forall_cons in Hle as [Hlxy Hle].
  constructor; [done|]. rewrite Forall_forall in *. intros z Hz. split; [by apply Hle|].
  intros ->. destruct (IH z Hz) as [Hyz Hne]. apply Hne, (anti_symm String.le); done.
Qed.
Lemma sort_uniq_sorted l : StronglySorted (λ a b, String.le a b ∧ a ≠ b) (StringVectorSortAndUniq l).
Proof. apply unique_sorted. apply (StronglySorted_merge_sort String.le). Qed.

(** *** The subscription loop *)

(** The platform after [n] attempts, each followed by the pause. *)
Fixpoint attempts (n : nat) (e : E) : E :=
  match n with
  | O => e
  | S n => attempts n (sleep RETRY_INTERVAL_SECONDS (SubscribeCommonEvent subscribed_events e).2).2
  end.
Lemma subscribe_run n m :
  (subscribe n m).1 = UEC_OK ↔
  ∃ k, (k < n)%nat ∧ (SubscribeCommonEvent subscribed_events (attempts k (platform_ m))).1 = true.
Proof.
  revert m. induction n as [|n IH]; intros m; cbn [subscribe].
  - split; [intros []%uec_not_OK|intros (k & ? & _); lia].
  - rewrite bind_run. unfold on_platform, zoom.
    destruct (SubscribeCommonEvent subscribed_events (platform_ m)) as [ok e] eqn:Es. cbn [fst snd].
    destruct ok; cbn [negb].
    + split; [|done]. intros _. exists 0%nat. split; [lia|]. cbn [attempts]. by rewrite Es.
    + rewrite bind_run. destruct (sleep _ _) as [[] e'] eqn:Ew. cbn [set_platform platform_] in Ew.
      cbn [fst snd]. rewrite IH. cbn [set_platform platform_]. split.
      * intros (k & ? & ?). exists (S k). split; [lia|]. cbn [attempts]. rewrite Es; cbn [snd]; by rewrite Ew.
      * intros ([|k] & ? & Hk); cbn [attempts] in Hk; [by rewrite Es in Hk|].
        exists k. split; [lia|]. rewrite Es in Hk; cbn [snd] in Hk; by rewrite Ew in Hk.
Qed.
End Proofs.
