(* ===== verification/RightTheorems.v ===== *)
(** * The right subsystem: its properties

    The theorems about checking, granting, revoking and cleaning up rights, each
    followed by the run on the in-memory store that applies it. *)
From S2P Require Import Prelude UsbErrors Platform UsbAccessory UsbRightDatabase UsbRightDbHelper RightRecords UsbRightManager UsbRightManagerProofs.

(** ** A platform for the runs

    User 100 is logged in; [com.app] is installed since time 5; the clock stands
    at 1,000,000,000. *)
#[export] Instance demo_platform : RightPlatform () := {
  ERR_OK := 0;
  system_clock_seconds e := (1000000000, e);
  has_sam _ := true;
  has_bms_ability _ := true;
  casts_to_bundle_mgr _ := true;
  has_bundle_resource_proxy _ := true;
  GetBundleResourceLabel b e := ((0, b), e);
  GetApplicationInfo b u e := (bool_decide (b = "com.app"), e);
  GetBundleInfo b u e := (if bool_decide (b = "com.app") then Some (5, 6) else None, e);
  GetHapTokenInfo t e := ((0, (100, "com.app")), e);
  GetOsAccountLocalIdFromUid e := ((0, 100), e);
  OsAccountManager_IsOsAccountExists u e := ((0, bool_decide (u = 100)), e);
  IsSystemAppByFullTokenID _ := false;
  IsNativeToken _ := false;
  VerifyAccessTokenDenied _ _ := false;
  GetParameter _ d _ := (0, d);
  GetBoolParameter _ d _ := d;
  has_ability_manager _ := true;
  AbilityManager_ConnectAbility _ _ _ e := (0, e);
  AbilityManager_DisconnectAbility e := (0, e);
  SendRequest _ _ e := ((0, Some 0), e);
  SubscribeCommonEvent _ e := (true, e);
  sleep _ e := ((), e);
  StrToInt s := Some (dec_value s);
  call_service _ e := ((), e);
  GetDeviceProductName _ _ := None;
}.
#[export] Instance demo_snapshot : RightSnapshot ().
Proof.
  refine {| snap_seconds := 1000000000; snap_user := (0, 100);
    snap_installed b u := bool_decide (b = "com.app");
    snap_times b u := if bool_decide (b = "com.app") then Some (5, 6) else None;
    snap_account u := (0, bool_decide (u = 100)) |}; done.
Defined.
#[local] Existing Instance number_json.
#[local] Existing Instance demo_err_base.
#[local] Instance demo_records : RightRecords (UsbRightDbHelper MemStore) := helper_records 0.
#[local] Instance demo_records_laws : RightRecordsLaws (UsbRightDbHelper MemStore) := helper_records_laws 0.

Definition demo_row (id u : Z) (b : string) (request : Z) : Row := {|
  row_id := id; row_uid := u; row_installTime := 5; row_updateTime := 6; row_requestTime := request;
  row_validPeriod := USB_RIGHT_VALID_PERIOD_SET; row_deviceName := "1-1"; row_bundleName := b; row_tokenId := "7" |}.
Definition demo_manager (rs : list Row) : UsbRightManager (UsbRightDbHelper MemStore) () := {|
  helper_ := Some (mem_helper rs); usbAbilityConn_ := None; usbDialogParams_ := ∅;
  waitDialogDisappear_ := 0; platform_ := () |}.
Definition live_row : Row := demo_row 1 100 "com.app" 999999990.

Lemma demo_settled rs : settled (demo_manager rs).
Proof. done. Qed.
Lemma demo_answers rs : Z.of_nat (length rs) < 2 ^ 31 → answers (demo_manager rs).
Proof. intros Hl. split; [|exact _]. split; [|done]. by eexists. Qed.

Section Theorems.
Context {H E : Type} `{!RightRecords H, !RightRecordsLaws H, !RightPlatform E, !ErrCodeBase, !CJson}.
Context (others : state (UsbRightManager H E) ()).
Implicit Types m : UsbRightManager H E.

(** C1: the right check fails closed: whatever the database does on the way, it
    answers yes only for the console user or when a stored record of the user,
    device, bundle and token is valid at the time the clock shows, and it
    changes no record. *)
Theorem HasRight_sound d b t u m r m' : settled m → HasRight d b t u m = (r, m') →
  settled m' ∧ rights m' = rights m ∧
  (r = true → u = USB_RIGHT_USERID_CONSOLE ∨
     existsb (grants u d b t (to_u64 (system_clock_seconds (platform_ m)).1)) (rights m) = true).
Proof. intros Hm Hr. apply HasRight_run in Hr as (? & ? & ? & _); auto. Qed.

(** When the database answers, the check is exact: it says yes precisely
    for the console user and for users with a valid record. *)
Theorem HasRight_exact d b t u m : settled m → answers m →
  (HasRight d b t u m).1 = (u =? USB_RIGHT_USERID_CONSOLE) ||
    existsb (grants u d b t (to_u64 (system_clock_seconds (platform_ m)).1)) (rights m).
Proof.
  intros Hm Ha. destruct (HasRight d b t u m) as [r m'] eqn:Hr.
  apply HasRight_run in Hr as (_ & _ & _ & Hx); auto.
Qed.

(** C3: revoking works: once [RemoveDeviceRight] succeeds, every later check of that key
    says no, at any time, for every user but the console user, of whom every check
    says yes whatever is revoked; the checks of all other keys are as before, and for
    the console user no record changes. *)
Theorem RemoveDeviceRight_revokes d b t u m m' : settled m → RemoveDeviceRight d b t u m = (true, m') →
  (∀ m2, settled m2 → rights m2 = rights m' → (HasRight d b t u m2).1 = (u =? USB_RIGHT_USERID_CONSOLE)) ∧
  (u = USB_RIGHT_USERID_CONSOLE → rights m' = rights m) ∧
  (∀ u' d' b' t' now, (u', d', b', t') ≠ (u, d, b, t) →
     existsb (grants u' d' b' t' now) (rights m') = existsb (grants u' d' b' t' now) (rights m)).
Proof.
  intros Hm Hrem. pose proof Hrem as Hr. destruct (Z.eqb_spec u USB_RIGHT_USERID_CONSOLE) as [->|Hu].
  { unfold RemoveDeviceRight in Hrem. rewrite Z.eqb_refl in Hrem. injection Hrem as <-. split; [|done].
    intros m2 _ _. unfold HasRight. by rewrite Z.eqb_refl. }
  apply Remove_run in Hr as (_ & [[? _]|[_ [[? _]|Hr]]]); [done|done| |done].
  split; [|split; [done|]].
  - intros m2 Hm2 Heq. destruct (HasRight d b t u m2) as [r m3] eqn:HR.
    apply HasRight_run in HR as (_ & _ & Hs & _); [|done]. destruct r; [|done].
    destruct (Hs eq_refl) as [?|Hx]; [done|]. by rewrite Heq, Hr, grants_deleted in Hx.
  - intros u' d' b' t' now Hne. rewrite Hr. by apply grants_others.
Qed.

(** C4: granting works: when [AddDeviceRight] succeeds, the record it writes was
    requested at a time [request] the clock showed, and every later check of the
    key says yes until the validity period has passed; when it fails, the records
    are as before. *)
Theorem AddDeviceRight_grants d b t u m r m' : settled m → u ≠ USB_RIGHT_USERID_CONSOLE → in_i32 u →
  AddDeviceRight d b t u m = (r, m') →
  if r then
    ∃ e, let request := to_u64 (system_clock_seconds (E := E) e).1 in
      ∀ m2, settled m2 → answers m2 → rights m2 = rights m' →
        let now := to_u64 (system_clock_seconds (platform_ m2)).1 in
        request <= now < request + USB_RIGHT_VALID_PERIOD_SET → (HasRight d b t u m2).1 = true
  else rights m' = rights m.
Proof.
  intros Hm Hu Hr Ha. apply Add_run in Ha as (_ & [[-> ?]|[-> Hadd]]); [done| |done|done].
  apply added_grants in Hadd as [e He]; [|done]. exists e. intros request m2 Hm2 Ha2 Heq now Hnow.
  destruct (HasRight d b t u m2) as [r' m3] eqn:HR.
  apply HasRight_run in HR as (_ & _ & _ & Hx); [|done]. cbn [fst]. rewrite (Hx Ha2), Heq.
  rewrite He; [by rewrite orb_true_r|done|]. apply to_u64_range.
Qed.

(** C5: a request for a right returns success only if, when it returns, the
    caller is the console user or a stored record is valid at a time the clock
    showed; every other outcome, the dialog's failure included, is the
    permission-denied code.  Other processes may do anything that closes its
    transactions while the dialog is shown. *)
Theorem RequestRight_permission bd d b t u m c m' : settled m →
  (∀ x, settled x → settled (others x).2) → RequestRight others bd d b t u m = (c, m') →
  (c = UEC_OK ∧ (u = USB_RIGHT_USERID_CONSOLE ∨
     ∃ e, existsb (grants u d b t (to_u64 (system_clock_seconds (E := E) e).1)) (rights m') = true)) ∨
  c = uec UEC_SERVICE_PERMISSION_DENIED.
Proof.
  intros Hm Ho. unfold RequestRight. rewrite bind_run.
  destruct (HasRight d b t u m) as [has m1] eqn:HR. apply HasRight_run in HR as (Hm1 & Hr1 & Hs & _); [|done].
  cbn [fst snd]. destruct has.
  - intros [= <- <-]. left. split; [done|]. rewrite Hr1. destruct (Hs eq_refl); eauto.
  - rewrite bind_run. destruct (GetUserAgreementByDiag others bd d b t u m1) as [ag m2] eqn:HA.
    apply (agreement_run others Ho) in HA as [_ Hg]; [|done]. cbn [fst snd].
    destruct ag; intros [= <- <-]; [left|by right]. split; [done|]. by apply Hg.
Qed.

(** C6: tidying up never takes a usable right away, while the bundle manager is there
    and the clock, the bundles and the accounts answer the same throughout
    ([RightSnapshot]): whatever the choice of
    clean-ups, and although any of the deletions may fail, the records that
    survive were there before, and every record whose bundle is installed, whose
    user has an account, which has not expired and whose bundle was not
    reinstalled survives.  Without the bundle manager none is safe
    ([tidy_without_bundle_manager]). *)
Theorem TidyUpRight_keeps_live `{!RightSnapshot E} choose m : settled m →
  let m' := (TidyUpRight choose m).2 in
  settled m' ∧ (∀ r, In r (rights m') → In r (rights m)) ∧
  (∀ r, In r (rights m) → ¬ stale (rights m) r → In r (rights m')).
Proof.
  intros Hm m'. pose proof (keeps_tidy (rights m) choose m (pruned_start _ _ Hm)) as (Hs & Hin & Hout).
  split; [done|]. split; [done|]. intros r Hr Hn. by destruct (Hout r Hr).
Qed.

(** When a device goes away, [RemoveDeviceAllRight] removes no record but the
    device's temporary ones and the stale ones. *)
Theorem RemoveDeviceAllRight_scope `{!RightSnapshot E} d m : settled m →
  let m' := (RemoveDeviceAllRight d m).2 in
  settled m' ∧ (∀ r, In r (rights m') → In r (rights m)) ∧
  (∀ r, In r (rights m) → period_match USB_RIGHT_VALID_PERIOD_MIN d r = false →
     ¬ stale (rights m) r → In r (rights m')).
Proof.
  intros Hm m'. set (temp := λ r, period_match USB_RIGHT_VALID_PERIOD_MIN d r = true).
  assert (pruned (λ r, temp r ∨ stale (rights m) r) (rights m) m') as (? & ? & Hout).
  { subst m'. unfold RemoveDeviceAllRight. rewrite bind_run.
    assert (pruned temp (rights m) (CleanUpRightTemporaryExpired d m).2) as K1.
    { apply (pruned_delete temp (rights m) _ _ (period_match USB_RIGHT_VALID_PERIOD_MIN d));
        [done|apply rr_delete_period_law|by apply pruned_start]. }
    set (m1 := (CleanUpRightTemporaryExpired d m).2) in *. rewrite bind_run.
    pose proof (keeps_tidy (rights m1) TIGHT_UP_USB_RIGHT_RECORD_ALL m1 (pruned_start _ _ (proj1 K1))) as K2.
    set (m2 := (TidyUpRight TIGHT_UP_USB_RIGHT_RECORD_ALL m1).2) in *.
    pose proof (pruned_trans _ _ _ _ _ K1 K2) as K3.
    assert (pruned (λ r, temp r ∨ stale (rights m) r) (rights m) m2) as K4.
    { eapply pruned_weaken; [|exact K3]. intros r [?|Hst]; [by left|right]. eapply stale_mono; [|exact Hst]. apply K1. }
    destruct (TidyUpRight TIGHT_UP_USB_RIGHT_RECORD_ALL m1).1; [|exact K4]. rewrite bind_run, ret_run. cbn [snd].
    by apply (unshow_pruned _ (rights m)). }
  split; [done|]. split; [done|]. intros r Hr Ht Hn. destruct (Hout r Hr) as [?|[Hx|?]]; [done| |done].
  unfold temp in Hx. congruence.
Qed.

(** C8: the clean-up of expired records agrees with the check: it changes the
    answer for no key, now or later, as long as the records have the validity
    periods the service writes or the temporary and permanent ones. *)
Theorem CleanUpRightNormalExpired_invisible u m c m' d b t u' now' :
  settled m → CleanUpRightNormalExpired u m = (c, m') →
  Forall (λ r, in_u64 (row_requestTime r) ∧ 0 <= row_validPeriod r ∧
    (row_validPeriod r <= USB_RIGHT_VALID_PERIOD_SET ∨ row_validPeriod r = USB_RIGHT_VALID_PERIOD_MAX)) (rights m) →
  to_u64 (system_clock_seconds (platform_ m)).1 <= now' < 2 ^ 64 →
  existsb (grants u' d b t now') (rights m') = existsb (grants u' d b t now') (rights m).
Proof.
  intros Hm Hr Hrows Hnow. apply normal_expired_run in Hr as [_ [-> | ->]]; [done| |done].
  apply existsb_filter_irrelevant. intros r Hin Hx. rewrite Forall_forall in Hrows.
  destruct (Hrows r) as (? & ? & ?); [by apply list_elem_of_In|].
  eapply normal_expired_never_grants; try done; [|lia].
  split; [apply to_u64_range|lia].
Qed.

(** Where [unsigned long] has 64 bits, the checks of the token's text rule
    out the exception of [std::stoul]: granting by token always returns. *)
Theorem AddDeviceRightByToken_returns ulong_max d tokenIdStr m : 2 ^ 64 - 1 <= ulong_max →
  is_Some (AddDeviceRightByToken ulong_max d tokenIdStr m).1.
Proof.
  intros Hu. unfold AddDeviceRightByToken.
  destruct (IsAllDigits tokenIdStr) eqn:E1; cbn [negb]; [|by eexists].
  destruct (IsWithinUint64Range tokenIdStr) eqn:E2; cbn [negb]; [|by eexists].
  destruct (stoul_of_checked ulong_max _ Hu E1 E2) as [-> _].
  unfold with_helper, on_platform, GetCurrentTimestamp, on_platform.
  run_unfold. repeat (run_step; cbn beta iota zeta); simplify_eq; by eexists.
Qed.

(** The subscription to the common events is tried at most
    [MAX_RETRY_TIMES] times: [Init] succeeds exactly when one of those attempts
    does, and returns in any case. *)
Theorem Init_retries m :
  (Init m).1 = UEC_OK ↔
  ∃ k, (k < MAX_RETRY_TIMES)%nat ∧ (SubscribeCommonEvent subscribed_events (attempts k (platform_ m))).1 = true.
Proof. apply subscribe_run. Qed.
End Theorems.

(** C11: [StringVectorSortAndUniq] returns the strictly ascending list of the
    strings it is given. *)
Theorem StringVectorSortAndUniq_spec l :
  (∀ x, In x (StringVectorSortAndUniq l) ↔ In x l) ∧
  StronglySorted (λ a b, String.le a b ∧ a ≠ b) (StringVectorSortAndUniq l).
Proof. split; [intros x; apply sort_uniq_In|apply sort_uniq_sorted]. Qed.

(** ** Runs *)

Abbreviation demo := (demo_manager [live_row; demo_row 2 100 "com.gone" 1; demo_row 3 101 "com.app" 2]).

Lemma HasRight_sound_witness : ∃ m',
  HasRight "1-1" "com.app" "7" 100 demo = (true, m') ∧
  (100 = USB_RIGHT_USERID_CONSOLE ∨ existsb (grants 100 "1-1" "com.app" "7" 1000000000) (rights demo) = true).
Proof.
  destruct (HasRight "1-1" "com.app" "7" 100 demo) as [r m'] eqn:Hr.
  pose proof (HasRight_sound "1-1" "com.app" "7" 100 demo r m' (demo_settled _) Hr) as (_ & _ & Hx).
  assert (r = true) as -> by (apply (f_equal fst) in Hr; vm_compute in Hr; congruence).
  exists m'. split; [done|]. exact (Hx eq_refl).
Defined.

Lemma HasRight_exact_witness :
  (HasRight "1-1" "com.app" "7" 100 demo).1 = true ∧ (HasRight "1-1" "com.app" "8" 100 demo).1 = false.
Proof.
  split.
  - rewrite (HasRight_exact "1-1" "com.app" "7" 100 demo (demo_settled _)); [|by apply demo_answers].
    vm_compute. reflexivity.
  - rewrite (HasRight_exact "1-1" "com.app" "8" 100 demo (demo_settled _)); [|by apply demo_answers].
    vm_compute. reflexivity.
Defined.

Lemma RemoveDeviceRight_revokes_witness : ∃ m',
  RemoveDeviceRight "1-1" "com.app" "7" 100 demo = (true, m') ∧ (HasRight "1-1" "com.app" "7" 100 m').1 = false.
Proof.
  destruct (RemoveDeviceRight "1-1" "com.app" "7" 100 demo) as [ok m'] eqn:Hr.
  assert (ok = true) as -> by (apply (f_equal fst) in Hr; vm_compute in Hr; congruence).
  exists m'. split; [done|].
  apply (RemoveDeviceRight_revokes "1-1" "com.app" "7" 100 demo m'); [apply demo_settled|done| |done].
  apply (f_equal snd) in Hr. cbn [snd] in Hr. rewrite <- Hr. vm_compute. reflexivity.
Defined.

Lemma AddDeviceRight_grants_witness : ∃ m',
  AddDeviceRight "2-1" "com.app" "7" 100 demo = (true, m') ∧ (HasRight "2-1" "com.app" "7" 100 m').1 = true.
Proof.
  destruct (AddDeviceRight "2-1" "com.app" "7" 100 demo) as [ok m'] eqn:Hr.
  assert (ok = true) as -> by (apply (f_equal fst) in Hr; vm_compute in Hr; congruence).
  exists m'. split; [done|].
  destruct (AddDeviceRight_grants "2-1" "com.app" "7" 100 demo true m') as [e He];
    [apply demo_settled|done|unfold in_i32; lia|done|].
  apply (f_equal snd) in Hr. cbn [snd] in Hr. subst m'.
  apply He; [vm_compute; reflexivity| |done|].
  - split; [|exact _]. split; [by eexists|vm_compute; reflexivity].
  - vm_compute. split; [discriminate|reflexivity].
Defined.

(** The user agrees: the dialog's process adds the right. *)
Definition agree : state (UsbRightManager (UsbRightDbHelper MemStore) ()) () :=
  _ ← AddDeviceRight "2-1" "com.app" "7" 100; mret ().
Lemma agree_settled m : settled m → settled (agree m).2.
Proof.
  intros Hm. unfold agree. rewrite bind_run, ret_run. cbn [snd].
  destruct (AddDeviceRight "2-1" "com.app" "7" 100 m) as [r m'] eqn:Hr.
  apply Add_run in Hr as [? _]; done.
Qed.

Lemma RequestRight_permission_witness :
  let '(c, m') := RequestRight agree "2-1" "2-1" "com.app" "7" 100 demo in
  c = UEC_OK ∧ existsb (grants 100 "2-1" "com.app" "7" 1000000000) (rights m') = true.
Proof.
  destruct (RequestRight agree "2-1" "2-1" "com.app" "7" 100 demo) as [c m'] eqn:Hr.
  pose proof (RequestRight_permission agree "2-1" "2-1" "com.app" "7" 100 demo c m' (demo_settled _) agree_settled Hr)
    as [[-> [?|[e He]]]|Hc]; [discriminate|split; [reflexivity|exact He]|].
  apply (f_equal fst) in Hr. cbn [fst] in Hr. rewrite Hc in Hr. by vm_compute in Hr.
Defined.

Lemma TidyUpRight_keeps_live_witness :
  In live_row (rights (TidyUpRight TIGHT_UP_USB_RIGHT_RECORD_ALL demo).2) ∧
  length (rights (TidyUpRight TIGHT_UP_USB_RIGHT_RECORD_ALL demo).2) = 1%nat.
Proof.
  split; [|vm_compute; reflexivity].
  refine (proj2 (proj2 (TidyUpRight_keeps_live TIGHT_UP_USB_RIGHT_RECORD_ALL demo (demo_settled _))) live_row _ _);
    [by left|].
  intros [Hs|[Hs|[Hs|(inst & updt & r & Hs & Hin & _ & _ & Hne)]]]; [by vm_compute in Hs..|].
  vm_compute in Hs. injection Hs as <- <-. apply Hne.
  destruct Hin as [<-|[<-|[<-|[]]]]; reflexivity.
Defined.

Lemma RemoveDeviceAllRight_scope_witness : In live_row (rights (RemoveDeviceAllRight "2-1" demo).2).
Proof.
  refine (proj2 (proj2 (RemoveDeviceAllRight_scope "2-1" demo (demo_settled _))) live_row _ _ _);
    [by left|vm_compute; reflexivity|].
  intros [Hs|[Hs|[Hs|(inst & updt & r & Hs & Hin & _ & _ & Hne)]]]; [by vm_compute in Hs..|].
  vm_compute in Hs. injection Hs as <- <-. apply Hne.
  destruct Hin as [<-|[<-|[<-|[]]]]; reflexivity.
Defined.

Lemma CleanUpRightNormalExpired_invisible_witness :
  let m' := (CleanUpRightNormalExpired 100 demo).2 in
  length (rights m') = 2%nat ∧
  existsb (grants 100 "1-1" "com.app" "7" 1000000001) (rights m') =
    existsb (grants 100 "1-1" "com.app" "7" 1000000001) (rights demo).
Proof.
  cbv zeta. split; [vm_compute; reflexivity|].
  apply (CleanUpRightNormalExpired_invisible 100 demo (CleanUpRightNormalExpired 100 demo).1); [done| | |].
  - apply surjective_pairing.
  - repeat constructor; try (vm_compute; congruence); left; vm_compute; congruence.
  - vm_compute. split; [discriminate|reflexivity].
Defined.

Lemma AddDeviceRightByToken_returns_witness :
  is_Some (AddDeviceRightByToken (2 ^ 64 - 1) "1-1" "18446744073709551615" demo).1 ∧
  (AddDeviceRightByToken (2 ^ 32 - 1) "1-1" "4294967296" demo).1 = None.
Proof.
  split; [|vm_compute; reflexivity].
  refine (AddDeviceRightByToken_returns (2 ^ 64 - 1) "1-1" "18446744073709551615" demo _). lia.
Defined.

(** A bundle manager that cannot be reached counts every bundle as uninstalled. *)
Definition no_bundle_manager : RightPlatform () := {|
  ERR_OK := 0; system_clock_seconds e := (1000000000, e);
  has_sam _ := true; has_bms_ability _ := false; casts_to_bundle_mgr _ := false;
  has_bundle_resource_proxy _ := false; GetBundleResourceLabel b e := ((0, b), e);
  GetApplicationInfo b u e := (true, e); GetBundleInfo b u e := (Some (5, 6), e);
  GetHapTokenInfo t e := ((0, (100, "com.app")), e); GetOsAccountLocalIdFromUid e := ((0, 100), e);
  OsAccountManager_IsOsAccountExists u e := ((0, true), e);
  IsSystemAppByFullTokenID _ := false; IsNativeToken _ := false; VerifyAccessTokenDenied _ _ := false;
  GetParameter _ d _ := (0, d); GetBoolParameter _ d _ := d; has_ability_manager _ := true;
  AbilityManager_ConnectAbility _ _ _ e := (0, e); AbilityManager_DisconnectAbility e := (0, e);
  SendRequest _ _ e := ((0, Some 0), e); SubscribeCommonEvent _ e := (true, e); sleep _ e := ((), e);
  StrToInt s := Some (dec_value s); call_service _ e := ((), e); GetDeviceProductName _ _ := None |}.
Example tidy_without_bundle_manager :
  rights (@TidyUpRight _ _ _ no_bundle_manager _ TIGHT_UP_USB_RIGHT_RECORD_APP_UNINSTALLED (demo_manager [live_row])).2 = [].
Proof. vm_compute. reflexivity. Qed.

(** * The record store: its properties

    What the helper of the right records (usb_right_db_helper.cpp) promises on
    any relational store, one that may fail at every call included. *)

(** A record with the values the columns can hold. *)
Definition info_ok (info : UsbRightAppInfo) : Prop :=
  in_i32 (uid info) ∧ in_u64 (installTime info) ∧ in_u64 (updateTime info) ∧ in_u64 (requestTime info) ∧
  in_u64 (validPeriod info).

(** The rows outside a key. *)
Definition others (u : Z) (d b t : string) (rs : list Row) : list Row :=
  List.filter (λ r, negb (record_match u d b t r)) rs.

Lemma upsert_others id d b t info rs : info_ok info →
  others (uid info) d b t (upsert id d b t info rs) = others (uid info) d b t rs.
Proof.
  intros (? & ? & ? & ? & ?). unfold others, upsert. destruct (existsb _ rs) eqn:Hx.
  - clear Hx. induction rs as [|r rs IH]; [done|]. cbn [map List.filter].
    destruct (record_match (uid info) d b t r) eqn:Hm; cbn [negb].
    + destruct (upsert_row_info d b t info r) as [_ ->]; done.
    + rewrite Hm. cbn [negb]. by rewrite IH.
  - rewrite List.filter_app. cbn [List.filter]. unfold bucket_row.
    destruct (upsert_row_info d b t info (empty_row id)) as [_ ->]; try done. cbn [negb]. by rewrite app_nil_r.
Qed.

(** Every row of the key reads back as the information written. *)
Lemma upsert_reads id d b t info rs r : info_ok info →
  In r (upsert id d b t info rs) → record_match (uid info) d b t r = true →
  installTime (row_info r) = installTime info ∧ updateTime (row_info r) = updateTime info ∧
  requestTime (row_info r) = requestTime info ∧ validPeriod (row_info r) = validPeriod info.
Proof.
  intros (? & ? & ? & ? & ?). unfold upsert. destruct (existsb _ rs) eqn:Hx.
  - intros (r0 & <- & Hin)%in_map_iff. destruct (record_match (uid info) d b t r0) eqn:Hm; [|congruence].
    intros _. destruct (upsert_row_info d b t info r0) as [-> _]; done.
  - intros [Hin|[<-|[]]]%in_app_iff Hm.
    + exfalso. apply not_true_iff_false in Hx. apply Hx, existsb_exists. eauto.
    + unfold bucket_row. destruct (upsert_row_info d b t info (empty_row id)) as [-> _]; done.
Qed.

Section Store.
Context {W RS : Type} `{!RdbStore W RS} `{!RdbStoreLaws W RS right_clauses}.
Implicit Types h : UsbRightDbHelper W.

(** C33: adding a right record is one transaction, on a store any of whose calls
    may fail: the transaction is closed afterwards, and either the result is
    negative and the table is as it was, or the key has a record, every record
    of the key reads back with the times and the period given, and the records
    of other keys are untouched. *)
Theorem AddOrUpdateRightRecord_atomic d b t info h ret h' : info_ok info → h_base h = None →
  AddOrUpdateRightRecord (uid info) d b t info h = (ret, h') →
  h_base h' = None ∧
  (ret < 0 ∧ h_view h' = h_view h ∨
   0 <= ret ∧ others (uid info) d b t (h_view h') = others (uid info) d b t (h_view h) ∧
   (∃ r, In r (h_view h') ∧ record_match (uid info) d b t r = true) ∧
   ∀ r, In r (h_view h') → record_match (uid info) d b t r = true →
     installTime (row_info r) = installTime info ∧ updateTime (row_info r) = updateTime info ∧
     requestTime (row_info r) = requestTime info ∧ validPeriod (row_info r) = validPeriod info).
Proof.
  intros Hi Hb Ha. destruct (upsert_spec _ _ _ _ _ _ _ Hb Ha) as [Hb' [[? ->]|(? & id & _ & ->)]]; [by auto|].
  split; [done|]. right. split; [done|]. split; [by apply upsert_others|]. split.
  - destruct Hi as (? & ? & ? & ? & ?). destruct (upsert_has_row id d b t info (h_view h)) as (r & Hin & Hm & _); eauto.
  - intros r. by apply upsert_reads.
Qed.

(** Deleting a right record removes exactly the records of the key when it
    reports success, and nothing when it reports an error; the transaction is
    closed. *)
Theorem DeleteRightRecord_exact u d b t h ret h' : h_base h = None →
  DeleteRightRecord u d b t h = (ret, h') →
  h_base h' = None ∧
  (ret = USB_RIGHT_OK ∧ h_view h' = others u d b t (h_view h) ∨ ret < 0 ∧ h_view h' = h_view h).
Proof.
  intros Hb Hd. refine (delete_clause_deleted clause_record _ _ _ _ _ _ Hb _ Hd);
    [by apply (bool_decide_unpack _)|]. apply clause_record_holds.
Qed.

(** On a store that does not fail, a right is reported expired exactly when
    no record of the key is still valid; the table is not changed. *)
Theorem IsRecordExpired_exact `{!RdbReliable W RS} uninit u d b t now h e h' : helper_ready h →
  IsRecordExpired uninit u d b t now h = (e, h') →
  e = negb (existsb (grants u d b t now) (h_view h)) ∧ h_view h' = h_view h.
Proof.
  intros Hh He. split; [exact (expired_exact _ _ _ _ _ _ _ _ _ Hh He)|].
  by destruct (expired_sound _ _ _ _ _ _ _ _ _ He).
Qed.
End Store.

(** ** On the in-memory store *)

Definition stored : Row := {|
  row_id := 1; row_uid := 100; row_installTime := 5; row_updateTime := 6; row_requestTime := 1000;
  row_validPeriod := USB_RIGHT_VALID_PERIOD_SET; row_deviceName := "1-1"; row_bundleName := "com.app"; row_tokenId := "7" |}.
Definition renewed : UsbRightAppInfo := {|
  primaryKeyId := 0; uid := 100; installTime := 5; updateTime := 6; requestTime := 2000;
  validPeriod := USB_RIGHT_VALID_PERIOD_SET |}.

Lemma stored_idle : h_base (mem_helper [stored]) = None.
Proof. reflexivity. Qed.

Example AddOrUpdateRightRecord_atomic_witness :
  info_ok renewed ∧
  (let '(ret, h') := AddOrUpdateRightRecord 100 "1-1" "com.app" "7" renewed (mem_helper [stored]) in
   0 <= ret ∧ map (λ r, requestTime (row_info r)) (h_view h') = [2000] ∧ h_base h' = None).
Proof.
  assert (info_ok renewed) as Hi by (by vm_compute). split; [done|].
  destruct (AddOrUpdateRightRecord 100 "1-1" "com.app" "7" renewed (mem_helper [stored])) as [ret h'] eqn:E.
  destruct (AddOrUpdateRightRecord_atomic "1-1" "com.app" "7" renewed (mem_helper [stored]) ret h' Hi stored_idle E) as [Hb _].
  vm_compute in E. injection E as <- <-. by vm_compute.
Defined.
Example DeleteRightRecord_exact_witness :
  let '(ret, h') := DeleteRightRecord 100 "1-1" "com.app" "7" (mem_helper [stored]) in
  ret = USB_RIGHT_OK ∧ h_view h' = [] ∧ h_base h' = None.
Proof.
  destruct (DeleteRightRecord 100 "1-1" "com.app" "7" (mem_helper [stored])) as [ret h'] eqn:E.
  destruct (DeleteRightRecord_exact 100 "1-1" "com.app" "7" (mem_helper [stored]) ret h' stored_idle E) as [Hb Hd].
  vm_compute in E. injection E as <- <-. by vm_compute.
Defined.
Example IsRecordExpired_exact_witness :
  (IsRecordExpired 0 100 "1-1" "com.app" "7" 2000 (mem_helper [stored])).1 = false ∧
  (IsRecordExpired 0 100 "1-1" "com.app" "7" 900000000 (mem_helper [stored])).1 = true.
Proof.
  assert (helper_ready (mem_helper [stored])) as Hh by (split; [by eexists|by vm_compute]).
  assert (∀ now, (IsRecordExpired 0 100 "1-1" "com.app" "7" now (mem_helper [stored])).1 =
    negb (existsb (grants 100 "1-1" "com.app" "7" now) [stored])) as He.
  { intros now. destruct (IsRecordExpired 0 100 "1-1" "com.app" "7" now (mem_helper [stored])) as [e h'] eqn:E.
    exact (proj1 (IsRecordExpired_exact 0 100 "1-1" "com.app" "7" now (mem_helper [stored]) e h' Hh E)). }
  rewrite !He. by vm_compute.
Defined.
