(* ===== verification/UsbDeviceManager.v ===== *)
(** * The device manager (services/native/src/usb_device_manager.cpp)

    The functions the device offers as a USB gadget: their masks and names, the
    switch between them, the delayed connect and disconnect tasks, and what is
    broadcast and notified. The HDI device interface and the timer are
    parameters; broadcasts, notifications, window calls and system events are
    recorded in [trace_], in order. *)
From S2P Require Import Prelude UsbErrors Platform.

Definition USB_FUNCTION_HDC : Z := Z.shiftl 1 2.
Definition USB_FUNCTION_MTP : Z := Z.shiftl 1 3.
Definition USB_FUNCTION_PTP : Z := Z.shiftl 1 4.
Definition USB_FUNCTION_STORAGE : Z := Z.shiftl 1 9.
Definition USB_FUNCTION_DEVMODE_AUTH : Z := Z.shiftl 1 12.

(** [UsbSrvSupport::Function]. *)
Definition FUNCTION_NONE : Z := 0.
Definition FUNCTION_ACM : Z := 1.
Definition FUNCTION_ECM : Z := Z.shiftl 1 1.
Definition FUNCTION_HDC : Z := Z.shiftl 1 2.
Definition FUNCTION_MTP : Z := Z.shiftl 1 3.
Definition FUNCTION_PTP : Z := Z.shiftl 1 4.
Definition FUNCTION_RNDIS : Z := Z.shiftl 1 5.
Definition FUNCTION_NCM : Z := Z.shiftl 1 8.
Definition FUNCTION_STORAGE : Z := Z.shiftl 1 9.
Definition FUNCTION_DEVMODE_AUTH : Z := Z.shiftl 1 12.
Definition FUNCTION_NAME_NONE : string := "none".

Definition ACT_DEVUP : Z := 0.
Definition ACT_DEVDOWN : Z := 1.
Definition ACT_UPDEVICE : Z := 2.
Definition ACT_DOWNDEVICE : Z := 3.
Definition ACT_ACCESSORYUP : Z := 4.
Definition ACT_ACCESSORYDOWN : Z := 5.
Definition ACT_ACCESSORYSEND : Z := 6.
Definition ACT_CUSTOMCONTROLREQUEST : Z := 7.

Definition DELAY_CONNECT_INTERVAL : Z := 1000.
Definition DELAY_DISCONN_INTERVAL : Z := 1400.
Definition MAX_INPUT_STRING_NUMBER_SIZE : nat := 9.
Definition HDF_FAILURE : Z := -1.

(** ** Masks and names *)

(** The [std::map], in the order of its keys. *)
Definition FUNCTION_MAPPING_N2C : list (string * Z) :=
  [("acm", FUNCTION_ACM); ("devmode_auth", FUNCTION_DEVMODE_AUTH); ("ecm", FUNCTION_ECM);
   ("hdc", FUNCTION_HDC); ("mtp", FUNCTION_MTP); ("ncm", FUNCTION_NCM); ("none", FUNCTION_NONE);
   ("ptp", FUNCTION_PTP); ("rndis", FUNCTION_RNDIS); ("storage", FUNCTION_STORAGE)].
Definition function_code (name : string) : option Z :=
  snd <$> find (λ p, bool_decide (p.1 = name)) FUNCTION_MAPPING_N2C.

Definition functionSettable_ : Z :=
  Z.lor FUNCTION_HDC (Z.lor FUNCTION_ACM (Z.lor FUNCTION_ECM (Z.lor FUNCTION_MTP
    (Z.lor FUNCTION_PTP (Z.lor FUNCTION_RNDIS (Z.lor FUNCTION_NCM FUNCTION_STORAGE)))))).

Definition IsSettableFunctions (funcs : Z) : bool :=
  (to_u32 funcs =? FUNCTION_NONE) || (Z.land (Z.lnot functionSettable_) (to_u32 funcs) =? 0).

(** The items between commas, as the loop over [pos] pushes them: a comma at
    the end opens no new item. *)
Fixpoint comma_items (s : string) : list string :=
  match s with
  | "" => []
  | String c s =>
      if bool_decide (c = ","%char) then "" :: comma_items s
      else match comma_items s with
           | [] => [String c ""]
           | x :: l => String c x :: l
           end
  end.

Section Names.
Context `{!ErrCodeBase}.

(** The loop over the items: an unknown name ends it with an error code. *)
Fixpoint lor_names (items : list string) (ret : Z) : Z :=
  match items with
  | [] => ret
  | item :: items =>
      match function_code item with
      | Some f => lor_names items (Z.lor ret f)
      | None => uec UEC_SERVICE_INVALID_VALUE
      end
  end.
Definition ConvertFromString (strFun : string) : Z :=
  if bool_decide (strFun = FUNCTION_NAME_NONE) then FUNCTION_NONE
  else if bool_decide (strFun = "") then uec UEC_SERVICE_INVALID_VALUE
  else lor_names (comma_items strFun) 0.
End Names.

(** The loop over the map, with the text so far and the separator's flag. *)
Fixpoint join_names (mapping : list (string * Z)) (function : Z) (stream : string) (flag : bool) : string :=
  match mapping with
  | [] => stream
  | (name, code) :: mapping =>
      if negb (Z.land function code =? 0)
      then join_names mapping function ((if flag then stream +:+ "," else stream) +:+ name) true
      else join_names mapping function stream flag
  end.
Definition ConvertToString (function : Z) : string :=
  if (function <=? FUNCTION_NONE) || (functionSettable_ <? function) then FUNCTION_NAME_NONE
  else join_names FUNCTION_MAPPING_N2C function "" false.

(** The loop of [BroadcastFuncChange]: [n] iterations at most, [bit] and
    [remainderFunc] of type [uint32_t]; the names in the order they are set,
    [None] when the iterations do not suffice. *)
Fixpoint func_params (n : nat) (remainderFunc bit : Z) : option (list string) :=
  if remainderFunc =? 0 then Some [] else
  match n with
  | O => None
  | S n =>
      if negb (Z.land remainderFunc bit =? 0)
      then cons (ConvertToString bit) <$>
             func_params n (Z.land remainderFunc (Z.lnot bit)) (to_u32 (Z.shiftl bit 1))
      else func_params n remainderFunc (to_u32 (Z.shiftl bit 1))
  end.

(** ** Parameters *)

(** [HDI::Usb::V2_0::IUsbDeviceInterface]; the argument of [dev_GetCurrentFunctions]
    is the out-parameter's value before the call. *)
Class UsbDeviceInterface (D : Type) := {
  HDF_ERR_NOT_SUPPORT : Z;
  dev_GetCurrentFunctions : Z → state D (Z * Z);
  dev_SetCurrentFunctions : Z → state D Z;
  dev_BindUsbdDeviceSubscriber : state D Z;
  dev_UnbindUsbdDeviceSubscriber : state D Z;
  dev_has_V2_1 : D → bool;
  dev_GetControlTransferData : Z → state D (Z * list Z);
}.

(** The delayed tasks. *)
Inductive DeviceTask := ConnectTask | DisconnectTask.
#[global] Instance DeviceTask_eq_dec : EqDecision DeviceTask.
Proof. solve_decision. Defined.

(** What the component does to the rest of the system. *)
Inductive UsbNotifyType := USB_FUNC_MTP | USB_FUNC_PTP | USB_FUNC_CHARGE | USB_FUNC_REVERSE_CHARGE.
#[global] Instance UsbNotifyType_eq_dec : EqDecision UsbNotifyType.
Proof. solve_decision. Defined.
Inductive DeviceEffect :=
  | RemoveStickyUsbState
  | PublishUsbState (connected : bool) (functions : list string)
  | PublishControlData (data : string)
  | ReportDevicePlug (currentFunctions : Z) (connected : bool)
  | ReportFuncChange (currentFunctions updateFunctions : Z)
  | ReportFault (operationType : string) (failReason : Z) (failDescription : string)
  | SendNotification (type : UsbNotifyType)
  | CancelNotification (isHost : bool)
  | SendHdcNotification
  | CancelHdcNotification
  | PopUpFunctionSwitchWindow
  | DismissFunctionSwitchWindow
  | NotifyProcessStatus.
#[global] Instance DeviceEffect_eq_dec : EqDecision DeviceEffect.
Proof. solve_decision. Defined.

(** ** State *)

Record UsbDeviceManager (D T : Type) := {
  currentFunctions_ : Z;            (* int32_t *)
  connected_ : bool;
  isReverseCharge_ : bool;
  hasHdcNotifier_ : bool;
  gadgetConnected_ : bool;
  isDisableDialog_ : bool;
  phyConnect_ : bool;
  delayDisconnTimerId_ : Z;         (* uint32_t *)
  usbDeviceInterface_ : option D;
  usbDeviceInterfaceV2_1_ : bool;   (* cast done and not null *)
  timer_ : T;
  trace_ : list DeviceEffect;       (* newest first *)
}.
Arguments currentFunctions_ {D T} _.
Arguments connected_ {D T} _.
Arguments isReverseCharge_ {D T} _.
Arguments hasHdcNotifier_ {D T} _.
Arguments gadgetConnected_ {D T} _.
Arguments isDisableDialog_ {D T} _.
Arguments phyConnect_ {D T} _.
Arguments delayDisconnTimerId_ {D T} _.
Arguments usbDeviceInterface_ {D T} _.
Arguments usbDeviceInterfaceV2_1_ {D T} _.
Arguments timer_ {D T} _.
Arguments trace_ {D T} _.
Arguments Build_UsbDeviceManager {D T} _ _ _ _ _ _ _ _ _ _ _ _.

Section Fields.
Context {D T : Type}.
Implicit Types m : UsbDeviceManager D T.
Definition set_functions (x : Z) m := let 'Build_UsbDeviceManager _ b c d e f g h i j k l := m in
  Build_UsbDeviceManager x b c d e f g h i j k l.
Definition set_connected (x : bool) m := let 'Build_UsbDeviceManager a _ c d e f g h i j k l := m in
  Build_UsbDeviceManager a x c d e f g h i j k l.
Definition set_reverse (x : bool) m := let 'Build_UsbDeviceManager a b _ d e f g h i j k l := m in
  Build_UsbDeviceManager a b x d e f g h i j k l.
Definition set_hdc (x : bool) m := let 'Build_UsbDeviceManager a b c _ e f g h i j k l := m in
  Build_UsbDeviceManager a b c x e f g h i j k l.
Definition set_gadget (x : bool) m := let 'Build_UsbDeviceManager a b c d _ f g h i j k l := m in
  Build_UsbDeviceManager a b c d x f g h i j k l.
Definition set_disable (x : bool) m := let 'Build_UsbDeviceManager a b c d e _ g h i j k l := m in
  Build_UsbDeviceManager a b c d e x g h i j k l.
Definition set_phy (x : bool) m := let 'Build_UsbDeviceManager a b c d e f _ h i j k l := m in
  Build_UsbDeviceManager a b c d e f x h i j k l.
Definition set_timer_id (x : Z) m := let 'Build_UsbDeviceManager a b c d e f g _ i j k l := m in
  Build_UsbDeviceManager a b c d e f g x i j k l.
Definition set_interface (x : option D) m := let 'Build_UsbDeviceManager a b c d e f g h _ j k l := m in
  Build_UsbDeviceManager a b c d e f g h x j k l.
Definition set_v2_1 (x : bool) m := let 'Build_UsbDeviceManager a b c d e f g h i _ k l := m in
  Build_UsbDeviceManager a b c d e f g h i x k l.
Definition set_timer (x : T) m := let 'Build_UsbDeviceManager a b c d e f g h i j _ l := m in
  Build_UsbDeviceManager a b c d e f g h i j x l.
Definition set_trace (x : list DeviceEffect) m := let 'Build_UsbDeviceManager a b c d e f g h i j k _ := m in
  Build_UsbDeviceManager a b c d e f g h i j k x.
End Fields.

(** ** Operations *)

Section Manager.
Context {D T : Type} `{!UsbDeviceInterface D, !DelayTimer DeviceTask T, !ErrCodeBase, !CJson}.
(** Whether [UsbFunctionSwitchWindow::GetInstance] returns an object, and what
    its [Init] returns. *)
Context (window_ok : bool) (window_Init : Z).

Abbreviation M := (state (UsbDeviceManager D T)).

Definition emit (x : DeviceEffect) : M () := modify (λ m, set_trace (x :: trace_ m) m).
Definition on_timer {A} (f : state T A) : M A := zoom timer_ set_timer f.

(** A call on the device interface; [None] when the pointer is null. *)
Definition on_device {A} (f : state D A) : M (option A) := λ m,
  match usbDeviceInterface_ m with
  | None => (None, m)
  | Some d => let '(a, d') := f d in (Some a, set_interface (Some d') m)
  end.

(** *** Set-up *)

Definition InitUsbDeviceInterface (interface : option D) (subscriber_ok : bool) : M bool :=
  modify (set_interface interface);;
  match interface with
  | None => mret false
  | Some _ =>
      if negb subscriber_ok then mret false else
      ret ← on_device dev_BindUsbdDeviceSubscriber; mret (default HDF_FAILURE ret =? UEC_OK)
  end.

Definition Stop : M () :=
  ret ← on_device dev_UnbindUsbdDeviceSubscriber;
  match ret with None => mret () | Some _ => emit NotifyProcessStatus end.

Definition BindUsbdSubscriber : M Z :=
  ret ← on_device dev_BindUsbdDeviceSubscriber; mret (default (uec UEC_SERVICE_INVALID_VALUE) ret).

Definition UnbindUsbdSubscriber (subscriber : bool) : M Z :=
  if negb subscriber then mret (uec UEC_SERVICE_INVALID_VALUE) else
  ret ← on_device dev_UnbindUsbdDeviceSubscriber; mret (default (uec UEC_SERVICE_INVALID_VALUE) ret).

Definition Init : Z := if negb window_ok then uec UEC_SERVICE_INNER_ERR else window_Init.

Definition SetPhyConnectState (phyConnect : bool) : M () := modify (set_phy phyConnect).
Definition SetChargeFlag (isReverseCharge : bool) : M () := modify (set_reverse isReverseCharge).
Definition IsGadgetConnected : M bool := gets gadgetConnected_.
(** The overload without arguments. *)
Definition CurrentFunctions : M Z := gets currentFunctions_.

(** *** Control data *)

Definition GetCustomControlRequestData (id : Z) : M (Z * list Z) :=
  m ← get;
  let cast := usbDeviceInterfaceV2_1_ m ||
              match usbDeviceInterface_ m with Some d => dev_has_V2_1 d | None => false end in
  modify (set_v2_1 cast);;
  if cast
  then r ← on_device (dev_GetControlTransferData id);
       mret (default (uec UEC_SERVICE_INVALID_OPERATION, []) r)
  else mret (uec UEC_SERVICE_INVALID_OPERATION, []).

Definition ProcessCustomControlRequestUevent (status : Z) : M () :=
  if negb (status =? ACT_CUSTOMCONTROLREQUEST) then mret () else
  '(ret, ueventData) ← GetCustomControlRequestData status;
  if negb (ret =? UEC_OK) then mret () else
  if negb cJSON_Create_ok then mret () else
  match cJSON_PrintUnformatted (JArray (map JNumber ueventData)) with
  | None => mret ()
  | Some pUeventDataStr => emit (PublishControlData pUeventDataStr)
  end.

(** *** Broadcasts, notifications and the window *)

Definition ReportDevicePlugSysEvent (currentFunctions : Z) (connected : bool) : M () :=
  emit (ReportDevicePlug currentFunctions connected).
(** Reports the member, not its first argument. *)
Definition ReportFuncChangeSysEvent (currentFunctions updateFunctions : Z) : M () :=
  cur ← gets currentFunctions_; emit (ReportFuncChange cur updateFunctions).
Definition ReportUsbOperationFaultSysEvent (operationType : string) (failReason : Z)
  (failDescription : string) : M () := emit (ReportFault operationType failReason failDescription).

(** Thirty-two iterations reach every bit. *)
Definition BroadcastFuncChange (connected : bool) (currentFunc : Z) : M () :=
  emit RemoveStickyUsbState;;
  emit (PublishUsbState connected (default [] (func_params 32 (to_u32 currentFunc) 1)));;
  ReportDevicePlugSysEvent currentFunc connected.

Definition ProcessFunctionNotifier (connected : bool) (func : Z) : M () :=
  let func_uint := to_u32 func in
  if connected then
    reverse ← gets isReverseCharge_;
    (if has_flag func_uint USB_FUNCTION_MTP then emit (SendNotification USB_FUNC_MTP)
     else if has_flag func_uint USB_FUNCTION_PTP then emit (SendNotification USB_FUNC_PTP)
     else if (reverse : bool) then emit (SendNotification USB_FUNC_REVERSE_CHARGE)
     else emit (SendNotification USB_FUNC_CHARGE));;
    hdc ← gets hasHdcNotifier_;
    (if has_flag func_uint USB_FUNCTION_HDC && negb hdc
     then emit SendHdcNotification;; modify (set_hdc true) else mret ());;
    hdc ← gets hasHdcNotifier_;
    (if negb (has_flag func_uint USB_FUNCTION_HDC) && hdc
     then emit CancelHdcNotification;; modify (set_hdc false) else mret ())
  else
    emit (CancelNotification false);;
    hdc ← gets hasHdcNotifier_;
    if (hdc : bool) then emit CancelHdcNotification;; modify (set_hdc false) else mret ().

Definition ProcessFunctionSwitchWindow (connected : bool) : M () :=
  if negb window_ok then mret ()
  else if connected then emit PopUpFunctionSwitchWindow else emit DismissFunctionSwitchWindow.

Definition ProcessFuncChange (connected : bool) (currentFunc : Z) : M () :=
  BroadcastFuncChange connected currentFunc;;
  disable ← gets isDisableDialog_;
  (if negb disable then ProcessFunctionSwitchWindow connected else mret ());;
  ProcessFunctionNotifier connected currentFunc.

(** *** Changing functions *)

(** The overload with the out-parameter: the code and its value afterwards. *)
Definition GetCurrentFunctions (funcs : Z) : M (Z * Z) :=
  r ← on_device (dev_GetCurrentFunctions funcs);
  mret (default (uec UEC_SERVICE_INVALID_VALUE, funcs) r).

Definition UpdateFunctions (func : Z) : M () :=
  cur ← gets currentFunctions_;
  if func =? cur then mret () else
  ReportFuncChangeSysEvent cur func;;
  modify (set_functions func);;
  connected ← gets connected_;
  gadget ← gets gadgetConnected_;
  (if negb connected && gadget then mret () else BroadcastFuncChange connected func);;
  ProcessFunctionNotifier connected func.

(** [uninit] is the value of the uninitialised [lastFunc]. *)
Definition SetCurrentFunctions (uninit funcs : Z) : M Z :=
  r ← on_device (dev_GetCurrentFunctions uninit);
  match r with
  | None => mret (uec UEC_SERVICE_INVALID_VALUE)
  | Some (code, lastFunc) =>
      if negb (code =? UEC_OK) then
        ReportUsbOperationFaultSysEvent "FUNCTION_CHANGED" (uec UEC_SERVICE_INVALID_VALUE)
          "DevIntfGetFunc is failed";;
        mret (uec UEC_SERVICE_INVALID_VALUE)
      else if lastFunc =? funcs then mret UEC_OK else
      r ← on_device (dev_SetCurrentFunctions funcs);
      let ret := default HDF_FAILURE r in
      if negb (ret =? UEC_OK) then
        ReportUsbOperationFaultSysEvent "FUNCTION_CHANGED" ret "DevIntfSetFunc is failed";;
        if ret =? HDF_ERR_NOT_SUPPORT then mret (uec UEC_SERVICE_FUNCTION_NOT_SUPPORT) else mret ret
      else UpdateFunctions funcs;; mret UEC_OK
  end.

(** The functions left when MTP and PTP are dropped. *)
Definition without_transfer (funcs : Z) : Z :=
  let func := Z.land (Z.land (to_u32 funcs) (Z.lnot USB_FUNCTION_MTP)) (Z.lnot USB_FUNCTION_PTP) in
  if func =? 0 then USB_FUNCTION_STORAGE else func.

(** [None]: the null interface is dereferenced. *)
Definition UserChangeProcess : M (option Z) :=
  cur ← gets currentFunctions_;
  ret ← (if has_flag (to_u32 cur) USB_FUNCTION_MTP || has_flag (to_u32 cur) USB_FUNCTION_PTP then
           let funcs := to_i32 (without_transfer cur) in
           r ← on_device (dev_SetCurrentFunctions funcs);
           match r with
           | None => mret None
           | Some ret =>
               (if (ret =? UEC_OK) && negb (funcs =? cur) then
                  modify (set_functions funcs);;
                  ReportFuncChangeSysEvent funcs funcs;;
                  connected ← gets connected_;
                  BroadcastFuncChange connected funcs
                else mret ());;
               mret (Some ret)
           end
         else mret (Some HDF_FAILURE));
  match ret with
  | None => mret None
  | Some ret =>
      connected ← gets connected_;
      cur ← gets currentFunctions_;
      ProcessFunctionNotifier connected cur;; mret (Some ret)
  end.

(** *** Device events and the delayed tasks *)

(** Returns [curConnect]. *)
Definition ProcessStatus (status : Z) (curConnect : bool) : M bool :=
  if status =? ACT_UPDEVICE then modify (set_gadget true);; mret true
  else if status =? ACT_DOWNDEVICE then modify (set_gadget false);; mret false
  else if (status =? ACT_ACCESSORYUP) || (status =? ACT_ACCESSORYDOWN) ||
          (status =? ACT_ACCESSORYSEND) || (status =? ACT_CUSTOMCONTROLREQUEST)
  then modify (set_disable true);; ProcessFunctionSwitchWindow false;; mret curConnect
  else mret curConnect.

(** The lambda of the connect branch. *)
Definition run_connect : M () :=
  modify (set_connected true);;
  cur ← gets currentFunctions_;
  '(_, cur) ← GetCurrentFunctions cur;
  modify (set_functions cur);;
  ProcessFuncChange true cur.

(** The lambda of the disconnect branch. *)
Definition run_disconnect : M () :=
  modify (set_connected false);;
  modify (set_disable false);;
  cur ← gets currentFunctions_;
  (if has_flag (to_u32 cur) USB_FUNCTION_MTP || has_flag (to_u32 cur) USB_FUNCTION_PTP then
     let left := to_i32 (Z.land (Z.land (to_u32 cur) (Z.lnot USB_FUNCTION_MTP)) (Z.lnot USB_FUNCTION_PTP)) in
     let left := if left =? 0 then USB_FUNCTION_STORAGE else left in
     modify (set_functions left);;
     _ ← on_device (dev_SetCurrentFunctions left); mret ()
   else if has_flag (to_u32 cur) USB_FUNCTION_DEVMODE_AUTH then
     modify (set_functions USB_FUNCTION_STORAGE);;
     _ ← on_device (dev_SetCurrentFunctions USB_FUNCTION_STORAGE); mret ()
   else mret ());;
  cur ← gets currentFunctions_;
  ProcessFuncChange false cur.

Definition run_task (task : DeviceTask) : M () :=
  match task with ConnectTask => run_connect | DisconnectTask => run_disconnect end.

Definition HandleEvent (status : Z) : M () :=
  m ← get;
  match usbDeviceInterface_ m with
  | None => mret ()
  | Some _ =>
      curConnect ← ProcessStatus status false;
      id ← gets delayDisconnTimerId_;
      on_timer (timer_Unregister id);;
      connected ← gets connected_;
      if (curConnect : bool) && negb (Bool.eqb connected curConnect) then
        id ← on_timer (timer_Register ConnectTask DELAY_CONNECT_INTERVAL true);
        modify (set_timer_id id)
      else if negb curConnect && negb (Bool.eqb connected curConnect) then
        phy ← gets phyConnect_;
        let delayTime := if (phy : bool) then DELAY_DISCONN_INTERVAL + DELAY_DISCONN_INTERVAL
                         else DELAY_DISCONN_INTERVAL in
        id ← on_timer (timer_Register DisconnectTask delayTime true);
        modify (set_timer_id id)
      else mret ()
  end.

(** *** The dump command: the texts printed, in order *)

(** Whether the image is built with [USB_MANAGER_HIDUMPER_SET]. *)
Context (hidumper_set : bool).

Definition GetDumpHelp : list string :=
  ["========= dump the all device function =========";
   "usb_device -a:    Query all function";
   "usb_device -f Q:  Query Current function"] ++
  (if hidumper_set then
     ["usb_device -f 0:  Switch to function:none"; "usb_device -f 1:  Switch to function:acm";
      "usb_device -f 2:  Switch to function:ecm"; "usb_device -f 3:  Switch to function:acm&ecm";
      "usb_device -f 4:  Switch to function:hdc"; "usb_device -f 5:  Switch to function:acm&hdc";
      "usb_device -f 6:  Switch to function:ecm&hdc"; "usb_device -f 32: Switch to function:rndis";
      "usb_device -f 512:Switch to function:storage"; "usb_device -f 36: Switch to function:rndis&hdc";
      "usb_device -f 516:Switch to function:storage&hdc"]
   else []) ++ ["------------------------------------------------"].

Definition DumpGetSupportFunc : M (list string) :=
  cur ← gets currentFunctions_;
  mret ["Usb Device function list info:";
        "current function: " +:+ ConvertToString (to_u32 cur);
        "supported functions list: " +:+ ConvertToString functionSettable_].

(** [strtol] and the range and end tests. *)
Definition StringToInteger (str : string) : option Z :=
  let '(neg, d, rest) := scan_number (c_str str) in
  let number := if (neg : bool) then - digits_value d else digits_value d in
  if (number <? - 2 ^ 31) || (2 ^ 31 - 1 <? number) then None
  else if bool_decide (d = "") || negb (bool_decide (rest = "")) then None
  else Some number.

Definition DumpSetFunc (uninit : Z) (args : string) : M (list string) :=
  let query : M (list string) :=
    r ← on_device (dev_GetCurrentFunctions uninit);
    match r with
    | None => mret []
    | Some (ret, currentFunction) =>
        mret (if negb (ret =? UEC_OK) then ["GetCurrentFunctions failed: " +:+ pretty ret]
              else ["current function: " +:+ ConvertToString (to_u32 currentFunction)])
    end in
  m ← get;
  match usbDeviceInterface_ m with
  | None => mret []
  | Some _ =>
      if bool_decide (args = "Q") then query else
      if hidumper_set then
        if negb (match_digits args) then mret ("Invalid input, please enter a valid integer" :: GetDumpHelp)
        else if (MAX_INPUT_STRING_NUMBER_SIZE <? String.length args)%nat
        then mret ["Invalid input, value out of range"]
        else match StringToInteger args with
             | None => mret ("Invalid input, the number is out of range" :: GetDumpHelp)
             | Some mode =>
                 r ← on_device (dev_SetCurrentFunctions mode);
                 if negb (default HDF_FAILURE r =? UEC_OK) then mret ["SetCurrentFunctions failed"] else query
             end
      else mret ("Invalid input, please enter a valid argument" :: GetDumpHelp)
  end.

Definition Dump (uninit : Z) (args : list string) : M (list string) :=
  if (length args <? 2)%nat || (3 <? length args)%nat then mret GetDumpHelp
  else if bool_decide (nth 1 args "" = "-a") && (length args =? 2)%nat then DumpGetSupportFunc
  else if bool_decide (nth 1 args "" = "-f") && (length args =? 3)%nat
  then DumpSetFunc uninit (nth 2 args "")
  else mret ("func param error, please enter again" :: GetDumpHelp).
End Manager.
