(* ===== verification/UsbDeviceProofs.v ===== *)
(** * Theorems of the device manager

    Function masks and names, the broadcast loop, the delayed tasks as a step
    relation and the invariants of its reachable states. *)
From S2P Require Import Prelude UsbErrors Platform UsbDeviceManager.

(** ** Names *)

Definition comma_free (s : string) : Prop := s ≠ "" ∧ comma_items s = [s].

Lemma comma_items_ne c s : comma_items (String c s) ≠ [].
Proof. cbn [comma_items]. case_bool_decide; [done|]. by destruct (comma_items s). Qed.

Lemma comma_items_first s t : comma_free s →
  comma_items (s +:+ "," +:+ t) = s :: comma_items t ∧ (t = "" → comma_items s = [s]).
Proof.
  intros [Hne Hs]. split; [|done]. revert Hne Hs. induction s as [|c s IH]; [done|].
  intros _ Hs. cbn [comma_items] in Hs. change (String c s +:+ "," +:+ t) with (String c (s +:+ "," +:+ t)).
  cbn [comma_items]. case_bool_decide; [by destruct s; simplify_eq|].
  destruct s as [|c' s].
  { change ("" +:+ "," +:+ t) with (String "," t). cbn [comma_items]. done. }
  assert (comma_items (String c' s) = [String c' s]) as Hs'.
  { destruct (comma_items (String c' s)) eqn:E; [by apply comma_items_ne in E|]. by simplify_eq. }
  rewrite IH by done. done.
Qed.

Lemma comma_items_concat l : l ≠ [] → Forall comma_free l → comma_items (String.concat "," l) = l.
Proof.
  induction l as [|s l IH]; [done|]. intros _ [Hs Hl]%Forall_cons. destruct l as [|s' l]; [apply Hs|].
  change (String.concat "," (s :: s' :: l)) with (s +:+ "," +:+ String.concat "," (s' :: l)).
  destruct (comma_items_first s (String.concat "," (s' :: l)) Hs) as [-> _]. by rewrite IH.
Qed.

Lemma known_comma_free s f : function_code s = Some f → comma_free s.
Proof.
  intros H. assert (s ∈ FUNCTION_MAPPING_N2C.*1) as Hin.
  { unfold function_code in H. destruct (find _ _) as [p|] eqn:E; [|done].
    apply List.find_some in E as [Hp Hs%bool_decide_eq_true]. apply list_elem_of_fmap.
    exists p. split; [done|]. by apply list_elem_of_In. }
  assert (Forall (λ s, bool_decide (s ≠ "") && bool_decide (comma_items s = [s]) = true) FUNCTION_MAPPING_N2C.*1) as HF.
  { apply (bool_decide_unpack _). by vm_compute. }
  rewrite Forall_forall in HF. specialize (HF _ Hin).
  apply andb_true_iff in HF as [?%bool_decide_eq_true ?%bool_decide_eq_true]. done.
Qed.

Section Names.
Context `{!ErrCodeBase}.

Lemma lor_names_spec l ret : lor_names l ret =
  match mapM function_code l with
  | Some fs => fold_left Z.lor fs ret
  | None => uec UEC_SERVICE_INVALID_VALUE
  end.
Proof.
  revert ret. induction l as [|s l IH]; intros ret; [done|]. cbn [lor_names mapM].
  destruct (function_code s) as [f|]; [|done]. simpl. rewrite IH. by destruct (mapM _ l).
Qed.

Lemma concat_ne l : l ≠ [] → Forall comma_free l → String.concat "," l ≠ "".
Proof.
  destruct l as [|s l]; [done|]. intros _ [[Hs _] _]%Forall_cons. destruct s; [done|].
  by destruct l.
Qed.

Lemma from_concat l : l ≠ [] → Forall comma_free l →
  ConvertFromString (String.concat "," l) =
    match mapM function_code l with
    | Some fs => fold_left Z.lor fs 0
    | None => uec UEC_SERVICE_INVALID_VALUE
    end.
Proof.
  intros Hne Hf. unfold ConvertFromString. case_bool_decide as Hn.
  - pose proof (comma_items_concat l Hne Hf) as Hc. rewrite Hn in Hc.
    assert (l = ["none"]) as -> by (rewrite <- Hc; reflexivity). done.
  - rewrite bool_decide_eq_false_2 by by apply concat_ne.
    by rewrite comma_items_concat, lor_names_spec.
Qed.

(** Every settable mask, in one evaluation. *)
Definition settable_masks : list Z :=
  List.filter IsSettableFunctions (seqZ 0 1024).
Lemma settable_roundtrip : Forall (λ f, ConvertFromString (ConvertToString f) = f) settable_masks.
Proof. apply (bool_decide_unpack _). vm_compute. reflexivity. Qed.

Lemma settable_in f : in_u32 f → IsSettableFunctions f = true → f ∈ settable_masks.
Proof.
  intros Hf Hs. apply list_elem_of_In, List.filter_In. split; [|done].
  apply list_elem_of_In, elem_of_seqZ. split; [apply Hf|].
  unfold IsSettableFunctions in Hs. rewrite to_u32_id in Hs by done.
  apply orb_true_iff in Hs as [Hs|Hs]; zbool; [unfold FUNCTION_NONE in Hs; lia|].
  destruct (Z_lt_ge_dec f 1024) as [|Hge]; [done|]. exfalso.
  assert (0 < f) as Hpos by lia. pose proof (Z.log2_spec f Hpos) as [Hlo _].
  assert (10 <= Z.log2 f) as Hlog by (apply (Z.log2_le_mono 1024 f); lia).
  assert (Z.testbit (Z.land (Z.lnot functionSettable_) f) (Z.log2 f) = true) as Hb.
  { rewrite Z.land_spec, Z.lnot_spec, Z.bit_log2 by lia. rewrite andb_true_r, negb_true_iff.
    apply Z.bits_above_log2; [done|]. change (Z.log2 functionSettable_) with 9. lia. }
  by rewrite Hs, Z.bits_0 in Hb.
Qed.
End Names.

(** ** The broadcast loop *)

Lemma land_pow2_testbit x i : 0 <= i → (Z.land x (2 ^ i) =? 0) = negb (Z.testbit x i).
Proof.
  intros Hi. destruct (Z.testbit x i) eqn:Hb; cbn [negb].
  - apply Z.eqb_neq. intros H. assert (Z.testbit (Z.land x (2 ^ i)) i = true) as Hc.
    { by rewrite Z.land_spec, Hb, Z.pow2_bits_true. }
    by rewrite H, Z.bits_0 in Hc.
  - apply Z.eqb_eq, Z.bits_inj'. intros j Hj. rewrite Z.bits_0, Z.land_spec, Z.pow2_bits_eqb by done.
    destruct (i =? j) eqn:E; [|by rewrite andb_false_r]. zbool. subst. by rewrite Hb.
Qed.

Definition set_bit_names (x i n : Z) : list string :=
  map (λ j, ConvertToString (2 ^ j)) (List.filter (Z.testbit x) (seqZ i n)).

Lemma func_params_spec n i x : 0 <= i → i + Z.of_nat n = 32 → in_u32 x → (∀ j, 0 <= j < i → Z.testbit x j = false) →
  func_params n x (to_u32 (2 ^ i)) = Some (set_bit_names x i (Z.of_nat n)).
Proof.
  revert i x. induction n as [|n IH]; intros i x Hi Hn Hx Hlow.
  - assert (x = 0) as ->; [|done]. apply Z.bits_inj'. intros j Hj. rewrite Z.bits_0.
    destruct (Z_lt_ge_dec j i); [by apply Hlow|].
    destruct (Z.eq_dec x 0) as [->|]; [apply Z.bits_0|]. apply Z.bits_above_log2; [apply Hx|].
    apply Z.lt_le_trans with 32; [|lia]. apply Z.log2_lt_pow2; unfold in_u32 in Hx; lia.
  - cbn [func_params]. destruct (x =? 0) eqn:E.
    { zbool. subst. unfold set_bit_names. f_equal. symmetry. induction (seqZ i (Z.of_nat (S n))) as [|a l IHl]; [done|].
      cbn [List.filter]. by rewrite Z.bits_0. }
    assert (0 <= 2 ^ i < 2 ^ 32) as Hp by (split; [lia|apply Z.pow_lt_mono_r; lia]).
    rewrite (to_u32_id (2 ^ i)) by exact Hp. rewrite land_pow2_testbit, negb_involutive by done.
    assert (Z.shiftl (2 ^ i) 1 = 2 ^ (i + 1)) as -> by (rewrite Z.shiftl_mul_pow2, <- Z.pow_add_r by lia; done).
    unfold set_bit_names. rewrite Nat2Z.inj_succ, seqZ_cons by lia. cbn [List.filter].
    rewrite Z.pred_succ, <- (Z.add_1_r i).
    destruct (Z.testbit x i) eqn:Hb.
    + set (x' := Z.land x (Z.lnot (2 ^ i))).
      assert (∀ j, 0 <= j → Z.testbit x' j = Z.testbit x j && negb (i =? j)) as Hx'.
      { intros j Hj. unfold x'. by rewrite Z.land_spec, Z.lnot_spec, Z.pow2_bits_eqb. }
      rewrite IH; [| lia | lia | | ].
      * cbn [fmap option_fmap option_map map]. unfold set_bit_names.
        assert (∀ l, (∀ j, In j l → i < j) → List.filter (Z.testbit x') l = List.filter (Z.testbit x) l) as Heq.
        { induction l as [|j l IHl]; intros Hgt; [done|]. cbn [List.filter].
          assert (i < j) by (apply Hgt; by left). rewrite Hx' by lia.
          replace (i =? j) with false by (symmetry; apply Z.eqb_neq; lia).
          rewrite andb_true_r, IHl by (intros; apply Hgt; by right). done. }
        rewrite Heq; [done|]. intros j Hj%list_elem_of_In%elem_of_seqZ. lia.
      * unfold x'. split; [apply Z.land_nonneg; left; apply Hx|].
        apply Z.bounded_iff_bits_nonneg'; [lia|apply Z.land_nonneg; left; apply Hx|].
        intros j Hj. rewrite Z.land_spec. apply andb_false_iff. left.
        apply (Z.bounded_iff_bits_nonneg' 32 x); [lia|apply Hx|apply Hx|done].
      * intros j Hj. rewrite Hx' by lia. destruct (Z.eq_dec j i) as [->|]; [by rewrite Z.eqb_refl, andb_false_r|].
        rewrite Hlow by lia. done.
    + rewrite IH; [|lia|lia|done|].
      * done.
      * intros j Hj. destruct (Z.eq_dec j i) as [->|]; [done|]. apply Hlow. lia.
Qed.

(** ** Delayed tasks *)

(** The newest HDC notification action in a trace: shown or not. *)
Fixpoint hdc_shown (trace : list DeviceEffect) : bool :=
  match trace with
  | [] => false
  | SendHdcNotification :: _ => true
  | CancelHdcNotification :: _ => false
  | _ :: trace => hdc_shown trace
  end.

Section Steps.
Context {D T : Type} `{!UsbDeviceInterface D, !DelayTimer DeviceTask T, !DelayTimerLaws DeviceTask T, !ErrCodeBase, !CJson}.
Context (window_ok : bool).
Implicit Types m : UsbDeviceManager D T.

Abbreviation M := (state (UsbDeviceManager D T)).

(** The steps of the component: its entry points, each under [deviceMutex_],
    and the timer running a task, which it then forgets. *)
Inductive device_step : UsbDeviceManager D T → UsbDeviceManager D T → Prop :=
  | step_event status m : device_step m (HandleEvent window_ok status m).2
  | step_control status m : device_step m (ProcessCustomControlRequestUevent status m).2
  | step_update func m : device_step m (UpdateFunctions func m).2
  | step_set uninit funcs m : device_step m (SetCurrentFunctions uninit funcs m).2
  | step_user m : device_step m (UserChangeProcess m).2
  | step_phy b m : device_step m (SetPhyConnectState b m).2
  | step_charge b m : device_step m (SetChargeFlag b m).2
  | step_fire id task t' m : pending (timer_ m) !! id = Some task →
      pending t' = delete id (pending (timer_ m)) →
      device_step m (run_task window_ok task (set_timer t' m)).2.

(** At most one task is pending, it is the one whose identifier is kept, and it
    would change the connection. *)
Definition timer_inv m : Prop :=
  ∀ id task, pending (timer_ m) !! id = Some task →
    id = delayDisconnTimerId_ m ∧
    task = (if connected_ m then DisconnectTask else ConnectTask).

(** The HDC notification is shown, and known to be, exactly while the device is
    connected with the HDC function. *)
Definition hdc_inv m : Prop :=
  hasHdcNotifier_ m = connected_ m && has_flag (to_u32 (currentFunctions_ m)) USB_FUNCTION_HDC ∧
  hdc_shown (trace_ m) = hasHdcNotifier_ m.

(** What an action leaves alone: the fields of [timer_inv], of [hdc_inv]. *)
Definition same_timer m m' : Prop :=
  timer_ m' = timer_ m ∧ delayDisconnTimerId_ m' = delayDisconnTimerId_ m ∧ connected_ m' = connected_ m.
Definition same_hdc m m' : Prop :=
  hasHdcNotifier_ m' = hasHdcNotifier_ m ∧ hdc_shown (trace_ m') = hdc_shown (trace_ m) ∧
  connected_ m' = connected_ m ∧ currentFunctions_ m' = currentFunctions_ m.

Lemma same_timer_inv m m' : same_timer m m' → timer_inv m → timer_inv m'.
Proof. intros (H1 & H2 & H3). unfold timer_inv. by rewrite H1, H2, H3. Qed.
Lemma same_hdc_inv m m' : same_hdc m m' → hdc_inv m → hdc_inv m'.
Proof. intros (H1 & H2 & H3 & H4) [K1 K2]. unfold hdc_inv. rewrite H1, H2, H3, H4. done. Qed.

(** The state after a notifier run. *)
Lemma notifier_run c f m : hdc_shown (trace_ m) = hasHdcNotifier_ m →
  let m' := (ProcessFunctionNotifier c f m).2 in
  same_timer m m' ∧ currentFunctions_ m' = currentFunctions_ m ∧
  hasHdcNotifier_ m' = c && has_flag (to_u32 f) USB_FUNCTION_HDC ∧
  hdc_shown (trace_ m') = hasHdcNotifier_ m' ∧ usbDeviceInterface_ m' = usbDeviceInterface_ m.
Proof.
  intros Ht. destruct m as [a b r h g i p d o v t tr]. cbn in Ht. subst h.
  unfold ProcessFunctionNotifier, same_timer, emit. run_unfold.
  destruct c; cbn; [|destruct (hdc_shown tr) eqn:E; cbn; by rewrite ?E].
  destruct (has_flag (to_u32 f) USB_FUNCTION_MTP), (has_flag (to_u32 f) USB_FUNCTION_PTP), r;
    cbn; destruct (hdc_shown tr) eqn:E, (has_flag (to_u32 f) USB_FUNCTION_HDC); cbn; by rewrite ?E.
Qed.

Lemma broadcast_run c f m :
  let m' := (BroadcastFuncChange c f m).2 in
  same_timer m m' ∧ same_hdc m m' ∧ usbDeviceInterface_ m' = usbDeviceInterface_ m.
Proof. by destruct m. Qed.

Lemma window_run (c b : bool) m :
  let m' := ((if negb b then ProcessFunctionSwitchWindow window_ok c else mret ()) m).2 in
  same_timer m m' ∧ same_hdc m m'.
Proof.
  destruct b; cbn [negb]; [done|]. unfold ProcessFunctionSwitchWindow.
  destruct window_ok; cbn [negb]; [|done]. by destruct c, m.
Qed.

Lemma func_change_run c f m : hdc_shown (trace_ m) = hasHdcNotifier_ m →
  let m' := (ProcessFuncChange window_ok c f m).2 in
  same_timer m m' ∧ currentFunctions_ m' = currentFunctions_ m ∧
  hasHdcNotifier_ m' = c && has_flag (to_u32 f) USB_FUNCTION_HDC ∧
  hdc_shown (trace_ m') = hasHdcNotifier_ m'.
Proof.
  intros Ht. unfold ProcessFuncChange. rewrite bind_run.
  destruct (broadcast_run c f m) as (H1 & H2 & _). set (m1 := (BroadcastFuncChange c f m).2) in *.
  rewrite bind_run. cbn [gets fst snd]. rewrite bind_run.
  destruct (window_run c (isDisableDialog_ m1) m1) as [H3 H4].
  match type of H3 with same_timer _ ?x => set (m2 := x) in * end.
  pose proof (notifier_run c f m2) as H5. destruct H1 as (? & ? & ?), H2 as (? & ? & ? & ?),
    H3 as (? & ? & ?), H4 as (? & ? & ? & ?), H5 as ((? & ? & ?) & ? & ? & ? & _); [congruence|].
  unfold same_timer. repeat split; congruence.
Qed.

(** A device call changes only the interface. *)
Lemma on_device_run {A} (f : state D A) m :
  same_timer m (on_device f m).2 ∧ same_hdc m (on_device f m).2.
Proof.
  unfold on_device. destruct (usbDeviceInterface_ m); [|done].
  destruct (f d). by destruct m.
Qed.

Lemma hdc_inv_update f m : timer_inv m → hdc_inv m →
  timer_inv (UpdateFunctions f m).2 ∧ hdc_inv (UpdateFunctions f m).2.
Proof.
  intros Hti Hh. unfold UpdateFunctions. rewrite bind_run. cbn [gets fst snd].
  destruct (f =? currentFunctions_ m); [done|].
  rewrite bind_run. set (m1 := (ReportFuncChangeSysEvent _ f m).2).
  rewrite bind_run. cbn [modify fst snd]. set (m2 := set_functions f m1).
  rewrite bind_run. cbn [gets fst snd]. rewrite bind_run. cbn [gets fst snd]. rewrite bind_run.
  assert (let m3 := ((if negb (connected_ m2) && gadgetConnected_ m2 then mret ()
                      else BroadcastFuncChange (connected_ m2) f) m2).2 in
    same_timer m m3 ∧ currentFunctions_ m3 = f ∧ hdc_shown (trace_ m3) = hasHdcNotifier_ m3) as (H1 & H2 & H3).
  { unfold m2, m1. destruct Hh as [_ Hh]. destruct m. cbn in Hh. cbn. by destruct (negb _ && _). }
  match type of H1 with same_timer _ ?x => set (m3 := x) in * end.
  pose proof (notifier_run (connected_ m2) f m3 H3) as (H4 & H5 & H6 & H7 & _).
  assert (connected_ m2 = connected_ m) as Hc by (by unfold m2, m1; destruct m). rewrite Hc in *.
  destruct H1 as (? & ? & ?), H4 as (? & ? & ?).
  split; [apply (same_timer_inv m); [repeat split; congruence|done]|].
  split; congruence.
Qed.

Lemma inv_set uninit f m : timer_inv m → hdc_inv m →
  timer_inv (SetCurrentFunctions uninit f m).2 ∧ hdc_inv (SetCurrentFunctions uninit f m).2.
Proof.
  intros Hti Hh. unfold SetCurrentFunctions. rewrite bind_run.
  destruct (on_device_run (dev_GetCurrentFunctions uninit) m) as [H1 H2].
  apply (same_timer_inv _ _ H1) in Hti. apply (same_hdc_inv _ _ H2) in Hh. clear H1 H2.
  destruct (on_device (dev_GetCurrentFunctions uninit) m) as [r m1]. cbn [fst snd] in *.
  assert (∀ a b c x, timer_inv x → hdc_inv x →
    timer_inv (ReportUsbOperationFaultSysEvent a b c x).2 ∧ hdc_inv (ReportUsbOperationFaultSysEvent a b c x).2) as Hrep
    by (by intros ? ? ? []).
  destruct r as [[code last]|]; [|done].
  destruct (negb (code =? UEC_OK)); [rewrite bind_run; by apply Hrep|].
  destruct (last =? f); [done|]. rewrite bind_run.
  destruct (on_device_run (dev_SetCurrentFunctions f) m1) as [H1 H2].
  apply (same_timer_inv _ _ H1) in Hti. apply (same_hdc_inv _ _ H2) in Hh.
  destruct (on_device (dev_SetCurrentFunctions f) m1) as [r m2]. cbn [fst snd] in *. cbv zeta.
  destruct (negb _); rewrite bind_run.
  - destruct (_ =? _); by apply Hrep.
  - by apply hdc_inv_update.
Qed.

(** The invariants up to a notifier run that is still to come: the flag and the
    trace agree. *)
Lemma notify_inv m : timer_inv m → hdc_shown (trace_ m) = hasHdcNotifier_ m →
  let m' := (ProcessFunctionNotifier (connected_ m) (currentFunctions_ m) m).2 in timer_inv m' ∧ hdc_inv m'.
Proof.
  intros Hti Ht. destruct (notifier_run (connected_ m) (currentFunctions_ m) m Ht) as (H1 & H2 & H3 & H4 & _).
  split; [by apply (same_timer_inv m)|]. destruct H1 as (? & ? & ?). split; congruence.
Qed.

Lemma inv_user m : timer_inv m → hdc_inv m →
  timer_inv (UserChangeProcess m).2 ∧ hdc_inv (UserChangeProcess m).2.
Proof.
  intros Hti Hh. unfold UserChangeProcess. rewrite bind_run. cbn [gets fst snd].
  destruct (_ || _).
  - cbv zeta. set (funcs := to_i32 _). rewrite !bind_run.
    destruct (on_device_run (dev_SetCurrentFunctions funcs) m) as [H1 H2].
    apply (same_timer_inv _ _ H1) in Hti. apply (same_hdc_inv _ _ H2) in Hh. destruct H2 as (_ & _ & _ & Hcur).
    destruct (on_device (dev_SetCurrentFunctions funcs) m) as [r m1]. cbn [fst snd] in *.
    destruct r as [ret|]; [|done]. rewrite bind_run.
    assert (let m2 := ((if (ret =? UEC_OK) && negb (funcs =? currentFunctions_ m) then
                  modify (set_functions funcs);;
                  ReportFuncChangeSysEvent funcs funcs;;
                  connected ← gets connected_;
                  BroadcastFuncChange connected funcs
                else mret ()) m1).2 in
      timer_inv m2 ∧ hdc_shown (trace_ m2) = hasHdcNotifier_ m2) as [K1 K2].
    { destruct Hh as [_ Hh]. destruct m1. cbn in Hh. by destruct (_ && _). }
    match type of K1 with timer_inv ?x => set (m2 := x) in * end.
    cbn [fst snd]. rewrite ret_run. cbn [fst snd].
    rewrite ?bind_run, ?ret_run. by apply notify_inv.
  - rewrite ?bind_run, ?ret_run. cbn [fst snd]. rewrite ?bind_run, ?ret_run.
    apply notify_inv; [done|]. apply Hh.
Qed.

Lemma inv_control status m : timer_inv m → hdc_inv m →
  timer_inv (ProcessCustomControlRequestUevent status m).2 ∧ hdc_inv (ProcessCustomControlRequestUevent status m).2.
Proof.
  intros Hti Hh. unfold ProcessCustomControlRequestUevent. destruct (negb (status =? _)); [done|].
  rewrite bind_run.
  assert (timer_inv (GetCustomControlRequestData status m).2 ∧ hdc_inv (GetCustomControlRequestData status m).2) as [K1 K2].
  { unfold GetCustomControlRequestData. rewrite bind_run. cbn [get fst snd]. cbv zeta. rewrite bind_run.
    cbn [modify fst snd]. set (cast := _ || _).
    assert (timer_inv (set_v2_1 cast m) ∧ hdc_inv (set_v2_1 cast m)) as [? ?] by (by destruct m).
    destruct cast; [|done]. rewrite bind_run, ret_run. cbn [snd].
    destruct (on_device_run (dev_GetControlTransferData status) (set_v2_1 true m)) as [K3 K4].
    split; [by apply (same_timer_inv _ _ K3)|by apply (same_hdc_inv _ _ K4)]. }
  destruct (GetCustomControlRequestData status m) as [[ret data] m1]. cbn [fst snd] in *.
  destruct (negb _); [done|]. destruct (negb _); [done|].
  destruct (cJSON_PrintUnformatted _); [|done]. by destruct m1.
Qed.

(** An event only changes the tasks: afterwards at most the one it calls for is
    pending. *)
Lemma event_run status m : timer_inv m → hdc_inv m →
  let m' := (HandleEvent window_ok status m).2 in
  connected_ m' = connected_ m ∧ timer_inv m' ∧ hdc_inv m' ∧
  (usbDeviceInterface_ m ≠ None → Bool.eqb (connected_ m) (status =? ACT_UPDEVICE) = true →
     pending (timer_ m') = ∅).
Proof.
  intros Hti Hh. unfold HandleEvent. rewrite bind_run. cbn [get fst snd].
  destruct (usbDeviceInterface_ m) as [d|] eqn:Hd; [|done]. rewrite bind_run.
  assert (let r := ProcessStatus window_ok status false m in r.1 = (status =? ACT_UPDEVICE) ∧
    same_timer m r.2 ∧ same_hdc m r.2) as (Hcur & Hst & Hsh).
  { unfold ProcessStatus. destruct (status =? ACT_UPDEVICE) eqn:E1; [by destruct m|].
    destruct (status =? ACT_DOWNDEVICE); [by destruct m|].
    destruct (_ || _ || _ || _); [|done]. rewrite bind_run. cbn [modify fst snd].
    unfold ProcessFunctionSwitchWindow. destruct window_ok; by destruct m. }
  destruct (ProcessStatus window_ok status false m) as [cur m1]. cbn [fst snd] in *. subst cur.
  pose proof (same_timer_inv _ _ Hst Hti) as Hti1. pose proof (same_hdc_inv _ _ Hsh Hh) as Hh1.
  destruct Hst as (_ & _ & Hc). rewrite bind_run. cbn [gets fst snd]. rewrite bind_run.
  assert (let m2 := (on_timer (timer_Unregister (delayDisconnTimerId_ m1)) m1).2 in
    pending (timer_ m2) = ∅ ∧ connected_ m2 = connected_ m ∧ hdc_inv m2) as (He & Hc2 & Hh2).
  { unfold on_timer, zoom. pose proof (law_unregister (delayDisconnTimerId_ m1) (timer_ m1)) as HU.
    destruct (timer_Unregister _ (timer_ m1)) as [[] t']. cbn [fst snd] in *.
    destruct m1 as [a b r h g i p dl o v t tr]. cbn in *. split; [|done]. rewrite HU. apply map_eq. intros id.
    rewrite lookup_empty. destruct (decide (id = dl)) as [->|Hne];
      [apply lookup_delete_eq|]. rewrite lookup_delete_ne by done.
    destruct (_ !! id) eqn:E; [|done]. by destruct (Hti1 _ _ E). }
  match type of Hh2 with hdc_inv ?x => set (m2 := x) in * end.
  rewrite bind_run. cbn [gets fst snd]. clear - He Hc2 Hh2 DelayTimerLaws0.
  assert (timer_inv m2) as Hti2 by (by intros id task; rewrite He, lookup_empty).
  assert (∀ k delay, k = (if connected_ m then DisconnectTask else ConnectTask) →
    let m' := ((id ← on_timer (timer_Register k delay true); modify (set_timer_id id)) m2).2 in
    connected_ m' = connected_ m ∧ timer_inv m' ∧ hdc_inv m') as Hreg.
  { intros k delay Hk. rewrite bind_run. unfold on_timer, zoom.
    pose proof (law_register k delay true (timer_ m2)) as HR.
    destruct (timer_Register k delay true (timer_ m2)) as [id t']. cbn [fst snd].
    rewrite He in HR. destruct m2. cbn in *. split; [done|]. split; [|done].
    intros id' task Hl. cbn in *. subst. destruct HR as [HR|[_ HR]]; rewrite HR in Hl; [by rewrite lookup_empty in Hl|].
    apply lookup_insert_Some in Hl as [[<- <-]|[_ Hl]]; [done|by rewrite lookup_empty in Hl]. }
  rewrite Hc2. destruct (status =? ACT_UPDEVICE), (connected_ m) eqn:Ec; cbn [andb negb Bool.eqb].
  - split; [exact Hc2|]. split; [exact Hti2|]. split; [exact Hh2|]. intros _ _. exact He.
  - destruct (Hreg ConnectTask DELAY_CONNECT_INTERVAL eq_refl) as (? & ? & ?). done.
  - rewrite bind_run. cbn [gets fst snd]. cbv zeta.
    destruct (Hreg DisconnectTask (if phyConnect_ m2 then DELAY_DISCONN_INTERVAL + DELAY_DISCONN_INTERVAL
      else DELAY_DISCONN_INTERVAL) eq_refl) as (? & ? & ?). done.
  - split; [exact Hc2|]. split; [exact Hti2|]. split; [exact Hh2|]. intros _ _. exact He.
Qed.

(** The two tasks, from a state without pending tasks. *)
Lemma connect_run m : pending (timer_ m) = ∅ → hdc_shown (trace_ m) = hasHdcNotifier_ m →
  timer_inv (run_connect window_ok m).2 ∧ hdc_inv (run_connect window_ok m).2.
Proof.
  intros Hp Ht. unfold run_connect. rewrite bind_run. cbn [modify fst snd]. rewrite bind_run. cbn [gets fst snd].
  rewrite bind_run. set (m1 := set_connected true m).
  assert (let r := GetCurrentFunctions (currentFunctions_ m1) m1 in
    same_timer m1 r.2 ∧ hdc_shown (trace_ r.2) = hasHdcNotifier_ r.2) as [Hst Hh].
  { unfold GetCurrentFunctions. rewrite bind_run, ret_run. cbn [snd].
    destruct (on_device_run (dev_GetCurrentFunctions (currentFunctions_ m1)) m1) as [? (Ha & Hb & _ & _)].
    split; [done|]. rewrite Ha, Hb. by destruct m. }
  destruct (GetCurrentFunctions (currentFunctions_ m1) m1) as [[code cur] m2]. cbn [fst snd] in *.
  rewrite bind_run. cbn [modify fst snd].
  destruct (func_change_run true cur (set_functions cur m2)) as (H1 & H2 & H3 & H4); [by destruct m2|].
  destruct H1 as (Ha & Hb & Hc), Hst as (Hd & He & Hf).
  assert (timer_ (set_functions cur m2) = timer_ m ∧ connected_ (set_functions cur m2) = true
    ∧ currentFunctions_ (set_functions cur m2) = cur) as (K1 & K2 & K3)
    by (destruct m, m2; cbn in *; repeat split; congruence).
  split.
  - intros id task. by rewrite Ha, K1, Hp, lookup_empty.
  - split; [|done]. rewrite H3, Hc, K2, H2, K3. done.
Qed.

(** The functions a disconnection leaves. *)
Definition after_disconnect (cur : Z) : Z :=
  if has_flag (to_u32 cur) USB_FUNCTION_MTP || has_flag (to_u32 cur) USB_FUNCTION_PTP
  then let left := to_i32 (Z.land (Z.land (to_u32 cur) (Z.lnot USB_FUNCTION_MTP)) (Z.lnot USB_FUNCTION_PTP)) in
       if left =? 0 then USB_FUNCTION_STORAGE else left
  else if has_flag (to_u32 cur) USB_FUNCTION_DEVMODE_AUTH then USB_FUNCTION_STORAGE else cur.

Lemma disconnect_run m : pending (timer_ m) = ∅ → hdc_shown (trace_ m) = hasHdcNotifier_ m →
  let m' := (run_disconnect window_ok m).2 in
  timer_inv m' ∧ hdc_inv m' ∧ connected_ m' = false ∧ currentFunctions_ m' = after_disconnect (currentFunctions_ m).
Proof.
  intros Hp Ht. unfold run_disconnect. rewrite bind_run. cbn [modify fst snd]. rewrite bind_run. cbn [modify fst snd].
  rewrite bind_run. cbn [gets fst snd]. set (m1 := set_disable false (set_connected false m)).
  assert (currentFunctions_ m1 = currentFunctions_ m ∧ connected_ m1 = false ∧ timer_ m1 = timer_ m
    ∧ hdc_shown (trace_ m1) = hasHdcNotifier_ m1) as (Hcur & Hc & Hti & Hh) by (by destruct m).
  assert (∀ left, let m2 := ((modify (set_functions left);; _ ← on_device (dev_SetCurrentFunctions left); mret ()) m1).2 in
    currentFunctions_ m2 = left ∧ connected_ m2 = false ∧ timer_ m2 = timer_ m ∧
    hdc_shown (trace_ m2) = hasHdcNotifier_ m2) as Hset.
  { intros left. rewrite bind_run. cbn [modify fst snd]. rewrite bind_run, ret_run. cbn [snd].
    destruct (on_device_run (dev_SetCurrentFunctions left) (set_functions left m1)) as [(Ha & _ & Hb) (He & Hf & _ & Hg)].
    rewrite Ha, Hb, He, Hf, Hg. clear -Hc Hti Hh. destruct m1. done. }
  assert (∀ m2, currentFunctions_ m2 = after_disconnect (currentFunctions_ m) → connected_ m2 = false →
    timer_ m2 = timer_ m → hdc_shown (trace_ m2) = hasHdcNotifier_ m2 →
    let m' := ((cur ← gets currentFunctions_; ProcessFuncChange window_ok false cur) m2).2 in
    timer_inv m' ∧ hdc_inv m' ∧ connected_ m' = false ∧
    currentFunctions_ m' = after_disconnect (currentFunctions_ m)) as Htail.
  { intros m2 K1 K2 K3 K4. rewrite bind_run. cbn [gets fst snd]. rewrite K1.
    destruct (func_change_run false (after_disconnect (currentFunctions_ m)) m2 K4) as ((Ha & _ & Hb) & Hd & He & Hf).
    split; [intros id task; by rewrite Ha, K3, Hp, lookup_empty|].
    split; [split; [|done]|split; congruence]. by rewrite He, Hb, K2. }
  rewrite bind_run. unfold after_disconnect in *. rewrite Hcur.
  destruct (_ || _); [|destruct (has_flag _ _)].
  1,2: match goal with |- context [set_functions ?l] => destruct (Hset l) as (K1 & K2 & K3 & K4) end; by apply Htail.
  by apply Htail.
Qed.

(** Running a pending task leaves none. *)
Lemma fire_empty id task t' m : timer_inv m → pending (timer_ m) !! id = Some task →
  pending t' = delete id (pending (timer_ m)) → pending t' = ∅.
Proof.
  intros Hti Hid ->. destruct (Hti _ _ Hid) as [-> _]. apply map_eq. intros id'. rewrite lookup_empty.
  destruct (decide (id' = delayDisconnTimerId_ m)) as [->|Hne]; [apply lookup_delete_eq|].
  rewrite lookup_delete_ne by done. destruct (_ !! id') eqn:E; [|done]. by destruct (Hti _ _ E).
Qed.

Lemma step_inv m m' : device_step m m' → timer_inv m → hdc_inv m → timer_inv m' ∧ hdc_inv m'.
Proof.
  intros [status x|status x|f x|uninit f x|x|b x|b x|id task t' x Hid Ht'] Hti Hh.
  - destruct (event_run status x Hti Hh) as (_ & ? & ? & _). done.
  - by apply inv_control.
  - by apply hdc_inv_update.
  - by apply inv_set.
  - by apply inv_user.
  - by destruct x.
  - by destruct x.
  - pose proof (fire_empty _ _ _ _ Hti Hid Ht') as Hp. destruct Hh as [_ Hh].
    assert (pending (timer_ (set_timer t' x)) = ∅ ∧ hdc_shown (trace_ (set_timer t' x)) = hasHdcNotifier_ (set_timer t' x))
      as [? ?] by (by destruct x).
    destruct task; cbn [run_task]; [by apply connect_run|].
    destruct (disconnect_run (set_timer t' x)) as (? & ? & _); done.
Qed.

(** *** The fields the properties speak of *)

Lemma notifier_fields c f m :
  let m' := (ProcessFunctionNotifier c f m).2 in
  currentFunctions_ m' = currentFunctions_ m ∧ usbDeviceInterface_ m' = usbDeviceInterface_ m.
Proof.
  destruct m as [a b r h g i p d o v t tr]. unfold ProcessFunctionNotifier, emit. run_unfold.
  destruct c, (has_flag (to_u32 f) USB_FUNCTION_MTP), (has_flag (to_u32 f) USB_FUNCTION_PTP), r,
    h, (has_flag (to_u32 f) USB_FUNCTION_HDC); by cbn.
Qed.

Lemma update_fields f m :
  currentFunctions_ (UpdateFunctions f m).2 = f ∧
  usbDeviceInterface_ (UpdateFunctions f m).2 = usbDeviceInterface_ m.
Proof.
  unfold UpdateFunctions. rewrite bind_run. cbn [gets fst snd].
  destruct (f =? currentFunctions_ m) eqn:E; [by zbool|].
  rewrite !bind_run. cbn [gets modify fst snd]. rewrite ?bind_run. cbn [gets modify fst snd]. rewrite ?bind_run.
  match goal with |- context [ProcessFunctionNotifier ?c f ?x] => destruct (notifier_fields c f x) as [-> ->] end.
  destruct m. cbn. by destruct (negb _ && _).
Qed.

Lemma event_interface status m : usbDeviceInterface_ m ≠ None →
  usbDeviceInterface_ (HandleEvent window_ok status m).2 ≠ None.
Proof.
  intros Hd. unfold HandleEvent, ProcessStatus, ProcessFunctionSwitchWindow, on_timer, emit.
  run_unfold. destruct (usbDeviceInterface_ m) as [x|] eqn:E; [|done].
  destruct m as [a b r h g i p dl o v t tr]. cbn in E. subst o.
  repeat (run_step; cbn beta iota zeta in *); cbn in *; simplify_eq; cbn in *; try done.
  all: repeat match goal with H : context [if ?b then _ else _] |- _ => destruct b; cbn in *; simplify_eq end; done.
Qed.
End Steps.

(** ** Flags *)

Lemma has_flag_testbit x i : 0 <= i → has_flag x (2 ^ i) = Z.testbit x i.
Proof. intros Hi. unfold has_flag. by rewrite land_pow2_testbit, negb_involutive. Qed.

Lemma to_u32_to_i32_bit y i : 0 <= i < 32 → Z.testbit (to_u32 (to_i32 y)) i = Z.testbit y i.
Proof.
  intros Hi. assert (to_u32 (to_i32 y) = to_u32 y) as ->.
  { unfold to_u32, to_i32. rewrite Zminus_mod_idemp_l. f_equal. ring. }
  unfold to_u32. apply Z.mod_pow2_bits_low. lia.
Qed.

Lemma dropped_bits x : let y := Z.land (Z.land x (Z.lnot USB_FUNCTION_MTP)) (Z.lnot USB_FUNCTION_PTP) in
  Z.testbit y 3 = false ∧ Z.testbit y 4 = false.
Proof.
  intros y. unfold y. change USB_FUNCTION_MTP with (2 ^ 3). change USB_FUNCTION_PTP with (2 ^ 4).
  by rewrite !Z.land_spec, !Z.lnot_spec, !Z.pow2_bits_eqb, !andb_false_r by done.
Qed.

Lemma without_transfer_flags f : let left := to_u32 (to_i32 (without_transfer f)) in
  has_flag left USB_FUNCTION_MTP = false ∧ has_flag left USB_FUNCTION_PTP = false.
Proof.
  intros left. change USB_FUNCTION_MTP with (2 ^ 3). change USB_FUNCTION_PTP with (2 ^ 4).
  unfold left. rewrite !has_flag_testbit, !to_u32_to_i32_bit by done. unfold without_transfer.
  destruct (_ =? 0); [done|]. apply dropped_bits.
Qed.

Lemma after_disconnect_flags cur : let left := to_u32 (after_disconnect cur) in
  has_flag left USB_FUNCTION_MTP = false ∧ has_flag left USB_FUNCTION_PTP = false ∧
  (has_flag (to_u32 cur) USB_FUNCTION_MTP || has_flag (to_u32 cur) USB_FUNCTION_PTP = false →
     has_flag left USB_FUNCTION_DEVMODE_AUTH = false).
Proof.
  unfold after_disconnect. destruct (_ || _) eqn:E; cbv zeta.
  - destruct (_ =? 0); [done|]. destruct (dropped_bits (to_u32 cur)) as [K1 K2].
    change USB_FUNCTION_MTP with (2 ^ 3) in *. change USB_FUNCTION_PTP with (2 ^ 4) in *.
    by rewrite !has_flag_testbit, !to_u32_to_i32_bit by done.
  - zbool. destruct (has_flag (to_u32 cur) USB_FUNCTION_DEVMODE_AUTH) eqn:Ea; [done|]. done.
Qed.

Lemma on_device_none {D T A} (f : state D A) (m : UsbDeviceManager D T) :
  usbDeviceInterface_ m = None → on_device f m = (None, m).
Proof. intros H. unfold on_device. by rewrite H. Qed.
Lemma on_device_some {D T A} (f : state D A) (m : UsbDeviceManager D T) d : usbDeviceInterface_ m = Some d →
  on_device f m = (Some (f d).1, set_interface (Some (f d).2) m).
Proof. intros H. unfold on_device. rewrite H. by destruct (f d). Qed.

Section User.
Context {D T : Type} `{!UsbDeviceInterface D, !ErrCodeBase}.

(** A successful user change. *)
Lemma user_change_run (m m' : UsbDeviceManager D T) : hdc_inv m → UserChangeProcess m = (Some UEC_OK, m') →
  has_flag (to_u32 (currentFunctions_ m)) USB_FUNCTION_MTP || has_flag (to_u32 (currentFunctions_ m)) USB_FUNCTION_PTP = true ∧
  currentFunctions_ m' = to_i32 (without_transfer (currentFunctions_ m)).
Proof.
  intros _. unfold UserChangeProcess. rewrite bind_run. cbn [gets fst snd]. destruct (_ || _) eqn:E.
  - cbv zeta. set (funcs := to_i32 _). rewrite !bind_run.
    unfold on_device. destruct (usbDeviceInterface_ m) as [d|]; [|done].
    destruct (dev_SetCurrentFunctions funcs d) as [ret d']. cbn [fst snd]. rewrite !bind_run, ret_run. cbn [fst snd].
    rewrite ?bind_run. cbn [gets fst snd]. rewrite ?bind_run, ?ret_run. intros [= -> <-].
    match goal with |- context [ProcessFunctionNotifier ?c ?f ?x] => destruct (notifier_fields c f x) as [-> _] end.
    split; [done|]. cbn [andb Z.eqb UEC_OK]. destruct m as [a b r h g i p dl o v t tr]. cbn in *.
    destruct (funcs =? a) eqn:Ef; [by zbool|]. done.
  - rewrite !bind_run, ret_run. cbn [fst snd]. rewrite ?bind_run. cbn [gets fst snd]. rewrite ?bind_run, ?ret_run.
    intros [=].
Qed.
End User.
