(* ===== verification/UsbDeviceTheorems.v ===== *)
(** * The device manager: its properties

    The theorems about function names and masks, function switching, the delayed
    tasks and the HDC notification, and runs on a small device. *)
From S2P Require Import Prelude UsbErrors Platform UsbDeviceManager UsbDeviceProofs.

(** ** A device for the runs: its functions are a number *)
#[export] Instance demo_device : UsbDeviceInterface Z := {
  HDF_ERR_NOT_SUPPORT := -2;
  dev_GetCurrentFunctions _ d := ((0, d), d);
  dev_SetCurrentFunctions f d := if f =? 4096 then (-2, d) else (0, f);
  dev_BindUsbdDeviceSubscriber d := (0, d);
  dev_UnbindUsbdDeviceSubscriber d := (0, d);
  dev_has_V2_1 _ := true;
  dev_GetControlTransferData _ d := ((0, [1; 2]), d);
}.
#[local] Existing Instance number_json.
#[local] Existing Instance demo_err_base.

(** The component as constructed, with a device attached to it. *)
Definition initial {D T} (d : option D) (t : T) : UsbDeviceManager D T := {|
  currentFunctions_ := FUNCTION_HDC; connected_ := false; isReverseCharge_ := false; hasHdcNotifier_ := false;
  gadgetConnected_ := false; isDisableDialog_ := false; phyConnect_ := false; delayDisconnTimerId_ := u32_max;
  usbDeviceInterface_ := d; usbDeviceInterfaceV2_1_ := false; timer_ := t; trace_ := [] |}.
Definition demo_device_manager : UsbDeviceManager Z (gmap Z DeviceTask) := initial (Some FUNCTION_HDC) ∅.

(** ** Names *)

(** Names and masks round-trip: the text [ConvertToString] prints for a
    settable mask is read back by [ConvertFromString] as that mask. *)
Theorem ConvertString_roundtrip `{!ErrCodeBase} f : in_u32 f → IsSettableFunctions f = true →
  ConvertFromString (ConvertToString f) = f.
Proof.
  intros Hf Hs. pose proof settable_roundtrip as HF. rewrite Forall_forall in HF.
  by apply HF, settable_in.
Qed.
Lemma ConvertString_roundtrip_witness :
  ConvertToString 12 = "hdc,mtp" ∧ ConvertFromString (ConvertToString 12) = 12.
Proof.
  split; [vm_compute; reflexivity|].
  apply (ConvertString_roundtrip 12); [unfold in_u32; lia|vm_compute; reflexivity].
Defined.

(** [ConvertFromString] of a comma-separated list of names is the union of
    their masks when all are known, and the invalid-value code as soon as one is
    not. *)
Theorem ConvertFromString_names `{!ErrCodeBase} names : names ≠ [] → Forall comma_free names →
  ConvertFromString (String.concat "," names) =
    match mapM function_code names with
    | Some fs => fold_left Z.lor fs 0
    | None => uec UEC_SERVICE_INVALID_VALUE
    end.
Proof. apply from_concat. Qed.
Lemma ConvertFromString_names_witness :
  ConvertFromString "mtp,hdc" = 12 ∧ ConvertFromString "mtp,usb" = uec UEC_SERVICE_INVALID_VALUE.
Proof.
  split.
  - apply (ConvertFromString_names ["mtp"; "hdc"]); [done|]. by repeat constructor.
  - apply (ConvertFromString_names ["mtp"; "usb"]); [done|]. by repeat constructor.
Defined.

(** ** Broadcasting *)

Section Broadcast.
Context {D T : Type}.
Implicit Types m : UsbDeviceManager D T.

(** The loop of [BroadcastFuncChange] ends within 32 iterations for every
    mask, and the state it publishes names each function of the mask, lowest bit
    first; the sticky event of the old state is removed before. *)
Theorem BroadcastFuncChange_names c f m :
  func_params 32 (to_u32 f) 1 = Some (set_bit_names (to_u32 f) 0 32) ∧
  trace_ (BroadcastFuncChange c f m).2 =
    [ReportDevicePlug f c; PublishUsbState c (set_bit_names (to_u32 f) 0 32); RemoveStickyUsbState] ++ trace_ m.
Proof.
  assert (func_params 32 (to_u32 f) 1 = Some (set_bit_names (to_u32 f) 0 32)) as Hp.
  { apply (func_params_spec 32 0); [lia|lia|apply to_u32_range|lia]. }
  split; [done|]. unfold BroadcastFuncChange. rewrite Hp. by destruct m.
Qed.
End Broadcast.

(** ** Switching functions *)

Section Functions.
Context {D T : Type} `{!UsbDeviceInterface D, !DelayTimer DeviceTask T, !ErrCodeBase}.
Implicit Types m : UsbDeviceManager D T.

(** [SetCurrentFunctions] on each of its branches: without an interface or
    when the device cannot say its functions the call is invalid; the same
    functions again are accepted without touching the device; a refusal of the
    device is passed on, not-supported as the service's own code, and leaves the
    component's functions; on success they are the functions asked for. *)
Theorem SetCurrentFunctions_branches uninit funcs m :
  let '(ret, m') := SetCurrentFunctions uninit funcs m in
  match usbDeviceInterface_ m with
  | None => ret = uec UEC_SERVICE_INVALID_VALUE ∧ m' = m
  | Some d =>
      let '(code, last, d1) := dev_GetCurrentFunctions uninit d in
      if negb (code =? UEC_OK) then
        ret = uec UEC_SERVICE_INVALID_VALUE ∧ currentFunctions_ m' = currentFunctions_ m
      else if last =? funcs then ret = UEC_OK ∧ m' = set_interface (Some d1) m
      else let '(code2, d2) := dev_SetCurrentFunctions funcs d1 in
        usbDeviceInterface_ m' = Some d2 ∧
        if code2 =? UEC_OK then ret = UEC_OK ∧ currentFunctions_ m' = funcs
        else currentFunctions_ m' = currentFunctions_ m ∧
             ret = (if code2 =? HDF_ERR_NOT_SUPPORT then uec UEC_SERVICE_FUNCTION_NOT_SUPPORT else code2)
  end.
Proof.
  destruct (SetCurrentFunctions uninit funcs m) as [ret m'] eqn:HS. revert HS.
  unfold SetCurrentFunctions. rewrite bind_run.
  destruct (usbDeviceInterface_ m) as [d|] eqn:Hd;
    [|rewrite on_device_none by done; intros Hr; injection Hr as <- <-; done].
  rewrite (on_device_some _ _ _ Hd).
  destruct (dev_GetCurrentFunctions uninit d) as [[code last] d1]. cbn [fst snd].
  destruct (code =? UEC_OK); cbn [negb]; [|destruct m; by intros [= <- <-]].
  destruct (last =? funcs); [by intros [= <- <-]|].
  rewrite bind_run.
  assert (usbDeviceInterface_ (set_interface (Some d1) m) = Some d1) as Hd1 by (by destruct m).
  rewrite (on_device_some _ _ _ Hd1).
  destruct (dev_SetCurrentFunctions funcs d1) as [code2 d2]. cbn [fst snd default from_option]. unfold id.
  destruct (code2 =? UEC_OK) eqn:E2; cbn [negb].
  - rewrite bind_run, ret_run. intros [= <- <-].
    set (m2 := set_interface (Some d2) (set_interface (Some d1) m)).
    assert (usbDeviceInterface_ m2 = Some d2) as Hm2 by (by destruct m).
    destruct (update_fields funcs m2) as [-> ->]. done.
  - destruct (code2 =? HDF_ERR_NOT_SUPPORT); destruct m; by intros [= <- <-].
Qed.
End Functions.

(** ** Connection *)

Section Connection.
Context {D T : Type} `{!UsbDeviceInterface D, !DelayTimer DeviceTask T, !DelayTimerLaws DeviceTask T, !ErrCodeBase, !CJson}.
Context (window_ok : bool).
Implicit Types m : UsbDeviceManager D T.

(** The invariants hold in every reachable state. *)
Lemma reachable_inv d t m : pending t = ∅ → rtc (device_step window_ok) (initial d t) m → timer_inv m ∧ hdc_inv m.
Proof.
  intros Ht Hr. assert (timer_inv (initial d t) ∧ hdc_inv (initial d t)) as [H1 H2].
  { split; [|done]. intros id task. cbn. by rewrite Ht, lookup_empty. }
  revert H1 H2. induction Hr as [|x y z Hxy Hyz IH]; intros H1 H2; [done|].
  destruct (step_inv window_ok x y Hxy H1 H2). by apply IH.
Qed.
(** C16: in every state the component can reach from its construction, through
    events, function changes, user changes and delayed tasks in any order, the
    HDC notification is shown exactly while the device is connected with the HDC
    function, the flag [hasHdcNotifier_] says so, and at most one delayed task
    is pending, the one whose identifier the component keeps and which would
    change the connection. *)
Theorem device_invariant d t m : pending t = ∅ →
  rtc (device_step window_ok) (initial d t) m →
  hdc_shown (trace_ m) = connected_ m && has_flag (to_u32 (currentFunctions_ m)) USB_FUNCTION_HDC ∧
  hasHdcNotifier_ m = hdc_shown (trace_ m) ∧ timer_inv m.
Proof. intros Ht Hr. destruct (reachable_inv d t m Ht Hr) as (? & Hh & Hs). split; [congruence|]. split; [congruence|done]. Qed.

(** A bounce of the line is ignored: two events of which the second restores
    the connection the component already shows leave no task pending and the
    connection as it was, whatever the first event was. *)
Theorem HandleEvent_bounce s1 s2 m : timer_inv m → hdc_inv m → usbDeviceInterface_ m ≠ None →
  Bool.eqb (connected_ m) (s2 =? ACT_UPDEVICE) = true →
  let m' := (HandleEvent window_ok s2 (HandleEvent window_ok s1 m).2).2 in
  connected_ m' = connected_ m ∧ pending (timer_ m') = ∅.
Proof.
  intros Hti Hh Hd Hs m'. destruct (event_run window_ok s1 m Hti Hh) as (Hc & Hti1 & Hh1 & _).
  destruct (event_run window_ok s2 _ Hti1 Hh1) as (Hc2 & _ & _ & Hp).
  split; [unfold m'; congruence|]. apply Hp; [by apply event_interface|]. by rewrite Hc.
Qed.

(** When the disconnect task runs the device stops offering its files: the
    functions that remain have neither MTP nor PTP, nor device authentication
    unless MTP or PTP was on as well. *)
Theorem run_disconnect_no_transfer m : pending (timer_ m) = ∅ → hdc_inv m →
  let cur := to_u32 (currentFunctions_ m) in
  let m' := (run_disconnect window_ok m).2 in
  let left := to_u32 (currentFunctions_ m') in
  connected_ m' = false ∧
  has_flag left USB_FUNCTION_MTP = false ∧ has_flag left USB_FUNCTION_PTP = false ∧
  (has_flag cur USB_FUNCTION_MTP || has_flag cur USB_FUNCTION_PTP = false →
     has_flag left USB_FUNCTION_DEVMODE_AUTH = false).
Proof.
  intros Hp [_ Ht] cur m' left. destruct (disconnect_run window_ok m Hp Ht) as (_ & _ & Hc & Hf).
  split; [done|]. unfold left, m', cur. rewrite Hf. apply after_disconnect_flags.
Qed.

(** A user switch that succeeds leaves neither MTP nor PTP on. *)
Theorem UserChangeProcess_no_transfer m : timer_inv m → hdc_inv m →
  let '(ret, m') := UserChangeProcess m in
  ret = Some UEC_OK →
  has_flag (to_u32 (currentFunctions_ m')) USB_FUNCTION_MTP = false ∧
  has_flag (to_u32 (currentFunctions_ m')) USB_FUNCTION_PTP = false.
Proof.
  intros Hti Hh. destruct (UserChangeProcess m) as [ret m'] eqn:HU. intros ->.
  apply user_change_run in HU as (_ & ->); [|done]. apply without_transfer_flags.
Qed.
End Connection.

(** ** Runs *)

Definition up (m : UsbDeviceManager Z (gmap Z DeviceTask)) := (HandleEvent true ACT_UPDEVICE m).2.
Definition down (m : UsbDeviceManager Z (gmap Z DeviceTask)) := (HandleEvent true ACT_DOWNDEVICE m).2.
(** The pending task runs. *)
Definition fire (task : DeviceTask) (m : UsbDeviceManager Z (gmap Z DeviceTask)) :=
  (run_task true task (set_timer (delete (delayDisconnTimerId_ m) (timer_ m)) m)).2.
Definition plugged : UsbDeviceManager Z (gmap Z DeviceTask) := fire ConnectTask (up demo_device_manager).

Lemma plugged_reachable : rtc (device_step true) demo_device_manager plugged.
Proof.
  eapply rtc_l; [apply (step_event true ACT_UPDEVICE)|].
  eapply rtc_l; [|apply rtc_refl].
  apply (step_fire true (delayDisconnTimerId_ (up demo_device_manager)) ConnectTask); [|done].
  vm_compute. reflexivity.
Qed.

Lemma device_invariant_witness :
  connected_ plugged = true ∧ hdc_shown (trace_ plugged) = true ∧ timer_inv plugged.
Proof.
  assert (pending (∅ : gmap Z DeviceTask) = ∅) as Hp by reflexivity.
  destruct (device_invariant true (Some FUNCTION_HDC) ∅ plugged Hp plugged_reachable)
    as (Hs & _ & Ht).
  split; [vm_compute; reflexivity|]. split; [|exact Ht]. rewrite Hs. vm_compute. reflexivity.
Defined.

Lemma plugged_inv : timer_inv plugged ∧ hdc_inv plugged.
Proof. apply (reachable_inv true (Some FUNCTION_HDC) ∅ plugged); [done|exact plugged_reachable]. Qed.

Lemma HandleEvent_bounce_witness :
  timer_ (down plugged) ≠ ∅ ∧ connected_ (up (down plugged)) = true ∧ timer_ (up (down plugged)) = ∅.
Proof.
  split; [vm_compute; discriminate|].
  destruct plugged_inv as [Hti Hh].
  assert (connected_ plugged = true) as Hc by (vm_compute; reflexivity).
  rewrite <- Hc.
  apply (HandleEvent_bounce true ACT_DOWNDEVICE ACT_UPDEVICE plugged Hti Hh); vm_compute; congruence.
Defined.

(** The device with MTP and HDC on, about to be disconnected. *)
Definition transferring := set_timer ∅ (UpdateFunctions 12 plugged).2.
Lemma transferring_inv : timer_inv transferring ∧ hdc_inv transferring.
Proof.
  destruct plugged_inv as [Hti Hh]. destruct (hdc_inv_update 12 plugged Hti Hh) as [_ Hh'].
  split; [|exact Hh']. intros id task Hl.
  change (pending (timer_ transferring)) with (∅ : gmap Z DeviceTask) in Hl. by rewrite lookup_empty in Hl.
Qed.

Lemma run_disconnect_no_transfer_witness :
  has_flag (to_u32 (currentFunctions_ transferring)) USB_FUNCTION_MTP = true ∧
  has_flag (to_u32 (currentFunctions_ (run_disconnect true transferring).2)) USB_FUNCTION_MTP = false.
Proof.
  split; [vm_compute; reflexivity|].
  assert (pending (timer_ transferring) = ∅) as Hp by reflexivity.
  apply (run_disconnect_no_transfer true transferring Hp (proj2 transferring_inv)).
Defined.

Lemma UserChangeProcess_no_transfer_witness :
  let '(ret, m') := UserChangeProcess transferring in
  ret = Some UEC_OK ∧ has_flag (to_u32 (currentFunctions_ m')) USB_FUNCTION_MTP = false.
Proof.
  pose proof (UserChangeProcess_no_transfer transferring (proj1 transferring_inv) (proj2 transferring_inv)) as H.
  destruct (UserChangeProcess transferring) as [ret m'] eqn:E.
  assert (ret = Some UEC_OK) as -> by (apply (f_equal fst) in E; cbn [fst] in E; rewrite <- E; vm_compute; reflexivity).
  split; [reflexivity|]. by apply H.
Defined.

(** An event that says nothing about the line, a control request of a connected
    device, is taken for a disconnection. *)
Example control_request_disconnects :
  let m := (HandleEvent true ACT_CUSTOMCONTROLREQUEST plugged).2 in
  timer_ m !! delayDisconnTimerId_ m = Some DisconnectTask.
Proof. vm_compute. reflexivity. Qed.

(** Device authentication survives a disconnection when MTP was on as well. *)
Example auth_survives_with_mtp :
  currentFunctions_ (run_disconnect true (UpdateFunctions 4104 plugged).2).2 = FUNCTION_DEVMODE_AUTH.
Proof. vm_compute. reflexivity. Qed.
