(* ===== verification/UsbPortManager.v ===== *)
(** * The port manager (services/native/src/usb_port_manager.cpp)

    The table of the USB ports with their roles and modes, filled from the HDI
    port interface and updated by its change events. *)
From S2P Require Import Prelude UsbErrors Platform UsbDeviceManager.

Definition DEFAULT_ROLE_HOST : Z := 1.
Definition DEFAULT_ROLE_DEVICE : Z := 2.
Definition CMD_INDEX : Z := 1.
Definition HOST_MODE : Z := 2.
Definition WAIT_DELAY_US : Z := 20000.
Definition INTERFACE_ATTEMPTS : nat := 3.

(** [UsbSrvSupport::PowerRole], [DataRole], [PortMode]. *)
Definition POWER_ROLE_SOURCE : Z := 1.
Definition POWER_ROLE_SINK : Z := 2.
Definition DATA_ROLE_HOST : Z := 1.
Definition DATA_ROLE_DEVICE : Z := 2.
Definition PORT_MODE_DEVICE : Z := 1.
Definition PORT_MODE_HOST : Z := 2.

(** ** Ports (interfaces/innerkits/native/include/usb_port.h) *)

Record UsbPortStatus := {
  currentMode : Z;
  currentPowerRole : Z;
  currentDataRole : Z;
}.
Record UsbPort := {
  id : Z;
  supportedModes : Z;
  usbPortStatus : UsbPortStatus;
}.
#[global] Instance UsbPortStatus_eq_dec : EqDecision UsbPortStatus.
Proof. solve_decision. Defined.
#[global] Instance UsbPort_eq_dec : EqDecision UsbPort.
Proof. solve_decision. Defined.

Module UsbPort.
Section Parcels.
Context {P : Type} `{!Parcel P}.

Definition Marshalling (p : UsbPort) : state P bool :=
  write_fields [FInt32 (id p); FInt32 (supportedModes p); FInt32 (currentMode (usbPortStatus p));
                FInt32 (currentPowerRole (usbPortStatus p)); FInt32 (currentDataRole (usbPortStatus p))].

Definition Unmarshalling : state P UsbPort :=
  i ← read_i32; s ← read_i32; m ← read_i32; pr ← read_i32; dr ← read_i32;
  mret {| id := i; supportedModes := s;
          usbPortStatus := {| currentMode := m; currentPowerRole := pr; currentDataRole := dr |} |}.
End Parcels.
End UsbPort.

(** ** Parameters *)

(** [HDI::Usb::V2_0::IUsbPortInterface]. *)
Class UsbPortInterface (D : Type) := {
  port_BindUsbdPortSubscriber : state D Z;
  port_UnbindUsbdPortSubscriber : state D Z;
  port_AddDeathRecipient : D → bool;
  port_SetPortRole : Z → Z → Z → state D Z;
  port_QueryPorts : state D (Z * list UsbPort);
}.

Inductive PortEffect :=
  | PortSendNotification (type : UsbNotifyType)
  | ReportPortRoleChange (currentPowerRole updatePowerRole currentDataRole updateDataRole : Z)
  | PortNotifyProcessStatus
  | PortSleep (us : Z).

(** ** State *)

Record UsbPortManager (D : Type) := {
  portMap_ : gmap Z UsbPort;
  supportedModeMap_ : gmap Z Z;
  usbPortInterface_ : option D;
  recipient_ : bool;
  port_trace_ : list PortEffect;   (* newest first *)
}.
Arguments portMap_ {D} _.
Arguments supportedModeMap_ {D} _.
Arguments usbPortInterface_ {D} _.
Arguments recipient_ {D} _.
Arguments port_trace_ {D} _.
Arguments Build_UsbPortManager {D} _ _ _ _ _.

(** The map in the order the source iterates it, by key. *)
Definition key_le {A} (p q : Z * A) : Prop := p.1 <= q.1.
#[global] Instance key_le_dec {A} (p q : Z * A) : Decision (key_le p q).
Proof. unfold key_le. apply _. Defined.
#[global] Instance key_le_total {A} : Total (@key_le A).
Proof. intros p q. unfold key_le. lia. Qed.
#[global] Instance key_le_trans {A} : Transitive (@key_le A).
Proof. intros p q r. unfold key_le. lia. Qed.
Definition by_key {A} (m : gmap Z A) : list (Z * A) := merge_sort key_le (map_to_list m).

Section Manager.
Context {D : Type} `{!UsbPortInterface D, !ErrCodeBase}.
(** The value of an uninitialised [int32_t]. *)
Context (hidumper_set : bool).

Abbreviation M := (state (UsbPortManager D)).
Implicit Types m : UsbPortManager D.

Definition set_ports (p : gmap Z UsbPort) m :=
  Build_UsbPortManager p (supportedModeMap_ m) (usbPortInterface_ m) (recipient_ m) (port_trace_ m).
Definition set_modes (s : gmap Z Z) m :=
  Build_UsbPortManager (portMap_ m) s (usbPortInterface_ m) (recipient_ m) (port_trace_ m).
Definition set_port_interface (d : option D) m :=
  Build_UsbPortManager (portMap_ m) (supportedModeMap_ m) d (recipient_ m) (port_trace_ m).
Definition set_recipient (b : bool) m :=
  Build_UsbPortManager (portMap_ m) (supportedModeMap_ m) (usbPortInterface_ m) b (port_trace_ m).
Definition port_emit (x : PortEffect) : M () := modify (λ m,
  Build_UsbPortManager (portMap_ m) (supportedModeMap_ m) (usbPortInterface_ m) (recipient_ m) (x :: port_trace_ m)).

(** A call on the port interface; [None] when the pointer is null. *)
Definition on_port {A} (f : state D A) : M (option A) := λ m,
  match usbPortInterface_ m with
  | None => (None, m)
  | Some d => let '(a, d') := f d in (Some a, set_port_interface (Some d') m)
  end.

(** *** The table *)

(** [std::map::insert] keeps an entry that is there. *)
Definition AddPort (port : UsbPort) : M () := modify (λ m,
  match portMap_ m !! id port with
  | Some _ => m
  | None => set_ports (<[id port := port]> (portMap_ m)) m
  end).

Definition AddPortInfo (portId modes mode dataRole powerRole : Z) : M () :=
  AddPort {| id := portId; supportedModes := modes;
             usbPortStatus := {| currentMode := mode; currentPowerRole := powerRole;
                                 currentDataRole := dataRole |} |}.

Definition RemovePort (portId : Z) : M () := modify (λ m, set_ports (delete portId (portMap_ m)) m).

Definition QueryPort : M Z :=
  r ← on_port port_QueryPorts;
  match r with
  | None => mret (uec UEC_SERVICE_INVALID_VALUE)
  | Some (ret, portList) =>
      if negb (ret =? UEC_OK) then mret ret else
      for_each (λ it, AddPortInfo (id it) (supportedModes it) (currentMode (usbPortStatus it))
                        (currentDataRole (usbPortStatus it)) (currentPowerRole (usbPortStatus it))) portList;;
      mret ret
  end.

Definition AddSupportedMode : M () := modify (λ m, set_modes (supportedModes <$> portMap_ m) m).

Definition Init : M () := _ ← QueryPort; AddSupportedMode.

(** The mode that goes with a data role; another role keeps the mode. *)
Definition mode_for (dataRole mode : Z) : Z :=
  if dataRole =? DATA_ROLE_HOST then PORT_MODE_HOST
  else if dataRole =? DATA_ROLE_DEVICE then PORT_MODE_DEVICE else mode.

(** The arguments [mode] and [supportedModes] are not used. *)
Definition UpdatePort (portId powerRole dataRole mode : Z) : M () :=
  m ← get;
  match portMap_ m !! portId with
  | Some p =>
      if id p =? portId then
        let s := usbPortStatus p in
        port_emit (ReportPortRoleChange (currentPowerRole s) powerRole (currentDataRole s) dataRole);;
        modify (λ m, set_ports (<[portId := {| id := id p; supportedModes := supportedModes p;
          usbPortStatus := {| currentMode := mode_for dataRole (currentMode s);
            currentPowerRole := powerRole; currentDataRole := dataRole |} |}]> (portMap_ m)) m)
      else mret ()
  | None => mret ()
  end.
Definition UpdatePortWithModes (portId powerRole dataRole mode supportedModes : Z) : M () :=
  UpdatePort portId powerRole dataRole mode.

(** The code, and the ports after those already in the caller's vector. *)
Definition GetPorts (ports : list UsbPort) : M (Z * list UsbPort) :=
  m ← get;
  if (0 <? Z.of_nat (size (portMap_ m))) then mret (UEC_OK, ports ++ (by_key (portMap_ m)).*2) else
  ret ← QueryPort;
  if ret =? UEC_OK then m ← get; mret (ret, ports ++ (by_key (portMap_ m)).*2)
  else mret (uec UEC_SERVICE_INVALID_VALUE, ports).

Definition GetSupportedModes (portId modes : Z) : M (Z * Z) :=
  m ← get;
  match supportedModeMap_ m !! portId with
  | Some s => mret (UEC_OK, s)
  | None => mret (uec UEC_SERVICE_INVALID_VALUE, modes)
  end.

(** *** Roles *)

Definition IsReverseCharge : M bool :=
  m ← get;
  match portMap_ m !! CMD_INDEX with
  | None => mret false
  | Some p => mret (if currentPowerRole (usbPortStatus p) =? DEFAULT_ROLE_HOST then true else false)
  end.

Definition SetPortRole (portId powerRole dataRole : Z) : M Z :=
  r ← on_port (port_SetPortRole portId powerRole dataRole);
  match r with
  | None => mret (uec UEC_SERVICE_INVALID_VALUE)
  | Some ret =>
      if negb (ret =? UEC_OK) then mret ret else
      reverse ← IsReverseCharge;
      (if (reverse : bool) then port_emit (PortSendNotification USB_FUNC_REVERSE_CHARGE)
       else port_emit (PortSendNotification USB_FUNC_CHARGE));;
      mret UEC_OK
  end.

(** *** Set-up *)

(** [gets i]: what the [i]-th [IUsbPortInterface::Get()] returns. *)
Fixpoint get_interface (gets : nat → option D) (i n : nat) : M () :=
  match n with
  | O => mret ()
  | S n =>
      modify (set_port_interface (gets i));;
      match gets i with
      | None => port_emit (PortSleep WAIT_DELAY_US);; get_interface gets (S i) n
      | Some _ => mret ()
      end
  end.
Definition InitUsbPortInterface (gets : nat → option D) (subscriber_ok : bool) : M bool :=
  get_interface gets 0 INTERFACE_ATTEMPTS;;
  m ← get;
  match usbPortInterface_ m with
  | None => mret false
  | Some d =>
      if negb subscriber_ok then mret false else
      modify (set_recipient true);;
      if negb (port_AddDeathRecipient d) then mret false else
      ret ← on_port port_BindUsbdPortSubscriber; mret (default HDF_FAILURE ret =? UEC_OK)
  end.

Definition Stop : M () :=
  m ← get;
  match usbPortInterface_ m with
  | None => mret ()
  | Some _ =>
      modify (set_recipient false);;
      _ ← on_port port_UnbindUsbdPortSubscriber;
      port_emit PortNotifyProcessStatus
  end.

Definition BindUsbdSubscriber : M Z :=
  ret ← on_port port_BindUsbdPortSubscriber; mret (default (uec UEC_SERVICE_INVALID_VALUE) ret).
Definition UnbindUsbdSubscriber : M Z :=
  ret ← on_port port_UnbindUsbdPortSubscriber; mret (default (uec UEC_SERVICE_INVALID_VALUE) ret).

(** *** The dump command: the texts printed, in order *)

(** [None]: the element 0 of an empty vector is read. *)
Definition GetPortsInfo : M (option (list string)) :=
  '(ret, usbports) ← GetPorts [];
  if negb (ret =? UEC_OK) then mret (Some ["GetPortsInfo:GetPorts failed"]) else
  match usbports with
  | [] => mret None
  | p :: _ =>
      let mode := currentMode (usbPortStatus p) in
      mret (Some ["get current port " +:+ pretty mode +:+ (if mode =? HOST_MODE then ": host" else ": device")])
  end.

Definition GetDumpHelp : list string :=
  ["=========== dump the all device port ==========="; "usb_port -a: Query All Port List";
   "usb_port -p Q: Query Port"] ++
  (if hidumper_set then ["usb_port -p 1: Switch to host"; "usb_port -p 2: Switch to device"] else []) ++
  ["------------------------------------------------"].

Definition port_line (p : UsbPort) : string :=
  let s := usbPortStatus p in
  "id: " +:+ pretty (id p) +:+ " | supportedModes: " +:+ pretty (supportedModes p) +:+
  " | currentMode: " +:+ pretty (currentMode s) +:+ " | currentPowerRole: " +:+ pretty (currentPowerRole s) +:+
  " | currentDataRole: " +:+ pretty (currentDataRole s).

Definition DumpGetSupportPort : M (list string) :=
  '(ret, ports) ← GetPorts [];
  mret ("Usb Port device status:" ::
    (if negb (ret =? UEC_OK) then ["UsbPortManager::GetPorts failed, port is empty"]
     else if (length ports =? 0)%nat then ["all port list is empty"]
     else map port_line ports)).

Definition DumpSetPortRoles (args : string) : M (option (list string)) :=
  m ← get;
  match usbPortInterface_ m with
  | None => mret (Some [])
  | Some _ =>
      if bool_decide (args = "Q") then GetPortsInfo else
      if hidumper_set then
        if negb (match_digits args) then mret (Some ("Invalid input, please enter a valid integer" :: GetDumpHelp))
        else if (MAX_INPUT_STRING_NUMBER_SIZE <? String.length args)%nat
        then mret (Some ["Invalid input, value out of range"])
        else let mode := digits_value args in
          if mode =? DEFAULT_ROLE_HOST then
            _ ← SetPortRole PORT_MODE_DEVICE POWER_ROLE_SOURCE DATA_ROLE_HOST; GetPortsInfo
          else if mode =? DEFAULT_ROLE_DEVICE then
            _ ← SetPortRole PORT_MODE_DEVICE POWER_ROLE_SINK DATA_ROLE_DEVICE; GetPortsInfo
          else mret (Some ("port param error, please enter again" :: GetDumpHelp))
      else mret (Some ("port param error, please enter again" :: GetDumpHelp))
  end.

Definition Dump (args : list string) : M (option (list string)) :=
  if (length args <? 2)%nat || (3 <? length args)%nat then mret (Some GetDumpHelp)
  else if bool_decide (nth 1 args "" = "-a") && (length args =? 2)%nat
  then r ← DumpGetSupportPort; mret (Some r)
  else if bool_decide (nth 1 args "" = "-p") && (length args =? 3)%nat then DumpSetPortRoles (nth 2 args "")
  else mret (Some ("port param error, please enter again" :: GetDumpHelp)).
End Manager.

(** ** The subscriber's port event (services/native/src/usb_manager_subscriber.cpp) *)

Section Subscriber.
Context {D : Type} `{!ErrCodeBase, !CJson}.

(** [PortChangedEvent]: update the port of the service and publish the event;
    [publish] says whether the event could be published. The boolean of a
    successful publication is returned as the code. *)
Definition PortChangedEvent (portId powerRole dataRole mode modes : Z) (publish : string → bool)
  : state (UsbPortManager D) Z :=
  if negb cJSON_Create_ok then mret (uec UEC_SERVICE_OBJECT_CREATE_FAILED) else
  match cJSON_PrintUnformatted (JObject [("portId", JNumber portId); ("powerRole", JNumber powerRole);
    ("dataRole", JNumber dataRole); ("mode", JNumber mode); ("supportedModes", JNumber modes)]) with
  | None => mret (uec UEC_SERVICE_OBJECT_CREATE_FAILED)
  | Some jsonString =>
      UpdatePortWithModes portId powerRole dataRole mode modes;;
      mret (if publish jsonString then 1 else 0)
  end.
End Subscriber.

(** ** Theorems *)

Section Spec.
Context {D : Type} `{!UsbPortInterface D, !ErrCodeBase}.
Implicit Types m : UsbPortManager D.

(** Each port is stored under its identifier. *)
Definition ports_wf m : Prop := map_Forall (λ k p, id p = k) (portMap_ m).

(** The operations that change the table. *)
Inductive port_step : UsbPortManager D → UsbPortManager D → Prop :=
  | port_step_init m : port_step m (Init m).2
  | port_step_query m : port_step m (QueryPort m).2
  | port_step_get ports m : port_step m (GetPorts ports m).2
  | port_step_add p m : port_step m (AddPort p m).2
  | port_step_remove i m : port_step m (RemovePort i m).2
  | port_step_update i pr dr mode m : port_step m (UpdatePort i pr dr mode m).2
  | port_step_role i pr dr m : port_step m (SetPortRole i pr dr m).2.

(** What a query may do: add ports, keeping those that are there. *)
Definition extends m m' : Prop := portMap_ m ⊆ portMap_ m' ∧ (ports_wf m → ports_wf m').

Lemma extends_refl m : extends m m.
Proof. by split. Qed.
Lemma extends_trans m1 m2 m3 : extends m1 m2 → extends m2 m3 → extends m1 m3.
Proof. intros [? ?] [? ?]. split; [by trans (portMap_ m2)|auto]. Qed.

Lemma add_extends p m : extends m (AddPort p m).2.
Proof.
  unfold AddPort. cbn [modify snd]. destruct (portMap_ m !! id p) eqn:E; [apply extends_refl|].
  split; cbn [set_ports portMap_]; [by apply insert_subseteq|].
  intros Hw. by apply map_Forall_insert_2.
Qed.

Lemma add_all_extends l m :
  extends m (for_each (λ it, AddPortInfo (id it) (supportedModes it) (currentMode (usbPortStatus it))
                        (currentDataRole (usbPortStatus it)) (currentPowerRole (usbPortStatus it))) l m).2.
Proof.
  revert m. induction l as [|p l IH]; intros m; [apply extends_refl|]. cbn [for_each]. rewrite bind_run.
  eapply extends_trans; [apply add_extends|]. apply IH.
Qed.

Lemma on_port_ports {A} (f : state D A) m : portMap_ (on_port f m).2 = portMap_ m.
Proof. unfold on_port. destruct (usbPortInterface_ m); [|done]. by destruct (f d). Qed.

Lemma query_extends m : extends m (QueryPort m).2.
Proof.
  unfold QueryPort. rewrite bind_run. pose proof (on_port_ports port_QueryPorts m) as Hp.
  destruct (on_port port_QueryPorts m) as [r m1]. cbn [fst snd] in *.
  assert (extends m m1) as H1 by (unfold extends, ports_wf; by rewrite Hp).
  destruct r as [[ret l]|]; [|done]. destruct (negb _); [done|]. rewrite bind_run, ret_run.
  eapply extends_trans; [exact H1|]. apply add_all_extends.
Qed.

Lemma get_ports_extends ports m : extends m (GetPorts ports m).2.
Proof.
  unfold GetPorts. rewrite bind_run. cbn [get fst snd]. destruct (0 <? _); [apply extends_refl|].
  rewrite bind_run. pose proof (query_extends m) as He. destruct (QueryPort m) as [ret m1]. cbn [fst snd] in *.
  by destruct (ret =? UEC_OK).
Qed.

Lemma update_ports i pr dr mode m : ports_wf m →
  portMap_ (UpdatePort i pr dr mode m).2 =
    alter (λ p, {| id := id p; supportedModes := supportedModes p;
      usbPortStatus := {| currentMode := mode_for dr (currentMode (usbPortStatus p));
        currentPowerRole := pr; currentDataRole := dr |} |}) i (portMap_ m).
Proof.
  intros Hw. unfold UpdatePort. rewrite bind_run. cbn [get fst snd].
  destruct (portMap_ m !! i) as [p|] eqn:Hp.
  - rewrite (Hw _ _ Hp), Z.eqb_refl, bind_run. cbn. apply map_eq. intros k.
    destruct (decide (k = i)) as [->|Hne].
    + rewrite lookup_insert_eq, lookup_alter_eq, Hp. cbn. by rewrite (Hw _ _ Hp).
    + by rewrite lookup_insert_ne, lookup_alter_ne.
  - cbn. apply map_eq. intros k. destruct (decide (k = i)) as [->|Hne].
    + by rewrite lookup_alter_eq, Hp.
    + by rewrite lookup_alter_ne.
Qed.

Lemma set_role_ports i pr dr m : portMap_ (SetPortRole i pr dr m).2 = portMap_ m.
Proof.
  unfold SetPortRole. rewrite bind_run. pose proof (on_port_ports (port_SetPortRole i pr dr) m) as Hp.
  destruct (on_port (port_SetPortRole i pr dr) m) as [r m1]. cbn [fst snd] in *.
  destruct r as [ret|]; [|done]. destruct (negb _); [done|]. rewrite <- Hp. unfold IsReverseCharge. run_unfold.
  destruct (portMap_ m1 !! CMD_INDEX) as [p|]; [|done]. by destruct (_ =? DEFAULT_ROLE_HOST).
Qed.

Lemma port_step_wf m m' : port_step m m' → ports_wf m → ports_wf m'.
Proof.
  intros [x|x|ports x|p x|i x|i pr dr mode x|i pr dr x] Hw.
  - unfold Init. rewrite bind_run. exact (proj2 (query_extends x) Hw).
  - exact (proj2 (query_extends x) Hw).
  - exact (proj2 (get_ports_extends ports x) Hw).
  - exact (proj2 (add_extends p x) Hw).
  - intros k p Hp. cbn in Hp. apply lookup_delete_Some in Hp as [_ Hp]. by apply Hw.
  - intros k p. rewrite update_ports by done. intros Hp.
    apply lookup_alter_Some in Hp as [(<- & q & Hq & ->)|[_ Hp]]; [exact (Hw _ _ Hq)|exact (Hw _ _ Hp)].
  - unfold ports_wf. by rewrite set_role_ports.
Qed.

(** The ports in ascending order, none missing. *)
Lemma by_key_spec {A} (t : gmap Z A) :
  StronglySorted key_le (by_key t) ∧ by_key t ≡ₚ map_to_list t.
Proof.
  split; [|apply merge_sort_Permutation].
  apply (StronglySorted_merge_sort key_le).
Qed.
End Spec.

(** ** Properties *)

Section Properties.
Context {D : Type} `{!UsbPortInterface D, !ErrCodeBase}.
Implicit Types m : UsbPortManager D.

(** In every state the operations reach from a well-formed one each port is
    stored under its own identifier, and an [UpdatePort] changes exactly that
    port: its roles to the given ones, its mode to the one of the data role, its
    identifier and supported modes not at all. *)
Theorem UpdatePort_exact m0 m i pr dr mode : ports_wf m0 → rtc port_step m0 m →
  let m' := (UpdatePort i pr dr mode m).2 in
  ports_wf m' ∧
  (∀ k, k ≠ i → portMap_ m' !! k = portMap_ m !! k) ∧
  portMap_ m' !! i = (λ p, {| id := i; supportedModes := supportedModes p;
    usbPortStatus := {| currentMode := mode_for dr (currentMode (usbPortStatus p));
                        currentPowerRole := pr; currentDataRole := dr |} |}) <$> portMap_ m !! i.
Proof.
  intros Hw Hr. assert (ports_wf m) as Hm.
  { revert Hw. induction Hr as [|x y z Hxy _ IH]; [done|]. intros Hw. apply IH, (port_step_wf _ _ Hxy Hw). }
  cbv zeta. split; [by apply (port_step_wf m), Hm; constructor|]. rewrite update_ports by done. split.
  - intros k Hk. by rewrite lookup_alter_ne.
  - rewrite lookup_alter_eq. destruct (portMap_ m !! i) as [p|] eqn:Hp; [|done]. cbn. by rewrite (Hm _ _ Hp).
Qed.

(** [GetPorts] answers from the table when it has ports and asks the
    hardware otherwise; on success it appends every port of the table once, by
    ascending identifier, and whatever the hardware's failure the caller sees
    the invalid-value code and its vector unchanged. A query never changes a
    port that is known. *)
Theorem GetPorts_table ports m :
  let '(ret, out, m') := GetPorts ports m in
  portMap_ m ⊆ portMap_ m' ∧
  (portMap_ m ≠ ∅ → ret = UEC_OK ∧ m' = m) ∧
  (ret = UEC_OK ∧ (∃ l, out = ports ++ l.*2 ∧ StronglySorted key_le l ∧ l ≡ₚ map_to_list (portMap_ m')) ∨
   ret = uec UEC_SERVICE_INVALID_VALUE ∧ out = ports).
Proof.
  pose proof (get_ports_extends ports m) as [He _].
  destruct (GetPorts ports m) as [[ret out] m'] eqn:HG. cbn [snd] in He. split; [done|]. revert HG.
  unfold GetPorts. rewrite bind_run. cbn [get fst snd]. destruct (0 <? _) eqn:Es.
  - rewrite ret_run. intros [= <- <- <-]. split; [done|]. left. split; [done|].
    exists (by_key (portMap_ m)). by destruct (by_key_spec (portMap_ m)).
  - rewrite bind_run. destruct (QueryPort m) as [r m1]. cbn [fst snd]. intros HG. split.
    + intros Hne. zbool. exfalso. apply Hne, map_size_empty_inv. lia.
    + destruct (r =? UEC_OK) eqn:Er; [|rewrite ret_run in HG; injection HG as <- <- <-; by right].
      rewrite bind_run in HG. cbn [get fst snd] in HG. rewrite ret_run in HG. injection HG as <- <- <-. zbool.
      left. split; [done|]. exists (by_key (portMap_ m1)). by destruct (by_key_spec (portMap_ m1)).
Qed.
End Properties.

(** A port sent through a parcel arrives as it was: unmarshalling what
    marshalling wrote gives the same port and leaves nothing in the parcel. *)
Theorem port_parcel_roundtrip {P} `{!Parcel P, !ParcelLaws P} (port : UsbPort) (p : P) :
  Forall in_i32 [id port; supportedModes port; currentMode (usbPortStatus port);
                 currentPowerRole (usbPortStatus port); currentDataRole (usbPortStatus port)] →
  contents p = [] → (UsbPort.Marshalling port p).1 = true →
  (UsbPort.Unmarshalling (UsbPort.Marshalling port p).2).1 = port ∧
  contents (UsbPort.Unmarshalling (UsbPort.Marshalling port p).2).2 = [].
Proof.
  rewrite !Forall_cons. intros (H1 & H2 & H3 & H4 & H5 & _) Hp H.
  pose proof (write_fields_spec _ _ H) as Hc. fold (UsbPort.Marshalling port) in Hc. rewrite Hp in Hc.
  assert (reads UsbPort.Unmarshalling port (map field_item [FInt32 (id port); FInt32 (supportedModes port);
    FInt32 (currentMode (usbPortStatus port)); FInt32 (currentPowerRole (usbPortStatus port));
    FInt32 (currentDataRole (usbPortStatus port))])) as HR.
  { unfold UsbPort.Unmarshalling. cbn [map field_item]. repeat (eapply reads_cons; [by auto with usb|]).
    destruct port as [? ? []]. apply reads_ret. }
  apply HR. by rewrite app_nil_r.
Qed.

(** ** Runs *)

(** A board with one port; its state is the port's power role. *)
#[export] Instance demo_ports : UsbPortInterface Z := {
  port_BindUsbdPortSubscriber d := (0, d);
  port_UnbindUsbdPortSubscriber d := (0, d);
  port_AddDeathRecipient _ := true;
  port_SetPortRole _ pr _ _ := (0, pr);
  port_QueryPorts d := ((0, [{| id := 1; supportedModes := 3; usbPortStatus :=
    {| currentMode := 1; currentPowerRole := d; currentDataRole := 2 |} |}]), d);
}.
#[local] Existing Instance demo_err_base.
Definition demo_port_manager : UsbPortManager Z := {|
  portMap_ := ∅; supportedModeMap_ := ∅; usbPortInterface_ := Some 2; recipient_ := false; port_trace_ := [] |}.

Lemma UpdatePort_exact_witness :
  (currentMode ∘ usbPortStatus) <$> portMap_ (UpdatePort 1 1 1 0 (Init demo_port_manager).2).2 !! 1 = Some PORT_MODE_HOST.
Proof.
  destruct (UpdatePort_exact demo_port_manager (Init demo_port_manager).2 1 1 1 0) as (_ & _ & ->).
  - apply map_Forall_empty.
  - eapply rtc_l; [constructor|apply rtc_refl].
  - vm_compute. reflexivity.
Defined.

Lemma port_parcel_roundtrip_witness :
  let p := {| id := 1; supportedModes := 3; usbPortStatus :=
    {| currentMode := 1; currentPowerRole := 2; currentDataRole := 2 |} |} in
  (UsbPort.Unmarshalling (UsbPort.Marshalling p ([] : list parcel_item)).2).1 = p.
Proof. cbv zeta. apply port_parcel_roundtrip; [|reflexivity..].
  repeat constructor; unfold in_i32; cbn; lia.
Defined.

(** [SetPortRole] notifies the role the port had before: the change event that
    updates the table has not arrived yet. *)
Example role_notification_is_old :
  let m := (Init demo_port_manager).2 in
  port_trace_ (SetPortRole 1 POWER_ROLE_SOURCE DATA_ROLE_HOST m).2 = [PortSendNotification USB_FUNC_CHARGE].
Proof. vm_compute. reflexivity. Qed.

(** Hardware that reports no port makes [GetPortsInfo] read past its vector. *)
Definition no_ports : UsbPortInterface Z := {|
  port_BindUsbdPortSubscriber d := (0, d); port_UnbindUsbdPortSubscriber d := (0, d);
  port_AddDeathRecipient _ := true; port_SetPortRole _ pr _ _ := (0, pr); port_QueryPorts d := ((0, []), d) |}.
Example ports_info_out_of_range : (@GetPortsInfo _ no_ports _ demo_port_manager).1 = None.
Proof. reflexivity. Qed.
