(* ===== verification/Base64.v ===== *)
(** * Base64 (services/native/src/usb_accessory_manager.cpp, Base64Decode)

    The decoder of the accessory's extra information, and the encoding of
    RFC 4648 it inverts. *)
From S2P Require Import Prelude.

Definition BASE_64_CHARS : string :=
  "ABCDEFGHIJKLMNOPQRSTUVWXYZabcdefghijklmnopqrstuvwxyz0123456789+/".

(** [BASE_64_CHARS.find(c)] stored in an [unsigned char]: [npos] becomes 255. *)
Fixpoint find_char (s : string) (c : ascii) (i : Z) : Z :=
  match s with
  | "" => 255
  | String x s => if bool_decide (x = c) then i else find_char s c (i + 1)
  end.
Definition char_index (c : ascii) : Z := find_char BASE_64_CHARS c 0.

Definition char_code (c : ascii) : Z := Z.of_N (N_of_ascii c).
Definition isalnum (c : ascii) : bool :=
  is_digit c || ((65 <=? char_code c) && (char_code c <=? 90)) || ((97 <=? char_code c) && (char_code c <=? 122)).
Definition IsBase64 (c : ascii) : bool :=
  isalnum c || bool_decide (c = "+"%char) || bool_decide (c = "/"%char).

(** The three bytes of four indices, as [unsigned char]s. *)
Definition char_array3 (a b c d : Z) : list Z :=
  [to_u8 (Z.shiftl a 2 + Z.shiftr (Z.land b 0x30) 4);
   to_u8 (Z.shiftl (Z.land b 0xf) 4 + Z.shiftr (Z.land c 0x3c) 2);
   to_u8 (Z.shiftl (Z.land c 0x3) 6 + d)].

(** What is left in the buffer when the loop ends: the missing characters are
    NULs, [i - 1] bytes are kept. *)
Definition decode_tail (buf : list ascii) : list Z :=
  match buf with
  | [] => []
  | _ =>
      let at_ n := char_index (nth n buf Ascii.zero) in
      take (length buf - 1) (char_array3 (at_ 0%nat) (at_ 1%nat) (at_ 2%nat) (at_ 3%nat))
  end.

(** The loop, with the characters collected so far. *)
Fixpoint decode_loop (s : string) (buf : list ascii) : list Z :=
  match s with
  | "" => decode_tail buf
  | String ch s =>
      if negb (bool_decide (ch = "="%char)) && IsBase64 ch then
        match buf with
        | [a; b; c] => char_array3 (char_index a) (char_index b) (char_index c) (char_index ch) ++ decode_loop s []
        | _ => decode_loop s (buf ++ [ch])
        end
      else decode_tail buf
  end.
Definition Base64Decode (basicString : string) : list Z := decode_loop basicString [].

(** ** The encoding it inverts *)

Definition b64_char (i : Z) : ascii :=
  match String.get (Z.to_nat i) BASE_64_CHARS with Some c => c | None => Ascii.zero end.

(** RFC 4648: three bytes make four characters, a short last group is padded. *)
Fixpoint encode (l : list Z) : string :=
  match l with
  | [] => ""
  | [x] => String (b64_char (x `div` 4)) (String (b64_char (x `mod` 4 * 16)) "==")
  | [x; y] => String (b64_char (x `div` 4)) (String (b64_char (x `mod` 4 * 16 + y `div` 16))
                (String (b64_char (y `mod` 16 * 4)) "="))
  | x :: y :: z :: l =>
      String (b64_char (x `div` 4)) (String (b64_char (x `mod` 4 * 16 + y `div` 16))
        (String (b64_char (y `mod` 16 * 4 + z `div` 64)) (String (b64_char (z `mod` 64)) (encode l))))
  end.

Definition is_byte (x : Z) : Prop := 0 <= x < 256.

(** ** Lemmas *)

Definition char_good (i : Z) : bool :=
  (char_index (b64_char i) =? i) && negb (bool_decide (b64_char i = "="%char)) && IsBase64 (b64_char i) &&
  (Z.shiftr (Z.land i 0x30) 4 =? i `div` 16) && (Z.land i 0xf =? i `mod` 16) &&
  (Z.shiftr (Z.land i 0x3c) 2 =? i `div` 4) && (Z.land i 0x3 =? i `mod` 4).

Lemma char_good_all i : 0 <= i < 64 → char_good i = true.
Proof.
  intros Hi. assert (forallb char_good (seqZ 0 64) = true) as H by (vm_compute; reflexivity).
  rewrite forallb_forall in H. apply H, list_elem_of_In, elem_of_seqZ. lia.
Qed.
Lemma char_good_spec i : 0 <= i < 64 →
  char_index (b64_char i) = i ∧ negb (bool_decide (b64_char i = "="%char)) && IsBase64 (b64_char i) = true.
Proof.
  intros Hi. pose proof (char_good_all i Hi) as H. unfold char_good in H. rewrite !andb_true_iff, !Z.eqb_eq in H.
  destruct H as [[[[[[Hx Hy] Hz] _] _] _] _]. by rewrite Hx, Hy, Hz.
Qed.
Lemma char_masks i : 0 <= i < 64 →
  Z.shiftr (Z.land i 0x30) 4 = i `div` 16 ∧ Z.land i 0xf = i `mod` 16 ∧
  Z.shiftr (Z.land i 0x3c) 2 = i `div` 4 ∧ Z.land i 0x3 = i `mod` 4.
Proof.
  intros Hi. pose proof (char_good_all i Hi) as H. unfold char_good in H. rewrite !andb_true_iff, !Z.eqb_eq in H.
  tauto.
Qed.

Lemma array3_spec a b c d : 0 <= a < 64 → 0 <= b < 64 → 0 <= c < 64 → 0 <= d < 64 →
  char_array3 a b c d = [a * 4 + b `div` 16; b `mod` 16 * 16 + c `div` 4; c `mod` 4 * 64 + d].
Proof.
  intros Ha Hb Hc Hd. unfold char_array3.
  destruct (char_masks b Hb) as (-> & -> & _), (char_masks c Hc) as (_ & _ & -> & ->).
  rewrite !Z.shiftl_mul_pow2 by lia. unfold to_u8.
  repeat f_equal; rewrite Z.mod_small; Z.div_mod_to_equations; lia.
Qed.

(** A group of four good characters is consumed as a whole. *)
Lemma loop_group a b c d s : 0 <= a < 64 → 0 <= b < 64 → 0 <= c < 64 → 0 <= d < 64 →
  decode_loop (String (b64_char a) (String (b64_char b) (String (b64_char c) (String (b64_char d) s)))) [] =
    char_array3 a b c d ++ decode_loop s [].
Proof.
  intros Ha Hb Hc Hd.
  destruct (char_good_spec a Ha) as [Ia Ga], (char_good_spec b Hb) as [Ib Gb],
    (char_good_spec c Hc) as [Ic Gc], (char_good_spec d Hd) as [Id Gd].
  cbn [decode_loop app]. rewrite Ga. cbn [decode_loop app]. rewrite Gb. cbn [decode_loop app].
  rewrite Gc. cbn [decode_loop app]. by rewrite Gd, Ia, Ib, Ic, Id.
Qed.

(** Four indices of three bytes give the bytes back. *)
Lemma group_bytes x y z : is_byte x → is_byte y → is_byte z →
  char_array3 (x `div` 4) (x `mod` 4 * 16 + y `div` 16) (y `mod` 16 * 4 + z `div` 64) (z `mod` 64) = [x; y; z].
Proof.
  unfold is_byte. intros Hx Hy Hz.
  rewrite array3_spec by (Z.div_mod_to_equations; lia).
  repeat f_equal; Z.div_mod_to_equations; lia.
Qed.

(** The last one or two bytes: the padding stops the loop. *)
Lemma tail_one x : is_byte x → decode_loop (encode [x]) [] = [x].
Proof.
  unfold is_byte. intros Hx.
  assert (0 <= x `div` 4 < 64 ∧ 0 <= x `mod` 4 * 16 < 64) as [Ha Hb] by (Z.div_mod_to_equations; lia).
  destruct (char_good_spec _ Ha) as [Ia Ga], (char_good_spec _ Hb) as [Ib Gb].
  cbn [encode decode_loop app]. rewrite Ga. cbn [decode_loop app]. rewrite Gb. cbn [decode_loop app].
  change (negb (bool_decide ("="%char = "="%char)) && IsBase64 "=") with false. cbn [decode_tail length nth].
  rewrite Ia, Ib. cbn [Nat.sub take char_array3]. destruct (char_masks _ Hb) as (-> & _).
  rewrite Z.shiftl_mul_pow2 by lia. unfold to_u8. f_equal.
  rewrite Z.mod_small; Z.div_mod_to_equations; lia.
Qed.
Lemma tail_two x y : is_byte x → is_byte y → decode_loop (encode [x; y]) [] = [x; y].
Proof.
  unfold is_byte. intros Hx Hy.
  assert (0 <= x `div` 4 < 64 ∧ 0 <= x `mod` 4 * 16 + y `div` 16 < 64 ∧ 0 <= y `mod` 16 * 4 < 64) as (Ha & Hb & Hc)
    by (Z.div_mod_to_equations; lia).
  destruct (char_good_spec _ Ha) as [Ia Ga], (char_good_spec _ Hb) as [Ib Gb], (char_good_spec _ Hc) as [Ic Gc].
  cbn [encode decode_loop app]. rewrite Ga. cbn [decode_loop app]. rewrite Gb. cbn [decode_loop app].
  rewrite Gc. cbn [decode_loop app].
  change (negb (bool_decide ("="%char = "="%char)) && IsBase64 "=") with false. cbn [decode_tail length nth].
  rewrite Ia, Ib, Ic. cbn [Nat.sub take char_array3].
  destruct (char_masks _ Hb) as (-> & -> & _), (char_masks _ Hc) as (_ & _ & -> & _).
  rewrite !Z.shiftl_mul_pow2 by lia. unfold to_u8.
  repeat f_equal; rewrite Z.mod_small; Z.div_mod_to_equations; lia.
Qed.

Lemma decode_encode_groups n l : (length l <= n)%nat → Forall is_byte l → decode_loop (encode l) [] = l.
Proof.
  revert l. induction n as [|n IH]; intros l Hn Hl.
  { destruct l; [done|]. cbn [length] in Hn. lia. }
  destruct l as [|x [|y [|z l]]]; [done| | |].
  - apply tail_one. by apply Forall_cons in Hl as [? _].
  - rewrite !Forall_cons in Hl. destruct Hl as (? & ? & _). by apply tail_two.
  - rewrite !Forall_cons in Hl. destruct Hl as (Hx & Hy & Hz & Hl). cbn [encode].
    rewrite loop_group by (unfold is_byte in *; Z.div_mod_to_equations; lia).
    rewrite group_bytes by done. cbn [app]. rewrite IH; [done| |done]. cbn [length] in Hn. lia.
Qed.
