(* ===== verification/UsbAccessoryManager.v ===== *)
(** * The accessory manager (services/native/src/usb_accessory_manager.cpp)

    The state machine of the accessory mode: configuration with its timeout,
    start, stop and the extra-information request; the connect and disconnect
    events are debounced by a delayed task. *)
From S2P Require Import Prelude UsbErrors Platform UsbAccessory UsbDeviceManager Base64.

Definition ACCESSORY_INFO_SIZE : nat := 5.
Definition ACCESSORY_EXTRA_INDEX : nat := 5.
Definition FUN_ACCESSORY : Z := Z.shiftl 1 11.
Definition NUM_OF_SERAIL_BIT : nat := 16.
Definition DELAY_ACC_INTERVAL : Z := 10 * 1000.
Definition ANTI_SHAKE_INTERVAL : Z := 1 * 1000.
Definition ACCESSORY_IS_BUSY : Z := -16.

(** [ACCESSORYMODE]. *)
Definition ACC_NONE : Z := 0.
Definition ACC_CONFIGURING : Z := 1.
Definition ACC_START : Z := 2.
Definition ACC_STOP : Z := 3.
Definition ACC_SEND : Z := 4.

(** The device interface's accessory calls; [acc_open_driver] is the descriptor
    [open] gives for the accessory driver. *)
Class AccessoryDevice (D : Type) `{!UsbDeviceInterface D} := {
  acc_GetAccessoryInfo : state D (list string);
  acc_OpenAccessory : Z → state D (Z * Z);
  acc_CloseAccessory : Z → state D Z;
  acc_open_driver : state D Z;
}.

Inductive AccessoryTask := AntiShakeTask | ConfigTimeoutTask.

Inductive AccessoryEffect :=
  | AccessoryAttached (data : string)
  | AccessoryDetached (data : string).

Record UsbAccessoryManager (D T : Type) := {
  accessory : USBAccessory;
  accStatus_ : Z;
  eventStatus_ : Z;
  curDeviceFunc_ : Z;
  lastDeviceFunc_ : Z;
  accFd_ : Z;
  accDelayTimerId_ : Z;
  antiShakeDelayTimerId_ : Z;
  accDevice_ : option D;              (* usbDeviceInterface_ *)
  accTimer_ : T;
  accTrace_ : list AccessoryEffect;   (* newest first *)
}.
Arguments accessory {D T} _.
Arguments accStatus_ {D T} _.
Arguments eventStatus_ {D T} _.
Arguments curDeviceFunc_ {D T} _.
Arguments lastDeviceFunc_ {D T} _.
Arguments accFd_ {D T} _.
Arguments accDelayTimerId_ {D T} _.
Arguments antiShakeDelayTimerId_ {D T} _.
Arguments accDevice_ {D T} _.
Arguments accTimer_ {D T} _.
Arguments accTrace_ {D T} _.
Arguments Build_UsbAccessoryManager {D T} _ _ _ _ _ _ _ _ _ _ _.

Section Fields.
Context {D T : Type}.
Implicit Types m : UsbAccessoryManager D T.
Definition set_accessory (x : USBAccessory) m := let 'Build_UsbAccessoryManager _ b c d e f g h i j k := m in
  Build_UsbAccessoryManager x b c d e f g h i j k.
Definition set_status (x : Z) m := let 'Build_UsbAccessoryManager a _ c d e f g h i j k := m in
  Build_UsbAccessoryManager a x c d e f g h i j k.
Definition set_event (x : Z) m := let 'Build_UsbAccessoryManager a b _ d e f g h i j k := m in
  Build_UsbAccessoryManager a b x d e f g h i j k.
Definition set_cur (x : Z) m := let 'Build_UsbAccessoryManager a b c _ e f g h i j k := m in
  Build_UsbAccessoryManager a b c x e f g h i j k.
Definition set_last (x : Z) m := let 'Build_UsbAccessoryManager a b c d _ f g h i j k := m in
  Build_UsbAccessoryManager a b c d x f g h i j k.
Definition set_fd (x : Z) m := let 'Build_UsbAccessoryManager a b c d e _ g h i j k := m in
  Build_UsbAccessoryManager a b c d e x g h i j k.
Definition set_delay_id (x : Z) m := let 'Build_UsbAccessoryManager a b c d e f _ h i j k := m in
  Build_UsbAccessoryManager a b c d e f x h i j k.
Definition set_shake_id (x : Z) m := let 'Build_UsbAccessoryManager a b c d e f g _ i j k := m in
  Build_UsbAccessoryManager a b c d e f g x i j k.
Definition set_acc_device (x : option D) m := let 'Build_UsbAccessoryManager a b c d e f g h _ j k := m in
  Build_UsbAccessoryManager a b c d e f g h x j k.
Definition set_acc_timer (x : T) m := let 'Build_UsbAccessoryManager a b c d e f g h i _ k := m in
  Build_UsbAccessoryManager a b c d e f g h i x k.
Definition set_acc_trace (x : list AccessoryEffect) m := let 'Build_UsbAccessoryManager a b c d e f g h i j _ := m in
  Build_UsbAccessoryManager a b c d e f g h i j x.
End Fields.

(** ** The serial number's hash *)

Section Manager.
Context {D T : Type} `{!UsbDeviceInterface D, !AccessoryDevice D, !DelayTimer AccessoryTask T, !ErrCodeBase, !CJson}.
(** [std::hash], the clock in milliseconds, and whether an event is published. *)
Context (string_hash : string → Z) (int_hash : Z → Z) (millis : T → Z) (publish : AccessoryEffect → bool).

Abbreviation M := (state (UsbAccessoryManager D T)).

Definition on_acc {A} (f : state D A) : M (option A) := λ m,
  match accDevice_ m with
  | None => (None, m)
  | Some d => let '(a, d') := f d in (Some a, set_acc_device (Some d') m)
  end.
Definition on_acc_timer {A} (f : state T A) : M A := zoom accTimer_ set_acc_timer f.

(** [PublishCommonEvent], a boolean. *)
Definition PublishCommonEvent (x : AccessoryEffect) : M Z :=
  modify (λ m, set_acc_trace (x :: accTrace_ m) m);; mret (if publish x then 1 else 0).

(** *** Device calls *)

Definition InitUsbAccessoryInterface (interface : option D) : M bool :=
  modify (set_acc_device interface);;
  match interface with None => mret false | Some _ => mret true end.

Definition GetAccessoryInfo : M (list string) :=
  r ← on_acc acc_GetAccessoryInfo; mret (default [] r).
Definition SetFunctions (funcs : Z) : M Z :=
  r ← on_acc (dev_SetCurrentFunctions funcs); mret (default (uec UEC_SERVICE_INVALID_VALUE) r).
Definition GetFunctions (funcs : Z) : M (Z * Z) :=
  r ← on_acc (dev_GetCurrentFunctions funcs); mret (default (uec UEC_SERVICE_INVALID_VALUE, funcs) r).

(** The code and the descriptor. *)
Definition OpenAccessory (fd : Z) : M (Z * Z) :=
  r ← on_acc (acc_OpenAccessory fd);
  match r with
  | None => mret (uec UEC_SERVICE_INVALID_VALUE, fd)
  | Some (ret, fd) =>
      if ret =? UEC_OK then modify (set_fd fd);; mret (ret, fd)
      else if ret =? ACCESSORY_IS_BUSY then mret (uec UEC_SERVICE_ACCESSORY_REOPEN, fd)
      else mret (uec UEC_SERVICE_ACCESSORY_OPEN_NATIVE_NODE_FAILED, fd)
  end.

(** The argument is not used: the driver is opened anew. *)
Definition CloseAccessory (fd : Z) : M Z :=
  m ← get;
  match accDevice_ m with
  | None => mret (uec UEC_SERVICE_INVALID_VALUE)
  | Some _ =>
      newFd ← on_acc acc_open_driver;
      r ← on_acc (acc_CloseAccessory (default (-1) newFd));
      let ret := default (uec UEC_INTERFACE_INVALID_VALUE) r in
      if negb (ret =? UEC_OK) then mret ret else modify (set_fd 0);; mret ret
  end.

(** *** Queries *)

Definition GetAccessoryList (bundleName : string) (accessoryList : list USBAccessory) : M (list USBAccessory) :=
  m ← get;
  if accStatus_ m =? ACC_START
  then mret (accessoryList ++ [USBAccessory.SetSerialNumber (bundleName +:+ serialNumber_ (accessory m)) (accessory m)])
  else mret accessoryList.

Definition compare (s1 s2 : string) : bool :=
  if bool_decide (s1 = "") then bool_decide (s2 = "") else bool_decide (s1 = s2).

(** The code and [serialValue]. *)
Definition GetAccessorySerialNumber (access : USBAccessory) (bundleName serialValue : string) : M (Z * string) :=
  m ← get;
  let own := accessory m in
  if negb (accStatus_ m =? ACC_START) then mret (uec UEC_SERVICE_ACCESSORY_NOT_MATCH, serialValue)
  else if compare (manufacturer_ own) (manufacturer_ access) && compare (product_ own) (product_ access) &&
          compare (description_ own) (description_ access) && compare (manufacturer_ own) (manufacturer_ access) &&
          compare (version_ own) (version_ access) &&
          (compare (serialNumber_ own) (serialNumber_ access) ||
           compare (bundleName +:+ serialNumber_ own) (serialNumber_ access))
  then mret (UEC_OK, manufacturer_ access +:+ product_ access +:+ version_ access +:+ serialNumber_ access)
  else mret (uec UEC_SERVICE_ACCESSORY_NOT_MATCH, serialValue).

(** [size_t] arithmetic, stored in a [uint32_t]. *)
Definition SerialValueHash (serialValue : string) (timestamp : Z) : string :=
  let hashValue := to_u32 (Z.lxor (string_hash serialValue) (to_u64 (Z.shiftl (int_hash (to_u64 timestamp)) 1))) in
  zero_fill NUM_OF_SERAIL_BIT (hex_text hex_lower hashValue).

(** *** The state machine *)

Definition ProcessAccessoryStart (curFunc curAccStatus : Z) : M Z :=
  m ← get;
  let curFuncUint := to_u32 curFunc in
  if has_flag curFuncUint FUN_ACCESSORY && negb (accStatus_ m =? ACC_START) then
    modify (set_status ACC_START);;
    accessorys ← GetAccessoryInfo;
    modify (λ m, set_accessory (USBAccessory.SetAccessory accessorys (accessory m)) m);;
    m ← get;
    let hashSerial := SerialValueHash (serialNumber_ (accessory m)) (millis (accTimer_ m)) in
    modify (λ m, set_accessory (USBAccessory.SetSerialNumber hashSerial (accessory m)) m);;
    m ← get;
    PublishCommonEvent (AccessoryAttached (c_str (USBAccessory.GetJsonString (accessory m))))
  else if negb (has_flag curFuncUint FUN_ACCESSORY) && (curAccStatus =? ACC_CONFIGURING) then
    ret ← SetFunctions FUN_ACCESSORY;
    if negb (ret =? UEC_OK) then mret ret else
    modify (set_last (to_i32 curFuncUint));;
    id ← on_acc_timer (timer_Register ConfigTimeoutTask DELAY_ACC_INTERVAL true);
    modify (set_delay_id id);;
    modify (set_status ACC_CONFIGURING);;
    mret UEC_OK
  else mret UEC_OK.

Definition ProcessAccessoryStop (curFunc curAccStatus : Z) : M Z :=
  m ← get;
  if has_flag (to_u32 curFunc) FUN_ACCESSORY && (accStatus_ m =? ACC_START) then
    modify (set_status ACC_STOP);;
    _ ← SetFunctions (lastDeviceFunc_ m);
    modify (λ m, set_cur (lastDeviceFunc_ m) m);;
    m ← get;
    PublishCommonEvent (AccessoryDetached (c_str (USBAccessory.GetJsonString (accessory m))))
  else mret UEC_OK.

Definition ProcessAccessorySend : M Z :=
  modify (set_status ACC_SEND);;
  accessorys ← GetAccessoryInfo;
  modify (λ m, set_accessory (USBAccessory.SetAccessory accessorys (accessory m)) m);;
  let extra := nth ACCESSORY_EXTRA_INDEX accessorys "" in
  let finish (extraInfo : string) : M Z :=
    let extraAcces := USBAccessory.SetDescription extraInfo USBAccessory.empty in
    _ ← PublishCommonEvent (AccessoryAttached (c_str (USBAccessory.GetJsonString extraAcces)));
    mret UEC_OK in
  if (ACCESSORY_INFO_SIZE <? length accessorys)%nat && (ACCESSORY_EXTRA_INDEX <? length accessorys)%nat &&
     negb (bool_decide (extra = ""))
  then match cJSON_PrintUnformatted (JArray (map JNumber (Base64Decode extra))) with
       | None => mret (uec UEC_SERVICE_INVALID_VALUE)
       | Some pExtraJson => finish pExtraJson
       end
  else finish "".

Definition ProcessHandle (curAccStatus : Z) : M () :=
  m ← get;
  if (curAccStatus =? ACC_CONFIGURING) || (curAccStatus =? ACC_START) then
    on_acc_timer (timer_Unregister (accDelayTimerId_ m));;
    '(ret, curFunc) ← GetFunctions 0;
    if negb (ret =? UEC_OK) then mret () else
    modify (set_cur curFunc);;
    _ ← ProcessAccessoryStart curFunc curAccStatus; mret ()
  else if (curAccStatus =? ACC_STOP) && negb (accStatus_ m =? ACC_CONFIGURING) then
    _ ← ProcessAccessoryStop (curDeviceFunc_ m) curAccStatus; mret ()
  else if curAccStatus =? ACC_SEND then _ ← ProcessAccessorySend; mret ()
  else mret ().

(** The mode a status asks for. *)
Definition status_mode (status accStatus : Z) : Z :=
  if status =? ACT_UPDEVICE then (if accStatus =? ACC_CONFIGURING then ACC_START else ACC_NONE)
  else if status =? ACT_ACCESSORYUP then ACC_CONFIGURING
  else if (status =? ACT_DOWNDEVICE) || (status =? ACT_ACCESSORYDOWN) then ACC_STOP
  else if status =? ACT_ACCESSORYSEND then ACC_SEND
  else ACC_NONE.

Definition HandleEvent (status : Z) (delayProcess : bool) : M () :=
  m ← get;
  match accDevice_ m with
  | None => mret ()
  | Some _ =>
      modify (set_event status);;
      (if delayProcess then on_acc_timer (timer_Unregister (antiShakeDelayTimerId_ m)) else mret ());;
      if ((status =? ACT_UPDEVICE) || (status =? ACT_DOWNDEVICE)) && delayProcess then
        id ← on_acc_timer (timer_Register AntiShakeTask ANTI_SHAKE_INTERVAL true);
        modify (set_shake_id id)
      else
        m ← get;
        ProcessHandle (status_mode status (accStatus_ m))
  end.

(** The lambdas of the two timers. *)
Definition run_anti_shake : M () := m ← get; HandleEvent (eventStatus_ m) false.
Definition run_config_timeout : M () :=
  modify (set_status ACC_STOP);;
  m ← get;
  _ ← SetFunctions (lastDeviceFunc_ m); mret ().
Definition run_accessory_task (task : AccessoryTask) : M () :=
  match task with AntiShakeTask => run_anti_shake | ConfigTimeoutTask => run_config_timeout end.
End Manager.
