(* ===== verification/UsbAccessoryProofs.v ===== *)
(** * Theorems of the accessory manager

    The Base64 round trip, the queries, the debounce and the broadcasts of the
    state machine. *)
From S2P Require Import Prelude UsbErrors Platform UsbAccessory UsbDeviceManager Base64 UsbAccessoryManager.

(** ** Lemmas *)

Section Proofs.
Context {D T : Type} `{!UsbDeviceInterface D, !AccessoryDevice D, !DelayTimer AccessoryTask T,
  !DelayTimerLaws AccessoryTask T, !ErrCodeBase, !CJson}.
Context (string_hash : string → Z) (int_hash : Z → Z) (millis : T → Z) (publish : AccessoryEffect → bool).
Implicit Types m : UsbAccessoryManager D T.

Abbreviation Handle := (HandleEvent string_hash int_hash millis publish).
Abbreviation Process := (ProcessHandle string_hash int_hash millis publish).
Abbreviation Run := (run_accessory_task string_hash int_hash millis publish).

(** The parts the machine's invariants speak of. *)
Definition parts m := (accStatus_ m, eventStatus_ m, accDelayTimerId_ m, antiShakeDelayTimerId_ m, accTimer_ m, accTrace_ m).

Lemma on_acc_parts {A} (f : state D A) m : parts (on_acc f m).2 = parts m.
Proof. unfold on_acc. destruct (accDevice_ m); [|done]. destruct (f d). by destruct m. Qed.

Lemma info_run m : GetAccessoryInfo m =
  (default [] (on_acc acc_GetAccessoryInfo m).1, (on_acc acc_GetAccessoryInfo m).2).
Proof. unfold GetAccessoryInfo. by rewrite bind_run. Qed.
Lemma set_run f m : SetFunctions f m = (default (uec UEC_SERVICE_INVALID_VALUE)
  (on_acc (dev_SetCurrentFunctions f) m).1, (on_acc (dev_SetCurrentFunctions f) m).2).
Proof. unfold SetFunctions. by rewrite bind_run. Qed.
Lemma get_run f m : GetFunctions f m = (default (uec UEC_SERVICE_INVALID_VALUE, f)
  (on_acc (dev_GetCurrentFunctions f) m).1, (on_acc (dev_GetCurrentFunctions f) m).2).
Proof. unfold GetFunctions. by rewrite bind_run. Qed.

(** A broadcast goes with its transition: attached when the mode becomes START,
    or with a SEND request; detached when START is left for STOP; and START is
    entered with a broadcast only. *)
Definition broadcast_ok (s s' : Z) (t t' : list AccessoryEffect) : Prop :=
  (t' = t ∧ (s' = ACC_START → s = ACC_START)) ∨
  (∃ d, t' = AccessoryAttached d :: t ∧ (s ≠ ACC_START ∧ s' = ACC_START ∨ s' = ACC_SEND)) ∨
  (∃ d, t' = AccessoryDetached d :: t ∧ s = ACC_START ∧ s' = ACC_STOP).

(** Only the configuration timer may have changed. *)
Definition timer_ok m m' : Prop :=
  antiShakeDelayTimerId_ m' = antiShakeDelayTimerId_ m ∧ eventStatus_ m' = eventStatus_ m ∧
  (accTimer_ m' = accTimer_ m ∧ accDelayTimerId_ m' = accDelayTimerId_ m ∨
   ∃ id t', timer_Register ConfigTimeoutTask DELAY_ACC_INTERVAL true (accTimer_ m) = (id, t') ∧
     accTimer_ m' = t' ∧ accDelayTimerId_ m' = id).

Lemma start_run f c m :
  let m' := (ProcessAccessoryStart string_hash int_hash millis publish f c m).2 in
  broadcast_ok (accStatus_ m) (accStatus_ m') (accTrace_ m) (accTrace_ m') ∧ timer_ok m m'.
Proof.
  unfold ProcessAccessoryStart. rewrite bind_run. cbn [get fst snd]. cbv zeta.
  destruct (has_flag _ _ && negb (accStatus_ m =? ACC_START)) eqn:E1.
  - apply andb_true_iff in E1 as [_ Hs]. zbool.
    rewrite bind_run. cbn [modify fst snd]. rewrite bind_run, info_run. cbn [fst snd].
    pose proof (on_acc_parts acc_GetAccessoryInfo (set_status ACC_START m)) as Hp.
    destruct (on_acc acc_GetAccessoryInfo (set_status ACC_START m)) as [r m1]. cbn [fst snd] in *.
    rewrite !bind_run. cbn [modify get fst snd]. rewrite ?bind_run. cbn [modify get fst snd]. rewrite ?bind_run.
    unfold PublishCommonEvent. rewrite ?bind_run. cbn [modify get fst snd]. rewrite ?bind_run, ?ret_run. cbn [modify get fst snd].
    destruct m as [a b c' d e f' g h i j k], m1 as [a1 b1 c1 d1 e1 f1 g1 h1 i1 j1 k1].
    unfold parts in Hp. cbn in Hp. simplify_eq. cbn in *. split; [|repeat split; by left].
    right. left. eexists. split; [done|]. left. done.
  - destruct (negb _ && (c =? ACC_CONFIGURING)) eqn:E2; [|split; [left; by split|repeat split; by left]].
    rewrite bind_run, set_run. cbn [fst snd].
    pose proof (on_acc_parts (dev_SetCurrentFunctions FUN_ACCESSORY) m) as Hp.
    destruct (on_acc (dev_SetCurrentFunctions FUN_ACCESSORY) m) as [r m1]. cbn [fst snd] in *.
    destruct m as [a b c' d e f' g h i j k], m1 as [a1 b1 c1 d1 e1 f1 g1 h1 i1 j1 k1].
    unfold parts in Hp. cbn in Hp. simplify_eq.
    destruct (default _ r =? UEC_OK); cbn [negb]; [|split; [left; by split|repeat split; by left]].
    unfold on_acc_timer, zoom. rewrite !bind_run. cbn.
    destruct (timer_Register ConfigTimeoutTask DELAY_ACC_INTERVAL true j) as [id t'] eqn:Et. cbn.
    split; [left; by split|]. repeat split. right. eauto.
Qed.

Lemma stop_run f c m :
  let m' := (ProcessAccessoryStop publish f c m).2 in
  broadcast_ok (accStatus_ m) (accStatus_ m') (accTrace_ m) (accTrace_ m') ∧ timer_ok m m'.
Proof.
  unfold ProcessAccessoryStop. rewrite bind_run. cbn [get fst snd].
  destruct (has_flag _ _ && (accStatus_ m =? ACC_START)) eqn:E1; [|split; [left; by split|repeat split; by left]].
  apply andb_true_iff in E1 as [_ Hs]. zbool.
  rewrite bind_run. cbn [modify fst snd]. rewrite bind_run, set_run. cbn [fst snd].
  pose proof (on_acc_parts (dev_SetCurrentFunctions (lastDeviceFunc_ m)) (set_status ACC_STOP m)) as Hp.
  destruct (on_acc (dev_SetCurrentFunctions (lastDeviceFunc_ m)) (set_status ACC_STOP m)) as [r m1]. cbn [fst snd] in *.
  unfold PublishCommonEvent. rewrite ?bind_run. cbn [modify get fst snd]. rewrite ?bind_run. cbn [modify get fst snd].
  rewrite ?bind_run, ?ret_run. cbn [modify get fst snd].
  destruct m as [a b c' d e f' g h i j k], m1 as [a1 b1 c1 d1 e1 f1 g1 h1 i1 j1 k1].
  unfold parts in Hp. cbn in Hp. simplify_eq. cbn in *. split; [|repeat split; by left].
  right. right. eexists. done.
Qed.

Lemma send_run m :
  let m' := (ProcessAccessorySend publish m).2 in
  broadcast_ok (accStatus_ m) (accStatus_ m') (accTrace_ m) (accTrace_ m') ∧ timer_ok m m'.
Proof.
  unfold ProcessAccessorySend. rewrite bind_run. cbn [modify fst snd]. rewrite bind_run, info_run. cbn [fst snd].
  pose proof (on_acc_parts acc_GetAccessoryInfo (set_status ACC_SEND m)) as Hp.
  destruct (on_acc acc_GetAccessoryInfo (set_status ACC_SEND m)) as [r m1]. cbn [fst snd] in *.
  rewrite bind_run. cbn [modify fst snd]. cbv zeta.
  destruct m as [a b c' d e f' g h i j k], m1 as [a1 b1 c1 d1 e1 f1 g1 h1 i1 j1 k1].
  unfold parts in Hp. cbn in Hp. simplify_eq.
  destruct (_ && _); [destruct (cJSON_PrintUnformatted _)|];
    unfold PublishCommonEvent; cbn; (split; [|repeat split; by left]); [|left; by split|];
    right; left; eexists; (split; [done|by right]).
Qed.

(** *** Pending tasks *)

(** The configuration timeout pending is the one kept, and an anti-shake task
    pending is the one kept, for a connect or disconnect event that is still the
    newest. *)
Definition timeout_inv m : Prop :=
  ∀ id, pending (accTimer_ m) !! id = Some ConfigTimeoutTask → id = accDelayTimerId_ m.
Definition shake_inv m : Prop :=
  ∀ id, pending (accTimer_ m) !! id = Some AntiShakeTask →
    id = antiShakeDelayTimerId_ m ∧ (eventStatus_ m = ACT_UPDEVICE ∨ eventStatus_ m = ACT_DOWNDEVICE).
(** No anti-shake task is pending. *)
Definition no_shake m : Prop := ∀ id, pending (accTimer_ m) !! id ≠ Some AntiShakeTask.

(** An action that keeps what is pending, up to a new configuration timeout. *)
Definition keeps_tasks m m' : Prop :=
  antiShakeDelayTimerId_ m' = antiShakeDelayTimerId_ m ∧ eventStatus_ m' = eventStatus_ m ∧
  (∀ id, pending (accTimer_ m') !! id = Some AntiShakeTask → pending (accTimer_ m) !! id = Some AntiShakeTask) ∧
  (timeout_inv m → timeout_inv m').

Lemma timer_ok_keeps m m' : pending (accTimer_ m) !! accDelayTimerId_ m = None → timer_ok m m' → keeps_tasks m m'.
Proof.
  intros Hn (H1 & H2 & Ht). split; [done|]. split; [done|].
  destruct Ht as [[H3 H4]|(id & t' & Hr & H3 & H4)].
  - unfold timeout_inv. by rewrite H3, H4.
  - pose proof (law_register ConfigTimeoutTask DELAY_ACC_INTERVAL true (accTimer_ m)) as HR. rewrite Hr in HR.
    unfold timeout_inv. rewrite H3, H4. destruct HR as [HR|[Hid HR]]; rewrite HR.
    + split; [done|]. intros Hi i Hl. pose proof (Hi i Hl) as ->. congruence.
    + split.
      * intros i Hl. apply lookup_insert_Some in Hl as [[_ ?]|[_ ?]]; done.
      * intros Hi i Hl. apply lookup_insert_Some in Hl as [[<- _]|[_ Hl]]; [done|].
        pose proof (Hi i Hl) as ->. congruence.
Qed.
Lemma timer_same_keeps m m' : timer_ok m m' → accTimer_ m' = accTimer_ m → accDelayTimerId_ m' = accDelayTimerId_ m →
  keeps_tasks m m'.
Proof. intros (H1 & H2 & _) H3 H4. unfold keeps_tasks, timeout_inv. by rewrite H3, H4. Qed.
Lemma keeps_refl m m' : parts m' = parts m → keeps_tasks m m'.
Proof. unfold parts. intros Hp. injection Hp as ? ? H1 H2 H3 H4. unfold keeps_tasks, timeout_inv. by rewrite H1, H2, H3. Qed.
Lemma keeps_trans m1 m2 m3 : keeps_tasks m1 m2 → keeps_tasks m2 m3 → keeps_tasks m1 m3.
Proof. intros (H1 & H2 & H3 & H4) (H5 & H6 & H7 & H8). repeat split; [congruence|congruence|auto|auto]. Qed.

Lemma stop_timer f c m : let m' := (ProcessAccessoryStop publish f c m).2 in
  accTimer_ m' = accTimer_ m ∧ accDelayTimerId_ m' = accDelayTimerId_ m.
Proof.
  unfold ProcessAccessoryStop. rewrite bind_run. cbn [get fst snd]. destruct (_ && _); [|done].
  rewrite bind_run. cbn [modify fst snd]. rewrite bind_run, set_run. cbn [fst snd].
  pose proof (on_acc_parts (dev_SetCurrentFunctions (lastDeviceFunc_ m)) (set_status ACC_STOP m)) as Hp.
  destruct (on_acc (dev_SetCurrentFunctions (lastDeviceFunc_ m)) (set_status ACC_STOP m)) as [r m1]. cbn [fst snd] in *.
  destruct m, m1. unfold parts in Hp. cbn in Hp. by simplify_eq.
Qed.
Lemma send_timer m : let m' := (ProcessAccessorySend publish m).2 in
  accTimer_ m' = accTimer_ m ∧ accDelayTimerId_ m' = accDelayTimerId_ m.
Proof.
  unfold ProcessAccessorySend. rewrite bind_run. cbn [modify fst snd]. rewrite bind_run, info_run. cbn [fst snd].
  pose proof (on_acc_parts acc_GetAccessoryInfo (set_status ACC_SEND m)) as Hp.
  destruct (on_acc acc_GetAccessoryInfo (set_status ACC_SEND m)) as [r m1]. cbn [fst snd] in *.
  rewrite bind_run. cbn [modify fst snd]. cbv zeta. destruct m, m1. unfold parts in Hp. cbn in Hp. simplify_eq.
  destruct (_ && _); [destruct (cJSON_PrintUnformatted _)|]; done.
Qed.

Lemma process_run c m : let m' := (Process c m).2 in
  broadcast_ok (accStatus_ m) (accStatus_ m') (accTrace_ m) (accTrace_ m') ∧ keeps_tasks m m'.
Proof.
  unfold ProcessHandle. rewrite bind_run. cbn [get fst snd]. destruct (_ || _).
  - rewrite bind_run.
    set (m1 := (on_acc_timer (timer_Unregister (accDelayTimerId_ m)) m).2).
    assert (accStatus_ m1 = accStatus_ m ∧ accTrace_ m1 = accTrace_ m ∧ keeps_tasks m m1 ∧
      pending (accTimer_ m1) !! accDelayTimerId_ m1 = None) as (H1 & H2 & H3 & H4).
    { unfold m1, on_acc_timer, zoom. pose proof (law_unregister (accDelayTimerId_ m) (accTimer_ m)) as HU.
      destruct (timer_Unregister _ (accTimer_ m)) as [[] t']. destruct m as [a b c' d e f' g h i j k].
      cbn [fst snd accDelayTimerId_ accTimer_ set_acc_timer accStatus_ accTrace_] in *.
      split; [done|]. split; [done|]. split; [|rewrite HU; apply lookup_delete_eq].
      unfold keeps_tasks, timeout_inv. cbn. rewrite HU. repeat split.
      - intros id Hl. by apply lookup_delete_Some in Hl as [_ ?].
      - intros Hi id Hl. apply lookup_delete_Some in Hl as [_ Hl]. by apply Hi. }
    rewrite bind_run, get_run. cbn [fst snd].
    pose proof (on_acc_parts (dev_GetCurrentFunctions 0) m1) as Hp.
    destruct (on_acc (dev_GetCurrentFunctions 0) m1) as [r m2]. cbn [fst snd] in *.
    pose proof (keeps_trans _ _ _ H3 (keeps_refl _ _ Hp)) as H5.
    unfold parts in Hp. injection Hp as Hs He Hd Ha Ht Htr.
    destruct (default _ r) as [code cur]. destruct (negb _).
    { split; [left|exact H5]. rewrite ret_run. cbn [snd]. by rewrite Htr, Hs, H1, H2. }
    rewrite bind_run. cbn [modify fst snd]. rewrite bind_run, ret_run. cbn [snd].
    destruct (start_run cur c (set_cur cur m2)) as [H6 H7].
    assert (accStatus_ (set_cur cur m2) = accStatus_ m ∧ accTrace_ (set_cur cur m2) = accTrace_ m) as [H8 H9]
      by (destruct m2; cbn in *; split; congruence).
    rewrite H8, H9 in H6. split; [exact H6|]. eapply keeps_trans; [exact H5|].
    eapply keeps_trans; [|apply timer_ok_keeps; [|exact H7]].
    + apply keeps_refl. by destruct m2.
    + destruct m2; cbn in *. congruence.
  - destruct (_ && _).
    + rewrite bind_run, ret_run. cbn [snd]. destruct (stop_run (curDeviceFunc_ m) c m) as [H1 H2].
      split; [exact H1|]. apply timer_same_keeps; [exact H2|apply stop_timer..].
    + destruct (c =? ACC_SEND); [|split; [left; by split|by apply keeps_refl]].
      rewrite bind_run, ret_run. cbn [snd]. destruct (send_run m) as [H1 H2].
      split; [exact H1|]. apply timer_same_keeps; [exact H2|apply send_timer..].
Qed.

(** What an event with the debounce does: connect and disconnect events only
    leave a task, the others are processed at once. *)
Lemma handle_run status m : timeout_inv m → shake_inv m →
  let m' := (Handle status true m).2 in
  broadcast_ok (accStatus_ m) (accStatus_ m') (accTrace_ m) (accTrace_ m') ∧ timeout_inv m' ∧ shake_inv m' ∧
  ((status = ACT_UPDEVICE ∨ status = ACT_DOWNDEVICE) →
     accStatus_ m' = accStatus_ m ∧ accTrace_ m' = accTrace_ m ∧ accessory m' = accessory m ∧
     curDeviceFunc_ m' = curDeviceFunc_ m ∧ lastDeviceFunc_ m' = lastDeviceFunc_ m ∧ accDevice_ m' = accDevice_ m).
Proof.
  intros Hto Hsh. unfold HandleEvent. rewrite bind_run. cbn [get fst snd].
  destruct (accDevice_ m) as [d|] eqn:Hd; [|split; [left; by split|done]].
  rewrite bind_run. cbn [modify fst snd]. rewrite bind_run.
  set (m1 := (on_acc_timer (timer_Unregister (antiShakeDelayTimerId_ m)) (set_event status m)).2).
  assert (accStatus_ m1 = accStatus_ m ∧ accTrace_ m1 = accTrace_ m ∧ timeout_inv m1 ∧ no_shake m1 ∧
    eventStatus_ m1 = status ∧ accessory m1 = accessory m ∧ curDeviceFunc_ m1 = curDeviceFunc_ m ∧
    lastDeviceFunc_ m1 = lastDeviceFunc_ m ∧ accDevice_ m1 = accDevice_ m) as (H1 & H2 & H3 & H4 & H5 & H6).
  { unfold m1, on_acc_timer, zoom.
    assert (accTimer_ (set_event status m) = accTimer_ m) as -> by (by destruct m).
    pose proof (law_unregister (antiShakeDelayTimerId_ m) (accTimer_ m)) as HU.
    destruct (timer_Unregister _ (accTimer_ m)) as [[] t']. destruct m as [a b c' dd e f' g h i j k].
    unfold timeout_inv, shake_inv, no_shake in *. cbn in *. rewrite HU. repeat split.
    - intros id Hl. apply lookup_delete_Some in Hl as [_ Hl]. by apply Hto.
    - intros id Hl. apply lookup_delete_Some in Hl as [Hne Hl]. by apply Hsh in Hl as [-> _]. }
  clearbody m1. cbn [fst snd]. rewrite andb_true_r.
  destruct ((status =? ACT_UPDEVICE) || (status =? ACT_DOWNDEVICE)) eqn:Est.
  - rewrite bind_run. unfold on_acc_timer, zoom.
    pose proof (law_register AntiShakeTask ANTI_SHAKE_INTERVAL true (accTimer_ m1)) as HR.
    destruct (timer_Register AntiShakeTask _ true (accTimer_ m1)) as [id t']. cbn [modify fst snd].
    assert (eventStatus_ m1 = ACT_UPDEVICE ∨ eventStatus_ m1 = ACT_DOWNDEVICE) as Hev.
    { apply orb_true_iff in Est as [?|?]; zbool; [left|right]; congruence. }
    destruct m1 as [a b c' dd e f' g h i j k]. unfold timeout_inv, shake_inv, no_shake in *. cbn in *.
    split; [left; by rewrite H1, H2|]. split; [|split; [|intros _; destruct H6 as (? & ? & ? & ?); repeat split; congruence]].
    + intros i' Hl. destruct HR as [HR|[_ HR]]; rewrite HR in Hl; [by apply H3|].
      apply lookup_insert_Some in Hl as [[_ ?]|[_ ?]]; [done|by apply H3].
    + intros i' Hl. destruct HR as [HR|[_ HR]]; rewrite HR in Hl; [by apply H4 in Hl|].
      apply lookup_insert_Some in Hl as [[<- _]|[_ Hl]]; [done|by apply H4 in Hl].
  - rewrite bind_run. cbn [get fst snd].
    destruct (process_run (status_mode status (accStatus_ m1)) m1) as [H7 (H8 & H9 & H10 & H11)].
    rewrite <- H1, <- H2. split; [exact H7|]. split; [by apply H11|].
    split; [|intros [-> | ->]; done].
    intros id Hl. by apply H10, H4 in Hl.
Qed.

(** Running the pending anti-shake task replays the event. *)
Lemma anti_shake_run m : timeout_inv m → no_shake m → let m' := (Run AntiShakeTask m).2 in
  broadcast_ok (accStatus_ m) (accStatus_ m') (accTrace_ m) (accTrace_ m') ∧ timeout_inv m' ∧ no_shake m'.
Proof.
  intros Hto Hns. cbn [run_accessory_task]. unfold run_anti_shake. rewrite bind_run. cbn [get fst snd].
  unfold HandleEvent. rewrite bind_run. cbn [get fst snd].
  destruct (accDevice_ m) as [d|] eqn:Hd; [|split; [left; by split|done]].
  rewrite bind_run. cbn [modify fst snd]. rewrite bind_run, ret_run. cbn [fst snd]. rewrite andb_false_r, bind_run.
  cbn [get fst snd].
  assert (set_event (eventStatus_ m) m = m) as -> by (by destruct m).
  destruct (process_run (status_mode (eventStatus_ m) (accStatus_ m)) m) as [H1 (H2 & H3 & H4 & H5)].
  split; [exact H1|]. split; [by apply H5|]. intros id Hl. by apply (Hns id), H4.
Qed.

Lemma timeout_run m : let m' := (Run ConfigTimeoutTask m).2 in
  accStatus_ m' = ACC_STOP ∧ accTrace_ m' = accTrace_ m ∧ accTimer_ m' = accTimer_ m ∧
  accDelayTimerId_ m' = accDelayTimerId_ m ∧ antiShakeDelayTimerId_ m' = antiShakeDelayTimerId_ m ∧
  eventStatus_ m' = eventStatus_ m.
Proof.
  cbn [run_accessory_task]. unfold run_config_timeout. rewrite bind_run. cbn [modify fst snd].
  rewrite bind_run. cbn [get fst snd]. rewrite bind_run, set_run, ret_run. cbn [fst snd].
  pose proof (on_acc_parts (dev_SetCurrentFunctions (lastDeviceFunc_ (set_status ACC_STOP m))) (set_status ACC_STOP m)) as Hp.
  destruct (on_acc _ (set_status ACC_STOP m)) as [r m1]. cbn [snd] in *. unfold parts in Hp.
  destruct m, m1. cbn in *. by simplify_eq.
Qed.

(** The steps of the machine: an event from the service, a timer running its
    task, which it then forgets. *)
Inductive accessory_step : UsbAccessoryManager D T → UsbAccessoryManager D T → Prop :=
  | acc_step_event status m : accessory_step m (Handle status true m).2
  | acc_step_fire id task t' m : pending (accTimer_ m) !! id = Some task →
      pending t' = delete id (pending (accTimer_ m)) →
      accessory_step m (Run task (set_acc_timer t' m)).2.

Lemma accessory_step_inv m m' : accessory_step m m' → timeout_inv m → shake_inv m →
  timeout_inv m' ∧ shake_inv m' ∧ broadcast_ok (accStatus_ m) (accStatus_ m') (accTrace_ m) (accTrace_ m').
Proof.
  intros [status x|id task t' x Hid Ht'] Hto Hsh.
  - destruct (handle_run status x Hto Hsh) as (? & ? & ? & _). done.
  - set (y := set_acc_timer t' x).
    assert (accTimer_ y = t' ∧ accDelayTimerId_ y = accDelayTimerId_ x ∧ antiShakeDelayTimerId_ y = antiShakeDelayTimerId_ x
      ∧ eventStatus_ y = eventStatus_ x ∧ accStatus_ y = accStatus_ x ∧ accTrace_ y = accTrace_ x)
      as (H1 & H2 & H3 & H4 & H5 & H6) by (by destruct x).
    assert (timeout_inv y ∧ shake_inv y) as [Hty Hsy].
    { unfold timeout_inv, shake_inv. rewrite H1, H2, H3, H4, Ht'. split; intros i Hl;
        apply lookup_delete_Some in Hl as [_ Hl]; [by apply Hto|by apply Hsh]. }
    rewrite <- H5, <- H6. destruct task.
    + assert (no_shake y) as Hny.
      { intros i Hl. rewrite H1, Ht' in Hl. apply lookup_delete_Some in Hl as [Hne Hl].
        apply Hsh in Hl as [-> _]. by apply Hsh in Hid as [-> _]. }
      destruct (anti_shake_run y Hty Hny) as (Hb & Hty' & Hny').
      split; [done|]. split; [|done]. intros i Hl. by apply Hny' in Hl.
    + destruct (timeout_run y) as (K1 & K2 & K3 & K4 & K5 & K6).
      split; [|split; [|left; by rewrite K1, K2]].
      * unfold timeout_inv. rewrite K3, K4. exact Hty.
      * unfold shake_inv. rewrite K3, K5, K6. exact Hsy.
Qed.

(** *** Queries *)

Lemma compare_spec s1 s2 : compare s1 s2 = bool_decide (s1 = s2).
Proof. unfold compare. case_bool_decide; [|done]. subst. by apply bool_decide_ext. Qed.
End Proofs.
