(* ===== verification/UsbAccessoryTheorems.v ===== *)
(** * The accessory manager: its properties *)
From S2P Require Import Prelude UsbErrors Platform UsbAccessory UsbDeviceManager UsbDeviceTheorems Base64 UsbAccessoryManager UsbAccessoryProofs.

(** The component as constructed, with a device attached to it. *)
Definition acc_initial {D T} (d : option D) (t : T) : UsbAccessoryManager D T := {|
  accessory := USBAccessory.empty; accStatus_ := ACC_NONE; eventStatus_ := 0; curDeviceFunc_ := FUNCTION_NONE;
  lastDeviceFunc_ := FUNCTION_NONE; accFd_ := 0; accDelayTimerId_ := u32_max; antiShakeDelayTimerId_ := u32_max;
  accDevice_ := d; accTimer_ := t; accTrace_ := [] |}.

(** Each detached broadcast follows the attached broadcast of the accessory. *)
Fixpoint detach_follows (t : list AccessoryEffect) : Prop :=
  match t with
  | AccessoryDetached _ :: (AccessoryAttached _ :: _) as t => detach_follows t
  | AccessoryDetached _ :: _ => False
  | AccessoryAttached _ :: t => detach_follows t
  | [] => True
  end.

(** Decoding inverts encoding: [Base64Decode] returns the bytes whose
    RFC 4648 encoding it is given, padding included. *)
Theorem Base64Decode_encode l : Forall is_byte l → Base64Decode (encode l) = l.
Proof. intros Hl. by apply (decode_encode_groups (length l)). Qed.
Lemma Base64Decode_encode_witness : encode [104; 105; 33; 33] = "aGkhIQ==" ∧ Base64Decode (encode [104; 105; 33; 33]) = [104; 105; 33; 33].
Proof.
  split; [vm_compute; reflexivity|]. apply (Base64Decode_encode [104; 105; 33; 33]).
  repeat constructor; unfold is_byte; lia.
Defined.

Section Theorems.
Context {D T : Type} `{!UsbDeviceInterface D, !AccessoryDevice D, !DelayTimer AccessoryTask T,
  !DelayTimerLaws AccessoryTask T, !ErrCodeBase, !CJson}.
Context (string_hash : string → Z) (int_hash : Z → Z) (millis : T → Z) (publish : AccessoryEffect → bool).
Implicit Types m : UsbAccessoryManager D T.

(** C24: in every state the machine reaches through events and timers in any
    order, an accessory is started only after its attached broadcast, each
    detached broadcast directly follows an attached one, and of each kind of
    delayed task at most the one whose identifier is kept is pending. *)
Theorem accessory_broadcasts d t m : pending t = ∅ →
  rtc (accessory_step string_hash int_hash millis publish) (acc_initial d t) m →
  detach_follows (accTrace_ m) ∧
  (accStatus_ m = ACC_START → ∃ data rest, accTrace_ m = AccessoryAttached data :: rest) ∧
  timeout_inv m ∧ shake_inv m.
Proof.
  intros Ht Hr. set (m0 := acc_initial d t) in *.
  assert (timeout_inv m0 ∧ shake_inv m0 ∧ detach_follows (accTrace_ m0) ∧
    (accStatus_ m0 = ACC_START → ∃ data rest, accTrace_ m0 = AccessoryAttached data :: rest)) as Hinit.
  { split; [|split; [|done]]; intros id Hl; cbn in Hl; by rewrite Ht, lookup_empty in Hl. }
  enough (timeout_inv m ∧ shake_inv m ∧ detach_follows (accTrace_ m) ∧
    (accStatus_ m = ACC_START → ∃ data rest, accTrace_ m = AccessoryAttached data :: rest)) by tauto.
  revert Hinit. induction Hr as [|x y z Hxy _ IH]; [done|]. intros (H1 & H2 & H3 & H4). apply IH. clear IH.
  destruct (accessory_step_inv string_hash int_hash millis publish x y Hxy H1 H2) as (? & ? & Hb).
  split; [done|]. split; [done|].
  destruct Hb as [[Htr Hs]|[(data & Htr & Hs)|(data & Htr & Hs & Hs')]]; rewrite Htr.
  - split; [done|auto].
  - split; [done|eauto].
  - destruct (H4 Hs) as (da & rest & Hx). rewrite Hx in *. split; [exact H3|]. rewrite Hs'. done.
Qed.

(** The line is debounced: a connect or disconnect event by itself changes
    neither the mode, nor the accessory, nor the functions, and broadcasts
    nothing; it only leaves a delayed task, and when that task runs the newest
    event is still a connect or disconnect event. *)
Theorem HandleEvent_debounced status m : timeout_inv m → shake_inv m →
  status = ACT_UPDEVICE ∨ status = ACT_DOWNDEVICE →
  let m' := (HandleEvent string_hash int_hash millis publish status true m).2 in
  accStatus_ m' = accStatus_ m ∧ accTrace_ m' = accTrace_ m ∧ accessory m' = accessory m ∧
  curDeviceFunc_ m' = curDeviceFunc_ m ∧ lastDeviceFunc_ m' = lastDeviceFunc_ m ∧ accDevice_ m' = accDevice_ m ∧
  ∀ id, pending (accTimer_ m') !! id = Some AntiShakeTask →
    id = antiShakeDelayTimerId_ m' ∧ (eventStatus_ m' = ACT_UPDEVICE ∨ eventStatus_ m' = ACT_DOWNDEVICE).
Proof.
  intros Hto Hsh Hs m'. destruct (handle_run string_hash int_hash millis publish status m Hto Hsh) as (_ & _ & Hsh' & Hk).
  destruct (Hk Hs) as (? & ? & ? & ? & ? & ?). repeat (split; [done|]). exact Hsh'.
Qed.
End Theorems.

Section Queries.
Context {D T : Type} `{!ErrCodeBase}.
Implicit Types m : UsbAccessoryManager D T.

(** An accessory is recognised exactly when it is started and the caller's
    record agrees with it in every field, the serial number also with the
    caller's bundle name in front; the key of its right is then the concatenation
    of manufacturer, product, version and serial number, and otherwise the
    caller's text is left. *)
Theorem GetAccessorySerialNumber_exact access bundleName serialValue m :
  let '(ret, key, m') := GetAccessorySerialNumber access bundleName serialValue m in
  let own := accessory m in
  m' = m ∧
  (ret = UEC_OK ↔ accStatus_ m = ACC_START ∧ manufacturer_ own = manufacturer_ access ∧
     product_ own = product_ access ∧ description_ own = description_ access ∧ version_ own = version_ access ∧
     (serialNumber_ own = serialNumber_ access ∨ bundleName +:+ serialNumber_ own = serialNumber_ access)) ∧
  key = (if ret =? UEC_OK
         then manufacturer_ access +:+ product_ access +:+ version_ access +:+ serialNumber_ access
         else serialValue).
Proof.
  destruct (GetAccessorySerialNumber access bundleName serialValue m) as [[ret key] m'] eqn:HG. revert HG.
  unfold GetAccessorySerialNumber. rewrite bind_run. cbn [get fst snd].
  destruct (accStatus_ m =? ACC_START) eqn:Es; cbn [negb]; zbool;
    assert ((uec UEC_SERVICE_ACCESSORY_NOT_MATCH =? UEC_OK) = false) as Hne by (apply Z.eqb_neq, uec_not_OK).
  - rewrite !compare_spec. destruct (_ && _) eqn:E; rewrite ret_run; intros [= <- <- <-]; (split; [done|]).
    + rewrite Z.eqb_refl. split; [|done]. rewrite !andb_true_iff, orb_true_iff, !bool_decide_eq_true in E. tauto.
    + rewrite Hne. split; [|done]. split; [by intros ?%uec_not_OK|].
      intros (_ & H1 & H2 & H3 & H4 & H5). exfalso.
      rewrite !(bool_decide_eq_true_2 _ H1), (bool_decide_eq_true_2 _ H2), (bool_decide_eq_true_2 _ H3),
        (bool_decide_eq_true_2 _ H4) in E. cbn [andb] in E.
      apply orb_false_iff in E as [E1%bool_decide_eq_false E2%bool_decide_eq_false]. tauto.
  - rewrite ret_run. intros [= <- <- <-]. split; [done|]. rewrite Hne. split; [|done].
    split; [by intros ?%uec_not_OK|tauto].
Qed.
End Queries.

(** ** Runs *)

#[export] Instance demo_accessory_device : AccessoryDevice Z := {
  acc_GetAccessoryInfo d := (["maker"; "gadget"; "a gadget"; "1.0"; "42"; "aGk="], d);
  acc_OpenAccessory _ d := ((0, 7), d);
  acc_CloseAccessory _ d := (0, d);
  acc_open_driver d := (7, d);
}.
#[local] Existing Instance number_json.
#[local] Existing Instance demo_err_base.

Definition demo_handle (status : Z) (m : UsbAccessoryManager Z (gmap Z AccessoryTask)) :=
  (HandleEvent (λ _, 5) (λ z, z) (λ _, 1000) (λ _, true) status true m).2.
Definition demo_fire (task : AccessoryTask) (id : Z) (m : UsbAccessoryManager Z (gmap Z AccessoryTask)) :=
  (run_accessory_task (λ _, 5) (λ z, z) (λ _, 1000) (λ _, true) task (set_acc_timer (delete id (accTimer_ m)) m)).2.

(** Configure, replug, start. *)
Definition demo_accessory : UsbAccessoryManager Z (gmap Z AccessoryTask) := acc_initial (Some 4) ∅.
Definition configuring := demo_handle ACT_ACCESSORYUP demo_accessory.
Definition replugged := demo_handle ACT_UPDEVICE configuring.
Definition started := demo_fire AntiShakeTask (antiShakeDelayTimerId_ replugged) replugged.

Lemma started_reachable :
  rtc (accessory_step (λ _, 5) (λ z, z) (λ _, 1000) (λ _, true)) demo_accessory started.
Proof.
  eapply rtc_l; [apply acc_step_event with (status := ACT_ACCESSORYUP)|].
  eapply rtc_l; [apply acc_step_event with (status := ACT_UPDEVICE)|].
  eapply rtc_l; [|apply rtc_refl].
  apply (acc_step_fire _ _ _ _ (antiShakeDelayTimerId_ replugged) AntiShakeTask); [|done].
  vm_compute. reflexivity.
Qed.

Lemma accessory_broadcasts_witness :
  accStatus_ started = ACC_START ∧ (∃ data rest, accTrace_ started = AccessoryAttached data :: rest).
Proof.
  assert (pending (∅ : gmap Z AccessoryTask) = ∅) as Hp by reflexivity.
  destruct (accessory_broadcasts (λ _, 5) (λ z, z) (λ _, 1000) (λ _, true) (Some 4) ∅ started Hp started_reachable)
    as (_ & Hs & _).
  assert (accStatus_ started = ACC_START) as Hst by (vm_compute; reflexivity).
  split; [exact Hst|exact (Hs Hst)].
Defined.

Lemma HandleEvent_debounced_witness :
  accStatus_ (demo_handle ACT_DOWNDEVICE started) = ACC_START ∧ accTimer_ (demo_handle ACT_DOWNDEVICE started) ≠ ∅.
Proof.
  assert (timeout_inv started ∧ shake_inv started) as [Hto Hsh].
  { split; intros id Hl; exfalso; revert Hl; change (pending (accTimer_ started)) with (accTimer_ started).
    - assert (accTimer_ started = ∅) as -> by (vm_compute; reflexivity). by rewrite lookup_empty.
    - assert (accTimer_ started = ∅) as -> by (vm_compute; reflexivity). by rewrite lookup_empty. }
  destruct (HandleEvent_debounced (λ _, 5) (λ z, z) (λ _, 1000) (λ _, true) ACT_DOWNDEVICE started Hto Hsh) as (Hs & _);
    [by right|].
  split; [|vm_compute; discriminate]. unfold demo_handle. rewrite Hs. vm_compute. reflexivity.
Defined.

(** The key of the right has no separators: two different accessories have one
    key. *)
Example accessory_keys_collide :
  let a := Build_USBAccessory "ab" "c" "d" "1" "2" in
  let b := Build_USBAccessory "a" "bc" "d" "1" "2" in
  let with_own x := set_accessory x (set_status ACC_START demo_accessory) in
  (GetAccessorySerialNumber a "app" "" (with_own a)).1 = (GetAccessorySerialNumber b "app" "" (with_own b)).1 ∧ a ≠ b.
Proof. vm_compute. split; [reflexivity|discriminate]. Qed.

(** A device that cannot say its functions while the accessory is configured
    leaves the machine configuring, with its timeout cancelled. *)
Definition silent_device : UsbDeviceInterface Z := {|
  HDF_ERR_NOT_SUPPORT := -2; dev_GetCurrentFunctions _ d := ((-1, 0), d); dev_SetCurrentFunctions _ d := (0, d);
  dev_BindUsbdDeviceSubscriber d := (0, d); dev_UnbindUsbdDeviceSubscriber d := (0, d); dev_has_V2_1 _ := true;
  dev_GetControlTransferData _ d := ((0, []), d) |}.
Example configuring_without_timeout :
  let m := (@ProcessHandle _ _ silent_device (@Build_AccessoryDevice _ silent_device acc_GetAccessoryInfo
              acc_OpenAccessory acc_CloseAccessory acc_open_driver) _ _ _ (λ _, 5) (λ z, z) (λ _, 1000) (λ _, true)
              ACC_START configuring).2 in
  accStatus_ m = ACC_CONFIGURING ∧ accTimer_ m = ∅.
Proof. vm_compute. done. Qed.

(** ** An accessory as JSON and in a parcel *)

(** An accessory survives both its encodings: the JSON text parses back to
    the same accessory when no field has an embedded NUL, and a parcel that took
    the accessory gives it back and is empty afterwards. *)
Theorem USBAccessory_roundtrip `{!CJson, !CJsonLaws} {P} `{!Parcel P, !ParcelLaws P} a (p : P) :
  USBAccessory.c_safe a → contents p = [] → (USBAccessory.Marshalling a p).1 = true →
  USBAccessory.of_cjson (cJSON_Parse (USBAccessory.GetJsonString a)) = a ∧
  (USBAccessory.Unmarshalling (USBAccessory.Marshalling a p).2).1 = a ∧
  contents (USBAccessory.Unmarshalling (USBAccessory.Marshalling a p).2).2 = [].
Proof. intros Ha Hp Hm. split; [by apply USBAccessory.json_roundtrip|by apply USBAccessory.parcel_roundtrip]. Qed.

Definition charger : USBAccessory := {|
  manufacturer_ := "Acme"; product_ := "Dock"; description_ := "a dock"; version_ := "1.0"; serialNumber_ := "42" |}.
Example USBAccessory_roundtrip_witness :
  (let J := number_json in USBAccessory.of_cjson (cJSON_Parse (USBAccessory.GetJsonString charger))) = charger ∧
  (USBAccessory.Unmarshalling (USBAccessory.Marshalling charger ([] : list parcel_item)).2).1 = charger.
Proof.
  assert (USBAccessory.c_safe charger) as Hs.
  { unfold USBAccessory.c_safe. repeat (apply List.Forall_cons; [reflexivity|]). apply List.Forall_nil. }
  destruct (@USBAccessory_roundtrip number_json number_json_laws (list parcel_item) list_parcel list_parcel_laws charger ([] : list parcel_item) Hs eq_refl eq_refl)
    as (H1 & H2 & _).
  by split.
Defined.
