(* ===== verification/UsbDevice.v ===== *)
(** * The device tree (interfaces/innerkits/native/include)

    The classes [USBEndpoint], [UsbInterface], [USBConfig] and [UsbDevice]
    (usb_endpoint.h, usb_interface.h, usb_config.h, usb_device.h) with their
    parcel and JSON forms. *)
From S2P Require Import Prelude Platform.

Definition INVALID_USB_INT_VALUE : Z := -1.
Definition UINT8_MAX : Z := 255.
Definition UINT16_MAX : Z := 65535.
Definition INT32_MAX : Z := 2147483647.
Definition USB_ENDPOINT_XFERTYPE_MASK : Z := 0x03.
Definition USB_ENDPOINT_NUMBER_MASK : Z := 0x0f.
Definition USB_ENDPOINT_DIR_MASK : Z := 0x80.
Definition USB_CFG_SELF_POWERED : Z := 0x80.
Definition USB_CFG_REMOTE_WAKEUP : Z := 0x20.
Definition USB_ENDPOINT_MAX_NUM : nat := 128.
Definition USB_INTERFACE_MAX_NUM : nat := 128.
Definition USB_CONFIG_MAX_NUM : nat := 128.

(** ** Shared by the four classes *)

Section Shared.
Context `{!CJson}.

Definition GetIntValue (jsonObject : cjson) (key : string) : Z :=
  match cJSON_GetObjectItem jsonObject key with Some (JNumber z) => valueint z | _ => 0 end.
Definition GetStringValue (jsonObject : cjson) (key : string) : string :=
  match cJSON_GetObjectItem jsonObject key with Some (JString s) => s | _ => "" end.

(** The children of an array member; none when it is missing. *)
Definition array_items (jsonObject : cjson) (key : string) : list cjson :=
  match cJSON_GetObjectItem jsonObject key with Some j => cJSON_items j | None => [] end.

(** Print a tree, or [""]. The text is a C string. *)
Definition print_text (j : cjson) : string :=
  if negb cJSON_Create_ok then "" else match cJSON_PrintUnformatted j with None => "" | Some s => s end.
(** The members of an array built from the texts of the children. *)
Definition reparsed (texts : list string) : list cjson := omap cJSON_Parse texts.
End Shared.

Section Loops.
Context {P : Type} `{!Parcel P}.

(** The children are written with their results ignored. *)
Definition write_children {A} (marshal : A → state P bool) (n : nat) (l : list A) : state P () :=
  for_each (λ x, _ ← marshal x; mret ()) (take n l).
Fixpoint read_children {A} (unmarshal : state P A) (n : nat) : state P (list A) :=
  match n with
  | O => mret []
  | S n => x ← unmarshal; l ← read_children unmarshal n; mret (x :: l)
  end.
End Loops.

(** ** Endpoints *)

Module USBEndpoint.
Record t := {
  address_ : Z;        (* uint32_t *)
  attributes_ : Z;     (* uint32_t *)
  interval_ : Z;       (* int32_t *)
  maxPacketSize_ : Z;  (* int32_t *)
  interfaceId_ : Z;    (* uint8_t *)
}.
Definition default_ : t := {| address_ := 0; attributes_ := 0; interval_ := INVALID_USB_INT_VALUE;
  maxPacketSize_ := INVALID_USB_INT_VALUE; interfaceId_ := UINT8_MAX |}.

Definition GetNumber (e : t) : Z := to_u8 (Z.land (address_ e) USB_ENDPOINT_NUMBER_MASK).
Definition GetDirection (e : t) : Z := Z.land (address_ e) USB_ENDPOINT_DIR_MASK.
Definition GetEndpointNumber (e : t) : Z := Z.land (address_ e) USB_ENDPOINT_NUMBER_MASK.
Definition GetType (e : t) : Z := Z.land (attributes_ e) USB_ENDPOINT_XFERTYPE_MASK.

Definition ToString (e : t) : string :=
  "USBEndpoint:[Address:" +:+ pretty (address_ e) +:+ ", Direction:" +:+ pretty (GetDirection e) +:+
  ", Attributes:" +:+ pretty (attributes_ e) +:+ ", EndpointNumber:" +:+ pretty (GetEndpointNumber e) +:+
  ", Interval:" +:+ pretty (interval_ e) +:+ ", MaxPacketSize:" +:+ pretty (maxPacketSize_ e) +:+
  ", Type:" +:+ pretty (GetType e) +:+ "]".

Section Parcels.
Context {P : Type} `{!Parcel P}.
Definition Marshalling (e : t) : state P bool :=
  write_fields [FUint32 (address_ e); FUint32 (attributes_ e); FInt32 (interval_ e);
                FInt32 (maxPacketSize_ e); FUint8 (interfaceId_ e)].
Definition Unmarshalling : state P t :=
  a ← read_u32; at' ← read_u32; i ← read_i32; m ← read_i32; f ← read_u8;
  mret {| address_ := a; attributes_ := at'; interval_ := i; maxPacketSize_ := m; interfaceId_ := f |}.
End Parcels.

Section Json.
Context `{!CJson}.
Definition of_cjson (j : cjson) : t := {|
  address_ := to_u32 (GetIntValue j "address");
  attributes_ := to_u32 (GetIntValue j "attributes");
  interval_ := GetIntValue j "interval";
  maxPacketSize_ := GetIntValue j "maxPacketSize";
  interfaceId_ := to_u8 (GetIntValue j "interfaceId") |}.
Definition json_tree (e : t) : cjson :=
  JObject [("address", JNumber (address_ e)); ("attributes", JNumber (attributes_ e));
           ("interval", JNumber (interval_ e)); ("maxPacketSize", JNumber (maxPacketSize_ e));
           ("direction", JNumber (GetDirection e)); ("number", JNumber (GetEndpointNumber e));
           ("type", JNumber (GetType e)); ("interfaceId", JNumber (interfaceId_ e))].
Definition getJsonString (e : t) : string := print_text (json_tree e).
End Json.
End USBEndpoint.

(** ** Interfaces *)

Module UsbInterface.
Record t := {
  id_ : Z;
  protocol_ : Z;
  klass_ : Z;
  subClass_ : Z;
  alternateSetting_ : Z;
  name_ : string;
  endpoints_ : list USBEndpoint.t;
  iInterface_ : Z;       (* uint8_t *)
  authorized_ : bool;
}.
Definition default_ : t := {| id_ := INT32_MAX; protocol_ := INT32_MAX; klass_ := INT32_MAX; subClass_ := INT32_MAX;
  alternateSetting_ := INT32_MAX; name_ := ""; endpoints_ := []; iInterface_ := UINT8_MAX; authorized_ := true |}.
Definition set_endpoints (eps : list USBEndpoint.t) (i : t) : t := {|
  id_ := id_ i; protocol_ := protocol_ i; klass_ := klass_ i; subClass_ := subClass_ i;
  alternateSetting_ := alternateSetting_ i; name_ := name_ i; endpoints_ := eps; iInterface_ := iInterface_ i;
  authorized_ := authorized_ i |}.

Definition GetEndpoint (index : Z) (i : t) : option USBEndpoint.t :=
  if Z.of_nat (length (endpoints_ i)) <=? index then None else endpoints_ i !! Z.to_nat index.

Definition ToString (i : t) : string :=
  "UsbInterface[id=" +:+ pretty (id_ i) +:+ ",name_=" +:+ name_ i +:+ ",iInterface_=" +:+ pretty (iInterface_ i) +:+
  ",klass_=" +:+ pretty (klass_ i) +:+ ",subClass_=" +:+ pretty (subClass_ i) +:+ ",protocol_=" +:+ pretty (protocol_ i) +:+
  ",alternateSetting_=" +:+ pretty (alternateSetting_ i) +:+ "];    " +:+
  String.concat "" (map USBEndpoint.ToString (endpoints_ i)).

Section Parcels.
Context {P : Type} `{!Parcel P}.
Definition Marshalling (i : t) : state P bool :=
  ok ← write_fields [FInt32 (id_ i); FInt32 (protocol_ i); FInt32 (klass_ i); FInt32 (subClass_ i);
    FInt32 (alternateSetting_ i); FString (name_ i); FUint8 (iInterface_ i);
    FUint32 (Z.of_nat (length (endpoints_ i)))];
  if negb ok then mret false else
  write_children USBEndpoint.Marshalling USB_ENDPOINT_MAX_NUM (endpoints_ i);; mret true.
Definition Unmarshalling : state P t :=
  i ← read_i32; p ← read_i32; k ← read_i32; s ← read_i32; a ← read_i32; n ← ReadString; x ← read_u8;
  epCount ← read_u32;
  eps ← read_children USBEndpoint.Unmarshalling (Nat.min (Z.to_nat epCount) USB_ENDPOINT_MAX_NUM);
  mret {| id_ := i; protocol_ := p; klass_ := k; subClass_ := s; alternateSetting_ := a; name_ := n;
          endpoints_ := eps; iInterface_ := x; authorized_ := true |}.
End Parcels.

Section Json.
Context `{!CJson}.
Definition of_cjson (j : cjson) : t := {|
  id_ := GetIntValue j "id"; protocol_ := GetIntValue j "protocol"; klass_ := GetIntValue j "clazz";
  subClass_ := GetIntValue j "subClass"; alternateSetting_ := GetIntValue j "alternateSetting";
  name_ := GetStringValue j "name"; endpoints_ := map USBEndpoint.of_cjson (array_items j "endpoints");
  iInterface_ := UINT8_MAX; authorized_ := true |}.
Definition json_tree (i : t) : cjson :=
  JObject [("id", JNumber (id_ i)); ("protocol", JNumber (protocol_ i)); ("clazz", JNumber (klass_ i));
           ("subClass", JNumber (subClass_ i)); ("alternateSetting", JNumber (alternateSetting_ i));
           ("name", JString (c_str (name_ i)));
           ("endpoints", JArray (reparsed (map USBEndpoint.getJsonString (endpoints_ i))))].
Definition getJsonString (i : t) : string := print_text (json_tree i).
End Json.
End UsbInterface.

(** ** Configurations *)

Module USBConfig.
Record t := {
  id_ : Z;
  attributes_ : Z;       (* uint32_t *)
  interfaces_ : list UsbInterface.t;
  maxPower_ : Z;
  name_ : string;
  iConfiguration_ : Z;   (* uint8_t *)
}.
Definition default_ : t := {| id_ := INVALID_USB_INT_VALUE; attributes_ := 0; interfaces_ := [];
  maxPower_ := INVALID_USB_INT_VALUE; name_ := ""; iConfiguration_ := UINT8_MAX |}.
Definition set_interfaces (l : list UsbInterface.t) (c : t) : t := {|
  id_ := id_ c; attributes_ := attributes_ c; interfaces_ := l; maxPower_ := maxPower_ c; name_ := name_ c;
  iConfiguration_ := iConfiguration_ c |}.

Definition GetInterface (index : Z) (c : t) : option UsbInterface.t :=
  if Z.of_nat (length (interfaces_ c)) <=? index then None else interfaces_ c !! Z.to_nat index.
Definition GetMaxPower (c : t) : Z := maxPower_ c * 2.
Definition IsRemoteWakeup (c : t) : bool := has_flag (attributes_ c) USB_CFG_REMOTE_WAKEUP.
Definition IsSelfPowered (c : t) : bool := has_flag (attributes_ c) USB_CFG_SELF_POWERED.

Definition ToString (c : t) : string :=
  "USBConfig[name=" +:+ name_ c +:+ ",id=" +:+ pretty (id_ c) +:+ ",iConfiguration=" +:+ pretty (iConfiguration_ c) +:+
  ",attributes=" +:+ pretty (attributes_ c) +:+ ",maxPower=" +:+ pretty (maxPower_ c) +:+ ";  ]" +:+
  String.concat "" (map UsbInterface.ToString (interfaces_ c)).

Section Parcels.
Context {P : Type} `{!Parcel P}.
Definition Marshalling (c : t) : state P bool :=
  ok ← write_fields [FInt32 (id_ c); FUint32 (attributes_ c); FInt32 (maxPower_ c); FUint8 (iConfiguration_ c);
    FString (name_ c); FUint32 (Z.of_nat (length (interfaces_ c)))];
  if negb ok then mret false else
  write_children UsbInterface.Marshalling USB_INTERFACE_MAX_NUM (interfaces_ c);; mret true.
Definition Unmarshalling : state P t :=
  i ← read_i32; a ← read_u32; m ← read_i32; x ← read_u8; n ← ReadString;
  infCount ← read_u32;
  infs ← read_children UsbInterface.Unmarshalling (Nat.min (Z.to_nat infCount) USB_INTERFACE_MAX_NUM);
  mret {| id_ := i; attributes_ := a; interfaces_ := infs; maxPower_ := m; name_ := n; iConfiguration_ := x |}.
End Parcels.

Section Json.
Context `{!CJson}.
Definition of_cjson (j : cjson) : t := {|
  id_ := GetIntValue j "id"; attributes_ := to_u32 (GetIntValue j "attributes");
  interfaces_ := map UsbInterface.of_cjson (array_items j "interfaces");
  maxPower_ := GetIntValue j "maxPower"; name_ := GetStringValue j "name"; iConfiguration_ := UINT8_MAX |}.
Definition json_tree (c : t) : cjson :=
  JObject [("id", JNumber (id_ c)); ("attributes", JNumber (attributes_ c)); ("maxPower", JNumber (maxPower_ c));
           ("name", JString (c_str (name_ c))); ("isRemoteWakeup", JBool (IsRemoteWakeup c));
           ("isSelfPowered", JBool (IsSelfPowered c));
           ("interfaces", JArray (reparsed (map UsbInterface.getJsonString (interfaces_ c))))].
Definition getJsonString (c : t) : string := print_text (json_tree c).
End Json.
End USBConfig.

(** ** Devices *)

Module UsbDevice.
Inductive AuthorizeStatus := DISABLED | ENABLED | NEW_ARRIVED.

Record t := {
  name_ : string;
  manufacturerName_ : string;
  productName_ : string;
  version_ : string;
  serial_ : string;
  authorizeStatus_ : AuthorizeStatus;
  devAddr_ : Z;           (* uint8_t *)
  busNum_ : Z;            (* uint8_t *)
  descConfigCount_ : Z;   (* uint8_t *)
  bMaxPacketSize0_ : Z;   (* uint8_t *)
  bcdUSB_ : Z;            (* uint16_t *)
  bcdDevice_ : Z;         (* uint16_t *)
  iManufacturer_ : Z;     (* uint8_t *)
  iProduct_ : Z;          (* uint8_t *)
  iSerialNumber_ : Z;     (* uint8_t *)
  vendorId_ : Z;
  productId_ : Z;
  baseClass_ : Z;
  subClass_ : Z;
  protocol_ : Z;
  configs_ : list USBConfig.t;
}.
Definition default_ : t := {|
  name_ := ""; manufacturerName_ := ""; productName_ := ""; version_ := ""; serial_ := "";
  authorizeStatus_ := ENABLED; devAddr_ := UINT8_MAX; busNum_ := UINT8_MAX; descConfigCount_ := UINT8_MAX;
  bMaxPacketSize0_ := UINT8_MAX; bcdUSB_ := UINT16_MAX; bcdDevice_ := UINT16_MAX; iManufacturer_ := UINT8_MAX;
  iProduct_ := UINT8_MAX; iSerialNumber_ := UINT8_MAX; vendorId_ := INVALID_USB_INT_VALUE;
  productId_ := INVALID_USB_INT_VALUE; baseClass_ := INVALID_USB_INT_VALUE; subClass_ := INVALID_USB_INT_VALUE;
  protocol_ := INVALID_USB_INT_VALUE; configs_ := [] |}.

Definition GetConfig (index : Z) (d : t) : option USBConfig.t :=
  if Z.of_nat (length (configs_ d)) <=? index then None else configs_ d !! Z.to_nat index.

Definition ToString (d : t) : string :=
  "UsbDevice[name_=" +:+ name_ d +:+ ",manufacturerName_=" +:+ manufacturerName_ d +:+ ",productName_=" +:+ productName_ d +:+
  ",version_=" +:+ version_ d +:+ ",serial_=" +:+ serial_ d +:+ ",busNum_=" +:+ pretty (busNum_ d) +:+
  ",devAddr_=" +:+ pretty (devAddr_ d) +:+ ",vendorId_=" +:+ pretty (vendorId_ d) +:+ ",productId_=" +:+ pretty (productId_ d) +:+
  ",baseClass_=" +:+ pretty (baseClass_ d) +:+ ",subClass_=" +:+ pretty (subClass_ d) +:+ ",protocol_=" +:+ pretty (protocol_ d) +:+
  "];    " +:+ String.concat "" (map USBConfig.ToString (configs_ d)).

Section Parcels.
Context {P : Type} `{!Parcel P}.
(** The number of configurations is written signed and read unsigned. *)
Definition Marshalling (d : t) : state P bool :=
  ok ← write_fields [FUint8 (busNum_ d); FUint8 (devAddr_ d); FInt32 (vendorId_ d); FInt32 (productId_ d);
    FInt32 (baseClass_ d); FInt32 (subClass_ d); FInt32 (protocol_ d); FUint8 (iManufacturer_ d);
    FUint8 (iProduct_ d); FUint8 (iSerialNumber_ d); FUint8 (bMaxPacketSize0_ d); FUint16 (bcdUSB_ d);
    FUint16 (bcdDevice_ d); FString (name_ d); FString (manufacturerName_ d); FString (productName_ d);
    FString (version_ d); FString (serial_ d); FInt32 (Z.of_nat (length (configs_ d)))];
  if negb ok then mret false else
  write_children USBConfig.Marshalling USB_CONFIG_MAX_NUM (configs_ d);; mret true.
Definition Unmarshalling : state P t :=
  bn ← read_u8; da ← read_u8; vi ← read_i32; pi ← read_i32; bc ← read_i32; sc ← read_i32; pr ← read_i32;
  im ← read_u8; ip ← read_u8; sn ← read_u8; mp ← read_u8; bu ← read_u16; bd ← read_u16;
  nm ← ReadString; mn ← ReadString; pn ← ReadString; ve ← ReadString; se ← ReadString;
  configCount ← read_u32;
  cs ← read_children USBConfig.Unmarshalling (Nat.min (Z.to_nat configCount) USB_CONFIG_MAX_NUM);
  mret {| name_ := nm; manufacturerName_ := mn; productName_ := pn; version_ := ve; serial_ := se;
          authorizeStatus_ := ENABLED; devAddr_ := da; busNum_ := bn; descConfigCount_ := UINT8_MAX;
          bMaxPacketSize0_ := mp; bcdUSB_ := bu; bcdDevice_ := bd; iManufacturer_ := im; iProduct_ := ip;
          iSerialNumber_ := sn; vendorId_ := vi; productId_ := pi; baseClass_ := bc; subClass_ := sc;
          protocol_ := pr; configs_ := cs |}.
End Parcels.

Section Json.
Context `{!CJson}.
(** An integer is assigned to the string [serial_]: it becomes one character. *)
Definition of_cjson (j : cjson) : t := {|
  name_ := GetStringValue j "name"; manufacturerName_ := GetStringValue j "manufacturerName";
  productName_ := GetStringValue j "productName"; version_ := GetStringValue j "version";
  serial_ := String (ascii_of_N (Z.to_N (to_u8 (GetIntValue j "serial")))) "";
  authorizeStatus_ := ENABLED; devAddr_ := to_u8 (GetIntValue j "devAddress");
  busNum_ := to_u8 (GetIntValue j "busNum"); descConfigCount_ := UINT8_MAX;
  bMaxPacketSize0_ := UINT8_MAX; bcdUSB_ := UINT16_MAX; bcdDevice_ := UINT16_MAX;
  iManufacturer_ := UINT8_MAX; iProduct_ := UINT8_MAX; iSerialNumber_ := UINT8_MAX;
  vendorId_ := GetIntValue j "vendorId"; productId_ := GetIntValue j "productId";
  baseClass_ := GetIntValue j "clazz"; subClass_ := GetIntValue j "subClass";
  protocol_ := GetIntValue j "protocol"; configs_ := map USBConfig.of_cjson (array_items j "configs") |}.
Definition json_tree (d : t) : cjson :=
  JObject [("busNum", JNumber (busNum_ d)); ("devAddress", JNumber (devAddr_ d)); ("serial", JString "");
           ("name", JString (c_str (name_ d))); ("manufacturerName", JString (c_str (manufacturerName_ d)));
           ("productName", JString (c_str (productName_ d))); ("version", JString (c_str (version_ d)));
           ("vendorId", JNumber (vendorId_ d)); ("productId", JNumber (productId_ d));
           ("clazz", JNumber (baseClass_ d)); ("subClass", JNumber (subClass_ d));
           ("protocol", JNumber (protocol_ d));
           ("configs", JArray (reparsed (map USBConfig.getJsonString (configs_ d))))].
Definition getJsonString (d : t) : string := print_text (json_tree d).
End Json.
End UsbDevice.
