(* ===== verification/UsbDeviceTree.v ===== *)
(** * The device tree: its properties

    A device sent through a parcel or as JSON, and what of it arrives. *)
From S2P Require Import Prelude Platform UsbDevice.

(** ** Children in a parcel *)

Section Children.
Context {P : Type} `{!Parcel P, !ParcelLaws P}.

Lemma write_children_spec {A} (marshal : A → state P bool) (items : A → list parcel_item) n l :
  Forall (λ x, writes (marshal x) (items x)) l → (length l <= n)%nat →
  ∀ p, contents (write_children marshal n l p).2 = contents p ++ concat (map items l).
Proof.
  intros Hl Hn. unfold write_children. rewrite take_ge by done. clear Hn.
  induction Hl as [|x l Hx _ IH]; intros p; cbn [for_each map concat]; [by rewrite app_nil_r|].
  rewrite bind_run. rewrite IH, bind_run, ret_run. cbn [snd]. destruct (Hx p) as [_ ->]. by rewrite <- app_assoc.
Qed.

(** [arrives x] is what becomes of a child. *)
Lemma read_children_spec {A} (unmarshal : state P A) (arrives : A → A) (items : A → list parcel_item) l :
  Forall (λ x, reads unmarshal (arrives x) (items x)) l →
  reads (read_children unmarshal (length l)) (map arrives l) (concat (map items l)).
Proof.
  induction 1 as [|x l Hx _ IH]; cbn [read_children length map concat]; [apply reads_ret|].
  eapply reads_bind; [exact Hx|]. rewrite <- (app_nil_r (concat _)).
  eapply reads_bind; [exact IH|]. apply reads_ret.
Qed.

(** The header of a node, then its children. *)
Lemma writes_node {A} fields (marshal : A → state P bool) items n l `{!RoomyParcel P} :
  Forall (λ x, writes (marshal x) (items x)) l → (length l <= n)%nat →
  writes (ok ← write_fields fields; if negb ok then mret false else write_children marshal n l;; mret true)
    (map field_item fields ++ concat (map items l)).
Proof.
  intros Hl Hn p. rewrite bind_run. destruct (writes_fields fields p) as [-> Hc]. cbn [negb].
  rewrite bind_run, ret_run. split; [done|]. cbn [snd].
  by rewrite (write_children_spec _ items), Hc, <- app_assoc.
Qed.

(** Reading a count and that many children. *)
Lemma reads_node {A B} (unmarshal : state P A) (arrives : A → A) (items : A → list parcel_item) l n (k : list A → state P B) b :
  Forall (λ x, reads unmarshal (arrives x) (items x)) l → (length l <= n)%nat → Z.of_nat n < 2 ^ 31 → reads (k (map arrives l)) b [] →
  reads (count ← read_u32; xs ← read_children unmarshal (Nat.min (Z.to_nat count) n); k xs) b
    (PWord (to_u32 (Z.of_nat (length l))) :: concat (map items l)).
Proof.
  intros Hl Hn Hn31 Hk. eapply reads_cons; [apply reads_u32; unfold in_u32; lia|].
  rewrite Nat2Z.id, Nat.min_l by done. rewrite <- (app_nil_r (concat _)).
  eapply reads_bind; [by apply read_children_spec|exact Hk].
Qed.
End Children.

(** ** Round trips through a parcel *)

Definition ep_wf (e : USBEndpoint.t) : Prop :=
  in_u32 (USBEndpoint.address_ e) ∧ in_u32 (USBEndpoint.attributes_ e) ∧
  in_i32 (USBEndpoint.interval_ e) ∧ in_i32 (USBEndpoint.maxPacketSize_ e).
Definition inf_wf (i : UsbInterface.t) : Prop :=
  in_i32 (UsbInterface.id_ i) ∧ in_i32 (UsbInterface.protocol_ i) ∧ in_i32 (UsbInterface.klass_ i) ∧
  in_i32 (UsbInterface.subClass_ i) ∧ in_i32 (UsbInterface.alternateSetting_ i) ∧
  (length (UsbInterface.endpoints_ i) <= USB_ENDPOINT_MAX_NUM)%nat ∧ Forall ep_wf (UsbInterface.endpoints_ i).
Definition cfg_wf (c : USBConfig.t) : Prop :=
  in_i32 (USBConfig.id_ c) ∧ in_u32 (USBConfig.attributes_ c) ∧ in_i32 (USBConfig.maxPower_ c) ∧
  (length (USBConfig.interfaces_ c) <= USB_INTERFACE_MAX_NUM)%nat ∧ Forall inf_wf (USBConfig.interfaces_ c).
(** The fields in their types' ranges, at most 128 children per node. *)
Definition dev_wf (d : UsbDevice.t) : Prop :=
  in_i32 (UsbDevice.vendorId_ d) ∧ in_i32 (UsbDevice.productId_ d) ∧ in_i32 (UsbDevice.baseClass_ d) ∧
  in_i32 (UsbDevice.subClass_ d) ∧ in_i32 (UsbDevice.protocol_ d) ∧
  (length (UsbDevice.configs_ d) <= USB_CONFIG_MAX_NUM)%nat ∧ Forall cfg_wf (UsbDevice.configs_ d).

(** What arrives: the fields that a parcel does not carry have their initial values,
    every interface is authorised, the device is enabled, and its count of
    configurations is 255. *)
Definition inf_received (i : UsbInterface.t) : UsbInterface.t := {|
  UsbInterface.id_ := UsbInterface.id_ i; UsbInterface.protocol_ := UsbInterface.protocol_ i;
  UsbInterface.klass_ := UsbInterface.klass_ i; UsbInterface.subClass_ := UsbInterface.subClass_ i;
  UsbInterface.alternateSetting_ := UsbInterface.alternateSetting_ i; UsbInterface.name_ := UsbInterface.name_ i;
  UsbInterface.endpoints_ := UsbInterface.endpoints_ i; UsbInterface.iInterface_ := UsbInterface.iInterface_ i;
  UsbInterface.authorized_ := true |}.
Definition cfg_received (c : USBConfig.t) : USBConfig.t :=
  USBConfig.set_interfaces (map inf_received (USBConfig.interfaces_ c)) c.
Definition dev_received (d : UsbDevice.t) : UsbDevice.t := {|
  UsbDevice.name_ := UsbDevice.name_ d; UsbDevice.manufacturerName_ := UsbDevice.manufacturerName_ d;
  UsbDevice.productName_ := UsbDevice.productName_ d; UsbDevice.version_ := UsbDevice.version_ d;
  UsbDevice.serial_ := UsbDevice.serial_ d; UsbDevice.authorizeStatus_ := UsbDevice.ENABLED;
  UsbDevice.devAddr_ := UsbDevice.devAddr_ d; UsbDevice.busNum_ := UsbDevice.busNum_ d;
  UsbDevice.descConfigCount_ := UINT8_MAX; UsbDevice.bMaxPacketSize0_ := UsbDevice.bMaxPacketSize0_ d;
  UsbDevice.bcdUSB_ := UsbDevice.bcdUSB_ d; UsbDevice.bcdDevice_ := UsbDevice.bcdDevice_ d;
  UsbDevice.iManufacturer_ := UsbDevice.iManufacturer_ d; UsbDevice.iProduct_ := UsbDevice.iProduct_ d;
  UsbDevice.iSerialNumber_ := UsbDevice.iSerialNumber_ d; UsbDevice.vendorId_ := UsbDevice.vendorId_ d;
  UsbDevice.productId_ := UsbDevice.productId_ d; UsbDevice.baseClass_ := UsbDevice.baseClass_ d;
  UsbDevice.subClass_ := UsbDevice.subClass_ d; UsbDevice.protocol_ := UsbDevice.protocol_ d;
  UsbDevice.configs_ := map cfg_received (UsbDevice.configs_ d) |}.

(** What each node puts into a parcel. *)
Definition ep_items (e : USBEndpoint.t) : list parcel_item :=
  [PWord (to_u32 (USBEndpoint.address_ e)); PWord (to_u32 (USBEndpoint.attributes_ e));
   PWord (to_u32 (USBEndpoint.interval_ e)); PWord (to_u32 (USBEndpoint.maxPacketSize_ e));
   PUint8 (USBEndpoint.interfaceId_ e)].
Definition inf_items (i : UsbInterface.t) : list parcel_item :=
  [PWord (to_u32 (UsbInterface.id_ i)); PWord (to_u32 (UsbInterface.protocol_ i)); PWord (to_u32 (UsbInterface.klass_ i));
   PWord (to_u32 (UsbInterface.subClass_ i)); PWord (to_u32 (UsbInterface.alternateSetting_ i));
   PStr (UsbInterface.name_ i); PUint8 (UsbInterface.iInterface_ i);
   PWord (to_u32 (Z.of_nat (length (UsbInterface.endpoints_ i))))] ++ concat (map ep_items (UsbInterface.endpoints_ i)).
Definition cfg_items (c : USBConfig.t) : list parcel_item :=
  [PWord (to_u32 (USBConfig.id_ c)); PWord (to_u32 (USBConfig.attributes_ c)); PWord (to_u32 (USBConfig.maxPower_ c));
   PUint8 (USBConfig.iConfiguration_ c); PStr (USBConfig.name_ c);
   PWord (to_u32 (Z.of_nat (length (USBConfig.interfaces_ c))))] ++ concat (map inf_items (USBConfig.interfaces_ c)).
Definition dev_items (d : UsbDevice.t) : list parcel_item :=
  [PUint8 (UsbDevice.busNum_ d); PUint8 (UsbDevice.devAddr_ d); PWord (to_u32 (UsbDevice.vendorId_ d));
   PWord (to_u32 (UsbDevice.productId_ d)); PWord (to_u32 (UsbDevice.baseClass_ d)); PWord (to_u32 (UsbDevice.subClass_ d));
   PWord (to_u32 (UsbDevice.protocol_ d)); PUint8 (UsbDevice.iManufacturer_ d); PUint8 (UsbDevice.iProduct_ d);
   PUint8 (UsbDevice.iSerialNumber_ d); PUint8 (UsbDevice.bMaxPacketSize0_ d); PUint16 (UsbDevice.bcdUSB_ d);
   PUint16 (UsbDevice.bcdDevice_ d); PStr (UsbDevice.name_ d); PStr (UsbDevice.manufacturerName_ d);
   PStr (UsbDevice.productName_ d); PStr (UsbDevice.version_ d); PStr (UsbDevice.serial_ d);
   PWord (to_u32 (Z.of_nat (length (UsbDevice.configs_ d))))] ++ concat (map cfg_items (UsbDevice.configs_ d)).

Section Parcels.
Context {P : Type} `{!Parcel P, !ParcelLaws P, !RoomyParcel P}.

(** Read the fields of a node one by one. *)
Ltac read_fields := repeat (eapply reads_cons; [by auto with usb|]).

Lemma ep_writes e : writes (USBEndpoint.Marshalling e) (ep_items e).
Proof. apply writes_fields. Qed.
Lemma ep_reads e : ep_wf e → reads USBEndpoint.Unmarshalling e (ep_items e).
Proof.
  intros (? & ? & ? & ?). unfold USBEndpoint.Unmarshalling, ep_items. read_fields.
  destruct e. apply reads_ret.
Qed.

Lemma inf_writes i : inf_wf i → writes (UsbInterface.Marshalling i) (inf_items i).
Proof.
  intros (_ & _ & _ & _ & _ & Hn & _).
  refine (writes_node _ _ ep_items _ _ _ Hn). apply Forall_forall. intros e _. apply ep_writes.
Qed.
Lemma inf_reads i : inf_wf i → reads UsbInterface.Unmarshalling (inf_received i) (inf_items i).
Proof.
  intros (? & ? & ? & ? & ? & Hn & Hl). unfold UsbInterface.Unmarshalling, inf_items. cbn [app]. read_fields.
  apply (reads_node _ id); [|done|by vm_compute|].
  - apply (Forall_impl _ _ _ Hl), ep_reads.
  - rewrite map_id. destruct i. apply reads_ret.
Qed.

Lemma cfg_writes c : cfg_wf c → writes (USBConfig.Marshalling c) (cfg_items c).
Proof.
  intros (_ & _ & _ & Hn & Hl). refine (writes_node _ _ inf_items _ _ _ Hn). apply (Forall_impl _ _ _ Hl), inf_writes.
Qed.
Lemma cfg_reads c : cfg_wf c → reads USBConfig.Unmarshalling (cfg_received c) (cfg_items c).
Proof.
  intros (? & ? & ? & Hn & Hl). unfold USBConfig.Unmarshalling, cfg_items. cbn [app]. read_fields.
  apply (reads_node _ inf_received); [|done|by vm_compute|].
  - apply (Forall_impl _ _ _ Hl), inf_reads.
  - destruct c. apply reads_ret.
Qed.

Lemma dev_writes d : dev_wf d → writes (UsbDevice.Marshalling d) (dev_items d).
Proof.
  intros (_ & _ & _ & _ & _ & Hn & Hl). refine (writes_node _ _ cfg_items _ _ _ Hn). apply (Forall_impl _ _ _ Hl), cfg_writes.
Qed.
Lemma dev_reads d : dev_wf d → reads UsbDevice.Unmarshalling (dev_received d) (dev_items d).
Proof.
  intros (? & ? & ? & ? & ? & Hn & Hl). unfold UsbDevice.Unmarshalling, dev_items. cbn [app]. read_fields.
  apply (reads_node _ cfg_received); [|done|by vm_compute|].
  - apply (Forall_impl _ _ _ Hl), cfg_reads.
  - destruct d. apply reads_ret.
Qed.

(** C27: a whole device tree goes through a parcel: unmarshalling what marshalling
    wrote gives the device, its configurations, interfaces and endpoints with all
    their fields but three that a parcel does not carry: the status of the device
    becomes enabled, its count of configurations 255 and its interfaces authorised.
    It holds for fields in the ranges of their types and up to 128 children per node,
    in a parcel that takes what is written, and leaves the parcel empty as it was. *)
Theorem UsbDevice_parcel_roundtrip d (p : P) : dev_wf d → contents p = [] →
  (UsbDevice.Marshalling d p).1 = true ∧
  (UsbDevice.Unmarshalling (UsbDevice.Marshalling d p).2).1 = dev_received d ∧
  contents (UsbDevice.Unmarshalling (UsbDevice.Marshalling d p).2).2 = [].
Proof.
  intros Hd Hp. destruct (dev_writes d Hd p) as [Hw Hc]. split; [done|]. rewrite Hp in Hc.
  apply (dev_reads d Hd). by rewrite app_nil_r.
Qed.
End Parcels.

(** ** Round trips through JSON *)

Definition in_u8 (z : Z) : Prop := 0 <= z < 256.
(** [valueint] is an [int]: unsigned fields above its range do not survive. *)
Definition ep_json (e : USBEndpoint.t) : Prop :=
  0 <= USBEndpoint.address_ e < 2 ^ 31 ∧ 0 <= USBEndpoint.attributes_ e < 2 ^ 31 ∧
  in_i32 (USBEndpoint.interval_ e) ∧ in_i32 (USBEndpoint.maxPacketSize_ e) ∧ in_u8 (USBEndpoint.interfaceId_ e).
Definition inf_json (i : UsbInterface.t) : Prop :=
  in_i32 (UsbInterface.id_ i) ∧ in_i32 (UsbInterface.protocol_ i) ∧ in_i32 (UsbInterface.klass_ i) ∧
  in_i32 (UsbInterface.subClass_ i) ∧ in_i32 (UsbInterface.alternateSetting_ i) ∧
  c_str (UsbInterface.name_ i) = UsbInterface.name_ i ∧ Forall ep_json (UsbInterface.endpoints_ i).
Definition cfg_json (c : USBConfig.t) : Prop :=
  in_i32 (USBConfig.id_ c) ∧ 0 <= USBConfig.attributes_ c < 2 ^ 31 ∧ in_i32 (USBConfig.maxPower_ c) ∧
  c_str (USBConfig.name_ c) = USBConfig.name_ c ∧ Forall inf_json (USBConfig.interfaces_ c).
Definition dev_json (d : UsbDevice.t) : Prop :=
  in_u8 (UsbDevice.busNum_ d) ∧ in_u8 (UsbDevice.devAddr_ d) ∧ in_i32 (UsbDevice.vendorId_ d) ∧
  in_i32 (UsbDevice.productId_ d) ∧ in_i32 (UsbDevice.baseClass_ d) ∧ in_i32 (UsbDevice.subClass_ d) ∧
  in_i32 (UsbDevice.protocol_ d) ∧ c_str (UsbDevice.name_ d) = UsbDevice.name_ d ∧
  c_str (UsbDevice.manufacturerName_ d) = UsbDevice.manufacturerName_ d ∧
  c_str (UsbDevice.productName_ d) = UsbDevice.productName_ d ∧
  c_str (UsbDevice.version_ d) = UsbDevice.version_ d ∧ Forall cfg_json (UsbDevice.configs_ d).

(** What of a node a JSON text keeps: the string indices are reset, and a
    device's serial number becomes one NUL character. *)
Definition inf_kept (i : UsbInterface.t) : UsbInterface.t := {|
  UsbInterface.id_ := UsbInterface.id_ i; UsbInterface.protocol_ := UsbInterface.protocol_ i;
  UsbInterface.klass_ := UsbInterface.klass_ i; UsbInterface.subClass_ := UsbInterface.subClass_ i;
  UsbInterface.alternateSetting_ := UsbInterface.alternateSetting_ i; UsbInterface.name_ := UsbInterface.name_ i;
  UsbInterface.endpoints_ := UsbInterface.endpoints_ i; UsbInterface.iInterface_ := UINT8_MAX;
  UsbInterface.authorized_ := true |}.
Definition cfg_kept (c : USBConfig.t) : USBConfig.t := {|
  USBConfig.id_ := USBConfig.id_ c; USBConfig.attributes_ := USBConfig.attributes_ c;
  USBConfig.interfaces_ := map inf_kept (USBConfig.interfaces_ c); USBConfig.maxPower_ := USBConfig.maxPower_ c;
  USBConfig.name_ := USBConfig.name_ c; USBConfig.iConfiguration_ := UINT8_MAX |}.
Definition dev_kept (d : UsbDevice.t) : UsbDevice.t := {|
  UsbDevice.name_ := UsbDevice.name_ d; UsbDevice.manufacturerName_ := UsbDevice.manufacturerName_ d;
  UsbDevice.productName_ := UsbDevice.productName_ d; UsbDevice.version_ := UsbDevice.version_ d;
  UsbDevice.serial_ := String "000"%char ""; UsbDevice.authorizeStatus_ := UsbDevice.ENABLED;
  UsbDevice.devAddr_ := UsbDevice.devAddr_ d; UsbDevice.busNum_ := UsbDevice.busNum_ d;
  UsbDevice.descConfigCount_ := UINT8_MAX; UsbDevice.bMaxPacketSize0_ := UINT8_MAX;
  UsbDevice.bcdUSB_ := UINT16_MAX; UsbDevice.bcdDevice_ := UINT16_MAX; UsbDevice.iManufacturer_ := UINT8_MAX;
  UsbDevice.iProduct_ := UINT8_MAX; UsbDevice.iSerialNumber_ := UINT8_MAX; UsbDevice.vendorId_ := UsbDevice.vendorId_ d;
  UsbDevice.productId_ := UsbDevice.productId_ d; UsbDevice.baseClass_ := UsbDevice.baseClass_ d;
  UsbDevice.subClass_ := UsbDevice.subClass_ d; UsbDevice.protocol_ := UsbDevice.protocol_ d;
  UsbDevice.configs_ := map cfg_kept (UsbDevice.configs_ d) |}.

Section JsonTrees.
Context `{!CJson, !CJsonLaws}.

Lemma parse_print j : cJSON_Parse (print_text j) = Some j.
Proof.
  unfold print_text. rewrite law_json_create. cbn [negb]. destruct (law_json_print j) as [s Hs].
  by rewrite Hs, (law_json_parse _ _ Hs).
Qed.
Lemma reparsed_texts {A} (tree : A → cjson) l : reparsed (map (λ x, print_text (tree x)) l) = map tree l.
Proof.
  unfold reparsed. induction l as [|x l IH]; [done|]. cbn [map omap list_omap]. rewrite parse_print.
  by rewrite <- IH.
Qed.
(** Children read back one by one. *)
Lemma map_back {A B} (of_json : cjson → B) (tree : A → cjson) (kept : A → B) (ok : A → Prop) l :
  (∀ x, ok x → of_json (tree x) = kept x) → Forall ok l → map of_json (map tree l) = map kept l.
Proof. intros Hof. induction 1 as [|x l Hx _ IH]; cbn [map]; [done|]. by rewrite Hof, IH. Qed.

Lemma member_cons k v kvs k' :
  member ((k, v) :: kvs) k' = if bool_decide (lower k = lower k') then Some v else member kvs k'.
Proof. unfold member. cbn [find fst]. by destruct (bool_decide _). Qed.
(** Evaluate the look-ups of members in a tree. *)
Ltac look_up := unfold GetIntValue, GetStringValue, array_items; rewrite ?law_json_item;
  repeat match goal with
  | |- context [member ((?a, ?v) :: ?l) ?b] =>
      let c := eval vm_compute in (bool_decide (lower a = lower b)) in
      let E := fresh in
      assert (member ((a, v) :: l) b = if c then Some v else member l b) as E by (by rewrite member_cons);
      rewrite E; clear E; cbv iota
  end;
  rewrite ?law_json_items, ?valueint_id by (unfold in_i32, in_u8 in *; lia).

Lemma to_u32_i31 z : 0 <= z < 2 ^ 31 → to_u32 z = z.
Proof. intros ?. unfold to_u32. apply Z.mod_small. lia. Qed.
Lemma to_u8_id z : in_u8 z → to_u8 z = z.
Proof. intros ?. by apply Z.mod_small. Qed.

Lemma ep_back e : ep_json e → USBEndpoint.of_cjson (USBEndpoint.json_tree e) = e.
Proof.
  intros (? & ? & ? & ? & ?). unfold USBEndpoint.of_cjson, USBEndpoint.json_tree. look_up.
  rewrite !to_u32_i31, to_u8_id by done. by destruct e.
Qed.
Lemma inf_back i : inf_json i → UsbInterface.of_cjson (UsbInterface.json_tree i) = inf_kept i.
Proof.
  intros (? & ? & ? & ? & ? & Hs & Hl). unfold UsbInterface.of_cjson, UsbInterface.json_tree, inf_kept. look_up.
  unfold USBEndpoint.getJsonString. rewrite Hs, reparsed_texts, (map_back _ _ id _ _ ep_back Hl).
  by rewrite map_id.
Qed.
Lemma cfg_back c : cfg_json c → USBConfig.of_cjson (USBConfig.json_tree c) = cfg_kept c.
Proof.
  intros (? & ? & ? & Hs & Hl). unfold USBConfig.of_cjson, USBConfig.json_tree, cfg_kept. look_up.
  unfold UsbInterface.getJsonString. by rewrite Hs, to_u32_i31, reparsed_texts, (map_back _ _ inf_kept _ _ inf_back Hl).
Qed.

(** A device built from the JSON text of another has its numbers, names,
    configurations, interfaces and endpoints; the string indices, the release
    numbers and the serial number are lost, the serial number becoming one
    NUL character. *)
Theorem UsbDevice_json_roundtrip d : dev_json d →
  UsbDevice.of_cjson <$> cJSON_Parse (UsbDevice.getJsonString d) = Some (dev_kept d).
Proof.
  intros (? & ? & ? & ? & ? & ? & ? & Hn & Hm & Hp & Hv & Hl).
  unfold UsbDevice.getJsonString. rewrite parse_print. cbn [fmap option_fmap option_map]. f_equal.
  unfold UsbDevice.of_cjson, UsbDevice.json_tree, dev_kept. look_up. unfold USBConfig.getJsonString.
  by rewrite Hn, Hm, Hp, Hv, !to_u8_id, reparsed_texts, (map_back _ _ cfg_kept _ _ cfg_back Hl).
Qed.
End JsonTrees.

(** ** A mouse with one interface *)

Definition mouse : UsbDevice.t := {|
  UsbDevice.name_ := "1-2"; UsbDevice.manufacturerName_ := "Logi"; UsbDevice.productName_ := "Mouse";
  UsbDevice.version_ := "16"; UsbDevice.serial_ := "A1"; UsbDevice.authorizeStatus_ := UsbDevice.ENABLED;
  UsbDevice.devAddr_ := 2; UsbDevice.busNum_ := 1; UsbDevice.descConfigCount_ := 1;
  UsbDevice.bMaxPacketSize0_ := 8; UsbDevice.bcdUSB_ := 0x200; UsbDevice.bcdDevice_ := 0x7200;
  UsbDevice.iManufacturer_ := 1; UsbDevice.iProduct_ := 2; UsbDevice.iSerialNumber_ := 3;
  UsbDevice.vendorId_ := 0x46d; UsbDevice.productId_ := 0xc077; UsbDevice.baseClass_ := 0;
  UsbDevice.subClass_ := 0; UsbDevice.protocol_ := 0;
  UsbDevice.configs_ := [{|
    USBConfig.id_ := 1; USBConfig.attributes_ := 0xa0; USBConfig.maxPower_ := 50; USBConfig.name_ := "";
    USBConfig.iConfiguration_ := 0;
    USBConfig.interfaces_ := [{|
      UsbInterface.id_ := 0; UsbInterface.protocol_ := 2; UsbInterface.klass_ := 3; UsbInterface.subClass_ := 1;
      UsbInterface.alternateSetting_ := 0; UsbInterface.name_ := "hid"; UsbInterface.iInterface_ := 4;
      UsbInterface.authorized_ := true;
      UsbInterface.endpoints_ := [{| USBEndpoint.address_ := 0x81; USBEndpoint.attributes_ := 3;
        USBEndpoint.interval_ := 10; USBEndpoint.maxPacketSize_ := 4; USBEndpoint.interfaceId_ := 0 |}] |}] |}] |}.

(** Discharge the ranges of a concrete tree. *)
Ltac concrete_tree :=
  cbv [dev_wf cfg_wf inf_wf ep_wf dev_json cfg_json inf_json ep_json in_i32 in_u32 in_u8]; cbn -[Z.pow];
  repeat first [apply List.Forall_cons | apply List.Forall_nil | apply conj]; cbn; try lia; try done;
  apply Nat.leb_le; by vm_compute.

Example UsbDevice_parcel_roundtrip_witness :
  (dev_wf mouse ∧ contents ([] : list parcel_item) = []) ∧
  (UsbDevice.Unmarshalling (UsbDevice.Marshalling mouse ([] : list parcel_item)).2).1 = dev_received mouse.
Proof.
  assert (dev_wf mouse) as Hd by concrete_tree. split; [done|].
  exact (proj1 (proj2 (UsbDevice_parcel_roundtrip mouse ([] : list parcel_item) Hd eq_refl))).
Defined.
Example UsbDevice_json_roundtrip_witness :
  dev_json mouse ∧
  (let J := number_json in UsbDevice.of_cjson <$> cJSON_Parse (UsbDevice.getJsonString mouse)) = Some (dev_kept mouse).
Proof.
  assert (dev_json mouse) as Hd by concrete_tree. split; [done|].
  exact (@UsbDevice_json_roundtrip number_json number_json_laws mouse Hd).
Defined.
