(* ===== verification/UsbDescriptorParser.v ===== *)
(** * Descriptors (usb_descriptor_parser.cpp)

    The packed structures of usbd_type.h, the parser of a device descriptor and
    the loop over the descriptors that follow it.  Every read names the bytes it
    touches: one outside the buffer is a [Fault] of the model. *)
From S2P Require Import Prelude UsbErrors UsbDevice.

(** ** The structures (usbd_type.h) *)

(** Little-endian, as on the devices. *)
Definition u16_le (lo hi : Z) : Z := lo + 256 * hi.

Module UsbdDescriptorHeader.
Record t := { bLength : Z; bDescriptorType : Z }.
Definition sizeof : Z := 2.
Definition load (b : list Z) : option t :=
  match b with [l; ty] => Some {| bLength := l; bDescriptorType := ty |} | _ => None end.
End UsbdDescriptorHeader.

Module UsbdDeviceDescriptor.
Record t := {
  bLength : Z; bDescriptorType : Z; bcdUSB : Z; bDeviceClass : Z; bDeviceSubClass : Z; bDeviceProtocol : Z;
  bMaxPacketSize0 : Z; idVendor : Z; idProduct : Z; bcdDevice : Z; iManufacturer : Z; iProduct : Z;
  iSerialNumber : Z; bNumConfigurations : Z }.
Definition sizeof : Z := 18.
Definition load (b : list Z) : option t :=
  match b with
  | [l; ty; u0; u1; dc; ds; dp; mp; v0; v1; p0; p1; d0; d1; im; ip; is_; nc] =>
      Some {| bLength := l; bDescriptorType := ty; bcdUSB := u16_le u0 u1; bDeviceClass := dc; bDeviceSubClass := ds;
              bDeviceProtocol := dp; bMaxPacketSize0 := mp; idVendor := u16_le v0 v1; idProduct := u16_le p0 p1;
              bcdDevice := u16_le d0 d1; iManufacturer := im; iProduct := ip; iSerialNumber := is_;
              bNumConfigurations := nc |}
  | _ => None
  end.
End UsbdDeviceDescriptor.

Module UsbdConfigDescriptor.
Record t := {
  bLength : Z; bDescriptorType : Z; wTotalLength : Z; bNumInterfaces : Z; bConfigurationValue : Z;
  iConfiguration : Z; bmAttributes : Z; bMaxPower : Z }.
Definition sizeof : Z := 9.
Definition load (b : list Z) : option t :=
  match b with
  | [l; ty; t0; t1; n; v; i; a; m] =>
      Some {| bLength := l; bDescriptorType := ty; wTotalLength := u16_le t0 t1; bNumInterfaces := n;
              bConfigurationValue := v; iConfiguration := i; bmAttributes := a; bMaxPower := m |}
  | _ => None
  end.
End UsbdConfigDescriptor.

Module UsbdInterfaceDescriptor.
Record t := {
  bLength : Z; bDescriptorType : Z; bInterfaceNumber : Z; bAlternateSetting : Z; bNumEndpoints : Z;
  bInterfaceClass : Z; bInterfaceSubClass : Z; bInterfaceProtocol : Z; iInterface : Z }.
Definition sizeof : Z := 9.
Definition load (b : list Z) : option t :=
  match b with
  | [l; ty; n; a; e; c; s; p; i] =>
      Some {| bLength := l; bDescriptorType := ty; bInterfaceNumber := n; bAlternateSetting := a; bNumEndpoints := e;
              bInterfaceClass := c; bInterfaceSubClass := s; bInterfaceProtocol := p; iInterface := i |}
  | _ => None
  end.
End UsbdInterfaceDescriptor.

Module UsbdEndpointDescriptor.
Record t := {
  bLength : Z; bDescriptorType : Z; bEndpointAddress : Z; bmAttributes : Z; wMaxPacketSize : Z; bInterval : Z }.
Definition sizeof : Z := 7.
Definition load (b : list Z) : option t :=
  match b with
  | [l; ty; a; at'; m0; m1; i] =>
      Some {| bLength := l; bDescriptorType := ty; bEndpointAddress := a; bmAttributes := at';
              wMaxPacketSize := u16_le m0 m1; bInterval := i |}
  | _ => None
  end.
End UsbdEndpointDescriptor.

(** The structure of [size] bytes at [buffer + cursor]; [None] outside the buffer. *)
Definition read_at {A} (load : list Z → option A) (size : Z) (buffer : list Z) (cursor : Z) : option A :=
  if bool_decide (0 <= cursor ∧ cursor + size <= Z.of_nat (length buffer))
  then load (take (Z.to_nat size) (drop (Z.to_nat cursor) buffer)) else None.

(** ** The parser *)

Definition DESCRIPTOR_TYPE_CONFIG : Z := 2.
Definition DESCRIPTOR_TYPE_INTERFACE : Z := 4.
Definition DESCRIPTOR_TYPE_ENDPOINT : Z := 5.
Definition NORMAL_ENDPOINT_DESCRIPTOR : Z := 7.
Definition AUDIO_ENDPOINT_DESCRIPTOR : Z := 9.

(** [l.back()] changed in place; the callers have checked that it exists. *)
Definition alter_back {A} (f : A → A) (l : list A) : list A := alter f (pred (length l)) l.

(** What a run ends with. *)
Inductive outcome (A : Type) :=
  | Done (a : A)
  | Fault        (* a read outside the buffer *)
  | OutOfFuel.
Arguments Done {A}. Arguments Fault {A}. Arguments OutOfFuel {A}.

Module UsbDescriptorParser.
Section Parser.
Context `{!ErrCodeBase}.

(** [ParseDeviceDescriptor]; [buffer] is [None] for a null pointer. *)
Definition ParseDeviceDescriptor (buffer : option (list Z)) (length : Z) (dev : UsbDevice.t)
    : outcome (Z * UsbDevice.t) :=
  match buffer with
  | None => Done (uec UEC_SERVICE_INVALID_VALUE, dev)
  | Some buffer =>
      if length =? 0 then Done (uec UEC_SERVICE_INVALID_VALUE, dev) else
      if length <? UsbdDeviceDescriptor.sizeof then Done (uec UEC_SERVICE_INVALID_VALUE, dev) else
      match read_at UsbdDeviceDescriptor.load UsbdDeviceDescriptor.sizeof buffer 0 with
      | None => Fault
      | Some d =>
          if negb (UsbdDeviceDescriptor.bLength d =? UsbdDeviceDescriptor.sizeof)
          then Done (uec UEC_SERVICE_INVALID_VALUE, dev) else
          Done (UEC_OK, {|
            UsbDevice.name_ := UsbDevice.name_ dev; UsbDevice.manufacturerName_ := UsbDevice.manufacturerName_ dev;
            UsbDevice.productName_ := UsbDevice.productName_ dev; UsbDevice.version_ := UsbDevice.version_ dev;
            UsbDevice.serial_ := UsbDevice.serial_ dev; UsbDevice.authorizeStatus_ := UsbDevice.authorizeStatus_ dev;
            UsbDevice.devAddr_ := UsbDevice.devAddr_ dev; UsbDevice.busNum_ := UsbDevice.busNum_ dev;
            UsbDevice.descConfigCount_ := UsbdDeviceDescriptor.bNumConfigurations d;
            UsbDevice.bMaxPacketSize0_ := UsbdDeviceDescriptor.bMaxPacketSize0 d;
            UsbDevice.bcdUSB_ := UsbdDeviceDescriptor.bcdUSB d;
            UsbDevice.bcdDevice_ := UsbdDeviceDescriptor.bcdDevice d;
            UsbDevice.iManufacturer_ := UsbdDeviceDescriptor.iManufacturer d;
            UsbDevice.iProduct_ := UsbdDeviceDescriptor.iProduct d;
            UsbDevice.iSerialNumber_ := UsbdDeviceDescriptor.iSerialNumber d;
            UsbDevice.vendorId_ := UsbdDeviceDescriptor.idVendor d;
            UsbDevice.productId_ := UsbdDeviceDescriptor.idProduct d;
            UsbDevice.baseClass_ := UsbdDeviceDescriptor.bDeviceClass d;
            UsbDevice.subClass_ := UsbdDeviceDescriptor.bDeviceSubClass d;
            UsbDevice.protocol_ := UsbdDeviceDescriptor.bDeviceProtocol d;
            UsbDevice.configs_ := UsbDevice.configs_ dev |})
      end
  end.

Definition AddConfig (configs : list USBConfig.t) (d : UsbdConfigDescriptor.t) : Z * list USBConfig.t :=
  (UEC_OK, configs ++ [{|
    USBConfig.id_ := UsbdConfigDescriptor.bConfigurationValue d;
    USBConfig.attributes_ := UsbdConfigDescriptor.bmAttributes d;
    USBConfig.interfaces_ := [];
    USBConfig.maxPower_ := UsbdConfigDescriptor.bMaxPower d;
    USBConfig.name_ := "";
    USBConfig.iConfiguration_ := UsbdConfigDescriptor.iConfiguration d |}]).

Definition AddInterface (configs : list USBConfig.t) (d : UsbdInterfaceDescriptor.t) : Z * list USBConfig.t :=
  match configs with
  | [] => (uec UEC_SERVICE_INVALID_VALUE, configs)
  | _ =>
      (UEC_OK, alter_back (λ c, USBConfig.set_interfaces (USBConfig.interfaces_ c ++ [{|
        UsbInterface.id_ := UsbdInterfaceDescriptor.bInterfaceNumber d;
        UsbInterface.protocol_ := UsbdInterfaceDescriptor.bInterfaceProtocol d;
        UsbInterface.klass_ := UsbdInterfaceDescriptor.bInterfaceClass d;
        UsbInterface.subClass_ := UsbdInterfaceDescriptor.bInterfaceSubClass d;
        UsbInterface.alternateSetting_ := UsbdInterfaceDescriptor.bAlternateSetting d;
        UsbInterface.name_ := "";
        UsbInterface.endpoints_ := [];
        UsbInterface.iInterface_ := UsbdInterfaceDescriptor.iInterface d;
        UsbInterface.authorized_ := true |}]) c) configs)
  end.

(** [SetInterfaceId] takes a [uint8_t]. *)
Definition AddEndpoint (configs : list USBConfig.t) (d : UsbdEndpointDescriptor.t) : Z * list USBConfig.t :=
  match last configs with
  | None => (uec UEC_SERVICE_INVALID_VALUE, configs)
  | Some c =>
      match last (USBConfig.interfaces_ c) with
      | None => (uec UEC_SERVICE_INVALID_VALUE, configs)
      | Some i =>
          let endpoint := {|
            USBEndpoint.address_ := UsbdEndpointDescriptor.bEndpointAddress d;
            USBEndpoint.attributes_ := UsbdEndpointDescriptor.bmAttributes d;
            USBEndpoint.interval_ := UsbdEndpointDescriptor.bInterval d;
            USBEndpoint.maxPacketSize_ := UsbdEndpointDescriptor.wMaxPacketSize d;
            USBEndpoint.interfaceId_ := to_u8 (UsbInterface.id_ i) |} in
          (UEC_OK, alter_back (λ c, USBConfig.set_interfaces
            (alter_back (λ i, UsbInterface.set_endpoints (UsbInterface.endpoints_ i ++ [endpoint]) i)
              (USBConfig.interfaces_ c)) c) configs)
      end
  end.

(** The [switch] on the type of the descriptor at [cursor]. *)
Definition ParseOne (buffer : list Z) (cursor : Z) (h : UsbdDescriptorHeader.t) (configs : list USBConfig.t)
    : option (Z * list USBConfig.t) :=
  let bLength := UsbdDescriptorHeader.bLength h in
  let type := UsbdDescriptorHeader.bDescriptorType h in
  if type =? DESCRIPTOR_TYPE_CONFIG then
    if negb (bLength =? UsbdConfigDescriptor.sizeof) then Some (uec UEC_SERVICE_INVALID_VALUE, configs)
    else AddConfig configs <$> read_at UsbdConfigDescriptor.load UsbdConfigDescriptor.sizeof buffer cursor
  else if type =? DESCRIPTOR_TYPE_INTERFACE then
    if negb (bLength =? UsbdInterfaceDescriptor.sizeof) then Some (uec UEC_SERVICE_INVALID_VALUE, configs)
    else AddInterface configs <$> read_at UsbdInterfaceDescriptor.load UsbdInterfaceDescriptor.sizeof buffer cursor
  else if type =? DESCRIPTOR_TYPE_ENDPOINT then
    if negb (bLength =? NORMAL_ENDPOINT_DESCRIPTOR) && negb (bLength =? AUDIO_ENDPOINT_DESCRIPTOR)
    then Some (uec UEC_SERVICE_INVALID_VALUE, configs)
    else AddEndpoint configs <$> read_at UsbdEndpointDescriptor.load UsbdEndpointDescriptor.sizeof buffer cursor
  else Some (UEC_OK, configs).

(** The loop; [length] and [cursor] are [uint32_t]. *)
Fixpoint parse_loop (fuel : nat) (buffer : list Z) (length cursor : Z) (configs : list USBConfig.t)
    : outcome (Z * list USBConfig.t) :=
  match fuel with
  | O => OutOfFuel
  | S fuel =>
      if length <=? cursor then Done (UEC_OK, configs) else
      if length - cursor <? UsbdDescriptorHeader.sizeof then Done (UEC_OK, configs) else
      match read_at UsbdDescriptorHeader.load UsbdDescriptorHeader.sizeof buffer cursor with
      | None => Fault
      | Some h =>
          let bLength := UsbdDescriptorHeader.bLength h in
          if (bLength <? UsbdDescriptorHeader.sizeof) || (length - cursor <? bLength) then Done (UEC_OK, configs) else
          match ParseOne buffer cursor h configs with
          | None => Fault
          | Some (ret, configs) =>
              if negb (ret =? UEC_OK) then Done (ret, configs)
              else parse_loop fuel buffer length (to_u32 (cursor + bLength)) configs
          end
      end
  end.

(** Every round passes at least two bytes: as much fuel as there are bytes is enough. *)
Definition ParseConfigDescriptors (descriptor : list Z) (offset : Z) (configs : list USBConfig.t)
    : outcome (Z * list USBConfig.t) :=
  parse_loop (S (length descriptor)) descriptor (to_u32 (Z.of_nat (length descriptor))) (to_u32 offset) configs.
End Parser.
End UsbDescriptorParser.
