(* ===== verification/UsbDescriptorTheorems.v ===== *)
(** * Descriptors: the properties of the parser

    It terminates without a read outside the buffer on any bytes, it is a fold
    over the descriptors the buffer is made of, and it reads back the tree a
    device serialises. *)
From S2P Require Import Prelude UsbErrors UsbDevice UsbDescriptorParser.
Import UsbDescriptorParser.

(** ** Reads *)

Lemma read_at_inside {A} (load : list Z → option A) n buffer cursor :
  0 <= cursor → 0 <= n → cursor + n <= Z.of_nat (length buffer) →
  (∀ b, length b = Z.to_nat n → is_Some (load b)) → is_Some (read_at load n buffer cursor).
Proof.
  intros ??? Hload. unfold read_at. rewrite bool_decide_true by lia. apply Hload.
  rewrite length_take, length_drop. lia.
Qed.

(** A read inside the middle part of a buffer is a read of that part. *)
Lemma read_at_middle {A} (load : list Z → option A) n pre mid post :
  0 <= n <= Z.of_nat (length mid) →
  read_at load n (pre ++ mid ++ post) (Z.of_nat (length pre)) = read_at load n mid 0.
Proof.
  intros ?. unfold read_at. rewrite !length_app, !bool_decide_true by lia.
  rewrite Nat2Z.id, drop_app_length, drop_0. by rewrite take_app_le by lia.
Qed.

Ltac load_total := intros b Hb; repeat (destruct b as [|? b]; [discriminate Hb|]);
  destruct b; [by eexists|discriminate Hb].
Lemma load_header b : length b = Z.to_nat UsbdDescriptorHeader.sizeof → is_Some (UsbdDescriptorHeader.load b).
Proof. revert b. load_total. Qed.
Lemma load_device b : length b = Z.to_nat UsbdDeviceDescriptor.sizeof → is_Some (UsbdDeviceDescriptor.load b).
Proof. revert b. load_total. Qed.
Lemma load_config b : length b = Z.to_nat UsbdConfigDescriptor.sizeof → is_Some (UsbdConfigDescriptor.load b).
Proof. revert b. load_total. Qed.
Lemma load_interface b : length b = Z.to_nat UsbdInterfaceDescriptor.sizeof → is_Some (UsbdInterfaceDescriptor.load b).
Proof. revert b. load_total. Qed.
Lemma load_endpoint b : length b = Z.to_nat UsbdEndpointDescriptor.sizeof → is_Some (UsbdEndpointDescriptor.load b).
Proof. revert b. load_total. Qed.
#[export] Hint Resolve load_header load_device load_config load_interface load_endpoint : usb.

(** ** The last element *)

Lemma alter_back_snoc {A} (f : A → A) l x : alter_back f (l ++ [x]) = l ++ [f x].
Proof.
  unfold alter_back. rewrite length_app, Nat.add_1_r. cbn [pred].
  rewrite alter_app_r_alt by lia. by rewrite Nat.sub_diag.
Qed.

(** Only the last element changes and elements are added. *)
Definition grown {A} (l l' : list A) : Prop :=
  (length l <= length l')%nat ∧ take (pred (length l)) l' = take (pred (length l)) l.
#[export] Instance grown_po {A} : PreOrder (@grown A).
Proof.
  split; [by split|]. intros l1 l2 l3 [H12 E12] [H23 E23]. split; [lia|]. rewrite <- E12.
  assert (Hmin : (pred (length l1) `min` pred (length l2))%nat = pred (length l1)) by lia.
  by rewrite <- Hmin, <- !take_take, E23, !take_take, Hmin.
Qed.
Lemma grown_snoc {A} (l : list A) x : grown l (l ++ [x]).
Proof. split; [rewrite length_app; lia|]. by rewrite take_app_le by lia. Qed.
Lemma grown_alter_back {A} (f : A → A) l : grown l (alter_back f l).
Proof.
  unfold alter_back. split; [by rewrite length_alter|]. by rewrite take_alter_ge by lia.
Qed.
#[export] Hint Resolve grown_snoc grown_alter_back : usb.

(** ** The descriptors of a buffer *)

(** A descriptor by what the parser does with it. *)
Inductive descriptor :=
  | DConfig (d : UsbdConfigDescriptor.t)
  | DInterface (d : UsbdInterfaceDescriptor.t)
  | DEndpoint (d : UsbdEndpointDescriptor.t)
  | DMalformed   (* of one of these types, with another length *)
  | DOther.
Definition classify (c : list Z) : descriptor :=
  match c with
  | _ :: type :: _ =>
      if type =? DESCRIPTOR_TYPE_CONFIG then from_option DConfig DMalformed (UsbdConfigDescriptor.load c)
      else if type =? DESCRIPTOR_TYPE_INTERFACE then from_option DInterface DMalformed (UsbdInterfaceDescriptor.load c)
      else if type =? DESCRIPTOR_TYPE_ENDPOINT then
        if bool_decide (length c = 7 ∨ length c = 9)%nat
        then from_option DEndpoint DMalformed (UsbdEndpointDescriptor.load (take 7 c)) else DMalformed
      else DOther
  | _ => DOther
  end.

(** A descriptor starts with its length; what follows the last one is too short
    for a header or claims a length that does not fit. *)
Definition chunk_ok (c : list Z) : Prop := ∃ type rest, c = Z.of_nat (length c) :: type :: rest.
Definition stops (tail : list Z) : Prop :=
  match tail with n :: _ :: _ => n < 2 ∨ Z.of_nat (length tail) < n | _ => True end.

Section Parsing.
Context `{!ErrCodeBase}.

(** ** One descriptor *)

(** The results of the parser. *)
Definition parse_result (configs : list USBConfig.t) (r : Z * list USBConfig.t) : Prop :=
  (r.1 = UEC_OK ∨ r.1 = uec UEC_SERVICE_INVALID_VALUE) ∧ grown configs r.2.

Lemma AddConfig_result configs d : parse_result configs (AddConfig configs d).
Proof. split; [by left|apply grown_snoc]. Qed.
Lemma AddInterface_result configs d : parse_result configs (AddInterface configs d).
Proof.
  unfold AddInterface. destruct configs; [by split; [right|]|]. split; [by left|apply grown_alter_back].
Qed.
Lemma AddEndpoint_result configs d : parse_result configs (AddEndpoint configs d).
Proof.
  unfold AddEndpoint. destruct (last configs) as [c|]; [|by split; [right|]].
  destruct (last _); [|by split; [right|]]. split; [by left|apply grown_alter_back].
Qed.
Hint Resolve AddConfig_result AddInterface_result AddEndpoint_result : usb.

Lemma ParseOne_total buffer cursor h configs :
  0 <= cursor → cursor + UsbdDescriptorHeader.bLength h <= Z.of_nat (length buffer) →
  ∃ r, ParseOne buffer cursor h configs = Some r ∧ parse_result configs r.
Proof.
  intros Hc Hl. unfold ParseOne.
  assert (parse_result configs (uec UEC_SERVICE_INVALID_VALUE, configs)) as Hbad by (by split; [right|]).
  assert (∀ A (load : list Z → option A) n add, 0 <= n <= UsbdDescriptorHeader.bLength h →
    (∀ b, length b = Z.to_nat n → is_Some (load b)) → (∀ d, parse_result configs (add d)) →
    ∃ r, add <$> read_at load n buffer cursor = Some r ∧ parse_result configs r) as Hread.
  { intros A load n add Hn Hload Hadd. destruct (read_at_inside load n buffer cursor) as [d ->]; [lia..|done|].
    by exists (add d). }
  unfold NORMAL_ENDPOINT_DESCRIPTOR, AUDIO_ENDPOINT_DESCRIPTOR.
  destruct (_ =? DESCRIPTOR_TYPE_CONFIG); [|destruct (_ =? DESCRIPTOR_TYPE_INTERFACE);
    [|destruct (_ =? DESCRIPTOR_TYPE_ENDPOINT); [|by eexists; split; [|split; [left|]]]]];
    match goal with |- context [if ?b then _ else _] => destruct b eqn:E; [by eauto|] end;
    rewrite ?andb_false_iff, !negb_false_iff, !Z.eqb_eq in E; apply Hread; auto with usb; cbv [UsbdConfigDescriptor.sizeof UsbdInterfaceDescriptor.sizeof UsbdEndpointDescriptor.sizeof] in *; lia.
Qed.

(** ** Termination *)

Lemma parse_loop_total fuel buffer length cursor configs :
  0 <= cursor → length <= Z.of_nat (List.length buffer) → length < 2 ^ 32 →
  (0 < fuel)%nat → length - cursor < Z.of_nat fuel →
  ∃ r, parse_loop fuel buffer length cursor configs = Done r ∧ parse_result configs r.
Proof.
  revert cursor configs. induction fuel as [|fuel IH]; intros cursor configs Hc Hl H32 H0f Hf; [lia|].
  cbn [parse_loop]. destruct (Z.leb_spec length cursor); [by eexists; split; [|split; [left|]]|].
  destruct (Z.ltb_spec (length - cursor) UsbdDescriptorHeader.sizeof) as [|H2]; [by eexists; split; [|split; [left|]]|].
  unfold UsbdDescriptorHeader.sizeof in *.
  destruct (read_at_inside UsbdDescriptorHeader.load 2 buffer cursor) as [h ->]; [lia..|apply load_header|].
  destruct (Z.ltb_spec (UsbdDescriptorHeader.bLength h) 2); cbn [orb]; [by eexists; split; [|split; [left|]]|].
  destruct (Z.ltb_spec (length - cursor) (UsbdDescriptorHeader.bLength h)); [by eexists; split; [|split; [left|]]|].
  destruct (ParseOne_total buffer cursor h configs) as ([ret cs] & -> & Hret & Hg); [lia..|]. cbn [fst snd] in *.
  destruct (Z.eqb_spec ret UEC_OK) as [->|]; cbn [negb]; [|by eexists].
  rewrite to_u32_id by (unfold in_u32; lia).
  destruct (IH (cursor + UsbdDescriptorHeader.bLength h) cs) as (r & -> & Hr & Hg'); [lia..|].
  exists r. split; [done|]. split; [done|]. by trans cs.
Qed.

(** C29: on any bytes and from any offset the parser of configuration
    descriptors terminates within the fuel it is given, never reads outside
    the buffer, returns either success or the invalid-value error, and leaves
    the configurations before the last one it was given as they were. *)
Theorem ParseConfigDescriptors_total descriptor offset configs :
  ∃ ret configs', ParseConfigDescriptors descriptor offset configs = Done (ret, configs') ∧
    (ret = UEC_OK ∨ ret = uec UEC_SERVICE_INVALID_VALUE) ∧ grown configs configs'.
Proof.
  pose proof (to_u32_range offset) as Ho. pose proof (to_u32_range (Z.of_nat (length descriptor))) as [Hl0 Hl].
  assert (to_u32 (Z.of_nat (length descriptor)) <= Z.of_nat (length descriptor)) by (apply Z.mod_le; lia).
  unfold in_u32 in *. unfold ParseConfigDescriptors.
  destruct (parse_loop_total (S (length descriptor)) descriptor (to_u32 (Z.of_nat (length descriptor)))
    (to_u32 offset) configs) as ([ret cs] & Hp & Hret & Hg); [lia..|]. by exists ret, cs.
Qed.

(** ** A fold over the descriptors *)

Definition apply_descriptor (configs : list USBConfig.t) (d : descriptor) : Z * list USBConfig.t :=
  match d with
  | DConfig d => AddConfig configs d
  | DInterface d => AddInterface configs d
  | DEndpoint d => AddEndpoint configs d
  | DMalformed => (uec UEC_SERVICE_INVALID_VALUE, configs)
  | DOther => (UEC_OK, configs)
  end.
(** Stop at the first error. *)
Fixpoint apply_all (configs : list USBConfig.t) (ds : list descriptor) : Z * list USBConfig.t :=
  match ds with
  | [] => (UEC_OK, configs)
  | d :: ds =>
      let '(ret, configs) := apply_descriptor configs d in
      if ret =? UEC_OK then apply_all configs ds else (ret, configs)
  end.

(** The length byte being right, a structure loads exactly when the length is its size. *)
Lemma ParseOne_exact {A} (load : list Z → option A) n pre c post (cons : A → descriptor) configs add :
  (∀ b, is_Some (load b) ↔ length b = Z.to_nat n) → 0 <= n → (∀ d, apply_descriptor configs (cons d) = add d) →
  (if negb (Z.of_nat (length c) =? n) then Some (uec UEC_SERVICE_INVALID_VALUE, configs)
   else add <$> read_at load n (pre ++ c ++ post) (Z.of_nat (length pre))) =
  Some (apply_descriptor configs (from_option cons DMalformed (load c))).
Proof.
  intros Hload Hn Hadd. destruct (Z.eqb_spec (Z.of_nat (length c)) n) as [E|E]; cbn [negb].
  - rewrite read_at_middle by lia. unfold read_at. rewrite bool_decide_true, drop_0, take_ge by lia.
    destruct (proj2 (Hload c)) as [d ->]; [lia|]. cbn. by rewrite Hadd.
  - destruct (load c) eqn:Hc; [|done]. assert (is_Some (load c)) as Hs by eauto. apply Hload in Hs. lia.
Qed.
Ltac load_iff := intros b; split; [|by auto with usb]; intros [? Hb];
  repeat (try discriminate Hb; (destruct b as [|? b]; [done || discriminate Hb|])).

Lemma ParseOne_chunk pre c post h configs :
  chunk_ok c → UsbdDescriptorHeader.load (take 2 c) = Some h →
  ParseOne (pre ++ c ++ post) (Z.of_nat (length pre)) h configs = Some (apply_descriptor configs (classify c)).
Proof.
  intros (ty & rest & Hc) Hh. rewrite Hc in Hh. cbn in Hh. injection Hh as <-. unfold ParseOne.
  cbn [UsbdDescriptorHeader.bLength UsbdDescriptorHeader.bDescriptorType].
  assert (classify c = classify (Z.of_nat (length c) :: ty :: rest)) as -> by by rewrite <- Hc.
  unfold classify. rewrite <- Hc.
  destruct (ty =? DESCRIPTOR_TYPE_CONFIG); [|destruct (ty =? DESCRIPTOR_TYPE_INTERFACE);
    [|destruct (ty =? DESCRIPTOR_TYPE_ENDPOINT); [|done]]].
  - apply (ParseOne_exact UsbdConfigDescriptor.load UsbdConfigDescriptor.sizeof pre c post DConfig); [load_iff|done|done].
  - apply (ParseOne_exact UsbdInterfaceDescriptor.load UsbdInterfaceDescriptor.sizeof pre c post DInterface); [load_iff|done|done].
  - unfold NORMAL_ENDPOINT_DESCRIPTOR, AUDIO_ENDPOINT_DESCRIPTOR. case_bool_decide as E.
    + assert (negb (Z.of_nat (length c) =? 7) && negb (Z.of_nat (length c) =? 9) = false) as ->
        by (rewrite andb_false_iff, !negb_false_iff, !Z.eqb_eq; lia).
      rewrite read_at_middle by (unfold UsbdEndpointDescriptor.sizeof; lia).
      unfold read_at. rewrite bool_decide_true by (unfold UsbdEndpointDescriptor.sizeof; lia).
      rewrite drop_0. change (Z.to_nat UsbdEndpointDescriptor.sizeof) with 7%nat.
      destruct (load_endpoint (take 7 c)) as [d ->]; [rewrite length_take; unfold UsbdEndpointDescriptor.sizeof; lia|done].
    + assert (negb (Z.of_nat (length c) =? 7) && negb (Z.of_nat (length c) =? 9) = true) as ->; [|done].
      rewrite andb_true_iff, !negb_true_iff, !Z.eqb_neq. lia.
Qed.

Lemma chunk_header c : chunk_ok c → ∃ h, UsbdDescriptorHeader.load (take 2 c) = Some h ∧
  UsbdDescriptorHeader.bLength h = Z.of_nat (length c) ∧ (2 <= length c)%nat.
Proof.
  intros (ty & rest & Hc). destruct c as [|a [|b c]]; [discriminate Hc..|]. cbn [length] in *.
  injection Hc as -> -> ->. eexists. split; [reflexivity|]. cbn [UsbdDescriptorHeader.bLength]. lia.
Qed.

Lemma parse_loop_stops fuel pre tail configs : stops tail →
  parse_loop (S fuel) (pre ++ tail) (Z.of_nat (length (pre ++ tail))) (Z.of_nat (length pre)) configs =
    Done (UEC_OK, configs).
Proof.
  intros Ht. cbn [parse_loop]. rewrite length_app. destruct (Z.leb_spec (Z.of_nat (length pre + length tail)) (Z.of_nat (length pre))); [done|].
  unfold UsbdDescriptorHeader.sizeof. destruct (Z.ltb_spec (Z.of_nat (length pre + length tail) - Z.of_nat (length pre)) 2); [done|].
  destruct tail as [|n [|ty tail]]; cbn [length] in *; [lia..|].
  rewrite <- (app_nil_r (n :: ty :: tail)), read_at_middle by (cbn [length]; lia).
  change (read_at _ 2 (n :: ty :: tail) 0) with (if bool_decide (0 <= 0 ∧ 0 + 2 <= Z.of_nat (S (S (length tail))))
    then Some {| UsbdDescriptorHeader.bLength := n; UsbdDescriptorHeader.bDescriptorType := ty |} else None).
  rewrite bool_decide_true by lia. cbn [UsbdDescriptorHeader.bLength].
  unfold stops in Ht. cbn [length] in Ht.
  destruct (Z.ltb_spec n 2); [done|]. cbn [orb].
  destruct (Z.ltb_spec (Z.of_nat (length pre + S (S (length tail))) - Z.of_nat (length pre)) n); [done|lia].
Qed.

Lemma parse_loop_chunks chunks tail : Forall chunk_ok chunks → stops tail →
  ∀ fuel pre configs, let buffer := pre ++ concat chunks ++ tail in
  in_u32 (Z.of_nat (length buffer)) → (length (concat chunks) < fuel)%nat →
  parse_loop fuel buffer (Z.of_nat (length buffer)) (Z.of_nat (length pre)) configs =
    Done (apply_all configs (map classify chunks)).
Proof.
  intros Hc Ht. induction Hc as [|c chunks Hc _ IH]; intros fuel pre configs buffer H32 Hf; subst buffer.
  - destruct fuel as [|fuel]; [cbn in Hf; lia|]. cbn [concat app]. by rewrite parse_loop_stops.
  - cbn [concat] in *. rewrite <- app_assoc in *. rewrite length_app in Hf.
    destruct (chunk_header c Hc) as (h & Hh & Hl & H2). destruct fuel as [|fuel]; [lia|]. cbn [parse_loop map apply_all].
    rewrite !length_app in *. unfold UsbdDescriptorHeader.sizeof.
    rewrite (proj2 (Z.leb_gt _ _)), (proj2 (Z.ltb_ge _ _)) by lia.
    rewrite read_at_middle by lia. unfold read_at at 1. rewrite bool_decide_true by lia. rewrite drop_0.
    change (Z.to_nat 2) with 2%nat. rewrite Hh, Hl.
    rewrite (proj2 (Z.ltb_ge (Z.of_nat (length c)) 2)), (proj2 (Z.ltb_ge _ (Z.of_nat (length c)))) by lia. cbn [orb].
    rewrite ParseOne_chunk by done. destruct (apply_descriptor configs (classify c)) as [ret configs'].
    destruct (ret =? UEC_OK); cbn [negb]; [|done].
    specialize (IH fuel (pre ++ c) configs'). cbv zeta in IH. rewrite <- !app_assoc, !length_app in IH.
    rewrite to_u32_id by (unfold in_u32 in *; lia). rewrite <- Nat2Z.inj_add. rewrite Nat.add_assoc in *.
    apply IH; [done|lia].
Qed.

Lemma parse_chunks pre chunks tail configs :
  Forall chunk_ok chunks → stops tail → in_u32 (Z.of_nat (length (pre ++ concat chunks ++ tail))) →
  ParseConfigDescriptors (pre ++ concat chunks ++ tail) (Z.of_nat (length pre)) configs =
    Done (apply_all configs (map classify chunks)).
Proof.
  intros Hc Ht H32. unfold ParseConfigDescriptors. rewrite (to_u32_id (Z.of_nat (length (pre ++ _)))) by done.
  rewrite to_u32_id by (rewrite !length_app in H32; unfold in_u32 in *; lia).
  apply parse_loop_chunks; [done..|]. rewrite !length_app. lia.
Qed.

(** ** The tree a device serialises *)

Definition endpoint_chunk (e : USBEndpoint.t) : list Z :=
  [7; DESCRIPTOR_TYPE_ENDPOINT; USBEndpoint.address_ e; USBEndpoint.attributes_ e;
   USBEndpoint.maxPacketSize_ e `mod` 256; USBEndpoint.maxPacketSize_ e / 256; USBEndpoint.interval_ e].
Definition interface_chunks (i : UsbInterface.t) : list (list Z) :=
  [9; DESCRIPTOR_TYPE_INTERFACE; UsbInterface.id_ i; UsbInterface.alternateSetting_ i;
   Z.of_nat (length (UsbInterface.endpoints_ i)); UsbInterface.klass_ i; UsbInterface.subClass_ i;
   UsbInterface.protocol_ i; UsbInterface.iInterface_ i] :: map endpoint_chunk (UsbInterface.endpoints_ i).
Definition config_chunks (c : USBConfig.t) : list (list Z) :=
  let children := concat (map interface_chunks (USBConfig.interfaces_ c)) in
  let total := 9 + Z.of_nat (length (concat children)) in
  [9; DESCRIPTOR_TYPE_CONFIG; total `mod` 256; total / 256; Z.of_nat (length (USBConfig.interfaces_ c));
   USBConfig.id_ c; USBConfig.iConfiguration_ c; USBConfig.attributes_ c; USBConfig.maxPower_ c] :: children.
Definition serialise (cs : list USBConfig.t) : list Z := concat (concat (map config_chunks cs)).

(** The names are filled in later, an endpoint names its interface. *)
Definition interface_ok (i : UsbInterface.t) : Prop :=
  0 <= UsbInterface.id_ i < 256 ∧ UsbInterface.name_ i = "" ∧ UsbInterface.authorized_ i = true ∧
  Forall (λ e, USBEndpoint.interfaceId_ e = UsbInterface.id_ i) (UsbInterface.endpoints_ i).
Definition config_ok (c : USBConfig.t) : Prop :=
  USBConfig.name_ c = "" ∧ Forall interface_ok (USBConfig.interfaces_ c).

Lemma chunks_ok cs : Forall chunk_ok (concat (map config_chunks cs)).
Proof.
  apply Forall_concat, Forall_fmap, Forall_true. intros c. apply Forall_cons. split; [by do 2 eexists|].
  apply Forall_concat, Forall_fmap, Forall_true. intros i. apply Forall_cons. split; [by do 2 eexists|].
  apply Forall_fmap, Forall_true. intros e. by do 2 eexists.
Qed.

Lemma apply_all_app configs configs' ds1 ds2 : apply_all configs ds1 = (UEC_OK, configs') →
  apply_all configs (ds1 ++ ds2) = apply_all configs' ds2.
Proof.
  revert configs. induction ds1 as [|d ds IH]; intros configs; cbn [apply_all app]; [by intros [= ->]|].
  destruct (apply_descriptor configs d) as [ret cs]. destruct (Z.eqb_spec ret UEC_OK); [apply IH|by intros [= ? _]].
Qed.

Lemma u16_le_split z : u16_le (z `mod` 256) (z / 256) = z.
Proof. unfold u16_le. pose proof (Z.div_mod z 256). lia. Qed.

Lemma to_u8_id_lt z : 0 <= z < 256 → to_u8 z = z.
Proof. by apply Z.mod_small. Qed.

Definition add_endpoints (es : list USBEndpoint.t) (i : UsbInterface.t) : UsbInterface.t :=
  UsbInterface.set_endpoints (UsbInterface.endpoints_ i ++ es) i.
Definition add_interfaces (infs : list UsbInterface.t) (c : USBConfig.t) : USBConfig.t :=
  USBConfig.set_interfaces (USBConfig.interfaces_ c ++ infs) c.

Lemma classify_endpoint e : classify (endpoint_chunk e) = DEndpoint {|
  UsbdEndpointDescriptor.bLength := 7; UsbdEndpointDescriptor.bDescriptorType := DESCRIPTOR_TYPE_ENDPOINT;
  UsbdEndpointDescriptor.bEndpointAddress := USBEndpoint.address_ e;
  UsbdEndpointDescriptor.bmAttributes := USBEndpoint.attributes_ e;
  UsbdEndpointDescriptor.wMaxPacketSize := USBEndpoint.maxPacketSize_ e;
  UsbdEndpointDescriptor.bInterval := USBEndpoint.interval_ e |}.
Proof. generalize (u16_le_split (USBEndpoint.maxPacketSize_ e)). intros E. cbn. do 2 f_equal. exact E. Qed.

Lemma add_endpoints_add i e es : add_endpoints es (add_endpoints [e] i) = add_endpoints (e :: es) i.
Proof. unfold add_endpoints. cbn. by rewrite <- app_assoc. Qed.
Lemma add_interfaces_add c i infs : add_interfaces infs (add_interfaces [i] c) = add_interfaces (i :: infs) c.
Proof. unfold add_interfaces. cbn. by rewrite <- app_assoc. Qed.

Lemma AddEndpoint_back cs c infs i d :
  AddEndpoint (cs ++ [add_interfaces (infs ++ [i]) c]) d = (UEC_OK, cs ++ [add_interfaces (infs ++ [add_endpoints [{|
    USBEndpoint.address_ := UsbdEndpointDescriptor.bEndpointAddress d;
    USBEndpoint.attributes_ := UsbdEndpointDescriptor.bmAttributes d;
    USBEndpoint.interval_ := UsbdEndpointDescriptor.bInterval d;
    USBEndpoint.maxPacketSize_ := UsbdEndpointDescriptor.wMaxPacketSize d;
    USBEndpoint.interfaceId_ := to_u8 (UsbInterface.id_ i) |}] i]) c]).
Proof.
  unfold AddEndpoint, add_interfaces. rewrite last_snoc. cbn [USBConfig.interfaces_ USBConfig.set_interfaces].
  rewrite app_assoc, last_snoc, alter_back_snoc. cbn [USBConfig.interfaces_ USBConfig.set_interfaces].
  rewrite alter_back_snoc, <- app_assoc. reflexivity.
Qed.

Lemma endpoints_back es cs c infs i :
  0 <= UsbInterface.id_ i < 256 → Forall (λ e, USBEndpoint.interfaceId_ e = UsbInterface.id_ i) es →
  apply_all (cs ++ [add_interfaces (infs ++ [i]) c]) (map classify (map endpoint_chunk es)) =
    (UEC_OK, cs ++ [add_interfaces (infs ++ [add_endpoints es i]) c]).
Proof.
  intros Hi Hes. revert i Hi Hes. induction es as [|e es IH]; intros i Hi Hes; cbn [map apply_all].
  - unfold add_endpoints. rewrite app_nil_r. by destruct i.
  - apply Forall_cons in Hes as [He Hes]. rewrite classify_endpoint. cbn [apply_descriptor]. rewrite AddEndpoint_back.
    rewrite Z.eqb_refl, IH by done. rewrite add_endpoints_add. cbn. rewrite (to_u8_id_lt _ Hi), <- He. by destruct e.
Qed.

Lemma interfaces_back is' cs c : Forall interface_ok is' →
  apply_all (cs ++ [c]) (map classify (concat (map interface_chunks is'))) = (UEC_OK, cs ++ [add_interfaces is' c]).
Proof.
  intros His. revert c. induction His as [|i is' (Hi & Hn & Ha & Hes) _ IH]; intros c; cbn [map concat apply_all].
  - unfold add_interfaces. rewrite app_nil_r. by destruct c.
  - rewrite map_app. rewrite <- add_interfaces_add, <- IH. apply apply_all_app.
    cbn [interface_chunks map apply_all]. 
    change (classify _) with (DInterface {| UsbdInterfaceDescriptor.bLength := 9;
      UsbdInterfaceDescriptor.bDescriptorType := DESCRIPTOR_TYPE_INTERFACE;
      UsbdInterfaceDescriptor.bInterfaceNumber := UsbInterface.id_ i;
      UsbdInterfaceDescriptor.bAlternateSetting := UsbInterface.alternateSetting_ i;
      UsbdInterfaceDescriptor.bNumEndpoints := Z.of_nat (length (UsbInterface.endpoints_ i));
      UsbdInterfaceDescriptor.bInterfaceClass := UsbInterface.klass_ i;
      UsbdInterfaceDescriptor.bInterfaceSubClass := UsbInterface.subClass_ i;
      UsbdInterfaceDescriptor.bInterfaceProtocol := UsbInterface.protocol_ i;
      UsbdInterfaceDescriptor.iInterface := UsbInterface.iInterface_ i |}) at 1.
    cbn [apply_descriptor]. unfold AddInterface. destruct (cs ++ [c]) as [|c0 l] eqn:E; [by destruct cs|].
    rewrite <- E, alter_back_snoc, Z.eqb_refl. cbn.
    destruct i as [id pr kl sc al nm es ii au]. cbn in Hi, Hn, Ha, Hes |- *. subst nm au.
    exact (endpoints_back es cs c [] (UsbInterface.Build_t id pr kl sc al "" [] ii true) Hi Hes).
Qed.

(** *** What a descriptor adds, read off the configurations *)

Definition config_of (d : UsbdConfigDescriptor.t) : USBConfig.t := {|
  USBConfig.id_ := UsbdConfigDescriptor.bConfigurationValue d; USBConfig.attributes_ := UsbdConfigDescriptor.bmAttributes d;
  USBConfig.interfaces_ := []; USBConfig.maxPower_ := UsbdConfigDescriptor.bMaxPower d; USBConfig.name_ := "";
  USBConfig.iConfiguration_ := UsbdConfigDescriptor.iConfiguration d |}.
Definition interface_of (d : UsbdInterfaceDescriptor.t) : UsbInterface.t := {|
  UsbInterface.id_ := UsbdInterfaceDescriptor.bInterfaceNumber d; UsbInterface.protocol_ := UsbdInterfaceDescriptor.bInterfaceProtocol d;
  UsbInterface.klass_ := UsbdInterfaceDescriptor.bInterfaceClass d; UsbInterface.subClass_ := UsbdInterfaceDescriptor.bInterfaceSubClass d;
  UsbInterface.alternateSetting_ := UsbdInterfaceDescriptor.bAlternateSetting d; UsbInterface.name_ := "";
  UsbInterface.endpoints_ := []; UsbInterface.iInterface_ := UsbdInterfaceDescriptor.iInterface d; UsbInterface.authorized_ := true |}.
Definition endpoint_of (i : UsbInterface.t) (d : UsbdEndpointDescriptor.t) : USBEndpoint.t := {|
  USBEndpoint.address_ := UsbdEndpointDescriptor.bEndpointAddress d; USBEndpoint.attributes_ := UsbdEndpointDescriptor.bmAttributes d;
  USBEndpoint.interval_ := UsbdEndpointDescriptor.bInterval d; USBEndpoint.maxPacketSize_ := UsbdEndpointDescriptor.wMaxPacketSize d;
  USBEndpoint.interfaceId_ := to_u8 (UsbInterface.id_ i) |}.
(** A configuration at the end; an interface in the last configuration; an endpoint in
    the last interface of the last configuration; nothing for other types. *)
Inductive adds : list USBConfig.t → descriptor → list USBConfig.t → Prop :=
  | adds_config cs d : adds cs (DConfig d) (cs ++ [config_of d])
  | adds_interface cs c d : adds (cs ++ [c]) (DInterface d) (cs ++ [add_interfaces [interface_of d] c])
  | adds_endpoint cs c infs i d : USBConfig.interfaces_ c = infs ++ [i] →
      adds (cs ++ [c]) (DEndpoint d) (cs ++ [USBConfig.set_interfaces (infs ++ [add_endpoints [endpoint_of i d] i]) c])
  | adds_other cs : adds cs DOther cs.
Inductive adds_all (cs : list USBConfig.t) : list descriptor → list USBConfig.t → Prop :=
  | adds_none : adds_all cs [] cs
  | adds_more d ds cs1 cs2 : adds cs d cs1 → adds_all cs1 ds cs2 → adds_all cs (d :: ds) cs2.

Lemma snoc_or_nil {A} (l : list A) : l = [] ∨ ∃ l' x, l = l' ++ [x].
Proof. destruct l using rev_ind; [by left|right; eauto]. Qed.
Lemma adds_nil d cs : adds [] d cs → match d with DInterface _ | DEndpoint _ => False | _ => True end.
Proof. intros Ha. remember [] as l eqn:E. by destruct Ha as [| [] | [] |]. Qed.
Lemma apply_descriptor_adds cs d :
  (∃ cs', adds cs d cs' ∧ apply_descriptor cs d = (UEC_OK, cs')) ∨
  ((∀ cs', ¬ adds cs d cs') ∧ apply_descriptor cs d = (uec UEC_SERVICE_INVALID_VALUE, cs)).
Proof.
  destruct d as [d|d|d| |]; cbn [apply_descriptor].
  - left. eexists. split; [apply adds_config|done].
  - destruct (snoc_or_nil cs) as [->|(cs' & c & ->)].
    + right. split; [|done]. by intros cs' Ha%adds_nil.
    + left. eexists. split; [apply adds_interface|]. unfold AddInterface.
      destruct (cs' ++ [c]) as [|c0 l] eqn:E; [by destruct cs'|]. by rewrite <- E, alter_back_snoc.
  - destruct (snoc_or_nil cs) as [->|(cs' & c & ->)].
    + right. split; [|done]. by intros cs' Ha%adds_nil.
    + unfold AddEndpoint. rewrite last_snoc. destruct (snoc_or_nil (USBConfig.interfaces_ c)) as [Hi|(infs & i & Hi)].
      * right. rewrite Hi. split; [|done]. intros cs2. inversion 1 as [| |? c' infs i ? Hc E|]. apply app_inj_tail in E as [_ ->].
        rewrite Hi in Hc. by destruct infs.
      * left. eexists. split; [by apply adds_endpoint|]. by rewrite Hi, last_snoc, alter_back_snoc, Hi, alter_back_snoc.
  - right. split; [|done]. intros cs'. inversion 1.
  - left. eexists. split; [apply adds_other|done].
Qed.
Lemma apply_all_adds ds cs :
  (∃ cs', adds_all cs ds cs' ∧ apply_all cs ds = (UEC_OK, cs')) ∨
  (∃ ds1 d ds2 cs', ds = ds1 ++ d :: ds2 ∧ adds_all cs ds1 cs' ∧ (∀ cs2, ¬ adds cs' d cs2) ∧
     apply_all cs ds = (uec UEC_SERVICE_INVALID_VALUE, cs')).
Proof.
  revert cs. induction ds as [|d ds IH]; intros cs; [left; eexists; by split; [apply adds_none|]|]. cbn [apply_all].
  destruct (apply_descriptor_adds cs d) as [(cs1 & Ha & ->)|[Hn ->]].
  - rewrite Z.eqb_refl. destruct (IH cs1) as [(cs2 & Hs & ->)|(ds1 & d' & ds2 & cs2 & -> & Hs & Hn & ->)].
    + left. exists cs2. split; [by eapply adds_more|done].
    + right. exists (d :: ds1), d', ds2, cs2. split; [done|]. split; [by eapply adds_more|done].
  - right. exists [], d, ds, cs. split; [done|]. split; [apply adds_none|]. split; [done|].
    destruct (Z.eqb_spec (uec UEC_SERVICE_INVALID_VALUE) UEC_OK) as [E|]; [by apply uec_not_OK in E|done].
Qed.

(** C38: read from the beginning of a descriptor, the parser adds what each descriptor of
    the buffer says, in order, to the configurations it is given: a configuration at the
    end, an interface in the last configuration, an endpoint in the last interface of the
    last configuration, with their fields, and nothing for other types.  It stops with the
    invalid-value error at the first descriptor that cannot be added (a configuration,
    interface or endpoint descriptor of a wrong length, an interface before any
    configuration, an endpoint before any interface) and keeps what was added before; it
    succeeds when there is none, and ignores what follows the last whole descriptor. *)
Theorem ParseConfigDescriptors_adds pre chunks tail configs :
  Forall chunk_ok chunks → stops tail → in_u32 (Z.of_nat (length (pre ++ concat chunks ++ tail))) →
  let result := ParseConfigDescriptors (pre ++ concat chunks ++ tail) (Z.of_nat (length pre)) configs in
  (∃ configs', adds_all configs (map classify chunks) configs' ∧ result = Done (UEC_OK, configs')) ∨
  (∃ chunks1 c chunks2 configs', chunks = chunks1 ++ c :: chunks2 ∧ adds_all configs (map classify chunks1) configs' ∧
     (∀ cs, ¬ adds configs' (classify c) cs) ∧ result = Done (uec UEC_SERVICE_INVALID_VALUE, configs')).
Proof.
  intros Hc Ht H32. cbv zeta. rewrite parse_chunks by done.
  destruct (apply_all_adds (map classify chunks) configs) as [(cs & Hs & ->)|(ds1 & d & ds2 & cs & E & Hs & Hn & ->)]; [left; eauto|right].
  apply fmap_app_inv in E as (chunks1 & rest & -> & E & ->). symmetry in E. apply fmap_cons_inv in E as (c & chunks2 & -> & -> & ->).
  by exists chunks1, c, chunks2, cs.
Qed.

Lemma configs_back cs0 cs : Forall config_ok cs →
  apply_all cs0 (map classify (concat (map config_chunks cs))) = (UEC_OK, cs0 ++ cs).
Proof.
  intros Hcs. revert cs0. induction Hcs as [|c cs [Hn His] _ IH]; intros cs0; [by rewrite app_nil_r|].
  cbn [map concat]. rewrite map_app. rewrite (apply_all_app _ (cs0 ++ [c])); [by rewrite IH, <- app_assoc|].
  unfold config_chunks. cbv zeta. cbn [map apply_all].
  set (children := concat (map interface_chunks (USBConfig.interfaces_ c))).
  set (total := 9 + Z.of_nat (length (concat children))).
  change (classify (_ :: _)) with (DConfig {| UsbdConfigDescriptor.bLength := 9;
    UsbdConfigDescriptor.bDescriptorType := DESCRIPTOR_TYPE_CONFIG;
    UsbdConfigDescriptor.wTotalLength := u16_le (total `mod` 256) (total / 256);
    UsbdConfigDescriptor.bNumInterfaces := Z.of_nat (length (USBConfig.interfaces_ c));
    UsbdConfigDescriptor.bConfigurationValue := USBConfig.id_ c;
    UsbdConfigDescriptor.iConfiguration := USBConfig.iConfiguration_ c;
    UsbdConfigDescriptor.bmAttributes := USBConfig.attributes_ c;
    UsbdConfigDescriptor.bMaxPower := USBConfig.maxPower_ c |}).
  cbn [apply_descriptor AddConfig]. rewrite Z.eqb_refl. subst children.
  destruct c as [id at' infs mp nm ic]. cbn in Hn, His |- *. subst nm.
  exact (interfaces_back infs cs0 (USBConfig.Build_t id at' [] mp "" ic) His).
Qed.

(** C31: the parser reads back a serialised tree: from the bytes of a list of
    configurations behind any prefix, such as the device descriptor, it
    appends exactly these configurations with their interfaces and endpoints,
    in order, to the ones it was given. *)
Theorem ParseConfigDescriptors_roundtrip pre cs0 cs :
  Forall config_ok cs → in_u32 (Z.of_nat (length (pre ++ serialise cs))) →
  ParseConfigDescriptors (pre ++ serialise cs) (Z.of_nat (length pre)) cs0 = Done (UEC_OK, cs0 ++ cs).
Proof.
  intros Hcs H32. unfold serialise in *. rewrite <- (app_nil_r (concat _)) in *.
  rewrite <- (configs_back cs0 cs Hcs). apply parse_chunks; [apply chunks_ok|done..].
Qed.

(** ** The device descriptor *)

Definition device_chunk (d : UsbDevice.t) : list Z :=
  [18; 1; UsbDevice.bcdUSB_ d `mod` 256; UsbDevice.bcdUSB_ d / 256; UsbDevice.baseClass_ d; UsbDevice.subClass_ d;
   UsbDevice.protocol_ d; UsbDevice.bMaxPacketSize0_ d; UsbDevice.vendorId_ d `mod` 256; UsbDevice.vendorId_ d / 256;
   UsbDevice.productId_ d `mod` 256; UsbDevice.productId_ d / 256; UsbDevice.bcdDevice_ d `mod` 256;
   UsbDevice.bcdDevice_ d / 256; UsbDevice.iManufacturer_ d; UsbDevice.iProduct_ d; UsbDevice.iSerialNumber_ d;
   UsbDevice.descConfigCount_ d].

(** The device descriptor of a device [d] is parsed into [d] apart from
    what the descriptor does not carry, which stays as it was; a buffer
    declared shorter than a descriptor or whose length byte is not 18 is
    refused with the device unchanged. *)
Theorem ParseDeviceDescriptor_spec buffer len dev : len <= Z.of_nat (length buffer) →
  (∀ d rest, buffer = device_chunk d ++ rest → 18 <= len → ∃ dev',
     ParseDeviceDescriptor (Some buffer) len dev = Done (UEC_OK, dev') ∧ device_chunk dev' = device_chunk d ∧
     UsbDevice.vendorId_ dev' = UsbDevice.vendorId_ d ∧ UsbDevice.productId_ dev' = UsbDevice.productId_ d ∧
     UsbDevice.bcdUSB_ dev' = UsbDevice.bcdUSB_ d ∧ UsbDevice.bcdDevice_ dev' = UsbDevice.bcdDevice_ d ∧
     UsbDevice.name_ dev' = UsbDevice.name_ dev ∧ UsbDevice.serial_ dev' = UsbDevice.serial_ dev ∧
     UsbDevice.busNum_ dev' = UsbDevice.busNum_ dev ∧ UsbDevice.devAddr_ dev' = UsbDevice.devAddr_ dev ∧
     UsbDevice.configs_ dev' = UsbDevice.configs_ dev) ∧
  (len < 18 ∨ head buffer ≠ Some 18 →
     ParseDeviceDescriptor (Some buffer) len dev = Done (uec UEC_SERVICE_INVALID_VALUE, dev)).
Proof.
  intros Hlen. unfold ParseDeviceDescriptor, UsbdDeviceDescriptor.sizeof. split.
  - intros d rest -> H18. rewrite (proj2 (Z.eqb_neq len 0)), (proj2 (Z.ltb_ge len 18)) by lia.
    pose proof (read_at_middle UsbdDeviceDescriptor.load 18 [] (device_chunk d) rest) as Hr.
    cbn [app length] in Hr. change (Z.of_nat 0) with 0 in Hr. rewrite Hr by (cbn; lia). eexists. split; [reflexivity|].
    unfold device_chunk. cbn. by rewrite !u16_le_split.
  - intros Hbad. destruct (Z.eqb_spec len 0); [done|]. destruct (Z.ltb_spec len 18); [done|].
    destruct Hbad as [|Hh]; [lia|].
    destruct (read_at_inside UsbdDeviceDescriptor.load 18 buffer 0) as [d Hd]; [lia..|apply load_device|].
    rewrite Hd. assert (UsbdDeviceDescriptor.bLength d ≠ 18) as Hne.
    { unfold read_at in Hd. rewrite bool_decide_true, drop_0 in Hd by lia. intros E. apply Hh.
      destruct buffer as [|b0 buffer]; [discriminate Hd|]. cbn [head]. f_equal. rewrite <- E. cbn in Hd.
      do 17 (destruct buffer as [|? buffer]; [discriminate Hd|]). cbn in Hd. by injection Hd as <-. }
    by rewrite (proj2 (Z.eqb_neq _ _) Hne).
Qed.
End Parsing.

(** ** A composite device *)

(** One configuration with two interfaces. *)
Definition composite : list USBConfig.t := [{|
  USBConfig.id_ := 1; USBConfig.attributes_ := 0xc0; USBConfig.maxPower_ := 50; USBConfig.name_ := "";
  USBConfig.iConfiguration_ := 4;
  USBConfig.interfaces_ := [
    {| UsbInterface.id_ := 0; UsbInterface.protocol_ := 80; UsbInterface.klass_ := 8; UsbInterface.subClass_ := 6;
       UsbInterface.alternateSetting_ := 0; UsbInterface.name_ := ""; UsbInterface.iInterface_ := 5;
       UsbInterface.authorized_ := true;
       UsbInterface.endpoints_ := [
         {| USBEndpoint.address_ := 0x81; USBEndpoint.attributes_ := 2; USBEndpoint.interval_ := 0;
            USBEndpoint.maxPacketSize_ := 512; USBEndpoint.interfaceId_ := 0 |};
         {| USBEndpoint.address_ := 0x02; USBEndpoint.attributes_ := 2; USBEndpoint.interval_ := 0;
            USBEndpoint.maxPacketSize_ := 512; USBEndpoint.interfaceId_ := 0 |}] |};
    {| UsbInterface.id_ := 1; UsbInterface.protocol_ := 1; UsbInterface.klass_ := 3; UsbInterface.subClass_ := 1;
       UsbInterface.alternateSetting_ := 0; UsbInterface.name_ := ""; UsbInterface.iInterface_ := 0;
       UsbInterface.authorized_ := true; UsbInterface.endpoints_ := [] |}] |}].
Definition composite_device : UsbDevice.t := {|
  UsbDevice.name_ := ""; UsbDevice.manufacturerName_ := ""; UsbDevice.productName_ := ""; UsbDevice.version_ := "";
  UsbDevice.serial_ := ""; UsbDevice.authorizeStatus_ := UsbDevice.ENABLED; UsbDevice.devAddr_ := 2;
  UsbDevice.busNum_ := 1; UsbDevice.descConfigCount_ := 1; UsbDevice.bMaxPacketSize0_ := 64;
  UsbDevice.bcdUSB_ := 0x210; UsbDevice.bcdDevice_ := 0x100; UsbDevice.iManufacturer_ := 1; UsbDevice.iProduct_ := 2;
  UsbDevice.iSerialNumber_ := 3; UsbDevice.vendorId_ := 0x12d1; UsbDevice.productId_ := 0x5000;
  UsbDevice.baseClass_ := 0; UsbDevice.subClass_ := 0; UsbDevice.protocol_ := 0; UsbDevice.configs_ := [] |}.

(** The bytes the kernel gives for it, with a class-specific descriptor and one stray byte. *)
Definition composite_bytes : list (list Z) := concat (map config_chunks composite) ++ [[9; 0x21; 0x11; 1; 0; 1; 0x22; 34; 0]].

#[local] Existing Instance demo_err_base.

Lemma composite_ok : Forall config_ok composite.
Proof. repeat (apply List.Forall_cons || apply List.Forall_nil || apply conj); done. Qed.

Example ParseConfigDescriptors_adds_witness :
  (Forall chunk_ok composite_bytes ∧ stops [9]) ∧
  adds_all [] (map classify composite_bytes) composite ∧
  ParseConfigDescriptors (device_chunk composite_device ++ concat composite_bytes ++ [9]) 18 [] = Done (UEC_OK, composite).
Proof.
  assert (Forall chunk_ok composite_bytes) as Hc.
  { apply Forall_app. split; [apply chunks_ok|]. apply List.Forall_cons; [by do 2 eexists|apply List.Forall_nil]. }
  split; [by split|].
  destruct (ParseConfigDescriptors_adds (device_chunk composite_device) composite_bytes [9] [] Hc I ltac:(by vm_compute))
    as [(cs & Hs & E)|(c1 & c & c2 & cs & _ & _ & _ & E)].
  - assert (cs = composite) as -> by (vm_compute in E; injection E as <-; reflexivity). by split.
  - exfalso. vm_compute in E. discriminate E.
Defined.
Example ParseConfigDescriptors_roundtrip_witness :
  Forall config_ok composite ∧
  ParseConfigDescriptors (device_chunk composite_device ++ serialise composite) 18 [] = Done (UEC_OK, composite).
Proof.
  split; [apply composite_ok|].
  exact (ParseConfigDescriptors_roundtrip (device_chunk composite_device) [] composite composite_ok ltac:(by vm_compute)).
Defined.
Example ParseDeviceDescriptor_spec_witness :
  18 <= Z.of_nat (length (device_chunk composite_device ++ serialise composite)) ∧
  ∃ dev', ParseDeviceDescriptor (Some (device_chunk composite_device ++ serialise composite)) 18 UsbDevice.default_ =
    Done (UEC_OK, dev') ∧ UsbDevice.vendorId_ dev' = 0x12d1.
Proof.
  split; [by vm_compute|].
  destruct (proj1 (ParseDeviceDescriptor_spec (device_chunk composite_device ++ serialise composite) 18 UsbDevice.default_
    ltac:(by vm_compute)) composite_device (serialise composite) eq_refl ltac:(done)) as (dev' & E & _ & Hv & _).
  by exists dev'.
Defined.
