(* ===== verification/SerialManager.v ===== *)
(** * The serial manager (services/native/src/serial_manager.cpp)

    Serial ports and the tokens that own them.  The serial service is the class
    [SerialInterface]; its port and attribute records are types of the HDI, of
    which only the fields the code reads are named. *)
From S2P Require Import Prelude UsbErrors Platform.

Definition ERR_CODE_IOEXCEPTION : Z := -1.
Definition ERR_CODE_DEVICENOTOPEN : Z := -6.
Definition ERR_CODE_TIMEOUT : Z := -7.
Definition ERR_CODE_ERROR_OVERFLOW : Z := -8.
Definition ERR_CODE_ERROR_DEVICE_BUSY : Z := -16.
Definition MAX_INPUT_STRING_NUMBER_SIZE : nat := 9.
Definition PARAM_COUNT_ONE : nat := 1.
Definition DUMP_PARAMS_NUM_2 : nat := 2.
Definition INT32_MAX : Z := 2147483647.

(** [SERIAL_OPEN], [SERIAL_CLOSE], [SERIAL_READ], [SERIAL_WRITE]. *)
Inductive SerialOperation := SERIAL_OPEN | SERIAL_CLOSE | SERIAL_READ | SERIAL_WRITE.
#[global] Instance SerialOperation_eq_dec : EqDecision SerialOperation.
Proof. solve_decision. Defined.

(** What [ReportSerialOperationSecurityInfo] reports. *)
Record SerialReport := { happenTime : Z; report_portId : Z; operationType : SerialOperation; report_uid : Z }.

(** The caller's identity, as the IPC layer gives it. *)
Record Caller := { CallingTokenID : Z; CallingUid : Z }.

(** The serial service with the clock beside it. *)
Class SerialInterface (D SerialPort SerialAttribute : Type) := {
  portId_of : SerialPort → Z;
  baudrate : SerialAttribute → Z;
  stopBits : SerialAttribute → Z;
  parity : SerialAttribute → Z;
  dataBits : SerialAttribute → Z;
  GetCurrentTime : state D Z;
  ser_SerialOpen : Z → state D Z;
  ser_SerialClose : Z → state D Z;
  ser_SerialRead : Z → list Z → Z → Z → state D (Z * list Z);
  ser_SerialWrite : Z → list Z → Z → Z → state D Z;
  ser_SerialGetAttribute : Z → SerialAttribute → state D (Z * SerialAttribute);
  ser_SerialSetAttribute : Z → SerialAttribute → state D Z;
  ser_SerialGetPortList : list SerialPort → state D (Z * list SerialPort);
}.

Record SerialManager (D SerialPort : Type) := {
  portTokenMap_ : gmap Z Z;
  serialPortMap_ : gmap Z SerialPort;
  serial_ : option D;
  portsHasBeenRead_ : gset Z;
  portsHasBeenWritten_ : gset Z;
  reports_ : list SerialReport;   (* newest first *)
}.
Arguments portTokenMap_ {D SerialPort} _.
Arguments serialPortMap_ {D SerialPort} _.
Arguments serial_ {D SerialPort} _.
Arguments portsHasBeenRead_ {D SerialPort} _.
Arguments portsHasBeenWritten_ {D SerialPort} _.
Arguments reports_ {D SerialPort} _.
Arguments Build_SerialManager {D SerialPort} _ _ _ _ _ _.

Section Manager.
Context {D SerialPort SerialAttribute : Type} `{!SerialInterface D SerialPort SerialAttribute, !ErrCodeBase}.
Abbreviation M := (state (SerialManager D SerialPort)).
Implicit Types m : SerialManager D SerialPort.

Definition set_tokens (x : gmap Z Z) m :=
  Build_SerialManager x (serialPortMap_ m) (serial_ m) (portsHasBeenRead_ m) (portsHasBeenWritten_ m) (reports_ m).
Definition set_port_map (x : gmap Z SerialPort) m :=
  Build_SerialManager (portTokenMap_ m) x (serial_ m) (portsHasBeenRead_ m) (portsHasBeenWritten_ m) (reports_ m).
Definition set_serial (x : option D) m :=
  Build_SerialManager (portTokenMap_ m) (serialPortMap_ m) x (portsHasBeenRead_ m) (portsHasBeenWritten_ m) (reports_ m).
Definition set_read (x : gset Z) m :=
  Build_SerialManager (portTokenMap_ m) (serialPortMap_ m) (serial_ m) x (portsHasBeenWritten_ m) (reports_ m).
Definition set_written (x : gset Z) m :=
  Build_SerialManager (portTokenMap_ m) (serialPortMap_ m) (serial_ m) (portsHasBeenRead_ m) x (reports_ m).
Definition set_reports (x : list SerialReport) m :=
  Build_SerialManager (portTokenMap_ m) (serialPortMap_ m) (serial_ m) (portsHasBeenRead_ m) (portsHasBeenWritten_ m) x.

(** A call on the service; [dflt] when the pointer is null, which the callers
    have excluded. *)
Definition on_serial {A} (dflt : A) (f : state D A) : M A := λ m,
  match serial_ m with
  | None => (dflt, m)
  | Some d => let '(a, d') := f d in (a, set_serial (Some d') m)
  end.

Definition ErrorCodeWrap (errorCode : Z) : Z :=
  if (errorCode =? ERR_CODE_IOEXCEPTION) || (errorCode =? ERR_CODE_ERROR_OVERFLOW) then uec UEC_SERIAL_IO_EXCEPTION
  else if errorCode =? ERR_CODE_DEVICENOTOPEN then uec UEC_SERIAL_DEVICENOTOPEN
  else if errorCode =? ERR_CODE_TIMEOUT then uec UEC_INTERFACE_TIMED_OUT
  else if errorCode =? ERR_CODE_ERROR_DEVICE_BUSY then uec UEC_SERIAL_PORT_REPEAT_OPEN
  else uec UEC_SERIAL_OTHER_ERROR.

Definition CheckTokenIdValidity (c : Caller) (portId : Z) : M bool :=
  m ← get;
  match portTokenMap_ m !! portId with
  | None => mret false
  | Some token => mret (CallingTokenID c =? token)
  end.

Definition CheckPortAndTokenId (c : Caller) (portId : Z) : M Z :=
  m ← get;
  match serial_ m with
  | None => mret (uec UEC_SERVICE_INVALID_VALUE)
  | Some _ =>
      ok ← CheckTokenIdValidity c portId;
      if negb ok then mret (uec UEC_SERIAL_PORT_NOT_OPEN) else mret UEC_OK
  end.

Definition ReportSerialOperationSecurityInfo (c : Caller) (portId : Z) (op : SerialOperation) (time : Z) : M () :=
  modify (λ m, set_reports ({| happenTime := time; report_portId := portId; operationType := op;
    report_uid := CallingUid c |} :: reports_ m) m).

(** [true] when the port was not in the set before. *)
Definition QueryAndRecordFirstRead (portId : Z) : M bool :=
  m ← get;
  modify (λ m, set_read ({[portId]} ∪ portsHasBeenRead_ m) m);; mret (bool_decide (portId ∉ portsHasBeenRead_ m)).
Definition QueryAndRecordFirstWrite (portId : Z) : M bool :=
  m ← get;
  modify (λ m, set_written ({[portId]} ∪ portsHasBeenWritten_ m) m);; mret (bool_decide (portId ∉ portsHasBeenWritten_ m)).
Definition ResetFirstRead (portId : Z) : M () := modify (λ m, set_read (portsHasBeenRead_ m ∖ {[portId]}) m).
Definition ResetFirstWrite (portId : Z) : M () := modify (λ m, set_written (portsHasBeenWritten_ m ∖ {[portId]}) m).

Definition SerialOpen (c : Caller) (portId : Z) : M Z :=
  m ← get;
  match serial_ m with
  | None => mret (uec UEC_SERVICE_INVALID_VALUE)
  | Some _ =>
      match portTokenMap_ m !! portId with
      | Some _ => mret (uec UEC_SERIAL_PORT_REPEAT_OPEN)
      | None =>
          timeMs ← on_serial 0 GetCurrentTime;
          ret ← on_serial ERR_CODE_IOEXCEPTION (ser_SerialOpen portId);
          if negb (ret =? UEC_OK) then mret (ErrorCodeWrap ret) else
          ReportSerialOperationSecurityInfo c portId SERIAL_OPEN timeMs;;
          modify (λ m, set_tokens (<[portId := CallingTokenID c]> (portTokenMap_ m)) m);;
          mret ret
      end
  end.

Definition SerialClose (c : Caller) (portId : Z) : M Z :=
  ret ← CheckPortAndTokenId c portId;
  if negb (ret =? UEC_OK) then mret ret else
  timeMs ← on_serial 0 GetCurrentTime;
  ret ← on_serial ERR_CODE_IOEXCEPTION (ser_SerialClose portId);
  if negb (ret =? UEC_OK) then mret (ErrorCodeWrap ret) else
  ReportSerialOperationSecurityInfo c portId SERIAL_CLOSE timeMs;;
  ResetFirstRead portId;;
  ResetFirstWrite portId;;
  modify (λ m, set_tokens (delete portId (portTokenMap_ m)) m);;
  mret ret.

(** The code, the buffer and [actualSize]. *)
Definition SerialRead (c : Caller) (portId : Z) (data : list Z) (size actualSize timeout : Z) : M (Z * list Z * Z) :=
  ret ← CheckPortAndTokenId c portId;
  if negb (ret =? UEC_OK) then mret (ret, data, actualSize) else
  timeMs ← on_serial 0 GetCurrentTime;
  '(ret, data) ← on_serial (ERR_CODE_IOEXCEPTION, data) (ser_SerialRead portId data size timeout);
  if ret <? UEC_OK then mret (ErrorCodeWrap ret, data, actualSize) else
  first ← QueryAndRecordFirstRead portId;
  (if (first : bool) then ReportSerialOperationSecurityInfo c portId SERIAL_READ timeMs else mret ());;
  mret (UEC_OK, data, to_u32 ret).

Definition SerialWrite (c : Caller) (portId : Z) (data : list Z) (size actualSize timeout : Z) : M (Z * Z) :=
  if Z.of_nat (length data) <? size then mret (uec UEC_SERVICE_INVALID_VALUE, actualSize) else
  ret ← CheckPortAndTokenId c portId;
  if negb (ret =? UEC_OK) then mret (ret, actualSize) else
  timeMs ← on_serial 0 GetCurrentTime;
  ret ← on_serial ERR_CODE_IOEXCEPTION (ser_SerialWrite portId data size timeout);
  if ret <? UEC_OK then mret (ErrorCodeWrap ret, actualSize) else
  first ← QueryAndRecordFirstWrite portId;
  (if (first : bool) then ReportSerialOperationSecurityInfo c portId SERIAL_WRITE timeMs else mret ());;
  mret (UEC_OK, to_u32 ret).

Definition SerialGetAttribute (c : Caller) (portId : Z) (attribute : SerialAttribute) : M (Z * SerialAttribute) :=
  ret ← CheckPortAndTokenId c portId;
  if negb (ret =? UEC_OK) then mret (ret, attribute) else
  '(ret, attribute) ← on_serial (ERR_CODE_IOEXCEPTION, attribute) (ser_SerialGetAttribute portId attribute);
  if negb (ret =? UEC_OK) then mret (ErrorCodeWrap ret, attribute) else mret (ret, attribute).

Definition SerialSetAttribute (c : Caller) (portId : Z) (attribute : SerialAttribute) : M Z :=
  ret ← CheckPortAndTokenId c portId;
  if negb (ret =? UEC_OK) then mret ret else
  ret ← on_serial ERR_CODE_IOEXCEPTION (ser_SerialSetAttribute portId attribute);
  if negb (ret =? UEC_OK) then mret (ErrorCodeWrap ret) else mret ret.

Definition UpdateSerialPortMap (serialPortList : list SerialPort) : M () :=
  for_each (λ p, modify (λ m, set_port_map (<[portId_of p := p]> (serialPortMap_ m)) m)) serialPortList.

Definition SerialGetPortList (serialPortList : list SerialPort) : M (Z * list SerialPort) :=
  m ← get;
  match serial_ m with
  | None => mret (uec UEC_SERVICE_INVALID_VALUE, serialPortList)
  | Some _ =>
      '(ret, serialPortList) ← on_serial (ERR_CODE_IOEXCEPTION, serialPortList) (ser_SerialGetPortList serialPortList);
      if negb (ret =? UEC_OK) then mret (ret, serialPortList) else
      UpdateSerialPortMap serialPortList;; mret (ret, serialPortList)
  end.

Definition IsPortIdExist (portId : Z) : M bool := gets (λ m, bool_decide (is_Some (serialPortMap_ m !! portId))).
Definition GetSerialPort (portId : Z) : M (option SerialPort) := gets (λ m, serialPortMap_ m !! portId).

Definition FreeTokenId (portId tokenId : Z) : M () :=
  m ← get;
  match portTokenMap_ m !! portId with
  | None => mret ()
  | Some token =>
      if negb (token =? tokenId) then mret () else
      _ ← on_serial UEC_OK (ser_SerialClose portId);
      modify (λ m, set_tokens (delete portId (portTokenMap_ m)) m)
  end.

(** *** The dump command: the texts printed, in order *)

Definition quote : string := String "034"%char "".
Definition ListGetDumpHelp : list string :=
  ["=========== dump the serial port information ===========";
   "serail -l: Query All Serial Port List"; "serial -h: Serial port help";
   "serial -g : Gets the properties of all ports";
   "serial " +:+ quote +:+ "-g [port number]" +:+ quote +:+ ": Gets the properties of the specified port";
   "------------------------------------------------"].

Definition SerialPortListDump (args : list string) : M (list string) :=
  match args with
  | [a] =>
      if bool_decide (a = "-l") then
        '(_, l) ← SerialGetPortList [];
        mret ("=========== dump the serial port list ===========" ::
              imap (λ i _, "ttyUSB" +:+ pretty (Z.of_nat i)) l ++
              ["------------------------------------------------"])
      else mret (("port param error: invalid command '" +:+ a +:+ "'") :: ListGetDumpHelp)
  | _ => mret ("port param error: exactly 1 parameters are required" :: ListGetDumpHelp)
  end.

Definition attribute_line (i : Z) (a : SerialAttribute) : string :=
  "Port " +:+ pretty i +:+ ": baudrate: " +:+ pretty (baudrate a) +:+ " stopBits:" +:+ pretty (stopBits a) +:+
  " parity:" +:+ pretty (parity a) +:+ " dataBits:" +:+ pretty (dataBits a).

(** For the second argument [arg] of a command with two. *)
Definition CheckDataAndProcessPortId (c : Caller) (arg : string) (attribute : SerialAttribute) : M (bool * list string) :=
  if negb (match_digits arg) then mret (false, ["Invalid input, please enter a valid integer"]) else
  if Nat.ltb MAX_INPUT_STRING_NUMBER_SIZE (String.length arg)
  then mret (false, ["Invalid input, value out of range"]) else
  let portId := dec_value arg in
  '(ret, attribute) ← SerialGetAttribute c portId attribute;
  if negb (ret =? UEC_OK) then
    ret ← SerialOpen c portId;
    if negb (ret =? UEC_OK) then mret (false, ["Port " +:+ pretty portId +:+ ": port does not exist"]) else
    '(ret, attribute) ← SerialGetAttribute c portId attribute;
    _ ← SerialClose c portId;
    mret (true, [attribute_line portId attribute])
  else mret (true, [attribute_line portId attribute]).

(** The loop over the ports; the attributes of one round are the buffer of the next. *)
Fixpoint attribute_lines (c : Caller) (i : Z) (l : list SerialPort) (attribute : SerialAttribute) : M (list string) :=
  match l with
  | [] => mret []
  | p :: l =>
      if INT32_MAX <? i then mret [] else
      let portId := to_i32 (portId_of p) in
      '(ret, attribute) ← SerialGetAttribute c portId attribute;
      attribute ← (if negb (ret =? UEC_OK) then
                     _ ← SerialOpen c portId;
                     '(_, attribute) ← SerialGetAttribute c portId attribute;
                     _ ← SerialClose c portId;
                     mret attribute
                   else mret attribute);
      lines ← attribute_lines c (i + 1) l attribute;
      mret (attribute_line i attribute :: lines)
  end.

(** [attribute] is the uninitialised local. *)
Definition SerialGetAttributeDump (c : Caller) (args : list string) (attribute : SerialAttribute) : M (list string) :=
  match args with
  | [_] =>
      '(ret, l) ← SerialGetPortList [];
      if negb (ret =? UEC_OK) then mret [] else attribute_lines c 0 l attribute
  | [_; arg] => '(_, lines) ← CheckDataAndProcessPortId c arg attribute; mret lines
  | _ => mret ListGetDumpHelp
  end.
End Manager.
