(* ===== verification/SerialTheorems.v ===== *)
(** * The serial manager: its properties

    A port belongs to the token that opened it, and the audit reports the first
    read and write of a session once. *)
From S2P Require Import Prelude UsbErrors Platform SerialManager.

Create HintDb keep discriminated.

Section Properties.
Context {D SerialPort SerialAttribute : Type} `{!SerialInterface D SerialPort SerialAttribute, !ErrCodeBase}.
Abbreviation SM := (SerialManager D SerialPort).
Abbreviation M := (state SM).
Implicit Types m : SM.

(** ** Only the owner *)

Definition refusal m : Z := match serial_ m with None => uec UEC_SERVICE_INVALID_VALUE | Some _ => uec UEC_SERIAL_PORT_NOT_OPEN end.

Lemma check_refused c p m : portTokenMap_ m !! p ≠ Some (CallingTokenID c) →
  CheckPortAndTokenId c p m = (refusal m, m) ∧ (refusal m =? UEC_OK) = false.
Proof.
  intros Hp. unfold refusal, CheckPortAndTokenId, CheckTokenIdValidity.
  split; [|destruct (serial_ m); apply Z.eqb_neq, uec_not_OK].
  run_unfold. destruct (serial_ m); [|done]. destruct (portTokenMap_ m !! p) as [t|]; [|done].
  destruct (Z.eqb_spec (CallingTokenID c) t); [congruence|done].
Qed.

(** a caller that does not own a port gets nothing from it: closing, reading,
    writing and the attributes are refused with the not-open code (the invalid
    code without a service), the buffers and sizes are returned as they were, no
    call reaches the service and the state is unchanged. *)
Theorem serial_owner_only c p m : portTokenMap_ m !! p ≠ Some (CallingTokenID c) →
  SerialClose c p m = (refusal m, m) ∧
  (∀ data size actual timeout, SerialRead c p data size actual timeout m = ((refusal m, data, actual), m)) ∧
  (∀ data size actual timeout, size <= Z.of_nat (length data) →
     SerialWrite c p data size actual timeout m = ((refusal m, actual), m)) ∧
  (∀ a : SerialAttribute, SerialGetAttribute c p a m = ((refusal m, a), m)) ∧
  (∀ a : SerialAttribute, SerialSetAttribute c p a m = (refusal m, m)).
Proof.
  intros Hp. destruct (check_refused c p m Hp) as [Hc Hr].
  unfold SerialClose, SerialRead, SerialWrite, SerialGetAttribute, SerialSetAttribute.
  repeat split; intros; rewrite ?(proj2 (Z.ltb_ge _ _)) by done; by rewrite bind_run, Hc; cbn [fst snd]; rewrite Hr.
Qed.

(** ** Ownership is stable *)

(** One request by caller [c]; [FreeTokenId] comes from a death recipient. *)
Inductive serial_step (c : Caller) : SM → SM → Prop :=
  | step_open p m : serial_step c m (SerialOpen c p m).2
  | step_close p m : serial_step c m (SerialClose c p m).2
  | step_read p data size actual timeout m : serial_step c m (SerialRead c p data size actual timeout m).2
  | step_write p data size actual timeout m : serial_step c m (SerialWrite c p data size actual timeout m).2
  | step_get p (a : SerialAttribute) m : serial_step c m (SerialGetAttribute c p a m).2
  | step_set p (a : SerialAttribute) m : serial_step c m (SerialSetAttribute c p a m).2
  | step_list l m : serial_step c m (SerialGetPortList l m).2
  | step_dump_list args m : serial_step c m (SerialPortListDump args m).2
  | step_dump_attributes args (a : SerialAttribute) m : serial_step c m (SerialGetAttributeDump c args a m).2.

(** A property of the state that each request keeps. *)
Class Kept (c : Caller) (I : SM → Prop) := {
  kept_device o m : I m → I (set_serial o m);
  kept_map x m : I m → I (set_port_map x m);
  kept_open p t m : I m → portTokenMap_ m !! p = None →
    I (set_tokens (<[p := CallingTokenID c]> (portTokenMap_ m)) (set_reports ({| happenTime := t; report_portId := p;
      operationType := SERIAL_OPEN; report_uid := CallingUid c |} :: reports_ m) m));
  kept_close p t m : I m → portTokenMap_ m !! p = Some (CallingTokenID c) →
    I (set_tokens (delete p (portTokenMap_ m)) (set_written (portsHasBeenWritten_ m ∖ {[p]})
      (set_read (portsHasBeenRead_ m ∖ {[p]}) (set_reports ({| happenTime := t; report_portId := p;
        operationType := SERIAL_CLOSE; report_uid := CallingUid c |} :: reports_ m) m))));
  kept_read p t m : I m → portTokenMap_ m !! p = Some (CallingTokenID c) →
    I (if bool_decide (p ∉ portsHasBeenRead_ m)
       then set_reports ({| happenTime := t; report_portId := p; operationType := SERIAL_READ;
              report_uid := CallingUid c |} :: reports_ m) (set_read ({[p]} ∪ portsHasBeenRead_ m) m)
       else set_read ({[p]} ∪ portsHasBeenRead_ m) m);
  kept_write p t m : I m → portTokenMap_ m !! p = Some (CallingTokenID c) →
    I (if bool_decide (p ∉ portsHasBeenWritten_ m)
       then set_reports ({| happenTime := t; report_portId := p; operationType := SERIAL_WRITE;
              report_uid := CallingUid c |} :: reports_ m) (set_written ({[p]} ∪ portsHasBeenWritten_ m) m)
       else set_written ({[p]} ∪ portsHasBeenWritten_ m) m);
}.

Section Steps.
Context (c : Caller) (I : SM → Prop) `{!Kept c I}.

(** A call on the service changes the service only. *)
Lemma on_serial_run {A} (dflt : A) (f : state D A) m : ∃ a o, on_serial dflt f m = (a, set_serial o m).
Proof.
  unfold on_serial. destruct (serial_ m) as [d|] eqn:E.
  - destruct (f d) as [a d']. by exists a, (Some d').
  - exists dflt, None. f_equal. destruct m. cbn in *. by subst.
Qed.
Lemma check_run p m : ∃ r, CheckPortAndTokenId c p m = (r, m) ∧
  ((r =? UEC_OK) = true → portTokenMap_ m !! p = Some (CallingTokenID c)).
Proof.
  destruct (decide (portTokenMap_ m !! p = Some (CallingTokenID c))) as [Hp|Hp].
  - unfold CheckPortAndTokenId, CheckTokenIdValidity. run_unfold. destruct (serial_ m); [|by eexists].
    rewrite Hp, Z.eqb_refl. by eexists.
  - destruct (check_refused c p m Hp) as [-> Hr]. exists (refusal m). split; [done|congruence].
Qed.

(** Run the next call of a request. *)
Ltac call := rewrite bind_run;
  match goal with
  | |- context [CheckPortAndTokenId ?c ?p ?m] =>
      let r := fresh "r" in let Hr := fresh "Hr" in destruct (check_run p m) as (r & -> & Hr); cbn [fst snd];
      destruct (r =? UEC_OK); cbn [negb]; [specialize (Hr eq_refl)|clear Hr]
  | |- context [on_serial ?x ?f ?m] => let a := fresh "a" in let o := fresh "o" in
      destruct (on_serial_run x f m) as (a & o & ->); cbn [fst snd]
  end.

Lemma keep_open p m : I m → I (SerialOpen c p m).2.
Proof.
  intros Hm. unfold SerialOpen. rewrite bind_run. cbn [get fst snd].
  destruct (serial_ m); [|done]. destruct (portTokenMap_ m !! p) as [t|] eqn:E; [done|]. call. call.
  destruct (a0 =? UEC_OK); cbn [negb]; [|by do 2 apply kept_device].
  exact (kept_open p a (set_serial o0 (set_serial o m)) (kept_device _ _ (kept_device _ _ Hm)) E).
Qed.
Lemma keep_close p m : I m → I (SerialClose c p m).2.
Proof.
  intros Hm. unfold SerialClose. call; [|done]. call. call.
  destruct (a0 =? UEC_OK); cbn [negb]; [|by do 2 apply kept_device].
  exact (kept_close p a (set_serial o0 (set_serial o m)) (kept_device _ _ (kept_device _ _ Hm)) Hr).
Qed.
Lemma keep_read p data size actual timeout m : I m → I (SerialRead c p data size actual timeout m).2.
Proof.
  intros Hm. unfold SerialRead. call; [|done]. call. call. destruct a0 as [ret d].
  destruct (ret <? UEC_OK); [by do 2 apply kept_device|].
  pose proof (kept_read p a (set_serial o0 (set_serial o m)) (kept_device _ _ (kept_device _ _ Hm)) Hr) as Hk.
  unfold QueryAndRecordFirstRead, ReportSerialOperationSecurityInfo. run_unfold.
  by destruct (bool_decide _).
Qed.
Lemma keep_write p data size actual timeout m : I m → I (SerialWrite c p data size actual timeout m).2.
Proof.
  intros Hm. unfold SerialWrite. destruct (_ <? size); [done|]. call; [|done]. call. call.
  destruct (a0 <? UEC_OK); [by do 2 apply kept_device|].
  pose proof (kept_write p a (set_serial o0 (set_serial o m)) (kept_device _ _ (kept_device _ _ Hm)) Hr) as Hk.
  unfold QueryAndRecordFirstWrite, ReportSerialOperationSecurityInfo. run_unfold.
  by destruct (bool_decide _).
Qed.
Lemma keep_get p (a : SerialAttribute) m : I m → I (SerialGetAttribute c p a m).2.
Proof.
  intros Hm. unfold SerialGetAttribute. call; [|done]. call. destruct a0 as [ret b].
  destruct (ret =? UEC_OK); cbn [negb]; by apply kept_device.
Qed.
Lemma keep_set p (a : SerialAttribute) m : I m → I (SerialSetAttribute c p a m).2.
Proof.
  intros Hm. unfold SerialSetAttribute. call; [|done]. call. destruct (_ =? UEC_OK); cbn [negb]; by apply kept_device.
Qed.
Lemma keep_list l m : I m → I (SerialGetPortList l m).2.
Proof.
  intros Hm. unfold SerialGetPortList. rewrite bind_run. cbn [get fst snd]. destruct (serial_ m); [|done]. call.
  destruct a as [ret l']. destruct (ret =? UEC_OK); cbn [negb]; [|by apply kept_device]. rewrite bind_run.
  refine (triple_for_each I _ l' _ (set_serial o m) _); [|by apply kept_device].
  intros x _ m' Hm'. by apply kept_map.
Qed.

(** Sequences of requests that keep the property keep it. *)
Lemma keep_bind {A B} (f : M A) (g : A → M B) :
  (∀ m, I m → I (f m).2) → (∀ a m, I m → I (g a m).2) → ∀ m, I m → I ((f ≫= g) m).2.
Proof. intros Hf Hg m Hm. rewrite bind_run. by apply Hg, Hf. Qed.
Hint Resolve keep_open keep_close keep_read keep_write keep_get keep_set keep_list : keep.

Lemma keep_process p (a : SerialAttribute) m : I m → I (CheckDataAndProcessPortId c p a m).2.
Proof.
  revert m. unfold CheckDataAndProcessPortId. destruct (match_digits p); cbn [negb]; [|done].
  destruct (Nat.ltb _ _); [done|]. apply keep_bind; [eauto with keep|]. intros [ret b].
  destruct (ret =? UEC_OK); cbn [negb]; [done|]. apply keep_bind; [eauto with keep|]. intros ret'.
  destruct (ret' =? UEC_OK); cbn [negb]; [|done]. apply keep_bind; [eauto with keep|]. intros [r3 b3].
  apply keep_bind; [eauto with keep|done].
Qed.
Lemma keep_lines l : ∀ i (a : SerialAttribute) m, I m → I (attribute_lines c i l a m).2.
Proof.
  induction l as [|p l IH]; intros i a; cbn [attribute_lines]; [done|]. destruct (INT32_MAX <? i); [done|].
  apply keep_bind; [eauto with keep|]. intros [ret b]. apply keep_bind.
  - destruct (ret =? UEC_OK); cbn [negb]; [done|]. apply keep_bind; [eauto with keep|]. intros _.
    apply keep_bind; [eauto with keep|]. intros [r3 b3]. apply keep_bind; [eauto with keep|done].
  - intros b'. apply keep_bind; [apply IH|done].
Qed.

Lemma keep_step m m' : I m → serial_step c m m' → I m'.
Proof.
  intros Hm Hs. destruct Hs as [| | | | | | |args m|args a m]; eauto with keep; revert m Hm.
  - unfold SerialPortListDump. destruct args as [|s [|]]; [done| |done]. destruct (bool_decide _); [|done].
    apply keep_bind; [eauto with keep|]. by intros [].
  - unfold SerialGetAttributeDump. destruct args as [|s [|arg [|]]]; [done| | |done].
    + apply keep_bind; [eauto with keep|]. intros [ret l]. destruct (ret =? UEC_OK); cbn [negb]; [apply keep_lines|done].
    + apply keep_bind; [apply keep_process|]. by intros [].
Qed.
End Steps.

(** ** The owner keeps the port *)

#[local] Instance owner_kept c p t : t ≠ CallingTokenID c → Kept c (λ m, portTokenMap_ m !! p = Some t).
Proof.
  intros Hne. split; [done|done| | |by intros q ? m; destruct (bool_decide _)|by intros q ? m; destruct (bool_decide _)].
  - intros q ? m Hm Hq. cbn. rewrite lookup_insert_ne; [done|congruence].
  - intros q ? m Hm Hq. cbn. rewrite lookup_delete_ne; [done|congruence].
Qed.

(** What others can do: requests by any other caller, and the death of any other
    client. *)
Inductive others_step (p t : Z) : SM → SM → Prop :=
  | other_request c m m' : CallingTokenID c ≠ t → serial_step c m m' → others_step p t m m'
  | other_death q u m : (q, u) ≠ (p, t) → others_step p t m (FreeTokenId q u m).2.

(** A port stays with its owner: through any sequence of requests by other
    callers, failed and successful ones, the dump commands included, and through
    the deaths of other clients, the owner of a port remains its owner. *)
Theorem serial_ownership_stable p t m m' : portTokenMap_ m !! p = Some t →
  rtc (others_step p t) m m' → portTokenMap_ m' !! p = Some t.
Proof.
  intros Hm Hs. induction Hs as [|m m1 m2 Hs _ IH]; [done|]. apply IH. clear IH m2.
  destruct Hs as [c m m1 Hc Hs|q u m Hq].
  - exact (keep_step c _ (Kept0 := owner_kept c p t (not_eq_sym Hc)) m m1 Hm Hs).
  - unfold FreeTokenId. rewrite bind_run. cbn [get fst snd]. destruct (portTokenMap_ m !! q) as [u'|] eqn:E; [|done].
    destruct (Z.eqb_spec u' u) as [->|]; cbn [negb]; [|done]. rewrite bind_run.
    destruct (on_serial_run UEC_OK (ser_SerialClose q) m) as (a & o & ->). cbn.
    rewrite lookup_delete_ne; [done|congruence].
Qed.

(** ** The audit reports *)

(** Whether operation [op] on port [p] was reported since [p] was last closed. *)
Fixpoint reported (op : SerialOperation) (p : Z) (t : list SerialReport) : bool :=
  match t with
  | [] => false
  | r :: t =>
      if bool_decide (report_portId r = p)
      then if bool_decide (operationType r = op) then true
           else if bool_decide (operationType r = SERIAL_CLOSE) then false else reported op p t
      else reported op p t
  end.
(** No report of [op] follows another on the same port without a close between. *)
Fixpoint once (op : SerialOperation) (t : list SerialReport) : Prop :=
  match t with
  | [] => True
  | r :: t => (operationType r = op → reported op (report_portId r) t = false) ∧ once op t
  end.
Definition audit m : Prop :=
  once SERIAL_READ (reports_ m) ∧ once SERIAL_WRITE (reports_ m) ∧
  ∀ p, (p ∈ portsHasBeenRead_ m ↔ reported SERIAL_READ p (reports_ m) = true) ∧
       (p ∈ portsHasBeenWritten_ m ↔ reported SERIAL_WRITE p (reports_ m) = true).

Lemma reported_cons op p r t : operationType r ≠ SERIAL_CLOSE →
  reported op p (r :: t) = (bool_decide (report_portId r = p) && bool_decide (operationType r = op)) || reported op p t.
Proof.
  intros Hr. cbn [reported]. rewrite (bool_decide_false (operationType r = SERIAL_CLOSE)) by done.
  repeat case_bool_decide; done.
Qed.
Lemma reported_close op p r t : operationType r = SERIAL_CLOSE → op ≠ SERIAL_CLOSE →
  reported op p (r :: t) = negb (bool_decide (report_portId r = p)) && reported op p t.
Proof.
  intros Hr Hop. cbn [reported]. rewrite Hr, (bool_decide_true (SERIAL_CLOSE = SERIAL_CLOSE)), (bool_decide_false (SERIAL_CLOSE = op)) by done.
  by case_bool_decide.
Qed.

#[local] Instance audit_kept c : Kept c audit.
Proof.
  split; [done|done| | | |].
  - intros p t m (H1 & H2 & H3) _. split; [by split|split; [by split|]]. intros q. cbn [set_tokens set_reports reports_].
    rewrite !reported_cons by done. cbn. rewrite !andb_false_r. apply H3.
  - intros p t m (H1 & H2 & H3) _. split; [by split|split; [by split|]]. intros q. cbn -[reported].
    rewrite !reported_close by done. cbn. destruct (H3 q) as [Hr Hw].
    rewrite !elem_of_difference, !elem_of_singleton, !andb_true_iff, !negb_true_iff, !bool_decide_eq_false, Hr, Hw.
    split; split; intros [? ?]; auto.
  - intros p t m (H1 & H2 & H3) _. case_bool_decide as Hp.
    + split; [split; [|done]; intros _; apply not_true_iff_false; cbn; by rewrite <- (proj1 (H3 p))|split; [by split|]].
      intros q. cbn -[reported]. rewrite !reported_cons by done. cbn. destruct (H3 q) as [Hr Hw].
      rewrite andb_false_r, andb_true_r. cbn [orb]. rewrite elem_of_union, elem_of_singleton, orb_true_iff, bool_decide_eq_true, Hr.
      split; [|exact Hw]. split; intros [->|?]; auto.
    + split; [done|split; [done|]]. intros q. destruct (H3 q) as [Hr Hw]. split; [|done]. cbn.
      rewrite <- Hr, elem_of_union, elem_of_singleton. split; [intros [->|?]; [by destruct (decide (p ∈ portsHasBeenRead_ m))|done]|by right].
  - intros p t m (H1 & H2 & H3) _. case_bool_decide as Hp.
    + split; [by split|split; [split; [|done]; intros _; apply not_true_iff_false; cbn; by rewrite <- (proj2 (H3 p))|]].
      intros q. cbn -[reported]. rewrite !reported_cons by done. cbn. destruct (H3 q) as [Hr Hw].
      rewrite andb_false_r, andb_true_r. cbn [orb]. rewrite elem_of_union, elem_of_singleton, orb_true_iff, bool_decide_eq_true, Hw.
      split; [exact Hr|]. split; intros [->|?]; auto.
    + split; [done|split; [done|]]. intros q. destruct (H3 q) as [Hr Hw]. split; [done|]. cbn.
      rewrite <- Hw, elem_of_union, elem_of_singleton. split; [intros [->|?]; [by destruct (decide (p ∈ portsHasBeenWritten_ m))|done]|by right].
Qed.

(** Requests of all callers and deaths of clients. *)
Inductive any_step : SM → SM → Prop :=
  | any_request c m m' : serial_step c m m' → any_step m m'
  | any_death p t m : any_step m (FreeTokenId p t m).2.

(** The component as constructed, with a service. *)
Definition fresh (d : D) : SM := Build_SerialManager ∅ ∅ (Some d) ∅ ∅ [].

(** The audit reports the first read and the first write of a port once: in
    every state reached through requests of any callers and deaths of clients,
    between two such reports on a port it was closed, and the two sets of ports
    are exactly those with a report since their last close. *)
Theorem serial_audit d m : rtc any_step (fresh d) m →
  once SERIAL_READ (reports_ m) ∧ once SERIAL_WRITE (reports_ m) ∧
  ∀ p, (p ∈ portsHasBeenRead_ m ↔ reported SERIAL_READ p (reports_ m) = true) ∧
       (p ∈ portsHasBeenWritten_ m ↔ reported SERIAL_WRITE p (reports_ m) = true).
Proof.
  intros Hs. change (audit m). assert (audit (fresh d)) as Hf.
  { split; [done|split; [done|]]. intros p. cbn. split; split; [by intros ?%elem_of_empty|done|by intros ?%elem_of_empty|done]. }
  revert Hf. generalize (fresh d) Hs. clear Hs. intros m0 Hs. induction Hs as [|m1 m2 m3 Hs _ IH]; [done|].
  intros Hm. apply IH. clear IH m3. destruct Hs as [c m1 m2 Hs|p t m1].
  - exact (keep_step c audit m1 m2 Hm Hs).
  - unfold FreeTokenId. rewrite bind_run. cbn [get fst snd]. destruct (portTokenMap_ m1 !! p) as [u|]; [|done].
    destruct (u =? t); cbn [negb]; [|done]. rewrite bind_run.
    by destruct (on_serial_run UEC_OK (ser_SerialClose p) m1) as (a & o & ->).
Qed.
End Properties.

(** ** A service with two ports *)

#[export] Instance demo_serial : SerialInterface (list Z) Z Z := {
  portId_of p := p; baudrate a := a; stopBits _ := 1; parity _ := 0; dataBits _ := 8;
  GetCurrentTime d := (1000, d);
  ser_SerialOpen p d := (if bool_decide (p ∈ [1; 2]) then UEC_OK else ERR_CODE_IOEXCEPTION, d);
  ser_SerialClose _ d := (UEC_OK, d);
  ser_SerialRead _ _ size _ d := ((Z.of_nat (length (take (Z.to_nat size) d)), take (Z.to_nat size) d), d);
  ser_SerialWrite _ data size _ d := (size, d ++ take (Z.to_nat size) data);
  ser_SerialGetAttribute _ _ d := ((UEC_OK, 9600), d);
  ser_SerialSetAttribute _ _ d := (UEC_OK, d);
  ser_SerialGetPortList _ d := ((UEC_OK, [1; 2]), d);
}.
#[local] Existing Instance demo_err_base.

Definition alice : Caller := {| CallingTokenID := 7; CallingUid := 100 |}.
Definition bob : Caller := {| CallingTokenID := 8; CallingUid := 101 |}.
Definition idle_manager : SerialManager (list Z) Z := fresh [5; 6].
Definition opened : SerialManager (list Z) Z := (SerialOpen alice 1 idle_manager).2.
Definition read_once : SerialManager (list Z) Z := (SerialRead alice 1 [] 2 0 100 opened).2.
Definition read_twice : SerialManager (list Z) Z := (SerialRead alice 1 [] 2 0 100 read_once).2.

Example serial_owner_only_witness :
  portTokenMap_ opened !! 1 ≠ Some (CallingTokenID bob) ∧
  SerialClose bob 1 opened = (uec UEC_SERIAL_PORT_NOT_OPEN, opened).
Proof.
  assert (portTokenMap_ opened !! 1 ≠ Some (CallingTokenID bob)) as Hp by (by vm_compute).
  split; [done|]. exact (proj1 (serial_owner_only bob 1 opened Hp)).
Defined.
Example serial_ownership_stable_witness :
  portTokenMap_ opened !! 1 = Some 7 ∧
  portTokenMap_ (FreeTokenId 1 8 (SerialOpen bob 1 opened).2).2 !! 1 = Some 7.
Proof.
  split; [by vm_compute|].
  refine (serial_ownership_stable 1 7 opened _ _ _); [by vm_compute|].
  eapply rtc_l; [apply (other_request 1 7 bob); [done|apply step_open]|]. apply rtc_once. by apply other_death.
Defined.
Example serial_audit_witness :
  once SERIAL_READ (reports_ read_twice) ∧ map operationType (reports_ read_twice) = [SERIAL_READ; SERIAL_OPEN].
Proof.
  split; [|by vm_compute]. refine (proj1 (serial_audit [5; 6] read_twice _)).
  eapply rtc_l; [apply (any_request alice), step_open|]. eapply rtc_l; [apply (any_request alice), step_read|].
  apply rtc_once, (any_request alice), step_read.
Defined.

(** A session that ends with its client's death leaves the marks of its reads:
    the first read of the next session is not reported. *)
Example death_hides_first_read :
  map operationType (reports_ (SerialRead bob 1 [] 2 0 100 (SerialOpen bob 1 (FreeTokenId 1 7 read_once).2).2).2) =
    [SERIAL_OPEN; SERIAL_READ; SERIAL_OPEN].
Proof. by vm_compute. Qed.
