(* ===== verification/UsbInterfaceType.v ===== *)
(** * Interface types (interfaces/innerkits/native/include/usb_interface_type.h)

    The types a policy names, the classes they stand for, and the order in which
    the two tables are iterated, which the library leaves open. *)
From S2P Require Import Prelude.

Inductive InterfaceType :=
  | TYPE_INTERFACE | TYPE_STORAGE | TYPE_AUDIO | TYPE_HID | TYPE_PHYSICAL | TYPE_IMAGE | TYPE_PRINTER
  | TYPE_COMMUNICATION | TYPE_FULL_SPEED_HUB | TYPE_FULL_SPEED_HUB_S | TYPE_FULL_SPEED_HUB_M | TYPE_CDC_DATA
  | TYPE_SMART_CARD | TYPE_CONTENT_SECURTIY | TYPE_VIDEO | TYPE_PERSONAL_HEALTHCARE | TYPE_AVCONTROL
  | TYPE_AVV_STREAMING | TYPE_AVA_STREAMING | TYPE_BILLBOARD | TYPE_TYPEC_BRIDGE | TYPE_BDP
  | TYPE_MCTP_MANA_1 | TYPE_MCTP_MANA_2 | TYPE_MCTP_HOST_1 | TYPE_MCTP_HOST_2 | TYPE_I3C | TYPE_DIAGNOSTIC_1
  | TYPE_DIAGNOSTIC_2 | TYPE_DIAGNOSTIC_3 | TYPE_DIAGNOSTIC_4 | TYPE_DIAGNOSTIC_5 | TYPE_DIAGNOSTIC_6
  | TYPE_DIAGNOSTIC_7 | TYPE_DIAGNOSTIC_8 | TYPE_DIAGNOSTIC_9 | TYPE_DIAGNOSTIC_10 | TYPE_DIAGNOSTIC_11
  | TYPE_DIAGNOSTIC_12 | TYPE_DIAGNOSTIC_13 | TYPE_DIAGNOSTIC_14 | TYPE_WIRLESS_CONTROLLER_1
  | TYPE_WIRLESS_CONTROLLER_2 | TYPE_WIRLESS_CONTROLLER_3 | TYPE_WIRLESS_CONTROLLER_4
  | TYPE_WIRLESS_CONTROLLER_5 | TYPE_WIRLESS_CONTROLLER_6 | TYPE_WIRLESS_CONTROLLER_7 | TYPE_MISCELLANEOUS_1
  | TYPE_MISCELLANEOUS_2 | TYPE_MISCELLANEOUS_3 | TYPE_MISCELLANEOUS_4 | TYPE_MISCELLANEOUS_5
  | TYPE_MISCELLANEOUS_6 | TYPE_MISCELLANEOUS_7 | TYPE_MISCELLANEOUS_8 | TYPE_MISCELLANEOUS_9
  | TYPE_MISCELLANEOUS_10 | TYPE_MISCELLANEOUS_11 | TYPE_MISCELLANEOUS_12 | TYPE_MISCELLANEOUS_13
  | TYPE_MISCELLANEOUS_14 | TYPE_MISCELLANEOUS_15 | TYPE_MISCELLANEOUS_16 | TYPE_MISCELLANEOUS_17
  | TYPE_MISCELLANEOUS_18 | TYPE_MISCELLANEOUS_19 | TYPE_APPLICATION_SPE_1 | TYPE_APPLICATION_SPE_2
  | TYPE_APPLICATION_SPE_3 | TYPE_APPLICATION_SPE_4 | TYPE_VENDOR_SPECIFIC.
#[global] Instance InterfaceType_eq_dec : EqDecision InterfaceType.
Proof. solve_decision. Defined.

(** A class, a subclass and a protocol. *)
Definition ClassTriple : Type := Z * Z * Z.

Record UsbDeviceType := {
  baseClass : Z;
  subClass : Z;
  protocol : Z;
  isDeviceType : bool;
  isDeviceTypeAllMatch : bool;
}.
(** The default constructor. *)
Definition no_type : UsbDeviceType := {| baseClass := 0; subClass := 0; protocol := 0; isDeviceType := false;
  isDeviceTypeAllMatch := false |}.
(** The constructor with four arguments. *)
Definition device_type (c s p : Z) (d : bool) : UsbDeviceType := {| baseClass := c; subClass := s; protocol := p;
  isDeviceType := d; isDeviceTypeAllMatch := false |}.
#[global] Instance UsbDeviceType_eq_dec : EqDecision UsbDeviceType.
Proof. solve_decision. Defined.

Record UsbDeviceId := { productId : Z; vendorId : Z }.

Definition d_typeMap : list (InterfaceType * ClassTriple) := [
  (TYPE_INTERFACE, (0, 0, 0));
  (TYPE_COMMUNICATION, (2, -1, -1));
  (TYPE_FULL_SPEED_HUB, (9, 0, 0));
  (TYPE_FULL_SPEED_HUB_S, (9, 0, 1));
  (TYPE_FULL_SPEED_HUB_M, (9, 0, 2));
  (TYPE_BILLBOARD, (17, 0, 0));
  (TYPE_DIAGNOSTIC_1, (220, 1, 1));
  (TYPE_DIAGNOSTIC_2, (220, 2, 0));
  (TYPE_DIAGNOSTIC_3, (220, 2, 1));
  (TYPE_DIAGNOSTIC_4, (220, 3, 0));
  (TYPE_DIAGNOSTIC_5, (220, 3, 1));
  (TYPE_DIAGNOSTIC_6, (220, 4, 0));
  (TYPE_DIAGNOSTIC_7, (220, 4, 1));
  (TYPE_DIAGNOSTIC_8, (220, 5, 0));
  (TYPE_DIAGNOSTIC_9, (220, 5, 1));
  (TYPE_DIAGNOSTIC_10, (220, 6, 0));
  (TYPE_DIAGNOSTIC_11, (220, 6, 1));
  (TYPE_DIAGNOSTIC_12, (220, 7, 0));
  (TYPE_DIAGNOSTIC_13, (220, 7, 1));
  (TYPE_DIAGNOSTIC_14, (220, 8, 0));
  (TYPE_MISCELLANEOUS_1, (239, 1, 1));
  (TYPE_MISCELLANEOUS_2, (239, 1, 2));
  (TYPE_MISCELLANEOUS_3, (239, 2, 1));
  (TYPE_MISCELLANEOUS_4, (239, 2, 2));
  (TYPE_VENDOR_SPECIFIC, (255, -1, -1))].

Definition g_typeMap : list (InterfaceType * ClassTriple) := [
  (TYPE_AUDIO, (1, -1, -1));
  (TYPE_COMMUNICATION, (2, -1, -1));
  (TYPE_HID, (3, -1, -1));
  (TYPE_PHYSICAL, (5, -1, -1));
  (TYPE_IMAGE, (6, 1, 1));
  (TYPE_PRINTER, (7, -1, -1));
  (TYPE_STORAGE, (8, -1, -1));
  (TYPE_CDC_DATA, (10, -1, -1));
  (TYPE_SMART_CARD, (11, -1, -1));
  (TYPE_CONTENT_SECURTIY, (13, 0, 0));
  (TYPE_VIDEO, (14, -1, -1));
  (TYPE_PERSONAL_HEALTHCARE, (15, -1, -1));
  (TYPE_AVCONTROL, (16, 1, 0));
  (TYPE_AVV_STREAMING, (16, 2, 0));
  (TYPE_AVA_STREAMING, (16, 3, 0));
  (TYPE_TYPEC_BRIDGE, (18, 0, 0));
  (TYPE_BDP, (19, 0, 0));
  (TYPE_MCTP_MANA_1, (20, 0, 1));
  (TYPE_MCTP_MANA_2, (20, 0, 2));
  (TYPE_MCTP_HOST_1, (20, 1, 1));
  (TYPE_MCTP_HOST_2, (20, 1, 2));
  (TYPE_I3C, (60, 0, 0));
  (TYPE_DIAGNOSTIC_1, (220, 1, 1));
  (TYPE_DIAGNOSTIC_2, (220, 2, 0));
  (TYPE_DIAGNOSTIC_3, (220, 2, 1));
  (TYPE_DIAGNOSTIC_4, (220, 3, 0));
  (TYPE_DIAGNOSTIC_5, (220, 3, 1));
  (TYPE_DIAGNOSTIC_6, (220, 4, 0));
  (TYPE_DIAGNOSTIC_7, (220, 4, 1));
  (TYPE_DIAGNOSTIC_8, (220, 5, 0));
  (TYPE_DIAGNOSTIC_9, (220, 5, 1));
  (TYPE_DIAGNOSTIC_10, (220, 6, 0));
  (TYPE_DIAGNOSTIC_11, (220, 6, 1));
  (TYPE_DIAGNOSTIC_12, (220, 7, 0));
  (TYPE_DIAGNOSTIC_13, (220, 7, 1));
  (TYPE_DIAGNOSTIC_14, (220, 8, 0));
  (TYPE_WIRLESS_CONTROLLER_1, (224, 1, 1));
  (TYPE_WIRLESS_CONTROLLER_2, (224, 1, 2));
  (TYPE_WIRLESS_CONTROLLER_3, (224, 1, 3));
  (TYPE_WIRLESS_CONTROLLER_4, (224, 1, 4));
  (TYPE_WIRLESS_CONTROLLER_5, (224, 2, 1));
  (TYPE_WIRLESS_CONTROLLER_6, (224, 2, 2));
  (TYPE_WIRLESS_CONTROLLER_7, (224, 2, 3));
  (TYPE_MISCELLANEOUS_1, (239, 1, 1));
  (TYPE_MISCELLANEOUS_2, (239, 1, 2));
  (TYPE_MISCELLANEOUS_5, (239, 3, 1));
  (TYPE_MISCELLANEOUS_6, (239, 4, 1));
  (TYPE_MISCELLANEOUS_7, (239, 4, 2));
  (TYPE_MISCELLANEOUS_8, (239, 4, 3));
  (TYPE_MISCELLANEOUS_9, (239, 4, 4));
  (TYPE_MISCELLANEOUS_10, (239, 4, 5));
  (TYPE_MISCELLANEOUS_11, (239, 4, 6));
  (TYPE_MISCELLANEOUS_12, (239, 4, 7));
  (TYPE_MISCELLANEOUS_13, (239, 5, 0));
  (TYPE_MISCELLANEOUS_14, (239, 5, 1));
  (TYPE_MISCELLANEOUS_15, (239, 5, 2));
  (TYPE_MISCELLANEOUS_16, (239, 6, 1));
  (TYPE_MISCELLANEOUS_17, (239, 6, 2));
  (TYPE_MISCELLANEOUS_18, (239, 7, 1));
  (TYPE_MISCELLANEOUS_19, (239, 7, 2));
  (TYPE_APPLICATION_SPE_1, (254, 1, 1));
  (TYPE_APPLICATION_SPE_2, (254, 2, 0));
  (TYPE_APPLICATION_SPE_3, (254, 3, 0));
  (TYPE_APPLICATION_SPE_4, (254, 3, 1));
  (TYPE_VENDOR_SPECIFIC, (255, -1, -1))].

(** The tables are unordered: a loop visits their entries in some order. *)
Class TableOrder := {
  d_order : list (InterfaceType * ClassTriple);
  g_order : list (InterfaceType * ClassTriple);
  d_order_perm : d_order ≡ₚ d_typeMap;
  g_order_perm : g_order ≡ₚ g_typeMap;
}.

(** [find] in a table. *)
Definition find_type (map : list (InterfaceType * ClassTriple)) (t : InterfaceType) : option ClassTriple :=
  p ← list_find (λ e, e.1 = t) map; mret p.2.2.
