(* ===== verification/UsbHostManager.v ===== *)
(** * The host manager: its state and what it asks of the platform
    (services/native/src/usb_host_manager.cpp)

    The table of attached devices, the calls on the host service that the other
    parts use, and the broadcasts about a device with their reports. *)
From S2P Require Import Prelude UsbErrors Platform UsbDevice UsbInterfaceType.

Definition CLASS_PRINT_LENGTH : nat := 2.
Definition USAGE_IN_INTERFACE_CLASS : Z := 0.
Definition DES_USAGE_IN_INTERFACE : Z := 2.
Definition BCD_HEX_DIGITS : nat := 4.
Definition LAST_FIVE : nat := 5.
Definition BASE_CLASS_AUDIO : Z := 1.
Definition BASE_CLASS_HUB : Z := 9.
Definition USB_FUNC_REVERSE_CHARGE : string := "USB_func_charge_connected_notifier".

Record UsbDev := { busNum : Z; devAddr : Z }.
#[global] Instance UsbDev_eq_dec : EqDecision UsbDev.
Proof. solve_decision. Defined.

(** [std::to_string(busNum) + "-" + std::to_string(devAddr)]. *)
Definition device_key (busNum devAddr : Z) : string := pretty busNum +:+ "-" +:+ pretty devAddr.
Definition key_of (d : UsbDevice.t) : string := device_key (UsbDevice.busNum_ d) (UsbDevice.devAddr_ d).

#[global] Instance AuthorizeStatus_eq_dec : EqDecision UsbDevice.AuthorizeStatus.
Proof. solve_decision. Defined.

(** ** Setters of the device tree *)

Definition set_status (s : UsbDevice.AuthorizeStatus) (d : UsbDevice.t) : UsbDevice.t :=
  let '(UsbDevice.Build_t a b c e f _ h i j k l m n o p q r s' t u v) := d in
  UsbDevice.Build_t a b c e f s h i j k l m n o p q r s' t u v.
Definition set_configs (x : list USBConfig.t) (d : UsbDevice.t) : UsbDevice.t :=
  let '(UsbDevice.Build_t a b c e f g h i j k l m n o p q r s t u _) := d in
  UsbDevice.Build_t a b c e f g h i j k l m n o p q r s t u x.
Definition set_address (bus addr : Z) (name : string) (d : UsbDevice.t) : UsbDevice.t :=
  let '(UsbDevice.Build_t _ b c e f g _ _ j k l m n o p q r s t u v) := d in
  UsbDevice.Build_t name b c e f g addr bus j k l m n o p q r s t u v.
Definition set_strings (manufacturer product version serial : string) (d : UsbDevice.t) : UsbDevice.t :=
  let '(UsbDevice.Build_t a _ _ _ _ g h i j k l m n o p q r s t u v) := d in
  UsbDevice.Build_t a manufacturer product version serial g h i j k l m n o p q r s t u v.
Definition set_serial_text (serial : string) (d : UsbDevice.t) : UsbDevice.t :=
  set_strings (UsbDevice.manufacturerName_ d) (UsbDevice.productName_ d) (UsbDevice.version_ d) serial d.
Definition set_config_name (x : string) (c : USBConfig.t) : USBConfig.t :=
  let '(USBConfig.Build_t a b e f _ g) := c in USBConfig.Build_t a b e f x g.
Definition set_interface_name (x : string) (i : UsbInterface.t) : UsbInterface.t :=
  let '(UsbInterface.Build_t a b c d e _ g h j) := i in UsbInterface.Build_t a b c d e x g h j.
Definition set_authorized (x : bool) (i : UsbInterface.t) : UsbInterface.t :=
  let '(UsbInterface.Build_t a b c d e f g h _) := i in UsbInterface.Build_t a b c d e f g h x.

(** ** Effects *)

Inductive HostEvent := USB_DEVICE_ATTACHED | USB_DEVICE_DETACHED.
#[global] Instance HostEvent_eq_dec : EqDecision HostEvent.
Proof. solve_decision. Defined.

(** An interface in an audit report. *)
Record InterfaceEntry := { entry_id : Z; entry_alt : Z; entry_class : Z; entry_sub : Z; entry_protocol : Z }.

Inductive HostEffect :=
  | Published (event : HostEvent) (system_only : bool) (device : string) (data : string)
  | NotificationSent (function : string)
  | NotificationCancelled
  | PlugReported (event : HostEvent) (product : string) (protocol subClass class : Z) (usage interfaces : string)
      (vid pid : Z) (version sn manufacturer : string)
  | PolicyReported (operationType : string) (vid pid class subClass protocol : Z) (time : Z)
      (manufacturer product : string) (interfaces : list InterfaceEntry).

(** ** The platform *)

(** The host and device services, the enterprise device manager, system
    parameters, the file system, [iconv], the clocks, the event service. *)
Class HostPlatform (W R : Type) := {
  hdi_OpenDevice : UsbDev → state W Z;
  hdi_CloseDevice : UsbDev → state W Z;
  hdi_GetConfig : UsbDev → Z → state W (Z * Z);
  hdi_GetRawDescriptor : UsbDev → list Z → state W (Z * list Z);
  hdi_GetStringDescriptor : UsbDev → Z → list Z → state W (Z * list Z);
  hdi_ManageInterface : UsbDev → Z → bool → state W Z;
  hdi_UsbDeviceAuthorize : Z → Z → bool → state W Z;
  hdi_UsbInterfaceAuthorize : UsbDev → Z → Z → bool → state W Z;
  GetParameter : string → string → state W string;
  access : string → bool → state W Z;         (* existence; with [true] reading and writing *)
  iconv_open : state W bool;
  iconv : list Z → state W (option string);   (* [None]: -1 *)
  steady_clock_ms : state W Z;
  GetCurrentTime : state W Z;
  CommonEventManager_PublishCommonEvent : state W bool;
  UsbRightManager_IsSystemAppOrSa : state W bool;
  has_SystemAbilityManager : state W bool;
  CheckSystemAbility : Z → state W bool;
  LoadSystemAbility : Z → state W Z;
  (* [data] is the same in all requests; the reply is read afterwards *)
  SendRequest : Z → state W (Z * R);
  reply_ReadInt32 : state R (option Z);
  reply_ReadBool : state R (option bool);
}.

(** [SerialManager::SerialGetPortList]: the code and the devices of the ports. *)
Class PortList (SM : Type) := { sm_SerialGetPortList : state SM (Z * list UsbDev) }.

(** ** State *)

Record UsbHostManager (W SM : Type) := {
  devices_ : gmap string UsbDevice.t;    (* no null pointer is ever inserted *)
  isPermTypePolicy_ : bool;
  usbSerialManager_ : option SM;
  serialDevices_ : list UsbDev;
  usbDeviceInterface_ : bool;            (* not null *)
  usbHostInterface_ : bool;              (* not null *)
  platform_ : W;
  trace_ : list HostEffect;              (* newest first *)
}.
Arguments devices_ {W SM} _.
Arguments isPermTypePolicy_ {W SM} _.
Arguments usbSerialManager_ {W SM} _.
Arguments serialDevices_ {W SM} _.
Arguments usbDeviceInterface_ {W SM} _.
Arguments usbHostInterface_ {W SM} _.
Arguments platform_ {W SM} _.
Arguments trace_ {W SM} _.
Arguments Build_UsbHostManager {W SM} _ _ _ _ _ _ _ _.

Section Fields.
Context {W SM : Type}.
Implicit Types m : UsbHostManager W SM.
Definition set_devices (x : gmap string UsbDevice.t) m := let 'Build_UsbHostManager _ b c d e f g h := m in
  Build_UsbHostManager x b c d e f g h.
Definition set_perm (x : bool) m := let 'Build_UsbHostManager a _ c d e f g h := m in
  Build_UsbHostManager a x c d e f g h.
Definition set_serial_manager (x : option SM) m := let 'Build_UsbHostManager a b _ d e f g h := m in
  Build_UsbHostManager a b x d e f g h.
Definition set_serial_devices (x : list UsbDev) m := let 'Build_UsbHostManager a b c _ e f g h := m in
  Build_UsbHostManager a b c x e f g h.
Definition set_platform (x : W) m := let 'Build_UsbHostManager a b c d e f _ h := m in
  Build_UsbHostManager a b c d e f x h.
Definition set_trace (x : list HostEffect) m := let 'Build_UsbHostManager a b c d e f g _ := m in
  Build_UsbHostManager a b c d e f g x.
End Fields.

(** The keys of the table in the order of [std::map]. *)
Definition sorted_keys {A} (m : gmap string A) : list string := merge_sort String.le (map_to_list m).*1.

(** ** What a class stands for *)

Record DeviceClassUsage := { usage : Z; description : string }.
Definition deviceUsageMap : list (Z * DeviceClassUsage) := [
  (0x00, {| usage := 2; description := "Use class information in the Interface Descriptors" |});
  (0x01, {| usage := 2; description := "Audio" |});
  (0x02, {| usage := 3; description := "Communications and CDC Control" |});
  (0x03, {| usage := 2; description := "HID(Human Interface Device)" |});
  (0x05, {| usage := 2; description := "Physical" |});
  (0x06, {| usage := 2; description := "Image" |});
  (0x07, {| usage := 2; description := "Printer" |});
  (0x08, {| usage := 2; description := "Mass Storage" |});
  (0x09, {| usage := 1; description := "Hub" |});
  (0x0a, {| usage := 2; description := "CDC-Data" |});
  (0x0b, {| usage := 2; description := "Smart Card" |});
  (0x0d, {| usage := 2; description := "Content Security" |});
  (0x0e, {| usage := 2; description := "Video" |});
  (0x0f, {| usage := 2; description := "Personal Healthcare" |});
  (0x10, {| usage := 2; description := "Audio/Video Device" |});
  (0x11, {| usage := 1; description := "Billboard Device Class" |});
  (0x12, {| usage := 2; description := "USB Type-C Bridge Class" |})].
Definition interfaceUsageMap : list (UsbDeviceType * string) := [
  (device_type 3 1 1 false, "KeyBoard");
  (device_type 3 1 2 false, "Mouse/Table/Touch screen")].

(** The description and the usage. *)
Definition GetDeviceDescription (baseClass : Z) : string * Z :=
  match list_find (λ e, e.1 = baseClass) deviceUsageMap with
  | Some (_, (_, u)) => (description u, usage u)
  | None => ("NA", 1)
  end.

Definition hex2 (z : Z) : string := zero_fill CLASS_PRINT_LENGTH (hex_text hex_lower (to_u32 z)).
Definition ConcatenateToDescription (t : UsbDeviceType) (str : string) : string :=
  hex2 (baseClass t) +:+ "_" +:+ hex2 (subClass t) +:+ "_" +:+ hex2 (protocol t) +:+ "," +:+ str.
Definition GetInterfaceUsageDescription (t : UsbDeviceType) : string :=
  match list_find (λ e, e.1 = t) interfaceUsageMap with Some (_, (_, s)) => s | None => "NA" end.

(** The text so far and the class of the last interface. *)
Definition describe_interface (first : bool) (i : UsbInterface.t) (acc : string * Z) : string * Z :=
  let t := device_type (UsbInterface.klass_ i) (UsbInterface.subClass_ i) (UsbInterface.protocol_ i) false in
  ((if first then acc.1 else acc.1 +:+ ";") +:+ ConcatenateToDescription t (GetInterfaceUsageDescription t),
   UsbInterface.klass_ i).
Definition GetInterfaceDescription (d : UsbDevice.t) (description : string) (baseClass : Z) : string * Z :=
  foldl (λ acc '(n, c), foldl (λ acc '(j, i), describe_interface (Nat.eqb n 0 && Nat.eqb j 0) i acc)
    acc (imap pair (USBConfig.interfaces_ c))) (description, baseClass) (imap pair (UsbDevice.configs_ d)).

Definition BcdToString (bcdUsb : Z) : string := zero_fill BCD_HEX_DIGITS (hex_text hex_upper bcdUsb).

Definition IsAudioDevice (d : UsbDevice.t) : bool :=
  existsb (λ c, existsb (λ i, UsbInterface.klass_ i =? BASE_CLASS_AUDIO) (USBConfig.interfaces_ c)) (UsbDevice.configs_ d).

Section Manager.
Context {W R SM : Type} `{!HostPlatform W R, !ErrCodeBase, !CJson}.
Abbreviation M := (state (UsbHostManager W SM)).

Definition on_platform {A} (f : state W A) : M A := zoom platform_ set_platform f.
Definition emit (e : HostEffect) : M () := modify (λ m, set_trace (e :: trace_ m) m).
(** [usbHostInterface_ == nullptr] returns [dflt]. *)
Definition on_host {A} (dflt : A) (f : state W A) : M A :=
  m ← get; if negb (usbHostInterface_ m) then mret dflt else on_platform f.
(** The device a key of the table points to. *)
Definition device_at (k : string) : M (option UsbDevice.t) := gets (λ m, devices_ m !! k).
Definition alter_device (k : string) (f : UsbDevice.t → UsbDevice.t) : M () :=
  modify (λ m, set_devices (alter f k (devices_ m)) m).
(** [for (auto it = devices_.begin(); ...)]: the body sees the device as it is
    when its turn comes; it removes none. *)
Definition each_device (body : string → UsbDevice.t → M ()) : M () :=
  m ← get;
  for_each (λ k, d ← device_at k; match d with None => mret () | Some d => body k d end) (sorted_keys (devices_ m)).

Definition OpenDevice (busNum devAddr : Z) : M Z :=
  on_host (uec UEC_SERVICE_INVALID_VALUE) (hdi_OpenDevice {| busNum := busNum; devAddr := devAddr |}).
Definition Close (busNum devAddr : Z) : M Z :=
  on_host (uec UEC_SERVICE_INVALID_VALUE) (hdi_CloseDevice {| busNum := busNum; devAddr := devAddr |}).
(** The code and [configIndex]. *)
Definition GetActiveConfig (busNum devAddr configIndex : Z) : M (Z * Z) :=
  on_host (uec UEC_SERVICE_INVALID_VALUE, configIndex) (hdi_GetConfig {| busNum := busNum; devAddr := devAddr |} configIndex).
Definition GetRawDescriptor (busNum devAddr : Z) (bufferData : list Z) : M (Z * list Z) :=
  on_host (uec UEC_SERVICE_INVALID_VALUE, bufferData)
    (hdi_GetRawDescriptor {| busNum := busNum; devAddr := devAddr |} bufferData).
Definition ManageInterface (dev : UsbDev) (interfaceId : Z) (disable : bool) : M Z :=
  on_host (uec UEC_SERVICE_INVALID_VALUE) (hdi_ManageInterface dev interfaceId disable).

(** *** Broadcasts *)

Definition ReportHostPlugSysEvent (event : HostEvent) (d : UsbDevice.t) : M () :=
  let '(deviceUsageDes, deviceUsage) := GetDeviceDescription (UsbDevice.baseClass_ d) in
  let '(extUsageDes, intfBaseClass) :=
    if has_flag deviceUsage DES_USAGE_IN_INTERFACE then GetInterfaceDescription d "" 0 else ("", 0) in
  let deviceUsageDes := if UsbDevice.baseClass_ d =? USAGE_IN_INTERFACE_CLASS
                        then (GetDeviceDescription intfBaseClass).1 else deviceUsageDes in
  let n := String.length (UsbDevice.serial_ d) in
  let snNum := if Nat.ltb LAST_FIVE n then String.substring (n - LAST_FIVE) LAST_FIVE (UsbDevice.serial_ d) else "" in
  emit (PlugReported event (UsbDevice.productName_ d) (UsbDevice.protocol_ d) (UsbDevice.subClass_ d)
    (UsbDevice.baseClass_ d) deviceUsageDes extUsageDes (UsbDevice.vendorId_ d) (UsbDevice.productId_ d)
    (UsbDevice.version_ d) snNum (UsbDevice.manufacturerName_ d)).

(** [getJsonString] runs twice, the second time for the log. *)
Definition PublishCommonEvent (event : HostEvent) (d : UsbDevice.t) : M bool :=
  let data := c_str (UsbDevice.getJsonString d) in
  let hub := UsbDevice.baseClass_ d =? BASE_CLASS_HUB in
  (if hub then mret ()
   else if IsAudioDevice d then mret ()
   else match event with
        | USB_DEVICE_DETACHED => emit NotificationCancelled
        | USB_DEVICE_ATTACHED => emit (NotificationSent USB_FUNC_REVERSE_CHARGE)
        end);;
  ReportHostPlugSysEvent event d;;
  emit (Published event hub (key_of d) data);;
  on_platform CommonEventManager_PublishCommonEvent.

(** *** Queries of the table *)

(** [GetDevices] appends to [deviceList]. *)
Definition GetDevices (deviceList : list UsbDevice.t) : M (Z * list UsbDevice.t) :=
  m ← get;
  isSystemAppOrSa ← on_platform UsbRightManager_IsSystemAppOrSa;
  let shown k :=
    d ← devices_ m !! k;
    if ((UsbDevice.baseClass_ d =? BASE_CLASS_HUB) && negb isSystemAppOrSa) ||
       negb (bool_decide (UsbDevice.authorizeStatus_ d = UsbDevice.ENABLED)) then None
    else Some (if negb isSystemAppOrSa then set_serial_text "" d else d) in
  mret (UEC_OK, deviceList ++ omap shown (sorted_keys (devices_ m))).

Definition hasActiveDevice : M bool := gets (λ m, negb (bool_decide (devices_ m = ∅))).

(** The first device in the order of the table. *)
Definition GetTargetDevice (busNum devAddr : Z) : M (option UsbDevice.t) :=
  gets (λ m, head (omap (λ k,
    d ← devices_ m !! k;
    if (UsbDevice.busNum_ d =? busNum) && (UsbDevice.devAddr_ d =? devAddr) then Some d else None)
    (sorted_keys (devices_ m)))).

Definition GetEndpointFromId (d : UsbDevice.t) (endpointId : Z) : option USBEndpoint.t :=
  snd <$> list_find (λ e, USBEndpoint.address_ e = to_u32 endpointId)
    (concat (map (λ c, concat (map UsbInterface.endpoints_ (USBConfig.interfaces_ c))) (UsbDevice.configs_ d))).

Definition GetProductName (deviceName : string) : M (option string) :=
  gets (λ m, UsbDevice.productName_ <$> devices_ m !! deviceName).

Definition Dump (args : string) : M (bool * list string) :=
  if negb (bool_decide (args = "-a")) then mret (false, ["args is not -a"]) else
  m ← get;
  mret (true, "Usb Host all device list info:" :: omap (λ k,
    (λ d, "usb host list info: " +:+ c_str (UsbDevice.getJsonString d)) <$> devices_ m !! k) (sorted_keys (devices_ m))).
End Manager.
