(* ===== verification/UsbHostPolicy.v ===== *)
(** * The host manager: authorisation, policies, arrivals and departures
    (services/native/src/usb_host_manager.cpp)

    Devices and interfaces are authorised one by one; the policies of the
    enterprise device manager, its four kinds of requests, and the strategy that
    an arriving device runs. *)
From S2P Require Import Prelude UsbErrors Platform UsbDevice UsbInterfaceType UsbHostManager.

Definition EDM_SA_MAX_TIME_OUT : Z := 5000.
Definition MANAGE_INTERFACE_INTERVAL : Z := 50.
Definition EDM_SYSTEM_ABILITY_ID : Z := 1601.
Definition EMD_MASK_CODE : Z := 20.
Definition DISABLE_USB : Z := 1043.
Definition ALLOWED_USB_DEVICES : Z := 1044.
Definition USB_STORAGE_DEVICE_ACCESS_POLICY : Z := 1026.
Definition USB_DEVICE_ACCESS_POLICY : Z := 1059.
Definition USB_TYPE_DISALLOW_POLICY : Z := 1166.
Definition TRUSTLIST_POLICY_MAX_DEVICES : Z := 1000.
Definition EDM_SA_TIME_OUT_CODE : Z := 9200007.
Definition STORAGE_BASE_CLASS : Z := 8.
Definition GET_EDM_STORAGE_DISABLE_TYPE : Z := 2.
Definition RANDOM_VALUE_INDICATE : Z := -1.
Definition ERR_OK : Z := 0.

(** The pattern with a class, and a subclass and a protocol that may be any. *)
Definition class_matches (pattern : ClassTriple) (c s p : Z) : bool :=
  let '(pc, ps, pp) := pattern in
  (c =? pc) && ((ps =? RANDOM_VALUE_INDICATE) || (s =? ps)) && ((pp =? RANDOM_VALUE_INDICATE) || (p =? pp)).
Definition pattern_of (t : UsbDeviceType) : ClassTriple := (baseClass t, subClass t, protocol t).
Definition device_matches (pattern : ClassTriple) (d : UsbDevice.t) : bool :=
  class_matches pattern (UsbDevice.baseClass_ d) (UsbDevice.subClass_ d) (UsbDevice.protocol_ d).
Definition interface_matches (pattern : ClassTriple) (i : UsbInterface.t) : bool :=
  class_matches pattern (UsbInterface.klass_ i) (UsbInterface.subClass_ i) (UsbInterface.protocol_ i).
Definition IsUsbInterfaceTypeMatched (types : list UsbDeviceType) (i : UsbInterface.t) : bool :=
  existsb (λ t, interface_matches (pattern_of t) i) types.

(** The types of the table that [disableType] names. *)
Definition FindMatchingTypes (map : list (InterfaceType * ClassTriple)) (isDev : bool) (disableType : list UsbDeviceType)
    : list InterfaceType :=
  omap (λ dev, if negb (bool_decide (isDeviceType dev = isDev)) then None else
    e ← List.find (λ e, class_matches e.2 (baseClass dev) (subClass dev) (protocol dev)) map; Some (e.1 : InterfaceType))
    disableType.

Definition interface_entry (i : UsbInterface.t) : InterfaceEntry := {|
  entry_id := UsbInterface.id_ i; entry_alt := UsbInterface.alternateSetting_ i; entry_class := UsbInterface.klass_ i;
  entry_sub := UsbInterface.subClass_ i; entry_protocol := UsbInterface.protocol_ i |}.
Definition set_config_interfaces (index : nat) (l : list UsbInterface.t) (d : UsbDevice.t) : UsbDevice.t :=
  set_configs (alter (USBConfig.set_interfaces l) index (UsbDevice.configs_ d)) d.

Fixpoint for_fold {S A B} (body : A → B → state S A) (a : A) (l : list B) : state S A :=
  match l with [] => mret a | x :: l => a ← body a x; for_fold body a l end.

Section Policy.
Context {W R SM : Type} `{!HostPlatform W R, !PortList SM, !ErrCodeBase, !CJson, !TableOrder}.
Abbreviation M := (state (UsbHostManager W SM)).
Abbreviation INVALID := (uec UEC_SERVICE_INVALID_VALUE).

(** *** Serial devices and system parameters *)

Definition IsEdmEnabled : M bool :=
  edmParaValue ← on_platform (GetParameter "persist.edm.enterprise_config_enable" "false");
  mret (bool_decide (edmParaValue = "true")).
Definition IsUsbSerialDisable : M bool :=
  isSerialDisable ← on_platform (GetParameter "persist.edm.usb_serial_disable" "0");
  enabled ← IsEdmEnabled; mret (enabled && bool_decide (isSerialDisable = "1")).

Definition at_address (d : UsbDevice.t) (s : UsbDev) : bool :=
  (busNum s =? UsbDevice.busNum_ d) && (devAddr s =? UsbDevice.devAddr_ d).
Definition IsUsbSerialDevice (d : UsbDevice.t) : M bool := gets (λ m, existsb (at_address d) (serialDevices_ m)).
(** Whether the serial policy is in charge of the device. *)
Definition managed_as_serial (d : UsbDevice.t) : M bool :=
  off ← IsUsbSerialDisable; if (off : bool) then IsUsbSerialDevice d else mret false.

Definition SetSerialManager (sm : option SM) : M () :=
  match sm with None => mret () | Some _ => modify (set_serial_manager sm) end.
Definition AddUsbSerialDevice (d : UsbDevice.t) : M () :=
  m ← get;
  match usbSerialManager_ m with
  | None => mret ()
  | Some sm =>
      let '((ret, serialList), sm) := sm_SerialGetPortList sm in
      modify (set_serial_manager (Some sm));;
      if negb (ret =? UEC_OK) then mret () else
      if existsb (at_address d) serialList && negb (existsb (at_address d) (serialDevices_ m))
      then modify (set_serial_devices
             (serialDevices_ m ++ [{| busNum := UsbDevice.busNum_ d; devAddr := UsbDevice.devAddr_ d |}]))
      else mret ()
  end.

(** *** Authorising a device and an interface *)

(** The interfaces of the active configuration, or of the first one when the
    active one is not known. *)
Definition GetActiveInterfacesJson (d : UsbDevice.t) : M (list InterfaceEntry) :=
  '(ret, configIndex) ← GetActiveConfig (UsbDevice.busNum_ d) (UsbDevice.devAddr_ d) 0;
  let configIndex := if negb (ret =? UEC_OK) || (configIndex <? 1) then 1 else configIndex in
  match UsbDevice.configs_ d !! Z.to_nat (to_u8 (configIndex - 1)) with
  | None => mret []
  | Some c => mret (map interface_entry (USBConfig.interfaces_ c))
  end.

(** [interface] for a report about an interface. *)
Definition ReportManageDeviceInfo (operationType : string) (d : UsbDevice.t) (interface : option UsbInterface.t)
    (preInterfacesJson : list InterfaceEntry) : M () :=
  let '(c, s, p) := match interface with
    | Some i => (UsbInterface.klass_ i, UsbInterface.subClass_ i, UsbInterface.protocol_ i)
    | None => (UsbDevice.baseClass_ d, UsbDevice.subClass_ d, UsbDevice.protocol_ d)
    end in
  time ← on_platform GetCurrentTime;
  emit (PolicyReported operationType (UsbDevice.vendorId_ d) (UsbDevice.productId_ d) c s p time
    (UsbDevice.manufacturerName_ d) (UsbDevice.productName_ d)
    (match interface with Some _ => [] | None => preInterfacesJson end)).

Definition UsbDeviceAuthorize (bus addr : Z) (authorized : bool) (operationType : string) : M Z :=
  m ← get;
  if negb (usbDeviceInterface_ m) then mret INVALID else
  let name := device_key bus addr in
  match devices_ m !! name with
  | None => mret INVALID
  | Some d =>
      let authorizeStatus := UsbDevice.authorizeStatus_ d in
      let disabled := bool_decide (authorizeStatus = UsbDevice.DISABLED) in
      if (authorized && negb disabled) || (negb authorized && disabled) then mret UEC_OK else
      preInterfacesJson ← (if negb authorized then GetActiveInterfacesJson d else mret []);
      ret ← on_platform (hdi_UsbDeviceAuthorize bus addr authorized);
      if negb (ret =? UEC_OK) then mret ret else
      (if negb authorized then ReportManageDeviceInfo operationType d None preInterfacesJson else mret ());;
      (if bool_decide (authorizeStatus = UsbDevice.NEW_ARRIVED) then mret () else
       _ ← PublishCommonEvent (if authorized then USB_DEVICE_ATTACHED else USB_DEVICE_DETACHED) d; mret ());;
      alter_device name (set_status (if authorized then UsbDevice.ENABLED else UsbDevice.DISABLED));;
      mret UEC_OK
  end.

Definition UsbInterfaceAuthorize (dev : UsbDev) (configId interfaceId : Z) (authorized : bool) : M Z :=
  m ← get;
  if negb (usbDeviceInterface_ m) then mret INVALID else
  ret ← on_platform (hdi_UsbInterfaceAuthorize dev configId interfaceId authorized);
  if (ret =? UEC_OK) && authorized then ManageInterface dev interfaceId (negb authorized) else mret ret.

(** The loop over the interfaces of configuration [index], changed in place. *)
Definition each_interface (k : string) (index : nat) (c : USBConfig.t) (body : UsbInterface.t → M UsbInterface.t) : M () :=
  l ← mapM body (USBConfig.interfaces_ c);
  alter_device k (set_config_interfaces index l).

Definition address_of (d : UsbDevice.t) : UsbDev := {| busNum := UsbDevice.busNum_ d; devAddr := UsbDevice.devAddr_ d |}.
Definition authorize_interface (d : UsbDevice.t) (c : USBConfig.t) (i : UsbInterface.t) (authorized : bool) : M Z :=
  UsbInterfaceAuthorize (address_of d) (to_u8 (USBConfig.id_ c)) (to_u8 (UsbInterface.id_ i)) authorized.

(** *** All devices *)

Definition open (d : UsbDevice.t) : M Z := OpenDevice (UsbDevice.busNum_ d) (UsbDevice.devAddr_ d).
Definition close (d : UsbDevice.t) : M () := _ ← Close (UsbDevice.busNum_ d) (UsbDevice.devAddr_ d); mret ().
Definition authorize (d : UsbDevice.t) (authorized : bool) (operationType : string) : M Z :=
  UsbDeviceAuthorize (UsbDevice.busNum_ d) (UsbDevice.devAddr_ d) authorized operationType.
Definition is_hub (d : UsbDevice.t) : bool := UsbDevice.baseClass_ d =? BASE_CLASS_HUB.

Definition ManageGlobalInterfaceImpl (disable : bool) : M Z :=
  each_device (λ k d,
    skip ← (if disable && negb (is_hub d) then mret true else managed_as_serial d);
    if (skip : bool) then mret () else
    _ ← authorize d (negb disable) "GlobalType";
    if disable then mret () else
    ret ← open d;
    if negb (ret =? UEC_OK) then mret () else
    '(ret, configIndex) ← GetActiveConfig (UsbDevice.busNum_ d) (UsbDevice.devAddr_ d) 0;
    if negb (ret =? UEC_OK) || (configIndex <? 1) then close d else
    let index := Z.to_nat (to_u8 (configIndex - 1)) in
    match UsbDevice.configs_ d !! index with
    | None => close d
    | Some c =>
        each_interface k index c (λ i, _ ← authorize_interface d c i (negb disable); mret (set_authorized (negb disable) i));;
        close d
    end);;
  mret UEC_OK.
Definition ManageGlobalInterface (disable : bool) : M Z := ManageGlobalInterfaceImpl disable.

(** *** Devices by vendor and product *)

(** A failure to open returns at once. *)
Definition manage_device_round (vid pid : Z) (disable : bool) (k : string) : M (option Z) :=
  d ← device_at k;
  match d with
  | None => mret None
  | Some d =>
      if is_hub d then mret None else
      if negb ((UsbDevice.vendorId_ d =? vid) && (UsbDevice.productId_ d =? pid)) then mret None else
      ret ← open d;
      if negb (ret =? UEC_OK) then mret (Some ret) else
      _ ← authorize d (negb disable) "DeviceType";
      close d;; mret None
  end.
Definition ManageDeviceImpl (vid pid : Z) (disable : bool) : M Z :=
  m ← get;
  r ← for_return (manage_device_round vid pid disable) (sorted_keys (devices_ m));
  mret (default UEC_OK r).
Definition ManageDevice (vid pid : Z) (disable : bool) : M Z := ManageDeviceImpl vid pid disable.

Definition in_trust_list (trustList : list UsbDeviceId) (d : UsbDevice.t) : bool :=
  existsb (λ t, (UsbDevice.productId_ d =? productId t) && (UsbDevice.vendorId_ d =? vendorId t)) trustList.
Definition trust_round (trustList : list UsbDeviceId) (ret : Z) (k : string) : M Z :=
  d ← device_at k;
  match d with
  | None => mret ret
  | Some d =>
      if in_trust_list trustList d || bool_decide (trustList = [])
      then ManageDeviceImpl (UsbDevice.vendorId_ d) (UsbDevice.productId_ d) false
      else ManageDeviceImpl (UsbDevice.vendorId_ d) (UsbDevice.productId_ d) true
  end.
(** The result is that of the last round. *)
Definition ExecuteManageDevicePolicy (trustList : list UsbDeviceId) : M Z :=
  m ← get;
  ret ← for_fold (trust_round trustList) UEC_OK (sorted_keys (devices_ m));
  if negb (ret =? UEC_OK) then mret (uec UEC_SERVICE_EXECUTE_POLICY_FAILED) else mret UEC_OK.
Definition ManageDevicePolicy (trustList : list UsbDeviceId) : M Z := ExecuteManageDevicePolicy trustList.

(** *** The types with a fixed table *)

Definition manage_interface (pattern : ClassTriple) (disable : bool) (d : UsbDevice.t) (c : USBConfig.t) (i : UsbInterface.t)
    : M UsbInterface.t :=
  let needReport := negb (bool_decide (UsbInterface.authorized_ i = negb disable)) in
  if negb (interface_matches pattern i) then mret i else
  ret ← authorize_interface d c i (negb disable);
  let i := set_authorized (negb disable) i in
  (if disable && needReport && (ret =? UEC_OK) then ReportManageDeviceInfo "InterfaceType" d (Some i) [] else mret ());;
  mret i.
Definition manage_interface_round (pattern : ClassTriple) (disable : bool) (k : string) (d : UsbDevice.t) : M () :=
  if is_hub d || bool_decide (UsbDevice.authorizeStatus_ d = UsbDevice.DISABLED) then mret () else
  '(ret, configIndex) ← GetActiveConfig (UsbDevice.busNum_ d) (UsbDevice.devAddr_ d) 0;
  if negb (ret =? UEC_OK) then mret () else
  let index := Z.to_nat (to_u8 (configIndex - 1)) in
  match UsbDevice.configs_ d !! index with
  | None => mret ()
  | Some c =>
      each_interface k index c (manage_interface pattern disable d c)
  end.
Definition ManageInterfaceTypeImpl (interfaceType : InterfaceType) (disable : bool) : M Z :=
  match find_type g_typeMap interfaceType with
  | None => mret INVALID
  | Some pattern => each_device (manage_interface_round pattern disable);; mret UEC_OK
  end.

Definition manage_type_round (pattern : ClassTriple) (disable : bool) (k : string) (d : UsbDevice.t) : M () :=
  skip ← managed_as_serial d;
  if (skip : bool) then mret () else
  if negb (device_matches pattern d) then mret () else
  ret ← open d;
  if negb (ret =? UEC_OK) then mret () else
  _ ← authorize d (negb disable) "InterfaceType";
  close d.
Definition ManageDeviceTypeImpl (interfaceType : InterfaceType) (disable : bool) : M Z :=
  match find_type d_typeMap interfaceType with
  | None => mret INVALID
  | Some pattern => each_device (manage_type_round pattern disable);; mret UEC_OK
  end.

(** [map] in the order of its iteration. *)
Definition ExecuteManageDeviceType (disableType : list UsbDeviceType) (disable : bool)
    (map : list (InterfaceType * ClassTriple)) (isDev : bool) : M () :=
  let interfaceTypes := FindMatchingTypes map isDev disableType in
  for_each (λ e,
    let canFind := existsb (λ t, bool_decide (e.1 = t)) interfaceTypes in
    let execDisable := if canFind then disable else negb disable in
    _ ← (if isDev then ManageDeviceTypeImpl e.1 execDisable else ManageInterfaceTypeImpl e.1 execDisable);
    mret ()) map.
Definition ExecuteManageInterfaceType (disableType : list UsbDeviceType) (disable : bool) : M Z :=
  each_device (λ _ d, _ ← open d; mret ());;
  ExecuteManageDeviceType disableType disable d_order true;;
  ExecuteManageDeviceType disableType disable g_order false;;
  each_device (λ _ d, close d);;
  mret UEC_OK.
Definition ManageInterfaceType (disableType : list UsbDeviceType) (disable : bool) : M Z :=
  ExecuteManageInterfaceType disableType disable.

(** *** The permissive types: what is not named gets the opposite *)

Definition usb_type_device_round (types : list UsbDeviceType) (disable : bool) (k : string) (d : UsbDevice.t) : M () :=
  skip ← managed_as_serial d;
  if (skip : bool) then mret () else
  if existsb (λ t, device_matches (pattern_of t) d) types
  then _ ← authorize d (negb disable) "UsbType"; mret ()
  else _ ← authorize d disable "UsbType"; mret ().
Definition ManageUsbTypeDeviceImpl (types : list UsbDeviceType) (disable : bool) : M () :=
  each_device (usb_type_device_round types disable).

Definition manage_usb_type_interface (types : list UsbDeviceType) (disable : bool) (d : UsbDevice.t) (c : USBConfig.t)
    (i : UsbInterface.t) : M UsbInterface.t :=
  if IsUsbInterfaceTypeMatched types i then
    ret ← authorize_interface d c i (negb disable);
    let i := set_authorized (negb disable) i in
    (if disable && (ret =? UEC_OK) then ReportManageDeviceInfo "UsbType" d (Some i) [] else mret ());;
    mret i
  else
    _ ← authorize_interface d c i disable;
    mret (set_authorized disable i).
(** The result of opening the device is only logged. *)
Definition usb_type_interface_round (types : list UsbDeviceType) (disable : bool) (k : string) (d : UsbDevice.t) : M () :=
  if is_hub d || bool_decide (UsbDevice.authorizeStatus_ d = UsbDevice.DISABLED) then mret () else
  _ ← open d;
  '(ret, configIndex) ← GetActiveConfig (UsbDevice.busNum_ d) (UsbDevice.devAddr_ d) 0;
  if negb (ret =? UEC_OK) then close d else
  let index := Z.to_nat (to_u8 (configIndex - 1)) in
  match UsbDevice.configs_ d !! index with
  | None => close d
  | Some c =>
      each_interface k index c (manage_usb_type_interface types disable d c);;
      close d
  end.
Definition ManageUsbTypeInterfaceImpl (types : list UsbDeviceType) (disable : bool) : M () :=
  each_device (usb_type_interface_round types disable).

Definition device_types (l : list UsbDeviceType) : list UsbDeviceType :=
  List.filter (λ t, isDeviceTypeAllMatch t || isDeviceType t) l.
Definition interface_types (l : list UsbDeviceType) : list UsbDeviceType :=
  List.filter (λ t, isDeviceTypeAllMatch t || negb (isDeviceType t)) l.
Definition ExecuteManageUsbType (disableType : list UsbDeviceType) (disable : bool) : M () :=
  ManageUsbTypeDeviceImpl (device_types disableType) disable;;
  ManageUsbTypeInterfaceImpl (interface_types disableType) disable.
Definition ManageUsbType (disableType : list UsbDeviceType) (disable : bool) : M Z :=
  ExecuteManageUsbType disableType disable;; mret UEC_OK.

(** *** What the enterprise device manager answers *)

(** The three output arguments of [GetEdmPolicy]. *)
Record EdmPolicy := { isGlobalDisabled : bool; disableTypes : list UsbDeviceType; trustUsbDeviceIds : list UsbDeviceId }.
Definition with_global (b : bool) (p : EdmPolicy) : EdmPolicy :=
  {| isGlobalDisabled := b; disableTypes := disableTypes p; trustUsbDeviceIds := trustUsbDeviceIds p |}.
Definition add_types (l : list UsbDeviceType) (p : EdmPolicy) : EdmPolicy :=
  {| isGlobalDisabled := isGlobalDisabled p; disableTypes := disableTypes p ++ l; trustUsbDeviceIds := trustUsbDeviceIds p |}.
Definition add_trusted (l : list UsbDeviceId) (p : EdmPolicy) : EdmPolicy :=
  {| isGlobalDisabled := isGlobalDisabled p; disableTypes := disableTypes p; trustUsbDeviceIds := trustUsbDeviceIds p ++ l |}.

(** A request and the reply after its result; [None] when one of them failed. *)
Definition edm_request (code : Z) : M (option R) :=
  '(sendRet, reply) ← on_platform (SendRequest (Z.lor (Z.shiftl 1 EMD_MASK_CODE) code));
  let '(ret, reply) := reply_ReadInt32 reply in
  if negb (bool_decide (ret = Some ERR_OK)) || negb (sendRet =? UEC_OK) then mret None else mret (Some reply).

(** Reading stops at the first failure; the types read so far stay. *)
Fixpoint ReadTypePolicyFromParcel (size : nat) (reply : R) : Z * list UsbDeviceType :=
  match size with
  | O => (UEC_OK, [])
  | S size =>
      let failed := (uec UEC_SERVICE_EDM_SEND_REQUEST_FAILED, []) in
      let '(c, reply) := reply_ReadInt32 reply in
      match c with None => failed | Some c =>
      let '(s, reply) := reply_ReadInt32 reply in
      match s with None => failed | Some s =>
      let '(p, reply) := reply_ReadInt32 reply in
      match p with None => failed | Some p =>
      let '(d, reply) := reply_ReadBool reply in
      match d with None => failed | Some d =>
      let '(a, reply) := reply_ReadBool reply in
      match a with None => failed | Some a =>
        let '(ret, l) := ReadTypePolicyFromParcel size reply in
        (ret, {| baseClass := c; subClass := s; protocol := p; isDeviceType := d; isDeviceTypeAllMatch := a |} :: l)
      end end end end end
  end.
(** [data.ReadInt32()]: 0 when there is nothing to read. *)
Definition reply_int (reply : R) : Z * R := let '(z, reply) := reply_ReadInt32 reply in (default 0 z, reply).
Fixpoint read_device_ids (size : nat) (reply : R) : list UsbDeviceId :=
  match size with
  | O => []
  | S size =>
      let '(v, reply) := reply_int reply in
      let '(p, reply) := reply_int reply in
      {| productId := p; vendorId := v |} :: read_device_ids size reply
  end.

Abbreviation SEND_FAILED := (uec UEC_SERVICE_EDM_SEND_REQUEST_FAILED).
Abbreviation SIZE_EXCEED := (uec UEC_SERVICE_EDM_DEVICE_SIZE_EXCEED).

Definition GetEdmGlobalPolicy (remote : bool) (pol : EdmPolicy) : M (Z * EdmPolicy) :=
  if negb remote then mret (INVALID, pol) else
  reply ← edm_request DISABLE_USB;
  match reply with
  | None => mret (SEND_FAILED, pol)
  | Some reply => mret (UEC_OK, with_global (default (isGlobalDisabled pol) (reply_ReadBool reply).1) pol)
  end.
Definition GetEdmStroageTypePolicy (remote : bool) (pol : EdmPolicy) : M (Z * EdmPolicy) :=
  if negb remote then mret (INVALID, pol) else
  reply ← edm_request USB_STORAGE_DEVICE_ACCESS_POLICY;
  match reply with
  | None => mret (SEND_FAILED, pol)
  | Some reply =>
      if (reply_int reply).1 =? GET_EDM_STORAGE_DISABLE_TYPE
      then mret (UEC_OK, add_types [{| baseClass := STORAGE_BASE_CLASS; subClass := subClass no_type;
             protocol := protocol no_type; isDeviceType := false; isDeviceTypeAllMatch := false |}] pol)
      else mret (UEC_OK, pol)
  end.
(** An empty list is an error here; the result of reading the types is ignored. *)
Definition GetEdmTypePolicy (remote : bool) (pol : EdmPolicy) : M (Z * EdmPolicy) :=
  if negb remote then mret (INVALID, pol) else
  reply ← edm_request USB_DEVICE_ACCESS_POLICY;
  match reply with
  | None => mret (SEND_FAILED, pol)
  | Some reply =>
      let '(size, reply) := reply_ReadInt32 reply in
      match size with
      | None => mret (SEND_FAILED, pol)
      | Some size =>
          if (size <=? 0) || (TRUSTLIST_POLICY_MAX_DEVICES <? size) then mret (SIZE_EXCEED, pol) else
          modify (set_perm false);;
          mret (UEC_OK, add_types (ReadTypePolicyFromParcel (Z.to_nat size) reply).2 pol)
      end
  end.
Definition GetEdmPermTypePolicy (remote : bool) (pol : EdmPolicy) : M (Z * EdmPolicy) :=
  if negb remote then mret (INVALID, pol) else
  reply ← edm_request USB_TYPE_DISALLOW_POLICY;
  match reply with
  | None => mret (SEND_FAILED, pol)
  | Some reply =>
      let '(size, reply) := reply_int reply in
      if (size <? 0) || (TRUSTLIST_POLICY_MAX_DEVICES <? size) then mret (SIZE_EXCEED, pol) else
      (if 0 <? size then modify (set_perm true) else mret ());;
      let '(ret, l) := ReadTypePolicyFromParcel (Z.to_nat size) reply in
      mret (ret, add_types l pol)
  end.
Definition GetEdmTrustListPolicy (remote : bool) (pol : EdmPolicy) : M (Z * EdmPolicy) :=
  if negb remote then mret (INVALID, pol) else
  reply ← edm_request ALLOWED_USB_DEVICES;
  match reply with
  | None => mret (SEND_FAILED, pol)
  | Some reply =>
      let '(size, reply) := reply_int reply in
      if (size <? 0) || (TRUSTLIST_POLICY_MAX_DEVICES <? size) then mret (SIZE_EXCEED, pol) else
      mret (UEC_OK, add_trusted (read_device_ids (Z.to_nat size) reply) pol)
  end.

(** The callback of the load runs the strategy later: [OnLoadSystemAbilitySuccess]. *)
Definition LoadEdmService : M () :=
  sm ← on_platform has_SystemAbilityManager;
  if negb sm then mret () else
  _ ← on_platform (LoadSystemAbility EDM_SYSTEM_ABILITY_ID); mret ().

(** The requests in turn, up to the first that fails. *)
Fixpoint edm_queries (l : list (EdmPolicy → M (Z * EdmPolicy))) (pol : EdmPolicy) : M (Z * EdmPolicy) :=
  match l with
  | [] => mret (UEC_OK, pol)
  | q :: l => '(ret, pol) ← q pol; if negb (ret =? UEC_OK) then mret (ret, pol) else edm_queries l pol
  end.
Definition GetEdmPolicy (pol : EdmPolicy) : M (Z * EdmPolicy) :=
  sm ← on_platform has_SystemAbilityManager;
  if negb sm then mret (uec UEC_SERVICE_GET_SYSTEM_ABILITY_MANAGER_FAILED, pol) else
  remote ← on_platform (CheckSystemAbility EDM_SYSTEM_ABILITY_ID);
  if negb remote then LoadEdmService;; mret (uec UEC_SERVICE_GET_EDM_SERVICE_FAILED, pol) else
  edm_queries [GetEdmGlobalPolicy remote; GetEdmStroageTypePolicy remote; GetEdmTypePolicy remote;
               GetEdmPermTypePolicy remote; GetEdmTrustListPolicy remote] pol.

(** The loop that waits for the device manager; [None] when [fuel] attempts were
    not enough. *)
Fixpoint policy_loop (fuel : nat) (startTime : Z) (pol : EdmPolicy) : M (option (Z * EdmPolicy)) :=
  match fuel with
  | O => mret None
  | S fuel =>
      '(ret, pol) ← GetEdmPolicy pol;
      if ret =? UEC_OK then mret (Some (UEC_OK, pol))
      else if ret =? EDM_SA_TIME_OUT_CODE then
        currentTime ← on_platform steady_clock_ms;
        if EDM_SA_MAX_TIME_OUT <=? currentTime - startTime
        then mret (Some (uec UEC_SERVICE_EDM_SA_TIME_OUT_FAILED, pol))
        else policy_loop fuel startTime pol
      else mret (Some (uec UEC_SERVICE_PREPARE_EDM_SA_FAILED, pol))
  end.
(** One attempt more than intervals fit into the time allowed. *)
Definition POLICY_ATTEMPTS : nat := Z.to_nat (EDM_SA_MAX_TIME_OUT / MANAGE_INTERFACE_INTERVAL + 1).
Definition GetUsbPolicy (pol : EdmPolicy) : M (option (Z * EdmPolicy)) :=
  startTime ← on_platform steady_clock_ms;
  policy_loop POLICY_ATTEMPTS startTime pol.

(** *** The strategy *)

(** The loop of [ManageUsbSerialDevice]. *)
Definition serial_round (disable : bool) (s : UsbDev) : M () :=
  _ ← UsbDeviceAuthorize (busNum s) (devAddr s) (negb disable) "UsbSerialType"; mret ().
Definition authorize_serial_devices (disable : bool) : M () :=
  m ← get; for_each (serial_round disable) (serialDevices_ m).

Definition run_policy (pol : EdmPolicy) : M () :=
  if isGlobalDisabled pol then _ ← ManageGlobalInterfaceImpl true; mret () else
  off ← IsUsbSerialDisable;
  (if (off : bool) then authorize_serial_devices true else mret ());;
  if negb (bool_decide (disableTypes pol = [])) then
    m ← get;
    _ ← (if isPermTypePolicy_ m then ManageUsbType (disableTypes pol) true
         else ExecuteManageInterfaceType (disableTypes pol) true);
    mret ()
  else if bool_decide (trustUsbDeviceIds pol = []) then mret ()
  else _ ← ExecuteManageDevicePolicy (trustUsbDeviceIds pol); mret ().

(** [None] when the loop of [GetUsbPolicy] ran out of fuel. *)
Definition ExecuteStrategy : M (option ()) :=
  enabled ← IsEdmEnabled;
  if negb enabled then mret (Some ()) else
  r ← GetUsbPolicy {| isGlobalDisabled := false; disableTypes := []; trustUsbDeviceIds := [] |};
  match r with
  | None => mret None
  | Some (ret, pol) =>
      if (ret =? uec UEC_SERVICE_EDM_SA_TIME_OUT_FAILED) || (ret =? uec UEC_SERVICE_PREPARE_EDM_SA_FAILED)
      then mret (Some ()) else run_policy pol;; mret (Some ())
  end.
Definition OnLoadSystemAbilitySuccess : M (option ()) := ExecuteStrategy.

Definition ManageUsbSerialDevice (disable : bool) : M (option Z) :=
  authorize_serial_devices disable;;
  if negb disable then r ← ExecuteStrategy; mret ((λ _, UEC_OK) <$> r) else mret (Some UEC_OK).

(** *** Arrivals and departures *)

(** Up to the release of the lock. *)
Definition AddDevice_insert (d : UsbDevice.t) : M () :=
  modify (λ m, set_devices (<[key_of d := set_status UsbDevice.NEW_ARRIVED d]> (devices_ m)) m);;
  AddUsbSerialDevice d.
(** From the second lock on. *)
Definition AddDevice_publish (name : string) : M bool :=
  d ← device_at name;
  match d with
  | None => mret false
  | Some d =>
      if bool_decide (UsbDevice.authorizeStatus_ d = UsbDevice.DISABLED) then mret true else
      alter_device name (set_status UsbDevice.ENABLED);;
      _ ← PublishCommonEvent USB_DEVICE_ATTACHED (set_status UsbDevice.ENABLED d);
      mret true
  end.
(** [dev] is [None] for a null pointer. *)
Definition AddDevice (dev : option UsbDevice.t) : M (option bool) :=
  match dev with
  | None => mret (Some false)
  | Some d =>
      AddDevice_insert d;;
      r ← ExecuteStrategy;
      match r with
      | None => mret None
      | Some () => ok ← AddDevice_publish (key_of d); mret (Some ok)
      end
  end.

(** The first serial device at the address goes. *)
Fixpoint erase_first (p : UsbDev → bool) (l : list UsbDev) : list UsbDev :=
  match l with [] => [] | s :: l => if p s then l else s :: erase_first p l end.
Definition DelDevice (bus devNum : Z) : M bool :=
  let name := device_key bus devNum in
  d ← device_at name;
  match d with
  | None => mret false
  | Some d =>
      (if bool_decide (UsbDevice.authorizeStatus_ d = UsbDevice.ENABLED)
       then _ ← PublishCommonEvent USB_DEVICE_DETACHED d; mret () else mret ());;
      modify (λ m, set_serial_devices (erase_first (at_address d) (serialDevices_ m)) m);;
      modify (λ m, set_devices (delete name (devices_ m)) m);;
      mret true
  end.
End Policy.
