(* ===== verification/UsbHostDescriptor.v ===== *)
(** * The host manager: reading an attached device
    (services/native/src/usb_host_manager.cpp)

    From the raw descriptors of the host service, through the parser, to a device
    with its strings. *)
From S2P Require Import Prelude UsbErrors Platform UsbDevice UsbDescriptorParser UsbInterfaceType UsbHostManager.

Definition HALF : Z := 2.
Definition BOM_BYTE_COUNT : nat := 2.
Definition CURSOR_INIT : Z := 18.
Definition DESCRIPTOR_TYPE_STRING : Z := 3.
Definition DESCRIPTOR_VALUE_START_OFFSET : nat := 2.
Definition RETRY_NUM : nat := 10.
Definition USB_DEV_FS_PATH : string := "/dev/bus/usb".
(** What a device without a string shows. *)
Definition NO_STRING : string := " ".

Section Descriptors.
Context {W R SM : Type} `{!HostPlatform W R, !ErrCodeBase}.
(** Whether [char] is signed: a byte then never equals [0xFF]. *)
Context (char_signed : bool).
Abbreviation M := (state (UsbHostManager W SM)).
Abbreviation INVALID := (uec UEC_SERVICE_INVALID_VALUE).

(** *** Strings *)

Definition has_bom (bytes : list Z) : bool :=
  negb char_signed && match bytes with b0 :: b1 :: _ => (b0 =? 0xFF) && (b1 =? 0xFE) | _ => false end.
(** The buffer of [iconv] holds four bytes for every two of the input. *)
Definition Utf16leToUtf8 (utf16leBytes : list Z) : M string :=
  let length := Z.of_nat (length utf16leBytes) in
  if negb (length `mod` HALF =? 0) then mret NO_STRING else
  let utf16leBytes := if has_bom utf16leBytes then drop BOM_BYTE_COUNT utf16leBytes else utf16leBytes in
  if bool_decide (utf16leBytes = []) then mret NO_STRING else
  opened ← on_platform iconv_open;
  if negb opened then mret NO_STRING else
  result ← on_platform (iconv utf16leBytes);
  match result with None => mret NO_STRING | Some str => mret (c_str str) end.

Definition GetDevStringValFromIdx (busNum devAddr idx : Z) : M string :=
  if idx =? 0 then mret NO_STRING else
  m ← get;
  if negb (usbHostInterface_ m) then mret NO_STRING else
  '(ret, strV) ← on_platform (hdi_GetStringDescriptor {| busNum := busNum; devAddr := devAddr |} idx []);
  if negb (ret =? UEC_OK) then mret NO_STRING else
  match strV with
  | _ :: ty :: rest => if negb (ty =? DESCRIPTOR_TYPE_STRING) then mret NO_STRING else Utf16leToUtf8 rest
  | _ => mret NO_STRING
  end.

Definition fill_interface (busNum devAddr : Z) (i : UsbInterface.t) : M UsbInterface.t :=
  s ← GetDevStringValFromIdx busNum devAddr (UsbInterface.iInterface_ i); mret (set_interface_name s i).
Definition fill_config (busNum devAddr : Z) (c : USBConfig.t) : M USBConfig.t :=
  s ← GetDevStringValFromIdx busNum devAddr (USBConfig.iConfiguration_ c);
  l ← mapM (fill_interface busNum devAddr) (USBConfig.interfaces_ c);
  mret (USBConfig.set_interfaces l (set_config_name s c)).
(** The device with its strings; the code returns [UEC_OK] always. *)
Definition FillDevStrings (d : UsbDevice.t) : M (Z * UsbDevice.t) :=
  let busNum := UsbDevice.busNum_ d in
  let devAddr := UsbDevice.devAddr_ d in
  manufacturer ← GetDevStringValFromIdx busNum devAddr (UsbDevice.iManufacturer_ d);
  product ← GetDevStringValFromIdx busNum devAddr (UsbDevice.iProduct_ d);
  serial ← GetDevStringValFromIdx busNum devAddr (UsbDevice.iSerialNumber_ d);
  configs ← mapM (fill_config busNum devAddr) (UsbDevice.configs_ d);
  mret (UEC_OK, set_configs configs (set_strings manufacturer product (BcdToString (UsbDevice.bcdUSB_ d)) serial d)).

(** *** The device *)

Definition dev_path (busNum devAddr : Z) : string :=
  USB_DEV_FS_PATH +:+ "/" +:+ zero_fill 3 (pretty busNum) +:+ "/" +:+ zero_fill 3 (pretty devAddr).
(** The path has at most 20 characters: [sprintf_s] succeeds. *)
Definition CheckDevPathIsExist (busNum devAddr : Z) : M Z :=
  ret ← on_platform (access (dev_path busNum devAddr) false);
  if negb (ret =? UEC_OK) then mret (uec UEC_SERVICE_INNER_ERR) else
  ret ← on_platform (access (dev_path busNum devAddr) true);
  if negb (ret =? UEC_OK) then mret (uec UEC_SERVICE_INNER_ERR) else mret UEC_OK.
Fixpoint wait_path (n : nat) (busNum devAddr : Z) : M () :=
  match n with
  | O => mret ()
  | S n => ret ← CheckDevPathIsExist busNum devAddr; if ret =? UEC_OK then mret () else wait_path n busNum devAddr
  end.

(** The code, the bytes and the device; or what the parser ended with. *)
Definition GetDeviceInfoDescriptor (busNum devAddr : Z) (descriptor : list Z) (dev : UsbDevice.t)
    : M (outcome (Z * list Z * UsbDevice.t)) :=
  '(ret, descriptor) ← GetRawDescriptor busNum devAddr descriptor;
  if negb (ret =? UEC_OK) then mret (Done (ret, descriptor, dev)) else
  let length := to_u32 (Z.of_nat (length descriptor)) in
  if bool_decide (descriptor = []) || (length =? 0) then mret (Done (INVALID, descriptor, dev)) else
  let dev := set_address busNum devAddr (device_key busNum devAddr) dev in
  match UsbDescriptorParser.ParseDeviceDescriptor (Some descriptor) length dev with
  | Done (ret, dev) => mret (Done (ret, descriptor, dev))
  | Fault => mret Fault
  | OutOfFuel => mret OutOfFuel
  end.

Definition GetConfigDescriptor (dev : UsbDevice.t) (descriptor : list Z) : M (outcome (Z * UsbDevice.t)) :=
  match UsbDescriptorParser.ParseConfigDescriptors descriptor CURSOR_INIT [] with
  | Done (ret, configs) =>
      if negb (ret =? UEC_OK) then mret (Done (ret, dev)) else
      '(ret, dev) ← FillDevStrings (set_configs configs dev); mret (Done (ret, dev))
  | Fault => mret Fault
  | OutOfFuel => mret OutOfFuel
  end.

Definition GetDeviceInfo (busNum devAddr : Z) (dev : UsbDevice.t) : M (outcome (Z * UsbDevice.t)) :=
  wait_path RETRY_NUM busNum devAddr;;
  ret ← OpenDevice busNum devAddr;
  if negb (ret =? UEC_OK) then mret (Done (ret, dev)) else
  r ← GetDeviceInfoDescriptor busNum devAddr [] dev;
  match r with
  | Fault => mret Fault
  | OutOfFuel => mret OutOfFuel
  | Done (ret, descriptor, dev) =>
      if negb (ret =? UEC_OK) then
        res ← Close busNum devAddr;
        if negb (res =? UEC_OK) then mret (Done (res, dev)) else mret (Done (ret, dev))
      else
        r ← GetConfigDescriptor dev descriptor;
        match r with
        | Fault => mret Fault
        | OutOfFuel => mret OutOfFuel
        | Done (res, dev) =>
            ret ← Close busNum devAddr;
            if negb (ret =? UEC_OK) then mret (Done (ret, dev)) else mret (Done (res, dev))
        end
  end.
End Descriptors.
