(* ===== verification/UsbHostProofs.v ===== *)
(** * The host manager: lemmas

    The abstract view of the table, its statuses and the broadcasts, with the
    steps policies may take on it, and the simulation of every request of
    [UsbHostPolicy] by those steps. *)
From S2P Require Import Prelude UsbErrors Platform UsbDevice UsbInterfaceType UsbHostManager UsbHostPolicy.

(** ** The abstract view *)

Abbreviation StatusMap := (gmap string UsbDevice.AuthorizeStatus).
Abbreviation Event := (HostEvent * string)%type.
Abbreviation View := (StatusMap * list Event)%type.   (* events newest first *)

(** What a policy does to one device: a new one is blocked unseen, a visible one
    is blocked with a broadcast, a blocked one becomes visible with one. *)
Inductive policy_step : View → View → Prop :=
  | step_block k s t : s !! k = Some UsbDevice.NEW_ARRIVED → policy_step (s, t) (<[k := UsbDevice.DISABLED]> s, t)
  | step_disable k s t : s !! k = Some UsbDevice.ENABLED →
      policy_step (s, t) (<[k := UsbDevice.DISABLED]> s, (USB_DEVICE_DETACHED, k) :: t)
  | step_enable k s t : s !! k = Some UsbDevice.DISABLED →
      policy_step (s, t) (<[k := UsbDevice.ENABLED]> s, (USB_DEVICE_ATTACHED, k) :: t).

Definition event_of (e : HostEffect) : option Event :=
  match e with Published ev _ k _ => Some (ev, k) | _ => None end.

Create HintDb sim discriminated.

Section Simulation.
Context {W R SM : Type} `{!HostPlatform W R, !PortList SM, !ErrCodeBase, !CJson, !TableOrder}.
Abbreviation HM := (UsbHostManager W SM).
Abbreviation M := (state HM).
Implicit Types m : HM.

Definition statuses m : StatusMap := UsbDevice.authorizeStatus_ <$> devices_ m.
Definition events m : list Event := omap event_of (trace_ m).
Definition view m : View := (statuses m, events m).
(** Devices are stored under their own address. *)
Definition wf m : Prop := map_Forall (λ k d, k = key_of d) (devices_ m).

(** Every run of [f] is a sequence of policy steps. *)
Definition Sim {A} (f : M A) : Prop := ∀ m, wf m → wf (f m).2 ∧ rtc policy_step (view m) (view (f m).2).

Lemma sim_ret {A} (a : A) : Sim (mret a).
Proof. by split. Qed.
Lemma sim_bind {A B} (f : M A) (g : A → M B) : Sim f → (∀ a, Sim (g a)) → Sim (f ≫= g).
Proof.
  intros Hf Hg m Hm. rewrite bind_run. destruct (Hf m Hm) as [E1 E2]. destruct (Hg (f m).1 _ E1) as [E3 E4].
  split; [done|]. by etrans.
Qed.
Lemma sim_get {A} (g : HM → M A) : (∀ m0, Sim (g m0)) → Sim (get ≫= g).
Proof. intros Hg. apply sim_bind; [by split|done]. Qed.
(** A step that leaves the devices, the broadcasts and the pointers. *)
Definition core m := (usbDeviceInterface_ m, usbHostInterface_ m, serialDevices_ m).
Definition quiet m m' : Prop := devices_ m' = devices_ m ∧ events m' = events m ∧ core m' = core m.
Definition Quiet {A} (f : M A) : Prop := ∀ m, quiet m (f m).2.
Lemma quiet_trans m1 m2 m3 : quiet m1 m2 → quiet m2 m3 → quiet m1 m3.
Proof. unfold quiet. intros (-> & -> & ->) (-> & -> & ->). done. Qed.
Lemma quiet_ret {A} (a : A) : Quiet (mret a).
Proof. by repeat split. Qed.
Lemma quiet_bind {A B} (f : M A) (g : A → M B) : Quiet f → (∀ a, Quiet (g a)) → Quiet (f ≫= g).
Proof. intros Hf Hg m. rewrite bind_run. eapply quiet_trans; [apply Hf|apply Hg]. Qed.
Lemma quiet_get {A} (g : HM → M A) : (∀ m0, Quiet (g m0)) → Quiet (get ≫= g).
Proof. intros Hg. apply quiet_bind; [by repeat split|done]. Qed.
Lemma quiet_platform {A} (f : state W A) : Quiet (on_platform f).
Proof. intros []. unfold on_platform, zoom. by destruct (f _). Qed.
Lemma quiet_emit e : event_of e = None → Quiet (emit e).
Proof. intros He []. repeat split. unfold events. cbn. by rewrite He. Qed.
Lemma quiet_host {A} (a : A) (f : state W A) : Quiet (on_host a f).
Proof. apply quiet_get. intros m. destruct (negb _); [apply quiet_ret|apply quiet_platform]. Qed.
Lemma quiet_active d : Quiet (GetActiveInterfacesJson d).
Proof. apply quiet_bind; [apply quiet_host|]. intros [ret i].
  cbv zeta. match goal with |- Quiet (match ?x with _ => _ end) => destruct x end; apply quiet_ret. Qed.
Lemma quiet_report op d i pre : Quiet (ReportManageDeviceInfo op d i pre).
Proof.
  unfold ReportManageDeviceInfo. destruct (match i with Some _ => _ | None => _ end) as [[c s] p].
  apply quiet_bind; [apply quiet_platform|]. intros t. by apply quiet_emit.
Qed.
Lemma sim_frame {A} (f : M A) : (∀ m, devices_ (f m).2 = devices_ m ∧ events (f m).2 = events m) → Sim f.
Proof.
  intros Hf m Hm. destruct (Hf m) as (E1 & E2). unfold wf, view, statuses. rewrite E1, E2. done.
Qed.
Lemma sim_quiet {A} (f : M A) : Quiet f → Sim f.
Proof. intros Hf. apply sim_frame. intros m. split; apply Hf. Qed.
Lemma sim_gets {A} (f : HM → A) : Sim (gets f).
Proof. apply sim_quiet. by repeat split. Qed.
Lemma sim_platform {A} (f : state W A) : Sim (on_platform f).
Proof. apply sim_quiet, quiet_platform. Qed.
Lemma sim_host {A} (a : A) (f : state W A) : Sim (on_host a f).
Proof. apply sim_quiet, quiet_host. Qed.
Lemma sim_emit e : event_of e = None → Sim (emit e).
Proof. intros He. by apply sim_quiet, quiet_emit. Qed.
Lemma sim_if {A} (b : bool) (f g : M A) : Sim f → Sim g → Sim (if b then f else g).
Proof. by destruct b. Qed.
Lemma sim_for_each {A} (body : A → M ()) l : (∀ x, Sim (body x)) → Sim (for_each body l).
Proof. intros Hb. induction l; cbn [for_each]; [apply sim_ret|]. by apply sim_bind. Qed.
Lemma sim_for_return {A X} (body : A → M (option X)) l : (∀ x, Sim (body x)) → Sim (for_return body l).
Proof.
  intros Hb. induction l; cbn [for_return]; [apply sim_ret|]. apply sim_bind; [done|]. intros []; [apply sim_ret|done].
Qed.
Lemma sim_for_fold {A B} (body : A → B → M A) l : (∀ a x, Sim (body a x)) → ∀ a, Sim (for_fold body a l).
Proof. intros Hb. induction l; intros a'; cbn [for_fold]; [apply sim_ret|]. by apply sim_bind. Qed.
Lemma sim_mapM {A B} (body : A → M B) l : (∀ x, Sim (body x)) → Sim (mapM body l).
Proof.
  intros Hb. induction l as [|x l IH]; cbn [mapM]; [apply sim_ret|].
  apply sim_bind; [done|]. intros y. apply sim_bind; [done|]. intros z. apply sim_ret.
Qed.
(** Changing a device without its address and status. *)
Lemma sim_alter k f : (∀ d, key_of (f d) = key_of d ∧ UsbDevice.authorizeStatus_ (f d) = UsbDevice.authorizeStatus_ d) →
  Sim (alter_device k f).
Proof.
  intros Hf m Hm. unfold alter_device, modify. cbn [snd]. split.
  - intros k' d. destruct m as [ds]; cbn. rewrite lookup_alter_Some. intros [(<- & d' & Hd & ->)|[_ Hd]].
    + rewrite (proj1 (Hf d')). by apply Hm.
    + by apply Hm.
  - assert (view (set_devices (alter f k (devices_ m)) m) = view m) as ->; [|done].
    destruct m as [ds]. unfold view, statuses, events. cbn. f_equal. apply map_eq. intros k'.
    rewrite !lookup_fmap. destruct (decide (k' = k)) as [->|Hne].
    + rewrite lookup_alter_eq. destruct (ds !! k); cbn; [|done]. by rewrite (proj2 (Hf t)).
    + by rewrite lookup_alter_ne.
Qed.
Lemma sim_each_device (body : string → UsbDevice.t → M ()) : (∀ k d, Sim (body k d)) → Sim (each_device body).
Proof.
  intros Hb. apply sim_get. intros m. apply sim_for_each. intros k. apply sim_bind; [apply sim_gets|].
  intros []; [apply Hb|apply sim_ret].
Qed.
Lemma sim_each_interface k i c (body : UsbInterface.t → M UsbInterface.t) : (∀ x, Sim (body x)) → Sim (each_interface k i c body).
Proof.
  intros Hb. apply sim_bind; [by apply sim_mapM|]. intros l. apply sim_alter. intros []. done.
Qed.
End Simulation.
#[export] Hint Resolve sim_ret sim_gets sim_platform sim_host sim_each_device sim_each_interface : sim.

(** Follow the structure of a request. *)
Ltac sim := repeat match goal with
  | |- Sim (get ≫= _) => apply sim_get; intros ?
  | |- Sim (_ ≫= _) => apply sim_bind
  | |- Sim (if _ then _ else _) => apply sim_if
  | |- Sim (let '(_, _) := ?p in _) => destruct p as [? ?]
  | |- Sim (match ?p with (_, _) => _ end) => destruct p as [? ?]
  | |- Sim (match ?o with Some _ => _ | None => _ end) => destruct o
  | |- Sim (match ?o with USB_DEVICE_ATTACHED => _ | USB_DEVICE_DETACHED => _ end) => destruct o
  | |- Sim (for_each _ _) => apply sim_for_each; intros ?
  | |- Sim (for_return _ _) => apply sim_for_return; intros ?
  | |- Sim (for_fold _ _ _) => apply sim_for_fold; intros ? ?
  | |- Sim (each_device _) => apply sim_each_device; intros ? ?
  | |- Sim (each_interface _ _ _ _) => apply sim_each_interface; intros ?
  | |- Sim (emit _) => by apply sim_emit
  | |- ∀ _, _ => intros ?
  | |- Sim _ => solve [auto with sim]
  | |- Sim ?f => progress (cbv zeta beta)
  end.

Section Requests.
Context {W R SM : Type} `{!HostPlatform W R, !PortList SM, !ErrCodeBase, !CJson, !TableOrder}.
Abbreviation HM := (UsbHostManager W SM).
Abbreviation M := (state HM).
Implicit Types m : HM.

Lemma on_platform_fst {A} (f : state W A) m : (on_platform f m).1 = (f (platform_ m)).1.
Proof. unfold on_platform, zoom. by destruct (f _). Qed.
(** A broadcast adds its event and nothing else. *)
Lemma publish_run e d m : let m' := (PublishCommonEvent e d m).2 in
  devices_ m' = devices_ m ∧ events m' = (e, key_of d) :: events m ∧ core m' = core m.
Proof.
  cbv zeta. unfold PublishCommonEvent. rewrite !bind_run. cbv zeta.
  match goal with |- context [on_platform _ (emit _ (ReportHostPlugSysEvent e d (?f m).2).2).2] => set (notify := f) end.
  assert (Quiet notify) as Hn.
  { unfold notify. destruct (UsbDevice.baseClass_ d =? BASE_CLASS_HUB); [apply quiet_ret|].
    destruct (IsAudioDevice d); [apply quiet_ret|]. destruct e; by apply quiet_emit. }
  assert (Quiet (ReportHostPlugSysEvent e d : M ())) as Hr.
  { unfold ReportHostPlugSysEvent. destruct (GetDeviceDescription _). destruct (if has_flag _ _ then _ else _).
    by apply quiet_emit. }
  pose proof (quiet_trans _ _ _ (Hn m) (Hr (notify m).2)) as (<- & <- & <-).
  set (m1 := (ReportHostPlugSysEvent e d (notify m).2).2).
  destruct (quiet_platform CommonEventManager_PublishCommonEvent (emit (Published e (UsbDevice.baseClass_ d =? BASE_CLASS_HUB)
    (key_of d) (c_str (UsbDevice.getJsonString d))) m1).2) as (-> & -> & ->).
  by destruct m1.
Qed.

(** The status a request for authorisation asks for. *)
Definition authorized_status (b : bool) (st : UsbDevice.AuthorizeStatus) : UsbDevice.AuthorizeStatus :=
  if b then (if bool_decide (st = UsbDevice.DISABLED) then UsbDevice.ENABLED else st) else UsbDevice.DISABLED.
Lemma authorized_status_run b st (disabled := bool_decide (st = UsbDevice.DISABLED)) :
  if (b && negb disabled) || (negb b && disabled) then authorized_status b st = st
  else authorized_status b st ≠ st ∧ (if b then UsbDevice.ENABLED else UsbDevice.DISABLED) = authorized_status b st.
Proof. by destruct b, st. Qed.
Definition status_event (b : bool) (st : UsbDevice.AuthorizeStatus) (k : string) : list Event :=
  if bool_decide (st = UsbDevice.NEW_ARRIVED) then []
  else [(if b then USB_DEVICE_ATTACHED else USB_DEVICE_DETACHED, k)].
Lemma set_status_id d : set_status (UsbDevice.authorizeStatus_ d) d = d.
Proof. by destruct d. Qed.
Lemma set_status_key st d : key_of (set_status st d) = key_of d.
Proof. by destruct d. Qed.
Lemma set_status_status st d : UsbDevice.authorizeStatus_ (set_status st d) = st.
Proof. by destruct d. Qed.

(** A request for authorisation changes nothing, because it need not, the service
    is not there, or it refuses; or it changes the status of its device, with the
    broadcast. *)
Lemma authorize_run bus addr b op m : wf m →
  let k := device_key bus addr in let m' := (UsbDeviceAuthorize bus addr b op m).2 in
  (quiet m m' ∧ ∀ d, usbDeviceInterface_ m = true → devices_ m !! k = Some d →
     authorized_status b (UsbDevice.authorizeStatus_ d) = UsbDevice.authorizeStatus_ d ∨
     ∃ w, (hdi_UsbDeviceAuthorize bus addr b w).1 ≠ UEC_OK) ∨
  (∃ d, devices_ m !! k = Some d ∧ authorized_status b (UsbDevice.authorizeStatus_ d) ≠ UsbDevice.authorizeStatus_ d ∧
    devices_ m' = alter (set_status (authorized_status b (UsbDevice.authorizeStatus_ d))) k (devices_ m) ∧
    events m' = status_event b (UsbDevice.authorizeStatus_ d) k ++ events m ∧ core m' = core m).
Proof.
  intros Hm k. cbv zeta. unfold UsbDeviceAuthorize. rewrite bind_run. cbn [get fst snd]. cbv zeta. fold k.
  destruct (usbDeviceInterface_ m); cbn [negb]; [|by left; split]. destruct (devices_ m !! k) as [d|] eqn:Hd; [|by left; split].
  set (st := UsbDevice.authorizeStatus_ d). pose proof (authorized_status_run b st) as Ha. cbv zeta in Ha. destruct ((b && _) || _);
    [left; split; [done|]; intros d' _ [= <-]; by left|].
  set (pre := if negb b then _ else _ : M _). assert (Quiet pre) as Hp.
  { unfold pre. destruct (negb b); [apply quiet_active|apply quiet_ret]. }
  rewrite bind_run, bind_run.
  set (m1 := (pre m).2). set (l := (pre m).1). assert (quiet m m1) as Hq1 by apply Hp.
  set (auth := on_platform (hdi_UsbDeviceAuthorize bus addr b) m1).
  assert (quiet m auth.2) as Hq2 by (eapply quiet_trans; [exact Hq1|apply quiet_platform]).
  destruct (auth.1 =? UEC_OK) eqn:Hauth; cbn [negb].
  2: { left. split; [done|]. intros d' _ [= <-]. right. exists (platform_ m1). rewrite <- on_platform_fst. by apply Z.eqb_neq. }
  right. exists d. split; [done|].
  rewrite bind_run. set (rep := if negb b then _ else _ : M ()). assert (Quiet rep) as Hr.
  { unfold rep. destruct (negb b); [apply quiet_report|apply quiet_ret]. }
  assert (quiet m (rep auth.2).2) as Hq3 by (eapply quiet_trans; [exact Hq2|apply Hr]).
  rewrite !bind_run. set (pub := if bool_decide _ then _ else _ : M ()).
  assert (devices_ (pub (rep auth.2).2).2 = devices_ m ∧ events (pub (rep auth.2).2).2 = status_event b st k ++ events m ∧
    core (pub (rep auth.2).2).2 = core m) as (E1 & E2 & E3).
  { unfold pub, status_event. destruct Hq3 as (E1 & E2 & E3).
    destruct (decide (st = UsbDevice.NEW_ARRIVED)) as [Hst|Hst]; [by rewrite !(bool_decide_true _ Hst)|rewrite !(bool_decide_false _ Hst)].
    rewrite bind_run. cbn [snd]. rewrite ret_run. cbn [snd].
    destruct (publish_run (if b then USB_DEVICE_ATTACHED else USB_DEVICE_DETACHED) d (rep auth.2).2) as (-> & -> & ->).
    rewrite E1, E2, E3, <- (Hm k d Hd). done. }
  clear Hq1 Hq2 Hq3 Hp Hr. clearbody pub rep auth m1. revert E1 E2 E3. generalize (pub (rep auth.2).2).2. intros m4.
  unfold alter_device, modify. cbn [fst snd]. rewrite ret_run. cbn [snd]. intros E1 E2 E3.
  split; [|split; [|split]].
  - exact (proj1 Ha).
  - fold st. rewrite (proj2 Ha), <- E1. by destruct m4.
  - fold st. etrans; [|exact E2]. by destruct m4.
  - etrans; [|exact E3]. by destruct m4.
Qed.

(** The table and the statuses with one status changed. *)
Lemma alter_status k st d m (ds := alter (set_status st) k (devices_ m)) : wf m → devices_ m !! k = Some d →
  map_Forall (λ k d, k = key_of d) ds ∧ UsbDevice.authorizeStatus_ <$> ds = <[k := st]> (statuses m) ∧
  statuses m !! k = Some (UsbDevice.authorizeStatus_ d).
Proof.
  intros Hm Hd. unfold ds, statuses. split; [|split; [|by rewrite lookup_fmap, Hd]].
  - intros k' d'. rewrite lookup_alter_Some. intros [(<- & d0 & Hd0 & ->)|[_ Hd']].
    + rewrite set_status_key. by apply Hm.
    + by apply Hm.
  - apply map_eq. intros k'. rewrite lookup_fmap. destruct (decide (k' = k)) as [->|Hk].
    + rewrite lookup_alter_eq, lookup_insert_eq, Hd. cbn. by rewrite set_status_status.
    + by rewrite lookup_alter_ne, lookup_insert_ne, lookup_fmap by done.
Qed.

Lemma sim_authorize bus addr b op : Sim (UsbDeviceAuthorize bus addr b op : M _).
Proof.
  intros m Hm. destruct (authorize_run bus addr b op m Hm) as [[(E1 & E2 & _) _]|(d & Hd & Hne & E1 & E2 & _)].
  - unfold wf, view, statuses. rewrite E1, E2. done.
  - destruct (alter_status _ (authorized_status b (UsbDevice.authorizeStatus_ d)) d m Hm Hd) as (Hw & Hs & Hk).
    unfold wf, view. unfold statuses at 2. rewrite E1, E2, Hs. split; [done|]. apply rtc_once.
    revert Hne Hk. unfold authorized_status, status_event.
    destruct b, (UsbDevice.authorizeStatus_ d); cbn; try done; intros _ Hk; by constructor.
Qed.
Hint Resolve sim_authorize : sim.
Lemma sim_active d : Sim (GetActiveInterfacesJson d : M _).
Proof. apply sim_quiet, quiet_active. Qed.
Lemma sim_report op d i pre : Sim (ReportManageDeviceInfo op d i pre : M _).
Proof. apply sim_quiet, quiet_report. Qed.
Lemma sim_active_config bus addr i : Sim (GetActiveConfig bus addr i : M _).
Proof. apply sim_host. Qed.
Lemma sim_open d : Sim (open d : M _).
Proof. apply sim_host. Qed.
Lemma sim_close d : Sim (close d : M _).
Proof. unfold close, Close. sim. Qed.
Hint Resolve sim_active sim_report sim_active_config sim_open sim_close : sim.
Lemma sim_authorize_device d b op : Sim (authorize d b op : M _).
Proof. unfold authorize. auto with sim. Qed.
Lemma sim_authorize_interface d c i b : Sim (authorize_interface d c i b : M _).
Proof. unfold authorize_interface, UsbInterfaceAuthorize, ManageInterface. sim. Qed.
Lemma sim_edm_enabled : Sim (IsEdmEnabled : M _).
Proof. unfold IsEdmEnabled. sim. Qed.
Lemma sim_serial_disable : Sim (IsUsbSerialDisable : M _).
Proof. unfold IsUsbSerialDisable. sim. apply sim_edm_enabled. Qed.
Hint Resolve sim_authorize_device sim_authorize_interface sim_edm_enabled sim_serial_disable : sim.
Lemma sim_managed d : Sim (managed_as_serial d : M _).
Proof. unfold managed_as_serial, IsUsbSerialDevice. sim. Qed.
Hint Resolve sim_managed : sim.

Lemma sim_global disable : Sim (ManageGlobalInterfaceImpl disable : M _).
Proof. unfold ManageGlobalInterfaceImpl. sim. Qed.
Lemma sim_manage_device vid pid disable : Sim (ManageDeviceImpl vid pid disable : M _).
Proof. unfold ManageDeviceImpl, manage_device_round, device_at. sim. Qed.
Hint Resolve sim_global sim_manage_device : sim.
Lemma sim_device_policy l : Sim (ExecuteManageDevicePolicy l : M _).
Proof. unfold ExecuteManageDevicePolicy, trust_round, device_at. sim. Qed.
Lemma sim_device_type t disable : Sim (ManageDeviceTypeImpl t disable : M _).
Proof. unfold ManageDeviceTypeImpl, manage_type_round. sim. Qed.
Lemma sim_interface_type t disable : Sim (ManageInterfaceTypeImpl t disable : M _).
Proof. unfold ManageInterfaceTypeImpl, manage_interface_round, manage_interface. sim. Qed.
Hint Resolve sim_device_policy sim_device_type sim_interface_type : sim.
Lemma sim_types l disable : Sim (ExecuteManageInterfaceType l disable : M _).
Proof. unfold ExecuteManageInterfaceType, ExecuteManageDeviceType. sim. Qed.
Lemma sim_usb_type l disable : Sim (ManageUsbType l disable : M _).
Proof.
  unfold ManageUsbType, ExecuteManageUsbType, ManageUsbTypeDeviceImpl, ManageUsbTypeInterfaceImpl,
    usb_type_device_round, usb_type_interface_round, manage_usb_type_interface. sim.
Qed.
Lemma sim_serial_devices disable : Sim (authorize_serial_devices disable : M _).
Proof. unfold authorize_serial_devices, serial_round. sim. Qed.
Hint Resolve sim_types sim_usb_type sim_serial_devices : sim.

(** *** The policy of the device manager *)

Lemma quiet_edm_request code : Quiet (edm_request code : M _).
Proof.
  apply quiet_bind; [apply quiet_platform|]. intros [ret r]. destruct (reply_ReadInt32 r) as [z r'].
  destruct (_ || _); apply quiet_ret.
Qed.
Lemma sim_edm_request code : Sim (edm_request code : M _).
Proof. apply sim_quiet, quiet_edm_request. Qed.
Lemma sim_set_perm b : Sim (modify (set_perm b) : M _).
Proof. apply sim_quiet. by intros []. Qed.
Hint Resolve sim_edm_request sim_set_perm : sim.
Lemma sim_edm_policy pol : Sim (GetEdmPolicy pol : M _).
Proof.
  unfold GetEdmPolicy, LoadEdmService. cbn [edm_queries].
  unfold GetEdmGlobalPolicy, GetEdmStroageTypePolicy, GetEdmTypePolicy, GetEdmPermTypePolicy, GetEdmTrustListPolicy.
  sim.
Qed.
Hint Resolve sim_edm_policy : sim.
Lemma sim_policy_loop n : ∀ start pol, Sim (policy_loop n start pol : M _).
Proof. induction n as [|n IH]; intros start pol; cbn [policy_loop]; sim. Qed.
Hint Resolve sim_policy_loop : sim.
Lemma sim_run_policy pol : Sim (run_policy pol : M _).
Proof. unfold run_policy. sim. Qed.
Hint Resolve sim_run_policy : sim.
Lemma sim_strategy : Sim (ExecuteStrategy : M _).
Proof. unfold ExecuteStrategy, GetUsbPolicy. sim. Qed.
Hint Resolve sim_strategy : sim.
Lemma sim_usb_serial disable : Sim (ManageUsbSerialDevice disable : M _).
Proof. unfold ManageUsbSerialDevice. sim. Qed.
End Requests.

(** ** Loops over all devices, one device at a time *)

Section Pointwise.
Context {W R SM : Type} `{!HostPlatform W R, !PortList SM, !ErrCodeBase, !CJson, !TableOrder}.
Abbreviation HM := (UsbHostManager W SM).
Abbreviation M := (state HM).
Implicit Types m : HM.

(** [body] turns the device of its key into [f] of it and touches no other. *)
Definition Pointwise (c : bool * bool * list UsbDev) (body : string → UsbDevice.t → M ()) (f : UsbDevice.t → UsbDevice.t) : Prop :=
  ∀ k d m, wf m → core m = c → devices_ m !! k = Some d →
    devices_ (body k d m).2 = <[k := f d]> (devices_ m) ∧ core (body k d m).2 = c.
Definition keeps_key (f : UsbDevice.t → UsbDevice.t) : Prop := ∀ d, key_of (f d) = key_of d.

Lemma sorted_keys_spec {A} (ds : gmap string A) : NoDup (sorted_keys ds) ∧ ∀ k, k ∈ sorted_keys ds ↔ is_Some (ds !! k).
Proof.
  unfold sorted_keys. split.
  - rewrite merge_sort_Permutation. apply NoDup_fst_map_to_list.
  - intros k. rewrite (merge_sort_Permutation String.le), list_elem_of_fmap. split.
    + intros ([k' d] & -> & Hk%elem_of_map_to_list). by exists d.
    + intros [d Hd]. exists (k, d). split; [done|]. by apply elem_of_map_to_list.
Qed.

Definition at_keys (l : list string) (f : UsbDevice.t → UsbDevice.t) (k : string) (d : UsbDevice.t) : option UsbDevice.t :=
  Some (if bool_decide (k ∈ l) then f d else d).
Lemma for_each_pointwise c body f l : Pointwise c body f → keeps_key f → NoDup l → ∀ m, wf m → core m = c →
  (∀ k, k ∈ l → is_Some (devices_ m !! k)) →
  let m' := (for_each (λ k, d ← device_at k; match d with None => mret () | Some d => body k d end) l m).2 in
  devices_ m' = map_imap (at_keys l f) (devices_ m) ∧ core m' = c.
Proof.
  intros Hb Hf. induction l as [|k l IH]; intros Hl m Hm Hc Hk; cbv zeta; cbn [for_each].
  - split; [|done]. apply map_eq. intros k. rewrite map_lookup_imap. by destruct (_ !! _).
  - apply NoDup_cons in Hl as [Hkl Hl]. destruct (Hk k) as [d Hd]; [left|]. rewrite bind_run, bind_run.
    cbn [device_at gets fst snd]. rewrite Hd. destruct (Hb k d m Hm Hc Hd) as [E1 E2].
    destruct (IH Hl (body k d m).2) as [E3 E4]; [|done| |].
    + unfold wf. rewrite E1. apply map_Forall_insert_2; [|done]. rewrite Hf. by apply Hm.
    + intros k' Hk'. rewrite E1, lookup_insert_is_Some'. right. apply Hk. by right.
    + split; [|done]. rewrite E3, E1. apply map_eq. intros k'. rewrite !map_lookup_imap.
      destruct (decide (k' = k)) as [->|Hne].
      * rewrite lookup_insert_eq, Hd. cbn. unfold at_keys. rewrite bool_decide_false, bool_decide_true by (done || left). done.
      * rewrite lookup_insert_ne by done. destruct (devices_ m !! k') as [d'|]; cbn; [|done]. unfold at_keys.
        rewrite (bool_decide_ext (k' ∈ k :: l) (k' ∈ l)); [done|]. rewrite elem_of_cons. split; [by intros [?|?]|by right].
Qed.
Lemma each_device_pointwise c body f m : Pointwise c body f → keeps_key f → wf m → core m = c →
  devices_ (each_device body m).2 = f <$> devices_ m ∧ core (each_device body m).2 = c.
Proof.
  intros Hb Hf Hm Hc. unfold each_device. rewrite bind_run. cbn [get fst snd].
  destruct (sorted_keys_spec (devices_ m)) as [Hnd Hk].
  destruct (for_each_pointwise c body f (sorted_keys (devices_ m)) Hb Hf Hnd m Hm Hc) as [-> ->];
    [intros k; by rewrite Hk|]. split; [|done]. apply map_eq. intros k. rewrite map_lookup_imap, lookup_fmap.
  destruct (devices_ m !! k) eqn:E; cbn; [|done]. unfold at_keys. rewrite bool_decide_true; [done|]. rewrite Hk. by eexists.
Qed.
Lemma fmap_wf f m m' : keeps_key f → wf m → devices_ m' = f <$> devices_ m → wf m'.
Proof.
  intros Hf Hm E. unfold wf. rewrite E. intros k d. rewrite lookup_fmap_Some. intros (d' & <- & Hd). rewrite Hf. by apply Hm.
Qed.
End Pointwise.

(** ** A platform whose calls succeed *)

(** The services accept, the active configuration of a device and the system
    parameters do not change while a request runs. *)
Class ReliableHost (W R : Type) `{!HostPlatform W R} := {
  device_authorize_ok bus addr b w : (hdi_UsbDeviceAuthorize bus addr b w).1 = UEC_OK;
  open_ok d w : (hdi_OpenDevice d w).1 = UEC_OK;
  active_config : UsbDev → Z;
  active_config_ok d i w : (hdi_GetConfig d i w).1 = (UEC_OK, active_config d);
  parameter : string → string → string;
  parameter_ok k dflt w : (GetParameter k dflt w).1 = parameter k dflt;
}.

Section Reliable.
Context {W R SM : Type} `{!HostPlatform W R, !PortList SM, !ErrCodeBase, !CJson, !TableOrder, !ReliableHost W R}.
Abbreviation HM := (UsbHostManager W SM).
Abbreviation M := (state HM).
Implicit Types m : HM.
(** The device service is there and the host service, and these are the serial devices. *)
Context (serials : list UsbDev).
Abbreviation ready := (true, true, serials).

Definition serial_policy : bool :=
  bool_decide (parameter "persist.edm.enterprise_config_enable" "false" = "true") &&
  bool_decide (parameter "persist.edm.usb_serial_disable" "0" = "1").
(** The device is left to the policy on serial devices. *)
Definition left_to_serial (d : UsbDevice.t) : bool := serial_policy && existsb (at_address d) serials.

Lemma managed_run d m : core m = ready →
  (managed_as_serial d m).1 = left_to_serial d ∧ quiet m (managed_as_serial d m).2.
Proof.
  intros Hc. assert (quiet m (IsUsbSerialDisable m).2) as Hq.
  { assert (Quiet (IsUsbSerialDisable : M bool)) as Hq; [|apply Hq].
    apply quiet_bind; [apply quiet_platform|]. intros v. apply quiet_bind; [|intros e; apply quiet_ret].
    apply quiet_bind; [apply quiet_platform|]. intros e. apply quiet_ret. }
  assert ((IsUsbSerialDisable m).1 = serial_policy) as E.
  { unfold IsUsbSerialDisable, IsEdmEnabled. by rewrite !bind_run, !ret_run, !on_platform_fst, !parameter_ok. }
  unfold managed_as_serial. rewrite bind_run, E. unfold left_to_serial. destruct serial_policy; [|done].
  unfold IsUsbSerialDevice, gets. cbn. destruct Hq as (E1 & E2 & Hc1). split; [|done].
  rewrite Hc in Hc1. unfold core in Hc1. congruence.
Qed.

(** The status of the device at its address, whatever it was. *)
Lemma authorize_reliable d b op m : wf m → core m = ready → devices_ m !! key_of d = Some d →
  devices_ (authorize d b op m).2 =
    <[key_of d := set_status (authorized_status b (UsbDevice.authorizeStatus_ d)) d]> (devices_ m) ∧
  core (authorize d b op m).2 = ready.
Proof.
  intros Hm Hc Hd. assert (usbDeviceInterface_ m = true) as Hi by (unfold core in Hc; congruence).
  set (st := authorized_status b (UsbDevice.authorizeStatus_ d)).
  destruct (authorize_run (UsbDevice.busNum_ d) (UsbDevice.devAddr_ d) b op m Hm) as
    [[(E1 & _ & E2) Hst]|(d' & Hd' & _ & E1 & _ & E2)]; unfold authorize; rewrite E1, E2; (split; [|done]).
  - destruct (Hst d Hi Hd) as [Hs|[w Hw]]; [|by rewrite device_authorize_ok in Hw].
    unfold st. rewrite Hs, set_status_id. by rewrite insert_id.
  - assert (d' = d) as -> by (unfold key_of in Hd; congruence). fold st.
    change (device_key (UsbDevice.busNum_ d) (UsbDevice.devAddr_ d)) with (key_of d).
    by rewrite (alter_alt_Some _ _ _ d).
Qed.

Lemma mapM_quiet {A B} (body : A → M B) (g : A → B) l :
  (∀ x m, (body x m).1 = g x ∧ quiet m (body x m).2) → ∀ m, ((mapM body l : M _) m).1 = map g l ∧ quiet m ((mapM body l : M _) m).2.
Proof.
  intros Hb. induction l as [|x l IH]; intros m; cbn [mapM map]; [by repeat split|].
  rewrite !bind_run, ret_run. cbn [fst snd]. destruct (Hb x m) as [-> Hq]. destruct (IH (body x m).2) as [-> Hq'].
  split; [done|]. by eapply quiet_trans.
Qed.
Lemma quiet_authorize_interface d c i b : Quiet (authorize_interface d c i b : M _).
Proof.
  unfold authorize_interface, UsbInterfaceAuthorize. apply quiet_get. intros m. destruct (negb _); [apply quiet_ret|].
  apply quiet_bind; [apply quiet_platform|]. intros r. destruct (_ && _); [apply quiet_host|apply quiet_ret].
Qed.
Lemma active_config_run d i m : core m = ready →
  (GetActiveConfig (UsbDevice.busNum_ d) (UsbDevice.devAddr_ d) i m).1 = (UEC_OK, active_config (address_of d)) ∧
  quiet m (GetActiveConfig (UsbDevice.busNum_ d) (UsbDevice.devAddr_ d) i m).2.
Proof.
  intros Hc. split; [|apply quiet_host]. unfold GetActiveConfig, on_host. rewrite bind_run. cbn [get fst snd].
  assert (usbHostInterface_ m = true) as -> by (unfold core in Hc; congruence). cbn [negb].
  by rewrite on_platform_fst, active_config_ok.
Qed.
(** The interfaces of one configuration, each by [g]. *)
Definition map_interfaces (index : nat) (g : UsbInterface.t → UsbInterface.t) (d : UsbDevice.t) : UsbDevice.t :=
  match UsbDevice.configs_ d !! index with
  | None => d
  | Some c => set_config_interfaces index (map g (USBConfig.interfaces_ c)) d
  end.
Lemma map_interfaces_key index g d : key_of (map_interfaces index g d) = key_of d.
Proof. unfold map_interfaces. destruct (_ !! _); [|done]. by destruct d. Qed.
Lemma map_interfaces_status index g d : UsbDevice.authorizeStatus_ (map_interfaces index g d) = UsbDevice.authorizeStatus_ d.
Proof. unfold map_interfaces. destruct (_ !! _); [|done]. by destruct d. Qed.
Lemma each_interface_run k index c body g d m : (∀ x m, (body x m).1 = g x ∧ quiet m (body x m).2) →
  devices_ m !! k = Some d → UsbDevice.configs_ d !! index = Some c →
  devices_ (each_interface k index c body m).2 = <[k := map_interfaces index g d]> (devices_ m) ∧
  core (each_interface k index c body m).2 = core m.
Proof.
  intros Hb Hd Hi. unfold each_interface. rewrite bind_run.
  destruct (mapM_quiet body g (USBConfig.interfaces_ c) Hb m) as [-> (E1 & _ & E2)]. unfold alter_device, modify. cbn [snd].
  rewrite <- E2. rewrite <- E1 in Hd |- *. unfold map_interfaces. rewrite Hi.
  rewrite <- (alter_alt_Some (set_config_interfaces index (map g (USBConfig.interfaces_ c)))) by done.
  by destruct ((mapM body (USBConfig.interfaces_ c) : M _) m).2.
Qed.

(** *** The rounds of a policy *)

Lemma pointwise_id f : (∀ d, f d = d) → Pointwise ready (λ _ _, mret () : M ()) f.
Proof. intros Hf k d m Hm Hc Hd. split; [|done]. by rewrite Hf, insert_id. Qed.
Definition authorized_device (b : bool) (d : UsbDevice.t) : UsbDevice.t :=
  set_status (authorized_status b (UsbDevice.authorizeStatus_ d)) d.
Lemma authorized_device_key b d : key_of (authorized_device b d) = key_of d.
Proof. apply set_status_key. Qed.

(** What the permissive types ask of a device. *)
Definition usb_type_device (types : list UsbDeviceType) (disable : bool) (d : UsbDevice.t) : UsbDevice.t :=
  if left_to_serial d then d
  else authorized_device (if existsb (λ t, device_matches (pattern_of t) d) types then negb disable else disable) d.
Lemma usb_type_device_pointwise types disable :
  Pointwise ready (usb_type_device_round types disable : _ → _ → M _) (usb_type_device types disable).
Proof.
  intros k d m Hm Hc Hd. unfold usb_type_device_round, usb_type_device. rewrite bind_run.
  destruct (managed_run d m Hc) as [-> (E1 & E2 & E3)]. rewrite <- E1.
  assert (wf (managed_as_serial d m).2) as Hw by (unfold wf; by rewrite E1).
  destruct (left_to_serial d); [split; [by rewrite E1, insert_id|cbn; by rewrite E3]|]. rewrite <- E1 in Hd. rewrite Hc in E3.
  pose proof (Hm k d ltac:(by rewrite <- E1)) as ->.
  destruct (existsb _ _); rewrite bind_run, ret_run; cbn [snd]; by apply authorize_reliable.
Qed.

(** And of the interfaces of its active configuration. *)
Definition active_index (d : UsbDevice.t) : nat := Z.to_nat (to_u8 (active_config (address_of d) - 1)).
Definition usb_type_interface (types : list UsbDeviceType) (disable : bool) (i : UsbInterface.t) : UsbInterface.t :=
  set_authorized (if IsUsbInterfaceTypeMatched types i then negb disable else disable) i.
Lemma manage_usb_type_interface_run types disable d c i m :
  (manage_usb_type_interface types disable d c i m).1 = usb_type_interface types disable i ∧
  quiet m (manage_usb_type_interface types disable d c i m).2.
Proof.
  unfold manage_usb_type_interface, usb_type_interface. destruct (IsUsbInterfaceTypeMatched types i).
  - rewrite !bind_run, ret_run. split; [done|]. cbn [snd].
    eapply quiet_trans; [apply quiet_authorize_interface|]. destruct (_ && _); [apply quiet_report|apply quiet_ret].
  - rewrite bind_run, ret_run. split; [done|]. apply quiet_authorize_interface.
Qed.
Definition usb_type_interfaces (types : list UsbDeviceType) (disable : bool) (d : UsbDevice.t) : UsbDevice.t :=
  if is_hub d || bool_decide (UsbDevice.authorizeStatus_ d = UsbDevice.DISABLED) then d
  else map_interfaces (active_index d) (usb_type_interface types disable) d.
Lemma usb_type_interface_pointwise types disable :
  Pointwise ready (usb_type_interface_round types disable : _ → _ → M _) (usb_type_interfaces types disable).
Proof.
  intros k d m Hm Hc Hd. unfold usb_type_interface_round, usb_type_interfaces.
  destruct (_ || _); [by rewrite insert_id|]. rewrite bind_run.
  assert (quiet m (open d m).2) as Hq by apply quiet_host. destruct Hq as (E1 & _ & E2). rewrite <- E2 in Hc.
  rewrite <- E1 in Hd |- *. rewrite bind_run. destruct (active_config_run d 0 _ Hc) as [-> (E3 & _ & E4)].
  rewrite <- E4 in Hc. rewrite <- E3 in Hd |- *. cbn [fst snd]. rewrite Z.eqb_refl. cbn [negb]. fold (active_index d).
  revert Hd Hc. clear E1 E2 E3 E4. generalize (GetActiveConfig (UsbDevice.busNum_ d) (UsbDevice.devAddr_ d) 0 (open d m).2).2.
  clear m Hm. intros m Hd Hc. assert (∀ m, quiet m (close d m).2) as Hclose.
  { intros m0. unfold close. rewrite bind_run, ret_run. apply quiet_host. }
  destruct (UsbDevice.configs_ d !! active_index d) as [c|] eqn:Hi.
  - rewrite bind_run. destruct (Hclose (each_interface k (active_index d) c (manage_usb_type_interface types disable d c) m).2) as (-> & _ & ->).
    rewrite <- Hc. apply each_interface_run; [|done..]. apply manage_usb_type_interface_run.
  - destruct (Hclose m) as (-> & _ & ->). unfold map_interfaces. rewrite Hi. by rewrite insert_id.
Qed.

(** *** Vendors and products *)

Lemma open_run d m : core m = ready → (open d m).1 = UEC_OK ∧ quiet m (open d m).2.
Proof.
  intros Hc. split; [|apply quiet_host]. unfold open, OpenDevice, on_host. rewrite bind_run. cbn [get fst snd].
  assert (usbHostInterface_ m = true) as -> by (unfold core in Hc; congruence). cbn [negb].
  by rewrite on_platform_fst, open_ok.
Qed.
Definition has_ids (vid pid : Z) (d : UsbDevice.t) : bool := (UsbDevice.vendorId_ d =? vid) && (UsbDevice.productId_ d =? pid).
Definition manage_ids (vid pid : Z) (disable : bool) (d : UsbDevice.t) : UsbDevice.t :=
  if negb (is_hub d) && has_ids vid pid d then authorized_device (negb disable) d else d.
Lemma manage_ids_key vid pid b : keeps_key (manage_ids vid pid b).
Proof. intros d. unfold manage_ids. destruct (_ && _); [apply authorized_device_key|done]. Qed.

Lemma manage_device_round_run vid pid b k m : wf m → core m = ready → let r := manage_device_round vid pid b k m in
  r.1 = None ∧ devices_ r.2 = alter (manage_ids vid pid b) k (devices_ m) ∧ core r.2 = ready.
Proof.
  intros Hm Hc. cbv zeta. unfold manage_device_round. rewrite bind_run. cbn [device_at gets fst snd].
  destruct (devices_ m !! k) as [d|] eqn:Hd.
  2: { split; [done|]. split; [|done]. cbn. apply map_eq. intros k'. destruct (decide (k' = k)) as [->|];
       [by rewrite lookup_alter_eq, Hd|by rewrite lookup_alter_ne]. }
  rewrite (alter_alt_Some _ _ _ d) by done. unfold manage_ids. fold (has_ids vid pid d).
  destruct (is_hub d); cbn [negb andb]; [by rewrite insert_id|].
  destruct (has_ids vid pid d); cbn [negb]; [|by rewrite insert_id].
  rewrite bind_run. destruct (open_run d m Hc) as [-> (E1 & _ & E2)]. rewrite Z.eqb_refl. cbn [negb].
  rewrite bind_run. destruct (authorize_reliable d (negb b) "DeviceType" (open d m).2) as [E3 E4];
    [unfold wf; by rewrite E1|by rewrite E2|by rewrite E1, <- (Hm k d Hd)|]. rewrite bind_run, ret_run. cbn [fst snd].
  split; [done|]. assert (quiet (authorize d (negb b) "DeviceType" (open d m).2).2
    (close d (authorize d (negb b) "DeviceType" (open d m).2).2).2) as (-> & _ & ->).
  { unfold close. rewrite bind_run, ret_run. apply quiet_host. }
  rewrite E3, E4, E1, <- (Hm k d Hd). done.
Qed.

Lemma wf_alter f k m m' : keeps_key f → wf m → devices_ m' = alter f k (devices_ m) → wf m'.
Proof.
  intros Hf Hm E. unfold wf. rewrite E. intros k' d'. rewrite lookup_alter_Some.
  intros [(<- & d & Hd & ->)|[_ Hd]]; [rewrite Hf|]; by apply Hm.
Qed.
Lemma for_return_run vid pid b l : NoDup l → ∀ m, wf m → core m = ready →
  let r := for_return (manage_device_round vid pid b) l m in
  r.1 = None ∧ devices_ r.2 = map_imap (at_keys l (manage_ids vid pid b)) (devices_ m) ∧ core r.2 = ready.
Proof.
  induction l as [|k l IH]; intros Hl m Hm Hc; cbv zeta; cbn [for_return].
  - split; [done|]. split; [|done]. apply map_eq. intros k. rewrite map_lookup_imap. by destruct (_ !! _).
  - apply NoDup_cons in Hl as [Hkl Hl]. rewrite bind_run.
    destruct (manage_device_round_run vid pid b k m Hm Hc) as (-> & E1 & E2).
    destruct (IH Hl (manage_device_round vid pid b k m).2) as (-> & E3 & E4);
      [eapply wf_alter; [apply manage_ids_key|apply Hm|apply E1]|done|].
    split; [done|]. split; [|done]. rewrite E3, E1. apply map_eq. intros k'. rewrite !map_lookup_imap. unfold at_keys.
    destruct (decide (k' = k)) as [->|Hne].
    + rewrite lookup_alter_eq, (bool_decide_false (k ∈ l)), (bool_decide_true (k ∈ k :: l)) by (done || left).
      by destruct (_ !! _).
    + rewrite lookup_alter_ne by done. rewrite (bool_decide_ext (k' ∈ k :: l) (k' ∈ l)); [done|].
      rewrite elem_of_cons. split; [by intros [?|?]|by right].
Qed.
Lemma manage_device_run vid pid b m : wf m → core m = ready → let r := ManageDeviceImpl vid pid b m in
  r.1 = UEC_OK ∧ devices_ r.2 = manage_ids vid pid b <$> devices_ m ∧ core r.2 = ready.
Proof.
  intros Hm Hc. cbv zeta. unfold ManageDeviceImpl. rewrite bind_run, bind_run, ret_run. cbn [get fst snd].
  destruct (sorted_keys_spec (devices_ m)) as [Hnd Hk]. destruct (for_return_run vid pid b _ Hnd m Hm Hc) as (-> & -> & ->).
  split; [done|]. split; [|done]. apply map_eq. intros k. rewrite map_lookup_imap, lookup_fmap.
  destruct (devices_ m !! k) eqn:E; cbn; [|done]. unfold at_keys. rewrite bool_decide_true; [done|]. rewrite Hk. by eexists.
Qed.

(** *** The trust list *)

Definition ids_of (d : UsbDevice.t) : Z * Z := (UsbDevice.vendorId_ d, UsbDevice.productId_ d).
Definition trusted (trustList : list UsbDeviceId) (d : UsbDevice.t) : bool :=
  in_trust_list trustList d || bool_decide (trustList = []).
Definition trust_device (trustList : list UsbDeviceId) (d : UsbDevice.t) : UsbDevice.t :=
  if is_hub d then d else authorized_device (trusted trustList d) d.
(** After the rounds for devices with these vendors and products. *)
Definition trust_some (trustList : list UsbDeviceId) (ids : list (Z * Z)) (d : UsbDevice.t) : UsbDevice.t :=
  if bool_decide (ids_of d ∈ ids) then trust_device trustList d else d.

Lemma authorized_device_ids b d : ids_of (authorized_device b d) = ids_of d ∧ is_hub (authorized_device b d) = is_hub d.
Proof. by destruct d. Qed.
Lemma trusted_ids l d d' : ids_of d' = ids_of d → trusted l d' = trusted l d.
Proof. unfold ids_of, trusted, in_trust_list. by intros [= -> ->]. Qed.
Lemma authorized_device_idem b d : authorized_device b (authorized_device b d) = authorized_device b d.
Proof. destruct d. unfold authorized_device. cbn. by destruct b, authorizeStatus_. Qed.
Lemma trust_device_ids l d : ids_of (trust_device l d) = ids_of d.
Proof. unfold trust_device. destruct (is_hub d); [done|apply authorized_device_ids]. Qed.
Lemma trust_device_idem l d : trust_device l (trust_device l d) = trust_device l d.
Proof.
  unfold trust_device at 2 3. destruct (is_hub d) eqn:Hh; [unfold trust_device; by rewrite Hh|].
  destruct (authorized_device_ids (trusted l d) d) as [E1 E2]. unfold trust_device. rewrite E2, Hh.
  rewrite (trusted_ids l d) by done. apply authorized_device_idem.
Qed.
Lemma manage_ids_trust l vid pid d d0 : ids_of d0 = (vid, pid) →
  manage_ids vid pid (negb (trusted l d0)) d = trust_some l [(vid, pid)] d.
Proof.
  intros E0. unfold manage_ids, trust_some, trust_device, has_ids.
  destruct ((UsbDevice.vendorId_ d =? vid) && (UsbDevice.productId_ d =? pid)) eqn:E.
  - apply andb_true_iff in E as [E1%Z.eqb_eq E2%Z.eqb_eq].
    assert (ids_of d = (vid, pid)) as Ed by (unfold ids_of; congruence).
    rewrite bool_decide_true by (rewrite Ed; left). rewrite negb_involutive, (trusted_ids l d d0) by congruence.
    by destruct (is_hub d).
  - rewrite andb_false_r, bool_decide_false; [done|]. intros Hin%list_elem_of_singleton. unfold ids_of in Hin.
    injection Hin as <- <-. by rewrite !Z.eqb_refl in E.
Qed.
Lemma trust_some_app l ids1 ids2 d : trust_some l ids2 (trust_some l ids1 d) = trust_some l (ids1 ++ ids2) d.
Proof.
  unfold trust_some at 2 3. rewrite (bool_decide_ext (ids_of d ∈ ids1 ++ ids2) (ids_of d ∈ ids1 ∨ ids_of d ∈ ids2)) by apply elem_of_app.
  destruct (decide (ids_of d ∈ ids1)) as [E1|E1].
  - rewrite (bool_decide_true _ E1), bool_decide_true by (by left). unfold trust_some. rewrite trust_device_ids, trust_device_idem.
    by case_bool_decide.
  - rewrite (bool_decide_false _ E1). unfold trust_some. apply (f_equal (λ b : bool, if b then _ else _)).
    apply bool_decide_ext. split; [by right|by intros [?|?]].
Qed.
Lemma trust_some_key l ids : keeps_key (trust_some l ids).
Proof.
  intros d. unfold trust_some, trust_device. case_bool_decide; [|done]. destruct (is_hub d); [done|apply authorized_device_key].
Qed.

Definition ids_at (ds : gmap string UsbDevice.t) (l : list string) : list (Z * Z) := omap (λ k, ids_of <$> ds !! k) l.
Lemma ids_at_fmap l ids ds ks : ids_at (trust_some l ids <$> ds) ks = ids_at ds ks.
Proof.
  unfold ids_at. apply list_omap_ext. apply Forall2_same_length_lookup. split; [done|].
  intros i k k' Hk Hk'. assert (k' = k) as -> by congruence. rewrite lookup_fmap. destruct (ds !! k) as [d|]; cbn; [|done].
  f_equal. unfold trust_some. case_bool_decide; [apply trust_device_ids|done].
Qed.
Lemma trust_round_run l k m rest : wf m → core m = ready → let r := trust_round l UEC_OK k m in
  ∃ ids, match ids_of <$> devices_ m !! k with Some x => x :: rest | None => rest end = ids ++ rest ∧
    r.1 = UEC_OK ∧ devices_ r.2 = trust_some l ids <$> devices_ m ∧ core r.2 = ready.
Proof.
  intros Hm Hc. cbv zeta. unfold trust_round. rewrite bind_run. cbn [device_at gets fst snd].
  destruct (devices_ m !! k) as [d|] eqn:Hd.
  - exists [ids_of d]. split; [done|]. fold (trusted l d).
    set (f := if trusted l d then _ else _ : M Z).
    assert (f = ManageDeviceImpl (UsbDevice.vendorId_ d) (UsbDevice.productId_ d) (negb (trusted l d))) as ->
      by (unfold f; by destruct (trusted l d)).
    destruct (manage_device_run (UsbDevice.vendorId_ d) (UsbDevice.productId_ d) (negb (trusted l d)) m Hm Hc) as (-> & -> & ->).
    split; [done|]. split; [|done]. apply map_fmap_ext. intros k' d' _. by apply manage_ids_trust.
  - exists []. split; [done|]. split; [done|]. split; [|done]. cbn. symmetry. by apply map_fmap_id.
Qed.
Lemma trust_fold_run l ks : ∀ m, wf m → core m = ready → let r := for_fold (trust_round l) UEC_OK ks m in
  r.1 = UEC_OK ∧ devices_ r.2 = trust_some l (ids_at (devices_ m) ks) <$> devices_ m ∧ core r.2 = ready.
Proof.
  induction ks as [|k ks IH]; intros m Hm Hc; cbv zeta; cbn [for_fold].
  - split; [done|]. split; [|done]. cbn. symmetry. by apply map_fmap_id.
  - rewrite bind_run. assert (∃ ids, ids_at (devices_ m) (k :: ks) = ids ++ ids_at (devices_ m) ks ∧
      (trust_round l UEC_OK k m).1 = UEC_OK ∧ devices_ (trust_round l UEC_OK k m).2 = trust_some l ids <$> devices_ m ∧
      core (trust_round l UEC_OK k m).2 = ready) as (ids & Hids & -> & E1 & E2).
    { unfold ids_at at 1. cbn [omap list_omap]. fold (ids_at (devices_ m) ks). by apply trust_round_run. }
    destruct (IH (trust_round l UEC_OK k m).2) as (-> & E3 & E4);
      [by eapply fmap_wf; [apply trust_some_key|apply Hm|apply E1]|done|].
    split; [done|]. split; [|done]. rewrite E3, E1, ids_at_fmap, Hids, <- map_fmap_compose. apply map_fmap_ext.
    intros k' d _. apply trust_some_app.
Qed.
End Reliable.
