(* ===== verification/UsbHostTables.v ===== *)
(** * The host manager: the types with a fixed table

    The two tables are disjoint, so that the order in which they are visited does
    not matter; what [ManageInterfaceType] does to a device. *)
From S2P Require Import Prelude UsbErrors Platform UsbDevice UsbInterfaceType UsbHostManager UsbHostPolicy UsbHostProofs.

(** ** Disjoint patterns *)

Abbreviation Table := (list (InterfaceType * ClassTriple)).

(** Two patterns have a class triple in common. *)
Definition overlap (p q : ClassTriple) : bool :=
  let '(pc, ps, pp) := p in let '(qc, qs, qp) := q in
  (pc =? qc) && ((ps =? -1) || (qs =? -1) || (ps =? qs)) && ((pp =? -1) || (qp =? -1) || (pp =? qp)).
Lemma overlap_matches p q c s pr : class_matches p c s pr = true → class_matches q c s pr = true → overlap p q = true.
Proof.
  destruct p as [[pc ps] pp], q as [[qc qs] qp]. unfold class_matches, overlap, RANDOM_VALUE_INDICATE.
  rewrite !andb_true_iff, !orb_true_iff, !Z.eqb_eq. lia.
Qed.

Record table_ok (T : Table) : Prop := {
  table_find e : e ∈ T → find_type T e.1 = Some e.2;
  table_disjoint e e' : e ∈ T → e' ∈ T → overlap e.2 e'.2 = true → e = e';
  table_nodup : NoDup T;
}.
Definition table_check (T : Table) : bool :=
  forallb (λ e, bool_decide (find_type T e.1 = Some e.2)) T &&
  forallb (λ e, forallb (λ e', negb (overlap e.2 e'.2) || bool_decide (e = e')) T) T && bool_decide (NoDup T).
Lemma table_check_ok T : table_check T = true → table_ok T.
Proof.
  unfold table_check. rewrite !andb_true_iff, !forallb_forall, bool_decide_eq_true. intros [[H1 H2] H3]. split; [| |done].
  - intros e He%list_elem_of_In. by apply H1, bool_decide_eq_true in He.
  - intros e e' He%list_elem_of_In He'%list_elem_of_In Ho. apply H2 in He. rewrite forallb_forall in He. apply He in He'.
    rewrite Ho in He'. by apply bool_decide_eq_true in He'.
Qed.
Lemma d_typeMap_ok : table_ok d_typeMap.
Proof. apply table_check_ok. by vm_compute. Qed.
Lemma g_typeMap_ok : table_ok g_typeMap.
Proof. apply table_check_ok. by vm_compute. Qed.

(** A table visited in any order: the one entry that matches decides. *)
Definition entry_of (T : Table) (m : ClassTriple → bool) : option (InterfaceType * ClassTriple) := List.find (λ e, m e.2) T.
Definition visit {A} (m : A → ClassTriple → bool) (f : InterfaceType → A → A) (x : A) (e : InterfaceType * ClassTriple) : A :=
  if m x e.2 then f e.1 x else x.
Lemma visit_none {A} (m : A → ClassTriple → bool) f l x : (∀ e, e ∈ l → m x e.2 = false) → foldl (visit m f) x l = x.
Proof.
  induction l as [|e l IH]; intros He; [done|].
  change (foldl (visit m f) (visit m f x e) l = x).
  assert (visit m f x e = x) as -> by (unfold visit; by rewrite (He e) by left). apply IH.
  intros e' He'. apply He. by right.
Qed.
Lemma visit_table {A} (T l : Table) (m : A → ClassTriple → bool) (f : InterfaceType → A → A) (x : A) :
  table_ok T → l ≡ₚ T →
  (∀ p q, m x p = true → m x q = true → overlap p q = true) → (∀ t p, m (f t x) p = m x p) →
  foldl (visit m f) x l = match entry_of T (m x) with Some e => f e.1 x | None => x end.
Proof.
  intros HT Hl Hm Hf. unfold entry_of. destruct (List.find (λ e, m x e.2) T) as [e|] eqn:E.
  - apply find_some in E as [He%list_elem_of_In Hme]. assert (∀ e', e' ∈ T → m x e'.2 = true → e' = e) as Hu.
    { intros e' He' Hme'. eapply table_disjoint; [done..|]. by apply Hm. }
    rewrite <- Hl in He. apply list_elem_of_split in He as (l1 & l2 & ->).
    assert (NoDup (l1 ++ e :: l2)) as Hnd by (rewrite Hl; by apply table_nodup).
    apply NoDup_app in Hnd as (_ & Hl1 & Hl2%NoDup_cons). destruct Hl2 as [Hl2 _].
    rewrite foldl_app, (visit_none m f l1 x).
    + change (foldl (visit m f) (visit m f x e) l2 = f e.1 x). assert (visit m f x e = f e.1 x) as -> by (unfold visit; by rewrite Hme).
      apply visit_none. intros e' He'. rewrite Hf. apply not_true_iff_false. intros Hme'.
      rewrite (Hu e') in He'; [done| |done]. rewrite <- Hl. apply elem_of_app. right. by right.
    + intros e' He'. apply not_true_iff_false. intros Hme'.
      apply (Hl1 e' He'). rewrite (Hu e'); [left| |done]. rewrite <- Hl. apply elem_of_app. by left.
  - apply visit_none. intros e He. rewrite Hl in He. apply list_elem_of_In in He. apply (find_none _ _ E e He).
Qed.

(** The types of a table that a policy names, in whatever order it is visited. *)
Definition entry_for (T : Table) (t : UsbDeviceType) : option (InterfaceType * ClassTriple) :=
  entry_of T (λ p, class_matches p (baseClass t) (subClass t) (protocol t)).
Definition named_type (T : Table) (isDev : bool) (disableType : list UsbDeviceType) (t : InterfaceType) : bool :=
  existsb (λ x, bool_decide (isDeviceType x = isDev) &&
    match entry_for T x with Some e => bool_decide (t = e.1) | None => false end) disableType.
Lemma entry_of_perm T l (m : ClassTriple → bool) : table_ok T → l ≡ₚ T →
  (∀ p q, m p = true → m q = true → overlap p q = true) → entry_of l m = entry_of T m.
Proof.
  intros HT Hl Hm.
  unfold entry_of. destruct (List.find _ l) as [e|] eqn:E, (List.find _ T) as [e'|] eqn:E'; [|..|done].
  - apply find_some in E as [He%list_elem_of_In Hme]. apply find_some in E' as [He'%list_elem_of_In Hme'].
    rewrite Hl in He. f_equal. eapply table_disjoint; [done..|]. by apply Hm.
  - apply find_some in E as [He%list_elem_of_In Hme]. rewrite Hl in He. apply list_elem_of_In in He.
    pose proof (find_none _ _ E' e He). cbn in *. congruence.
  - apply find_some in E' as [He%list_elem_of_In Hme]. rewrite <- Hl in He. apply list_elem_of_In in He.
    pose proof (find_none _ _ E e' He). cbn in *. congruence.
Qed.
Lemma named_type_run T l isDev types t : table_ok T → l ≡ₚ T →
  existsb (λ t', bool_decide (t = t')) (FindMatchingTypes l isDev types) = named_type T isDev types t.
Proof.
  intros HT Hl. unfold FindMatchingTypes, named_type. induction types as [|x types IH]; [done|]. cbn [existsb omap list_omap].
  rewrite <- IH. clear IH. case_bool_decide; cbn [negb andb]; [|done]. unfold entry_for.
  rewrite <- (entry_of_perm T l); [|done..|intros p q; apply overlap_matches]. unfold entry_of.
  by destruct (List.find _ l).
Qed.

(** ** The two loops *)

Section Types.
Context {W R SM : Type} `{!HostPlatform W R, !PortList SM, !ErrCodeBase, !CJson, !TableOrder, !ReliableHost W R}.
Abbreviation HM := (UsbHostManager W SM).
Abbreviation M := (state HM).
Implicit Types m : HM.
Context (serials : list UsbDev).
Abbreviation ready := (true, true, serials).

(** A request that acts on each device, and one that only uses the services. *)
Definition Maps {A} (f : M A) (g : UsbDevice.t → UsbDevice.t) : Prop :=
  ∀ m, wf m → core m = ready → devices_ (f m).2 = g <$> devices_ m ∧ core (f m).2 = ready.
Lemma maps_quiet {A} (f : M A) : Quiet f → Maps f id.
Proof. intros Hf m Hm Hc. destruct (Hf m) as (-> & _ & ->). by rewrite map_fmap_id. Qed.
Lemma maps_bind {A B} (f : M A) (h : A → M B) g1 g2 : keeps_key g1 → Maps f g1 → (∀ a, Maps (h a) g2) →
  Maps (f ≫= h) (λ d, g2 (g1 d)).
Proof.
  intros Hk Hf Hh m Hm Hc. rewrite bind_run. destruct (Hf m Hm Hc) as [E1 E2].
  destruct (Hh (f m).1 (f m).2) as [-> ->]; [by eapply fmap_wf|done|]. by rewrite E1, <- map_fmap_compose.
Qed.
Lemma maps_ret_bind {A B} (f : M A) (h : A → B) g : Maps f g → Maps (a ← f; mret (h a)) g.
Proof. intros Hf m Hm Hc. rewrite bind_run, ret_run. by apply Hf. Qed.
Lemma maps_for_each {E} (body : E → M ()) (g : E → UsbDevice.t → UsbDevice.t) l :
  (∀ e, keeps_key (g e)) → (∀ e, e ∈ l → Maps (body e) (g e)) → Maps (for_each body l) (λ d, foldl (λ d e, g e d) d l).
Proof.
  intros Hk. induction l as [|e l IH]; intros Hb; cbn [for_each].
  - intros m Hm Hc. cbn. by rewrite map_fmap_id.
  - apply (maps_bind _ _ (g e) (λ d, foldl (λ d e, g e d) d l)); [done|apply Hb; left|]. intros _. apply IH.
    intros e' He'. apply Hb. by right.
Qed.
Lemma maps_each_device (body : string → UsbDevice.t → M ()) g : keeps_key g → Pointwise ready body g → Maps (each_device body) g.
Proof. intros Hk Hb m Hm Hc. by apply each_device_pointwise. Qed.
Lemma quiet_for_each {E} (body : E → M ()) l : (∀ e, Quiet (body e)) → Quiet (for_each body l).
Proof. intros Hb. induction l as [|e l IH]; cbn [for_each]; [apply quiet_ret|]. by apply quiet_bind. Qed.
Lemma quiet_each_device (body : string → UsbDevice.t → M ()) : (∀ k d, Quiet (body k d)) → Quiet (each_device body).
Proof.
  intros Hb. apply quiet_get. intros m0. apply quiet_for_each. intros k.
  apply quiet_bind; [by repeat split|]. intros []; [apply Hb|apply quiet_ret].
Qed.

(** *** Device types *)

Definition typed_device (p : ClassTriple) (disable : bool) (d : UsbDevice.t) : UsbDevice.t :=
  if negb (left_to_serial serials d) && device_matches p d then authorized_device (negb disable) d else d.
Lemma typed_device_key p b : keeps_key (typed_device p b).
Proof. intros d. unfold typed_device. destruct (_ && _); [apply authorized_device_key|done]. Qed.
Lemma typed_device_pointwise p b : Pointwise ready (manage_type_round p b : _ → _ → M _) (typed_device p b).
Proof.
  intros k d m Hm Hc Hd. unfold manage_type_round, typed_device. rewrite bind_run.
  destruct (managed_run serials d m Hc) as [-> (E1 & _ & E2)]. rewrite <- E1. rewrite <- E1 in Hd. rewrite Hc in E2.
  assert (wf (managed_as_serial d m).2) as Hw by (unfold wf; by rewrite E1).
  destruct (left_to_serial serials d); cbn [negb andb]; [by rewrite insert_id|].
  destruct (device_matches p d); cbn [negb]; [|by rewrite insert_id].
  clear Hm Hc E1. revert Hd Hw E2. generalize (managed_as_serial d m).2. clear m. intros m Hd Hm Hc.
  rewrite bind_run. destruct (open_run serials d m Hc) as [-> (E1 & _ & E2)]. rewrite Z.eqb_refl. cbn [negb]. rewrite bind_run.
  destruct (authorize_reliable serials d (negb b) "InterfaceType" (open d m).2) as [E3 E4];
    [unfold wf; by rewrite E1|by rewrite E2|by rewrite E1, <- (Hm k d Hd)|].
  assert (Quiet (close d : M ())) as Hclose.
  { unfold close. apply quiet_bind; [apply quiet_host|]. intros _. apply quiet_ret. }
  destruct (Hclose (authorize d (negb b) "InterfaceType" (open d m).2).2) as (-> & _ & ->).
  by rewrite E3, E4, E1, <- (Hm k d Hd).
Qed.

(** What the named types ask of a device: an unnamed type gets the opposite. *)
Definition type_policy_device (types : list UsbDeviceType) (disable : bool) (d : UsbDevice.t) : UsbDevice.t :=
  if left_to_serial serials d then d else
  match entry_of d_typeMap (λ p, device_matches p d) with
  | None => d
  | Some e => authorized_device (if named_type d_typeMap true types e.1 then negb disable else disable) d
  end.
Lemma authorized_device_class b d : left_to_serial serials (authorized_device b d) = left_to_serial serials d ∧
  ∀ p, device_matches p (authorized_device b d) = device_matches p d.
Proof. by destruct d. Qed.
Lemma device_types_maps types disable :
  Maps (ExecuteManageDeviceType types disable d_order true : M _) (type_policy_device types disable).
Proof.
  set (exec t := if named_type d_typeMap true types t then disable else negb disable).
  intros m Hm Hc. unfold ExecuteManageDeviceType. cbv zeta.
  destruct (maps_for_each (λ e : InterfaceType * ClassTriple,
    _ ← ManageDeviceTypeImpl e.1 (if existsb (λ t, bool_decide (e.1 = t)) (FindMatchingTypes d_order true types)
      then disable else negb disable); mret ()) (λ e, typed_device e.2 (exec e.1)) d_order) with (m := m) as [-> ->];
    [intros e; apply typed_device_key| |done..|].
  - intros e He. apply maps_ret_bind. rewrite (named_type_run d_typeMap) by (apply d_typeMap_ok || apply d_order_perm).
    fold (exec e.1). unfold ManageDeviceTypeImpl. rewrite d_order_perm in He.
    rewrite (table_find _ d_typeMap_ok e He). apply maps_ret_bind, maps_each_device; [apply typed_device_key|].
    apply typed_device_pointwise.
  - split; [|done]. apply map_fmap_ext. intros k d _.
    etrans; [apply (visit_table d_typeMap d_order (λ d p, negb (left_to_serial serials d) && device_matches p d)
      (λ t, authorized_device (negb (exec t))))|].
    + apply d_typeMap_ok.
    + apply d_order_perm.
    + intros p q. rewrite !andb_true_iff. intros [_ Hp] [_ Hq]. by eapply overlap_matches.
    + intros t p. destruct (authorized_device_class (negb (exec t)) d) as [E1 E2]. by rewrite E1, E2.
    + unfold type_policy_device, exec. destruct (left_to_serial serials d); cbn [negb andb].
      * unfold entry_of. destruct (List.find _ _) eqn:E; [|done]. by apply find_some in E as [_ ?].
      * fold (entry_of d_typeMap (λ p, device_matches p d)). destruct (entry_of _ _) as [e|]; [|done].
        destruct (named_type _ _ _ _); [done|]. by rewrite negb_involutive.
Qed.

(** *** Interface types *)

Definition typed_interface (p : ClassTriple) (disable : bool) (i : UsbInterface.t) : UsbInterface.t :=
  if interface_matches p i then set_authorized (negb disable) i else i.
(** On the interfaces that a policy on interfaces reaches. *)
Definition on_active (g : UsbInterface.t → UsbInterface.t) (d : UsbDevice.t) : UsbDevice.t :=
  if is_hub d || bool_decide (UsbDevice.authorizeStatus_ d = UsbDevice.DISABLED) then d
  else map_interfaces (active_index d) g d.
Lemma on_active_key g : keeps_key (on_active g).
Proof. intros d. unfold on_active. destruct (_ || _); [done|apply map_interfaces_key]. Qed.
Lemma map_interfaces_compose n g1 g2 d :
  map_interfaces n g2 (map_interfaces n g1 d) = map_interfaces n (λ i, g2 (g1 i)) d.
Proof.
  unfold map_interfaces. destruct (UsbDevice.configs_ d !! n) as [c|] eqn:E; [|by rewrite E].
  assert (UsbDevice.configs_ (set_config_interfaces n (map g1 (USBConfig.interfaces_ c)) d) !! n =
    Some (USBConfig.set_interfaces (map g1 (USBConfig.interfaces_ c)) c)) as ->.
  { destruct d. cbn in *. by rewrite list_lookup_alter_eq, E. }
  assert (∀ cs : list USBConfig.t, alter (USBConfig.set_interfaces (map g2 (map g1 (USBConfig.interfaces_ c)))) n
    (alter (USBConfig.set_interfaces (map g1 (USBConfig.interfaces_ c))) n cs) =
    alter (USBConfig.set_interfaces (map (λ i, g2 (g1 i)) (USBConfig.interfaces_ c))) n cs) as Ha.
  { intros cs. rewrite list_alter_alter_eq, map_map. by apply list_alter_ext. }
  unfold set_config_interfaces. destruct d. cbn in *. by rewrite Ha.
Qed.
Lemma map_interfaces_address n g d : is_hub (map_interfaces n g d) = is_hub d ∧ address_of (map_interfaces n g d) = address_of d.
Proof. unfold map_interfaces. destruct (_ !! _); [|done]. by destruct d. Qed.
Lemma on_active_compose g1 g2 d : on_active g2 (on_active g1 d) = on_active (λ i, g2 (g1 i)) d.
Proof.
  unfold on_active at 2 3. destruct (_ || _) eqn:E; [unfold on_active; by rewrite E|]. unfold on_active.
  destruct (map_interfaces_address (active_index d) g1 d) as [-> Ha].
  assert (active_index (map_interfaces (active_index d) g1 d) = active_index d) as -> by (unfold active_index at 1; by rewrite Ha).
  rewrite map_interfaces_status, E. apply map_interfaces_compose.
Qed.
Lemma on_active_id d : on_active (λ i, i) d = d.
Proof.
  unfold on_active, map_interfaces. destruct (_ || _); [done|]. destruct (_ !! _) as [c|] eqn:E; [|done].
  unfold set_config_interfaces. rewrite map_id.
  assert (alter (USBConfig.set_interfaces (USBConfig.interfaces_ c)) (active_index d) (UsbDevice.configs_ d) = UsbDevice.configs_ d) as ->.
  { apply list_eq. intros n. destruct (decide (n = active_index d)) as [->|Hne].
    - rewrite list_lookup_alter_eq, E. cbn. by destruct c.
    - by rewrite list_lookup_alter_ne. }
  by destruct d.
Qed.
Lemma on_active_foldl {E} (g : E → UsbInterface.t → UsbInterface.t) l d :
  foldl (λ d e, on_active (g e) d) d l = on_active (λ i, foldl (λ i e, g e i) i l) d.
Proof.
  revert d. induction l as [|e l IH]; intros d; cbn [foldl]; [by rewrite on_active_id|]. by rewrite IH, on_active_compose.
Qed.
Lemma on_active_ext g1 g2 d : (∀ i, g1 i = g2 i) → on_active g1 d = on_active g2 d.
Proof.
  intros Hg. unfold on_active, map_interfaces. destruct (_ || _); [done|]. destruct (_ !! _) as [c|]; [|done].
  by rewrite (map_ext _ _ Hg).
Qed.

Lemma manage_interface_run p b d c i m :
  (manage_interface p b d c i m).1 = typed_interface p b i ∧ quiet m (manage_interface p b d c i m).2.
Proof.
  unfold manage_interface, typed_interface. cbv zeta. destruct (interface_matches p i); cbn [negb]; [|by repeat split].
  rewrite !bind_run, ret_run. split; [done|]. cbn [snd]. eapply quiet_trans; [apply quiet_authorize_interface|].
  destruct (_ && _); [apply quiet_report|apply quiet_ret].
Qed.
Lemma typed_interface_pointwise p b : Pointwise ready (manage_interface_round p b : _ → _ → M _) (on_active (typed_interface p b)).
Proof.
  intros k d m Hm Hc Hd. unfold manage_interface_round, on_active. destruct (_ || _); [by rewrite insert_id|].
  rewrite bind_run. destruct (active_config_run serials d 0 m Hc) as [-> (E1 & _ & E2)].
  rewrite <- E2 in Hc. rewrite <- E1 in Hd |- *. cbn [fst snd]. rewrite Z.eqb_refl. cbn [negb]. fold (active_index d).
  revert Hd Hc. clear E1 E2. generalize (GetActiveConfig (UsbDevice.busNum_ d) (UsbDevice.devAddr_ d) 0 m).2.
  clear m Hm. intros m Hd Hc. destruct (UsbDevice.configs_ d !! active_index d) as [c|] eqn:Hi.
  - rewrite <- Hc. apply each_interface_run; [|done..]. apply manage_interface_run.
  - unfold map_interfaces. rewrite Hi. by rewrite insert_id.
Qed.

(** What the named types ask of an interface. *)
Definition type_policy_interface (types : list UsbDeviceType) (disable : bool) (i : UsbInterface.t) : UsbInterface.t :=
  match entry_of g_typeMap (λ p, interface_matches p i) with
  | None => i
  | Some e => set_authorized (if named_type g_typeMap false types e.1 then negb disable else disable) i
  end.
Lemma interface_types_maps types disable :
  Maps (ExecuteManageDeviceType types disable g_order false : M _) (on_active (type_policy_interface types disable)).
Proof.
  set (exec t := if named_type g_typeMap false types t then disable else negb disable).
  intros m Hm Hc. unfold ExecuteManageDeviceType. cbv zeta.
  destruct (maps_for_each (λ e : InterfaceType * ClassTriple,
    _ ← ManageInterfaceTypeImpl e.1 (if existsb (λ t, bool_decide (e.1 = t)) (FindMatchingTypes g_order false types)
      then disable else negb disable); mret ()) (λ e, on_active (typed_interface e.2 (exec e.1))) g_order) with (m := m) as [-> ->];
    [intros e; apply on_active_key| |done..|].
  - intros e He. apply maps_ret_bind. rewrite (named_type_run g_typeMap) by (apply g_typeMap_ok || apply g_order_perm).
    fold (exec e.1). unfold ManageInterfaceTypeImpl. rewrite g_order_perm in He.
    rewrite (table_find _ g_typeMap_ok e He). apply maps_ret_bind, maps_each_device; [apply on_active_key|].
    apply typed_interface_pointwise.
  - split; [|done]. apply map_fmap_ext. intros k d _.
    rewrite (on_active_foldl (λ e : InterfaceType * ClassTriple, typed_interface e.2 (exec e.1))). apply on_active_ext. intros i.
    etrans; [apply (visit_table g_typeMap g_order (λ i p, interface_matches p i) (λ t, set_authorized (negb (exec t))))|].
    + apply g_typeMap_ok.
    + apply g_order_perm.
    + intros p q. apply overlap_matches.
    + intros t p. by destruct i.
    + unfold type_policy_interface, exec. destruct (entry_of _ _) as [e|]; [|done].
      destruct (named_type _ _ _ _); [done|]. by rewrite negb_involutive.
Qed.

Lemma interface_policy_maps types disable : Maps (ManageInterfaceType types disable : M _)
  (λ d, on_active (type_policy_interface types disable) (type_policy_device types disable d)).
Proof.
  unfold ManageInterfaceType, ExecuteManageInterfaceType.
  assert (keeps_key (type_policy_device types disable)) as Hk.
  { intros d. unfold type_policy_device. destruct (left_to_serial _ _); [done|]. destruct (entry_of _ _); [apply authorized_device_key|done]. }
  apply (maps_bind _ _ id); [done| |intros _].
  { apply maps_quiet, quiet_each_device. intros k d. apply quiet_bind; [apply quiet_host|]. intros _. apply quiet_ret. }
  apply (maps_bind _ _ (type_policy_device types disable) (on_active (type_policy_interface types disable)));
    [done|apply device_types_maps|intros _].
  apply (maps_bind _ _ (on_active (type_policy_interface types disable)) id); [apply on_active_key|apply interface_types_maps|].
  intros _. apply maps_ret_bind, maps_quiet, quiet_each_device. intros k d.
  apply quiet_bind; [apply quiet_host|]. intros _. apply quiet_ret.
Qed.
End Types.
