(* ===== verification/UsbHostTheorems.v ===== *)
(** * The host manager: its properties

    What applications hear about devices and what they are shown; what policies
    do to the devices. *)
From S2P Require Import Prelude UsbErrors Platform UsbDevice UsbInterfaceType UsbHostManager UsbHostPolicy UsbHostProofs UsbHostTables.

(** ** Devices and broadcasts *)

Fixpoint last_event (k : string) (t : list Event) : option HostEvent :=
  match t with [] => None | (e, k') :: t => if bool_decide (k' = k) then Some e else last_event k t end.
(** A device is announced as detached only while it is announced as attached. *)
Fixpoint detached_ok (t : list Event) : Prop :=
  match t with
  | [] => True
  | (e, k) :: t => (e = USB_DEVICE_DETACHED → last_event k t = Some USB_DEVICE_ATTACHED) ∧ detached_ok t
  end.
Definition consistent (v : View) : Prop :=
  (∀ k, v.1 !! k = Some UsbDevice.ENABLED ↔ last_event k v.2 = Some USB_DEVICE_ATTACHED) ∧ detached_ok v.2.
(** The only device that may be new. *)
Definition new_only (K : option string) (v : View) : Prop := ∀ k, v.1 !! k = Some UsbDevice.NEW_ARRIVED → K = Some k.

Lemma last_event_cons e k k' t : last_event k ((e, k') :: t) = if bool_decide (k' = k) then Some e else last_event k t.
Proof. done. Qed.
(** One device changes its status, with the broadcast that goes with it. *)
Lemma consistent_update k st e s t : (st = UsbDevice.ENABLED ↔ e = USB_DEVICE_ATTACHED) →
  (e = USB_DEVICE_DETACHED → s !! k = Some UsbDevice.ENABLED) →
  consistent (s, t) → consistent (<[k := st]> s, (e, k) :: t).
Proof.
  intros Hst He [Hc Ht]. split; cbn [fst snd] in *.
  - intros k'. rewrite last_event_cons. case_bool_decide as Hk.
    + subst k'. rewrite lookup_insert_eq. split; intros [=]; f_equal; tauto.
    + rewrite lookup_insert_ne by done. apply Hc.
  - split; [|done]. intros Hd. apply Hc. auto.
Qed.
Lemma consistent_silent k st s t : st ≠ UsbDevice.ENABLED → s !! k ≠ Some UsbDevice.ENABLED →
  consistent (s, t) → consistent (<[k := st]> s, t).
Proof.
  intros Hst Hk [Hc Ht]. split; [|done]. intros k'. cbn [fst snd] in *. destruct (decide (k' = k)) as [->|Hne].
  - rewrite lookup_insert_eq, <- Hc. split; [congruence|done].
  - rewrite lookup_insert_ne by done. apply Hc.
Qed.
Lemma consistent_policy v v' K : policy_step v v' → consistent v ∧ new_only K v → consistent v' ∧ new_only K v'.
Proof.
  intros Hs [Hc Hn]. split.
  - destruct Hs as [k s t Hk|k s t Hk|k s t Hk]; [apply consistent_silent; [done|congruence|done]|..];
      by apply consistent_update.
  - destruct Hs as [k s t Hk|k s t Hk|k s t Hk]; intros k'; cbn; destruct (decide (k' = k)) as [->|Hne];
      rewrite ?lookup_insert_eq, ?lookup_insert_ne by done; try done; apply Hn.
Qed.
Lemma consistent_policies v v' K : rtc policy_step v v' → consistent v ∧ new_only K v → consistent v' ∧ new_only K v'.
Proof. induction 1; eauto using consistent_policy. Qed.

Section Runs.
Context {W R SM : Type} `{!HostPlatform W R, !PortList SM, !ErrCodeBase, !CJson, !TableOrder}.
Abbreviation HM := (UsbHostManager W SM).
Implicit Types m : HM.

(** *** Requests, departures and arrivals *)

Inductive request : HM → HM → Prop :=
  | req_global b m : request m (ManageGlobalInterface b m).2
  | req_device vid pid b m : request m (ManageDevice vid pid b m).2
  | req_trust_list l m : request m (ManageDevicePolicy l m).2
  | req_interface_type l b m : request m (ManageInterfaceType l b m).2
  | req_usb_type l b m : request m (ManageUsbType l b m).2
  | req_serial b m : request m (ManageUsbSerialDevice b m).2
  | req_loaded m : request m (OnLoadSystemAbilitySuccess m).2.

(** What other threads do while an arriving device holds no lock. *)
Inductive other_step : HM → HM → Prop :=
  | other_request m m' : request m m' → other_step m m'
  | other_departure bus addr m : other_step m (DelDevice bus addr m).2.

(** An arrival at an address that is free, with others between its three parts. *)
Inductive host_step : HM → HM → Prop :=
  | step_other m m' : other_step m m' → host_step m m'
  | step_arrival d m m1 m2 : devices_ m !! key_of d = None →
      rtc other_step (AddDevice_insert d m).2 m1 → rtc other_step (ExecuteStrategy m1).2 m2 →
      host_step m (AddDevice_publish (key_of d) m2).2.

(** [AddDevice] itself is the arrival without others. *)
Lemma AddDevice_arrival d m : devices_ m !! key_of d = None → (AddDevice (Some d) m).1 ≠ None →
  host_step m (AddDevice (Some d) m).2.
Proof.
  intros Hd. unfold AddDevice. rewrite !bind_run. destruct (ExecuteStrategy _).1 as [[]|] eqn:E; [|done].
  rewrite bind_run, ret_run. intros _. by eapply step_arrival.
Qed.

Definition host_inv (K : option string) m : Prop := wf m ∧ consistent (view m) ∧ new_only K (view m).

Lemma sim_inv {A} (f : state HM A) K m : Sim f → host_inv K m → host_inv K (f m).2.
Proof.
  intros Hf (Hw & Hc & Hn). destruct (Hf m Hw) as [Hw' Hs]. split; [done|].
  by apply (consistent_policies _ _ K Hs).
Qed.
Lemma request_inv K m m' : request m m' → host_inv K m → host_inv K m'.
Proof.
  destruct 1; apply sim_inv; eauto using sim_global, sim_manage_device, sim_device_policy, sim_types, sim_usb_type,
    sim_usb_serial, sim_strategy.
Qed.

(** A departure takes the device away, with the broadcast when it was visible. *)
Definition departure_events (k : string) (st : UsbDevice.AuthorizeStatus) : list Event :=
  if bool_decide (st = UsbDevice.ENABLED) then [(USB_DEVICE_DETACHED, k)] else [].
Lemma DelDevice_run bus addr m (k := device_key bus addr) d : wf m → devices_ m !! k = Some d →
  let m' := (DelDevice bus addr m).2 in
  devices_ m' = delete k (devices_ m) ∧ events m' = departure_events k (UsbDevice.authorizeStatus_ d) ++ events m.
Proof.
  intros Hw Hd. cbv zeta. unfold DelDevice. rewrite bind_run. cbn [device_at gets fst snd]. fold k. rewrite Hd, bind_run.
  set (pub := if bool_decide _ then _ else _ : state HM ()). set (st := UsbDevice.authorizeStatus_ d) in *.
  assert (devices_ (pub m).2 = devices_ m ∧ events (pub m).2 = departure_events k st ++ events m) as [E1 E2].
  { unfold pub, departure_events. destruct (decide (st = UsbDevice.ENABLED)) as [He|He];
      [rewrite !(bool_decide_true _ He)|by rewrite !(bool_decide_false _ He)].
    rewrite bind_run, ret_run. cbn [snd]. destruct (publish_run USB_DEVICE_DETACHED d m) as (-> & -> & _).
    by rewrite <- (Hw k d Hd). }
  rewrite <- E1, <- E2. rewrite bind_run, bind_run, ret_run. cbn [snd]. by destruct (pub m).2.
Qed.

Lemma departure_inv K bus addr m : host_inv K m → host_inv K (DelDevice bus addr m).2.
Proof.
  intros (Hw & [Hc Ht] & Hn). set (k := device_key bus addr).
  destruct (devices_ m !! k) as [d|] eqn:Hd; [|unfold DelDevice; rewrite bind_run; cbn [device_at gets fst snd];
    unfold k in Hd; by rewrite Hd].
  destruct (DelDevice_run bus addr m d Hw Hd) as [E1 E2]. set (st := UsbDevice.authorizeStatus_ d) in *.
  assert (statuses m !! k = Some st) as Hs by (unfold statuses; by rewrite lookup_fmap, Hd).
  unfold host_inv, wf, view, statuses. rewrite E1, E2. fold k. rewrite fmap_delete. fold (statuses m).
  unfold consistent, new_only, departure_events in *. cbn [view fst snd] in *.
  split; [intros k' d' [_ Hk]%lookup_delete_Some; by apply Hw|]. split.
  - split.
    + intros k'. destruct (decide (k' = k)) as [->|Hne].
      * rewrite lookup_delete_eq. split; [done|]. case_bool_decide as He; cbn [app].
        -- by rewrite last_event_cons, bool_decide_true.
        -- intros Hl%Hc. congruence.
      * rewrite lookup_delete_ne, Hc by done. case_bool_decide; [|done]. cbn [app].
        by rewrite last_event_cons, bool_decide_false.
    + case_bool_decide as He; [|done]. split; [|done]. intros _. apply Hc. congruence.
  - intros k' [_ Hk]%lookup_delete_Some. by apply Hn.
Qed.
Lemma other_inv K m m' : rtc other_step m m' → host_inv K m → host_inv K m'.
Proof. induction 1 as [|m m1 m2 Hs _ IH]; [done|]. intros Hi. apply IH. destruct Hs; eauto using request_inv, departure_inv. Qed.

(** The parts of an arrival. *)
Lemma sim_add_serial d : Sim (AddUsbSerialDevice d : state HM ()).
Proof.
  apply sim_frame. intros []. unfold AddUsbSerialDevice. run_unfold. cbn.
  destruct usbSerialManager_ as [sm|]; [|done]. destruct (sm_SerialGetPortList sm) as [[ret l] sm'].
  destruct (negb _); [done|]. by destruct (_ && _).
Qed.
Lemma insert_inv d m : devices_ m !! key_of d = None → host_inv None m → host_inv (Some (key_of d)) (AddDevice_insert d m).2.
Proof.
  intros Hd (Hw & Hc & Hn). set (k := key_of d) in *. unfold AddDevice_insert. rewrite bind_run. fold k.
  apply sim_inv; [apply sim_add_serial|]. unfold modify. cbn [snd].
  assert (view (set_devices (<[k := set_status UsbDevice.NEW_ARRIVED d]> (devices_ m)) m) =
    (<[k := UsbDevice.NEW_ARRIVED]> (statuses m), events m)) as Hv.
  { destruct m. unfold view, statuses. cbn. by rewrite fmap_insert, set_status_status. }
  unfold host_inv. rewrite Hv. split; [|split].
  - unfold wf. destruct m; cbn in *. apply map_Forall_insert_2; [by rewrite set_status_key|done].
  - apply consistent_silent; [done| |done]. unfold statuses. by rewrite lookup_fmap, Hd.
  - intros k'. cbn [fst]. destruct (decide (k' = k)) as [->|Hne]; [done|].
    rewrite lookup_insert_ne by done. intros Hk. by apply Hn in Hk.
Qed.

Lemma publish_inv k m : host_inv (Some k) m → host_inv None (AddDevice_publish k m).2.
Proof.
  intros (Hw & Hc & Hn). unfold AddDevice_publish. rewrite bind_run. cbn [device_at gets fst snd].
  destruct (devices_ m !! k) as [d|] eqn:Hd.
  - destruct (alter_status k UsbDevice.ENABLED d m Hw Hd) as (Hw' & Hs & Hk). case_bool_decide as Hst.
    + split; [done|]. split; [done|]. intros k' Hk'. pose proof (Hn _ Hk') as [= <-]. cbn in Hk'. congruence.
    + rewrite bind_run, bind_run, ret_run. unfold alter_device, modify. cbn [fst snd].
      set (m1 := set_devices (alter (set_status UsbDevice.ENABLED) k (devices_ m)) m).
      destruct (publish_run USB_DEVICE_ATTACHED (set_status UsbDevice.ENABLED d) m1) as (E1 & E2 & _).
      rewrite set_status_key, <- (Hw k d Hd) in E2.
      assert (devices_ m1 = alter (set_status UsbDevice.ENABLED) k (devices_ m)) as E3 by (by destruct m).
      assert (events m1 = events m) as E4 by (by destruct m).
      unfold host_inv, wf, view. unfold statuses at 1 2. rewrite E1, E2, E3, E4, Hs. split; [done|].
      split; [by apply consistent_update|]. intros k'. cbn [fst].
      destruct (decide (k' = k)) as [->|Hne]; [by rewrite lookup_insert_eq|].
      rewrite lookup_insert_ne by done. intros Hk'. apply Hn in Hk'. congruence.
  - split; [done|]. split; [done|]. intros k' Hk'. pose proof (Hn _ Hk') as [= <-].
    cbn in Hk'. unfold statuses in Hk'. by rewrite lookup_fmap, Hd in Hk'.
Qed.

Lemma host_step_inv m m' : host_step m m' → host_inv None m → host_inv None m'.
Proof.
  destruct 1 as [m m' Hs|d m m1 m2 Hd Hs1 Hs2]; intros Hi; [by eapply other_inv; [apply rtc_once|]|].
  apply publish_inv. eapply other_inv; [done|]. apply sim_inv; [apply sim_strategy|].
  eapply other_inv; [done|]. by apply insert_inv.
Qed.

(** The manager as constructed. *)
Definition new_manager (w : W) (device_service host_service : bool) (sm : option SM) : HM :=
  Build_UsbHostManager ∅ false sm [] device_service host_service w [].

(** C10: applications hear exactly about the devices they may use: in every state
    reached through arrivals, one at a time and each at an address that is free,
    departures and policy requests,
    with policy requests and departures between the parts of an arrival, a device
    of the table is enabled exactly when the last broadcast about its address
    says attached, no broadcast says detached about a device that was not
    announced, no device of the table is still new, and every device is stored
    under its address. *)
Theorem host_broadcasts w ds hs sm m : rtc host_step (new_manager w ds hs sm) m →
  (∀ k, (∃ d, devices_ m !! k = Some d ∧ UsbDevice.authorizeStatus_ d = UsbDevice.ENABLED) ↔
     last_event k (events m) = Some USB_DEVICE_ATTACHED) ∧
  detached_ok (events m) ∧
  (∀ k d, devices_ m !! k = Some d → k = key_of d ∧ UsbDevice.authorizeStatus_ d ≠ UsbDevice.NEW_ARRIVED).
Proof.
  intros Hs. assert (host_inv None m) as (Hw & [Hc Ht] & Hn).
  { assert (host_inv None (new_manager w ds hs sm)) as Hi.
    { split; [done|]. split; [split; [|done]|]; cbn; [|by intros k]. intros k. split; [|done]. unfold statuses. cbn.
      rewrite fmap_empty. by rewrite lookup_empty. }
    induction Hs as [|m0 m1 m2 Hstep _ IH]; [done|]. by apply IH, (host_step_inv m0). }
  cbn in Hc, Ht. unfold new_only, statuses in *. cbn in Hn. unfold statuses in *. split; [|split; [done|]].
  - intros k. rewrite <- Hc, lookup_fmap. destruct (devices_ m !! k) as [d|]; cbn; [|split; [by intros (d & [=] & _)|done]].
    split; [by intros (d' & [= ->] & ->)|]. intros [= He]. by exists d.
  - intros k d Hd. split; [by apply Hw|]. intros He. assert (None = Some k); [|done]. apply Hn.
    by rewrite lookup_fmap, Hd; cbn; rewrite He.
Qed.
End Runs.

(** ** What policies do to the devices *)

Section Enforcement.
Context {W R SM : Type} `{!HostPlatform W R, !PortList SM, !ErrCodeBase, !CJson, !TableOrder, !ReliableHost W R}.
Implicit Types m : UsbHostManager W SM.

(** Both services are there. *)
Definition connected m : Prop := usbDeviceInterface_ m = true ∧ usbHostInterface_ m = true.
Lemma connected_core m : connected m → core m = (true, true, serialDevices_ m).
Proof. unfold connected, core. by intros [-> ->]. Qed.
Lemma authorized_device_status b d : UsbDevice.authorizeStatus_ (authorized_device b d) = UsbDevice.DISABLED ↔ b = false.
Proof.
  unfold authorized_device. rewrite set_status_status. destruct b, (UsbDevice.authorizeStatus_ d); cbn; by split.
Qed.

(** C11: the permissive type policy is enforced exactly.  On a platform that
    accepts, [ManageUsbType] turns every device of the table into what the types
    ask, without the order of the table mattering: a device left to the serial
    policy keeps its status, any other is disabled exactly when it is named by a
    device type (with [disable]; unnamed, without it); then, unless it is a hub or
    disabled, each interface of its active configuration is authorised exactly
    when not named (with [disable]) by an interface type.  Nothing else changes. *)
Theorem ManageUsbType_exact types disable m : wf m → connected m →
  let m' := (ManageUsbType types disable m).2 in
  devices_ m' = (λ d, usb_type_interfaces (interface_types types) disable
                        (usb_type_device (serialDevices_ m) (device_types types) disable d)) <$> devices_ m ∧
  (∀ k d d', devices_ m !! k = Some d → devices_ m' !! k = Some d' → left_to_serial (serialDevices_ m) d = false →
     UsbDevice.authorizeStatus_ d' = UsbDevice.DISABLED ↔
     existsb (λ t, device_matches (pattern_of t) d) (device_types types) = disable).
Proof.
  intros Hm Hc%connected_core. cbv zeta.
  unfold ManageUsbType, ExecuteManageUsbType, ManageUsbTypeDeviceImpl, ManageUsbTypeInterfaceImpl.
  rewrite bind_run, ret_run, bind_run. cbn [snd].
  set (f := usb_type_device (serialDevices_ m) (device_types types) disable).
  assert (keeps_key f) as Hf.
  { intros d. unfold f, usb_type_device. destruct (left_to_serial _ d); [done|apply authorized_device_key]. }
  set (g := usb_type_interfaces (interface_types types) disable).
  assert (keeps_key g) as Hg.
  { intros d. unfold g, usb_type_interfaces. destruct (_ || _); [done|apply map_interfaces_key]. }
  destruct (each_device_pointwise _ _ f m (usb_type_device_pointwise _ (device_types types) disable) Hf Hm Hc) as [E1 E2].
  destruct (each_device_pointwise _ _ g (each_device (usb_type_device_round (device_types types) disable) m).2
    (usb_type_interface_pointwise _ (interface_types types) disable) Hg (fmap_wf _ _ _ Hf Hm E1) E2) as [E3 _].
  assert (devices_ (each_device (usb_type_interface_round (interface_types types) disable)
    (each_device (usb_type_device_round (device_types types) disable) m).2).2 = (λ d, g (f d)) <$> devices_ m) as E4.
  { by rewrite E3, E1, <- map_fmap_compose. }
  split; [done|]. rewrite E4. intros k d d' Hd. rewrite lookup_fmap, Hd. cbn. intros [= <-] Hl.
  assert (UsbDevice.authorizeStatus_ (g (f d)) = UsbDevice.authorizeStatus_ (f d)) as ->.
  { unfold g, usb_type_interfaces. destruct (_ || _); [done|apply map_interfaces_status]. }
  unfold f, usb_type_device. rewrite Hl, authorized_device_status. destruct (existsb _ _), disable; by split.
Qed.

Lemma in_trust_list_false l d : in_trust_list l d = false ↔
  ∀ t, t ∈ l → (vendorId t, productId t) ≠ (UsbDevice.vendorId_ d, UsbDevice.productId_ d).
Proof.
  unfold in_trust_list. rewrite <- not_true_iff_false, existsb_exists. split.
  - intros Hn t Ht [= Hv Hp]. apply Hn. exists t. split; [by apply list_elem_of_In|]. by rewrite Hv, Hp, !Z.eqb_refl.
  - intros Hn (t & Ht & [Hp%Z.eqb_eq Hv%Z.eqb_eq]%andb_true_iff). apply (Hn t); [by apply list_elem_of_In|congruence].
Qed.

(** The trust list is enforced exactly.  On a platform that accepts,
    [ManageDevicePolicy] succeeds and decides about every device by its vendor
    and product alone, although a round for one device acts on all devices with
    the same numbers: hubs keep their status; any other device is afterwards
    disabled exactly when the list is not empty and does not name it.  Nothing
    else changes. *)
Theorem ManageDevicePolicy_exact trustList m : wf m → connected m →
  let '(ret, m') := ManageDevicePolicy trustList m in
  ret = UEC_OK ∧ devices_ m' = trust_device trustList <$> devices_ m ∧
  (∀ k d d', devices_ m !! k = Some d → devices_ m' !! k = Some d' → is_hub d = false →
     UsbDevice.authorizeStatus_ d' = UsbDevice.DISABLED ↔
     trustList ≠ [] ∧ ∀ t, t ∈ trustList → (vendorId t, productId t) ≠ (UsbDevice.vendorId_ d, UsbDevice.productId_ d)).
Proof.
  intros Hm Hc%connected_core.
  destruct (ManageDevicePolicy trustList m) as [ret m'] eqn:E. unfold ManageDevicePolicy, ExecuteManageDevicePolicy in E.
  rewrite bind_run, bind_run in E. cbn [get fst snd] in E. destruct (sorted_keys_spec (devices_ m)) as [_ Hk].
  destruct (trust_fold_run _ trustList (sorted_keys (devices_ m)) m Hm Hc) as (E1 & E2 & _).
  rewrite E1 in E. cbn in E. injection E as <- <-. split; [done|].
  assert (devices_ (for_fold (trust_round trustList) UEC_OK (sorted_keys (devices_ m)) m).2 = trust_device trustList <$> devices_ m) as E3.
  { rewrite E2. apply map_fmap_ext. intros k d Hd. unfold trust_some. rewrite bool_decide_true; [done|].
    unfold ids_at. apply list_elem_of_omap. exists k. rewrite Hk, Hd. split; [by eexists|done]. }
  split; [done|]. rewrite E3. intros k d d' Hd. rewrite lookup_fmap, Hd. cbn. intros [= <-] Hh.
  unfold trust_device. rewrite Hh, authorized_device_status. unfold trusted.
  rewrite orb_false_iff, bool_decide_eq_false, in_trust_list_false. tauto.
Qed.

(** The policy with fixed types is enforced exactly, in whatever order the
    unordered tables are visited.  On a platform that accepts,
    [ManageInterfaceType] turns every device of the table into what the types ask:
    a device whose class is in the table of device types, and that is not left to
    the serial policy, is disabled exactly when its type is named (with [disable];
    not named, without it), and a device whose class is not in the table keeps its
    status; the interfaces likewise, for devices that are neither hubs nor
    disabled, in the active configuration.  Nothing else changes. *)
Theorem ManageInterfaceType_exact types disable m : wf m → connected m →
  let m' := (ManageInterfaceType types disable m).2 in
  devices_ m' = (λ d, on_active (type_policy_interface types disable)
                        (type_policy_device (serialDevices_ m) types disable d)) <$> devices_ m ∧
  (∀ k d d', devices_ m !! k = Some d → devices_ m' !! k = Some d' → left_to_serial (serialDevices_ m) d = false →
     match entry_of d_typeMap (λ p, device_matches p d) with
     | Some e => UsbDevice.authorizeStatus_ d' = UsbDevice.DISABLED ↔ named_type d_typeMap true types e.1 = disable
     | None => UsbDevice.authorizeStatus_ d' = UsbDevice.authorizeStatus_ d
     end).
Proof.
  intros Hm Hc%connected_core. cbv zeta.
  destruct (interface_policy_maps (serialDevices_ m) types disable m Hm Hc) as [-> _]. split; [done|].
  intros k d d' Hd. rewrite lookup_fmap, Hd. cbn [fmap option_fmap option_map]. intros [= <-] Hl. set (d1 := type_policy_device _ _ _ d).
  assert (UsbDevice.authorizeStatus_ (on_active (type_policy_interface types disable) d1) = UsbDevice.authorizeStatus_ d1) as ->.
  { unfold on_active. destruct (_ || _); [done|apply map_interfaces_status]. }
  unfold d1, type_policy_device. rewrite Hl. destruct (entry_of _ _) as [e|]; [|done].
  rewrite authorized_device_status. destruct (named_type _ _ _ _), disable; by split.
Qed.
End Enforcement.

(** ** The strategy of an arriving device *)

Create HintDb query.

Section Strategy.
Context {W R SM : Type} `{!HostPlatform W R, !PortList SM, !ErrCodeBase, !CJson, !TableOrder}.
Abbreviation M := (state (UsbHostManager W SM)).
Implicit Types m : UsbHostManager W SM.

(** The base is a subsystem shifted over 16 bits. *)
Definition err_base_aligned : Prop := USBFWK_SERVICE_ERR_OFFSET `mod` 2 ^ 16 = 0.
Definition code (z : Z) : Prop := z = UEC_OK ∨ ∃ e, z = uec e.
Lemma code_not_timeout z : err_base_aligned → code z → (z =? EDM_SA_TIME_OUT_CODE) = false.
Proof.
  unfold err_base_aligned, EDM_SA_TIME_OUT_CODE. intros Hb [->|[e ->]]; apply Z.eqb_neq; [done|].
  pose proof (uec_index_range e). unfold uec. intros Ht.
  assert (USBFWK_SERVICE_ERR_OFFSET = 9200007 - UsbErrCode_index e) as Hbase by lia. rewrite Hbase in Hb.
  pose proof (Z.div_mod (9200007 - UsbErrCode_index e) (2 ^ 16)). lia.
Qed.

(** A query leaves the devices and answers with a code. *)
Definition Query {A} (f : M (Z * A)) : Prop := ∀ m, quiet m (f m).2 ∧ code (f m).1.1.
Lemma query_ret {A} z (a : A) : code z → Query (mret (z, a)).
Proof. done. Qed.
Lemma query_bind {A B} (f : M A) (g : A → M (Z * B)) : Quiet f → (∀ a, Query (g a)) → Query (f ≫= g).
Proof.
  intros Hf Hg m. rewrite bind_run. destruct (Hg (f m).1 (f m).2) as [Hq Hc]. split; [|done].
  by eapply quiet_trans.
Qed.
Lemma query_chain {A B} (f : M (Z * A)) (g : Z * A → M (Z * B)) :
  Query f → (∀ z a, code z → Query (g (z, a))) → Query (f ≫= g).
Proof.
  intros Hf Hg m. rewrite bind_run. destruct (Hf m) as [Hq Hc]. destruct (f m) as [[z a] m']. cbn [fst snd] in *.
  destruct (Hg z a Hc m') as [Hq' Hc']. split; [|done]. by eapply quiet_trans.
Qed.
Lemma query_if {A} (b : bool) (f g : M (Z * A)) : Query f → Query g → Query (if b then f else g).
Proof. by destruct b. Qed.
Lemma code_ok : code UEC_OK.
Proof. by left. Qed.
Lemma code_uec e : code (uec e).
Proof. right. by eexists. Qed.
Lemma quiet_if {A} (b : bool) (f g : M A) : Quiet f → Quiet g → Quiet (if b then f else g).
Proof. by destruct b. Qed.
Lemma quiet_set_perm b : Quiet (modify (set_perm b) : M ()).
Proof. by intros []. Qed.
Lemma code_types n : ∀ r : R, code (ReadTypePolicyFromParcel n r).1.
Proof.
  induction n as [|n IH]; intros r; cbn [ReadTypePolicyFromParcel]; [apply code_ok|].
  repeat match goal with
  | |- context [let '(_, _) := ?f ?x in _] => lazymatch f with
      | ReadTypePolicyFromParcel _ => specialize (IH x); destruct (f x) as [? ?]; exact IH
      | _ => destruct (f x) as [? ?] end
  | |- context [match ?o with Some _ => _ | None => _ end] => destruct o; [|apply code_uec]
  end.
Qed.

Lemma code_types_eqn n (r : R) z l : ReadTypePolicyFromParcel n r = (z, l) → code z.
Proof. intros E. change z with (z, l).1. rewrite <- E. apply code_types. Qed.
Hint Resolve code_ok code_uec code_types_eqn quiet_platform quiet_edm_request quiet_set_perm quiet_ret quiet_if : query.
Ltac quietly := repeat match goal with
  | |- Quiet (_ ≫= _) => apply quiet_bind; [|intros ?]
  | |- Quiet (if _ then _ else _) => apply quiet_if
  | |- Quiet _ => solve [eauto with query]
  end.
Ltac query := repeat match goal with
  | |- Query (mret (_, _)) => apply query_ret; eauto with query
  | |- Query (if _ then _ else _) => apply query_if
  | |- Query (match ?o with Some _ => _ | None => _ end) => destruct o
  | |- Query (let '(_, _) := ?p in _) => destruct p as [? ?] eqn:?
  | |- Query (_ ≫= _) => apply query_chain; [solve [eauto with query]|intros ? ? ?]
  | |- Query (_ ≫= _) => apply query_bind; [solve [quietly]|intros ?]
  | |- Query _ => solve [eauto with query]
  end.
Lemma query_global b pol : Query (GetEdmGlobalPolicy b pol).
Proof. unfold GetEdmGlobalPolicy. query. Qed.
Lemma query_storage b pol : Query (GetEdmStroageTypePolicy b pol).
Proof. unfold GetEdmStroageTypePolicy. query. Qed.
Lemma query_types b pol : Query (GetEdmTypePolicy b pol).
Proof. unfold GetEdmTypePolicy. query. Qed.
Lemma query_perm_types b pol : Query (GetEdmPermTypePolicy b pol).
Proof. unfold GetEdmPermTypePolicy. query. Qed.
Lemma query_trust_list b pol : Query (GetEdmTrustListPolicy b pol).
Proof. unfold GetEdmTrustListPolicy. query. Qed.
Hint Resolve query_global query_storage query_types query_perm_types query_trust_list : query.
Lemma query_edm pol : Query (GetEdmPolicy pol).
Proof.
  unfold GetEdmPolicy, LoadEdmService. cbn [edm_queries]. query.
Qed.

(** The loop of [GetUsbPolicy] makes one attempt. *)
Lemma GetUsbPolicy_once pol m : err_base_aligned → let '((ret, pol'), m') := GetEdmPolicy pol (on_platform steady_clock_ms m).2 in
  GetUsbPolicy pol m =
    (Some (if ret =? UEC_OK then UEC_OK else uec UEC_SERVICE_PREPARE_EDM_SA_FAILED, pol'), m').
Proof.
  intros Hb. set (m1 := (on_platform steady_clock_ms m).2). destruct (query_edm pol m1) as [_ Hc].
  assert (GetUsbPolicy pol m = policy_loop POLICY_ATTEMPTS (on_platform steady_clock_ms m).1 pol m1) as ->.
  { unfold GetUsbPolicy. by rewrite bind_run. }
  assert (POLICY_ATTEMPTS = S (Nat.pred POLICY_ATTEMPTS)) as -> by done. cbn [policy_loop]. run_unfold.
  destruct (GetEdmPolicy pol m1) as [[ret pol'] m2]. cbn [fst] in Hc. rewrite (code_not_timeout ret Hb Hc).
  by destruct (ret =? UEC_OK).
Qed.

Abbreviation no_policy := {| isGlobalDisabled := false; disableTypes := []; trustUsbDeviceIds := [] |}.
(** The device manager's answer that an arriving device triggers. *)
Definition asked (m : UsbHostManager W SM) : (Z * EdmPolicy) * UsbHostManager W SM :=
  GetEdmPolicy no_policy (on_platform steady_clock_ms (IsEdmEnabled m).2).2.

Lemma quiet_enabled : Quiet (IsEdmEnabled : M bool).
Proof. unfold IsEdmEnabled. quietly. Qed.
Lemma asked_quiet m : quiet m (asked m).2.
Proof.
  unfold asked. eapply quiet_trans; [apply quiet_enabled|]. eapply quiet_trans; [apply (quiet_platform steady_clock_ms)|]. apply query_edm.
Qed.

(** Where the types that are not permissive are never any, no policy applies. *)
Definition types_reply (w : W) : option Z :=
  let '((_, reply), _) := SendRequest (Z.lor (Z.shiftl 1 EMD_MASK_CODE) USB_DEVICE_ACCESS_POLICY) w in
  (reply_ReadInt32 (reply_ReadInt32 reply).2).1.
Lemma types_query_fails pol m : (∀ w, default 0 (types_reply w) <= 0) → (GetEdmTypePolicy true pol m).1.1 ≠ UEC_OK.
Proof.
  intros Hw. specialize (Hw (platform_ m)). revert Hw. unfold types_reply, GetEdmTypePolicy, edm_request, on_platform.
  generalize (Z.lor (Z.shiftl 1 EMD_MASK_CODE) USB_DEVICE_ACCESS_POLICY). intros code Hw. cbn [negb]. run_unfold.
  destruct (SendRequest code (platform_ m)) as [[ret r] w'].
  destruct (reply_ReadInt32 r) as [z r']. cbn [snd] in Hw.
  match goal with |- context [if ?b then _ else _] => destruct b; [apply uec_not_OK|] end.
  destruct (reply_ReadInt32 r') as [[size|] r'']; [|apply uec_not_OK]. cbn in Hw.
  assert ((size <=? 0) = true) as -> by lia. apply uec_not_OK.
Qed.
Lemma queries_fail q l : (∀ pol m, (q pol m).1.1 ≠ UEC_OK) → q ∈ l → ∀ pol m, (edm_queries l pol m).1.1 ≠ UEC_OK.
Proof.
  intros Hq. induction 1 as [q l|q q' l _ IH]; intros pol m; cbn [edm_queries]; rewrite bind_run.
  - specialize (Hq pol m). destruct (q pol m) as [[ret pol'] m']. cbn [fst snd] in *.
    apply Z.eqb_neq in Hq as Hq'. by rewrite Hq'.
  - destruct (q' pol m) as [[ret pol'] m']. cbn [fst snd]. destruct (ret =? UEC_OK) eqn:Hr; cbn [negb]; [by apply IH|].
    by apply Z.eqb_neq.
Qed.

Lemma asked_no_types m : (∀ w, default 0 (types_reply w) <= 0) → (asked m).1.1 ≠ UEC_OK.
Proof.
  intros Hw. unfold asked, GetEdmPolicy. rewrite bind_run. destruct (on_platform has_SystemAbilityManager _) as [[|] m1]; cbn [negb fst snd];
    [|apply uec_not_OK].
  rewrite bind_run. destruct (on_platform (CheckSystemAbility _) m1) as [[|] m2]; cbn [negb fst snd].
  - eapply queries_fail; [by intros ? ?; apply types_query_fails|]. by right; right; left.
  - rewrite bind_run. apply uec_not_OK.
Qed.

(** C36: an arriving device never waits for its policy.  With error codes that
    leave 16 bits for the subsystem, [ExecuteStrategy] always comes to an end, after
    one attempt to read the policy; it applies the policy when all five questions
    are answered, and otherwise changes no device and broadcasts nothing.  In
    particular it applies nothing - a prohibition of all devices, the permissive
    types and the trust list alike - where the list of non-permissive types is
    empty. *)
Theorem ExecuteStrategy_spec m : err_base_aligned →
  let r := ExecuteStrategy m in
  let '((ret, pol), m1) := asked m in
  r.1 = Some () ∧
  r.2 = (if (IsEdmEnabled m).1 then if ret =? UEC_OK then (run_policy pol m1).2 else m1 else (IsEdmEnabled m).2) ∧
  ((IsEdmEnabled m).1 = false ∨ ret ≠ UEC_OK → quiet m r.2) ∧
  ((∀ w, default 0 (types_reply w) <= 0) → quiet m r.2).
Proof.
  intros Hb. cbv zeta. pose proof (asked_quiet m) as Hq. pose proof (quiet_enabled m) as Hq0.
  pose proof (asked_no_types m) as Hn.
  unfold asked in *. unfold ExecuteStrategy. rewrite bind_run. destruct (IsEdmEnabled m) as [[|] m0]; cbn [fst snd negb] in *.
  2: { destruct (GetEdmPolicy _ _) as [[ret pol] m1]. refine (conj _ (conj _ (conj _ _))); done. }
  rewrite bind_run. pose proof (GetUsbPolicy_once no_policy m0 Hb) as E.
  destruct (GetEdmPolicy _ _) as [[ret pol] m1]. rewrite E. cbn [fst snd] in *.
  destruct (ret =? UEC_OK) eqn:Hr.
  - assert ((UEC_OK =? uec UEC_SERVICE_EDM_SA_TIME_OUT_FAILED) || (UEC_OK =? uec UEC_SERVICE_PREPARE_EDM_SA_FAILED) = false) as ->.
    { apply orb_false_iff. split; apply Z.eqb_neq; apply not_eq_sym, uec_not_OK. }
    apply Z.eqb_eq in Hr. rewrite bind_run. split; [done|]. split; [done|]. split; [by intros [?|?]|]. by intros ?%Hn.
  - rewrite Z.eqb_refl, orb_true_r. refine (conj _ (conj _ (conj _ _))); done.
Qed.
End Strategy.
