(* ===== verification/UsbHostExamples.v ===== *)
(** * The host manager: a concrete platform and the theorems at work

    The serial manager as the host manager's source of ports; a platform whose
    services accept; the theorems of the host manager applied to it, and runs that
    show what the policies leave out. *)
From S2P Require Import Prelude UsbErrors Platform UsbDevice UsbDeviceTree UsbInterfaceType UsbHostManager UsbHostPolicy UsbHostProofs UsbHostTables SerialManager UsbHostTheorems.

(** The devices of the ports that [SerialGetPortList] of the serial manager finds;
    [deviceInfo] is a field of the port record of the HDI. *)
Definition serial_port_list {D SerialPort SerialAttribute} `{!SerialInterface D SerialPort SerialAttribute, !ErrCodeBase}
    (deviceInfo : SerialPort → UsbDev) : PortList (SerialManager D SerialPort) := {|
  sm_SerialGetPortList := '(ret, l) ← SerialManager.SerialGetPortList []; mret (ret, map deviceInfo l) |}.

(** What the device manager replies to each request. *)
Record DemoHost := { edm_reply : Z → list Z }.
(** The enterprise manager is there, serial devices are prohibited. *)
Definition demo_parameter (k dflt : string) : string :=
  if bool_decide (k = "persist.edm.enterprise_config_enable") then "true"
  else if bool_decide (k = "persist.edm.usb_serial_disable") then "1" else dflt.
Definition constant {S A} (a : A) : state S A := mret a.
#[export] Instance demo_host : HostPlatform DemoHost (list Z) := {
  hdi_OpenDevice _ := constant 0; hdi_CloseDevice _ := constant 0;
  hdi_GetConfig _ _ := constant (0, 1);
  hdi_GetRawDescriptor _ l := constant (0, l); hdi_GetStringDescriptor _ _ l := constant (0, l);
  hdi_ManageInterface _ _ _ := constant 0; hdi_UsbDeviceAuthorize _ _ _ := constant 0;
  hdi_UsbInterfaceAuthorize _ _ _ _ := constant 0;
  UsbHostManager.GetParameter k dflt := constant (demo_parameter k dflt);
  access _ _ := constant 0; iconv_open := constant false; iconv _ := constant None;
  steady_clock_ms := constant 0; UsbHostManager.GetCurrentTime := constant 0;
  CommonEventManager_PublishCommonEvent := constant true; UsbRightManager_IsSystemAppOrSa := constant true;
  has_SystemAbilityManager := constant true; CheckSystemAbility _ := constant true; LoadSystemAbility _ := constant 0;
  SendRequest code := w ← get; mret (0, 0 :: edm_reply w (code `mod` 2 ^ 20));
  reply_ReadInt32 l := match l with [] => (None, []) | z :: l => (Some z, l) end;
  reply_ReadBool l := match l with [] => (None, []) | z :: l => (Some (negb (z =? 0)), l) end;
}.
#[export] Instance demo_reliable : ReliableHost DemoHost (list Z).
Proof. refine {| active_config _ := 1; parameter := demo_parameter |}; done. Defined.
(** The serial device at address 1-3. *)
#[export] Instance demo_port_list : PortList () := {| sm_SerialGetPortList := constant (0, [{| busNum := 1; devAddr := 3 |}]) |}.
#[export] Instance demo_order : TableOrder := {| d_order_perm := Permutation_refl d_typeMap; g_order_perm := Permutation_refl g_typeMap |}.
(** The text of a broadcast does not matter here: printing fails. *)
Definition no_json : CJson := {|
  cJSON_Create_ok := true; cJSON_PrintUnformatted _ := None; cJSON_Parse _ := None;
  cJSON_GetObjectItem _ _ := None; cJSON_items _ := [] |}.
#[local] Existing Instance no_json.
#[local] Existing Instance demo_err_base.

(** Keyboards and mice are prohibited, nothing else; on another host all is
    prohibited, with an empty list of types. *)
Definition no_mice (code : Z) : list Z := if code =? USB_DEVICE_ACCESS_POLICY then [1; 3; 1; 2; 0; 0] else [0].
Definition nothing (code : Z) : list Z := if code =? DISABLE_USB then [1] else [0].
Definition empty_host (reply : Z → list Z) : UsbHostManager DemoHost () :=
  new_manager {| edm_reply := reply |} true true (Some ()).
Definition arrived (reply : Z → list Z) (l : list UsbDevice.t) : UsbHostManager DemoHost () :=
  foldl (λ m d, (AddDevice (Some d) m).2) (empty_host reply) l.
Definition stick : UsbDevice.t :=
  let '(UsbDevice.Build_t _ b c e f g _ h j k l m n o p q r _ _ _ _) := mouse in
  UsbDevice.Build_t "1-3" b c e f g 3 h j k l m n o p q r 8 6 80
    [{| USBConfig.id_ := 1; USBConfig.attributes_ := 0xa0; USBConfig.maxPower_ := 50; USBConfig.name_ := "";
        USBConfig.iConfiguration_ := 0; USBConfig.interfaces_ := [] |}].
Definition status_at (k : string) (m : UsbHostManager DemoHost ()) : option UsbDevice.AuthorizeStatus :=
  UsbDevice.authorizeStatus_ <$> devices_ m !! k.
Definition interfaces_at (k : string) (m : UsbHostManager DemoHost ()) : list bool :=
  match devices_ m !! k with None => [] | Some d =>
    mjoin (map (λ c, map UsbInterface.authorized_ (USBConfig.interfaces_ c)) (UsbDevice.configs_ d)) end.

Lemma arrived_wf_check (m : UsbHostManager DemoHost ()) : forallb (λ '(k, d), bool_decide (k = key_of d)) (map_to_list (devices_ m)) = true → wf m.
Proof.
  rewrite forallb_forall. intros Hf k d Hd. specialize (Hf (k, d)).
  apply (bool_decide_eq_true_1 _), Hf, list_elem_of_In, elem_of_map_to_list, Hd.
Qed.

Example a_mouse_is_refused_its_interface :
  let m := arrived no_mice [mouse; stick] in
  (status_at "1-2" m, interfaces_at "1-2" m, status_at "1-3" m, events m) =
  (Some UsbDevice.ENABLED, [false], Some UsbDevice.DISABLED, [(USB_DEVICE_ATTACHED, "1-2")]).
Proof. vm_compute. reflexivity. Qed.

(** An empty list of types lifts the prohibition of all devices. *)
Example a_global_prohibition_is_dropped : status_at "1-2" (arrived nothing [mouse]) = Some UsbDevice.ENABLED.
Proof. vm_compute. reflexivity. Qed.
(** A list of trusted devices enables the serial device that the policy on serial
    devices disables. *)
Example the_trust_list_enables_a_serial_device :
  let m := arrived no_mice [stick] in
  let trusted := [{| productId := UsbDevice.productId_ stick; vendorId := UsbDevice.vendorId_ stick |}] in
  (status_at "1-3" m, status_at "1-3" (ManageDevicePolicy trusted m).2) = (Some UsbDevice.DISABLED, Some UsbDevice.ENABLED).
Proof. vm_compute. reflexivity. Qed.
(** A device that arrives at an occupied address is not announced as gone: here
    the second is disabled, and the last broadcast says attached. *)
Example an_arrival_at_an_occupied_address :
  let m := (AddDevice (Some stick) (arrived no_mice [set_address 1 3 "1-3" mouse])).2 in
  let m' := (AddDevice (Some (set_address 1 2 "1-2" stick)) (arrived no_mice [mouse])).2 in
  (status_at "1-3" m, events m, last_event "1-2" (events m')) =
  (Some UsbDevice.DISABLED, [], Some USB_DEVICE_ATTACHED).
Proof. vm_compute. reflexivity. Qed.

Lemma host_broadcasts_witness :
  let m := (DelDevice 1 3 (AddDevice (Some stick) (AddDevice (Some mouse) (empty_host no_mice)).2).2).2 in
  (map fst (map_to_list (devices_ m)) = ["1-2"] ∧ events m = [(USB_DEVICE_ATTACHED, "1-2")]) ∧
  (∀ k, (∃ d, devices_ m !! k = Some d ∧ UsbDevice.authorizeStatus_ d = UsbDevice.ENABLED) ↔
     last_event k (events m) = Some USB_DEVICE_ATTACHED) ∧
  detached_ok (events m) ∧
  (∀ k d, devices_ m !! k = Some d → k = key_of d ∧ UsbDevice.authorizeStatus_ d ≠ UsbDevice.NEW_ARRIVED).
Proof.
  split; [by vm_compute|]. apply (host_broadcasts {| edm_reply := no_mice |} true true (Some ())).
  apply rtc_l with (AddDevice (Some mouse) (empty_host no_mice)).2; [apply AddDevice_arrival; by vm_compute|].
  eapply rtc_l; [apply (AddDevice_arrival stick); by vm_compute|].
  apply rtc_once, step_other, other_departure.
Defined.

Lemma ManageUsbType_exact_witness :
  let m := arrived nothing [mouse; stick] in
  let types := [device_type 3 (-1) (-1) true] in
  let m' := (ManageUsbType types true m).2 in
  ((wf m ∧ connected m) ∧ status_at "1-2" m' = Some UsbDevice.ENABLED) ∧
  devices_ m' = (λ d, usb_type_interfaces (interface_types types) true
                        (usb_type_device (serialDevices_ m) (device_types types) true d)) <$> devices_ m.
Proof.
  cbv zeta. assert (wf (arrived nothing [mouse; stick])) as Hw by (apply arrived_wf_check; by vm_compute).
  assert (connected (arrived nothing [mouse; stick])) as Hc by (split; by vm_compute).
  split; [split; [by split|by vm_compute]|].
  exact (proj1 (ManageUsbType_exact [device_type 3 (-1) (-1) true] true _ Hw Hc)).
Defined.

Lemma ManageInterfaceType_exact_witness :
  let m := arrived nothing [mouse; stick] in
  let types := [device_type 3 1 2 false] in
  let m' := (ManageInterfaceType types true m).2 in
  ((wf m ∧ connected m) ∧ interfaces_at "1-2" m' = [false]) ∧
  devices_ m' = (λ d, on_active (type_policy_interface types true)
                        (type_policy_device (serialDevices_ m) types true d)) <$> devices_ m.
Proof.
  cbv zeta. assert (wf (arrived nothing [mouse; stick])) as Hw by (apply arrived_wf_check; by vm_compute).
  assert (connected (arrived nothing [mouse; stick])) as Hc by (split; by vm_compute).
  split; [split; [by split|by vm_compute]|].
  exact (proj1 (ManageInterfaceType_exact [device_type 3 1 2 false] true _ Hw Hc)).
Defined.

Lemma ManageDevicePolicy_exact_witness :
  let m := arrived nothing [mouse; stick] in
  let trusted := [{| productId := 1; vendorId := 2 |}] in
  (wf m ∧ connected m) ∧
  let '(ret, m') := ManageDevicePolicy trusted m in
  ret = UEC_OK ∧ devices_ m' = trust_device trusted <$> devices_ m ∧
  (∀ k d d', devices_ m !! k = Some d → devices_ m' !! k = Some d' → is_hub d = false →
     UsbDevice.authorizeStatus_ d' = UsbDevice.DISABLED ↔
     trusted ≠ [] ∧ ∀ t, t ∈ trusted → (vendorId t, productId t) ≠ (UsbDevice.vendorId_ d, UsbDevice.productId_ d)).
Proof.
  cbv zeta. assert (wf (arrived nothing [mouse; stick])) as Hw by (apply arrived_wf_check; by vm_compute).
  assert (connected (arrived nothing [mouse; stick])) as Hc by (split; by vm_compute).
  split; [by split|]. pose proof (ManageDevicePolicy_exact [{| productId := 1; vendorId := 2 |}] _ Hw Hc) as Hp. exact Hp.
Defined.

Lemma ExecuteStrategy_spec_witness :
  let m := arrived no_mice [mouse] in
  let r := ExecuteStrategy m in
  let '((ret, pol), m1) := asked m in
  (err_base_aligned ∧ ret = UEC_OK ∧ length (disableTypes pol) = 1%nat) ∧
  r.1 = Some () ∧
  r.2 = (if (IsEdmEnabled m).1 then if ret =? UEC_OK then (run_policy pol m1).2 else m1 else (IsEdmEnabled m).2) ∧
  ((IsEdmEnabled m).1 = false ∨ ret ≠ UEC_OK → quiet m r.2) ∧
  ((∀ w, default 0 (types_reply w) <= 0) → quiet m r.2).
Proof.
  cbv zeta. pose proof (ExecuteStrategy_spec (arrived no_mice [mouse]) eq_refl) as Hs. cbv zeta in Hs.
  assert ((asked (arrived no_mice [mouse])).1.1 = UEC_OK ∧ length (disableTypes (asked (arrived no_mice [mouse])).1.2) = 1%nat) as [Hr Hl].
  { split; vm_compute; reflexivity. }
  destruct (asked (arrived no_mice [mouse])) as [[ret pol] m1]. cbn [fst snd] in Hr, Hl.
  split; [exact (conj eq_refl (conj Hr Hl))|]. exact Hs.
Defined.
