(* ===== verification/UsbHostTransfer.v ===== *)
(** * The host manager: transfers
    (services/native/src/usb_host_manager.cpp, usb_report_sys_event.cpp)

    The requests that the host manager passes on to the host service, with the
    callback object of bulk transfers and the recipients that wait for the death of
    a client with a transfer under way.  The structures of the two versions of the
    service's interface that the code casts into each other are one type here.  At
    the end, what the report of a transfer that failed says. *)
From S2P Require Import Prelude UsbErrors Platform UsbDevice UsbInterfaceType UsbHostManager.

Record UsbPipe := { intfId : Z; endpointId : Z }.
Record UsbCtrlTransferParams := {
  requestType : Z; requestCmd : Z; ctrl_value : Z; ctrl_index : Z; ctrl_length : Z; ctrl_timeout : Z }.
Record USBTransferInfo := {
  info_endpoint : Z; info_flags : Z; info_type : Z; info_timeOut : Z; info_length : Z; info_userData : Z;
  info_numIsoPackets : Z }.

(** A remote object of a client; a null pointer is [None] of the option. *)
Definition RemoteObject : Type := Z.
(** [Ashmem(fd, size)]. *)
Record Ashmem := { ashmem_fd : Z; ashmem_size : Z }.

(** The other calls of the host service; the last argument of a call that fills a
    variable is its value before. *)
Class HostTransferPlatform (W : Type) := {
  IUsbDeviceInterface_Get : state W bool;
  IUsbHostInterface_Get : state W bool;
  hdi_BindUsbdHostSubscriber : state W Z;
  hdi_UnbindUsbdHostSubscriber : state W Z;
  hdi_ResetDevice : UsbDev → state W Z;
  hdi_ClaimInterface : UsbDev → Z → Z → state W Z;
  hdi_SetInterface : UsbDev → Z → Z → state W Z;
  hdi_ReleaseInterface : UsbDev → Z → state W Z;
  hdi_SetConfig : UsbDev → Z → state W Z;
  hdi_ClearHalt : UsbDev → UsbPipe → state W Z;
  hdi_GetDeviceFileDescriptor : UsbDev → Z → state W (Z * Z);
  hdi_GetDeviceSpeed : UsbDev → Z → state W (Z * Z);
  hdi_GetInterfaceActiveStatus : UsbDev → Z → bool → state W (Z * bool);
  hdi_BulkTransferRead : UsbDev → UsbPipe → Z → list Z → state W (Z * list Z);
  hdi_BulkTransferReadwithLength : UsbDev → UsbPipe → Z → Z → list Z → state W (Z * list Z);
  hdi_BulkTransferWrite : UsbDev → UsbPipe → Z → list Z → state W Z;
  (* a transfer without length carries 0 *)
  hdi_ControlTransferWrite : UsbDev → UsbCtrlTransferParams → list Z → state W Z;
  hdi_ControlTransferRead : UsbDev → UsbCtrlTransferParams → list Z → state W (Z * list Z);
  hdi_ControlTransferReadwithLength : UsbDev → UsbCtrlTransferParams → list Z → state W (Z * list Z);
  hdi_RequestQueue : UsbDev → UsbPipe → list Z → list Z → state W Z;
  hdi_RequestWait : UsbDev → list Z → list Z → Z → state W (Z * (list Z * list Z));
  hdi_RequestCancel : UsbDev → UsbPipe → state W Z;
  hdi_UsbCancelTransfer : UsbDev → Z → state W Z;
  hdi_UsbSubmitTransfer : UsbDev → USBTransferInfo → RemoteObject → Ashmem → state W Z;
  hdi_RegBulkCallback : UsbDev → UsbPipe → RemoteObject → state W Z;
  hdi_UnRegBulkCallback : UsbDev → UsbPipe → state W Z;
  hdi_BulkRead : UsbDev → UsbPipe → Ashmem → state W Z;
  hdi_BulkWrite : UsbDev → UsbPipe → Ashmem → state W Z;
  hdi_BulkCancel : UsbDev → UsbPipe → state W Z;
  NotifyProcessStatus : state W ();
  cb_AddDeathRecipient : RemoteObject → state W bool;
}.

(** A recipient waits for the death of the client and remembers the transfer. *)
Record SubmitRecipient := { submit_cb : RemoteObject; submit_dev : UsbDev; submit_endpoint : Z }.
#[global] Instance SubmitRecipient_eq_dec : EqDecision SubmitRecipient.
Proof. solve_decision. Defined.

(** The class with the fields that only transfers use. *)
Record HostTransfers (W SM : Type) := {
  manager : UsbHostManager W SM;
  usbHostHdiCb_ : option RemoteObject;   (* the client that UsbBulkCallbackImpl was made for *)
  submitRecipients_ : list SubmitRecipient;
}.
Arguments manager {W SM} _.
Arguments usbHostHdiCb_ {W SM} _.
Arguments submitRecipients_ {W SM} _.
Arguments Build_HostTransfers {W SM} _ _ _.

Section Transfers.
Context {W R SM : Type} `{!HostPlatform W R, !HostTransferPlatform W, !ErrCodeBase}.
Abbreviation HT := (HostTransfers W SM).
Abbreviation M := (state HT).
Abbreviation INVALID := (uec UEC_SERVICE_INVALID_VALUE).

Definition set_manager (x : UsbHostManager W SM) (m : HT) : HT :=
  Build_HostTransfers x (usbHostHdiCb_ m) (submitRecipients_ m).
Definition set_hdi_cb (x : option RemoteObject) (m : HT) : HT := Build_HostTransfers (manager m) x (submitRecipients_ m).
Definition set_recipients (x : list SubmitRecipient) (m : HT) : HT := Build_HostTransfers (manager m) (usbHostHdiCb_ m) x.
Definition on_manager {A} (f : state (UsbHostManager W SM) A) : M A := zoom manager set_manager f.
(** The call on the host service, and [dflt] when it is not there. *)
Definition pass_on {A} (dflt : A) (f : state W A) : M A := on_manager (on_host dflt f).
Definition dev (busNum devAddr : Z) : UsbDev := {| busNum := busNum; devAddr := devAddr |}.
Definition set_interfaces_found (device host : bool) (m : UsbHostManager W SM) : UsbHostManager W SM :=
  let 'Build_UsbHostManager a b c d _ _ g h := m in Build_UsbHostManager a b c d device host g h.

(** *** The service *)

Definition InitUsbHostInterface : M bool :=
  device ← on_manager (on_platform IUsbDeviceInterface_Get);
  on_manager (modify (λ m, set_interfaces_found device (usbHostInterface_ m) m));;
  if negb device then mret false else
  host ← on_manager (on_platform IUsbHostInterface_Get);
  on_manager (modify (set_interfaces_found device host));;
  if negb host then mret false else
  ret ← pass_on 0 hdi_BindUsbdHostSubscriber;
  mret (ret =? 0).
Definition Stop : M () := pass_on () (_ ← hdi_UnbindUsbdHostSubscriber; NotifyProcessStatus).
Definition BindUsbdSubscriber : M Z := pass_on INVALID hdi_BindUsbdHostSubscriber.
Definition UnbindUsbdSubscriber : M Z := pass_on INVALID hdi_UnbindUsbdHostSubscriber.

(** *** Interfaces and configurations *)

Definition ResetDevice (bus addr : Z) : M Z := pass_on INVALID (hdi_ResetDevice (dev bus addr)).
Definition ClaimInterface (bus addr interfaceid force : Z) : M Z :=
  pass_on INVALID (hdi_ClaimInterface (dev bus addr) interfaceid force).
Definition SetInterface (bus addr interfaceid altIndex : Z) : M Z :=
  pass_on INVALID (hdi_SetInterface (dev bus addr) interfaceid altIndex).
Definition ReleaseInterface (bus addr interface : Z) : M Z :=
  pass_on INVALID (hdi_ReleaseInterface (dev bus addr) interface).
Definition SetActiveConfig (bus addr configIndex : Z) : M Z :=
  pass_on INVALID (hdi_SetConfig (dev bus addr) configIndex).
Definition UsbAttachKernelDriver (bus addr interfaceid : Z) : M Z :=
  pass_on INVALID (hdi_ManageInterface (dev bus addr) interfaceid false).
Definition UsbDetachKernelDriver (bus addr interfaceid : Z) : M Z :=
  pass_on INVALID (hdi_ManageInterface (dev bus addr) interfaceid true).
Definition ClearHalt (bus addr interfaceId endpointId : Z) : M Z :=
  pass_on INVALID (hdi_ClearHalt (dev bus addr) {| intfId := interfaceId; endpointId := endpointId |}).
Definition GetFileDescriptor (bus addr fd : Z) : M (Z * Z) :=
  pass_on (INVALID, fd) (hdi_GetDeviceFileDescriptor (dev bus addr) fd).
Definition GetDeviceSpeed (bus addr speed : Z) : M (Z * Z) :=
  pass_on (INVALID, speed) (hdi_GetDeviceSpeed (dev bus addr) speed).
Definition GetInterfaceActiveStatus (bus addr interfaceid : Z) (unactivated : bool) : M (Z * bool) :=
  pass_on (INVALID, unactivated) (hdi_GetInterfaceActiveStatus (dev bus addr) interfaceid unactivated).

(** *** Transfers *)

Definition BulkTransferRead (d : UsbDev) (pipe : UsbPipe) (bufferData : list Z) (timeOut : Z) : M (Z * list Z) :=
  pass_on (INVALID, bufferData) (hdi_BulkTransferRead d pipe timeOut bufferData).
Definition BulkTransferReadwithLength (d : UsbDev) (pipe : UsbPipe) (length : Z) (bufferData : list Z) (timeOut : Z)
    : M (Z * list Z) :=
  pass_on (INVALID, bufferData) (hdi_BulkTransferReadwithLength d pipe timeOut length bufferData).
Definition BulkTransferWrite (d : UsbDev) (pipe : UsbPipe) (bufferData : list Z) (timeOut : Z) : M Z :=
  pass_on INVALID (hdi_BulkTransferWrite d pipe timeOut bufferData).

Definition USB_ENDPOINT_DIR_OUT : Z := 0.
(** The direction is a bit of the request; a read starts with an empty buffer. *)
Definition is_write (requestType : Z) : bool :=
  Z.land (to_u32 requestType) USB_ENDPOINT_DIR_MASK =? USB_ENDPOINT_DIR_OUT.
Definition ControlTransfer (d : UsbDev) (ctrl : UsbCtrlTransferParams) (bufferData : list Z) : M (Z * list Z) :=
  pass_on (INVALID, bufferData)
    (if is_write (requestType ctrl) then ret ← hdi_ControlTransferWrite d ctrl bufferData; mret (ret, bufferData)
     else hdi_ControlTransferRead d ctrl []).
Definition without_length (p : UsbCtrlTransferParams) : UsbCtrlTransferParams := {|
  requestType := requestType p; requestCmd := requestCmd p; ctrl_value := ctrl_value p; ctrl_index := ctrl_index p;
  ctrl_length := 0; ctrl_timeout := ctrl_timeout p |}.
Definition UsbControlTransfer (d : UsbDev) (ctrlParams : UsbCtrlTransferParams) (bufferData : list Z) : M (Z * list Z) :=
  pass_on (INVALID, bufferData)
    (if is_write (requestType ctrlParams)
     then ret ← hdi_ControlTransferWrite d (without_length ctrlParams) bufferData; mret (ret, bufferData)
     else hdi_ControlTransferReadwithLength d ctrlParams []).

Definition RequestQueue (d : UsbDev) (pipe : UsbPipe) (clientData bufferData : list Z) : M Z :=
  pass_on INVALID (hdi_RequestQueue d pipe clientData bufferData).
Definition RequestWait (d : UsbDev) (timeOut : Z) (clientData bufferData : list Z) : M (Z * (list Z * list Z)) :=
  pass_on (INVALID, (clientData, bufferData)) (hdi_RequestWait d clientData bufferData timeOut).
Definition RequestCancel (bus addr interfaceId endpointId : Z) : M Z :=
  pass_on INVALID (hdi_RequestCancel (dev bus addr) {| intfId := interfaceId; endpointId := endpointId |}).
Definition UsbCancelTransfer (d : UsbDev) (endpoint : Z) : M Z := pass_on INVALID (hdi_UsbCancelTransfer d endpoint).

Definition UsbSubmitTransfer (d : UsbDev) (info : USBTransferInfo) (cb : RemoteObject) (ashmem : Ashmem) : M Z :=
  m ← get;
  if negb (usbHostInterface_ (manager m)) then mret INVALID else
  let submitRecipient := {| submit_cb := cb; submit_dev := d; submit_endpoint := info_endpoint info |} in
  added ← on_manager (on_platform (cb_AddDeathRecipient cb));
  if negb added then mret INVALID else
  modify (λ m, set_recipients (submitRecipients_ m ++ [submitRecipient]) m);;
  ret ← pass_on INVALID (hdi_UsbSubmitTransfer d info cb ashmem);
  if negb (ret =? UEC_OK)
  then modify (λ m, set_recipients (remove_one submitRecipient (submitRecipients_ m)) m);; mret ret
  else mret ret.
(** [UsbSubmitTransferDeathRecipient::OnRemoteDied]. *)
Definition SubmitRecipient_OnRemoteDied (r : SubmitRecipient) : M () :=
  ret ← UsbCancelTransfer (submit_dev r) (submit_endpoint r);
  if ret =? UEC_OK then _ ← on_manager (Close (busNum (submit_dev r)) (devAddr (submit_dev r))); mret () else mret ().

(** *** Bulk callbacks: one object for all *)

Definition RegBulkCallback (d : UsbDev) (pipe : UsbPipe) (cb : option RemoteObject) : M Z :=
  match cb with
  | None => mret INVALID
  | Some cb =>
      m ← get;
      let hdiCb := default cb (usbHostHdiCb_ m) in
      modify (set_hdi_cb (Some hdiCb));;
      pass_on INVALID (hdi_RegBulkCallback d pipe hdiCb)
  end.
Definition UnRegBulkCallback (d : UsbDev) (pipe : UsbPipe) : M Z :=
  m ← get;
  if negb (usbHostInterface_ (manager m)) then mret INVALID else
  modify (set_hdi_cb None);;
  pass_on INVALID (hdi_UnRegBulkCallback d pipe).
Definition BulkRead (d : UsbDev) (pipe : UsbPipe) (ashmem : option Ashmem) : M Z :=
  match ashmem with None => mret INVALID | Some a => pass_on INVALID (hdi_BulkRead d pipe a) end.
Definition BulkWrite (d : UsbDev) (pipe : UsbPipe) (ashmem : option Ashmem) : M Z :=
  match ashmem with None => mret INVALID | Some a => pass_on INVALID (hdi_BulkWrite d pipe a) end.
Definition BulkCancel (d : UsbDev) (pipe : UsbPipe) : M Z := pass_on INVALID (hdi_BulkCancel d pipe).
End Transfers.

(** * Reports of failed transfers (services/native/src/usb_report_sys_event.cpp)

    What a report of a failed transfer says, and when there is none. *)

Definition ERR_CODE_TIMEOUT : Z := -7.
Definition INTERRUPT_ATTRIBUTE : Z := 0x03.

(** What [HiSysEventWrite] is given: the class is that of the interface, or of the
    device for a control transfer. *)
Record TransferFault := {
  transferType : string; fault_vid : Z; fault_pid : Z; fault_class : Z; fault_subClass : Z; fault_protocol : Z;
  fault_pipe : UsbPipe; failReason : Z; failDescription : string;
}.

(** The class, subclass and protocol; [None] when no interface has the number. *)
Definition GetUsbInterfaceId (usbDev : UsbDevice.t) (tmpPipe : UsbPipe) (interfaceId : Z) : option (Z * Z * Z) :=
  if (intfId tmpPipe =? 0) && (endpointId tmpPipe =? 0)
  then Some (UsbDevice.baseClass_ usbDev, UsbDevice.subClass_ usbDev, UsbDevice.protocol_ usbDev)
  else (λ i, (UsbInterface.klass_ i, UsbInterface.subClass_ i, UsbInterface.protocol_ i)) <$>
    List.find (λ i, UsbInterface.id_ i =? interfaceId)
      (mjoin (map USBConfig.interfaces_ (UsbDevice.configs_ usbDev))).

Definition ReportTransferFaultSysEvent (type : string) (usbDev : UsbDevice.t) (tmpPipe : UsbPipe) (ret : Z)
    (description : string) : option TransferFault :=
  '(c, s, p) ← GetUsbInterfaceId usbDev tmpPipe (intfId tmpPipe);
  mret {| transferType := type; fault_vid := UsbDevice.vendorId_ usbDev; fault_pid := UsbDevice.productId_ usbDev;
    fault_class := c; fault_subClass := s; fault_protocol := p; fault_pipe := tmpPipe; failReason := ret;
    failDescription := description |}.

(** A timeout of an interrupt transfer is not reported. *)
Definition CheckAttributeReportTransferFaultSysEvent (type : string) (usbDev : UsbDevice.t) (tmpPipe : UsbPipe)
    (ep : USBEndpoint.t) (ret : Z) (description : string) : option TransferFault :=
  if (USBEndpoint.attributes_ ep =? INTERRUPT_ATTRIBUTE) && (ret =? ERR_CODE_TIMEOUT) then None
  else ReportTransferFaultSysEvent type usbDev tmpPipe ret description.
