(* ===== verification/UsbService.v ===== *)
(** * The service: its state, its callers and their rights
    (services/native/src/usb_service.cpp)

    The front end that applications call.  It owns the managers and decides, for
    each request, whether the caller may make it.  The right manager is behind the
    interface [RightService]; the other managers are parameters of the state. *)
From S2P Require Import Prelude UsbErrors Platform UsbAccessory UsbDevice UsbRightManager SerialManager UsbHostManager UsbHostTransfer.

Definition API_VERSION_ID_18 : Z := 18.
Definition ROOT_UID : Z := 0.
Definition EDM_UID : Z := 3057.
Definition PERMISSION_DENIED_SYSAPI : string := "PERMISSION_DENIED_SYSAPI".
Definition SYS_APP_PERMISSION_DENIED_SYSAPI : string := "SYS_APP_PERMISSION_DENIED_SYSAPI".

(** ** What the service calls *)

(** The right manager, which asks the platform who calls. *)
Class RightService (RM : Type) := {
  rs_IsSystemAppOrSa : Caller → state RM bool;
  rs_VerifyPermission : Caller → state RM bool;
  rs_HasSetFuncRight : Caller → Z → state RM Z;
  rs_HasRight : Caller → string → string → string → Z → state RM bool;
  rs_RequestRight : Caller → string → string → string → string → Z → state RM Z;
  rs_RequestAccessoryRight : Caller → USBAccessory → string → string → string → Z → state RM (Z * bool);
  rs_RequestSerialRight : Caller → Z → SerialDeviceIdentity → string → string → Z → state RM (option Z);   (* [None]: an exception *)
  rs_AddDeviceRight : Caller → string → string → state RM (option bool);   (* likewise *)
  rs_RemoveDeviceRight : Caller → string → string → string → Z → state RM bool;
  rs_CancelDeviceRight : Caller → string → string → string → Z → state RM Z;
  rs_RemoveDeviceAllRight : Caller → string → state RM (option bool);   (* [None]: a null pointer *)
  rs_Init : Caller → state RM Z;
  rs_CleanUpRightExpired : Caller → list string → state RM (option Z);   (* likewise *)
}.

Record HapTokenInfo := { hap_userID : Z; hap_bundleName : string; hap_apiVersion : Z }.
Inductive ATokenTypeEnum := TOKEN_INVALID | TOKEN_HAP | TOKEN_NATIVE | TOKEN_SHELL.
#[global] Instance ATokenTypeEnum_eq_dec : EqDecision ATokenTypeEnum.
Proof. solve_decision. Defined.

(** Access tokens, the remote objects of clients, the system services. *)
Class ServicePlatform (P : Type) := {
  HDF_DEV_ERR_OP : Z;
  AccessTokenKit_GetHapTokenInfo : Z → state P (option HapTokenInfo);
  AccessTokenKit_GetTokenType : Z → state P ATokenTypeEnum;
  AddDeathRecipient : RemoteObject → state P bool;
  service_IUsbHostInterface_Get : state P bool;
  UsbRightDbHelper_GetInstance : state P bool;            (* not null *)
  tty_exists : state P bool;                              (* [CheckForTtyUSB] *)
  datashare_ready : state P bool;
  datashare_Query : state P (option string);              (* the value of HDC_STATUS *)
  datashare_Update : string → state P bool;
  system_GetBoolParameter : string → state P bool;
  common_event_service : state P bool;
  SubscribeSystemAbility : state P (option Z);            (* [None]: no manager or no listener *)
  Publish : state P bool;
  UnloadSystemAbility : state P (option Z);               (* [None]: no manager *)
  unload_Setup : state P bool;
  unload_Register : state P Z;
}.

(** ** What the service keeps *)

(** [ClaimDeathRecipient] *)
Record ClaimDeathRecipient := { busNum_ : Z; devAddr_ : Z; interfaceid_ : Z; tokenId_ : Z }.
#[global] Instance ClaimDeathRecipient_eq_dec : EqDecision ClaimDeathRecipient.
Proof. solve_decision. Defined.
Record ClaimInterfaceState := {
  exclusiveOwner : Z;
  normalClaimed : bool;
  notifyCallback : option RemoteObject;
  claimRecipient : option ClaimDeathRecipient;
}.
Definition no_claim : ClaimInterfaceState := {|
  exclusiveOwner := 0; normalClaimed := false; notifyCallback := None; claimRecipient := None |}.

Record DeviceConnectionRecord := { device : UsbDevice.t; apps : gmap Z string }.

(** The recipients that wait for the death of a client. *)
Inductive Recipient :=
  | SerialDeath (portId tokenId : Z)
  | ListenerDeath
  | AccessoryDeath (fd tokenId : Z)
  | ClaimDeath (r : ClaimDeathRecipient).
#[global] Instance Recipient_eq_dec : EqDecision Recipient.
Proof. solve_decision. Defined.

Record AccessoryClientInfo := { accessoryRemote : RemoteObject; accessoryRecipient : Z * Z; client_tokenId : Z }.

Record SerialReportEntry := {
  clientName : string; entry_vid : Z; entry_pid : Z; entry_serialNum : string; entry_baudrate : Z; entry_stopBits : Z; entry_parity : Z; entry_dataBits : Z }.

Inductive ServiceEffect :=
  | DeviceConnected (cb : RemoteObject) (d : UsbDevice.t) (uid : Z) (bundle : string)
  | DeviceDisconnected (cb : RemoteObject) (d : UsbDevice.t) (uid : Z) (bundle : string)
  | Conflict (cb : RemoteObject) (busNum devAddr interfaceid : Z)
  | OperationFault (operationType : string) (reason : Z) (description : string)
  | TransferFaulted (fault : TransferFault)
  | SerialOperation_reported (operationType : string) (entry : SerialReportEntry)
  | FdClosed (fd : Z)
  | CriticalSet (critical : bool)
  | ProcessStatusNotified (started : bool)
  | UnloadRequested
  | TimerUnregistered (id : Z)
  | Printed (text : string).

Record UsbService (RM HT DM AM PM P : Type) := {
  usbRightManager_ : option RM;
  usbHostManager_ : option HT;          (* with the serial manager, which both share *)
  usbDeviceManager_ : option DM;
  usbAccessoryManager_ : option AM;
  usbPortManager_ : option PM;
  deviceVidPidMap_ : gmap string string;
  serialVidPidMap_ : gmap Z (string * string);
  claimStateMap_ : gmap string ClaimInterfaceState;
  deviceListeners_ : list RemoteObject; (* no null listener is ever registered *)
  deviceConnectionMap_ : gmap string DeviceConnectionRecord;
  accessoryClientMap_ : gmap (Z * Z) AccessoryClientInfo;
  recipients_ : list (RemoteObject * Recipient);
  ready_ : bool;
  commEventRetryTimes_ : Z;
  unloadSelfTimerId_ : Z;
  unload_pending : option Z;            (* the timer's registration *)
  service_platform_ : P;
  effects_ : list ServiceEffect;        (* newest first *)
}.
Arguments usbRightManager_ {RM HT DM AM PM P} _.
Arguments usbHostManager_ {RM HT DM AM PM P} _.
Arguments usbDeviceManager_ {RM HT DM AM PM P} _.
Arguments usbAccessoryManager_ {RM HT DM AM PM P} _.
Arguments usbPortManager_ {RM HT DM AM PM P} _.
Arguments deviceVidPidMap_ {RM HT DM AM PM P} _.
Arguments serialVidPidMap_ {RM HT DM AM PM P} _.
Arguments claimStateMap_ {RM HT DM AM PM P} _.
Arguments deviceListeners_ {RM HT DM AM PM P} _.
Arguments deviceConnectionMap_ {RM HT DM AM PM P} _.
Arguments accessoryClientMap_ {RM HT DM AM PM P} _.
Arguments recipients_ {RM HT DM AM PM P} _.
Arguments ready_ {RM HT DM AM PM P} _.
Arguments commEventRetryTimes_ {RM HT DM AM PM P} _.
Arguments unloadSelfTimerId_ {RM HT DM AM PM P} _.
Arguments unload_pending {RM HT DM AM PM P} _.
Arguments service_platform_ {RM HT DM AM PM P} _.
Arguments effects_ {RM HT DM AM PM P} _.
Arguments Build_UsbService {RM HT DM AM PM P} _ _ _ _ _ _ _ _ _ _ _ _ _ _ _ _ _ _.

Section Fields.
Context {RM HT DM AM PM P : Type}.
Implicit Types m : UsbService RM HT DM AM PM P.
Definition set_right (x : option RM) m := let 'Build_UsbService _ b c d e f g h i j k l m n o p q r := m in
  Build_UsbService x b c d e f g h i j k l m n o p q r.
Definition set_host (x : option HT) m := let 'Build_UsbService a _ c d e f g h i j k l m n o p q r := m in
  Build_UsbService a x c d e f g h i j k l m n o p q r.
Definition set_device (x : option DM) m := let 'Build_UsbService a b _ d e f g h i j k l m n o p q r := m in
  Build_UsbService a b x d e f g h i j k l m n o p q r.
Definition set_accessory (x : option AM) m := let 'Build_UsbService a b c _ e f g h i j k l m n o p q r := m in
  Build_UsbService a b c x e f g h i j k l m n o p q r.
Definition set_port (x : option PM) m := let 'Build_UsbService a b c d _ f g h i j k l m n o p q r := m in
  Build_UsbService a b c d x f g h i j k l m n o p q r.
Definition set_names (x : gmap string string) m := let 'Build_UsbService a b c d e _ g h i j k l m n o p q r := m in
  Build_UsbService a b c d e x g h i j k l m n o p q r.
Definition set_serial_names (x : gmap Z (string * string)) m := let 'Build_UsbService a b c d e f _ h i j k l m n o p q r := m in
  Build_UsbService a b c d e f x h i j k l m n o p q r.
Definition set_claims (x : gmap string ClaimInterfaceState) m := let 'Build_UsbService a b c d e f g _ i j k l m n o p q r := m in
  Build_UsbService a b c d e f g x i j k l m n o p q r.
Definition set_listeners (x : list RemoteObject) m := let 'Build_UsbService a b c d e f g h _ j k l m n o p q r := m in
  Build_UsbService a b c d e f g h x j k l m n o p q r.
Definition set_connections (x : gmap string DeviceConnectionRecord) m := let 'Build_UsbService a b c d e f g h i _ k l m n o p q r := m in
  Build_UsbService a b c d e f g h i x k l m n o p q r.
Definition set_clients (x : gmap (Z * Z) AccessoryClientInfo) m := let 'Build_UsbService a b c d e f g h i j _ l m n o p q r := m in
  Build_UsbService a b c d e f g h i j x l m n o p q r.
Definition set_waiting (x : list (RemoteObject * Recipient)) m := let 'Build_UsbService a b c d e f g h i j k _ m n o p q r := m in
  Build_UsbService a b c d e f g h i j k x m n o p q r.
Definition set_ready (x : bool) m := let 'Build_UsbService a b c d e f g h i j k l _ n o p q r := m in
  Build_UsbService a b c d e f g h i j k l x n o p q r.
Definition set_retry_times (x : Z) m := let 'Build_UsbService a b c d e f g h i j k l m _ o p q r := m in
  Build_UsbService a b c d e f g h i j k l m x o p q r.
Definition set_unload_id (x : Z) m := let 'Build_UsbService a b c d e f g h i j k l m n _ p q r := m in
  Build_UsbService a b c d e f g h i j k l m n x p q r.
Definition set_unload_pending (x : option Z) m := let 'Build_UsbService a b c d e f g h i j k l m n o _ q r := m in
  Build_UsbService a b c d e f g h i j k l m n o x q r.
Definition set_service_platform (x : P) m := let 'Build_UsbService a b c d e f g h i j k l m n o p _ r := m in
  Build_UsbService a b c d e f g h i j k l m n o p x r.
Definition set_effects (x : list ServiceEffect) m := let 'Build_UsbService a b c d e f g h i j k l m n o p q _ := m in
  Build_UsbService a b c d e f g h i j k l m n o p q x.
End Fields.

Section Service.
Context {RM HT DM AM PM P : Type} `{!RightService RM, !ServicePlatform P, !ErrCodeBase}.
Abbreviation US := (UsbService RM HT DM AM PM P).
Abbreviation M := (state US).
Abbreviation INVALID := (uec UEC_SERVICE_INVALID_VALUE).

(** A call on an object the service points to, [dflt] for a null pointer. *)
Definition through {S A} (get_field : US → option S) (set_field : option S → US → US) (dflt : A) (f : state S A) : M A :=
  λ m, match get_field m with
       | None => (dflt, m)
       | Some s => let '(a, s') := f s in (a, set_field (Some s') m)
       end.
Definition on_right {A} (dflt : A) (f : state RM A) : M A := through usbRightManager_ set_right dflt f.
Definition on_host_manager {A} (dflt : A) (f : state HT A) : M A := through usbHostManager_ set_host dflt f.
Definition on_device_manager {A} (dflt : A) (f : state DM A) : M A := through usbDeviceManager_ set_device dflt f.
Definition on_accessory_manager {A} (dflt : A) (f : state AM A) : M A := through usbAccessoryManager_ set_accessory dflt f.
Definition on_port_manager {A} (dflt : A) (f : state PM A) : M A := through usbPortManager_ set_port dflt f.
Definition on_service {A} (f : state P A) : M A := zoom service_platform_ set_service_platform f.
Definition effect (e : ServiceEffect) : M () := modify (λ m, set_effects (e :: effects_ m) m).
Definition is_set {A} (o : option A) : bool := match o with Some _ => true | None => false end.
(** [if (pointer == nullptr) return dflt;] *)
Definition unless_null {S A} (get_field : US → option S) (dflt : A) (f : M A) : M A :=
  m ← get; if is_set (get_field m) then f else mret dflt.

(** *** Reports *)

Definition ReportUsbOperationFaultSysEvent (operationType : string) (failReason : Z) (failDescription : string) : M () :=
  effect (OperationFault operationType failReason failDescription).
Definition ReportUsbSerialOperationFaultSysEvent (portId : Z) (operationType : string) (failReason : Z)
    (failDescription : string) : M () :=
  effect (OperationFault operationType failReason failDescription).
Definition report_transfer (fault : option TransferFault) : M () :=
  match fault with Some f => effect (TransferFaulted f) | None => mret () end.

(** *** The caller *)

(** The bundle, the text of the token and the user; [None] leaves the variables. *)
Definition GetCallingInfo (c : Caller) : M (option (string * string * Z)) :=
  info ← on_service (AccessTokenKit_GetHapTokenInfo (CallingTokenID c));
  mret (i ← (info : option HapTokenInfo); Some (hap_bundleName i, pretty (to_u32 (CallingTokenID c)), hap_userID i)).
Definition GetHapApiVersion (c : Caller) : M Z :=
  info ← on_service (AccessTokenKit_GetHapTokenInfo (CallingTokenID c));
  mret (match (info : option HapTokenInfo) with Some i => hap_apiVersion i | None => API_VERSION_ID_18 end).

(** The callers have tested the right manager. *)
Definition CheckSysApiPermission (c : Caller) : M Z :=
  sys ← on_right false (rs_IsSystemAppOrSa c);
  if negb sys then mret (uec UEC_SERVICE_PERMISSION_DENIED_SYSAPI) else
  ok ← on_right false (rs_VerifyPermission c);
  if negb ok then
    apiVersion ← GetHapApiVersion c;
    if apiVersion <? API_VERSION_ID_18 then mret (uec UEC_SERVICE_PERMISSION_DENIED_SYSAPI)
    else mret (uec UEC_SERVICE_PERMISSION_DENIED_SYSAPI_FAILED)
  else mret UEC_OK.

Definition IsCallerValid (c : Caller) : M bool :=
  callerTokenType ← on_service (AccessTokenKit_GetTokenType (CallingTokenID c));
  if bool_decide (callerTokenType = TOKEN_NATIVE)
  then mret ((CallingUid c =? ROOT_UID) || (CallingUid c =? EDM_UID))
  else mret false.

Definition PreCallFunction (c : Caller) : M Z :=
  host ← on_service service_IUsbHostInterface_Get;
  if negb host then mret INVALID else
  unless_null usbRightManager_ INVALID (
    ret ← CheckSysApiPermission c;
    if negb (ret =? UEC_OK) then mret ret else
    unless_null usbHostManager_ INVALID (mret UEC_OK)).

(** *** Names of devices and their identities *)

(** Of an unknown device the identity is the text below. *)
Definition GetDeviceVidPidSerialNumber (deviceName : string) : M string :=
  gets (λ m, default "test" (deviceVidPidMap_ m !! deviceName)).
(** [strDesc] and the code; [strDesc] is left when there is no such device. *)
Definition FindDeviceVidPidSerialNumber (deviceName strDesc : string) : M (Z * string) :=
  gets (λ m, match deviceVidPidMap_ m !! deviceName with
             | Some desc => (UEC_OK, desc)
             | None => (uec UEC_INTERFACE_INVALID_VALUE, strDesc)
             end).

(** *** Rights on devices *)

Definition HasRight (c : Caller) (deviceName : string) : M bool :=
  unless_null usbRightManager_ false (
    '(ret, desc) ← FindDeviceVidPidSerialNumber deviceName "";
    if negb (ret =? UEC_OK) then mret false else
    sys ← on_right false (rs_IsSystemAppOrSa c);
    if (sys : bool) then mret true else
    info ← GetCallingInfo c;
    match info with
    | None => mret false
    | Some (bundleName, tokenId, userId) => on_right false (rs_HasRight c desc bundleName tokenId userId)
    end).
(** The call of the interface: the code is always the same. *)
Definition HasRightOut (c : Caller) (deviceName : string) : M (Z * bool) :=
  hasRight ← HasRight c deviceName; mret (UEC_OK, hasRight).

Definition CheckDevicePermission (c : Caller) (busNum devAddr : Z) : M bool :=
  HasRight c (device_key busNum devAddr).

(** [return false;] where the caller has no token information: the code is 0. *)
Definition FALSE_CODE : Z := 0.
Definition RequestRight (c : Caller) (deviceName : string) : M Z :=
  unless_null usbRightManager_ (uec UEC_SERVICE_INNER_ERR) (
    '(ret, desc) ← FindDeviceVidPidSerialNumber deviceName "";
    if negb (ret =? UEC_OK) then mret ret else
    sys ← on_right false (rs_IsSystemAppOrSa c);
    if (sys : bool) then mret UEC_OK else
    info ← GetCallingInfo c;
    match info with
    | None => mret FALSE_CODE
    | Some (bundleName, tokenId, userId) => on_right 0 (rs_RequestRight c deviceName desc bundleName tokenId userId)
    end).
Definition RemoveRight (c : Caller) (deviceName : string) : M Z :=
  unless_null usbRightManager_ INVALID (
    '(ret, desc) ← FindDeviceVidPidSerialNumber deviceName "";
    if negb (ret =? UEC_OK) then mret ret else
    sys ← on_right false (rs_IsSystemAppOrSa c);
    if (sys : bool) then mret UEC_OK else
    info ← GetCallingInfo c;
    match info with
    | None => mret FALSE_CODE
    | Some (bundleName, tokenId, userId) =>
        ok ← on_right false (rs_RemoveDeviceRight c desc bundleName tokenId userId);
        if negb ok then mret (uec UEC_SERVICE_PERMISSION_DENIED) else mret UEC_OK
    end).
(** [None]: an exception of the right manager. *)
Definition AddAccessRight (c : Caller) (tokenId deviceName : string) : M (option Z) :=
  unless_null usbRightManager_ (Some INVALID) (
    ret ← CheckSysApiPermission c;
    if negb (ret =? UEC_OK) then mret (Some ret) else
    '(ret, desc) ← FindDeviceVidPidSerialNumber deviceName "";
    if negb (ret =? UEC_OK) then mret (Some ret) else
    ok ← on_right (Some false) (rs_AddDeviceRight c desc tokenId);
    mret ((λ ok : bool, if negb ok then uec UEC_SERVICE_INNER_ERR else UEC_OK) <$> (ok : option bool))).

(** *** Recipients *)

(** Whether the remote object took the recipient. *)
Definition add_recipient (remote : RemoteObject) (r : Recipient) : M bool :=
  ok ← on_service (AddDeathRecipient remote);
  (if (ok : bool) then modify (λ m, set_waiting (recipients_ m ++ [(remote, r)]) m) else mret ());; mret ok.
Definition RemoveDeathRecipient (remote : RemoteObject) (r : Recipient) : M () :=
  modify (λ m, set_waiting (remove_one (remote, r) (recipients_ m)) m).
End Service.
