(* ===== verification/UsbServiceClaims.v ===== *)
(** * The service: claims and connections (services/native/src/usb_service.cpp)

    Who holds an interface, alone or with others, and whom a transfer or another
    claim is refused for; who uses which device, and the listeners that are told. *)
From S2P Require Import Prelude UsbErrors Platform UsbDevice UsbDescriptorParser SerialManager UsbPortManager UsbHostManager UsbHostDescriptor UsbHostTransfer UsbService.

Section Claims.
Context {W R SM RM DM AM PM P : Type}.
Context `{!HostPlatform W R, !HostTransferPlatform W, !RightService RM, !ServicePlatform P, !ErrCodeBase}.
Abbreviation US := (UsbService RM (HostTransfers W SM) DM AM PM P).
Abbreviation M := (state US).
Abbreviation INVALID := (uec UEC_SERVICE_INVALID_VALUE).
Abbreviation DENIED := (uec UEC_SERVICE_PERMISSION_DENIED).

Definition MakeClaimKey (busNum devAddr interfaceid : Z) : string :=
  pretty busNum +:+ "-" +:+ pretty devAddr +:+ "-" +:+ pretty interfaceid.
(** What all keys of a device begin with. *)
Definition claim_prefix (busNum devAddr : Z) : string := pretty busNum +:+ "-" +:+ pretty devAddr +:+ "-".

Definition claim_at (key : string) : M (option ClaimInterfaceState) := gets (λ m, claimStateMap_ m !! key).
Definition put_claim (key : string) (s : ClaimInterfaceState) : M () :=
  modify (λ m, set_claims (<[key := s]> (claimStateMap_ m)) m).
Definition erase_claim (key : string) : M () := modify (λ m, set_claims (delete key (claimStateMap_ m)) m).
Definition with_normal (b : bool) (s : ClaimInterfaceState) : ClaimInterfaceState := {|
  exclusiveOwner := exclusiveOwner s; normalClaimed := b; notifyCallback := notifyCallback s;
  claimRecipient := claimRecipient s |}.
(** No exclusive owner any more. *)
Definition without_owner (s : ClaimInterfaceState) : ClaimInterfaceState := {|
  exclusiveOwner := 0; normalClaimed := normalClaimed s; notifyCallback := None; claimRecipient := None |}.
(** The recipient of the callback, when there are both. *)
Definition drop_recipient (s : ClaimInterfaceState) : M () :=
  match notifyCallback s, claimRecipient s with
  | Some cb, Some r => RemoveDeathRecipient cb (ClaimDeath r)
  | _, _ => mret ()
  end.

Definition NotifyExclusiveOwner (busNum devAddr interface tokenId : Z) : M () :=
  let key := MakeClaimKey busNum devAddr interface in
  s ← claim_at key;
  let s := default no_claim s in
  put_claim key (with_normal true s);;
  if negb (exclusiveOwner s =? 0) && negb (exclusiveOwner s =? tokenId)
  then match notifyCallback s with Some cb => effect (Conflict cb busNum devAddr interface) | None => mret () end
  else mret ().

Definition ClaimInterface (c : Caller) (busNum devAddr interface force : Z) : M Z :=
  ok ← CheckDevicePermission c busNum devAddr;
  if negb ok then mret DENIED else
  unless_null usbHostManager_ INVALID (
    ret ← on_host_manager INVALID (UsbHostTransfer.ClaimInterface busNum devAddr interface force);
    if negb (ret =? UEC_OK) then mret ret else
    NotifyExclusiveOwner busNum devAddr interface (CallingTokenID c);; mret ret).

Definition CheckExclusiveTransfer (c : Caller) (busNum devAddr interfaceid : Z) : M Z :=
  s ← claim_at (MakeClaimKey busNum devAddr interfaceid);
  match s with
  | None => mret UEC_OK
  | Some s =>
      if negb (exclusiveOwner s =? 0) && negb (normalClaimed s) && negb (exclusiveOwner s =? CallingTokenID c)
      then mret (uec UEC_SERVICE_IO_EXCEPTION) else mret UEC_OK
  end.

(** The loop over the table, which erases as it goes. *)
Definition each_claim (busNum devAddr : Z) (body : string → ClaimInterfaceState → M ()) : M () :=
  m ← get;
  for_each (λ key,
    s ← claim_at key;
    match s with
    | None => mret ()
    | Some s => if String.prefix (claim_prefix busNum devAddr) key then body key s else mret ()
    end) (sorted_keys (claimStateMap_ m)).
Definition RemoveExclusiveClaimByDevice (busNum devAddr tokenId : Z) : M () :=
  each_claim busNum devAddr (λ key s,
    if negb (exclusiveOwner s =? tokenId) then mret () else
    drop_recipient s;;
    if normalClaimed s then put_claim key (without_owner s) else erase_claim key).
Definition RemoveAllClaimByDevice (busNum devAddr : Z) : M () :=
  each_claim busNum devAddr (λ key s, drop_recipient s;; erase_claim key).

Definition RegisterExclusiveCallback (key : string) (busNum devAddr interfaceid tokenId : Z) (cb : option RemoteObject)
    (isRepeat : bool) : M () :=
  match cb with
  | None => mret ()
  | Some cb =>
      let recipient := {| busNum_ := busNum; devAddr_ := devAddr; interfaceid_ := interfaceid; tokenId_ := tokenId |} in
      ok ← add_recipient cb (ClaimDeath recipient);
      if negb ok then mret () else
      s ← claim_at key;
      let s := default no_claim s in
      drop_recipient s;;
      put_claim key {| exclusiveOwner := if isRepeat then exclusiveOwner s else tokenId;
        normalClaimed := normalClaimed s; notifyCallback := Some cb; claimRecipient := Some recipient |}
  end.
(** One step, like every method here; the source gives up [claimMutex_] between the test of
    the owner and [RegisterExclusiveCallback], so two claims that run at once can both pass
    the test. *)
Definition ClaimInterfaceExclusive (c : Caller) (busNum devAddr interfaceid force : Z) (cb : option RemoteObject) : M Z :=
  ok ← CheckDevicePermission c busNum devAddr;
  if negb ok then mret DENIED else
  unless_null usbHostManager_ INVALID (
    let key := MakeClaimKey busNum devAddr interfaceid in
    s ← claim_at key;
    let isRepeat := match s with Some s => exclusiveOwner s =? CallingTokenID c | None => false end in
    let busy := match s with Some s => negb (exclusiveOwner s =? 0) || normalClaimed s | None => false end in
    if negb isRepeat && busy then mret (uec UEC_INTERFACE_BUSY) else
    ret ← on_host_manager INVALID (UsbHostTransfer.ClaimInterface busNum devAddr interfaceid force);
    if negb (ret =? UEC_OK) then mret ret else
    RegisterExclusiveCallback key busNum devAddr interfaceid (CallingTokenID c) cb isRepeat;;
    mret UEC_OK).

(** The code and whether the host service is told. *)
Definition ReleaseClaimState (busNum devAddr interface tokenId : Z) : M (Z * bool) :=
  let key := MakeClaimKey busNum devAddr interface in
  s ← claim_at key;
  match s with
  | None => mret (UEC_OK, true)
  | Some s =>
      if exclusiveOwner s =? tokenId then
        drop_recipient s;;
        if normalClaimed s then put_claim key (without_owner s);; mret (UEC_OK, false)
        else erase_claim key;; mret (UEC_OK, true)
      else if negb (exclusiveOwner s =? 0) then
        if normalClaimed s then put_claim key (with_normal false s);; mret (UEC_OK, false)
        else mret (uec UEC_INTERFACE_INVALID_OPERATION, true)
      else (if normalClaimed s then erase_claim key else mret ());; mret (UEC_OK, true)
  end.
Definition ReleaseInterface (c : Caller) (busNum devAddr interface : Z) : M Z :=
  ok ← CheckDevicePermission c busNum devAddr;
  if negb ok then mret DENIED else
  '(stateRet, releaseToHdi) ← ReleaseClaimState busNum devAddr interface (CallingTokenID c);
  if negb (stateRet =? UEC_OK) then mret stateRet else
  if negb releaseToHdi then mret UEC_OK else
  unless_null usbHostManager_ INVALID (
    ret ← on_host_manager INVALID (UsbHostTransfer.ReleaseInterface busNum devAddr interface);
    if ret =? HDF_DEV_ERR_OP then mret (uec UEC_INTERFACE_INVALID_OPERATION) else mret ret).

(** [ClaimDeathRecipient::OnRemoteDied] *)
Definition ClaimDeath_OnRemoteDied (r : ClaimDeathRecipient) : M () :=
  let key := MakeClaimKey (busNum_ r) (devAddr_ r) (interfaceid_ r) in
  s ← claim_at key;
  match s with
  | None => mret ()
  | Some s =>
      if negb (exclusiveOwner s =? tokenId_ r) then mret () else
      if normalClaimed s then put_claim key (without_owner s) else
      erase_claim key;;
      _ ← on_host_manager INVALID (UsbHostTransfer.ReleaseInterface (busNum_ r) (devAddr_ r) (interfaceid_ r));
      mret ()
  end.
End Claims.

(** * The service: who uses which device (services/native/src/usb_service.cpp)

    The table of connections between applications and devices, and the listeners
    that are told about each of them. *)

Inductive ConnectionType := USB_DEVICE_CONNECTION_CONNECT | USB_DEVICE_CONNECTION_DISCONNECT.
#[global] Instance ConnectionType_eq_dec : EqDecision ConnectionType.
Proof. solve_decision. Defined.
Record UsbDeviceConnectionInfo := {
  info_type_ : ConnectionType; info_device : UsbDevice.t; info_uid : Z; info_bundleName : string }.

Section Connections.
Context {W R SM RM DM AM PM P : Type}.
Context `{!HostPlatform W R, !HostTransferPlatform W, !RightService RM, !ServicePlatform P, !ErrCodeBase}.
Context (char_signed : bool).
Abbreviation US := (UsbService RM (HostTransfers W SM) DM AM PM P).
Abbreviation M := (state US).
Abbreviation INVALID := (uec UEC_SERVICE_INVALID_VALUE).

Definition GetDeviceKey (busNum devAddr : Z) : string := device_key busNum devAddr.
Definition put_connections (ds : gmap string DeviceConnectionRecord) : M () := modify (set_connections ds).

Definition tell (info : UsbDeviceConnectionInfo) (cb : RemoteObject) : M () :=
  effect (match info_type_ info with
          | USB_DEVICE_CONNECTION_CONNECT => DeviceConnected cb (info_device info) (info_uid info) (info_bundleName info)
          | USB_DEVICE_CONNECTION_DISCONNECT => DeviceDisconnected cb (info_device info) (info_uid info) (info_bundleName info)
          end).
Definition NotifyDeviceConnection (info : UsbDeviceConnectionInfo) : M () :=
  m ← get; for_each (tell info) (deviceListeners_ m).

(** *** Listeners *)

(** What a new listener has missed, in the order of the table. *)
Definition connection_infos (type : ConnectionType) (r : DeviceConnectionRecord) : list UsbDeviceConnectionInfo :=
  map (λ '(uid, bundle), {| info_type_ := type; info_device := device r; info_uid := uid; info_bundleName := bundle |})
    (by_key (apps r)).
Definition pending (ds : gmap string DeviceConnectionRecord) : list UsbDeviceConnectionInfo :=
  mjoin (map (λ key, match ds !! key with None => [] | Some r => connection_infos USB_DEVICE_CONNECTION_CONNECT r end)
    (sorted_keys ds)).
Definition RegisterConnectionListener (c : Caller) (cb : option RemoteObject) : M Z :=
  match cb with
  | None => mret INVALID
  | Some remote =>
      ret ← CheckSysApiPermission c;
      if negb (ret =? UEC_OK) then mret ret else
      m ← get;
      if bool_decide (remote ∈ deviceListeners_ m) then mret (uec UEC_SERVICE_ALREADY_EXISTS) else
      ok ← add_recipient remote ListenerDeath;
      if negb ok then mret (uec UEC_SERVICE_ADD_DEATH_RECIPIENT_FAILED) else
      modify (λ m, set_listeners (deviceListeners_ m ++ [remote]) m);;
      m ← get;
      for_each (λ info, tell info remote) (pending (deviceConnectionMap_ m));;
      mret UEC_OK
  end.
(** The loops of the two functions below. *)
Definition drop_listener (remote : RemoteObject) : M () :=
  m ← get;
  if bool_decide (remote ∈ deviceListeners_ m) then
    RemoveDeathRecipient remote ListenerDeath;;
    modify (λ m, set_listeners (remove_one remote (deviceListeners_ m)) m)
  else mret ().
Definition UnRegisterConnectionListener (c : Caller) (cb : option RemoteObject) : M Z :=
  match cb with
  | None => mret INVALID
  | Some remote =>
      ret ← CheckSysApiPermission c;
      if negb (ret =? UEC_OK) then mret ret else drop_listener remote;; mret UEC_OK
  end.
(** [None]: the object is gone. *)
Definition RemoveDeviceListener (object : option RemoteObject) : M () :=
  match object with None => mret () | Some remote => drop_listener remote end.

(** *** Connections *)

Definition AddDeviceConnection (c : Caller) (busNum devAddr : Z) : M (outcome ()) :=
  r ← on_host_manager (Done (INVALID, UsbDevice.default_))
        (on_manager (GetDeviceInfo char_signed busNum devAddr UsbDevice.default_));
  match r with
  | Fault => mret Fault
  | OutOfFuel => mret OutOfFuel
  | Done (ret, dev) =>
      if negb (ret =? UEC_OK) then mret (Done ()) else
      info ← GetCallingInfo c;
      match info with
      | None => mret (Done ())
      | Some (bundleName, _, _) =>
          m ← get;
          let key := GetDeviceKey busNum devAddr in
          let old := match deviceConnectionMap_ m !! key with Some r => apps r | None => ∅ end in
          put_connections (<[key := {| device := dev; apps := <[CallingUid c := bundleName]> old |}]> (deviceConnectionMap_ m));;
          NotifyDeviceConnection {| info_type_ := USB_DEVICE_CONNECTION_CONNECT; info_device := dev;
            info_uid := CallingUid c; info_bundleName := bundleName |};;
          mret (Done ())
      end
  end.
(** The notification names the bundle the caller has now. *)
Definition RemoveDeviceConnection (c : Caller) (busNum devAddr : Z) : M () :=
  info ← GetCallingInfo c;
  match info with
  | None => mret ()
  | Some (bundleName, _, _) =>
      m ← get;
      let key := GetDeviceKey busNum devAddr in
      match deviceConnectionMap_ m !! key with
      | None => mret ()
      | Some r =>
          match apps r !! CallingUid c with
          | None => mret ()
          | Some _ =>
              let left := delete (CallingUid c) (apps r) in
              put_connections (if bool_decide (left = ∅) then delete key (deviceConnectionMap_ m)
                               else <[key := {| device := device r; apps := left |}]> (deviceConnectionMap_ m));;
              NotifyDeviceConnection {| info_type_ := USB_DEVICE_CONNECTION_DISCONNECT; info_device := device r;
                info_uid := CallingUid c; info_bundleName := bundleName |}
          end
      end
  end.
Definition RemoveAllDeviceConnections (busNum devAddr : Z) : M () :=
  m ← get;
  let key := GetDeviceKey busNum devAddr in
  match deviceConnectionMap_ m !! key with
  | None => mret ()
  | Some r =>
      put_connections (delete key (deviceConnectionMap_ m));;
      for_each NotifyDeviceConnection (connection_infos USB_DEVICE_CONNECTION_DISCONNECT r)
  end.
End Connections.
