(* ===== verification/UsbServiceHost.v ===== *)
(** * The service: requests about attached devices
    (services/native/src/usb_service.cpp)

    Opening and closing, interfaces and configurations, transfers, the requests of
    the enterprise device manager, arrivals and departures.  Each request of an
    application first asks for the caller's right. *)
From S2P Require Import Prelude UsbErrors Platform UsbDevice UsbDescriptorParser SerialManager UsbInterfaceType UsbHostManager UsbHostPolicy UsbHostDescriptor UsbHostTransfer UsbService UsbServiceClaims.

Definition ISO_TRANSFER_TYPE : Z := 1.
Definition BULK_TRANSFER_TYPE : Z := 2.
Definition INTP_TRANSFER_TYPE : Z := 3.
Definition MEMSIZE_MAX : Z := 512 * 1024 * 1024.
Definition USB_ENDPOINT_DIR_IN : Z := 0x80.

Record UsbCtlSetUp := {
  setup_reqType : Z; setup_reqCmd : Z; setup_value : Z; setup_index : Z; setup_length : Z; setup_timeout : Z }.
Record UsbTransInfo := {
  trans_endpoint : Z; trans_flags : Z; trans_type : Z; trans_timeOut : Z; trans_length : Z; trans_userData : Z;
  trans_numIsoPackets : Z }.

(** The structures of the interface definition. *)
Record UsbDeviceIdInfo := { info_productId : Z; info_vendorId : Z }.
Record UsbDeviceTypeInfo := {
  info_baseClass : Z; info_subClass : Z; info_protocol : Z; info_isDeviceType : bool; info_isDeviceTypeAllMatch : bool }.
Definition UsbDeviceIdChange (deviceIdInfoList : list UsbDeviceIdInfo) (deviceIdList : list UsbDeviceId) : list UsbDeviceId :=
  deviceIdList ++ map (λ i, {| productId := info_productId i; vendorId := info_vendorId i |}) deviceIdInfoList.
Definition UsbDeviceTypeChange (disableType : list UsbDeviceType) (deviceTypes : list UsbDeviceTypeInfo) : list UsbDeviceType :=
  disableType ++ map (λ i, {| baseClass := info_baseClass i; subClass := info_subClass i; protocol := info_protocol i;
    isDeviceType := info_isDeviceType i; isDeviceTypeAllMatch := info_isDeviceTypeAllMatch i |}) deviceTypes.

Definition pipe_of (ep : USBEndpoint.t) : UsbPipe := {|
  intfId := USBEndpoint.interfaceId_ ep; endpointId := to_u8 (USBEndpoint.address_ ep) |}.
Definition no_pipe : UsbPipe := {| intfId := 0; endpointId := 0 |}.
(** [UsbCtrlTransferChange]: the first has no length. *)
Definition UsbCtrlTransferChange (s : UsbCtlSetUp) : UsbCtrlTransferParams := {|
  requestType := setup_reqType s; requestCmd := setup_reqCmd s; ctrl_value := setup_value s; ctrl_index := setup_index s;
  ctrl_length := 0; ctrl_timeout := setup_timeout s |}.
Definition UsbCtrlTransferChangeWithLength (s : UsbCtlSetUp) : UsbCtrlTransferParams := {|
  requestType := setup_reqType s; requestCmd := setup_reqCmd s; ctrl_value := setup_value s; ctrl_index := setup_index s;
  ctrl_length := setup_length s; ctrl_timeout := setup_timeout s |}.
Definition UsbTransInfoChange (p : UsbTransInfo) : USBTransferInfo := {|
  info_endpoint := trans_endpoint p; info_flags := trans_flags p; info_type := trans_type p;
  info_timeOut := trans_timeOut p; info_length := trans_length p; info_userData := trans_userData p;
  info_numIsoPackets := trans_numIsoPackets p |}.
Definition GetTransferTypeString (transInfo : UsbTransInfo) (ep : USBEndpoint.t) : string :=
  (if trans_type transInfo =? ISO_TRANSFER_TYPE then "IsochronousTransfer"
   else if trans_type transInfo =? BULK_TRANSFER_TYPE then "BulkTransfer"
   else if trans_type transInfo =? INTP_TRANSFER_TYPE then "InterruptTransfer" else "Unknown") +:+
  (if USBEndpoint.GetDirection ep =? USB_ENDPOINT_DIR_IN then "Read"
   else if USBEndpoint.GetDirection ep =? USB_ENDPOINT_DIR_OUT then "Write" else "").

Section Host.
Context {W R SM RM DM AM PM P : Type}.
Context `{!HostPlatform W R, !HostTransferPlatform W, !PortList SM, !TableOrder, !CJson}.
Context `{!RightService RM, !ServicePlatform P, !ErrCodeBase}.
Context (char_signed : bool).
Abbreviation US := (UsbService RM (HostTransfers W SM) DM AM PM P).
Abbreviation M := (state US).
Abbreviation INVALID := (uec UEC_SERVICE_INVALID_VALUE).
Abbreviation DENIED := (uec UEC_SERVICE_PERMISSION_DENIED).

(** The request of a caller without the right ends with [denied]. *)
Definition permitted {A} (c : Caller) (busNum devAddr : Z) (denied f : M A) : M A :=
  ok ← CheckDevicePermission c busNum devAddr; if negb ok then denied else f.
(** A request that the host manager answers with a code. *)
Definition forward (c : Caller) (busNum devAddr : Z) (f : state (HostTransfers W SM) Z) : M Z :=
  permitted c busNum devAddr (mret DENIED) (unless_null usbHostManager_ INVALID (on_host_manager INVALID f)).
(** The same with a variable that is filled. *)
Definition forward_out {A} (c : Caller) (busNum devAddr : Z) (a : A) (f : state (HostTransfers W SM) (Z * A)) : M (Z * A) :=
  permitted c busNum devAddr (mret (DENIED, a))
    (unless_null usbHostManager_ (INVALID, a) (on_host_manager (INVALID, a) f)).

(** *** Opening and closing *)

Definition OpenDevice (c : Caller) (busNum devAddr : Z) : M (outcome Z) :=
  permitted c busNum devAddr
    (ReportUsbOperationFaultSysEvent "OpenDevice" DENIED "CheckDevicePermission failed";; mret (Done DENIED))
    (unless_null usbHostManager_ (Done INVALID) (
      ret ← on_host_manager INVALID (on_manager (UsbHostManager.OpenDevice busNum devAddr));
      if negb (ret =? UEC_OK) then mret (Done ret) else
      r ← AddDeviceConnection char_signed c busNum devAddr;
      match r with Done _ => mret (Done ret) | Fault => mret Fault | OutOfFuel => mret OutOfFuel end)).
Definition Close (c : Caller) (busNum devAddr : Z) : M Z :=
  permitted c busNum devAddr (mret DENIED)
    (RemoveExclusiveClaimByDevice busNum devAddr (CallingTokenID c);;
     unless_null usbHostManager_ INVALID (
      ret ← on_host_manager INVALID (on_manager (UsbHostManager.Close busNum devAddr));
      (if ret =? UEC_OK then RemoveDeviceConnection c busNum devAddr else mret ());; mret ret)).
Definition ResetDevice (c : Caller) (busNum devAddr : Z) : M Z :=
  m ← get;
  match deviceVidPidMap_ m !! device_key busNum devAddr with
  | None => mret (uec UEC_INTERFACE_NAME_NOT_FOUND)
  | Some _ =>
      permitted c busNum devAddr
        (ReportUsbOperationFaultSysEvent "ResetDevice" DENIED "CheckDevicePermission failed";; mret DENIED)
        (unless_null usbHostManager_ INVALID (on_host_manager INVALID (UsbHostTransfer.ResetDevice busNum devAddr)))
  end.

(** *** Interfaces and configurations *)

Definition SetInterface (c : Caller) (busNum devAddr interfaceid altIndex : Z) : M Z :=
  forward c busNum devAddr (UsbHostTransfer.SetInterface busNum devAddr interfaceid altIndex).
Definition SetActiveConfig (c : Caller) (busNum devAddr configIndex : Z) : M Z :=
  forward c busNum devAddr (UsbHostTransfer.SetActiveConfig busNum devAddr configIndex).
Definition UsbAttachKernelDriver (c : Caller) (busNum devAddr interface : Z) : M Z :=
  forward c busNum devAddr (UsbHostTransfer.UsbAttachKernelDriver busNum devAddr interface).
Definition UsbDetachKernelDriver (c : Caller) (busNum devAddr interface : Z) : M Z :=
  forward c busNum devAddr (UsbHostTransfer.UsbDetachKernelDriver busNum devAddr interface).
Definition ClearHalt (c : Caller) (busNum devAddr interfaceId endpointId : Z) : M Z :=
  forward c busNum devAddr (UsbHostTransfer.ClearHalt busNum devAddr interfaceId endpointId).
Definition GetActiveConfig (c : Caller) (busNum devAddr configIndex : Z) : M (Z * Z) :=
  forward_out c busNum devAddr configIndex (on_manager (UsbHostManager.GetActiveConfig busNum devAddr configIndex)).
Definition GetRawDescriptor (c : Caller) (busNum devAddr : Z) (bufferData : list Z) : M (Z * list Z) :=
  permitted c busNum devAddr
    (ReportUsbOperationFaultSysEvent "GetRawDescriptor" DENIED "CheckDevicePermission failed";; mret (DENIED, bufferData))
    (unless_null usbHostManager_ (INVALID, bufferData)
      (on_host_manager (INVALID, bufferData) (on_manager (UsbHostManager.GetRawDescriptor busNum devAddr bufferData)))).
Definition GetFileDescriptor (c : Caller) (busNum devAddr fd : Z) : M (Z * Z) :=
  forward_out c busNum devAddr fd (UsbHostTransfer.GetFileDescriptor busNum devAddr fd).
Definition GetDeviceSpeed (c : Caller) (busNum devAddr speed : Z) : M (Z * Z) :=
  pre ← PreCallFunction c;
  if negb (pre =? UEC_OK) then mret (uec UEC_SERVICE_PRE_MANAGE_INTERFACE_FAILED, speed) else
  on_host_manager (INVALID, speed) (UsbHostTransfer.GetDeviceSpeed busNum devAddr speed).
Definition GetInterfaceActiveStatus (c : Caller) (busNum devAddr interfaceid : Z) (unactivated : bool) : M (Z * bool) :=
  pre ← PreCallFunction c;
  if negb (pre =? UEC_OK) then mret (uec UEC_SERVICE_PRE_MANAGE_INTERFACE_FAILED, unactivated) else
  on_host_manager (INVALID, unactivated) (UsbHostTransfer.GetInterfaceActiveStatus busNum devAddr interfaceid unactivated).

(** *** Transfers *)

(** The device in the table that a report describes. *)
Definition with_target (busNum devAddr : Z) (f : UsbDevice.t → M ()) : M () :=
  d ← on_host_manager None (on_manager (GetTargetDevice busNum devAddr));
  match d with Some d => f d | None => mret () end.
Definition report_denied (type : string) (busNum devAddr : Z) (pipe : UsbPipe) : M () :=
  with_target busNum devAddr (λ d,
    report_transfer (ReportTransferFaultSysEvent type d pipe DENIED "CheckDevicePermission failed")).
Definition report_failed (type : string) (busNum devAddr : Z) (ep : USBEndpoint.t) (ret : Z) (description : string) : M () :=
  if negb (ret =? UEC_OK) then
    with_target busNum devAddr (λ d,
      report_transfer (CheckAttributeReportTransferFaultSysEvent type d (pipe_of ep) ep ret description))
  else mret ().

(** The transfers that an exclusive claim keeps others from. *)
Definition BulkTransferRead (c : Caller) (busNum devAddr : Z) (ep : USBEndpoint.t) (bufferData : list Z) (timeOut : Z)
    : M (Z * list Z) :=
  unless_null usbHostManager_ (INVALID, bufferData) (
    permitted c busNum devAddr (report_denied "BulkRead" busNum devAddr (pipe_of ep);; mret (DENIED, bufferData)) (
      claimRet ← CheckExclusiveTransfer c busNum devAddr (USBEndpoint.interfaceId_ ep);
      if negb (claimRet =? UEC_OK) then mret (claimRet, bufferData) else
      '(ret, bufferData) ← on_host_manager (INVALID, bufferData)
         (UsbHostTransfer.BulkTransferRead (dev busNum devAddr) (pipe_of ep) bufferData timeOut);
      report_failed "BulkRead" busNum devAddr ep ret "BulkTransferReadFail";; mret (ret, bufferData))).
Definition BulkTransferReadwithLength (c : Caller) (busNum devAddr : Z) (ep : USBEndpoint.t) (length : Z)
    (bufferData : list Z) (timeOut : Z) : M (Z * list Z) :=
  unless_null usbHostManager_ (INVALID, bufferData) (
    permitted c busNum devAddr (report_denied "BulkRead" busNum devAddr (pipe_of ep);; mret (DENIED, bufferData)) (
      claimRet ← CheckExclusiveTransfer c busNum devAddr (USBEndpoint.interfaceId_ ep);
      if negb (claimRet =? UEC_OK) then mret (claimRet, bufferData) else
      '(ret, bufferData) ← on_host_manager (INVALID, bufferData)
         (UsbHostTransfer.BulkTransferReadwithLength (dev busNum devAddr) (pipe_of ep) length bufferData timeOut);
      report_failed "BulkRead" busNum devAddr ep ret "BulkTransferReadFail";; mret (ret, bufferData))).
Definition BulkTransferWrite (c : Caller) (busNum devAddr : Z) (ep : USBEndpoint.t) (bufferData : list Z) (timeOut : Z) : M Z :=
  unless_null usbHostManager_ INVALID (
    permitted c busNum devAddr (report_denied "BulkWrite" busNum devAddr (pipe_of ep);; mret DENIED) (
      claimRet ← CheckExclusiveTransfer c busNum devAddr (USBEndpoint.interfaceId_ ep);
      if negb (claimRet =? UEC_OK) then mret claimRet else
      ret ← on_host_manager INVALID
         (UsbHostTransfer.BulkTransferWrite (dev busNum devAddr) (pipe_of ep) bufferData timeOut);
      report_failed "BulkWrite" busNum devAddr ep ret "BulkTransferWriteFail";; mret ret)).

(** Control transfers name no interface: no claim is asked for. *)
Definition ControlTransfer (c : Caller) (busNum devAddr : Z) (ctrlParams : UsbCtlSetUp) (bufferData : list Z) : M (Z * list Z) :=
  unless_null usbHostManager_ (INVALID, bufferData) (
    permitted c busNum devAddr (report_denied "ControlTransfer" busNum devAddr no_pipe;; mret (DENIED, bufferData)) (
      '(ret, bufferData) ← on_host_manager (INVALID, bufferData)
         (UsbHostTransfer.ControlTransfer (dev busNum devAddr) (UsbCtrlTransferChange ctrlParams) bufferData);
      (if negb (ret =? UEC_OK) then with_target busNum devAddr (λ d,
         report_transfer (ReportTransferFaultSysEvent "ControlTransfer" d no_pipe ret "ControlTransferFail"))
       else mret ());;
      mret (ret, bufferData))).
Definition UsbControlTransfer (c : Caller) (busNum devAddr : Z) (ctrlParams : UsbCtlSetUp) (bufferData : list Z)
    : M (Z * list Z) :=
  unless_null usbHostManager_ (INVALID, bufferData) (
    permitted c busNum devAddr (report_denied "ControlTransfer" busNum devAddr no_pipe;; mret (DENIED, bufferData)) (
      '(ret, bufferData) ← on_host_manager (INVALID, bufferData)
         (UsbHostTransfer.UsbControlTransfer (dev busNum devAddr) (UsbCtrlTransferChangeWithLength ctrlParams) bufferData);
      (if negb (ret =? UEC_OK) then with_target busNum devAddr (λ d,
         report_transfer (ReportTransferFaultSysEvent "ControlTransfer" d no_pipe ret "UsbControlTransferFail"))
       else mret ());;
      mret (ret, bufferData))).

Definition RequestQueue (c : Caller) (busNum devAddr : Z) (ep : USBEndpoint.t) (clientData bufferData : list Z) : M Z :=
  forward c busNum devAddr (UsbHostTransfer.RequestQueue (dev busNum devAddr) (pipe_of ep) clientData bufferData).
Definition RequestWait (c : Caller) (busNum devAddr timeOut : Z) (clientData bufferData : list Z) : M (Z * (list Z * list Z)) :=
  forward_out c busNum devAddr (clientData, bufferData)
    (UsbHostTransfer.RequestWait (dev busNum devAddr) timeOut clientData bufferData).
Definition RequestCancel (c : Caller) (busNum devAddr interfaceId endpointId : Z) : M Z :=
  forward c busNum devAddr (UsbHostTransfer.RequestCancel busNum devAddr interfaceId endpointId).
Definition RegBulkCallback (c : Caller) (busNum devAddr : Z) (ep : USBEndpoint.t) (cb : option RemoteObject) : M Z :=
  forward c busNum devAddr (UsbHostTransfer.RegBulkCallback (dev busNum devAddr) (pipe_of ep) cb).
Definition UnRegBulkCallback (c : Caller) (busNum devAddr : Z) (ep : USBEndpoint.t) : M Z :=
  forward c busNum devAddr (UsbHostTransfer.UnRegBulkCallback (dev busNum devAddr) (pipe_of ep)).
Definition UsbCancelTransfer (c : Caller) (busNum devAddr endpoint : Z) : M Z :=
  forward c busNum devAddr (UsbHostTransfer.UsbCancelTransfer (dev busNum devAddr) endpoint).
Definition BulkCancel (c : Caller) (busNum devAddr : Z) (ep : USBEndpoint.t) : M Z :=
  forward c busNum devAddr (UsbHostTransfer.BulkCancel (dev busNum devAddr) (pipe_of ep)).

(** The endpoint of a device in the table, with its device. *)
Definition find_endpoint (busNum devAddr endpoint : Z) : M (option (UsbDevice.t * USBEndpoint.t)) :=
  d ← on_host_manager None (on_manager (GetTargetDevice busNum devAddr));
  mret (d ← (d : option UsbDevice.t); ep ← GetEndpointFromId d endpoint; Some (d, ep)).
Definition report_submit (param : UsbTransInfo) (busNum devAddr ret : Z) (description : string) : M () :=
  r ← find_endpoint busNum devAddr (trans_endpoint param);
  match r with
  | None => mret ()
  | Some (d, ep) => report_transfer (ReportTransferFaultSysEvent (GetTransferTypeString param ep) d
      {| intfId := USBEndpoint.interfaceId_ ep; endpointId := to_u8 (trans_endpoint param) |} ret description)
  end.
(** The claim is looked up when the endpoint is known. *)
Definition UsbSubmitTransfer (c : Caller) (busNum devAddr : Z) (param : UsbTransInfo) (cb : option RemoteObject)
    (fd memSize : Z) : M Z :=
  match cb with
  | None => effect (FdClosed fd);; mret INVALID
  | Some cb =>
      if (fd <=? 0) || (memSize <=? 0) || (MEMSIZE_MAX <=? memSize) then effect (FdClosed fd);; mret INVALID else
      unless_null usbHostManager_ INVALID (
        permitted c busNum devAddr
          (report_submit param busNum devAddr DENIED "CheckDevicePermission failed";; mret DENIED) (
          r ← find_endpoint busNum devAddr (trans_endpoint param);
          claimRet ← (match r with
                      | Some (_, ep) => CheckExclusiveTransfer c busNum devAddr (USBEndpoint.interfaceId_ ep)
                      | None => mret UEC_OK
                      end);
          if negb (claimRet =? UEC_OK) then mret claimRet else
          ret ← on_host_manager INVALID (UsbHostTransfer.UsbSubmitTransfer (dev busNum devAddr) (UsbTransInfoChange param) cb
                  {| ashmem_fd := fd; ashmem_size := memSize |});
          (if negb (ret =? UEC_OK) then report_submit param busNum devAddr ret "UsbSubmitTransferFail" else mret ());;
          mret ret))
  end.
Definition bulk_shared (type failure : string) (f : UsbDev → UsbPipe → option Ashmem → state (HostTransfers W SM) Z)
    (c : Caller) (busNum devAddr : Z) (ep : USBEndpoint.t) (fd memSize : Z) : M Z :=
  m ← get;
  if negb (is_set (usbHostManager_ m)) || (fd <=? 0) || (memSize <=? 0) then effect (FdClosed fd);; mret INVALID else
  permitted c busNum devAddr
    (effect (FdClosed fd);; report_denied type busNum devAddr (pipe_of ep);; mret DENIED) (
    ret ← on_host_manager INVALID (f (dev busNum devAddr) (pipe_of ep) (Some {| ashmem_fd := fd; ashmem_size := memSize |}));
    report_failed type busNum devAddr ep ret failure;; mret ret).
Definition BulkRead := bulk_shared "BulkRead" "BulkReadFail" UsbHostTransfer.BulkRead.
Definition BulkWrite := bulk_shared "BulkWrite" "BulkWriteFail" UsbHostTransfer.BulkWrite.

(** *** The enterprise device manager *)

(** The caller is the administrator's process; the rest is for [f]. *)
Definition managed {A} (c : Caller) (code : Z → A) (f : M A) : M A :=
  ok ← IsCallerValid c;
  if negb ok then mret (code (uec UEC_SERVICE_INVALID_OPERATION)) else
  pre ← PreCallFunction c;
  if negb (pre =? UEC_OK) then mret (code (uec UEC_SERVICE_PRE_MANAGE_INTERFACE_FAILED)) else f.
Definition ManageGlobalInterface (c : Caller) (disable : bool) : M Z :=
  managed c id (on_host_manager INVALID (on_manager (UsbHostPolicy.ManageGlobalInterface disable))).
Definition ManageDevice (c : Caller) (vid pid : Z) (disable : bool) : M Z :=
  managed c id (on_host_manager INVALID (on_manager (UsbHostPolicy.ManageDevice vid pid disable))).
Definition ManageDevicePolicy (c : Caller) (trustList : list UsbDeviceIdInfo) : M Z :=
  managed c id (on_host_manager INVALID (on_manager (UsbHostPolicy.ManageDevicePolicy (UsbDeviceIdChange trustList [])))).
Definition ManageInterfaceType (c : Caller) (devTypeInfo : list UsbDeviceTypeInfo) (disable : bool) : M Z :=
  managed c id (on_host_manager INVALID
    (on_manager (UsbHostPolicy.ManageInterfaceType (UsbDeviceTypeChange [] devTypeInfo) disable))).
Definition ManageUsbType (c : Caller) (devTypeInfo : list UsbDeviceTypeInfo) (disable : bool) : M Z :=
  managed c id (on_host_manager INVALID
    (on_manager (UsbHostPolicy.ManageUsbType (UsbDeviceTypeChange [] devTypeInfo) disable))).
(** Called when the parameter changes; [None]: the policy's loop. *)
Definition serial_manager (m : US) : option SM := h ← usbHostManager_ m; usbSerialManager_ (manager h).
Definition ManageUsbSerialDevice (disable : bool) : M (option Z) :=
  m ← get;
  if negb (is_set (serial_manager m)) then mret (Some INVALID) else
  on_host_manager (Some INVALID) (on_manager (UsbHostPolicy.ManageUsbSerialDevice disable)).

(** *** The table of devices *)

Definition GetDevices (deviceList : list UsbDevice.t) : M (Z * list UsbDevice.t) :=
  on_host_manager (INVALID, deviceList) (on_manager (UsbHostManager.GetDevices deviceList)).
Definition GetDeviceInfo (busNum devAddr : Z) (d : UsbDevice.t) : M (outcome (Z * UsbDevice.t)) :=
  on_host_manager (Done (INVALID, d)) (on_manager (UsbHostDescriptor.GetDeviceInfo char_signed busNum devAddr d)).
Definition GetDeviceInfoDescriptor (busNum devAddr : Z) (descriptor : list Z) (d : UsbDevice.t)
    : M (outcome (Z * list Z * UsbDevice.t)) :=
  on_host_manager (Done (INVALID, descriptor, d))
    (on_manager (UsbHostDescriptor.GetDeviceInfoDescriptor busNum devAddr descriptor d)).
Definition GetConfigDescriptor (d : UsbDevice.t) (descriptor : list Z) : M (outcome (Z * UsbDevice.t)) :=
  on_host_manager (Done (INVALID, d)) (on_manager (UsbHostDescriptor.GetConfigDescriptor char_signed d descriptor)).
Definition GetDeviceProductName (deviceName : string) : M (option string) :=
  on_host_manager None (on_manager (GetProductName deviceName)).

Definition unique_name (d : UsbDevice.t) : string :=
  pretty (UsbDevice.vendorId_ d) +:+ "-" +:+ pretty (UsbDevice.productId_ d) +:+ "-" +:+ UsbDevice.serial_ d.
(** [insert] keeps the identity of a name that is there. *)
Definition AddDevice (busNum devAddr : Z) : M (outcome bool) :=
  unless_null usbHostManager_ (Done false) (
    r ← GetDeviceInfo busNum devAddr UsbDevice.default_;
    match r with
    | Fault => mret Fault
    | OutOfFuel => mret OutOfFuel
    | Done (ret, devInfo) =>
        if negb (ret =? UEC_OK) then mret (Done false) else
        modify (λ m, set_names (match deviceVidPidMap_ m !! device_key busNum devAddr with
                                | Some _ => deviceVidPidMap_ m
                                | None => <[device_key busNum devAddr := unique_name devInfo]> (deviceVidPidMap_ m)
                                end) m);;
        added ← on_host_manager (Some false) (on_manager (UsbHostPolicy.AddDevice (Some devInfo)));
        mret (match (added : option bool) with Some _ => Done true | None => OutOfFuel end)
    end).
(** [c] is the process that reports the departure.  The service ends at a null pointer of
    the right manager. *)
Definition DelDevice (c : Caller) (busNum devAddr : Z) : M bool :=
  RemoveAllDeviceConnections busNum devAddr;;
  RemoveAllClaimByDevice busNum devAddr;;
  _ ← Close c busNum devAddr;
  unless_null usbHostManager_ false (unless_null usbRightManager_ false (
    let name := device_key busNum devAddr in
    desc ← GetDeviceVidPidSerialNumber name;
    removed ← on_right (Some false) (rs_RemoveDeviceAllRight c desc);
    if negb (is_set removed) then mret false else
    modify (λ m, set_names (delete name (deviceVidPidMap_ m)) m);;
    on_host_manager false (on_manager (UsbHostPolicy.DelDevice busNum devAddr)))).
End Host.
