(* ===== verification/UsbServiceDevice.v ===== *)
(** * The service: the gadget, accessories and ports
    (services/native/src/usb_service.cpp)

    The requests that end at the device, accessory and port managers, each behind
    its interface, with the system permission or the right they ask for. *)
From S2P Require Import Prelude UsbErrors Platform UsbAccessory UsbPortManager SerialManager UsbHostTransfer UsbService.

Definition SERVICE_FUNCTION_HDC : Z := 4.

(** ** The managers *)

Class DeviceService (DM : Type) := {
  ds_InitUsbDeviceInterface : state DM bool;
  ds_Init : state DM Z;
  ds_Stop : state DM ();
  ds_SetPhyConnectState : bool → state DM ();
  ds_GetCurrentFunctions : Z → state DM (Z * Z);
  ds_SetCurrentFunctions : Z → state DM Z;
  ds_ConvertFromString : string → Z;
  ds_ConvertToString : Z → string;
  ds_HandleEvent : Z → state DM ();
  ds_ProcessCustomControlRequestUevent : Z → state DM ();
  ds_SetChargeFlag : bool → state DM ();
  ds_UserChangeProcess : state DM (option Z);     (* [None]: a null pointer *)
  ds_IsGadgetConnected : state DM bool;
  ds_Dump : list string → state DM (list string);
  ds_GetDumpHelp : list string;
}.
Class AccessoryService (AM : Type) := {
  as_InitUsbAccessoryInterface : state AM bool;
  as_GetAccessoryList : string → list USBAccessory → state AM (list USBAccessory);
  as_GetAccessorySerialNumber : USBAccessory → string → string → state AM (Z * string);
  as_OpenAccessory : Z → state AM (Z * Z);
  as_CloseAccessory : Z → state AM Z;
  as_HandleEvent : Z → state AM ();
}.
Class PortService (PM : Type) := {
  HDF_ERR_NOT_SUPPORT : Z;
  ps_InitUsbPortInterface : state PM bool;
  ps_Init : state PM ();
  ps_Stop : state PM ();
  ps_GetPorts : list UsbPort → state PM (Z * list UsbPort);
  ps_GetSupportedModes : Z → Z → state PM (Z * Z);
  ps_SetPortRole : Z → Z → Z → state PM Z;
  ps_UpdatePort : Z → Z → Z → Z → state PM ();
  ps_UpdatePortWithModes : Z → Z → Z → Z → Z → state PM ();
  ps_IsReverseCharge : state PM bool;
  ps_Dump : list string → state PM (option (list string));
  ps_GetDumpHelp : list string;
}.

Section Device.
Context {RM HT DM AM PM P : Type}.
Context `{!RightService RM, !DeviceService DM, !AccessoryService AM, !PortService PM, !ServicePlatform P, !ErrCodeBase}.
Abbreviation US := (UsbService RM HT DM AM PM P).
Abbreviation M := (state US).
Abbreviation INVALID := (uec UEC_SERVICE_INVALID_VALUE).
Abbreviation NO_TOKEN_INFO := (uec UEC_SERVICE_GET_TOKEN_INFO_FAILED).

(** The system permission, with a report of the refusal when [fault] names one. *)
Definition sys_api (c : Caller) (fault : option string) (f : M Z) : M Z :=
  unless_null usbRightManager_ INVALID (
    ret ← CheckSysApiPermission c;
    if negb (ret =? UEC_OK) then
      (match fault with
       | Some type => ReportUsbOperationFaultSysEvent type ret "CheckSysApiPermission failed"
       | None => mret ()
       end);; mret ret
    else f).
(** The same for a request that fills a variable. *)
Definition sys_api_out {A} (c : Caller) (fault : option string) (a : A) (f : M (Z * A)) : M (Z * A) :=
  unless_null usbRightManager_ (INVALID, a) (
    ret ← CheckSysApiPermission c;
    if negb (ret =? UEC_OK) then
      (match fault with
       | Some type => ReportUsbOperationFaultSysEvent type ret "CheckSysApiPermission failed"
       | None => mret ()
       end);; mret (ret, a)
    else f).

(** *** The functions of the gadget *)

Definition SetPhyConnect (phyConnect : bool) : M () := on_device_manager () (ds_SetPhyConnectState phyConnect).
Definition GetCurrentFunctions (c : Caller) (functions : Z) : M (Z * Z) :=
  sys_api_out c (Some "FUNCTION_CHANGED") functions
    (on_device_manager (INVALID, functions) (ds_GetCurrentFunctions functions)).

(** Whether the setting was written or had the value; with HDC off a setting that
    is off already counts as a failure. *)
Definition SetSettingsDataHdcStatus (func : Z) : M bool :=
  let hdc := has_flag (to_u32 func) SERVICE_FUNCTION_HDC in
  let hdcStatus := if hdc then "true" else "false" in
  old ← on_service datashare_Query;
  if bool_decide (old = Some hdcStatus) then mret hdc else on_service (datashare_Update hdcStatus).
Definition InitSettingsDataHdcStatus : M bool :=
  ok ← on_service datashare_ready;
  if negb ok then mret false else
  unless_null usbRightManager_ false (unless_null usbDeviceManager_ false (
    '(ret, func) ← on_device_manager (INVALID, 0) (ds_GetCurrentFunctions 0);
    (if negb (ret =? UEC_OK) then mret () else _ ← SetSettingsDataHdcStatus func; mret ());;
    mret true)).

Definition SetCurrentFunctions (c : Caller) (functions : Z) : M Z :=
  sys_api c (Some "FUNCTION_CHANGED") (
    ret ← on_right 0 (rs_HasSetFuncRight c functions);
    if negb (ret =? 0) then
      ReportUsbOperationFaultSysEvent "FUNCTION_CHANGED" ret "HasSetFuncRight fail";; mret ret
    else
    unless_null usbDeviceManager_ INVALID (
      _ ← SetSettingsDataHdcStatus functions;
      on_device_manager INVALID (ds_SetCurrentFunctions functions))).
(** The code is always 0; an error is in the place of the functions. *)
Definition UsbFunctionsFromString (c : Caller) (funcs : string) : M (Z * Z) :=
  m ← get;
  if negb (is_set (usbRightManager_ m)) then mret (UEC_OK, INVALID) else
  ret ← CheckSysApiPermission c;
  if negb (ret =? UEC_OK) then mret (UEC_OK, ret) else mret (UEC_OK, to_i32 (ds_ConvertFromString funcs)).
Definition UsbFunctionsToString (c : Caller) (funcs : Z) : M (Z * string) :=
  m ← get;
  if negb (is_set (usbRightManager_ m)) then mret (UEC_OK, "") else
  sys ← on_right false (rs_IsSystemAppOrSa c);
  if negb sys then mret (UEC_OK, PERMISSION_DENIED_SYSAPI) else
  ok ← on_right false (rs_VerifyPermission c);
  if negb ok then
    apiVersion ← GetHapApiVersion c;
    mret (UEC_OK, if apiVersion <? API_VERSION_ID_18 then PERMISSION_DENIED_SYSAPI else SYS_APP_PERMISSION_DENIED_SYSAPI)
  else mret (UEC_OK, ds_ConvertToString funcs).

Definition UpdateDeviceState (status : Z) : M () :=
  unless_null usbDeviceManager_ () (
    on_device_manager () (ds_HandleEvent status);;
    on_device_manager () (ds_ProcessCustomControlRequestUevent status);;
    on_accessory_manager () (as_HandleEvent status)).
Definition UserChangeProcess : M (option Z) :=
  unless_null usbDeviceManager_ (Some INVALID) (unless_null usbPortManager_ (Some INVALID) (
    res ← on_port_manager false ps_IsReverseCharge;
    on_device_manager () (ds_SetChargeFlag res);;
    on_device_manager (Some INVALID) ds_UserChangeProcess)).

(** *** Accessories *)

Definition GetAccessoryList (c : Caller) (accessList : list USBAccessory) : M (Z * list USBAccessory) :=
  unless_null usbAccessoryManager_ (INVALID, accessList) (
    callerTokenType ← on_service (AccessTokenKit_GetTokenType (CallingTokenID c));
    info ← (if bool_decide (callerTokenType = TOKEN_SHELL) then mret (Some "")
            else info ← GetCallingInfo c; mret ((λ i : string * string * Z, i.1.1) <$> (info : option _)));
    match info with
    | None =>
        ReportUsbOperationFaultSysEvent "GetAccessoryList " (uec UEC_SERVICE_INNER_ERR) "GetCallingInfo false";;
        mret (uec UEC_SERVICE_INNER_ERR, accessList)
    | Some bundleName =>
        l ← on_accessory_manager accessList (as_GetAccessoryList bundleName accessList); mret (UEC_OK, l)
    end).

(** The right of the caller on an accessory; [result] is left on failure. *)
Definition HasAccessoryRight (c : Caller) (access : USBAccessory) (result : bool) : M (Z * bool) :=
  unless_null usbRightManager_ (INVALID, result) (unless_null usbAccessoryManager_ (INVALID, result) (
    info ← GetCallingInfo c;
    match info with
    | None => mret (NO_TOKEN_INFO, result)
    | Some (bundleName, tokenId, userId) =>
        '(ret, serialNum) ← on_accessory_manager (INVALID, "") (as_GetAccessorySerialNumber access bundleName "");
        if negb (ret =? UEC_OK) then mret (ret, result) else
        result ← on_right false (rs_HasRight c serialNum bundleName tokenId userId); mret (UEC_OK, result)
    end)).
Definition RequestAccessoryRight (c : Caller) (access : USBAccessory) (result : bool) : M (Z * bool) :=
  unless_null usbRightManager_ (INVALID, result) (unless_null usbAccessoryManager_ (INVALID, result) (
    info ← GetCallingInfo c;
    match info with
    | None => mret (NO_TOKEN_INFO, result)
    | Some (bundleName, tokenId, userId) =>
        '(ret, serialNum) ← on_accessory_manager (INVALID, "") (as_GetAccessorySerialNumber access bundleName "");
        if negb (ret =? UEC_OK) then mret (ret, result) else
        on_right (INVALID, result) (rs_RequestAccessoryRight c access serialNum bundleName tokenId userId)
    end)).
Definition CancelAccessoryRight (c : Caller) (access : USBAccessory) : M Z :=
  unless_null usbRightManager_ INVALID (unless_null usbAccessoryManager_ INVALID (
    info ← GetCallingInfo c;
    match info with
    | None => mret NO_TOKEN_INFO
    | Some (bundleName, tokenId, userId) =>
        '(ret, serialNum) ← on_accessory_manager (INVALID, "") (as_GetAccessorySerialNumber access bundleName "");
        if negb (ret =? UEC_OK) then mret ret else
        ret ← on_right INVALID (rs_CancelDeviceRight c serialNum bundleName tokenId userId);
        if negb (ret =? UEC_OK) then mret (uec UEC_SERVICE_DATABASE_OPERATION_FAILED) else mret UEC_OK
    end)).
(** [None]: an exception of the right manager. *)
Definition AddAccessoryRight (c : Caller) (tokenId : Z) (access : USBAccessory) : M (option Z) :=
  unless_null usbRightManager_ (Some INVALID) (unless_null usbAccessoryManager_ (Some INVALID) (
    ret ← CheckSysApiPermission c;
    if negb (ret =? UEC_OK) then mret (Some ret) else
    hap ← on_service (AccessTokenKit_GetHapTokenInfo tokenId);
    match hap with
    | None => mret (Some NO_TOKEN_INFO)
    | Some hap =>
        '(ret, serialNum) ← on_accessory_manager (INVALID, "") (as_GetAccessorySerialNumber access (hap_bundleName hap) "");
        if negb (ret =? UEC_OK) then mret (Some ret) else
        ok ← on_right (Some false) (rs_AddDeviceRight c serialNum (pretty (to_u32 tokenId)));
        mret ((λ ok : bool, if negb ok then uec UEC_SERVICE_DATABASE_OPERATION_FAILED else UEC_OK) <$> (ok : option bool))
    end)).

Definition RemoveAccessoryClientInfo (fd tokenId : Z) : M () :=
  m ← get;
  match accessoryClientMap_ m !! (fd, tokenId) with
  | None => mret ()
  | Some info =>
      RemoveDeathRecipient (accessoryRemote info)
        (AccessoryDeath (fst (accessoryRecipient info)) (snd (accessoryRecipient info)));;
      modify (λ m, set_clients (delete (fd, tokenId) (accessoryClientMap_ m)) m)
  end.
Definition CloseAccessory (c : Caller) (fd : Z) : M Z :=
  unless_null usbAccessoryManager_ INVALID (
    RemoveAccessoryClientInfo fd (CallingTokenID c);;
    on_accessory_manager INVALID (as_CloseAccessory fd)).
(** The token's text is read back: the number is that of the caller. *)
Definition OpenAccessory (c : Caller) (access : USBAccessory) (fd : Z) (accessoryRemote : option RemoteObject) : M (Z * Z) :=
  unless_null usbAccessoryManager_ (INVALID, fd) (
    info ← GetCallingInfo c;
    match info with
    | None => ReportUsbOperationFaultSysEvent "OpenAccessory" NO_TOKEN_INFO "GetCallingInfo false";; mret (NO_TOKEN_INFO, fd)
    | Some (bundleName, _, _) =>
        '(ret, _) ← on_accessory_manager (INVALID, "") (as_GetAccessorySerialNumber access bundleName "");
        if negb (ret =? UEC_OK) then
          ReportUsbOperationFaultSysEvent "OpenAccessory" ret "can not find accessory";; mret (ret, fd)
        else
        '(ret, result) ← HasAccessoryRight c access false;
        if negb (ret =? UEC_OK) || negb result then
          ReportUsbOperationFaultSysEvent "OpenAccessory" (uec UEC_SERVICE_PERMISSION_DENIED) "No permission";;
          mret (uec UEC_SERVICE_PERMISSION_DENIED, fd)
        else
        '(ret, fd) ← on_accessory_manager (INVALID, fd) (as_OpenAccessory fd);
        if negb (ret =? UEC_OK) then mret (ret, fd) else
        let tokenIdNum := to_u32 (CallingTokenID c) in
        ok ← (match accessoryRemote with None => mret false | Some remote => add_recipient remote (AccessoryDeath fd tokenIdNum) end);
        match accessoryRemote with
        | Some remote =>
            if (ok : bool) then
              modify (λ m, set_clients (<[(fd, tokenIdNum) := {| accessoryRemote := remote; accessoryRecipient := (fd, tokenIdNum);
                client_tokenId := tokenIdNum |}]> (accessoryClientMap_ m)) m);;
              mret (ret, fd)
            else _ ← CloseAccessory c fd; mret (INVALID, -1)
        | None => _ ← CloseAccessory c fd; mret (INVALID, -1)
        end
    end).
(** [AccessoryDeathRecipient::OnRemoteDied]; [c] is the service itself. *)
Definition AccessoryDeath_OnRemoteDied (c : Caller) (fd tokenId : Z) : M () :=
  RemoveAccessoryClientInfo fd tokenId;; _ ← CloseAccessory c fd; mret ().

(** *** Ports *)

Definition GetPorts (c : Caller) (ports : list UsbPort) : M (Z * list UsbPort) :=
  sys_api_out c (Some "GetPorts") ports (on_port_manager (INVALID, ports) (ps_GetPorts ports)).
Definition GetSupportedModes (c : Caller) (portId supportedModes : Z) : M (Z * Z) :=
  sys_api_out c None supportedModes (on_port_manager (INVALID, supportedModes) (ps_GetSupportedModes portId supportedModes)).
Definition SetPortRole (c : Caller) (portId powerRole dataRole : Z) : M Z :=
  sys_api c (Some "SetPortRole") (
    unless_null usbPortManager_ INVALID (
      ret ← on_port_manager INVALID (ps_SetPortRole portId powerRole dataRole);
      if ret =? HDF_ERR_NOT_SUPPORT then mret (uec UEC_SERVICE_NOT_SUPPORT_SWITCH_PORT) else mret ret)).
Definition UpdateUsbPort (portId powerRole dataRole mode : Z) : M () :=
  on_port_manager () (ps_UpdatePort portId powerRole dataRole mode).
Definition UpdateUsbPortWithModes (portId powerRole dataRole mode supportedModes : Z) : M () :=
  on_port_manager () (ps_UpdatePortWithModes portId powerRole dataRole mode supportedModes).
End Device.
