(* ===== verification/UsbServiceSerial.v ===== *)
(** * The service: serial ports (services/native/src/usb_service.cpp)

    Rights on serial ports and the requests that end at the serial manager.  The
    service and the host manager point to one serial manager, set in both at the
    same places; the object is kept in the host manager. *)
From S2P Require Import Prelude UsbErrors Platform UsbRightManager SerialManager UsbInterfaceType UsbHostManager UsbHostTransfer UsbService UsbServiceHost.

Definition SERIALREAD_SIZE_MAX : Z := 64 * 1024.
Definition SERIALWRITE_SIZE_MAX : Z := 200 * 1024.

Record UsbSerialAttr := { baudRate_ : Z; stopBits_ : Z; parity_ : Z; dataBits_ : Z }.
Record UsbSerialPort := {
  serial_portId_ : Z; serial_busNum_ : Z; serial_devAddr_ : Z; serial_vid_ : Z; serial_pid_ : Z; serial_serialNum_ : string }.

(** The other fields of the service's records, the attributes of four numbers and
    those of an uninitialised variable, the serial service itself. *)
Class SerialPortInfo (P D SerialPort SerialAttribute : Type) := {
  port_busNum : SerialPort → Z;
  port_devAddr : SerialPort → Z;
  port_vid : SerialPort → Z;
  port_pid : SerialPort → Z;
  port_serialNum : SerialPort → string;
  make_attribute : Z → Z → Z → Z → SerialAttribute;
  uninit_attribute : SerialAttribute;
  ISerialInterface_Get : state P (option D);
}.

Section Serial.
Context {W R D SerialPort SerialAttribute RM DM AM PM P : Type}.
Context `{!HostPlatform W R, !HostTransferPlatform W, !SerialInterface D SerialPort SerialAttribute}.
Context `{!SerialPortInfo P D SerialPort SerialAttribute, !RightService RM, !ServicePlatform P, !ErrCodeBase}.
Abbreviation SMgr := (SerialManager D SerialPort).
Abbreviation US := (UsbService RM (HostTransfers W SMgr) DM AM PM P).
Abbreviation M := (state US).
Abbreviation INVALID := (uec UEC_SERVICE_INVALID_VALUE).
Abbreviation DENIED := (uec UEC_SERVICE_PERMISSION_DENIED).

Definition set_serial (x : option SMgr) (m : US) : US :=
  set_host ((λ h, set_manager (set_serial_manager x (manager h)) h) <$> usbHostManager_ m) m.
Definition on_serial_manager {A} (dflt : A) (f : state SMgr A) : M A := through serial_manager set_serial dflt f.
(** [make_shared<SerialManager>()] and [SetSerialManager]. *)
Definition start_serial : M () :=
  serial ← on_service ISerialInterface_Get;
  modify (set_serial (Some (Build_SerialManager ∅ ∅ serial ∅ ∅ []))).

Definition ValidateUsbSerialManagerAndPort (portId : Z) : M Z :=
  m ← get;
  if negb (is_set (serial_manager m)) then mret INVALID else
  exists_ ← on_serial_manager false (IsPortIdExist portId);
  if negb exists_ then mret (uec UEC_SERIAL_PORT_NOT_EXIST) else mret UEC_OK.
Definition CheckDbAbility (portId : Z) : M Z :=
  helper ← on_service UsbRightDbHelper_GetInstance;
  if negb helper then
    ReportUsbSerialOperationFaultSysEvent portId "RequestSerialRight" (uec UEC_SERIAL_DATEBASE_ERROR) "get dbHelper failed";;
    mret (uec UEC_SERIAL_DATEBASE_ERROR)
  else mret UEC_OK.

(** The name and the identity of the port's device. *)
Definition GetPortIdentity (portId : Z) : M (option (string * string)) := gets (λ m, serialVidPidMap_ m !! portId).
Definition NO_IDENTITY : Z := uec UEC_INTERFACE_INVALID_VALUE.

(** *** Rights *)

Definition fault (portId : Z) (type : string) (ret : Z) (description : string) : M Z :=
  ReportUsbSerialOperationFaultSysEvent portId type ret description;; mret ret.

(** The code and [hasRight]. *)
Definition HasSerialRight (c : Caller) (portId : Z) : M (Z * bool) :=
  unless_null usbRightManager_ (INVALID, false) (
    ret ← ValidateUsbSerialManagerAndPort portId;
    if negb (ret =? UEC_OK) then mret (ret, false) else
    ret ← CheckDbAbility portId;
    if negb (ret =? UEC_OK) then mret (ret, false) else
    identity ← GetPortIdentity portId;
    match identity with
    | None => mret (NO_IDENTITY, false)
    | Some (_, desc) =>
        sys ← on_right false (rs_IsSystemAppOrSa c);
        if (sys : bool) then mret (UEC_OK, true) else
        info ← GetCallingInfo c;
        match info with
        | None => mret (INVALID, false)
        | Some (bundleName, tokenId, userId) =>
            has ← on_right false (rs_HasRight c desc bundleName tokenId userId); mret (UEC_OK, has)
        end
    end).
(** [None]: an exception of the right manager. *)
Definition RequestSerialRight (c : Caller) (portId : Z) : M (option (Z * bool)) :=
  let failed ret description :=
    ret ← fault portId "RequestSerialRight" ret description; mret (Some (ret, false)) in
  m ← get;
  if negb (is_set (usbRightManager_ m)) then failed INVALID "usbRightManager_ is nullptr" else
  ret ← ValidateUsbSerialManagerAndPort portId;
  if negb (ret =? UEC_OK) then failed ret "invalid portId" else
  ret ← CheckDbAbility portId;
  if negb (ret =? UEC_OK) then mret (Some (ret, false)) else
  identity ← GetPortIdentity portId;
  match identity with
  | None => failed NO_IDENTITY "can not find deviceName."
  | Some (deviceName, desc) =>
      sys ← on_right false (rs_IsSystemAppOrSa c);
      if (sys : bool) then mret (Some (UEC_OK, true)) else
      info ← GetCallingInfo c;
      match info with
      | None => failed INVALID "GetCallingInfo false"
      | Some (bundleName, tokenId, userId) =>
          ret ← on_right (Some UEC_OK) (rs_RequestSerialRight c portId
                  {| busDev := deviceName; serial_deviceName := desc |} bundleName tokenId userId);
          mret ((λ ret, (UEC_OK, ret =? UEC_OK)) <$> (ret : option Z))
      end
  end.
(** The port is closed as by the caller. *)
Definition CancelSerialRight (c : Caller) (portId : Z) : M Z :=
  let failed := fault portId "CancelSerialRight" in
  m ← get;
  if negb (is_set (usbRightManager_ m)) then failed INVALID "usbRightManager_ is nullptr" else
  ret ← ValidateUsbSerialManagerAndPort portId;
  if negb (ret =? UEC_OK) then failed ret "validate portId" else
  ret ← CheckDbAbility portId;
  if negb (ret =? UEC_OK) then mret ret else
  identity ← GetPortIdentity portId;
  match identity with
  | None => failed NO_IDENTITY "can not find deviceName."
  | Some (_, desc) =>
      sys ← on_right false (rs_IsSystemAppOrSa c);
      if (sys : bool) then mret UEC_OK else
      info ← GetCallingInfo c;
      match info with
      | None => failed INVALID "GetCallingInfo false"
      | Some (bundleName, tokenId, userId) =>
          ok ← on_right false (rs_RemoveDeviceRight c desc bundleName tokenId userId);
          if negb ok then failed DENIED "RemoveDeviceRight failed" else
          _ ← on_serial_manager INVALID (SerialManager.SerialClose c portId); mret UEC_OK
      end
  end.
Definition AddSerialRight (c : Caller) (tokenId portId : Z) : M (option Z) :=
  let failed ret description := ret ← fault portId "AddSerialRight" ret description; mret (Some ret) in
  m ← get;
  if negb (is_set (usbRightManager_ m)) then failed INVALID "usbRightManager_ is nullptr" else
  ret ← CheckSysApiPermission c;
  if negb (ret =? UEC_OK) then failed ret "SerialCheckSysApiPermission failed" else
  ret ← CheckDbAbility portId;
  if negb (ret =? UEC_OK) then mret (Some ret) else
  ret ← ValidateUsbSerialManagerAndPort portId;
  if negb (ret =? UEC_OK) then failed ret "ValidateUsbSerialManagerAndPort failed" else
  identity ← GetPortIdentity portId;
  match identity with
  | None => failed NO_IDENTITY "can not find deviceName."
  | Some (_, desc) =>
      ok ← on_right (Some false) (rs_AddDeviceRight c desc (pretty (to_u32 tokenId)));
      match (ok : option bool) with
      | None => mret None
      | Some false => failed (uec UEC_SERIAL_DATEBASE_ERROR) "AddDeviceRight failed"
      | Some true => mret (Some UEC_OK)
      end
  end.

(** *** Ports *)

Definition ReportUsbSerialOperationSysEvent (c : Caller) (portId : Z) (operationType : string) : M () :=
  p ← on_serial_manager None (GetSerialPort portId);
  match p with
  | None => mret ()
  | Some p =>
      '(ret, attribute) ← on_serial_manager (INVALID, uninit_attribute)
         (SerialManager.SerialGetAttribute c portId uninit_attribute);
      if negb (ret =? UEC_OK) then mret () else
      info ← GetCallingInfo c;
      match info with
      | None => mret ()
      | Some (bundleName, _, _) => effect (SerialOperation_reported operationType {|
          clientName := bundleName; entry_vid := port_vid p; entry_pid := port_pid p; entry_serialNum := port_serialNum p;
          entry_baudrate := baudrate attribute; entry_stopBits := stopBits attribute; entry_parity := parity attribute; entry_dataBits := dataBits attribute |})
      end
  end.

(** [None]: [serialRemote] is null and is called. *)
Definition SerialOpen (c : Caller) (portId : Z) (serialRemote : option RemoteObject) : M (option Z) :=
  let failed ret description := ret ← fault portId "SerialOpen" ret description; mret (Some ret) in
  ret ← ValidateUsbSerialManagerAndPort portId;
  if negb (ret =? UEC_OK) then failed ret "ValidateUsbSerialManagerAndPort failed" else
  '(_, hasRight) ← HasSerialRight c portId;
  if negb hasRight then failed DENIED "There are no permissions" else
  match serialRemote with
  | None => mret None
  | Some remote =>
      ok ← add_recipient remote (SerialDeath portId (CallingTokenID c));
      if negb ok then failed INVALID "SerialOpen add DeathRecipient failed" else
      ret ← on_serial_manager INVALID (SerialManager.SerialOpen c portId);
      if negb (ret =? UEC_OK) then failed ret "SerialOpen failed" else
      ReportUsbSerialOperationSysEvent c portId "SerialOpen";; mret (Some UEC_OK)
  end.
Definition SerialClose (c : Caller) (portId : Z) : M Z :=
  ret ← ValidateUsbSerialManagerAndPort portId;
  if negb (ret =? UEC_OK) then fault portId "SerialClose" ret "ValidateUsbSerialManagerAndPort failed" else
  ReportUsbSerialOperationSysEvent c portId "SerialClose";;
  ret ← on_serial_manager INVALID (SerialManager.SerialClose c portId);
  if negb (ret =? UEC_OK) then fault portId "SerialClose" ret "SerialClose failed" else mret ret.

Definition SerialRead (c : Caller) (portId : Z) (data : list Z) (size actualSize timeout : Z) : M (Z * list Z * Z) :=
  if (SERIALREAD_SIZE_MAX <? size) || (SERIALREAD_SIZE_MAX <? Z.of_nat (length data))
  then mret (uec UEC_SERIAL_IO_EXCEPTION, data, actualSize) else
  ret ← ValidateUsbSerialManagerAndPort portId;
  if negb (ret =? UEC_OK) then
    ret ← fault portId "SerialRead" ret "ValidateUsbSerialManagerAndPort failed"; mret (ret, data, actualSize)
  else
  '(ret, data, actualSize) ← on_serial_manager (INVALID, data, actualSize)
     (SerialManager.SerialRead c portId data size actualSize timeout);
  (if negb (ret =? UEC_OK) then _ ← fault portId "SerialRead" ret "SerialRead failed"; mret () else mret ());;
  mret (ret, data, actualSize).
Definition SerialWrite (c : Caller) (portId : Z) (data : list Z) (size actualSize timeout : Z) : M (Z * Z) :=
  if (SERIALWRITE_SIZE_MAX <? size) || (SERIALWRITE_SIZE_MAX <? Z.of_nat (length data))
  then mret (uec UEC_SERIAL_IO_EXCEPTION, actualSize) else
  if Z.of_nat (length data) <? size then mret (INVALID, actualSize) else
  ret ← ValidateUsbSerialManagerAndPort portId;
  if negb (ret =? UEC_OK) then
    ret ← fault portId "SerialWrite" ret "ValidateUsbSerialManagerAndPort failed"; mret (ret, actualSize)
  else
  '(ret, actualSize) ← on_serial_manager (INVALID, actualSize)
     (SerialManager.SerialWrite c portId data size actualSize timeout);
  (if negb (ret =? UEC_OK) then _ ← fault portId "SerialWrite" ret "SerialWrite failed"; mret () else mret ());;
  mret (ret, actualSize).

(** [SerialAttributeChange], in both directions. *)
Definition attribute_of (a : UsbSerialAttr) : SerialAttribute := make_attribute (baudRate_ a) (stopBits_ a) (parity_ a) (dataBits_ a).
Definition of_attribute (a : SerialAttribute) : UsbSerialAttr := {|
  baudRate_ := baudrate a; stopBits_ := stopBits a; parity_ := parity a; dataBits_ := dataBits a |}.
(** On a failure of the serial manager the caller gets the variable as it is. *)
Definition SerialGetAttribute (c : Caller) (portId : Z) (attributeInfo : UsbSerialAttr) : M (Z * UsbSerialAttr) :=
  ret ← ValidateUsbSerialManagerAndPort portId;
  if negb (ret =? UEC_OK) then
    ret ← fault portId "SerialGetAttribute" ret "ValidateUsbSerialManagerAndPort failed"; mret (ret, attributeInfo)
  else
  '(ret, serialAttr) ← on_serial_manager (INVALID, uninit_attribute)
     (SerialManager.SerialGetAttribute c portId uninit_attribute);
  (if negb (ret =? UEC_OK) then _ ← fault portId "SerialGetAttribute" ret "SerialGetAttribute failed"; mret () else mret ());;
  mret (ret, of_attribute serialAttr).
Definition SerialSetAttribute (c : Caller) (portId : Z) (attributeInfo : UsbSerialAttr) : M Z :=
  ret ← ValidateUsbSerialManagerAndPort portId;
  if negb (ret =? UEC_OK) then fault portId "SerialSetAttribute" ret "ValidateUsbSerialManagerAndPort failed" else
  ret ← on_serial_manager INVALID (SerialManager.SerialSetAttribute c portId (attribute_of attributeInfo));
  if negb (ret =? UEC_OK) then fault portId "SerialSetAttribute" ret "SerialSetAttribute failed" else
  ReportUsbSerialOperationSysEvent c portId "SerialSetAttribute";; mret UEC_OK.

Definition SerialPortChange (serialInfoList : list UsbSerialPort) (serialPortList : list SerialPort) : list UsbSerialPort :=
  serialInfoList ++ map (λ p, {| serial_portId_ := portId_of p; serial_busNum_ := port_busNum p;
    serial_devAddr_ := port_devAddr p; serial_vid_ := port_vid p; serial_pid_ := port_pid p;
    serial_serialNum_ := port_serialNum p |}) serialPortList.
(** [insert] keeps the first of two ports with one number. *)
Definition UpdateDeviceVidPidMap (serialPortList : list SerialPort) : M () :=
  modify (set_serial_names (foldl (λ t p,
    match t !! portId_of p with
    | Some _ => t
    | None => <[portId_of p := (device_key (port_busNum p) (port_devAddr p),
                 pretty (port_vid p) +:+ "-" +:+ pretty (port_pid p) +:+ "-" +:+ port_serialNum p)]> t
    end) ∅ serialPortList)).
Definition SerialGetPortList (serialInfoList : list UsbSerialPort) : M (Z * list UsbSerialPort) :=
  m ← get;
  tty ← (if is_set (serial_manager m) then mret true else
         tty ← on_service tty_exists; (if (tty : bool) then start_serial else mret ());; mret tty);
  if negb tty then mret (UEC_OK, serialInfoList) else
  '(ret, serialPortList) ← on_serial_manager (INVALID, []) (SerialManager.SerialGetPortList []);
  if negb (ret =? UEC_OK) then mret (ret, serialInfoList) else
  UpdateDeviceVidPidMap serialPortList;;
  mret (ret, SerialPortChange serialInfoList serialPortList).

Definition FreeTokenId (portId tokenId : Z) : M () := on_serial_manager () (SerialManager.FreeTokenId portId tokenId).
(** [SerialDeathRecipient::OnRemoteDied]; [c] is the service itself. *)
Definition SerialDeath_OnRemoteDied (c : Caller) (portId tokenId : Z) : M () :=
  FreeTokenId portId tokenId;; _ ← CancelSerialRight c portId; mret ().
End Serial.
