(* ===== verification/UsbServiceLife.v ===== *)
(** * The service: its life (services/native/src/usb_service.cpp)

    Starting and stopping, unloading when nothing is attached, the events of the
    driver, the deaths of clients, the dump command. *)
From S2P Require Import Prelude UsbErrors Platform UsbDescriptorParser UsbDeviceManager SerialManager UsbInterfaceType UsbHostManager UsbHostPolicy UsbHostTransfer UsbService UsbServiceClaims UsbServiceHost UsbServiceDevice UsbServiceSerial.

Definition COMMEVENT_REGISTER_RETRY_TIMES : Z := 10.
Definition SERVICE_STARTUP_MAX_TIME : nat := 60.
Definition ARGLIST_SIZE_MIN : nat := 2.
Definition USB_HOST : string := "usb_host".
Definition USB_DEVICE : string := "usb_device".
Definition USB_PORT : string := "usb_port".
Definition USB_HELP : string := "-h".
Definition USB_LIST : string := "-l".
Definition USB_GETT : string := "-g".

Inductive UnLoadSaType := UNLOAD_SA_DELAY | UNLOAD_SA_IMMEDIATELY.
#[global] Instance UnLoadSaType_eq_dec : EqDecision UnLoadSaType.
Proof. solve_decision. Defined.
(** [USBDeviceInfo] *)
Record USBDeviceInfo := { status : Z; info_busNum : Z; info_devNum : Z }.

Section Life.
Context {W R D SerialPort SerialAttribute RM DM AM PM P : Type}.
Context `{!HostPlatform W R, !HostTransferPlatform W, !TableOrder, !CJson, !SerialInterface D SerialPort SerialAttribute}.
Context `{!PortList (SerialManager D SerialPort)}.
Context `{!SerialPortInfo P D SerialPort SerialAttribute, !RightService RM, !DeviceService DM, !AccessoryService AM}.
Context `{!PortService PM, !ServicePlatform P, !ErrCodeBase}.
Context (char_signed : bool).
Abbreviation SMgr := (SerialManager D SerialPort).
Abbreviation US := (UsbService RM (HostTransfers W SMgr) DM AM PM P).
Abbreviation M := (state US).
Abbreviation INVALID := (uec UEC_SERVICE_INVALID_VALUE).

(** *** Starting *)

Definition IsCommonEventServiceAbilityExist : M bool := on_service common_event_service.
(** The count of retries goes up to one more than the limit. *)
Fixpoint wait_common_events (n : nat) : M () :=
  m ← get;
  if negb (commEventRetryTimes_ m <=? COMMEVENT_REGISTER_RETRY_TIMES) then mret () else
  match n with
  | O => mret ()
  | S n =>
      exist ← IsCommonEventServiceAbilityExist;
      if negb exist then modify (λ m, set_retry_times (commEventRetryTimes_ m + 1) m);; wait_common_events n
      else modify (set_retry_times 0)
  end.
(** Enough rounds from a count that is not negative. *)
Definition COMMEVENT_ROUNDS : nat := Z.to_nat (COMMEVENT_REGISTER_RETRY_TIMES + 1).
Definition Init : M bool := wait_common_events COMMEVENT_ROUNDS;; mret true.

(** Each manager is initialised if the ones before were. *)
Definition InitUsbd : M bool :=
  ok ← on_accessory_manager false as_InitUsbAccessoryInterface;
  if negb ok then mret false else
  ok ← on_device_manager false ds_InitUsbDeviceInterface;
  if negb ok then mret false else
  ok ← on_port_manager false ps_InitUsbPortInterface;
  if negb ok then mret false else
  on_host_manager false InitUsbHostInterface.
Fixpoint wait_usbd (n : nat) : M () :=
  match n with
  | O => mret ()
  | S n => ok ← InitUsbd; if (ok : bool) then mret () else wait_usbd n
  end.
Definition WaitUsbdService : M () := wait_usbd SERVICE_STARTUP_MAX_TIME.

(** [None] is a null pointer of the right manager. *)
Definition InitUsbRight (c : Caller) : M (option Z) :=
  unless_null usbRightManager_ (Some INVALID) (
    ret ← on_right INVALID (rs_Init c);
    if negb (ret =? UEC_OK) then mret (Some ret) else
    m ← get;
    let devices := omap (λ name, deviceVidPidMap_ m !! name) (sorted_keys (deviceVidPidMap_ m)) in
    on_right (Some INVALID) (rs_CleanUpRightExpired c devices)).

(** *** Unloading *)

Definition IsNotNeedUnload : M bool :=
  hasActiveDevices ← on_host_manager false (on_manager hasActiveDevice);
  isGadgetConnected ← on_device_manager false ds_IsGadgetConnected;
  mret (hasActiveDevices || isGadgetConnected).
(** The task of the timer. *)
Definition unload_task : M () :=
  r ← on_service UnloadSystemAbility;
  match (r : option Z) with None => mret () | Some _ => effect UnloadRequested end.
Definition UnLoadSelf (type : UnLoadSaType) : M () :=
  if bool_decide (type = UNLOAD_SA_IMMEDIATELY) then unload_task else
  unless_null usbHostManager_ () (unless_null usbDeviceManager_ () (
    modify (set_unload_pending None);;                      (* Unregister, Shutdown *)
    needed ← IsNotNeedUnload;
    if (needed : bool) then effect (CriticalSet true) else
    effect (CriticalSet false);;
    ok ← on_service unload_Setup;
    if negb ok then mret () else
    id ← on_service unload_Register;
    modify (set_unload_id id);;
    modify (set_unload_pending (Some id)))).
(** The timer fires once. *)
Definition run_unload : M () :=
  m ← get;
  match unload_pending m with
  | None => mret ()
  | Some _ => modify (set_unload_pending None);; unload_task
  end.
(** [UsbdDeathRecipient::OnRemoteDied] *)
Definition UsbdDeath_OnRemoteDied : M () := unload_task.

(** *** Starting and stopping *)

Definition OnAddSystemAbility (memory_manager : bool) : M () :=
  if memory_manager then effect (ProcessStatusNotified true);; effect (CriticalSet true) else mret ().
(** Watching the parameter only logs a failure. *)
Definition OnStart (c : Caller) : M () :=
  m ← get;
  if ready_ m then mret () else
  init ← Init;
  if negb init then mret () else
  WaitUsbdService;;
  serial ← on_service (system_GetBoolParameter "const.SystemCapability.USB.USBManager.Serial");
  (if (serial : bool) then start_serial else mret ());;
  unless_null usbPortManager_ () (
    on_port_manager () ps_Init;;
    unless_null usbDeviceManager_ () (
      _ ← on_device_manager INVALID ds_Init;
      right ← InitUsbRight c;
      if negb (is_set right) then mret () else
      ret ← on_service SubscribeSystemAbility;
      match (ret : option Z) with
      | None => mret ()
      | Some ret =>
          if negb (ret =? UEC_OK) then mret () else
          published ← on_service Publish;
          if negb published then mret () else
          modify (set_ready true);;
          UnLoadSelf UNLOAD_SA_DELAY;;
          _ ← InitSettingsDataHdcStatus; mret ()
      end)).
Definition OnStop : M () :=
  m ← get;
  if negb (ready_ m) then mret () else
  modify (set_ready false);;
  unless_null usbHostManager_ () (
    on_host_manager () UsbHostTransfer.Stop;;
    unless_null usbDeviceManager_ () (
      on_device_manager () ds_Stop;;
      on_port_manager () ps_Stop)).

(** *** Events *)

Definition is_gadget_event (s : Z) : bool :=
  (s =? ACT_UPDEVICE) || (s =? ACT_DOWNDEVICE) || (s =? ACT_ACCESSORYUP) || (s =? ACT_ACCESSORYDOWN) ||
  (s =? ACT_ACCESSORYSEND) || (s =? ACT_CUSTOMCONTROLREQUEST).
(** The serial manager starts after the arrival has been handled. *)
Definition DeviceEvent (c : Caller) (info : USBDeviceInfo) : M (outcome Z) :=
  if is_gadget_event (status info) then
    UpdateDeviceState (status info);; UnLoadSelf UNLOAD_SA_DELAY;; mret (Done UEC_OK)
  else
  let bus := to_u8 (info_busNum info) in
  let addr := to_u8 (info_devNum info) in
  r ← (if status info =? ACT_DEVUP then AddDevice char_signed bus addr
       else ok ← DelDevice c bus addr; mret (Done ok));
  match r with
  | Fault => mret Fault
  | OutOfFuel => mret OutOfFuel
  | Done _ =>
      UnLoadSelf UNLOAD_SA_DELAY;;
      (if status info =? ACT_DEVUP then
         m ← get;
         if is_set (serial_manager m) then mret () else
         tty ← on_service tty_exists; if (tty : bool) then start_serial else mret ()
       else mret ());;
      mret (Done UEC_OK)
  end.

(** A client dies: each of its recipients is told, [c] being the service itself. *)
Definition recipient_died (c : Caller) (remote : RemoteObject) (r : Recipient) : M () :=
  match r with
  | SerialDeath portId tokenId => SerialDeath_OnRemoteDied c portId tokenId
  | ListenerDeath => RemoveDeviceListener (Some remote)
  | AccessoryDeath fd tokenId => AccessoryDeath_OnRemoteDied c fd tokenId
  | ClaimDeath r => ClaimDeath_OnRemoteDied r
  end.
Definition remote_died (c : Caller) (remote : RemoteObject) : M () :=
  m ← get;
  let mine := List.filter (λ p, p.1 =? remote) (recipients_ m) in
  modify (λ m, set_waiting (List.filter (λ p, negb (p.1 =? remote)) (recipients_ m)) m);;
  for_each (λ p, recipient_died c p.1 p.2) mine.

(** *** The dump command *)

Definition print (l : list string) : M () := for_each (λ t, effect (Printed t)) l.
Definition DumpHelp : M () :=
  print ["Refer to the following usage:"; "-h: dump help";
         "============= dump the all device =============="; "usb_host -a: dump the all device list info";
         "------------------------------------------------"];;
  unless_null usbDeviceManager_ () (
    print ds_GetDumpHelp;;
    unless_null usbPortManager_ () (print ps_GetDumpHelp)).
Definition serial_dump (f : state SMgr (list string)) : M () := l ← on_serial_manager [] f; print l.
(** [None]: what the managers leave undefined. *)
Definition DoDump (c : Caller) (args : list string) : M (option Z) :=
  match args with
  | [] => mret None                                         (* argList[0] *)
  | a :: rest =>
      if bool_decide (a = USB_HOST) then
        unless_null usbHostManager_ (Some INVALID) (
          match rest with
          | [] => mret (Some INVALID)
          | b :: _ =>
              '(_, l) ← on_host_manager (false, []) (on_manager (UsbHostManager.Dump b)); print l;; mret (Some UEC_OK)
          end)
      else if bool_decide (a = USB_DEVICE) then
        unless_null usbDeviceManager_ (Some INVALID) (
          l ← on_device_manager [] (ds_Dump args); print l;; mret (Some UEC_OK))
      else if bool_decide (a = USB_PORT) then
        unless_null usbPortManager_ (Some INVALID) (
          l ← on_port_manager None (ps_Dump args);
          match (l : option (list string)) with None => mret None | Some l => print l;; mret (Some UEC_OK) end)
      else
      (if bool_decide (a = USB_HELP) then DumpHelp;; print ListGetDumpHelp
       else if bool_decide (a = USB_LIST) then serial_dump (SerialPortListDump args)
       else if bool_decide (a = USB_GETT) then serial_dump (SerialGetAttributeDump c args uninit_attribute)
       else print ["Usb Dump service:invalid parameter."];; DumpHelp;; print ListGetDumpHelp);;
      mret (Some UEC_OK)
  end.
Definition Dump (c : Caller) (fd : Z) (args : list string) : M (option Z) :=
  if fd <? 0 then mret (Some INVALID) else
  m ← get;
  (if is_set (serial_manager m) then mret () else start_serial);;
  match args with
  | [] => DumpHelp;; print ListGetDumpHelp;; mret (Some INVALID)
  | _ => DoDump c args
  end.
End Life.
