(* ===== verification/UsbServiceSteps.v ===== *)
(** * The service: requests and steps

    The requests an application makes about a device, as data, and the steps of
    the service: each method that changes its state, the events of the driver, the
    deaths of clients and the timer. *)
From S2P Require Import Prelude UsbErrors Platform UsbAccessory UsbDevice UsbDescriptorParser UsbPortManager UsbDeviceManager SerialManager UsbInterfaceType UsbHostManager UsbHostPolicy UsbHostTransfer UsbService UsbServiceClaims UsbServiceHost UsbServiceDevice UsbServiceSerial UsbServiceLife.

(** The requests about the device at an address. *)
Inductive DeviceRequest :=
  | R_OpenDevice
  | R_Close
  | R_ResetDevice
  | R_ClaimInterface (interface force : Z)
  | R_ClaimInterfaceExclusive (interface force : Z) (cb : option RemoteObject)
  | R_ReleaseInterface (interface : Z)
  | R_SetInterface (interface altIndex : Z)
  | R_SetActiveConfig (configIndex : Z)
  | R_UsbAttachKernelDriver (interface : Z)
  | R_UsbDetachKernelDriver (interface : Z)
  | R_ClearHalt (interface endpoint : Z)
  | R_GetActiveConfig (configIndex : Z)
  | R_GetRawDescriptor (buffer : list Z)
  | R_GetFileDescriptor (fd : Z)
  | R_BulkTransferRead (ep : USBEndpoint.t) (buffer : list Z) (timeOut : Z)
  | R_BulkTransferReadwithLength (ep : USBEndpoint.t) (length : Z) (buffer : list Z) (timeOut : Z)
  | R_BulkTransferWrite (ep : USBEndpoint.t) (buffer : list Z) (timeOut : Z)
  | R_ControlTransfer (ctrl : UsbCtlSetUp) (buffer : list Z)
  | R_UsbControlTransfer (ctrl : UsbCtlSetUp) (buffer : list Z)
  | R_RequestQueue (ep : USBEndpoint.t) (clientData buffer : list Z)
  | R_RequestWait (timeOut : Z) (clientData buffer : list Z)
  | R_RequestCancel (interface endpoint : Z)
  | R_RegBulkCallback (ep : USBEndpoint.t) (cb : option RemoteObject)
  | R_UnRegBulkCallback (ep : USBEndpoint.t)
  | R_UsbCancelTransfer (endpoint : Z)
  | R_BulkCancel (ep : USBEndpoint.t)
  | R_UsbSubmitTransfer (param : UsbTransInfo) (cb : option RemoteObject) (fd memSize : Z)
  | R_BulkRead (ep : USBEndpoint.t) (fd memSize : Z)
  | R_BulkWrite (ep : USBEndpoint.t) (fd memSize : Z)
  | R_GetDeviceSpeed (speed : Z)
  | R_GetInterfaceActiveStatus (interface : Z) (unactivated : bool).

(** The requests of the administrator. *)
Inductive ManageRequest :=
  | R_ManageGlobalInterface (disable : bool)
  | R_ManageDevice (vid pid : Z) (disable : bool)
  | R_ManageDevicePolicy (trustList : list UsbDeviceIdInfo)
  | R_ManageInterfaceType (types : list UsbDeviceTypeInfo) (disable : bool)
  | R_ManageUsbType (types : list UsbDeviceTypeInfo) (disable : bool).

Section Steps.
Context {W R D SerialPort SerialAttribute RM DM AM PM P : Type}.
Context `{!HostPlatform W R, !HostTransferPlatform W, !TableOrder, !CJson, !SerialInterface D SerialPort SerialAttribute}.
Context `{!PortList (SerialManager D SerialPort)}.
Context `{!SerialPortInfo P D SerialPort SerialAttribute, !RightService RM, !DeviceService DM, !AccessoryService AM}.
Context `{!PortService PM, !ServicePlatform P, !ErrCodeBase}.
Context (char_signed : bool).
Abbreviation SMgr := (SerialManager D SerialPort).
Abbreviation US := (UsbService RM (HostTransfers W SMgr) DM AM PM P).
Abbreviation M := (state US).

(** The code of a request; what it fills is dropped. *)
Definition code_only (f : M Z) : M (outcome Z) := r ← f; mret (Done r).
Definition code_of {A} (f : M (Z * A)) : M (outcome Z) := r ← f; mret (Done r.1).
Definition perform (c : Caller) (bus addr : Z) (r : DeviceRequest) : M (outcome Z) :=
  match r with
  | R_OpenDevice => OpenDevice char_signed c bus addr
  | R_Close => code_only (Close c bus addr)
  | R_ResetDevice => code_only (ResetDevice c bus addr)
  | R_ClaimInterface i force => code_only (ClaimInterface c bus addr i force)
  | R_ClaimInterfaceExclusive i force cb => code_only (ClaimInterfaceExclusive c bus addr i force cb)
  | R_ReleaseInterface i => code_only (ReleaseInterface c bus addr i)
  | R_SetInterface i alt => code_only (SetInterface c bus addr i alt)
  | R_SetActiveConfig i => code_only (SetActiveConfig c bus addr i)
  | R_UsbAttachKernelDriver i => code_only (UsbAttachKernelDriver c bus addr i)
  | R_UsbDetachKernelDriver i => code_only (UsbDetachKernelDriver c bus addr i)
  | R_ClearHalt i e => code_only (ClearHalt c bus addr i e)
  | R_GetActiveConfig i => code_of (GetActiveConfig c bus addr i)
  | R_GetRawDescriptor b => code_of (GetRawDescriptor c bus addr b)
  | R_GetFileDescriptor fd => code_of (GetFileDescriptor c bus addr fd)
  | R_BulkTransferRead ep b t => code_of (BulkTransferRead c bus addr ep b t)
  | R_BulkTransferReadwithLength ep l b t => code_of (BulkTransferReadwithLength c bus addr ep l b t)
  | R_BulkTransferWrite ep b t => code_only (BulkTransferWrite c bus addr ep b t)
  | R_ControlTransfer ctrl b => code_of (ControlTransfer c bus addr ctrl b)
  | R_UsbControlTransfer ctrl b => code_of (UsbControlTransfer c bus addr ctrl b)
  | R_RequestQueue ep cd b => code_only (RequestQueue c bus addr ep cd b)
  | R_RequestWait t cd b => code_of (RequestWait c bus addr t cd b)
  | R_RequestCancel i e => code_only (RequestCancel c bus addr i e)
  | R_RegBulkCallback ep cb => code_only (RegBulkCallback c bus addr ep cb)
  | R_UnRegBulkCallback ep => code_only (UnRegBulkCallback c bus addr ep)
  | R_UsbCancelTransfer e => code_only (UsbCancelTransfer c bus addr e)
  | R_BulkCancel ep => code_only (BulkCancel c bus addr ep)
  | R_UsbSubmitTransfer p cb fd size => code_only (UsbSubmitTransfer c bus addr p cb fd size)
  | R_BulkRead ep fd size => code_only (BulkRead c bus addr ep fd size)
  | R_BulkWrite ep fd size => code_only (BulkWrite c bus addr ep fd size)
  | R_GetDeviceSpeed speed => code_of (GetDeviceSpeed c bus addr speed)
  | R_GetInterfaceActiveStatus i unactivated => code_of (GetInterfaceActiveStatus c bus addr i unactivated)
  end.
Definition manage (c : Caller) (r : ManageRequest) : M Z :=
  match r with
  | R_ManageGlobalInterface disable => ManageGlobalInterface c disable
  | R_ManageDevice vid pid disable => ManageDevice c vid pid disable
  | R_ManageDevicePolicy l => ManageDevicePolicy c l
  | R_ManageInterfaceType l disable => ManageInterfaceType c l disable
  | R_ManageUsbType l disable => ManageUsbType c l disable
  end.

(** What the other methods do; none of them is about claims, listeners or
    connections.  [c] is the caller. *)
Inductive other_step (c : Caller) (m : US) : US → Prop :=
  | o_manage r : other_step c m (manage c r m).2
  | o_serial_policy disable : other_step c m (ManageUsbSerialDevice disable m).2
  | o_devices l : other_step c m (GetDevices l m).2
  | o_device_info b a d : other_step c m (GetDeviceInfo char_signed b a d m).2
  | o_device_descriptor b a l d : other_step c m (GetDeviceInfoDescriptor b a l d m).2
  | o_config_descriptor d l : other_step c m (GetConfigDescriptor char_signed d l m).2
  | o_product_name n : other_step c m (GetDeviceProductName n m).2
  | o_has_right n : other_step c m (HasRightOut c n m).2
  | o_request_right n : other_step c m (RequestRight c n m).2
  | o_remove_right n : other_step c m (RemoveRight c n m).2
  | o_add_right t n : other_step c m (AddAccessRight c t n m).2
  | o_add_device b a : other_step c m (AddDevice char_signed b a m).2
  | o_functions f : other_step c m (GetCurrentFunctions c f m).2
  | o_set_functions f : other_step c m (SetCurrentFunctions c f m).2
  | o_from_string t : other_step c m (UsbFunctionsFromString c t m).2
  | o_to_string f : other_step c m (UsbFunctionsToString c f m).2
  | o_phy b : other_step c m (SetPhyConnect b m).2
  | o_settings : other_step c m (InitSettingsDataHdcStatus m).2
  | o_device_state s : other_step c m (UpdateDeviceState s m).2
  | o_user_change : other_step c m (UserChangeProcess m).2
  | o_accessories l : other_step c m (GetAccessoryList c l m).2
  | o_open_accessory a fd r : other_step c m (OpenAccessory c a fd r m).2
  | o_close_accessory fd : other_step c m (CloseAccessory c fd m).2
  | o_has_accessory a b : other_step c m (HasAccessoryRight c a b m).2
  | o_request_accessory a b : other_step c m (RequestAccessoryRight c a b m).2
  | o_cancel_accessory a : other_step c m (CancelAccessoryRight c a m).2
  | o_add_accessory t a : other_step c m (AddAccessoryRight c t a m).2
  | o_ports l : other_step c m (GetPorts c l m).2
  | o_modes p s : other_step c m (GetSupportedModes c p s m).2
  | o_role p a b : other_step c m (SetPortRole c p a b m).2
  | o_port p a b d : other_step c m (UpdateUsbPort p a b d m).2
  | o_port_modes p a b d s : other_step c m (UpdateUsbPortWithModes p a b d s m).2
  | o_serial_open p r : other_step c m (SerialOpen c p r m).2
  | o_serial_close p : other_step c m (SerialClose c p m).2
  | o_serial_read p d s a t : other_step c m (SerialRead c p d s a t m).2
  | o_serial_write p d s a t : other_step c m (SerialWrite c p d s a t m).2
  | o_serial_get p a : other_step c m (SerialGetAttribute c p a m).2
  | o_serial_set p a : other_step c m (SerialSetAttribute c p a m).2
  | o_serial_list l : other_step c m (SerialGetPortList l m).2
  | o_serial_has p : other_step c m (HasSerialRight c p m).2
  | o_serial_request p : other_step c m (RequestSerialRight c p m).2
  | o_serial_cancel p : other_step c m (CancelSerialRight c p m).2
  | o_serial_add t p : other_step c m (AddSerialRight c t p m).2
  | o_stop : other_step c m (OnStop m).2
  | o_ability b : other_step c m (OnAddSystemAbility b m).2
  | o_transfer_died r : other_step c m (on_host_manager () (SubmitRecipient_OnRemoteDied r) m).2
  | o_driver_died : other_step c m (UsbdDeath_OnRemoteDied m).2
  | o_dump fd l : other_step c m (Dump c fd l m).2.

(** What starts the service, asks it to unload, and the timer that makes it. *)
Inductive life_step (c : Caller) (m : US) : US → Prop :=
  | f_start : life_step c m (OnStart c m).2
  | f_unload t : life_step c m (UnLoadSelf t m).2
  | f_timer : life_step c m (run_unload m).2.

(** What a step is, as far as claims and connections care. *)
Inductive StepLabel :=
  | L_request (bus addr : Z) (r : DeviceRequest)
  | L_register (cb : option RemoteObject)
  | L_unregister (cb : option RemoteObject)
  | L_departure (bus addr : Z)
  | L_death (remote : RemoteObject)
  | L_other.
Definition event_label (info : USBDeviceInfo) : StepLabel :=
  if is_gadget_event (status info) || (status info =? ACT_DEVUP) then L_other
  else L_departure (to_u8 (info_busNum info)) (to_u8 (info_devNum info)).
(** All steps; addresses have eight bits.  The caller of [s_event] and [s_died] is
    the service itself. *)
Inductive service_step (c : Caller) (m : US) : StepLabel → US → Prop :=
  | s_request bus addr r : in_u8 bus → in_u8 addr → service_step c m (L_request bus addr r) (perform c bus addr r m).2
  | s_register cb : service_step c m (L_register cb) (RegisterConnectionListener c cb m).2
  | s_unregister cb : service_step c m (L_unregister cb) (UnRegisterConnectionListener c cb m).2
  | s_departure bus addr : in_u8 bus → in_u8 addr → service_step c m (L_departure bus addr) (DelDevice c bus addr m).2
  | s_event info : service_step c m (event_label info) (DeviceEvent char_signed c info m).2
  | s_died remote : service_step c m (L_death remote) (remote_died c remote m).2
  | s_other m' : other_step c m m' → service_step c m L_other m'
  | s_life m' : life_step c m m' → service_step c m L_other m'.
(** Some caller's step; no token is zero. *)
Definition any_step (m m' : US) : Prop := ∃ c l, CallingTokenID c ≠ 0 ∧ service_step c m l m'.
End Steps.
