(* ===== verification/UsbServiceFrames.v ===== *)
(** * The service: what each step leaves alone

    A call on a manager changes that manager; a request for the caller's rights
    changes the right manager, the platform and the reports; a step that is not
    about claims, listeners or connections leaves all three. *)
From S2P Require Import Prelude UsbErrors Platform UsbAccessory UsbDevice UsbDescriptorParser UsbPortManager UsbDeviceManager SerialManager UsbInterfaceType UsbHostManager UsbHostPolicy UsbHostTransfer UsbService UsbServiceClaims UsbServiceHost UsbServiceDevice UsbServiceSerial UsbServiceLife UsbServiceSteps.

(** The same value of a view. *)
Definition fixed {S T} (view : S → T) : relation S := λ m m', view m' = view m.
#[export] Instance fixed_preorder {S T} (view : S → T) : PreOrder (fixed view).
Proof. split; [by intros m|]. intros a b c H1 H2. unfold fixed in *. by rewrite H2, H1. Qed.

(** What clients are told, and what is only reported. *)
Definition is_news (e : ServiceEffect) : bool :=
  match e with DeviceConnected _ _ _ _ | DeviceDisconnected _ _ _ _ | Conflict _ _ _ _ => true | _ => false end.
Definition is_fault (e : ServiceEffect) : bool :=
  match e with OperationFault _ _ _ | TransferFaulted _ | FdClosed _ => true | _ => false end.
(** The recipients of claims and listeners. *)
Definition is_watched (p : RemoteObject * Recipient) : bool :=
  match p.2 with ListenerDeath | ClaimDeath _ => true | _ => false end.

(** *** Null pointers *)

Section Null.
Context {RM HT DM AM PM P : Type}.
Abbreviation US := (UsbService RM HT DM AM PM P).
Lemma runs_through {S A T} get_field set_field dflt (f : state S A) (view : US → T) :
  (∀ x m, view (set_field x m) = view m) → Runs (fixed view) (through get_field set_field dflt f).
Proof.
  intros Hv m. unfold fixed, through. destruct (get_field m) as [s|]; [|done]. destruct (f s). apply Hv.
Qed.
Lemma runs_unless_null {S A T} get_field (dflt : A) (f : state US A) (view : US → T) :
  Runs (fixed view) f → Runs (fixed view) (unless_null (get_field : US → option S) dflt f).
Proof. intros Hf. unfold unless_null. runs. Qed.

End Null.
(** As [runs], through the tests for null pointers. *)
Ltac sruns := repeat (progress runs || apply runs_unless_null).

(** ** The right of a caller *)

Section Asks.
Context {RM HT DM AM PM P : Type} `{!RightService RM, !ServicePlatform P, !ErrCodeBase}.
Abbreviation US := (UsbService RM HT DM AM PM P).
Implicit Types m : US.

(** A view that asking for rights does not change. *)
Class Asks {T} (view : US → T) : Prop := {
  asks_right x m : view (set_right x m) = view m;
  asks_platform x m : view (set_service_platform x m) = view m;
  asks_fault e m : is_fault e = true → view (set_effects (e :: effects_ m) m) = view m;
}.

Context {T : Type} (view : US → T) `{!Asks view}.
Lemma runs_on_right {A} (dflt : A) f : Runs (fixed view) (on_right dflt f).
Proof. apply runs_through, asks_right. Qed.
Lemma runs_on_service {A} (f : state P A) : Runs (fixed view) (on_service f).
Proof. apply runs_zoom. intros m. apply asks_platform. Qed.
Lemma runs_fault e : is_fault e = true → Runs (fixed view) (effect e).
Proof. intros He. apply runs_modify. intros m. by apply asks_fault. Qed.
Hint Resolve runs_on_right runs_on_service : runs.
Lemma runs_report_fault t r d : Runs (fixed view) (ReportUsbOperationFaultSysEvent t r d).
Proof. by apply runs_fault. Qed.
Lemma runs_report_serial p t r d : Runs (fixed view) (ReportUsbSerialOperationFaultSysEvent p t r d).
Proof. by apply runs_fault. Qed.
Lemma runs_report_transfer o : Runs (fixed view) (report_transfer o).
Proof. destruct o; [by apply runs_fault|]. cbn. runs. Qed.
Lemma runs_calling_info c : Runs (fixed view) (GetCallingInfo c).
Proof. unfold GetCallingInfo. runs. Qed.
Lemma runs_sys_api c : Runs (fixed view) (CheckSysApiPermission c).
Proof. unfold CheckSysApiPermission, GetHapApiVersion. runs. Qed.
Hint Resolve runs_report_fault runs_report_serial runs_report_transfer runs_calling_info runs_sys_api : runs.
Lemma runs_find n s : Runs (fixed view) (FindDeviceVidPidSerialNumber n s).
Proof. unfold FindDeviceVidPidSerialNumber. runs. Qed.
Hint Resolve runs_find : runs.
Lemma runs_has_right c n : Runs (fixed view) (HasRight c n).
Proof. unfold HasRight. sruns. Qed.
Hint Resolve runs_has_right : runs.
Lemma runs_permission c b a : Runs (fixed view) (CheckDevicePermission c b a).
Proof. apply runs_has_right. Qed.
Lemma runs_caller_valid c : Runs (fixed view) (IsCallerValid c).
Proof. unfold IsCallerValid. runs. Qed.
Lemma runs_pre_call c : Runs (fixed view) (PreCallFunction c).
Proof. unfold PreCallFunction. sruns. Qed.
End Asks.
#[export] Hint Resolve runs_on_right runs_on_service runs_report_fault runs_report_serial runs_report_transfer
  runs_calling_info runs_sys_api runs_find runs_has_right runs_permission runs_caller_valid runs_pre_call : runs.
#[export] Hint Extern 0 (Asks _) => apply _ : runs.
#[export] Hint Extern 1 (Runs (fixed _) (effect _)) => (refine (runs_fault _ _ _); exact eq_refl) : runs.

(** ** Requests without the right *)

Section Refusals.
Context {W R D SerialPort SerialAttribute RM DM AM PM P : Type}.
Context `{!HostPlatform W R, !HostTransferPlatform W, !TableOrder, !CJson, !SerialInterface D SerialPort SerialAttribute}.
Context `{!PortList (SerialManager D SerialPort)}.
Context `{!SerialPortInfo P D SerialPort SerialAttribute, !RightService RM, !DeviceService DM, !AccessoryService AM}.
Context `{!PortService PM, !ServicePlatform P, !ErrCodeBase}.
Context (char_signed : bool).
Abbreviation SMgr := (SerialManager D SerialPort).
Abbreviation US := (UsbService RM (HostTransfers W SMgr) DM AM PM P).
Abbreviation M := (state US).
Implicit Types m : US.

(** All but the right manager, the platform and the reports of faults. *)
Definition rest m :=
  (usbHostManager_ m, usbDeviceManager_ m, usbAccessoryManager_ m, usbPortManager_ m,
   (deviceVidPidMap_ m, serialVidPidMap_ m, claimStateMap_ m, deviceListeners_ m, deviceConnectionMap_ m),
   (accessoryClientMap_ m, recipients_ m, ready_ m, commEventRetryTimes_ m, unloadSelfTimerId_ m, unload_pending m),
   List.filter (λ e, negb (is_fault e)) (effects_ m)).
#[export] Instance asks_rest : Asks rest.
Proof. split; intros ? [] *; [done|done|]. intros He. unfold rest. cbn. by rewrite He. Qed.

(** A call that ends with an error code, told by [k], and changes nothing else. *)
Definition Refuses {A} (k : A → outcome Z) (f : M A) m : Prop :=
  (∃ e, k (f m).1 = Done e ∧ e ≠ UEC_OK) ∧ fixed rest m (f m).2.
Definition bad {A} (k : A → outcome Z) (a : A) : Prop := ∃ e, k a = Done e ∧ e ≠ UEC_OK.

Lemma refuses_ret {A} (k : A → outcome Z) a m : bad k a → Refuses k (mret a) m.
Proof. by split. Qed.
Lemma refuses_after {A B} (k : A → outcome Z) (g : M B) (f : B → M A) m :
  Runs (fixed rest) g → Refuses k (f (g m).1) (g m).2 → Refuses k (g ≫= f) m.
Proof. intros Hg [He Hf]. split; rewrite bind_run; [done|]. etransitivity; [apply Hg|done]. Qed.
Lemma refuses_get {A} (k : A → outcome Z) (f : US → M A) m : Refuses k (f m) m → Refuses k (get ≫= f) m.
Proof. done. Qed.
Lemma refuses_null {S A} (k : A → outcome Z) (get_field : US → option S) dflt (f : M A) m :
  bad k dflt → Refuses k f m → Refuses k (unless_null get_field dflt f) m.
Proof. intros Hd Hf. unfold unless_null. apply refuses_after; [intros ?; done|]. cbn. destruct (get_field m); [done|]. by apply refuses_ret. Qed.
Lemma refuses_check {A} (k : A → outcome Z) c b a (f : bool → M A) m : (HasRight c (device_key b a) m).1 = false →
  (∀ m', Refuses k (f false) m') → Refuses k (CheckDevicePermission c b a ≫= f) m.
Proof. intros Hc Hd. apply refuses_after; [runs|]. unfold CheckDevicePermission. rewrite Hc. apply Hd. Qed.
Lemma refuses_denied {A B} (k : A → outcome Z) (g : M B) a m : Runs (fixed rest) g → bad k a → Refuses k (g;; mret a) m.
Proof. intros Hg Ha. apply refuses_after; [done|]. by apply refuses_ret. Qed.

(** Looking a device up leaves the host manager as it is. *)
Lemma target_run b a m : (on_host_manager None (on_manager (GetTargetDevice b a)) m).2 = m.
Proof. unfold on_host_manager, through. destruct m as [? [[]|]]; [|done]. done. Qed.
Lemma runs_target b a : Runs (fixed rest) (on_host_manager None (on_manager (GetTargetDevice b a)) : M _).
Proof. intros m. unfold fixed. by rewrite target_run. Qed.
Hint Resolve runs_target : runs.
Lemma runs_report_denied t b a pipe : Runs (fixed rest) (report_denied t b a pipe : M ()).
Proof. unfold report_denied, with_target. runs. Qed.
Lemma runs_report_submit p b a r d : Runs (fixed rest) (report_submit p b a r d : M ()).
Proof. unfold report_submit, find_endpoint. runs. Qed.
Hint Resolve runs_report_denied runs_report_submit : runs.

Lemma code_only_refuses (f : M Z) m : Refuses Done f m → Refuses (λ x, x) (code_only f) m.
Proof. intros [He Hf]. split; unfold code_only; by rewrite bind_run. Qed.
Lemma code_of_refuses {A} (f : M (Z * A)) m : Refuses (λ p, Done p.1) f m → Refuses (λ x, x) (code_of f) m.
Proof. intros [He Hf]. split; unfold code_of; by rewrite bind_run. Qed.

Ltac refuses := repeat match goal with
  | |- bad _ _ => eexists; split; [reflexivity|apply uec_not_OK]
  | |- ∀ _, _ => intros ?
  | |- Refuses _ (code_only _) _ => apply code_only_refuses
  | |- Refuses _ (code_of _) _ => apply code_of_refuses
  | |- Refuses _ (permitted _ _ _ _ _) _ => unfold permitted
  | |- Refuses _ (CheckDevicePermission _ _ _ ≫= _) _ => apply refuses_check; [assumption|]; cbn [negb]
  | |- Refuses _ (unless_null _ _ _) _ => apply refuses_null
  | |- Refuses _ (mret _) _ => apply refuses_ret
  | |- Refuses _ (get ≫= _) _ => apply refuses_get
  | |- Refuses _ (if ?b then _ else _) _ => destruct b
  | |- Refuses _ (match ?o with Some _ => _ | None => _ end) _ => destruct o
  | |- Refuses _ (_;; mret _) _ => apply refuses_denied; [solve [runs]|]
  | |- Refuses _ (effect _;; _) _ => apply refuses_after; [solve [runs]|]
  end.
(** What a request needs: the right on the device, but for two requests, which are for
    system callers. *)
Definition may_ask (c : Caller) (b a : Z) (r : DeviceRequest) m : bool :=
  match r with
  | R_GetDeviceSpeed _ | R_GetInterfaceActiveStatus _ _ => (PreCallFunction c m).1 =? UEC_OK
  | _ => (HasRight c (device_key b a) m).1
  end.
Lemma refuses_pre_call {A} (k : A → outcome Z) c (dflt : A) (f : M A) m : ((PreCallFunction c m).1 =? UEC_OK) = false → bad k dflt →
  Refuses k (pre ← PreCallFunction c; if negb (pre =? UEC_OK) then mret dflt else f) m.
Proof. intros Hp Hd. apply refuses_after; [runs|]. rewrite Hp. by apply refuses_ret. Qed.
Lemma perform_refused c b a r m : may_ask c b a r m = false → Refuses (λ x, x) (perform char_signed c b a r) m.
Proof.
  intros Hc. destruct r; cbn [may_ask] in Hc; cbn [perform]; refuses.
  30-31: by apply refuses_pre_call; [|refuses].
  all: unfold OpenDevice, Close, ResetDevice, ClaimInterface, ClaimInterfaceExclusive, ReleaseInterface, SetInterface,
    SetActiveConfig, UsbAttachKernelDriver, UsbDetachKernelDriver, ClearHalt, GetActiveConfig, GetRawDescriptor,
    GetFileDescriptor, BulkTransferRead, BulkTransferReadwithLength, BulkTransferWrite, ControlTransfer, UsbControlTransfer,
    RequestQueue, RequestWait, RequestCancel, RegBulkCallback, UnRegBulkCallback, UsbCancelTransfer, BulkCancel,
    UsbSubmitTransfer, BulkRead, BulkWrite, bulk_shared, forward, forward_out; refuses.
Qed.

(** *** Requests against an exclusive owner *)

(** The requests for an interface that an exclusive owner keeps others from: bulk
    transfers by message, submitted transfers, exclusive claims and releases.  The code does
    not keep others from [RequestQueue], transfers by shared memory and control transfers. *)
Definition for_interface (b a i : Z) (r : DeviceRequest) m : Prop :=
  match r with
  | R_BulkTransferRead ep _ _ | R_BulkTransferReadwithLength ep _ _ _ | R_BulkTransferWrite ep _ _ => USBEndpoint.interfaceId_ ep = i
  | R_UsbSubmitTransfer p _ _ _ => ∃ d ep, (find_endpoint b a (trans_endpoint p) m).1 = Some (d, ep) ∧ USBEndpoint.interfaceId_ ep = i
  | R_ClaimInterfaceExclusive j _ _ | R_ReleaseInterface j => j = i
  | _ => False
  end.
Definition held_by_other c b a i m : Prop := ∃ s, claimStateMap_ m !! MakeClaimKey b a i = Some s ∧
  exclusiveOwner s ≠ 0 ∧ normalClaimed s = false ∧ CallingTokenID c ≠ exclusiveOwner s.
Lemma held_rest c b a i m m' : rest m' = rest m → held_by_other c b a i m → held_by_other c b a i m'.
Proof. unfold held_by_other. intros [= _ _ _ _ _ _ -> _]. done. Qed.
Lemma refuses_either {A} (k : A → outcome Z) c b a (f : bool → M A) m :
  (∀ x m', rest m' = rest m → Refuses k (f x) m') → Refuses k (CheckDevicePermission c b a ≫= f) m.
Proof. intros Hf. apply refuses_after; [runs|]. apply Hf. apply (runs_permission rest). Qed.
Lemma check_held c b a i m : held_by_other c b a i m → CheckExclusiveTransfer c b a i m = (uec UEC_SERVICE_IO_EXCEPTION, m).
Proof.
  intros (s & Hk & Ho & Hn & Ht). unfold CheckExclusiveTransfer. rewrite bind_run. unfold claim_at, gets. cbn [fst snd].
  rewrite Hk, Hn, !(proj2 (Z.eqb_neq _ _)) by done. done.
Qed.
Lemma refuses_held {A} (k : A → outcome Z) c b a i (f : Z → M A) m : held_by_other c b a i m →
  Refuses k (f (uec UEC_SERVICE_IO_EXCEPTION)) m → Refuses k (CheckExclusiveTransfer c b a i ≫= f) m.
Proof. intros Hh Hf. unfold Refuses. by rewrite bind_run, check_held. Qed.
(** A transfer that asks for the claim. *)
Lemma refuses_transfer {A} (k : A → outcome Z) c b a i denied (g : Z → A) h m : held_by_other c b a i m →
  (∀ m', Refuses k denied m') → bad k (g (uec UEC_SERVICE_IO_EXCEPTION)) →
  Refuses k (permitted c b a denied (claimRet ← CheckExclusiveTransfer c b a i;
    if negb (claimRet =? UEC_OK) then mret (g claimRet) else h)) m.
Proof.
  intros Hh Hd Hg. unfold permitted. apply refuses_either. intros [] m' Hm; cbn [negb]; [|done].
  apply refuses_held; [by eapply held_rest|]. rewrite (proj2 (Z.eqb_neq _ _)) by apply uec_not_OK. by apply refuses_ret.
Qed.
Lemma find_endpoint_run b a e m m' : rest m' = rest m → find_endpoint b a e m' = ((find_endpoint b a e m).1, m').
Proof.
  intros [= E1 _]. unfold find_endpoint. rewrite !bind_run, !ret_run, target_run. cbn [fst]. f_equal.
  unfold on_host_manager, through. rewrite E1. by destruct (usbHostManager_ m) as [[]|].
Qed.
Lemma exclusive_refused c b a i force cb m : held_by_other c b a i m → Refuses Done (ClaimInterfaceExclusive c b a i force cb) m.
Proof.
  intros Hh. unfold ClaimInterfaceExclusive. apply refuses_either. intros [] m' Hr; cbn [negb]; [|refuses].
  apply refuses_null; [refuses|]. cbv zeta. unfold Refuses. rewrite bind_run. unfold claim_at, gets. cbn [fst snd].
  destruct (held_rest _ _ _ _ _ _ Hr Hh) as (s & Hk & Ho & Hn & Ht). rewrite Hk.
  rewrite !(proj2 (Z.eqb_neq (exclusiveOwner s) _)) by done. cbn. split; [|done]. eexists. split; [done|apply uec_not_OK].
Qed.
Lemma release_refused c b a i m : held_by_other c b a i m → Refuses Done (ReleaseInterface c b a i) m.
Proof.
  intros Hh. unfold ReleaseInterface. apply refuses_either. intros [] m' Hr; cbn [negb]; [|refuses].
  destruct (held_rest _ _ _ _ _ _ Hr Hh) as (s & Hk & Ho & Hn & Ht).
  assert (ReleaseClaimState b a i (CallingTokenID c) m' = (uec UEC_INTERFACE_INVALID_OPERATION, true, m')) as E1.
  { unfold ReleaseClaimState. cbv zeta. rewrite bind_run. unfold claim_at, gets. cbn [fst snd].
    rewrite Hk, !(proj2 (Z.eqb_neq (exclusiveOwner s) _)) by done. by rewrite Hn. }
  unfold Refuses. rewrite bind_run, E1. cbn [fst snd]. rewrite (proj2 (Z.eqb_neq _ _)) by apply uec_not_OK. cbn [negb].
  split; [|done]. eexists. split; [done|apply uec_not_OK].
Qed.
Lemma perform_exclusive c b a i r m : held_by_other c b a i m → for_interface b a i r m →
  Refuses (λ x, x) (perform char_signed c b a r) m.
Proof.
  intros Hh Hr. destruct r; try done; cbn [for_interface] in Hr; cbn [perform]; refuses; try subst i.
  - by apply exclusive_refused.
  - by apply release_refused.
  - apply refuses_null; [refuses|]. by apply (refuses_transfer _ _ _ _ _ _ (λ r, (r, buffer))); [|refuses..].
  - apply refuses_null; [refuses|]. by apply (refuses_transfer _ _ _ _ _ _ (λ r, (r, buffer))); [|refuses..].
  - apply refuses_null; [refuses|]. by apply (refuses_transfer _ _ _ _ _ _ (λ r, r)); [|refuses..].
  - destruct Hr as (d & ep & Hf & <-). unfold UsbSubmitTransfer. destruct cb as [cb|]; [|refuses]. destruct (_ || _); [refuses|].
    refuses. unfold permitted. apply refuses_either. intros [] m' Hm; cbn [negb]; [|refuses].
    unfold Refuses. rewrite bind_run, (find_endpoint_run _ _ _ _ _ Hm), Hf. cbn [fst snd]. rewrite bind_run.
    rewrite check_held by (by eapply held_rest). cbn [fst snd]. rewrite (proj2 (Z.eqb_neq _ _)) by apply uec_not_OK.
    split; [|done]. eexists. split; [done|apply uec_not_OK].
Qed.

(** *** Serial ports *)

(** A question to the serial manager leaves it as it is. *)
Lemma serial_gets_run {A} (dflt : A) (f : SMgr → A) m : (on_serial_manager dflt (gets f) m).2 = m.
Proof. unfold on_serial_manager, through. destruct m as [? [[[]]|]]; [|done]. cbn. by destruct usbSerialManager_. Qed.
Lemma validate_run p m : (ValidateUsbSerialManagerAndPort p m).2 = m.
Proof.
  unfold ValidateUsbSerialManagerAndPort. rewrite bind_run. cbn [get fst snd]. destruct (serial_manager m); cbn [is_set negb]; [|done].
  rewrite bind_run. unfold IsPortIdExist. pose proof (serial_gets_run false (λ s, bool_decide (is_Some (SerialManager.serialPortMap_ s !! p))) m) as E.
  destruct (on_serial_manager _ _ m) as [b m']. cbn in E |- *. subst m'. by destruct b.
Qed.
Lemma rest_validate p : Runs (fixed rest) (ValidateUsbSerialManagerAndPort p : M Z).
Proof. intros m. unfold fixed. by rewrite validate_run. Qed.
Lemma rest_db_ability p : Runs (fixed rest) (CheckDbAbility p : M Z).
Proof. unfold CheckDbAbility. runs. Qed.
Hint Resolve rest_validate rest_db_ability : runs.
Lemma rest_has_serial c p : Runs (fixed rest) (HasSerialRight c p : M _).
Proof. unfold HasSerialRight, GetPortIdentity. sruns. Qed.
Lemma rest_fault p t r d : Runs (fixed rest) (fault p t r d : M Z).
Proof. unfold fault. runs. Qed.
End Refusals.

Create HintDb quiet.

(** ** Steps that are not about claims, listeners or connections *)

Section Quiet.
Context {W R D SerialPort SerialAttribute RM DM AM PM P : Type}.
Context `{!HostPlatform W R, !HostTransferPlatform W, !TableOrder, !CJson, !SerialInterface D SerialPort SerialAttribute}.
Context `{!PortList (SerialManager D SerialPort)}.
Context `{!SerialPortInfo P D SerialPort SerialAttribute, !RightService RM, !DeviceService DM, !AccessoryService AM}.
Context `{!PortService PM, !ServicePlatform P, !ErrCodeBase}.
Context (char_signed : bool).
Abbreviation SMgr := (SerialManager D SerialPort).
Abbreviation US := (UsbService RM (HostTransfers W SMgr) DM AM PM P).
Abbreviation M := (state US).
Implicit Types m : US.

(** Claims, listeners and connections, with the recipients and the news they cause. *)
Definition news m :=
  (claimStateMap_ m, deviceListeners_ m, deviceConnectionMap_ m, List.filter is_watched (recipients_ m),
   List.filter is_news (effects_ m)).

(** A view of none of the managers, the names, the clients of accessories and serial
    ports, and the progress of the start. *)
Class Quiet {T} (view : US → T) : Prop := {
  quiet_asks :: Asks view;
  quiet_host x m : view (set_host x m) = view m;
  quiet_device x m : view (set_device x m) = view m;
  quiet_accessory x m : view (set_accessory x m) = view m;
  quiet_port x m : view (set_port x m) = view m;
  quiet_names x m : view (set_names x m) = view m;
  quiet_serial_names x m : view (set_serial_names x m) = view m;
  quiet_clients x m : view (set_clients x m) = view m;
  quiet_ready x m : view (set_ready x m) = view m;
  quiet_retries x m : view (set_retry_times x m) = view m;
  quiet_said e m : is_news e = false → view (set_effects (e :: effects_ m) m) = view m;
  quiet_joined p m : is_watched p = false → view (set_waiting (recipients_ m ++ [p]) m) = view m;
  quiet_left p m : is_watched p = false → view (set_waiting (remove_one p (recipients_ m)) m) = view m;
}.
(** Nor of the timer. *)
Class Timeless {T} (view : US → T) : Prop := {
  timeless_pending x m : view (set_unload_pending x m) = view m;
  timeless_id x m : view (set_unload_id x m) = view m;
}.
#[export] Instance quiet_news : Quiet news.
Proof.
  split; [split|..]; try by intros ? [].
  - by intros [] [] Hf.
  - intros e [] He. unfold news. cbn. by rewrite He.
  - intros p [] Hp. unfold news. cbn. rewrite List.filter_app. cbn. by rewrite Hp, app_nil_r.
  - intros p [] Hp. unfold news. cbn. by rewrite filter_remove_one.
Qed.
#[export] Instance timeless_news : Timeless news.
Proof. split; by intros ? []. Qed.
#[export] Instance quiet_pending : Quiet (unload_pending : US → option Z).
Proof. split; [split|..]; by intros ? []. Qed.

Context {T : Type} {view : US → T} `{!Quiet view}.

Lemma quiet_effect e : is_news e = false → Runs (fixed view) (effect e : M ()).
Proof. intros He. apply runs_modify. intros m. by apply quiet_said. Qed.
Lemma quiet_add_recipient remote r : is_watched (remote, r) = false → Runs (fixed view) (add_recipient remote r : M bool).
Proof. intros Hr. unfold add_recipient. runs. apply runs_modify. intros m. by apply quiet_joined. Qed.
Lemma quiet_remove_recipient remote r : is_watched (remote, r) = false → Runs (fixed view) (RemoveDeathRecipient remote r : M ()).
Proof. intros Hr. apply runs_modify. intros m. by apply quiet_left. Qed.
Lemma quiet_set f : (∀ m, view (f m) = view m) → Runs (fixed view) (modify f : M ()).
Proof. intros Hf. by apply runs_modify. Qed.
Lemma quiet_serial x m : view (set_serial x m) = view m.
Proof. apply quiet_host. Qed.

#[local] Hint Resolve quiet_host quiet_device quiet_accessory quiet_port quiet_names quiet_serial_names quiet_clients quiet_ready
  quiet_retries quiet_serial : quiet.
#[local] Hint Extern 1 (Runs (fixed view) (effect _)) => (apply quiet_effect; exact eq_refl) : runs.
#[local] Hint Extern 1 (Runs (fixed view) (add_recipient _ _)) => (apply quiet_add_recipient; exact eq_refl) : runs.
#[local] Hint Extern 1 (Runs (fixed view) (RemoveDeathRecipient _ _)) => (apply quiet_remove_recipient; exact eq_refl) : runs.
#[local] Hint Extern 1 (Runs (fixed view) (modify _)) => (apply quiet_set; intros ?; solve [auto with quiet nocore]) : runs.
#[local] Hint Extern 1 (Runs (fixed view) (on_host_manager _ _)) => (apply runs_through; apply quiet_host) : runs.
#[local] Hint Extern 1 (Runs (fixed view) (on_device_manager _ _)) => (apply runs_through; apply quiet_device) : runs.
#[local] Hint Extern 1 (Runs (fixed view) (on_accessory_manager _ _)) => (apply runs_through; apply quiet_accessory) : runs.
#[local] Hint Extern 1 (Runs (fixed view) (on_port_manager _ _)) => (apply runs_through; apply quiet_port) : runs.
#[local] Hint Extern 1 (Runs (fixed view) (on_serial_manager _ _)) => (apply runs_through; apply quiet_serial) : runs.
#[local] Hint Extern 1 (Runs (fixed view) start_serial) => (unfold start_serial; runs) : runs.

Lemma quiet_manage c r : Runs (fixed view) (manage c r : M Z).
Proof. destruct r; cbn [manage]; unfold ManageGlobalInterface, ManageDevice, ManageDevicePolicy, ManageInterfaceType, ManageUsbType, managed; runs. Qed.
Lemma quiet_add_device b a : Runs (fixed view) (AddDevice char_signed b a : M _).
Proof. unfold AddDevice, UsbServiceHost.GetDeviceInfo. sruns. Qed.
Hint Resolve quiet_manage quiet_add_device : runs.

Lemma quiet_remove_client fd t : Runs (fixed view) (RemoveAccessoryClientInfo fd t : M ()).
Proof. unfold RemoveAccessoryClientInfo. runs. Qed.
Hint Resolve quiet_remove_client : runs.
Lemma quiet_close_accessory c fd : Runs (fixed view) (CloseAccessory c fd : M Z).
Proof. unfold CloseAccessory. sruns. Qed.
Hint Resolve quiet_close_accessory : runs.
Lemma quiet_validate p : Runs (fixed view) (ValidateUsbSerialManagerAndPort p : M Z).
Proof. unfold ValidateUsbSerialManagerAndPort. runs. Qed.
Lemma quiet_db_ability p : Runs (fixed view) (CheckDbAbility p : M Z).
Proof. unfold CheckDbAbility. runs. Qed.
Lemma quiet_fault p t r d : Runs (fixed view) (fault p t r d : M Z).
Proof. unfold fault. runs. Qed.
Lemma quiet_identity p : Runs (fixed view) (GetPortIdentity p : M _).
Proof. unfold GetPortIdentity. runs. Qed.
Hint Resolve quiet_validate quiet_db_ability quiet_fault quiet_identity : runs.
Lemma quiet_serial_report c p t : Runs (fixed view) (ReportUsbSerialOperationSysEvent c p t : M ()).
Proof. unfold ReportUsbSerialOperationSysEvent. runs. Qed.
Lemma quiet_has_serial c p : Runs (fixed view) (HasSerialRight c p : M _).
Proof. unfold HasSerialRight. sruns. Qed.
Hint Resolve quiet_serial_report quiet_has_serial : runs.
Lemma quiet_hdc f : Runs (fixed view) (SetSettingsDataHdcStatus f : M bool).
Proof. unfold SetSettingsDataHdcStatus. runs. Qed.
Hint Resolve quiet_hdc : runs.
Lemma quiet_settings : Runs (fixed view) (InitSettingsDataHdcStatus : M bool).
Proof. unfold InitSettingsDataHdcStatus. sruns. Qed.
Lemma quiet_unload_task : Runs (fixed view) (unload_task : M ()).
Proof. unfold unload_task. runs. Qed.
Hint Resolve quiet_settings quiet_unload_task : runs.
Lemma quiet_print l : Runs (fixed view) (print l : M ()).
Proof. unfold print. runs. Qed.
Hint Resolve quiet_print : runs.
Lemma quiet_help : Runs (fixed view) (DumpHelp : M ()).
Proof. unfold DumpHelp. sruns. Qed.
Hint Resolve quiet_help : runs.
Lemma quiet_dump c fd l : Runs (fixed view) (Dump c fd l : M _).
Proof. unfold Dump, DoDump, serial_dump. sruns. Qed.
Hint Resolve quiet_dump : runs.

Lemma other_quiet c m m' : other_step char_signed c m m' → fixed view m m'.
Proof.
  destruct 1; try (revert m; match goal with |- ∀ m, fixed view m (?f m).2 => change (Runs (fixed view) f) end).
  all: unfold ManageUsbSerialDevice, GetDevices, UsbServiceHost.GetDeviceInfo,
    UsbServiceHost.GetDeviceInfoDescriptor, UsbServiceHost.GetConfigDescriptor, GetDeviceProductName, HasRightOut,
    SetCurrentFunctions, sys_api, UsbFunctionsFromString, UsbFunctionsToString, GetHapApiVersion, SetPhyConnect, OpenAccessory,
    UpdateUsbPort, UpdateUsbPortWithModes, SerialOpen, SerialClose, SerialRead, SerialWrite, SerialGetAttribute,
    SerialSetAttribute, SerialGetPortList, UpdateDeviceVidPidMap, RequestSerialRight, CancelSerialRight, AddSerialRight, OnStop, OnAddSystemAbility, UsbdDeath_OnRemoteDied.
  all: try solve [sruns].
Qed.

(** The deaths of serial clients and of accessory clients. *)
Lemma quiet_serial_death c p t : Runs (fixed view) (SerialDeath_OnRemoteDied c p t : M ()).
Proof. unfold SerialDeath_OnRemoteDied, FreeTokenId, CancelSerialRight. runs. Qed.
Lemma quiet_accessory_death c fd t : Runs (fixed view) (AccessoryDeath_OnRemoteDied c fd t : M ()).
Proof. unfold AccessoryDeath_OnRemoteDied. runs. Qed.
Lemma quiet_start_serial : Runs (fixed view) (start_serial : M ()).
Proof. runs. Qed.

(** *** The timer *)

Context `{!Timeless view}.
#[local] Hint Resolve timeless_pending timeless_id : quiet.
Lemma quiet_unload t : Runs (fixed view) (UnLoadSelf t : M ()).
Proof. unfold UnLoadSelf, IsNotNeedUnload. sruns. Qed.
Hint Resolve quiet_unload : runs.
Lemma quiet_wait_common n : Runs (fixed view) (wait_common_events n : M ()).
Proof. induction n; cbn [wait_common_events]; unfold IsCommonEventServiceAbilityExist; runs. Qed.
Lemma quiet_wait_usbd n : Runs (fixed view) (wait_usbd n : M ()).
Proof. induction n; cbn [wait_usbd]; unfold InitUsbd; runs. Qed.
Hint Resolve quiet_wait_common quiet_wait_usbd : runs.
Lemma quiet_start c : Runs (fixed view) (OnStart c : M ()).
Proof. unfold OnStart, Init, WaitUsbdService, InitUsbRight. sruns. Qed.
Hint Resolve quiet_start : runs.
Lemma life_quiet c m m' : life_step c m m' → fixed view m m'.
Proof.
  destruct 1; revert m; match goal with |- ∀ m, fixed view m (?f m).2 => change (Runs (fixed view) f) end.
  all: unfold run_unload; runs.
Qed.


(** An event of the driver is a departure, or leaves all of this. *)
Lemma event_quiet c info m : let m' := (DeviceEvent char_signed c info m).2 in
  match event_label info with
  | L_departure b a => view m' = view (DelDevice c b a m).2
  | _ => view m' = view m
  end.
Proof.
  cbv zeta. unfold DeviceEvent, event_label. destruct (is_gadget_event (status info)); cbn [orb].
  { revert m. change (Runs (fixed view) (UpdateDeviceState (status info);;
      UnLoadSelf UNLOAD_SA_DELAY;; mret (Done UEC_OK) : M _)). apply runs_bind; [apply _| |runs; apply quiet_unload].
    intros m. by apply (other_quiet c), o_device_state. }
  assert (∀ r : outcome bool, Runs (fixed view) (match r with
    | Done _ => UnLoadSelf UNLOAD_SA_DELAY;;
        (if status info =? ACT_DEVUP then m ← get; if is_set (serial_manager m) then mret () else
           tty ← on_service tty_exists; if (tty : bool) then start_serial else mret () else mret ());;
        mret (Done UEC_OK)
    | Fault => mret Fault | OutOfFuel => mret OutOfFuel end : M (outcome Z))) as Htail.
  { intros r. destruct r; [|runs..]. apply runs_bind; [apply _|apply quiet_unload|]. runs. }
  rewrite bind_run. destruct (status info =? ACT_DEVUP) eqn:Hup; cbn [orb].
  - etransitivity; [apply Htail|]. apply (other_quiet c), o_add_device.
  - etransitivity; [apply Htail|]. by rewrite bind_run, ret_run.
Qed.
End Quiet.
