(* ===== verification/UsbServiceClaimProofs.v ===== *)
(** * The service: the claims as an abstract machine

    The table of claims with the recipients and the conflicts that belong to it,
    the moves of a caller on it, and the simulation of the service by those moves. *)
From S2P Require Import Prelude UsbErrors Platform UsbAccessory UsbDeviceManager UsbPortManager UsbDevice UsbDescriptorParser SerialManager UsbInterfaceType UsbHostManager UsbHostPolicy UsbHostProofs UsbHostTransfer UsbService UsbServiceClaims UsbServiceHost UsbServiceDevice UsbServiceSerial UsbServiceLife UsbServiceSteps UsbServiceFrames.

(** ** The machine *)

Abbreviation ClaimTable := (gmap string ClaimInterfaceState).
Abbreviation ClaimWatch := (RemoteObject * ClaimDeathRecipient)%type.
(** The table, who waits for whose death, the conflicts told (newest first). *)
Abbreviation ClaimView := (ClaimTable * list ClaimWatch * list (RemoteObject * string))%type.

Definition key_of_recipient (r : ClaimDeathRecipient) : string := MakeClaimKey (busNum_ r) (devAddr_ r) (interfaceid_ r).
Definition watch_of (s : ClaimInterfaceState) : option ClaimWatch :=
  match notifyCallback s, claimRecipient s with Some cb, Some r => Some (cb, r) | _, _ => None end.
Definition unwatch (s : ClaimInterfaceState) (l : list ClaimWatch) : list ClaimWatch :=
  match watch_of s with Some w => remove_one w l | None => l end.
(** The claim without its owner; gone when no one else holds it. *)
Definition disown (s : ClaimInterfaceState) : option ClaimInterfaceState :=
  if normalClaimed s then Some (without_owner s) else None.
Definition owned_by (t : Z) (cb : RemoteObject) (r : ClaimDeathRecipient) (normal : bool) : ClaimInterfaceState := {|
  exclusiveOwner := t; normalClaimed := normal; notifyCallback := Some cb; claimRecipient := Some r |}.
Definition conflicts (t : Z) (key : string) (s : ClaimInterfaceState) : list (RemoteObject * string) :=
  if negb (exclusiveOwner s =? 0) && negb (exclusiveOwner s =? t)
  then match notifyCallback s with Some cb => [(cb, key)] | None => [] end else [].

(** What the token [t] can do to the table. *)
Inductive claim_move (t : Z) : ClaimView → ClaimView → Prop :=
  | move_normal k C L E : let s := default no_claim (C !! k) in
      claim_move t (C, L, E) (<[k := with_normal true s]> C, L, conflicts t k s ++ E)
  | move_own k r cb C L E : key_of_recipient r = k → tokenId_ r = t → C !! k = None →
      claim_move t (C, L, E) (<[k := owned_by t cb r false]> C, L ++ [(cb, r)], E)
  | move_own_again k s r cb C L E : key_of_recipient r = k → tokenId_ r = t → C !! k = Some s →
      (exclusiveOwner s = t ∨ exclusiveOwner s = 0 ∧ normalClaimed s = false) →
      claim_move t (C, L, E) (<[k := owned_by t cb r (normalClaimed s)]> C, unwatch s (L ++ [(cb, r)]), E)
  | move_disown k s C L E : C !! k = Some s → exclusiveOwner s = t →
      claim_move t (C, L, E) (partial_alter (λ _, disown s) k C, unwatch s L, E)
  | move_unshare k s C L E : C !! k = Some s → exclusiveOwner s ≠ 0 → normalClaimed s = true →
      claim_move t (C, L, E) (<[k := with_normal false s]> C, L, E)
  | move_forget k s C L E : C !! k = Some s → exclusiveOwner s = 0 → normalClaimed s = true →
      claim_move t (C, L, E) (delete k C, L, E).
(** The device behind the keys with a prefix is gone. *)
Inductive claim_gone (pfx : string) : ClaimView → ClaimView → Prop :=
  | gone_entry k s C L E : C !! k = Some s → String.prefix pfx k = true →
      claim_gone pfx (C, L, E) (delete k C, unwatch s L, E).
(** A remote object is dead: its recipients are called in turn. *)
Definition claim_death (C : ClaimTable) (r : ClaimDeathRecipient) : ClaimTable :=
  match C !! key_of_recipient r with
  | Some s => if exclusiveOwner s =? tokenId_ r then partial_alter (λ _, disown s) (key_of_recipient r) C else C
  | None => C
  end.
Definition died_with (remote : RemoteObject) (L : list ClaimWatch) : list ClaimDeathRecipient :=
  omap (λ w, if w.1 =? remote then Some w.2 else None) L.
Definition claim_died (remote : RemoteObject) (v : ClaimView) : ClaimView :=
  let '(C, L, E) := v in
  (foldl claim_death C (died_with remote L), List.filter (λ w, negb (w.1 =? remote)) L, E).

(** ** The invariant *)

(** Someone holds the interface, and an owner has a callback whose recipient
    knows the interface and the owner. *)
Definition claim_ok (k : string) (s : ClaimInterfaceState) : Prop :=
  if decide (exclusiveOwner s = 0) then normalClaimed s = true ∧ notifyCallback s = None ∧ claimRecipient s = None
  else ∃ cb r, notifyCallback s = Some cb ∧ claimRecipient s = Some r ∧ tokenId_ r = exclusiveOwner s ∧ key_of_recipient r = k.
(** The recipients that wait are those of the claims, each once. *)
Definition claims_ok (v : ClaimView) : Prop :=
  map_Forall claim_ok v.1.1 ∧ NoDup v.1.2 ∧
  ∀ w, w ∈ v.1.2 ↔ ∃ s, v.1.1 !! key_of_recipient w.2 = Some s ∧ watch_of s = Some w.

Lemma claim_ok_watch k s : claim_ok k s → if decide (exclusiveOwner s = 0) then watch_of s = None
  else ∃ cb r, watch_of s = Some (cb, r) ∧ tokenId_ r = exclusiveOwner s ∧ key_of_recipient r = k.
Proof.
  unfold claim_ok, watch_of. case_decide; [by intros (_ & -> & _)|]. intros (cb & r & -> & -> & ? & ?). eauto.
Qed.
Lemma watch_key k s w : claim_ok k s → watch_of s = Some w → key_of_recipient w.2 = k ∧ tokenId_ w.2 = exclusiveOwner s.
Proof.
  intros Hs%claim_ok_watch Hw. case_decide; [congruence|]. destruct Hs as (cb & r & E & ? & ?).
  rewrite Hw in E. by simplify_eq.
Qed.

(** Replacing one claim keeps the invariant when the recipients follow. *)
Lemma claims_ok_alter k o C L L' E E' :
  claims_ok (C, L, E) → (∀ s, o = Some s → claim_ok k s) → NoDup L' →
  (∀ w, w ∈ L' ↔ (key_of_recipient w.2 ≠ k ∧ w ∈ L) ∨ (key_of_recipient w.2 = k ∧ ∃ s, o = Some s ∧ watch_of s = Some w)) →
  claims_ok (partial_alter (λ _, o) k C, L', E').
Proof.
  intros (HC & HL & HCL) Ho HL' Hw. cbn in *. split; [|split; [done|]]; cbn.
  - intros k' s. destruct (decide (k' = k)) as [->|Hk].
    + rewrite lookup_partial_alter_eq. apply Ho.
    + rewrite lookup_partial_alter_ne by done. apply HC.
  - intros w. rewrite Hw, HCL. destruct (decide (key_of_recipient w.2 = k)) as [Hk|Hk].
    + rewrite Hk, lookup_partial_alter_eq. split; [intros [[? _]|[_ ?]]; done|intros ?; right; done].
    + rewrite lookup_partial_alter_ne by done. split; [intros [[_ ?]|[? _]]; done|intros ?; left; done].
Qed.
(** The recipients of the other claims. *)
Lemma elem_of_unwatch k s C L E w : claims_ok (C, L, E) → C !! k = Some s →
  w ∈ unwatch s L ↔ key_of_recipient w.2 ≠ k ∧ w ∈ L.
Proof.
  intros (HC & HL & HCL) Hs. cbn in *. pose proof (HC k s Hs) as Hok. unfold unwatch.
  destruct (watch_of s) as [w0|] eqn:E0.
  - destruct (watch_key k s w0 Hok E0) as [Hk _]. rewrite elem_of_remove_one by done. split.
    + intros [Hw Hne]. split; [|done]. intros Hk'. apply HCL in Hw as (s' & Hs' & Hw'). congruence.
    + intros [Hne Hw]. split; [done|]. by intros ->.
  - split; [|tauto]. intros Hw. split; [|done]. intros Hk. apply HCL in Hw as (s' & Hs' & Hw'). rewrite Hk, Hs in Hs'.
    by simplify_eq.
Qed.
Lemma NoDup_unwatch s L : NoDup L → NoDup (unwatch s L).
Proof. intros HL. unfold unwatch. destruct (watch_of s); [by apply NoDup_remove_one|done]. Qed.

(** An owner whose claim is released or shared. *)
Lemma disown_ok k s : claim_ok k s → ∀ s', disown s = Some s' → claim_ok k s' ∧ watch_of s' = None.
Proof. intros _ s'. unfold disown. destruct (normalClaimed s) eqn:En; [|done]. intros [= <-]. by split; [repeat split; cbn|]. Qed.
Lemma owned_ok t cb r b k : t ≠ 0 → key_of_recipient r = k → tokenId_ r = t → claim_ok k (owned_by t cb r b).
Proof. intros Ht Hk Hr. unfold claim_ok. cbn. rewrite decide_False by done. by exists cb, r. Qed.
Lemma with_normal_ok k s b : claim_ok k s → (b = true ∨ exclusiveOwner s ≠ 0) → claim_ok k (with_normal b s).
Proof. unfold claim_ok. cbn. case_decide; [|done]. intros (_ & ? & ?) [->|?]; [done|done]. Qed.
Lemma watch_with_normal b s : watch_of (with_normal b s) = watch_of s.
Proof. done. Qed.

(** The claim at [k] is replaced by one with the same recipient. *)
Lemma claims_ok_same k s s' C L E E' : claims_ok (C, L, E) → C !! k = Some s → claim_ok k s' → watch_of s' = watch_of s →
  claims_ok (<[k := s']> C, L, E').
Proof.
  intros Hok Hs Hs' Hw. apply (claims_ok_alter k (Some s') C L L E E'); [done|by intros ? [= <-]|apply Hok|].
  intros w. destruct Hok as (HC & _ & HCL). cbn in *. rewrite HCL. split.
  - intros (s0 & H0 & Hw0). destruct (decide (key_of_recipient w.2 = k)) as [Hk|Hk]; [right|left; eauto].
    split; [done|]. rewrite Hk, Hs in H0. simplify_eq. exists s'. split; [done|congruence].
  - intros [[_ ?]|[Hk (s0 & [= <-] & Hw0)]]; [done|]. rewrite Hk. exists s. split; [done|congruence].
Qed.
(** A claim that has no recipient any more, or is gone. *)
Lemma claims_ok_unwatch k s o C L E E' : claims_ok (C, L, E) → C !! k = Some s →
  (∀ s', o = Some s' → claim_ok k s' ∧ watch_of s' = None) → claims_ok (partial_alter (λ _, o) k C, unwatch s L, E').
Proof.
  intros Hok Hs Ho. apply (claims_ok_alter k o C L _ E E'); [done|intros s' Hs'; by apply Ho|apply NoDup_unwatch, Hok|].
  intros w. rewrite (elem_of_unwatch k s C L E) by done. split; [intros [? ?]; by left|].
  intros [?|[_ (s' & Hs' & Hw)]]; [done|]. destruct (Ho s' Hs') as [_ E0]. congruence.
Qed.

Lemma claim_move_ok t v v' : t ≠ 0 → claim_move t v v' → claims_ok v → claims_ok v'.
Proof.
  intros Ht [] Hok; pose proof Hok as (HC & HL & HCL); cbn in HC, HL, HCL.
  - destruct (C !! k) as [s0|] eqn:Hs0; cbn in s; subst s.
    + eapply claims_ok_same; [done..| |done]. apply with_normal_ok; [by apply HC|by left].
    + eapply (claims_ok_alter k (Some _) C L L E); [done| |done|].
      * intros s' [= <-]. done.
      * intros w. split.
        -- intros Hw. left. split; [|done]. intros Hk. apply HCL in Hw as (s' & Hs' & _). rewrite Hk in Hs'. congruence.
        -- intros [[_ ?]|[_ (s' & [= <-] & Hw)]]; done.
  - eapply (claims_ok_alter k (Some _) C L _ E); [done| | |].
    + intros s' [= <-]. by apply owned_ok.
    + apply NoDup_app. split; [done|]. split; [|apply NoDup_singleton]. intros w Hw ->%list_elem_of_singleton.
      apply HCL in Hw as (s' & Hs' & _). cbn in Hs'. congruence.
    + intros w. rewrite elem_of_app, list_elem_of_singleton. split.
      * intros [Hw| ->]; [left|right; cbn; eauto]. split; [|done]. intros Hk.
        apply HCL in Hw as (s' & Hs' & _). rewrite Hk in Hs'. congruence.
      * intros [[_ ?]|[_ (s' & [= <-] & [= <-])]]; [by left|by right].
  - assert (exclusiveOwner s = t) as Ho.
    { match goal with Hx : _ ∨ _ |- _ => destruct Hx as [?|[Ho0 Hn]]; [done|] end.
      pose proof (HC k s ltac:(done)) as Hk. unfold claim_ok in Hk. rewrite decide_True in Hk by done. destruct Hk. congruence. }
    assert (unwatch s (L ++ [(cb, r)]) = unwatch s L ++ [(cb, r)]) as E1.
    { pose proof (claim_ok_watch _ _ (HC k s ltac:(done))) as Hw. rewrite decide_False in Hw by congruence.
      destruct Hw as (cb0 & r0 & Hw & _ & Hk0). unfold unwatch. rewrite Hw. apply remove_one_app, HCL.
      exists s. cbn. by rewrite Hk0. }
    eapply (claims_ok_alter k (Some _) C L _ E); [done| | |].
    + intros s' [= <-]. by apply owned_ok.
    + rewrite E1. apply NoDup_app. split; [by apply NoDup_unwatch|]. split; [|apply NoDup_singleton].
      intros w Hw ->%list_elem_of_singleton. by apply (elem_of_unwatch k s C L E) in Hw as [? _].
    + intros w. rewrite E1, elem_of_app, list_elem_of_singleton, (elem_of_unwatch k s C L E) by done. split.
      * intros [?| ->]; [by left|right; cbn; eauto].
      * intros [?|[_ (s' & [= <-] & [= <-])]]; [by left|by right].
  - eapply claims_ok_unwatch; [done..|]. apply disown_ok. by apply HC.
  - eapply claims_ok_same; [done..| |done]. apply with_normal_ok; [by apply HC|by right].
  - pose proof (HC k s) as Hk. unfold claim_ok in Hk. rewrite decide_True in Hk by done.
    apply (claims_ok_alter k None C L _ E); [done|done|done|]. intros w. split.
    + intros Hw. left. split; [|done]. intros Hkw. apply HCL in Hw as (s' & Hs' & Hw). rewrite Hkw in Hs'. simplify_eq.
      destruct (Hk ltac:(done)) as (_ & E0 & _). unfold watch_of in Hw. by rewrite E0 in Hw.
    + intros [[_ ?]|[_ (s' & ? & ?)]]; done.
Qed.

Lemma claim_gone_ok pfx v v' : claim_gone pfx v v' → claims_ok v → claims_ok v'.
Proof. intros [] Hok. by eapply (claims_ok_unwatch k s None). Qed.

(** *** A death *)

Lemma fold_death rs C : NoDup (key_of_recipient <$> rs) →
  (∀ r, r ∈ rs → ∃ s, C !! key_of_recipient r = Some s ∧ exclusiveOwner s = tokenId_ r) →
  ∀ k, foldl claim_death C rs !! k = if decide (k ∈ key_of_recipient <$> rs) then C !! k ≫= disown else C !! k.
Proof.
  revert C. induction rs as [|r rs IH]; intros C Hnd Hrs k; [done|]. cbn [fmap list_fmap foldl] in *.
  apply NoDup_cons in Hnd as [Hr Hnd]. destruct (Hrs r) as (s & Hs & Ho); [left|].
  assert (claim_death C r = partial_alter (λ _, disown s) (key_of_recipient r) C) as E1.
  { unfold claim_death. by rewrite Hs, (proj2 (Z.eqb_eq _ _) Ho). }
  rewrite E1, IH; [|done|].
  - destruct (decide (k = key_of_recipient r)) as [->|Hk].
    + rewrite decide_False by done. rewrite lookup_partial_alter_eq, decide_True by left. by rewrite Hs.
    + rewrite lookup_partial_alter_ne by done.
      destruct (decide (k ∈ key_of_recipient <$> rs)) as [Hin|Hin].
      * by rewrite decide_True by (by right).
      * rewrite decide_False; [done|]. by intros [?|?]%elem_of_cons.
  - intros r' Hr'. destruct (Hrs r') as (s' & Hs' & Ho'); [by right|]. exists s'. split; [|done].
    rewrite lookup_partial_alter_ne; [done|]. intros Heq. apply Hr. rewrite Heq. by apply list_elem_of_fmap_2.
Qed.
Lemma elem_of_died_with remote L r : r ∈ died_with remote L ↔ (remote, r) ∈ L.
Proof.
  unfold died_with. rewrite list_elem_of_omap. split.
  - intros ([cb r'] & Hw & E0). cbn in E0. destruct (Z.eqb_spec cb remote); by simplify_eq.
  - intros Hw. exists (remote, r). cbn. by rewrite Z.eqb_refl.
Qed.
Lemma NoDup_died_with remote L : NoDup L → NoDup (died_with remote L).
Proof.
  induction 1 as [|[cb r] L Hw HL IH]; [constructor|]. unfold died_with. cbn. destruct (Z.eqb_spec cb remote) as [->|]; [|done].
  constructor; [|done]. by intros ?%elem_of_died_with.
Qed.
(** What a death leaves of each claim. *)
Lemma claim_died_lookup remote C L E k : claims_ok (C, L, E) →
  (claim_died remote (C, L, E)).1.1 !! k = match C !! k with
    | Some s => if decide (notifyCallback s = Some remote) then disown s else Some s
    | None => None
    end.
Proof.
  intros (HC & HL & HCL). cbn in HC, HL, HCL. cbn [claim_died fst].
  set (rs := died_with remote L). assert (∀ r, r ∈ rs ↔ (remote, r) ∈ L) as Hrs by apply elem_of_died_with.
  assert (∀ r, r ∈ rs → ∃ s, C !! key_of_recipient r = Some s ∧ watch_of s = Some (remote, r)) as Hs.
  { intros r Hr. by apply Hrs, HCL in Hr. }
  rewrite fold_death.
  - destruct (C !! k) as [s|] eqn:Hk; [|by case_decide]. destruct (decide (k ∈ _)) as [Hin|Hin].
    + apply list_elem_of_fmap in Hin as (r & -> & Hr). destruct (Hs r Hr) as (s' & Hs' & Hw).
      simplify_eq. rewrite decide_True; [done|]. unfold watch_of in Hw.
      destruct (notifyCallback s), (claimRecipient s); simplify_eq. done.
    + rewrite decide_False; [done|]. intros Hcb. apply Hin.
      pose proof (claim_ok_watch _ _ (HC k s Hk)) as Hw. case_decide.
      * pose proof (HC k s Hk) as Ho. unfold claim_ok in Ho. rewrite decide_True in Ho by done. destruct Ho as (_ & ? & _). congruence.
      * destruct Hw as (cb & r & Hw & _ & <-). apply list_elem_of_fmap_2, Hrs, HCL. exists s. split; [done|].
        cbn. rewrite Hw. unfold watch_of in Hw. rewrite Hcb in Hw. destruct (claimRecipient s); by simplify_eq.
  - apply NoDup_fmap_2_strong; [|by apply NoDup_died_with]. intros r1 r2 H1 H2 Heq.
    destruct (Hs r1 H1) as (s1 & Hk1 & Hw1), (Hs r2 H2) as (s2 & Hk2 & Hw2). congruence.
  - intros r Hr. destruct (Hs r Hr) as (s & Hk & Hw). exists s. split; [done|]. by destruct (watch_key _ _ _ (HC _ _ Hk) Hw).
Qed.
Lemma claim_died_ok remote v : claims_ok v → claims_ok (claim_died remote v).
Proof.
  destruct v as [[C L] E]. intros Hok. pose proof (claim_died_lookup remote C L E) as Hl.
  pose proof Hok as (HC & HL & HCL). cbn in HC, HL, HCL. split; [|split]; cbn [claim_died fst snd] in *.
  - intros k s. rewrite Hl by done. destruct (C !! k) as [s0|] eqn:Hk; [|done]. case_decide; [|by intros [= <-]; apply HC].
    intros Hs. by apply (disown_ok k s0 (HC _ _ Hk)).
  - by apply NoDup_ListNoDup, List.NoDup_filter, NoDup_ListNoDup.
  - intros w. rewrite Hl by done. rewrite list_elem_of_In, List.filter_In, <- list_elem_of_In, HCL. split.
    + intros [(s & Hk & Hw) Hne%negb_true_iff%Z.eqb_neq]. rewrite Hk. exists s. split; [|done]. rewrite decide_False; [done|].
      intros Hcb. unfold watch_of in Hw. rewrite Hcb in Hw. by destruct (claimRecipient s); simplify_eq.
    + intros (s & Hs & Hw). destruct (C !! key_of_recipient w.2) as [s0|] eqn:Hk; [|done]. case_decide as Hcb.
      * destruct (disown_ok _ s0 (HC _ _ Hk) s Hs) as [_ E0]. congruence.
      * simplify_eq. split; [eauto|]. apply negb_true_iff, Z.eqb_neq. intros Heq. apply Hcb.
        unfold watch_of in Hw. by destruct (notifyCallback s), (claimRecipient s); simplify_eq.
Qed.

(** The keys of a device are those with its prefix. *)
Lemma claim_prefix_key b a b' a' i : in_u8 b → in_u8 a → in_u8 b' → in_u8 a' →
  String.prefix (claim_prefix b' a') (MakeClaimKey b a i) = true → b' = b ∧ a' = a.
Proof.
  unfold in_u8. intros Hb Ha Hb' Ha' (r & E)%prefix_app. unfold MakeClaimKey, claim_prefix in E.
  rewrite !string_app_assoc in E.
  apply digits_dash in E as [E1 E]; [|apply digits_value_pretty; lia..]. cbn in E. 
  apply digits_dash in E as [E2 _]; [|apply digits_value_pretty; lia..]. split; by apply (inj pretty).
Qed.
Lemma prefix_own p s : String.prefix p (p +:+ s) = true.
Proof.
  induction p as [|c p IH]; [by destruct s|]. change (String c p +:+ s) with (String c (p +:+ s)). cbn [String.prefix].
  by destruct (ascii_dec c c).
Qed.
Lemma claim_prefix_own b a i : String.prefix (claim_prefix b a) (MakeClaimKey b a i) = true.
Proof.
  assert (MakeClaimKey b a i = claim_prefix b a +:+ pretty i) as ->; [|apply prefix_own].
  unfold MakeClaimKey, claim_prefix. by rewrite !string_app_assoc.
Qed.
Lemma MakeClaimKey_inj b a i b' a' i' : in_u8 b → in_u8 a → in_u8 i → in_u8 b' → in_u8 a' → in_u8 i' →
  MakeClaimKey b a i = MakeClaimKey b' a' i' → b = b' ∧ a = a' ∧ i = i'.
Proof.
  intros Hb Ha Hi Hb' Ha' Hi' E. assert (b' = b ∧ a' = a) as [-> ->].
  { apply (claim_prefix_key b a b' a' i); [done..|]. rewrite E. apply claim_prefix_own. }
  split; [done|split; [done|]]. unfold MakeClaimKey in E. by do 4 apply (inj (String.app _)) in E; apply (inj pretty).
Qed.

(** * The service: every step moves the claims

    Each request is a sequence of moves of its caller on the table of claims, each
    departure drops the claims on its device, each death those of the dead, and no
    other step touches them. *)

Definition claim_watch (p : RemoteObject * Recipient) : option ClaimWatch :=
  match p.2 with ClaimDeath r => Some (p.1, r) | _ => None end.
Definition claim_conflict (e : ServiceEffect) : option (RemoteObject * string) :=
  match e with Conflict cb b a i => Some (cb, MakeClaimKey b a i) | _ => None end.

Lemma omap_filter {A B} (f : A → option B) (g : A → bool) l : (∀ x, g x = false → f x = None) →
  omap f (List.filter g l) = omap f l.
Proof.
  intros Hg. induction l as [|x l IH]; [done|]. cbn. destruct (g x) eqn:E; cbn; rewrite IH; [done|]. by rewrite Hg.
Qed.

(** The recipients of a dead object, and of the others. *)
Lemma dead_recipients remote l :
  omap (λ p, match p.2 with ClaimDeath r => Some r | _ => None end) (List.filter (λ p : RemoteObject * Recipient, p.1 =? remote) l) =
  omap (λ w : ClaimWatch, if w.1 =? remote then Some w.2 else None) (omap claim_watch l).
Proof. induction l as [|[cb []] l IH]; [done|..]; cbn; destruct (cb =? remote) eqn:E; cbn; rewrite ?E; by rewrite ?IH. Qed.
Lemma live_recipients remote l :
  omap claim_watch (List.filter (λ p : RemoteObject * Recipient, negb (p.1 =? remote)) l) =
  List.filter (λ w : ClaimWatch, negb (w.1 =? remote)) (omap claim_watch l).
Proof. induction l as [|[cb []] l IH]; [done|..]; cbn; destruct (cb =? remote) eqn:E; cbn; rewrite ?E; cbn; by rewrite ?IH. Qed.

Section Sim.
Context {W R D SerialPort SerialAttribute RM DM AM PM P : Type}.
Context `{!HostPlatform W R, !HostTransferPlatform W, !TableOrder, !CJson, !SerialInterface D SerialPort SerialAttribute}.
Context `{!PortList (SerialManager D SerialPort)}.
Context `{!SerialPortInfo P D SerialPort SerialAttribute, !RightService RM, !DeviceService DM, !AccessoryService AM}.
Context `{!PortService PM, !ServicePlatform P, !ErrCodeBase}.
Context (char_signed : bool).
Abbreviation SMgr := (SerialManager D SerialPort).
Abbreviation US := (UsbService RM (HostTransfers W SMgr) DM AM PM P).
Abbreviation M := (state US).
Implicit Types m : US.

(** The claims of a state. *)
Definition claims m : ClaimView := (claimStateMap_ m, omap claim_watch (recipients_ m), omap claim_conflict (effects_ m)).
Lemma claims_of_news m m' : fixed news m m' → fixed claims m m'.
Proof.
  unfold fixed, news, claims. intros [= E1 _ _ E4 E5]. rewrite E1. f_equal; [f_equal|].
  - rewrite <- (omap_filter _ is_watched (recipients_ m')), E4, omap_filter; [done|..]; by intros [? []].
  - rewrite <- (omap_filter _ is_news (effects_ m')), E5, omap_filter; [done|..]; by intros [].
Qed.
#[export] Instance asks_claims : Asks claims.
Proof. split; [by intros ? []|by intros ? []|]. by intros [] [] Hf. Qed.

(** The relation on states of a sequence of moves. *)
Definition moved (T : relation ClaimView) : relation US := λ m m', rtc T (claims m) (claims m').
#[export] Instance moved_preorder T : PreOrder (moved T).
Proof. split; [intros m; unfold moved; reflexivity|]. intros a b c. unfold moved. intros. etransitivity; eassumption. Qed.
Lemma moved_fixed T {A} (f : M A) : Runs (fixed claims) f → Runs (moved T) f.
Proof. apply runs_weaken. intros m m'. unfold fixed, moved. intros ->. reflexivity. Qed.

Lemma moved_fixed_at m {A} (f : M A) : Runs (fixed claims) f → fixed claims m (f m).2.
Proof. intros Hf. apply Hf. Qed.

Lemma drop_recipient_claims s m :
  claims (drop_recipient s m).2 = (claimStateMap_ m, unwatch s (omap claim_watch (recipients_ m)), omap claim_conflict (effects_ m)).
Proof.
  unfold drop_recipient, unwatch, watch_of. destruct (notifyCallback s) as [cb|], (claimRecipient s) as [r|]; try done.
  destruct m. unfold claims, RemoveDeathRecipient. cbn. f_equal. f_equal.
  rewrite (omap_remove_one claim_watch); [done|]. intros [cb' []] E; by simplify_eq.
Qed.
Lemma put_claim_claims k s m : claims (put_claim k s m).2 = (<[k := s]> (claimStateMap_ m), (claims m).1.2, (claims m).2).
Proof. by destruct m. Qed.
Lemma erase_claim_claims k m : claims (erase_claim k m).2 = (delete k (claimStateMap_ m), (claims m).1.2, (claims m).2).
Proof. by destruct m. Qed.
Lemma drop_recipient_table s m : claimStateMap_ (drop_recipient s m).2 = claimStateMap_ m.
Proof. unfold drop_recipient. destruct (notifyCallback s), (claimRecipient s); by destruct m. Qed.

(** *** The functions on claims *)

Lemma notify_moves b a i t m : moved (claim_move t) m (NotifyExclusiveOwner b a i t m).2.
Proof.
  apply rtc_once. unfold NotifyExclusiveOwner. cbv zeta. rewrite bind_run. unfold claim_at, gets. cbn [fst snd].
  set (k := MakeClaimKey b a i). set (s := default no_claim (claimStateMap_ m !! k)). rewrite bind_run.
  set (m1 := (put_claim k (with_normal true s) m).2).
  assert (claims m1 = (<[k := with_normal true s]> (claimStateMap_ m), (claims m).1.2, (claims m).2)) as E1 by apply put_claim_claims.
  match goal with |- claim_move _ _ (claims ?m2) =>
    assert (claims m2 = ((claims m1).1, conflicts t k s ++ (claims m1).2)) as -> end.
  { unfold conflicts. destruct (negb (exclusiveOwner s =? 0) && negb (exclusiveOwner s =? t)); [|by destruct m1].
    destruct (notifyCallback s) as [cb|]; by destruct m1. }
  rewrite E1. exact (move_normal t k (claimStateMap_ m) (claims m).1.2 (claims m).2).
Qed.
Lemma moves_notify b a i t : Runs (moved (claim_move t)) (NotifyExclusiveOwner b a i t : M ()).
Proof. intros m. apply notify_moves. Qed.

(** The owner lets go: the body of the loop of [Close], and of [ReleaseInterface]. *)
Lemma disown_claims k s m : claims ((drop_recipient s;; if normalClaimed s then put_claim k (without_owner s) else erase_claim k) m).2 =
  (partial_alter (λ _, disown s) k (claimStateMap_ m), unwatch s (claims m).1.2, (claims m).2).
Proof.
  rewrite bind_run. pose proof (drop_recipient_claims s m) as E1. pose proof (drop_recipient_table s m) as E2. unfold disown.
  destruct (normalClaimed s); [rewrite put_claim_claims|rewrite erase_claim_claims]; by rewrite E1, E2.
Qed.
Lemma each_claim_moves T b a (body : string → ClaimInterfaceState → M ()) :
  (∀ k s m, claimStateMap_ m !! k = Some s → String.prefix (claim_prefix b a) k = true → moved T m (body k s m).2) →
  Runs (moved T) (each_claim b a body).
Proof.
  intros Hb. unfold each_claim. apply runs_get. intros m0. apply runs_for_each; [apply _|]. intros k m. unfold claim_at, gets. rewrite bind_run. cbn [fst snd].
  destruct (claimStateMap_ m !! _) as [s|] eqn:Hs; [|reflexivity]. destruct (String.prefix _ _) eqn:Hp; [|reflexivity].
  by apply Hb.
Qed.
Lemma moves_remove_exclusive b a t : Runs (moved (claim_move t)) (RemoveExclusiveClaimByDevice b a t : M ()).
Proof.
  apply each_claim_moves. intros k s m Hs _. destruct (Z.eqb_spec (exclusiveOwner s) t) as [Ho|]; cbn [negb]; [|reflexivity].
  apply rtc_once. rewrite disown_claims. by apply move_disown.
Qed.
Lemma moves_remove_all b a : Runs (moved (claim_gone (claim_prefix b a))) (RemoveAllClaimByDevice b a : M ()).
Proof.
  apply each_claim_moves. intros k s m Hs Hp. apply rtc_once. rewrite bind_run, erase_claim_claims, drop_recipient_table, drop_recipient_claims.
  by apply (gone_entry _ k s).
Qed.

Lemma moves_register k b a i t cb isRepeat m : k = MakeClaimKey b a i →
  (match claimStateMap_ m !! k with
   | None => isRepeat = false
   | Some s => if isRepeat : bool then exclusiveOwner s = t else exclusiveOwner s = 0 ∧ normalClaimed s = false
   end) → moved (claim_move t) m (RegisterExclusiveCallback k b a i t cb isRepeat m).2.
Proof.
  intros Hk Hs. unfold RegisterExclusiveCallback. destruct cb as [cb|]; [|reflexivity]. cbv zeta.
  set (r := {| busNum_ := b; devAddr_ := a; interfaceid_ := i; tokenId_ := t |}).
  unfold add_recipient. rewrite !bind_run. set (m1 := (on_service (AddDeathRecipient cb) m).2).
  assert (claims m1 = claims m) as E1 by apply (runs_on_service claims). 
  destruct (on_service (AddDeathRecipient cb) m).1; cbn [fst snd negb]; [|unfold moved; rewrite ret_run; cbn; by rewrite E1].
  set (m2 := (modify _ m1).2). rewrite ret_run. cbn [fst snd negb].
  assert (claims m2 = ((claims m).1.1, (claims m).1.2 ++ [(cb, r)], (claims m).2)) as E2.
  { rewrite <- E1. unfold m2, modify, claims. destruct m1; cbn. by rewrite omap_app. }
  rewrite !bind_run. unfold claim_at, gets. cbn [fst snd]. set (s := default no_claim (claimStateMap_ m2 !! k)).
  pose proof (drop_recipient_claims s m2) as E3.
  apply rtc_once. rewrite put_claim_claims, drop_recipient_table, E3.
  injection E2 as E4 E5 E6. rewrite E4, E5, E6. unfold s. rewrite E4. clear s E3. cbn [claims fst snd].
  destruct (claimStateMap_ m !! k) as [s|] eqn:Hks; cbn [from_option]; unfold Datatypes.id.
  - replace (if isRepeat then exclusiveOwner s else t) with t by (destruct isRepeat; [by rewrite Hs|done]).
    apply (move_own_again t k s r cb); [done..|]. destruct isRepeat; tauto.
  - subst isRepeat. by apply (move_own t k r cb).
Qed.
Lemma moves_claim_exclusive c b a i force cb :
  Runs (moved (claim_move (CallingTokenID c))) (ClaimInterfaceExclusive c b a i force cb : M Z).
Proof.
  unfold ClaimInterfaceExclusive. apply runs_bind; [apply _|apply moved_fixed; runs|]. intros [] ; cbn [negb]; [|runs].
  unfold unless_null. apply runs_get. intros m0. apply runs_if; [|runs]. cbv zeta. intros m. rewrite bind_run. unfold claim_at, gets. cbn [fst snd].
  set (k := MakeClaimKey b a i). set (rep := match claimStateMap_ m !! k with Some s => _ | None => false end).
  destruct (negb rep && _) eqn:Hbusy; [reflexivity|]. rewrite bind_run.
  set (m1 := (on_host_manager _ _ m).2). assert (claims m1 = claims m) as E1.
  { by apply runs_through; intros ? []. }
  destruct (_ =? UEC_OK); cbn [negb]; [|unfold moved; rewrite ret_run; cbn; by rewrite E1].
  rewrite bind_run, ret_run. cbn [fst snd]. transitivity m1; [unfold moved; by rewrite E1|].
  apply moves_register; [done|]. injection E1 as E1 _ _. rewrite E1. fold k. unfold rep in *.
  destruct (claimStateMap_ m !! k) as [s|]; [|done]. destruct (Z.eqb_spec (exclusiveOwner s) (CallingTokenID c)) as [?|_]; [done|].
  cbn in Hbusy. by zbool.
Qed.
Lemma moves_claim c b a i force : Runs (moved (claim_move (CallingTokenID c))) (ClaimInterface c b a i force : M Z).
Proof.
  unfold ClaimInterface. apply runs_bind; [apply _|apply moved_fixed; runs|]. intros []; cbn [negb]; [|runs].
  unfold unless_null. apply runs_get. intros m0. apply runs_if; [|runs].
  apply runs_bind; [apply _|apply moved_fixed, runs_through; by intros ? []|]. intros ret. destruct (ret =? UEC_OK); cbn [negb]; [|runs].
  apply runs_bind; [apply _|apply moves_notify|]. runs.
Qed.
Lemma moves_release_state b a i t : Runs (moved (claim_move t)) (ReleaseClaimState b a i t : M _).
Proof.
  intros m. unfold ReleaseClaimState. cbv zeta. rewrite bind_run. unfold claim_at, gets. cbn [fst snd].
  set (k := MakeClaimKey b a i). destruct (claimStateMap_ m !! k) as [s|] eqn:Hs; [|reflexivity].
  destruct (Z.eqb_spec (exclusiveOwner s) t) as [Ho|Ho].
  - assert (∀ x y, claims ((drop_recipient s;; (if normalClaimed s then put_claim k (without_owner s);; mret x
      else erase_claim k;; mret y)) m : (Z * bool) * US).2 = (partial_alter (λ _, disown s) k (claimStateMap_ m), unwatch s (claims m).1.2, (claims m).2)) as E1.
    { intros x y. rewrite <- disown_claims. rewrite !bind_run. by destruct (normalClaimed s); rewrite bind_run. }
    apply rtc_once. rewrite E1. by apply move_disown.
  - destruct (Z.eqb_spec (exclusiveOwner s) 0) as [Hz|Hz]; cbn [negb].
    + destruct (normalClaimed s) eqn:Hn; [|reflexivity]. apply rtc_once. rewrite !bind_run, ret_run. cbn [snd].
      rewrite erase_claim_claims. by apply (move_forget t k s).
    + destruct (normalClaimed s) eqn:Hn; [|reflexivity]. apply rtc_once. rewrite !bind_run, ret_run. cbn [snd].
      rewrite put_claim_claims. by apply (move_unshare t k s).
Qed.

(** *** The functions that are not about claims *)

#[local] Hint Extern 1 (Runs (fixed claims) (modify _)) => (apply runs_modify; intros []; exact eq_refl) : runs.
#[local] Hint Extern 1 (Runs (fixed claims) (on_host_manager _ _)) => (apply runs_through; by intros ? []) : runs.
#[local] Hint Extern 2 (Runs (fixed claims) (effect _)) => (apply runs_modify; intros []; exact eq_refl) : runs.
#[local] Hint Extern 5 (Runs (moved _) _) => (apply moved_fixed) : runs.

Lemma claims_notify info : Runs (fixed claims) (NotifyDeviceConnection info : M ()).
Proof. unfold NotifyDeviceConnection, tell. apply runs_get. intros m. destruct (info_type_ info); runs. Qed.
Lemma claims_add_recipient remote r : (∀ x, r ≠ ClaimDeath x) → Runs (fixed claims) (add_recipient remote r : M bool).
Proof.
  intros Hr. unfold add_recipient. runs. apply runs_modify. intros []. unfold fixed, claims. cbn. rewrite omap_app.
  destruct r; cbn; rewrite ?app_nil_r; try done. by destruct (Hr r).
Qed.
Lemma claims_remove_recipient remote r : (∀ x, r ≠ ClaimDeath x) → Runs (fixed claims) (RemoveDeathRecipient remote r : M ()).
Proof.
  intros Hr. apply runs_modify. intros []. unfold fixed, claims. cbn. rewrite omap_remove_one_None; [done|].
  destruct r; try done. by destruct (Hr r).
Qed.
Hint Resolve claims_notify : runs.
Lemma claims_drop_listener remote : Runs (fixed claims) (drop_listener remote : M ()).
Proof. unfold drop_listener. apply runs_get. intros m. apply runs_if; [|runs]. apply runs_bind; [apply _|by apply claims_remove_recipient|runs]. Qed.
Lemma claims_register c cb : Runs (fixed claims) (RegisterConnectionListener c cb : M Z).
Proof.
  unfold RegisterConnectionListener. destruct cb as [remote|]; [|runs]. runs; [by apply claims_add_recipient|].
  unfold tell. destruct (info_type_ _); runs.
Qed.
Lemma claims_unregister c cb : Runs (fixed claims) (UnRegisterConnectionListener c cb : M Z).
Proof. unfold UnRegisterConnectionListener. runs. apply claims_drop_listener. Qed.
Lemma claims_remove_connections b a : Runs (fixed claims) (RemoveAllDeviceConnections b a : M ()).
Proof. unfold RemoveAllDeviceConnections, put_connections. runs. Qed.
Lemma claims_remove_connection c b a : Runs (fixed claims) (RemoveDeviceConnection c b a : M ()).
Proof. unfold RemoveDeviceConnection, put_connections. runs. Qed.
Lemma claims_add_connection c b a : Runs (fixed claims) (AddDeviceConnection char_signed c b a : M _).
Proof. unfold AddDeviceConnection, put_connections. runs. Qed.
Hint Resolve claims_drop_listener claims_remove_connections claims_remove_connection claims_add_connection : runs.
Lemma claims_open c b a : Runs (fixed claims) (OpenDevice char_signed c b a : M _).
Proof. unfold OpenDevice, permitted. sruns. Qed.
Lemma moves_close c b a : Runs (moved (claim_move (CallingTokenID c))) (Close c b a : M Z).
Proof.
  unfold Close, permitted. runs; [apply moves_remove_exclusive|]. unfold unless_null. runs.
Qed.
Lemma moves_release c b a i : Runs (moved (claim_move (CallingTokenID c))) (ReleaseInterface c b a i : M Z).
Proof. unfold ReleaseInterface. runs; [apply moves_release_state|]. unfold unless_null. runs. Qed.

(** *** Steps *)

Lemma moves_perform c b a r : Runs (moved (claim_move (CallingTokenID c))) (perform char_signed c b a r : M _).
Proof.
  destruct r; cbn [perform]; unfold code_only, code_of.
  1: apply moved_fixed, claims_open.
  all: apply runs_bind; [apply _| |runs].
  1: apply moves_close.
  2: apply moves_claim.
  2: apply moves_claim_exclusive.
  2: apply moves_release.
  all: apply moved_fixed; unfold ResetDevice, SetInterface, SetActiveConfig, UsbAttachKernelDriver, UsbDetachKernelDriver, ClearHalt,
    GetActiveConfig, GetRawDescriptor, GetFileDescriptor, BulkTransferRead, BulkTransferReadwithLength, BulkTransferWrite,
    ControlTransfer, UsbControlTransfer, RequestQueue, RequestWait, RequestCancel, RegBulkCallback, UnRegBulkCallback,
    UsbCancelTransfer, BulkCancel, UsbSubmitTransfer, BulkRead, BulkWrite, GetDeviceSpeed, GetInterfaceActiveStatus, bulk_shared, forward, forward_out, permitted,
    CheckExclusiveTransfer, claim_at, report_denied, report_failed, report_submit, with_target, find_endpoint; sruns.
Qed.
(** A departure: the claims on the device first, then those the service itself may have. *)
Lemma departure_moves c b a m : ∃ v,
  rtc (claim_gone (claim_prefix b a)) (claims m) v ∧ rtc (claim_move (CallingTokenID c)) v (claims (DelDevice c b a m).2).
Proof.
  unfold DelDevice. rewrite !bind_run.
  set (m1 := (RemoveAllDeviceConnections b a m).2). assert (claims m1 = claims m) as E1 by apply claims_remove_connections.
  set (m2 := (RemoveAllClaimByDevice b a m1).2). exists (claims m2). split; [rewrite <- E1; apply moves_remove_all|].
  set (m3 := (Close c b a m2).2). transitivity (claims m3); [apply moves_close|].
  apply (moved_fixed (claim_move (CallingTokenID c))). unfold unless_null, GetDeviceVidPidSerialNumber. runs.
Qed.

Lemma death_claims r m :
  claims (ClaimDeath_OnRemoteDied r m).2 = (claim_death (claimStateMap_ m) r, (claims m).1.2, (claims m).2).
Proof.
  unfold ClaimDeath_OnRemoteDied, claim_death. cbv zeta. rewrite bind_run. unfold claim_at, gets, key_of_recipient. cbn [fst snd].
  set (k := MakeClaimKey _ _ _). destruct (claimStateMap_ m !! k) as [s|]; [|done].
  destruct (exclusiveOwner s =? tokenId_ r); cbn [negb]; [|done]. unfold disown. destruct (normalClaimed s).
  - apply put_claim_claims.
  - rewrite !bind_run, ret_run. cbn [snd]. etransitivity; [|apply erase_claim_claims]. apply runs_through. by intros ? [].
Qed.
Lemma recipients_died c l m :
  claims (for_each (λ p, recipient_died c p.1 p.2) l m).2 =
  (foldl claim_death (claimStateMap_ m) (omap (λ p, match p.2 with ClaimDeath r => Some r | _ => None end) l),
   (claims m).1.2, (claims m).2).
Proof.
  revert m. induction l as [|[remote r] l IH]; intros m; [done|]. cbn [for_each]. rewrite bind_run, IH. cbn [omap list_omap fst snd].
  assert (∀ m' : US, claims m' = claims m → (foldl claim_death (claimStateMap_ m')
    (omap (λ p, match p.2 with ClaimDeath r => Some r | _ => None end) l), (claims m').1.2, (claims m').2) =
    (foldl claim_death (claimStateMap_ m) (omap (λ p, match p.2 with ClaimDeath r => Some r | _ => None end) l),
     (claims m).1.2, (claims m).2)) as Hsame.
  { intros m' E0. rewrite E0. by injection E0 as -> _ _. }
  destruct r as [p t| |fd t|r]; cbn [recipient_died].
  - apply Hsame, claims_of_news, quiet_serial_death.
  - apply Hsame, claims_drop_listener.
  - apply Hsame, claims_of_news, quiet_accessory_death.
  - cbn [foldl fst snd].
    assert (claims (ClaimDeath_OnRemoteDied r m).2 = (claim_death (claimStateMap_ m) r, (claims m).1.2, (claims m).2)) as E1
      by apply death_claims.
    rewrite E1. by injection E1 as -> _ _.
Qed.
Lemma remote_died_claims c remote m : claims (remote_died c remote m).2 = claim_died remote (claims m).
Proof.
  unfold remote_died. rewrite !bind_run. cbn [get fst snd]. rewrite recipients_died. unfold claim_died, died_with. cbn [claims fst snd].
  destruct m as [? ? ? ? ? ? ? ? ? ? ? l]; cbn. rewrite dead_recipients, live_recipients. done.
Qed.

(** A caller's request, and the events of the driver about the device of [pfx]. *)
Lemma other_claims c m m' : other_step char_signed c m m' → claims m' = claims m.
Proof. intros Ho. by apply claims_of_news, (other_quiet char_signed c). Qed.

(** An event of the driver is a departure or leaves the claims. *)
Lemma event_claims c info m : let m' := (DeviceEvent char_signed c info m).2 in
  match event_label info with
  | L_departure b a => claims m' = claims (DelDevice c b a m).2
  | _ => claims m' = claims m
  end.
Proof.
  cbv zeta. pose proof (event_quiet char_signed c info m) as He. cbv zeta in He.
  destruct (event_label info); by apply claims_of_news.
Qed.
Lemma step_claims c l m m' : service_step char_signed c m l m' →
  match l with
  | L_request _ _ _ => rtc (claim_move (CallingTokenID c)) (claims m) (claims m')
  | L_departure b a => in_u8 b ∧ in_u8 a ∧ ∃ v,
      rtc (claim_gone (claim_prefix b a)) (claims m) v ∧ rtc (claim_move (CallingTokenID c)) v (claims m')
  | L_death remote => claims m' = claim_died remote (claims m)
  | _ => claims m' = claims m
  end.
Proof.
  destruct 1 as [b a r Hb Ha|cb|cb|b a Hb Ha|info|remote|m' Ho|m' Ho].
  - apply moves_perform.
  - apply claims_register.
  - apply claims_unregister.
  - split; [done|]. split; [done|]. apply departure_moves.
  - pose proof (event_claims c info m) as He. cbv zeta in He. unfold event_label in *. destruct (_ || _); [done|].
    split; [apply to_u8_range|]. split; [apply to_u8_range|]. rewrite He. apply departure_moves.
  - apply remote_died_claims.
  - by apply (other_claims c).
  - by apply claims_of_news, (life_quiet c).
Qed.

(** *** What the loops leave *)

(** A loop whose body does [g] to the claim it is given. *)
Lemma each_claim_table b a (body : string → ClaimInterfaceState → M ()) g m :
  (∀ k s m, claimStateMap_ m !! k = Some s → claimStateMap_ (body k s m).2 = partial_alter (λ _, g s) k (claimStateMap_ m)) →
  ∀ k, claimStateMap_ (each_claim b a body m).2 !! k =
    match claimStateMap_ m !! k with
    | Some s => if String.prefix (claim_prefix b a) k then g s else Some s
    | None => None
    end.
Proof.
  intros Hb. unfold each_claim. rewrite bind_run. cbn [get fst snd].
  destruct (sorted_keys_spec (claimStateMap_ m)) as [Hnd Hin].
  set (round := λ key, s ← claim_at key; _). cut (∀ l m, NoDup l → ∀ k, claimStateMap_ (for_each round l m).2 !! k =
    if decide (k ∈ l) then match claimStateMap_ m !! k with
      | Some s => if String.prefix (claim_prefix b a) k then g s else Some s | None => None end else claimStateMap_ m !! k).
  { intros Hc k. rewrite Hc by done. destruct (decide (k ∈ _)) as [|Hk]; [done|]. rewrite Hin in Hk.
    destruct (claimStateMap_ m !! k); [|done]. by destruct Hk. }
  clear m Hnd Hin. intros l m Hnd. revert m. induction Hnd as [|k0 l Hk0 Hnd IH]; intros m k; [done|].
  cbn [for_each]. rewrite bind_run, IH. clear IH.
  assert (claimStateMap_ (round k0 m).2 !! k = if decide (k = k0) then match claimStateMap_ m !! k with
      | Some s => if String.prefix (claim_prefix b a) k then g s else Some s | None => None end else claimStateMap_ m !! k) as ->.
  { unfold round. rewrite bind_run. unfold claim_at, gets. cbn [fst snd].
    destruct (claimStateMap_ m !! k0) as [s|] eqn:Hs; [destruct (String.prefix _ k0) eqn:Hp|]; cbn [snd].
    - rewrite (Hb k0 s m Hs). destruct (decide (k = k0)) as [->|]; [by rewrite lookup_partial_alter_eq, Hs, Hp|by rewrite lookup_partial_alter_ne].
    - case_decide; [subst k|done]. by rewrite ret_run, Hs, Hp.
    - case_decide; [subst k|done]. by rewrite ret_run, Hs. }
  destruct (decide (k = k0)) as [->|Hk].
  - rewrite decide_False by done. by rewrite decide_True by left.
  - destruct (decide (k ∈ l)); [by rewrite decide_True by (by right)|]. rewrite decide_False; [done|].
    by intros [?|?]%elem_of_cons.
Qed.
Lemma remove_all_table b a m k : claimStateMap_ (RemoveAllClaimByDevice b a m).2 !! k =
  if String.prefix (claim_prefix b a) k then None else claimStateMap_ m !! k.
Proof.
  unfold RemoveAllClaimByDevice. rewrite (each_claim_table b a _ (λ _, None)).
  - destruct (claimStateMap_ m !! k); by destruct (String.prefix _ _).
  - intros k' s m' _. rewrite bind_run. etransitivity; [exact (f_equal (λ v, v.1.1) (erase_claim_claims k' (drop_recipient s m').2))|].
    cbn [fst]. by rewrite drop_recipient_table.
Qed.
Lemma remove_exclusive_table b a t m k : claimStateMap_ (RemoveExclusiveClaimByDevice b a t m).2 !! k =
  match claimStateMap_ m !! k with
  | Some s => if String.prefix (claim_prefix b a) k && (exclusiveOwner s =? t) then disown s else Some s
  | None => None
  end.
Proof.
  unfold RemoveExclusiveClaimByDevice. rewrite (each_claim_table b a _ (λ s, if exclusiveOwner s =? t then disown s else Some s)).
  - destruct (claimStateMap_ m !! k) as [s|]; [|done]. by destruct (String.prefix _ _), (exclusiveOwner s =? t).
  - intros k' s m' Hs. destruct (exclusiveOwner s =? t); cbn [negb].
    + exact (f_equal (λ v, v.1.1) (disown_claims k' s m')).
    + rewrite ret_run. apply map_eq. intros k0. cbn [snd]. destruct (decide (k0 = k')) as [->|];
        [by rewrite lookup_partial_alter_eq|by rewrite lookup_partial_alter_ne].
Qed.
Lemma close_table c b a m k : claimStateMap_ (Close c b a m).2 !! k =
  if (HasRight c (device_key b a) m).1 then match claimStateMap_ m !! k with
    | Some s => if String.prefix (claim_prefix b a) k && (exclusiveOwner s =? CallingTokenID c) then disown s else Some s
    | None => None
    end else claimStateMap_ m !! k.
Proof.
  unfold Close, permitted. rewrite bind_run. unfold CheckDevicePermission. set (m1 := (HasRight c (device_key b a) m).2).
  assert (claimStateMap_ m1 = claimStateMap_ m) as E1.
  { assert (claims m1 = claims m) as E1 by apply (runs_has_right claims). by injection E1. }
  destruct (HasRight c (device_key b a) m).1; cbn [negb]; [|by rewrite ret_run, <- E1].
  rewrite bind_run. set (m2 := (RemoveExclusiveClaimByDevice b a (CallingTokenID c) m1).2).
  match goal with |- claimStateMap_ (?f m2).2 !! k = _ => assert (fixed claims m2 (f m2).2) as [= -> _ _] by (apply (moved_fixed_at m2); unfold unless_null; runs) end.
  unfold m2. by rewrite remove_exclusive_table, E1.
Qed.
Lemma departure_table c b a m k : String.prefix (claim_prefix b a) k = true → claimStateMap_ (DelDevice c b a m).2 !! k = None.
Proof.
  intros Hp. unfold DelDevice. rewrite !bind_run. set (m1 := (RemoveAllDeviceConnections b a m).2).
  set (m2 := (RemoveAllClaimByDevice b a m1).2). set (m3 := (Close c b a m2).2).
  match goal with |- claimStateMap_ (?f m3).2 !! k = _ => assert (fixed claims m3 (f m3).2) as [= -> _ _] by (apply (moved_fixed_at m3); unfold unless_null, GetDeviceVidPidSerialNumber; runs) end.
  unfold m3. rewrite close_table. unfold m2. rewrite !remove_all_table, Hp. by destruct (HasRight c _ _).1.
Qed.
End Sim.
