(* ===== verification/UsbServiceConnProofs.v ===== *)
(** * The service: listeners know the connections

    What a listener can tell from its notifications, and that every step keeps it
    in agreement with the table of connections. *)
From S2P Require Import Prelude UsbErrors Platform UsbAccessory UsbDevice UsbDescriptorParser UsbPortManager UsbDeviceManager SerialManager UsbInterfaceType UsbHostManager UsbHostPolicy UsbHostProofs UsbHostDescriptor UsbHostTransfer UsbService UsbServiceClaims UsbServiceHost UsbServiceDevice UsbServiceSerial UsbServiceLife UsbServiceSteps UsbServiceFrames.

(** ** What a listener knows *)

(** An application on a device: the key of the device and the user. *)
Abbreviation Use := (string * Z)%type.
(** The last notification about an application decides. *)
Fixpoint know (base : Use → bool) (l : list (bool * Use)) (x : Use) : bool :=
  match l with [] => base x | (b, y) :: l => if decide (x = y) then b else know base l x end.
Definition heard_effect (cb : RemoteObject) (e : ServiceEffect) : option (bool * Use) :=
  match e with
  | DeviceConnected cb' d uid _ => if cb' =? cb then Some (true, (key_of d, uid)) else None
  | DeviceDisconnected cb' d uid _ => if cb' =? cb then Some (false, (key_of d, uid)) else None
  | _ => None
  end.
Definition heard (cb : RemoteObject) (es : list ServiceEffect) : list (bool * Use) := omap (heard_effect cb) es.
Definition uses (ds : gmap string DeviceConnectionRecord) (x : Use) : bool :=
  match ds !! x.1 with Some r => bool_decide (is_Some (apps r !! x.2)) | None => false end.

Lemma know_app base l1 l2 x : know base (l1 ++ l2) x = know (know base l2) l1 x.
Proof. induction l1 as [|[b y] l1 IH]; [done|]. cbn. by destruct (decide (x = y)). Qed.
Lemma know_ext base base' l : (∀ x, base x = base' x) → ∀ x, know base l x = know base' l x.
Proof. intros Hb. induction l as [|[b y] l IH]; intros x; [apply Hb|]. cbn. by destruct (decide (x = y)). Qed.
Lemma heard_app cb l1 l2 : heard cb (l1 ++ l2) = heard cb l1 ++ heard cb l2.
Proof. apply omap_app. Qed.
(** Notifications that all say the same of an application. *)
Lemma know_same base b l x : (∀ y, y ∈ l → y.1 = b) →
  know base l x = if decide ((b, x) ∈ l) then b else base x.
Proof.
  induction l as [|[b' y] l IH]; intros Hl; [done|]. cbn. assert (b' = b) as -> by (apply (Hl (b', y)); left).
  destruct (decide (x = y)) as [->|Hx]; [by rewrite decide_True by left|]. rewrite IH by (intros z Hz; apply Hl; by right).
  destruct (decide ((b, x) ∈ l)) as [Hi|Hi]; [by rewrite decide_True by (by right)|]. rewrite decide_False; [done|].
  intros [?|?]%elem_of_cons; [congruence|done].
Qed.

(** ** The table of connections *)

(** Records are stored under the key of their device. *)
Definition conn_wf (ds : gmap string DeviceConnectionRecord) : Prop := map_Forall (λ k r, k = key_of (device r)) ds.

(** *** The address of a device that was read *)

Section Info.
Context {W R SM : Type} `{!HostPlatform W R, !PortList SM, !ErrCodeBase}.
Context (char_signed : bool).

Definition at_key (b a : Z) (d : UsbDevice.t) : Prop := UsbDevice.busNum_ d = b ∧ UsbDevice.devAddr_ d = a.
Lemma at_key_key b a d : at_key b a d → key_of d = device_key b a.
Proof. unfold key_of. by intros [-> ->]. Qed.

Lemma descriptor_address b a l d (m : UsbHostManager W SM) l' d' :
  (UsbHostDescriptor.GetDeviceInfoDescriptor b a l d m).1 = Done (UEC_OK, l', d') → at_key b a d'.
Proof.
  unfold UsbHostDescriptor.GetDeviceInfoDescriptor. rewrite bind_run. destruct (UsbHostManager.GetRawDescriptor b a l m) as [[ret l0] m1]. cbn [fst snd].
  destruct (ret =? UEC_OK) eqn:Hret; cbn [negb]; [|rewrite ret_run; cbn; intros [= -> _ _]; by rewrite Z.eqb_refl in Hret].
  cbv zeta. destruct (_ || _); [rewrite ret_run; cbn; intros [= Hu _ _]; by apply uec_not_OK in Hu|].
  unfold UsbDescriptorParser.ParseDeviceDescriptor.
  destruct (_ =? 0); [cbn; intros [= Hu _ _]; by apply uec_not_OK in Hu|].
  destruct (_ <? _); [cbn; intros [= Hu _ _]; by apply uec_not_OK in Hu|].
  destruct (read_at _ _ _ _) as [x|]; [|done]. destruct (negb _); [cbn; intros [= Hu _ _]; by apply uec_not_OK in Hu|].
  cbn. intros [= _ <-]. by destruct d.
Qed.
Lemma strings_address d (m : UsbHostManager W SM) b a :
  at_key b a d → at_key b a (FillDevStrings char_signed d m).1.2.
Proof. unfold FillDevStrings. cbv zeta. intros Hd. rewrite !bind_run, ret_run. cbn. by destruct d. Qed.
Lemma info_address b a (m : UsbHostManager W SM) d :
  (UsbHostDescriptor.GetDeviceInfo char_signed b a UsbDevice.default_ m).1 = Done (UEC_OK, d) → at_key b a d.
Proof.
  unfold UsbHostDescriptor.GetDeviceInfo. rewrite !bind_run. destruct (Z.eqb_spec (UsbHostManager.OpenDevice b a (wait_path RETRY_NUM b a m).2).1 UEC_OK) as [|Hn]; cbn [negb];
    [|cbn; intros [= ? _]; done].
  rewrite bind_run. set (m1 := (UsbHostManager.OpenDevice b a _).2).
  pose proof (descriptor_address b a [] UsbDevice.default_ m1) as Ha.
  destruct (UsbHostDescriptor.GetDeviceInfoDescriptor b a [] UsbDevice.default_ m1) as [[[[ret l] d0]| |] m2]; cbn [fst snd] in *; [|done..].
  destruct (Z.eqb_spec ret UEC_OK) as [->|Hr]; cbn [negb].
  - specialize (Ha l d0 eq_refl). rewrite bind_run. unfold UsbHostDescriptor.GetConfigDescriptor.
    destruct (UsbDescriptorParser.ParseConfigDescriptors l CURSOR_INIT []) as [[ret cs]| |]; [|done..].
    destruct (Z.eqb_spec ret UEC_OK) as [->|Hr]; cbn [negb].
    + rewrite bind_run. pose proof (strings_address (set_configs cs d0) m2 b a) as Hf.
      destruct (FillDevStrings char_signed (set_configs cs d0) m2) as [[r2 d2] m3]. cbn [fst snd] in *. rewrite ret_run. cbn [fst snd].
      rewrite bind_run. assert (at_key b a d2) as Hd2 by (apply Hf; by destruct d0).
      destruct (Z.eqb_spec (UsbHostManager.Close b a m3).1 UEC_OK); cbn; intros [= ? Hd]; by subst.
    + cbn. rewrite bind_run. destruct (Z.eqb_spec (UsbHostManager.Close b a m2).1 UEC_OK); cbn; intros [= ? Hd]; by subst.
  - rewrite bind_run. destruct (Z.eqb_spec (UsbHostManager.Close b a m2).1 UEC_OK); cbn; intros [= ? _]; congruence.
Qed.
End Info.

(** ** Steps of the service *)

Section Conn.
Context {W R D SerialPort SerialAttribute RM DM AM PM P : Type}.
Context `{!HostPlatform W R, !HostTransferPlatform W, !TableOrder, !CJson, !SerialInterface D SerialPort SerialAttribute}.
Context `{!PortList (SerialManager D SerialPort)}.
Context `{!SerialPortInfo P D SerialPort SerialAttribute, !RightService RM, !DeviceService DM, !AccessoryService AM}.
Context `{!PortService PM, !ServicePlatform P, !ErrCodeBase}.
Context (char_signed : bool).
Abbreviation SMgr := (SerialManager D SerialPort).
Abbreviation US := (UsbService RM (HostTransfers W SMgr) DM AM PM P).
Abbreviation M := (state US).
Implicit Types m : US.

Definition is_conn (e : ServiceEffect) : bool :=
  match e with DeviceConnected _ _ _ _ | DeviceDisconnected _ _ _ _ => true | _ => false end.
(** The notifications, newest first, and the view they are about. *)
Definition told m : list ServiceEffect := List.filter is_conn (effects_ m).
Definition conn m := (deviceConnectionMap_ m, deviceListeners_ m, told m).
#[export] Instance asks_conn : Asks conn.
Proof. split; [by intros ? []|by intros ? []|]. by intros [] [] Hf. Qed.
Lemma filter_filter_bool {A} (f g : A → bool) l : (∀ x, f x = true → g x = true) →
  List.filter f (List.filter g l) = List.filter f l.
Proof.
  intros Hfg. induction l as [|x l IH]; [done|]. cbn. destruct (g x) eqn:Hg; cbn; rewrite IH; [done|].
  destruct (f x) eqn:Hf; [|done]. by rewrite Hfg in Hg.
Qed.
Lemma conn_of_news m m' : fixed news m m' → fixed conn m m'.
Proof.
  unfold fixed, news, conn, told. intros [= _ E2 E3 _ E5]. rewrite E2, E3. f_equal.
  rewrite <- (filter_filter_bool is_conn is_news (effects_ m')), E5, filter_filter_bool; [done|..]; by intros [].
Qed.

(** The listeners stay, and what they hear takes them from the old table to the new. *)
Definition informs m m' : Prop := conn_wf (deviceConnectionMap_ m) →
  conn_wf (deviceConnectionMap_ m') ∧ deviceListeners_ m' = deviceListeners_ m ∧
  ∃ l, told m' = l ++ told m ∧ ∀ cb,
    (cb ∈ deviceListeners_ m → ∀ x, know (uses (deviceConnectionMap_ m)) (heard cb l) x = uses (deviceConnectionMap_ m') x) ∧
    (cb ∉ deviceListeners_ m → heard cb l = []).
#[export] Instance informs_preorder : PreOrder informs.
Proof.
  split.
  - intros m Hm. split; [done|]. split; [done|]. by exists [].
  - intros m1 m2 m3 Hi1 Hi2 Hm. destruct (Hi1 Hm) as (Hm2 & El & l1 & E1 & Hl1). destruct (Hi2 Hm2) as (Hm3 & El2 & l2 & E2 & Hl2).
    split; [done|]. split; [congruence|]. exists (l2 ++ l1). split; [by rewrite E2, E1, app_assoc|]. intros cb. split.
    + intros Hcb x. rewrite heard_app, know_app. rewrite (know_ext _ (uses (deviceConnectionMap_ m2))); [|by apply Hl1].
      apply Hl2. by rewrite El.
    + intros Hcb. rewrite heard_app, (proj2 (Hl1 cb) Hcb), (proj2 (Hl2 cb)); [done|]. by rewrite El.
Qed.
Lemma informs_fixed {A} (f : M A) : Runs (fixed conn) f → Runs informs f.
Proof.
  apply runs_weaken. intros m m' E1 Hm. injection E1 as E1 E2 E3. rewrite E1, E2. split; [done|]. split; [done|]. by exists [].
Qed.

(** What a notification is to the listener. *)
Definition says (info : UsbDeviceConnectionInfo) : bool * Use :=
  (match info_type_ info with USB_DEVICE_CONNECTION_CONNECT => true | USB_DEVICE_CONNECTION_DISCONNECT => false end,
   (key_of (info_device info), info_uid info)).
Lemma tell_told info cb m : ∃ e, told (tell info cb m).2 = e :: told m ∧
  deviceConnectionMap_ (tell info cb m).2 = deviceConnectionMap_ m ∧ deviceListeners_ (tell info cb m).2 = deviceListeners_ m ∧
  ∀ cb', heard_effect cb' e = if cb =? cb' then Some (says info) else None.
Proof.
  unfold tell, says. destruct info as [[] d uid bundle]; cbn [info_type_ info_device info_uid info_bundleName];
    eexists; (split; [by destruct m|]); (split; [by destruct m|]); (split; [by destruct m|]); intros cb'; cbn; done.
Qed.
(** A loop of notifications: everyone of the list hears, in some number, the same. *)
Lemma tell_all info ls m : let m' := (for_each (tell info) ls m).2 in
  deviceConnectionMap_ m' = deviceConnectionMap_ m ∧ deviceListeners_ m' = deviceListeners_ m ∧
  ∃ l, told m' = l ++ told m ∧ ∀ cb, (∀ y, y ∈ heard cb l ↔ y = says info ∧ cb ∈ ls).
Proof.
  cbv zeta. revert m. induction ls as [|c ls IH]; intros m; cbn [for_each].
  - split; [done|]. split; [done|]. exists []. split; [done|]. intros cb y. split; [by intros ?%not_elem_of_nil|by intros [_ ?%not_elem_of_nil]].
  - rewrite bind_run. destruct (tell_told info c m) as (e & Et & Ed & El & He). destruct (IH (tell info c m).2) as (Ed' & El' & l & Et' & Hl).
    split; [congruence|]. split; [congruence|]. exists (l ++ [e]). split; [by rewrite Et', Et, <- app_assoc|].
    intros cb y. rewrite heard_app, elem_of_app, Hl, elem_of_cons. unfold heard. cbn. rewrite He.
    destruct (Z.eqb_spec c cb) as [->|Hc].
    + rewrite list_elem_of_singleton. split; [intros [[-> _]| ->]; split; auto|intros [-> _]; by right].
    + split; [intros [[-> ?]|?%not_elem_of_nil]; [split; auto|done]|intros [-> [?|?]]; [congruence|by left]].
Qed.
(** Notifications about a change of the table that they describe. *)
Lemma notify_informs infos b m ds' : conn_wf ds' → (∀ info, info ∈ infos → (says info).1 = b) →
  (∀ x, uses ds' x = if decide ((b, x) ∈ map says infos) then b else uses (deviceConnectionMap_ m) x) →
  informs m (for_each NotifyDeviceConnection infos (put_connections ds' m).2).2.
Proof.
  intros Hwf Hb Hx Hm. set (m0 := (put_connections ds' m).2).
  assert (∀ infos m0, let m1 := (for_each NotifyDeviceConnection infos m0).2 in
    deviceConnectionMap_ m1 = deviceConnectionMap_ m0 ∧ deviceListeners_ m1 = deviceListeners_ m0 ∧
    ∃ l, told m1 = l ++ told m0 ∧ ∀ cb y, y ∈ heard cb l ↔ y ∈ map says infos ∧ cb ∈ deviceListeners_ m0) as Hall.
  { clear. intros infos. induction infos as [|info infos IH]; intros m0; cbn [for_each map].
    - split; [done|]. split; [done|]. exists []. split; [done|]. intros cb y. split; [by intros ?%not_elem_of_nil|by intros [?%not_elem_of_nil _]].
    - rewrite bind_run. unfold NotifyDeviceConnection at 2 4 6. rewrite bind_run. cbn [get fst snd].
      pose proof (tell_all info (deviceListeners_ m0) m0) as (Ed & El & l & Et & Hl).
      set (m1 := (for_each (tell info) (deviceListeners_ m0) m0).2) in *. destruct (IH m1) as (Ed' & El' & l' & Et' & Hl').
      split; [congruence|]. split; [congruence|]. exists (l' ++ l). split; [by rewrite Et', Et, app_assoc|].
      intros cb y. rewrite heard_app, elem_of_app, Hl, Hl', El, elem_of_cons. tauto. }
  destruct (Hall infos m0) as (Ed & El & l & Et & Hl). assert (deviceConnectionMap_ m0 = ds' ∧ deviceListeners_ m0 = deviceListeners_ m ∧ told m0 = told m) as (E1 & E2 & E3) by by destruct m.
  rewrite Ed, E1, El, E2. split; [done|]. split; [done|]. exists l. split; [by rewrite Et, E3|]. intros cb. split.
  - intros Hcb x. rewrite Hx, (know_same _ b).
    + destruct (decide ((b, x) ∈ heard cb l)) as [Hi|Hi]; rewrite Hl, E2 in Hi.
      * by rewrite decide_True by apply Hi.
      * rewrite decide_False; [done|]. tauto.
    + intros y Hy. apply Hl in Hy as [(info & <- & Hi)%list_elem_of_In%in_map_iff _]. apply Hb, list_elem_of_In, Hi.
  - intros Hcb. destruct (heard cb l) as [|y h] eqn:Eh; [done|]. exfalso. apply Hcb. rewrite <- E2. apply (Hl cb y). rewrite Eh. by left.
Qed.
Lemma notify_one info b m ds' : conn_wf ds' → (says info).1 = b →
  (∀ x, uses ds' x = if decide (x = (says info).2) then b else uses (deviceConnectionMap_ m) x) →
  informs m (NotifyDeviceConnection info (put_connections ds' m).2).2.
Proof.
  intros Hwf Hb Hx. pose proof (notify_informs [info] b m ds' Hwf) as Hn. cbn [for_each map] in Hn. rewrite bind_run in Hn.
  apply Hn.
  - by intros info' ->%list_elem_of_singleton.
  - intros x. rewrite Hx. destruct (decide (x = (says info).2)) as [->|Hne].
    + rewrite decide_True; [done|]. apply list_elem_of_singleton. rewrite <- Hb. by destruct (says info).
    + rewrite decide_False; [done|]. intros E%list_elem_of_singleton. apply Hne. by rewrite <- E.
Qed.

#[local] Hint Extern 1 (Runs (fixed conn) (on_host_manager _ _)) => (apply runs_through; by intros ? []) : runs.
#[local] Hint Extern 1 (Runs (fixed conn) (modify _)) => (apply runs_modify; intros []; exact eq_refl) : runs.
#[local] Hint Extern 5 (Runs informs _) => (apply informs_fixed) : runs.

Lemma informs_add c b a : Runs informs (AddDeviceConnection char_signed c b a : M _).
Proof.
  intros m. unfold AddDeviceConnection. rewrite bind_run.
  set (r := on_host_manager _ _ m). assert (informs m r.2) as E1 by (revert m r; apply informs_fixed; runs).
  destruct r.1 as [[ret d]| |] eqn:Er; cbn [fst snd] in *; [|done..].
  destruct (Z.eqb_spec ret UEC_OK) as [->|]; cbn [negb]; [|done]. etransitivity; [exact E1|]. clear E1.
  assert (key_of d = device_key b a) as Hkey.
  { unfold r, on_host_manager, through, on_manager, zoom in Er. destruct (usbHostManager_ m) as [h|]; [|by injection Er as ?%uec_not_OK].
    destruct (UsbHostDescriptor.GetDeviceInfo char_signed b a UsbDevice.default_ (manager h)) as [x h'] eqn:Eg. cbn in Er. subst x.
    apply at_key_key, (info_address char_signed b a (manager h)). by rewrite Eg. }
  generalize r.2. clear r Er. intros m1. rewrite bind_run. set (m2 := (GetCallingInfo c m1).2).
  transitivity m2; [apply (informs_fixed (GetCallingInfo c)); runs|].
  destruct (GetCallingInfo c m1).1 as [[[bundle tk] u]|]; [|reflexivity].
  rewrite bind_run. cbn [get fst snd]. cbv zeta. rewrite !bind_run, ret_run. cbn [snd]. intros Hwf2.
  set (key := GetDeviceKey b a). set (old := match deviceConnectionMap_ m2 !! key with Some r => apps r | None => ∅ end).
  apply (notify_one _ true); [|done| |done].
  - apply map_Forall_insert_2; [|done]. symmetry. exact Hkey.
  - intros [k u']. unfold says, uses. cbn. rewrite Hkey. change (device_key b a) with key. destruct (decide ((k, u') = (key, CallingUid c))) as [[= -> ->]|Hne].
    + rewrite lookup_insert_eq. cbn. apply bool_decide_eq_true. rewrite lookup_insert_eq. by eexists.
    + destruct (decide (k = key)) as [->|Hk]; [|by rewrite lookup_insert_ne by congruence].
      rewrite lookup_insert_eq. cbn. rewrite lookup_insert_ne by congruence. unfold old.
      destruct (deviceConnectionMap_ m2 !! key); [done|]. by rewrite lookup_empty.
Qed.
Lemma informs_remove c b a : Runs informs (RemoveDeviceConnection c b a : M _).
Proof.
  intros m. unfold RemoveDeviceConnection. rewrite bind_run. set (m1 := (GetCallingInfo c m).2).
  transitivity m1; [apply (informs_fixed (GetCallingInfo c)); runs|].
  destruct (GetCallingInfo c m).1 as [[[bundle tk] u]|]; [|reflexivity].
  rewrite bind_run. cbn [get fst snd]. cbv zeta. set (key := GetDeviceKey b a).
  destruct (deviceConnectionMap_ m1 !! key) as [r|] eqn:Hr; [|reflexivity].
  destruct (apps r !! CallingUid c) as [x|] eqn:Hx; [|reflexivity]. rewrite bind_run.
  set (left := delete (CallingUid c) (apps r)). intros Hwf. pose proof (Hwf _ _ Hr) as Hkey. cbn in Hkey.
  apply (notify_one _ false); [|done| |done].
  - case_bool_decide; [by apply map_Forall_delete|by apply map_Forall_insert_2].
  - intros [k u']. unfold says, uses. cbn. rewrite <- Hkey.
    destruct (decide (k = key)) as [->|Hk].
    + rewrite Hr. case_bool_decide as He.
      * rewrite lookup_delete_eq. case_decide as Hu; [done|]. symmetry. apply bool_decide_eq_false. intros [y Hy].
        assert (left !! u' = Some y) as Hl by (unfold left; rewrite lookup_delete_ne; [done|congruence]). by rewrite He in Hl.
      * rewrite lookup_insert_eq. cbn. unfold left. case_decide as Hu; [injection Hu as ->; by rewrite lookup_delete_eq|].
        rewrite lookup_delete_ne by congruence. done.
    + rewrite decide_False by congruence. case_bool_decide; [by rewrite lookup_delete_ne|by rewrite lookup_insert_ne].
Qed.
Lemma informs_remove_all b a : Runs informs (RemoveAllDeviceConnections b a : M _).
Proof.
  intros m. unfold RemoveAllDeviceConnections. rewrite bind_run. cbn [get fst snd]. cbv zeta. set (key := GetDeviceKey b a).
  destruct (deviceConnectionMap_ m !! key) as [r|] eqn:Hr; [|reflexivity]. rewrite bind_run. intros Hwf.
  pose proof (Hwf _ _ Hr) as Hkey. cbn in Hkey. apply (notify_informs _ false); [by apply map_Forall_delete| | |done].
  - unfold connection_infos. intros info ([u bundle] & <- & _)%list_elem_of_In%in_map_iff. done.
  - intros [k u]. unfold uses. cbn.
    assert ((false, (k, u)) ∈ map says (connection_infos USB_DEVICE_CONNECTION_DISCONNECT r) ↔ k = key ∧ is_Some (apps r !! u)) as Hin.
    { unfold connection_infos. rewrite map_map, list_elem_of_In, in_map_iff. unfold says. cbn. split.
      - intros ([u' bundle] & [= E1 E2] & Hi). rewrite <- Hkey in E1. split; [done|]. exists bundle.
        apply list_elem_of_In in Hi. rewrite (proj2 (by_key_spec (apps r))) in Hi. apply elem_of_map_to_list in Hi. congruence.
      - intros [-> [bundle Hu]]. exists (u, bundle). split; [cbn; by rewrite <- Hkey|]. apply list_elem_of_In.
        rewrite (proj2 (by_key_spec (apps r))). by apply elem_of_map_to_list. }
    case_decide as Hi; rewrite Hin in Hi.
    + destruct Hi as [-> _]. by rewrite lookup_delete_eq.
    + destruct (decide (k = key)) as [->|Hk]; [|by rewrite lookup_delete_ne]. rewrite lookup_delete_eq, Hr.
      symmetry. apply bool_decide_eq_false. tauto.
Qed.

(** *** Listeners and deaths *)

#[local] Hint Resolve informs_add informs_remove informs_remove_all : runs.
Lemma conn_add_recipient remote r : Runs (fixed conn) (add_recipient remote r : M bool).
Proof. unfold add_recipient. runs. Qed.
Lemma conn_remove_recipient remote r : Runs (fixed conn) (RemoveDeathRecipient remote r : M ()).
Proof. unfold RemoveDeathRecipient. runs. Qed.
#[local] Hint Resolve conn_add_recipient conn_remove_recipient : runs.
Lemma conn_drop_recipient s : Runs (fixed conn) (drop_recipient s : M ()).
Proof. unfold drop_recipient. runs. Qed.
#[local] Hint Resolve conn_drop_recipient : runs.
Lemma conn_effect e : is_conn e = false → Runs (fixed conn) (effect e : M ()).
Proof. intros He. apply runs_modify. intros []. unfold fixed, conn, told. cbn. by rewrite He. Qed.
#[local] Hint Extern 2 (Runs (fixed conn) (effect _)) => (apply conn_effect; exact eq_refl) : runs.
Lemma conn_each_claim b a body : (∀ k s, Runs (fixed conn) (body k s)) → Runs (fixed conn) (each_claim b a body : M ()).
Proof. intros Hb. unfold each_claim, claim_at. runs. Qed.
Lemma conn_remove_exclusive b a t : Runs (fixed conn) (RemoveExclusiveClaimByDevice b a t : M ()).
Proof. apply conn_each_claim. unfold put_claim, erase_claim. intros. runs. Qed.
Lemma conn_remove_claims b a : Runs (fixed conn) (RemoveAllClaimByDevice b a : M ()).
Proof. apply conn_each_claim. unfold erase_claim. intros. runs. Qed.
Lemma conn_release_state b a i t : Runs (fixed conn) (ReleaseClaimState b a i t : M _).
Proof. unfold ReleaseClaimState, claim_at, put_claim, erase_claim. runs. Qed.
Lemma conn_notify_owner b a i t : Runs (fixed conn) (NotifyExclusiveOwner b a i t : M ()).
Proof. unfold NotifyExclusiveOwner, claim_at, put_claim. runs. Qed.
Lemma conn_register_callback k b a i t cb rep : Runs (fixed conn) (RegisterExclusiveCallback k b a i t cb rep : M ()).
Proof. unfold RegisterExclusiveCallback, claim_at, put_claim. runs. Qed.
#[local] Hint Resolve conn_remove_exclusive conn_remove_claims conn_release_state conn_notify_owner conn_register_callback : runs.

Lemma informs_open c b a : Runs informs (OpenDevice char_signed c b a : M _).
Proof. unfold OpenDevice, permitted, unless_null. runs. Qed.
Lemma informs_close c b a : Runs informs (Close c b a : M Z).
Proof. unfold Close, permitted, unless_null. runs. Qed.
Lemma informs_perform c b a r : Runs informs (perform char_signed c b a r : M _).
Proof.
  destruct r; cbn [perform]; unfold code_only, code_of.
  1: apply informs_open.
  all: apply runs_bind; [apply _| |runs].
  1: apply informs_close.
  all: apply informs_fixed; unfold ResetDevice, ClaimInterface, ClaimInterfaceExclusive, ReleaseInterface, SetInterface, SetActiveConfig,
    UsbAttachKernelDriver, UsbDetachKernelDriver, ClearHalt,
    GetActiveConfig, GetRawDescriptor, GetFileDescriptor, BulkTransferRead, BulkTransferReadwithLength, BulkTransferWrite,
    ControlTransfer, UsbControlTransfer, RequestQueue, RequestWait, RequestCancel, RegBulkCallback, UnRegBulkCallback,
    UsbCancelTransfer, BulkCancel, UsbSubmitTransfer, BulkRead, BulkWrite, GetDeviceSpeed, GetInterfaceActiveStatus, bulk_shared, forward, forward_out, permitted,
    CheckExclusiveTransfer, claim_at, report_denied, report_failed, report_submit, with_target, find_endpoint; sruns.
Qed.
Lemma informs_departure c b a : Runs informs (DelDevice c b a : M bool).
Proof.
  unfold DelDevice, unless_null, GetDeviceVidPidSerialNumber. apply runs_bind; [apply _|runs|]. intros _. apply runs_bind; [apply _|runs|]. intros _.
  apply runs_bind; [apply _|apply informs_close|]. runs.
Qed.

(** The listeners that hear nothing and may leave. *)
Definition quieter m m' : Prop := deviceConnectionMap_ m' = deviceConnectionMap_ m ∧ told m' = told m ∧
  ∀ cb, cb ∈ deviceListeners_ m' → cb ∈ deviceListeners_ m.
#[export] Instance quieter_preorder : PreOrder quieter.
Proof.
  split; [done|]. intros m1 m2 m3 (E1 & E2 & E3) (F1 & F2 & F3). split; [congruence|]. split; [congruence|]. auto.
Qed.
Lemma quieter_fixed {A} (f : M A) : Runs (fixed conn) f → Runs quieter f.
Proof. apply runs_weaken. intros m m' [= E1 E2 E3]. split; [done|]. split; [done|]. by rewrite E2. Qed.
#[local] Hint Extern 5 (Runs quieter _) => (apply quieter_fixed) : runs.
Lemma remove_one_elem (x y : Z) l : y ∈ remove_one x l → y ∈ l.
Proof. induction l as [|z l IH]; [done|]. cbn. case_decide; [by right|]. intros [->|Hy]%elem_of_cons; [left|right; by apply IH]. Qed.
Lemma quieter_drop remote : Runs quieter (drop_listener remote : M ()).
Proof.
  unfold drop_listener. apply runs_get. intros m0. apply runs_if; [|runs]. apply runs_bind; [apply _|runs|]. intros _.
  apply runs_modify. intros m. split; [by destruct m|]. split; [by destruct m|]. destruct m. cbn. intros cb. apply remove_one_elem.
Qed.
Lemma quieter_unregister c cb : Runs quieter (UnRegisterConnectionListener c cb : M Z).
Proof. unfold UnRegisterConnectionListener. destruct cb; runs. apply quieter_drop. Qed.
Lemma quieter_died c remote : Runs quieter (remote_died c remote : M ()).
Proof.
  unfold remote_died. apply runs_get. intros m0. cbv zeta. apply runs_bind; [apply _|runs|]. intros _. apply runs_for_each; [apply _|].
  intros [cb r]. cbn [fst snd]. destruct r as [p t| |fd t|r]; cbn [recipient_died].
  - apply quieter_fixed. apply (runs_weaken (fixed news)); [apply conn_of_news|]. apply quiet_serial_death.
  - apply quieter_drop.
  - apply quieter_fixed. apply (runs_weaken (fixed news)); [apply conn_of_news|]. apply quiet_accessory_death.
  - unfold ClaimDeath_OnRemoteDied, claim_at, put_claim, erase_claim. runs.
Qed.

(** *** A new listener *)

Lemma uses_pending ds x : conn_wf ds → (true, x) ∈ map says (pending ds) ↔ uses ds x = true.
Proof.
  intros Hwf. destruct x as [k u]. unfold uses, pending. cbn [fst snd]. rewrite list_elem_of_In, in_map_iff. split.
  - intros (info & Hs & Hi). apply list_elem_of_In, list_elem_of_join in Hi as (l & Hi & Hl).
    apply list_elem_of_In, in_map_iff in Hl as (key & <- & Hkey). destruct (ds !! key) as [r|] eqn:Hr; [|by apply not_elem_of_nil in Hi].
    apply list_elem_of_In, in_map_iff in Hi as ([u' bundle] & <- & Hi). unfold says in Hs. cbn in Hs. injection Hs as <- <-.
    rewrite <- (Hwf _ _ Hr : key = _), Hr. apply bool_decide_eq_true. exists bundle.
    apply list_elem_of_In in Hi. rewrite (proj2 (by_key_spec (apps r))) in Hi. by apply elem_of_map_to_list in Hi.
  - destruct (ds !! k) as [r|] eqn:Hr; [|done]. intros [bundle Hu]%bool_decide_eq_true.
    exists {| info_type_ := USB_DEVICE_CONNECTION_CONNECT; info_device := device r; info_uid := u; info_bundleName := bundle |}.
    split; [unfold says; cbn; by rewrite <- (Hwf _ _ Hr : k = _)|]. apply list_elem_of_In, list_elem_of_join.
    exists (connection_infos USB_DEVICE_CONNECTION_CONNECT r). split.
    + unfold connection_infos. apply list_elem_of_In, in_map_iff. exists (u, bundle). split; [done|]. apply list_elem_of_In.
      rewrite (proj2 (by_key_spec (apps r))). by apply elem_of_map_to_list.
    + apply list_elem_of_In, in_map_iff. exists k. rewrite Hr. split; [done|]. apply list_elem_of_In, sorted_keys_spec. by eexists.
Qed.
Lemma tell_each remote infos m : let m' := (for_each (λ info, tell info remote) infos m).2 in
  deviceConnectionMap_ m' = deviceConnectionMap_ m ∧ deviceListeners_ m' = deviceListeners_ m ∧
  ∃ l, told m' = l ++ told m ∧ ∀ cb y, y ∈ heard cb l ↔ y ∈ map says infos ∧ cb = remote.
Proof.
  cbv zeta. revert m. induction infos as [|info infos IH]; intros m; cbn [for_each map].
  - split; [done|]. split; [done|]. exists []. split; [done|]. intros cb y. split; [by intros ?%not_elem_of_nil|by intros [?%not_elem_of_nil _]].
  - rewrite bind_run. destruct (tell_told info remote m) as (e & Et & Ed & El & He). destruct (IH (tell info remote m).2) as (Ed' & El' & l & Et' & Hl).
    split; [congruence|]. split; [congruence|]. exists (l ++ [e]). split; [by rewrite Et', Et, <- app_assoc|].
    intros cb y. rewrite heard_app, elem_of_app, Hl, elem_of_cons. unfold heard. cbn. rewrite He.
    destruct (Z.eqb_spec remote cb) as [->|Hc].
    + rewrite list_elem_of_singleton. tauto.
    + rewrite elem_of_nil. split; [intros [[_ ->]|[]]; congruence|intros [_ ->]; congruence].
Qed.

(** What every step does for the listeners. *)
Definition served m m' : Prop := conn_wf (deviceConnectionMap_ m') ∧ ∃ l, told m' = l ++ told m ∧ ∀ cb,
  (cb ∈ deviceListeners_ m' → ∀ x,
     know (if bool_decide (cb ∈ deviceListeners_ m) then uses (deviceConnectionMap_ m) else λ _, false) (heard cb l) x =
     uses (deviceConnectionMap_ m') x) ∧
  (cb ∉ deviceListeners_ m' → heard cb l = []).
Lemma served_informs m m' : conn_wf (deviceConnectionMap_ m) → informs m m' → served m m'.
Proof.
  intros Hwf Hi. destruct (Hi Hwf) as (Hwf' & El & l & Et & Hl). split; [done|]. exists l. split; [done|].
  intros cb. rewrite El. split; [|apply Hl]. intros Hcb. rewrite bool_decide_eq_true_2 by done. by apply Hl.
Qed.
Lemma served_quieter m m' : conn_wf (deviceConnectionMap_ m) → quieter m m' → served m m'.
Proof.
  intros Hwf (Ed & Et & Hl). unfold served. rewrite Ed. split; [done|]. exists []. split; [done|]. intros cb. split; [|done].
  intros Hcb x. by rewrite bool_decide_eq_true_2 by auto.
Qed.
Lemma served_fixed m m' : conn_wf (deviceConnectionMap_ m) → fixed conn m m' → served m m'.
Proof. intros Hwf [= E1 E2 E3]. apply served_quieter; [done|]. split; [done|]. split; [done|]. by rewrite E2. Qed.
Lemma served_register c cb m : conn_wf (deviceConnectionMap_ m) → served m (RegisterConnectionListener c cb m).2.
Proof.
  intros Hwf. unfold RegisterConnectionListener. destruct cb as [remote|]; [|by apply served_fixed].
  rewrite bind_run. set (m1 := (CheckSysApiPermission c m).2). assert (conn m1 = conn m) as E1 by apply (runs_sys_api conn).
  destruct (_ =? UEC_OK); cbn [negb]; [|by apply served_fixed]. rewrite bind_run. cbn [get fst snd].
  case_bool_decide as Hin; [by apply served_fixed|]. rewrite bind_run. set (m2 := (add_recipient remote ListenerDeath m1).2).
  assert (conn m2 = conn m) as E2 by (rewrite <- E1; apply conn_add_recipient).
  destruct (add_recipient remote ListenerDeath m1).1; cbn [negb]; [|by apply served_fixed].
  rewrite !bind_run, ret_run. cbn [get fst snd]. set (m3 := (modify _ m2).2).
  destruct (tell_each remote (pending (deviceConnectionMap_ m3)) m3) as (Ed & El & l & Et & Hl).
  assert (deviceConnectionMap_ m3 = deviceConnectionMap_ m ∧ deviceListeners_ m3 = deviceListeners_ m ++ [remote] ∧ told m3 = told m) as (E3 & E4 & E5).
  { injection E2 as <- <- <-. by destruct m2. }
  assert (remote ∉ deviceListeners_ m) as Hnew by (injection E1 as _ <- _; done).
  unfold served. rewrite Ed, El, Et, E3, E4, E5. split; [done|]. exists l. split; [done|]. intros cb.
  assert (cb ≠ remote → heard cb l = []) as Hothers.
  { intros Hne. destruct (heard cb l) as [|y h] eqn:Eh; [done|]. exfalso. apply Hne. apply (Hl cb y). rewrite Eh. by left. }
  rewrite elem_of_app, list_elem_of_singleton. split; [|intros Hno; apply Hothers; tauto].
  destruct (decide (cb = remote)) as [->|Hne].
  - intros _ x. rewrite bool_decide_eq_false_2 by done. rewrite (know_same _ true).
    + pose proof (uses_pending (deviceConnectionMap_ m) x Hwf) as Hp. rewrite E3 in Hl.
      case_decide as Hi; rewrite Hl in Hi; [symmetry; tauto|]. symmetry. apply not_true_iff_false. tauto.
    + intros y Hy. apply Hl in Hy as [Hy _]. apply list_elem_of_In, in_map_iff in Hy as (info & <- & Hi).
      apply list_elem_of_In, list_elem_of_join in Hi as (l' & Hi & Hl').
      apply list_elem_of_In, in_map_iff in Hl' as (key & <- & Hkey). destruct (_ !! key) as [r|]; [|by apply not_elem_of_nil in Hi].
      by apply list_elem_of_In, in_map_iff in Hi as ([u bundle] & <- & _).
  - intros [Hcb|?] x; [|done]. by rewrite bool_decide_eq_true_2, Hothers by done.
Qed.
Lemma served_step c l m m' : service_step char_signed c m l m' → conn_wf (deviceConnectionMap_ m) → served m m'.
Proof.
  destruct 1 as [b a r _ _|cb|cb|b a _ _|info|remote|m' Ho|m' Ho]; intros Hwf.
  - apply served_informs; [done|apply informs_perform].
  - by apply served_register.
  - apply served_quieter; [done|apply quieter_unregister].
  - apply served_informs; [done|apply informs_departure].
  - pose proof (event_quiet char_signed c info m) as He. cbv zeta in He.
    destruct (event_label info) as [| | |b a| |]; try by apply served_fixed, conn_of_news.
    apply conn_of_news in He. unfold fixed, conn in He. injection He as E1 E2 E3. unfold served. rewrite E1, E2, E3.
    apply (served_informs m (DelDevice c b a m).2); [done|apply informs_departure].
  - apply served_quieter; [done|apply quieter_died].
  - apply served_fixed; [done|]. by apply conn_of_news, (other_quiet char_signed c).
  - apply served_fixed; [done|]. by apply conn_of_news, (life_quiet c).
Qed.
Lemma conn_wf_reachable m0 m : deviceConnectionMap_ m0 = ∅ → rtc (any_step char_signed) m0 m → conn_wf (deviceConnectionMap_ m).
Proof.
  intros Hc Hs. assert (conn_wf (deviceConnectionMap_ m0)) as Hwf by (rewrite Hc; apply map_Forall_empty). clear Hc. revert Hwf.
  induction Hs as [|m1 m2 m3 (c & l & _ & Hl) _ IH]; [done|]. intros Hwf. apply IH. by apply (served_step c l m1 m2 Hl Hwf).
Qed.
End Conn.
