(* ===== verification/UsbServiceManagers.v ===== *)
(** * The service: its managers behind their interfaces

    The managers of this library are instances of what the service asks of them.
    What the right manager promises is a class of laws, proved for the manager. *)
From S2P Require Import Prelude UsbErrors Platform UsbAccessory UsbRightDatabase UsbRightDbHelper RightRecords UsbRightManager UsbRightManagerProofs UsbDeviceManager UsbAccessoryManager UsbPortManager SerialManager UsbHostTransfer UsbService UsbServiceDevice.

(** ** The promise of the right manager *)

(** [rs_allows] is what a yes of the check means, [rs_trusted] what makes the
    caller a system application or service. *)
Class RightServiceLaws (RM : Type) `{!RightService RM} := {
  rs_wf : RM → Prop;
  rs_trusted : Caller → RM → Prop;
  rs_allows : Caller → RM → string → string → string → Z → Prop;
  rs_trusted_law c rm : (rs_IsSystemAppOrSa c rm).2 = rm ∧ ((rs_IsSystemAppOrSa c rm).1 = true → rs_trusted c rm);
  rs_HasRight_law c d b t u rm : rs_wf rm → (rs_HasRight c d b t u rm).1 = true → rs_allows c rm d b t u;
}.

(** *** The promise of the device manager *)

Class DeviceServiceLaws (DM : Type) `{!DeviceService DM} := {
  ds_gadget : DM → bool;
  ds_gadget_law dm : ds_IsGadgetConnected dm = (ds_gadget dm, dm);
}.

(** ** What the check of the service means *)

Section Check.
Context {RM HT DM AM PM P : Type} `{!RightService RM, !RightServiceLaws RM, !ServicePlatform P, !ErrCodeBase}.
Abbreviation US := (UsbService RM HT DM AM PM P).
Implicit Types m : US.

Definition entitled (c : Caller) (desc : string) (rm : RM) m : Prop :=
  rs_trusted c rm ∨ ∃ info, (AccessTokenKit_GetHapTokenInfo (CallingTokenID c) (service_platform_ m)).1 = Some info ∧
    rs_allows c rm desc (hap_bundleName info) (pretty (to_u32 (CallingTokenID c))) (hap_userID info).

Lemma on_right_run {A} (dflt : A) f m rm : usbRightManager_ m = Some rm →
  on_right dflt f m = ((f rm).1, set_right (Some (f rm).2) m).
Proof. intros Hr. unfold on_right, through. rewrite Hr. by destruct (f rm). Qed.
(** A system caller or the answer of the right manager, [k] and [no] being how the
    request tells. *)
Lemma asked_right {A} (k : bool → A) (no : A) (yes : A → Prop) c desc m rm : usbRightManager_ m = Some rm → rs_wf rm →
  ¬ yes no → ¬ yes (k false) →
  yes ((sys ← on_right false (rs_IsSystemAppOrSa c);
    if (sys : bool) then mret (k true) else
    info ← GetCallingInfo c;
    match info with
    | None => mret no
    | Some (bundleName, tokenId, userId) =>
        has ← on_right false (rs_HasRight c desc bundleName tokenId userId); mret (k has)
    end) m).1 → entitled c desc rm m.
Proof.
  intros Hr Hwf Hno Hf. rewrite bind_run, (on_right_run _ _ _ rm) by done. destruct (rs_trusted_law c rm) as [-> Ht]. cbn [fst snd].
  destruct (rs_IsSystemAppOrSa c rm).1; [intros _; left; by apply Ht|]. clear Ht.
  unfold GetCallingInfo, on_service. rewrite !bind_run, ret_run. unfold zoom. destruct m as [? ? ? ? ? ? ? ? ? ? ? ? ? ? ? ? p ?]; cbn in Hr |- *.
  destruct (AccessTokenKit_GetHapTokenInfo (CallingTokenID c) p) as [info p'] eqn:Hi. cbn.
  destruct info as [info|]; [|done]. cbn. rewrite bind_run, (on_right_run _ _ _ rm) by done. rewrite ret_run. cbn [fst snd].
  destruct (rs_HasRight c desc _ _ _ rm).1 eqn:Hh; [|done]. intros _. right. exists info. cbn. rewrite Hi. split; [done|].
  by apply rs_HasRight_law.
Qed.
Lemma has_right_entitled c name m rm : usbRightManager_ m = Some rm → rs_wf rm → (HasRight c name m).1 = true →
  ∃ desc, deviceVidPidMap_ m !! name = Some desc ∧ entitled c desc rm m.
Proof.
  intros Hr Hwf. unfold HasRight, unless_null. rewrite bind_run. cbn [get fst snd]. rewrite Hr. cbn [is_set].
  rewrite bind_run. unfold FindDeviceVidPidSerialNumber, gets. cbn [fst snd].
  destruct (deviceVidPidMap_ m !! name) as [desc|]; cbn.
  - intros Hy. exists desc. split; [done|]. apply (asked_right (λ b, b) false (λ b, b = true) c desc m rm); try done.
    revert Hy. rewrite !bind_run. destruct (on_right false (rs_IsSystemAppOrSa c) m).1; [done|]. rewrite !bind_run.
    match goal with |- context [GetCallingInfo c ?x] => destruct (GetCallingInfo c x).1 as [[[]]|]; [|done] end.
    by rewrite bind_run, ret_run.
  - rewrite (proj2 (Z.eqb_neq _ _)) by apply uec_not_OK. done.
Qed.
End Check.

(** ** The right manager *)

Section RightManager.
Context {H E : Type} `{!RightRecords H, !ErrCodeBase, !CJson}.
(** The answers of the platform depend on who calls. *)
Context (platform : Caller → RightPlatform E) (ulong_max : Z) (others : Caller → state (UsbRightManager H E) ()).
Abbreviation RM := (UsbRightManager H E).

Definition right_service : RightService RM := {|
  rs_IsSystemAppOrSa c := let _ := platform c in UsbRightManager.IsSystemAppOrSa;
  rs_VerifyPermission c := let _ := platform c in UsbRightManager.VerifyPermission;
  rs_HasSetFuncRight c := let _ := platform c in UsbRightManager.HasSetFuncRight;
  rs_HasRight c := let _ := platform c in UsbRightManager.HasRight;
  rs_RequestRight c := let _ := platform c in UsbRightManager.RequestRight (others c);
  rs_RequestAccessoryRight c := let _ := platform c in UsbRightManager.RequestAccessoryRight (others c);
  rs_RequestSerialRight c := let _ := platform c in UsbRightManager.RequestSerialRight ulong_max (others c);
  rs_AddDeviceRight c := let _ := platform c in UsbRightManager.AddDeviceRightByToken ulong_max;
  rs_RemoveDeviceRight c := let _ := platform c in UsbRightManager.RemoveDeviceRight;
  rs_CancelDeviceRight c := let _ := platform c in UsbRightManager.CancelDeviceRight;
  rs_RemoveDeviceAllRight c := let _ := platform c in UsbRightManager.RemoveDeviceAllRight;
  rs_Init c := let _ := platform c in UsbRightManager.Init;
  rs_CleanUpRightExpired c := let _ := platform c in UsbRightManager.CleanUpRightExpired;
|}.

(** The check means what the database says at the time of the caller's clock. *)
Context `{!RightRecordsLaws H}.
Definition right_granted (c : Caller) (rm : RM) (deviceName bundleName tokenId : string) (userId : Z) : Prop :=
  userId = USB_RIGHT_USERID_CONSOLE ∨
  existsb (grants userId deviceName bundleName tokenId
    (to_u64 (@system_clock_seconds E (platform c) (platform_ rm)).1)) (rights rm) = true.
Definition right_trusted (c : Caller) (rm : RM) : Prop :=
  @IsSystemAppByFullTokenID E (platform c) (platform_ rm) = true ∨ @IsNativeToken E (platform c) (platform_ rm) = true.
Definition right_service_laws : @RightServiceLaws RM right_service.
Proof.
  refine (@Build_RightServiceLaws _ right_service settled right_trusted right_granted _ _).
  - intros c rm. cbn. unfold UsbRightManager.IsSystemAppOrSa, ask, right_trusted. run_unfold.
    destruct (IsSystemAppByFullTokenID (platform_ rm)); [by split; [|left]|].
    destruct (IsNativeToken (platform_ rm)); [by split; [|right]|done].
  - intros c d b t u rm Hrm. cbn.
    destruct (@UsbRightManager.HasRight H E _ (platform c) d b t u rm) as [r rm'] eqn:Hr.
    apply (@HasRight_run H E _ _ (platform c)) in Hr as (_ & _ & Hs & _); [|done]. exact Hs.
Defined.
End RightManager.

(** ** The other managers *)

Section Managers.
Context {D T T' Q : Type} `{!UsbDeviceInterface D, !AccessoryDevice D, !DelayTimer DeviceTask T, !DelayTimer AccessoryTask T'}.
Context `{!UsbPortInterface Q, !ErrCodeBase, !CJson}.
(** The environment of the managers: the switch window, the interfaces of the
    driver, uninitialised variables, the hashes of the accessory manager. *)
Context (window_ok : bool) (window_Init uninit : Z) (hidumper_set subscriber_ok : bool).
Context (device_interface : option D) (port_interfaces : nat → option Q).
Context (string_hash : string → Z) (int_hash : Z → Z) (millis : T' → Z) (publish : AccessoryEffect → bool).

Definition device_service : DeviceService (UsbDeviceManager D T) := {|
  ds_InitUsbDeviceInterface := UsbDeviceManager.InitUsbDeviceInterface device_interface subscriber_ok;
  ds_Init := mret (UsbDeviceManager.Init window_ok window_Init);
  ds_Stop := UsbDeviceManager.Stop;
  ds_SetPhyConnectState := UsbDeviceManager.SetPhyConnectState;
  ds_GetCurrentFunctions := UsbDeviceManager.GetCurrentFunctions;
  ds_SetCurrentFunctions := UsbDeviceManager.SetCurrentFunctions uninit;
  ds_ConvertFromString := UsbDeviceManager.ConvertFromString;
  ds_ConvertToString := UsbDeviceManager.ConvertToString;
  ds_HandleEvent := UsbDeviceManager.HandleEvent window_ok;
  ds_ProcessCustomControlRequestUevent := UsbDeviceManager.ProcessCustomControlRequestUevent;
  ds_SetChargeFlag := UsbDeviceManager.SetChargeFlag;
  ds_UserChangeProcess := UsbDeviceManager.UserChangeProcess;
  ds_IsGadgetConnected := UsbDeviceManager.IsGadgetConnected;
  ds_Dump := UsbDeviceManager.Dump hidumper_set uninit;
  ds_GetDumpHelp := UsbDeviceManager.GetDumpHelp hidumper_set;
|}.
(** Events that the service passes on are delayed, as the default argument says. *)
Definition accessory_service : AccessoryService (UsbAccessoryManager D T') := {|
  as_InitUsbAccessoryInterface := UsbAccessoryManager.InitUsbAccessoryInterface device_interface;
  as_GetAccessoryList := UsbAccessoryManager.GetAccessoryList;
  as_GetAccessorySerialNumber := UsbAccessoryManager.GetAccessorySerialNumber;
  as_OpenAccessory := UsbAccessoryManager.OpenAccessory;
  as_CloseAccessory := UsbAccessoryManager.CloseAccessory;
  as_HandleEvent s := UsbAccessoryManager.HandleEvent string_hash int_hash millis publish s true;
|}.
Definition port_service (not_support : Z) : PortService (UsbPortManager Q) := {|
  HDF_ERR_NOT_SUPPORT := not_support;
  ps_InitUsbPortInterface := UsbPortManager.InitUsbPortInterface port_interfaces subscriber_ok;
  ps_Init := UsbPortManager.Init;
  ps_Stop := UsbPortManager.Stop;
  ps_GetPorts := UsbPortManager.GetPorts;
  ps_GetSupportedModes := UsbPortManager.GetSupportedModes;
  ps_SetPortRole := UsbPortManager.SetPortRole;
  ps_UpdatePort := UsbPortManager.UpdatePort;
  ps_UpdatePortWithModes := UsbPortManager.UpdatePortWithModes;
  ps_IsReverseCharge := UsbPortManager.IsReverseCharge;
  ps_Dump := UsbPortManager.Dump hidumper_set;
  ps_GetDumpHelp := UsbPortManager.GetDumpHelp hidumper_set;
|}.

(** *** Whether a gadget is connected *)

(** The promise to the unloading: a question about the state. *)
#[local] Instance the_device_service : DeviceService (UsbDeviceManager D T) := device_service.
Definition device_service_laws : DeviceServiceLaws (UsbDeviceManager D T) := {|
  ds_gadget := UsbDeviceManager.gadgetConnected_;
  ds_gadget_law dm := eq_refl;
|}.
End Managers.
