(* ===== verification/UsbServiceUnload.v ===== *)
(** * The service: unloading when nothing is attached

    The timer of the service: an event of the driver sets it exactly when no device
    is attached and no gadget connected, nothing but events, a start and the timer
    itself touches it, and when it fires the service asks to be unloaded. *)
From S2P Require Import Prelude UsbErrors Platform UsbAccessory UsbDevice UsbDescriptorParser UsbPortManager UsbDeviceManager SerialManager UsbInterfaceType UsbHostManager UsbHostPolicy UsbHostTransfer UsbService UsbServiceClaims UsbServiceHost UsbServiceDevice UsbServiceSerial UsbServiceLife UsbServiceSteps UsbServiceFrames UsbServiceManagers.

Section Unload.
Context {W R D SerialPort SerialAttribute RM DM AM PM P : Type}.
Context `{!HostPlatform W R, !HostTransferPlatform W, !TableOrder, !CJson, !SerialInterface D SerialPort SerialAttribute}.
Context `{!PortList (SerialManager D SerialPort)}.
Context `{!SerialPortInfo P D SerialPort SerialAttribute, !RightService RM, !DeviceService DM, !AccessoryService AM}.
Context `{!PortService PM, !ServicePlatform P, !ErrCodeBase, !DeviceServiceLaws DM}.
Context (char_signed : bool).
Abbreviation SMgr := (SerialManager D SerialPort).
Abbreviation US := (UsbService RM (HostTransfers W SMgr) DM AM PM P).
Abbreviation M := (state US).
Implicit Types m : US.

(** Whether a device is attached or a gadget connected. *)
Definition attached m : bool :=
  match usbHostManager_ m with Some h => negb (bool_decide (devices_ (manager h) = ∅)) | None => false end ||
  match usbDeviceManager_ m with Some d => ds_gadget d | None => false end.
Definition both_set m : bool := is_set (usbHostManager_ m) && is_set (usbDeviceManager_ m).
(** What the end of an event leaves of them. *)
Definition around m := (attached m, both_set m).

Lemma needed_run m : (IsNotNeedUnload : M bool) m = (attached m, m).
Proof.
  unfold IsNotNeedUnload, on_host_manager, on_device_manager, through, attached. rewrite !bind_run.
  destruct m as [? [[]|] d ? ? ? ? ? ? ? ? ? ? ? ? ? ? ?]; cbn.
  - destruct d as [d|]; cbn; [|done]. by rewrite ds_gadget_law.
  - destruct d as [d|]; cbn; [|done]. by rewrite ds_gadget_law.
Qed.
Lemma setup_run m : let m' := ((ok ← on_service unload_Setup;
    if negb ok then mret () else
    id ← on_service unload_Register;
    modify (set_unload_id id);;
    modify (set_unload_pending (Some id))) m : () * US).2 in
  around m' = around m ∧ ((∀ p, (unload_Setup p).1 = true) → is_Some (unload_pending m')).
Proof.
  cbv zeta. rewrite bind_run. unfold on_service, zoom. destruct (unload_Setup (service_platform_ m)) as [ok p] eqn:Hs. cbn [fst snd].
  destruct ok; cbn [negb].
  - rewrite !bind_run. destruct (unload_Register _) as [i p']. cbn [fst snd]. destruct m. split; [done|]. intros _. by exists i.
  - split; [by destruct m|]. intros Hok. specialize (Hok (service_platform_ m)). by rewrite Hs in Hok.
Qed.
(** After the timer was asked for: it is set exactly when nothing is attached,
    where the platform has a timer. *)
Lemma unload_delay_run m : both_set m = true →
  let m' := ((UnLoadSelf UNLOAD_SA_DELAY : M ()) m).2 in
  around m' = around m ∧
  (attached m = true → unload_pending m' = None) ∧
  (attached m = false → (∀ p, (unload_Setup p).1 = true) → is_Some (unload_pending m')).
Proof.
  unfold both_set. intros [Hh Hd]%andb_true_iff. cbv zeta. unfold UnLoadSelf. cbn [bool_decide decide_rel].
  rewrite bool_decide_eq_false_2 by done. unfold unless_null. rewrite !bind_run. cbn [get fst snd]. rewrite Hh, !bind_run. cbn [get fst snd].
  rewrite Hd. rewrite !bind_run. set (m1 := (modify _ m).2). rewrite needed_run. cbn [fst snd].
  assert (around m1 = around m ∧ unload_pending m1 = None ∧ attached m1 = attached m) as (E1 & E2 & E3) by by destruct m.
  clearbody m1.
  rewrite <- E3. destruct (attached m1).
  - split; [|split; [|done]]; [rewrite <- E1|intros _; rewrite <- E2]; by destruct m1.
  - rewrite bind_run. set (m2 := (effect (CriticalSet false) m1).2). destruct (setup_run m2) as [E4 Hs].
    split; [rewrite E4, <- E1; by destruct m1|]. split; [done|]. intros _. exact Hs.
Qed.
Lemma around_serial x m : around (set_serial x m) = around m.
Proof. unfold set_serial. destruct m as [? [[[]]|] ? ? ? ? ? ? ? ? ? ? ? ? ? ? ? ?]; done. Qed.
(** Starting the serial manager: nothing of this changes. *)
Lemma tail_around info : Runs (fixed (λ m, (around m, unload_pending m)))
  ((if status info =? ACT_DEVUP then m ← get; if is_set (serial_manager m) then mret () else
      tty ← on_service tty_exists; if (tty : bool) then start_serial else mret () else mret ()) : M ()).
Proof.
  assert (∀ {A} (f : state P A), Runs (fixed (λ m, (around m, unload_pending m))) (on_service f : M A)) as Hs.
  { intros A f. apply runs_zoom. intros m. unfold fixed. by destruct m. }
  apply runs_if; [|runs]. apply runs_get. intros m0. apply runs_if; [runs|]. apply runs_bind; [apply _|apply Hs|].
  intros []; [|runs]. unfold start_serial. apply runs_bind; [apply _|apply Hs|]. intros serial. apply runs_modify.
  intros m. unfold fixed. rewrite around_serial. by destruct m.
Qed.

(** What happens between events: requests, listeners, deaths, every other call of
    the interface. *)
Inductive between (m : US) : US → Prop :=
  | b_request c bus addr r : between m (perform char_signed c bus addr r m).2
  | b_register c cb : between m (RegisterConnectionListener c cb m).2
  | b_unregister c cb : between m (UnRegisterConnectionListener c cb m).2
  | b_died c remote : between m (remote_died c remote m).2
  | b_other c m' : other_step char_signed c m m' → between m m'.

#[local] Hint Extern 1 (Runs (fixed unload_pending) (modify _)) => (apply runs_modify; intros []; exact eq_refl) : runs.
#[local] Hint Extern 1 (Runs (fixed unload_pending) (effect _)) => (apply runs_modify; intros []; exact eq_refl) : runs.
#[local] Hint Extern 1 (Runs (fixed unload_pending) (on_host_manager _ _)) => (apply runs_through; by intros ? []) : runs.
Abbreviation Untouched f := (Runs (fixed (unload_pending : US → option Z)) f).
Lemma pending_add_recipient remote r : Untouched (add_recipient remote r : M bool).
Proof. unfold add_recipient. runs. Qed.
Lemma pending_remove_recipient remote r : Untouched (RemoveDeathRecipient remote r : M ()).
Proof. unfold RemoveDeathRecipient. runs. Qed.
Lemma pending_tell info cb : Untouched (tell info cb : M ()).
Proof. unfold tell. destruct (info_type_ info); runs. Qed.
#[local] Hint Resolve pending_add_recipient pending_remove_recipient pending_tell : runs.
Lemma pending_drop_recipient s : Untouched (drop_recipient s : M ()).
Proof. unfold drop_recipient. runs. Qed.
Lemma pending_drop_listener remote : Untouched (drop_listener remote : M ()).
Proof. unfold drop_listener. runs. Qed.
Lemma pending_notify info : Untouched (NotifyDeviceConnection info : M ()).
Proof. unfold NotifyDeviceConnection. runs. Qed.
#[local] Hint Resolve pending_drop_recipient pending_drop_listener pending_notify : runs.
Lemma pending_perform c b a r : Untouched (perform char_signed c b a r).
Proof.
  destruct r; cbn [perform]; unfold code_only, code_of.
  1: unfold OpenDevice, permitted, AddDeviceConnection, put_connections; sruns.
  all: unfold Close, RemoveExclusiveClaimByDevice, RemoveDeviceConnection, put_connections, ResetDevice, ClaimInterface, ClaimInterfaceExclusive,
    RegisterExclusiveCallback, NotifyExclusiveOwner, ReleaseInterface, ReleaseClaimState, each_claim, put_claim, erase_claim, SetInterface, SetActiveConfig,
    UsbAttachKernelDriver, UsbDetachKernelDriver, ClearHalt, GetActiveConfig, GetRawDescriptor, GetFileDescriptor, BulkTransferRead, BulkTransferReadwithLength, BulkTransferWrite,
    ControlTransfer, UsbControlTransfer, RequestQueue, RequestWait, RequestCancel, RegBulkCallback, UnRegBulkCallback,
    UsbCancelTransfer, BulkCancel, UsbSubmitTransfer, BulkRead, BulkWrite, GetDeviceSpeed, GetInterfaceActiveStatus, bulk_shared, forward, forward_out, permitted,
    CheckExclusiveTransfer, claim_at, report_denied, report_failed, report_submit, with_target, find_endpoint; sruns.
Qed.
Lemma pending_died c remote r : Untouched (recipient_died c remote r : M ()).
Proof.
  destruct r; cbn [recipient_died].
  - apply quiet_serial_death.
  - apply pending_drop_listener.
  - apply quiet_accessory_death.
  - unfold ClaimDeath_OnRemoteDied, claim_at, put_claim, erase_claim. runs.
Qed.
Lemma between_pending m m' : between m m' → unload_pending m' = unload_pending m.
Proof.
  destruct 1 as [c b a r|c cb|c cb|c remote|c m' Ho].
  - apply pending_perform.
  - revert m. change (Untouched (RegisterConnectionListener c cb)). unfold RegisterConnectionListener. runs.
  - revert m. change (Untouched (UnRegisterConnectionListener c cb)). unfold UnRegisterConnectionListener. runs.
  - revert m. change (Untouched (remote_died c remote)). unfold remote_died. runs. apply pending_died.
  - by apply (other_quiet char_signed c).
Qed.

(** The timer fires. *)
Lemma fires m : is_Some (unload_pending m) → (UnloadSystemAbility (service_platform_ m)).1 ≠ None →
  let m' := ((run_unload : M ()) m).2 in effects_ m' = UnloadRequested :: effects_ m ∧ unload_pending m' = None.
Proof.
  intros [i Hi] Hu. unfold run_unload. rewrite bind_run. cbn [get fst snd]. rewrite Hi, bind_run. unfold unload_task, on_service, zoom.
  rewrite bind_run. destruct m as [? ? ? ? ? ? ? ? ? ? ? ? ? ? ? ? p ?]; cbn in *. destruct (UnloadSystemAbility p) as [[z|] p']; [done|].
  by destruct Hu.
Qed.
(** The end of an event that the service handled. *)
Lemma event_end c info m : (DeviceEvent char_signed c info m).1 = Done UEC_OK → ∃ m1,
  let m2 := ((UnLoadSelf UNLOAD_SA_DELAY : M ()) m1).2 in let m' := (DeviceEvent char_signed c info m).2 in
  fixed (λ m : US, (around m, unload_pending m)) m2 m'.
Proof.
  unfold DeviceEvent. destruct (is_gadget_event (status info)).
  - intros _. exists (UpdateDeviceState (status info) m).2. by rewrite !bind_run, ret_run.
  - cbv zeta. rewrite bind_run. set (r := (if status info =? ACT_DEVUP then AddDevice _ _ _ else _) m). destruct r.1; [|done..].
    intros _. exists r.2. rewrite bind_run. set (m2 := (UnLoadSelf _ _).2). rewrite bind_run, ret_run. apply (tail_around info).
Qed.
Lemma unload_around m : (around ((UnLoadSelf UNLOAD_SA_DELAY : M ()) m).2).2 = true → both_set m = true.
Proof.
  unfold UnLoadSelf. rewrite bool_decide_eq_false_2 by done. unfold unless_null. rewrite bind_run. cbn [get fst snd].
  unfold both_set. destruct (usbHostManager_ m) as [h|] eqn:Hh; cbn [is_set]; [|rewrite ret_run; cbn; unfold both_set; by rewrite Hh].
  rewrite bind_run. cbn [get fst snd]. destruct (usbDeviceManager_ m) as [d|] eqn:Hd; cbn [is_set]; [done|].
  rewrite ret_run. cbn. unfold both_set. by rewrite Hh, Hd.
Qed.
End Unload.
