(* ===== verification/UsbServiceTheorems.v ===== *)
(** * The service: its properties

    Who may use a device, who holds an interface, what listeners know, which
    identity a name has, when the service unloads. *)
From S2P Require Import Prelude UsbErrors Platform UsbAccessory UsbDevice UsbDescriptorParser UsbRightDatabase UsbRightDbHelper RightRecords UsbRightManager UsbRightManagerProofs UsbPortManager UsbDeviceManager SerialManager UsbInterfaceType UsbHostManager UsbHostPolicy UsbHostTransfer UsbService UsbServiceClaims UsbServiceHost UsbServiceDevice UsbServiceSerial UsbServiceLife UsbServiceSteps UsbServiceFrames UsbServiceClaimProofs UsbServiceConnProofs UsbServiceManagers UsbServiceUnload.

Section Rights.
Context {W R D SerialPort SerialAttribute H E DM AM PM P : Type}.
Context `{!HostPlatform W R, !HostTransferPlatform W, !TableOrder, !CJson, !SerialInterface D SerialPort SerialAttribute}.
Context `{!PortList (SerialManager D SerialPort)}.
Context `{!SerialPortInfo P D SerialPort SerialAttribute, !DeviceService DM, !AccessoryService AM}.
Context `{!PortService PM, !ServicePlatform P, !ErrCodeBase, !RightRecords H, !RightRecordsLaws H}.
Context (char_signed : bool) (platform : Caller → RightPlatform E) (ulong_max : Z).
Context (others : Caller → state (UsbRightManager H E) ()).
#[local] Instance the_right_service : RightService (UsbRightManager H E) := right_service platform ulong_max others.
#[local] Instance the_right_laws : RightServiceLaws (UsbRightManager H E) := right_service_laws platform ulong_max others.
Abbreviation RM := (UsbRightManager H E).
Abbreviation SMgr := (SerialManager D SerialPort).
Abbreviation US := (UsbService RM (HostTransfers W SMgr) DM AM PM P).
Implicit Types m : US.

(** The caller's right on the device that a name stands for: the caller is a
    system application or service, or the console user, or a stored record of its
    user, bundle and token for the identity of the device is valid now. *)
Definition identity_right (c : Caller) (desc : string) m : Prop :=
  ∃ rm, usbRightManager_ m = Some rm ∧
    (right_trusted platform c rm ∨
     ∃ info, (AccessTokenKit_GetHapTokenInfo (CallingTokenID c) (service_platform_ m)).1 = Some info ∧
       right_granted platform c rm desc (hap_bundleName info) (pretty (to_u32 (CallingTokenID c))) (hap_userID info)).
Definition device_right (c : Caller) (name : string) m : Prop :=
  ∃ desc, deviceVidPidMap_ m !! name = Some desc ∧ identity_right c desc m.
Definition rights_settled m : Prop := ∀ rm, usbRightManager_ m = Some rm → settled rm.

Lemma HasRight_device_right c name m : rights_settled m → (HasRight c name m).1 = true → device_right c name m.
Proof.
  intros Hs Hy. destruct (usbRightManager_ m) as [rm|] eqn:Hr.
  - assert (rs_wf rm) as Hwf by exact (Hs rm Hr). destruct (has_right_entitled c _ m rm Hr Hwf Hy) as (desc & Hd & He).
    exists desc. split; [done|]. exists rm. by split.
  - unfold HasRight, unless_null in Hy. rewrite bind_run in Hy. cbn in Hy. by rewrite Hr in Hy.
Qed.

(** The caller is a system application or service and has the permission for USB
    devices, whoever has the right on the device. *)
Definition system_right (c : Caller) m : Prop :=
  ∃ rm, usbRightManager_ m = Some rm ∧ right_trusted platform c rm ∧
    @VerifyAccessTokenDenied E (platform c) USB_MANAGE_ACCESS_USB_DEVICE (UsbRightManager.platform_ rm) = false.
(** What the service asks of the caller of a request about a device. *)
Definition entitled_to (c : Caller) (bus addr : Z) (r : DeviceRequest) m : Prop :=
  match r with
  | R_GetDeviceSpeed _ | R_GetInterfaceActiveStatus _ _ => system_right c m
  | _ => device_right c (device_key bus addr) m
  end.
Lemma sys_api_system_right c m : is_set (usbRightManager_ m) = true → (CheckSysApiPermission c m).1 = UEC_OK → system_right c m.
Proof.
  destruct (usbRightManager_ m) as [rm|] eqn:Hr; [|done]. intros _. unfold CheckSysApiPermission. rewrite bind_run, (on_right_run _ _ _ rm) by done.
  destruct (rs_trusted_law c rm) as [Hs Ht]. cbn [fst snd]. rewrite Hs. destruct (rs_IsSystemAppOrSa c rm).1; cbn [negb]; [|by intros ?%uec_not_OK].
  rewrite bind_run, (on_right_run _ _ _ rm) by (by destruct m). cbn [fst snd]. unfold rs_VerifyPermission, the_right_service, right_service.
  unfold UsbRightManager.VerifyPermission, ask. run_unfold. intros Hv. exists rm. split; [done|]. split; [by apply Ht|]. revert Hv.
  destruct (VerifyAccessTokenDenied _ _); [|done]. cbn [fst negb].
  match goal with |- context [GetHapApiVersion c ?x] => destruct (GetHapApiVersion c x) as [v x'] end.
  destruct (_ <? _); by intros ?%uec_not_OK.
Qed.
Lemma pre_call_system_right c m : (PreCallFunction c m).1 = UEC_OK → system_right c m.
Proof.
  unfold PreCallFunction, unless_null. rewrite bind_run. set (m1 := (on_service service_IUsbHostInterface_Get m).2).
  assert (usbRightManager_ m1 = usbRightManager_ m) as E1 by (subst m1; unfold on_service, zoom; destruct m; by destruct (service_IUsbHostInterface_Get _)).
  destruct (on_service _ m).1; cbn [negb]; [|by intros ?%uec_not_OK]. rewrite bind_run. cbn [get fst snd].
  destruct (is_set (usbRightManager_ m1)) eqn:Hr; [|by intros ?%uec_not_OK]. rewrite bind_run.
  destruct (Z.eqb_spec (CheckSysApiPermission c m1).1 UEC_OK) as [Hc|]; cbn [negb]; [|done]. intros _.
  destruct (sys_api_system_right c m1 Hr Hc) as (rm & Hrm & Hrest). exists rm. by rewrite <- E1.
Qed.
Lemma may_ask_entitled c bus addr r m : rights_settled m → may_ask c bus addr r m = true → entitled_to c bus addr r m.
Proof. intros Hs. destruct r; cbn; try (by apply HasRight_device_right); by intros Hp%Z.eqb_eq; apply pre_call_system_right. Qed.

(** C9: no request about a device gets past the check of its caller: whatever the
    request, a caller who is not entitled to it gets an error code, and nothing has
    changed but the right manager that was asked, the platform and the reports of the
    refusal; in particular the host manager was not called.  Entitled is who has the
    right on the device, for all requests but two (opening, claims, transfers,
    descriptors, ...); the speed of a device and whether an interface is active are
    told to system applications and services with the permission for USB devices,
    without a look at the right on the device. *)
Theorem device_request_needs_right c bus addr r m : rights_settled m → ¬ entitled_to c bus addr r m →
  let '(res, m') := perform char_signed c bus addr r m in
  (∃ e, res = Done e ∧ e ≠ UEC_OK) ∧ rest m' = rest m.
Proof.
  intros Hs Hn. assert (may_ask c bus addr r m = false) as Hc.
  { apply not_true_iff_false. intros Hy. by apply Hn, may_ask_entitled. }
  pose proof (perform_refused char_signed c bus addr r m Hc) as Hp. unfold Refuses, fixed in Hp.
  by destruct (perform char_signed c bus addr r m).
Qed.

(** ** Serial ports *)

(** The right on the device that a port belongs to; the token service is asked
    after other services, so the state of the platform it answers in is open. *)
Definition port_right (c : Caller) (portId : Z) m : Prop :=
  ∃ name desc p, serialVidPidMap_ m !! portId = Some (name, desc) ∧ identity_right c desc (set_service_platform p m).

Lemma db_ability_run portId m : ∃ p e, (CheckDbAbility portId m).2 = set_effects e (set_service_platform p m).
Proof.
  unfold CheckDbAbility, on_service, zoom. rewrite bind_run. destruct (UsbRightDbHelper_GetInstance (service_platform_ m)) as [[] p].
  - exists p, (effects_ m). by destruct m.
  - eexists p, _. destruct m. reflexivity.
Qed.
Lemma has_serial_reason c portId m : rights_settled m → (HasSerialRight c portId m).1.2 = true → port_right c portId m.
Proof.
  intros Hs. unfold HasSerialRight, unless_null. rewrite bind_run. cbn [get fst snd].
  destruct (usbRightManager_ m) as [rm|] eqn:Hr; cbn [is_set]; [|done]. rewrite bind_run, validate_run.
  destruct (_ =? UEC_OK); cbn [negb]; [|done]. rewrite bind_run. destruct (db_ability_run portId m) as (p & e & ->).
  destruct (_ =? UEC_OK); cbn [negb]; [|done]. rewrite bind_run. unfold GetPortIdentity, gets. cbn [fst snd].
  replace (serialVidPidMap_ (set_effects e (set_service_platform p m))) with (serialVidPidMap_ m) by (by destruct m).
  destruct (serialVidPidMap_ m !! portId) as [[name desc]|] eqn:Hp; [|done]. intros Hy. exists name, desc, p.
  split; [done|]. exists rm. split; [by destruct m|]. assert (rs_wf rm) as Hwf by exact (Hs rm Hr).
  assert (usbRightManager_ (set_effects e (set_service_platform p m)) = Some rm) as Hr' by (by destruct m).
  pose proof (asked_right (λ b, (UEC_OK, b)) (uec UEC_SERVICE_INVALID_VALUE, false) (λ r : Z * bool, r.2 = true) c desc _ rm Hr' Hwf) as Hq.
  cbn in Hq. destruct Hq as [Ht|Ha]; [done|done|exact Hy|by left|right]. by destruct m.
Qed.

(** C14: a serial port is opened only with the right: without it [SerialOpen] ends
    with an error code, the port gets no owner and no recipient waits for the
    caller. *)
Theorem serial_open_needs_right c portId remote m : rights_settled m → ¬ port_right c portId m →
  let '(res, m') := SerialOpen c portId remote m in
  (∃ e, res = Some e ∧ e ≠ UEC_OK) ∧ rest m' = rest m.
Proof.
  intros Hs Hn. assert ((HasSerialRight c portId m).1.2 = false) as Hc.
  { apply not_true_iff_false. intros Hy. by apply Hn, has_serial_reason. }
  destruct (SerialOpen c portId remote m) as [res m'] eqn:Ho. revert Ho. unfold SerialOpen.
  rewrite bind_run, validate_run. set (v := (ValidateUsbSerialManagerAndPort portId m).1).
  destruct (v =? UEC_OK) eqn:Hv; cbn [negb]; rewrite bind_run.
  - destruct (HasSerialRight c portId m) as [[ret has] m1] eqn:Hh. cbn in Hc. subst has. cbn [fst snd negb].
    rewrite bind_run, ret_run. intros [= <- <-]. split; [eexists; split; [done|apply uec_not_OK]|].
    pose proof (rest_has_serial c portId m) as E1. rewrite Hh in E1. etransitivity; [exact (rest_fault portId "SerialOpen" _ _ m1)|exact E1].
  - intros [= <- <-]. split; [eexists; split; [done|by apply Z.eqb_neq]|exact (rest_fault portId "SerialOpen" _ _ m)].
Qed.
End Rights.

Section Service.
Context {W R D SerialPort SerialAttribute RM DM AM PM P : Type}.
Context `{!HostPlatform W R, !HostTransferPlatform W, !TableOrder, !CJson, !SerialInterface D SerialPort SerialAttribute}.
Context `{!PortList (SerialManager D SerialPort)}.
Context `{!SerialPortInfo P D SerialPort SerialAttribute, !RightService RM, !DeviceService DM, !AccessoryService AM}.
Context `{!PortService PM, !ServicePlatform P, !ErrCodeBase}.
Context (char_signed : bool).
Abbreviation SMgr := (SerialManager D SerialPort).
Abbreviation US := (UsbService RM (HostTransfers W SMgr) DM AM PM P).
Implicit Types m : US.

(** ** The administrator *)

Definition is_admin (c : Caller) m : Prop :=
  (AccessTokenKit_GetTokenType (CallingTokenID c) (service_platform_ m)).1 = TOKEN_NATIVE ∧
  (CallingUid c = ROOT_UID ∨ CallingUid c = EDM_UID).
(** The policy of the host manager behind a request. *)
Definition policy_of (r : ManageRequest) : state (UsbHostManager W SMgr) Z :=
  match r with
  | R_ManageGlobalInterface disable => UsbHostPolicy.ManageGlobalInterface disable
  | R_ManageDevice vid pid disable => UsbHostPolicy.ManageDevice vid pid disable
  | R_ManageDevicePolicy l => UsbHostPolicy.ManageDevicePolicy (UsbDeviceIdChange l [])
  | R_ManageInterfaceType l disable => UsbHostPolicy.ManageInterfaceType (UsbDeviceTypeChange [] l) disable
  | R_ManageUsbType l disable => UsbHostPolicy.ManageUsbType (UsbDeviceTypeChange [] l) disable
  end.
Lemma manage_run c r m : manage c r m =
  managed c (λ z, z) (on_host_manager (uec UEC_SERVICE_INVALID_VALUE) (on_manager (policy_of r))) m.
Proof. by destruct r. Qed.
Lemma caller_valid_iff c m : (IsCallerValid c m).1 = true ↔ is_admin c m.
Proof.
  unfold IsCallerValid, on_service, zoom, is_admin. rewrite bind_run. destruct (AccessTokenKit_GetTokenType _ _) as [t p]. cbn [fst snd].
  case_bool_decide as Ht; rewrite ret_run; cbn [fst].
  - rewrite orb_true_iff, !Z.eqb_eq. tauto.
  - split; [done|]. by intros [? _].
Qed.

Lemma pre_call_host c m : (PreCallFunction c m).1 = UEC_OK → is_Some (usbHostManager_ m).
Proof.
  unfold PreCallFunction, unless_null. rewrite bind_run. set (m1 := (on_service service_IUsbHostInterface_Get m).2).
  assert (rest m1 = rest m) as E1 by apply (runs_on_service rest).
  destruct (on_service _ m).1; cbn [negb]; [|by intros ?%uec_not_OK]. rewrite bind_run. cbn [get fst snd].
  destruct (is_set (usbRightManager_ m1)); [|by intros ?%uec_not_OK]. rewrite bind_run.
  set (m2 := (CheckSysApiPermission c m1).2). assert (rest m2 = rest m) as E2 by (rewrite <- E1; apply (runs_sys_api rest)).
  destruct (Z.eqb_spec (CheckSysApiPermission c m1).1 UEC_OK); cbn [negb]; [|done]. rewrite bind_run. cbn [get fst snd].
  assert (usbHostManager_ m2 = usbHostManager_ m) as <- by (by injection E2).
  destruct (usbHostManager_ m2); [by eexists|by intros ?%uec_not_OK].
Qed.

(** policies are for the administrator: a request of any other caller, or one
    that the preliminary checks refuse, ends with its code and changes nothing but
    the platform, the right manager that was asked and the reports; a request that
    passes is answered by the policy of the host manager, run on the host manager. *)
Theorem manage_needs_admin c r m :
  let m1 := (IsCallerValid c m).2 in let m2 := (PreCallFunction c m1).2 in
  (¬ is_admin c m → (manage c r m).1 = uec UEC_SERVICE_INVALID_OPERATION ∧ rest (manage c r m).2 = rest m) ∧
  (is_admin c m → (PreCallFunction c m1).1 ≠ UEC_OK →
     (manage c r m).1 = uec UEC_SERVICE_PRE_MANAGE_INTERFACE_FAILED ∧ rest (manage c r m).2 = rest m) ∧
  (is_admin c m → (PreCallFunction c m1).1 = UEC_OK → ∃ h, usbHostManager_ m = Some h ∧
     let '(ret, h') := on_manager (policy_of r) h in manage c r m = (ret, set_host (Some h') m2)).
Proof.
  cbv zeta. rewrite <- caller_valid_iff, manage_run. unfold managed. rewrite bind_run.
  set (m1 := (IsCallerValid c m).2). assert (rest m1 = rest m) as E1 by apply (runs_caller_valid rest).
  destruct (IsCallerValid c m).1; cbn [negb]; (split; [|split]); try done. 
  - intros _ Hp. rewrite bind_run, (proj2 (Z.eqb_neq _ _) Hp). cbn [negb]. rewrite ret_run. split; [done|]. cbn [snd]. rewrite <- E1. apply (runs_pre_call rest).
  - intros _ Hp. rewrite bind_run, Hp. set (m2 := (PreCallFunction c m1).2). cbn [negb]. rewrite (Z.eqb_refl UEC_OK). cbn [negb].
    assert (usbHostManager_ m2 = usbHostManager_ m) as E2.
    { assert (rest m2 = rest m) as E2 by (rewrite <- E1; apply (runs_pre_call rest)). by injection E2. }
    apply pre_call_host in Hp as [h Hh]. assert (usbHostManager_ m1 = usbHostManager_ m) as E3 by (by injection E1).
    rewrite E3 in Hh. exists h. split; [done|]. unfold on_host_manager, through. rewrite E2, Hh.
    by destruct (on_manager (policy_of r) h).
Qed.

(** ** Claims *)

Lemma claims_ok_rtc t v v' : t ≠ 0 → rtc (claim_move t) v v' → claims_ok v → claims_ok v'.
Proof. intros Ht. induction 1; [done|]. intros Hv. eauto using claim_move_ok. Qed.
Lemma claims_ok_gone pfx v v' : rtc (claim_gone pfx) v v' → claims_ok v → claims_ok v'.
Proof. induction 1; [done|]. intros Hv. eauto using claim_gone_ok. Qed.
Lemma claims_ok_step c l m m' : CallingTokenID c ≠ 0 → service_step char_signed c m l m' → claims_ok (claims m) → claims_ok (claims m').
Proof.
  intros Ht Hl Hm. apply step_claims in Hl. destruct l; try by rewrite Hl.
  - by eapply claims_ok_rtc.
  - destruct Hl as (_ & _ & v & Hg & Hv). eapply claims_ok_rtc; [done..|]. by eapply claims_ok_gone.
  - rewrite Hl. by apply claim_died_ok.
Qed.
Lemma claims_ok_reachable m0 m : claimStateMap_ m0 = ∅ → recipients_ m0 = [] → rtc (any_step char_signed) m0 m → claims_ok (claims m).
Proof.
  intros Hc Hr Hs. assert (claims_ok (claims m0)) as H0'.
  { unfold claims. rewrite Hc, Hr. split; [apply map_Forall_empty|]. split; [constructor|]. cbn. intros w. split; [by intros ?%not_elem_of_nil|].
    intros (s & Hs' & _). cbn in Hs'. apply lookup_empty_Some in Hs' as []. }
  clear Hc Hr. revert H0'. induction Hs as [|m1 m2 m3 (c & l & Ht & Hl) _ IH]; [done|]. intros Hm. apply IH. exact (claims_ok_step c l m1 m2 Ht Hl Hm).
Qed.

(** C21: in every state the service reaches, through any interleaving of requests,
    driver events, deaths of clients and timers, every claim in the table is held:
    an interface without an exclusive owner is claimed normally and has neither
    callback nor recipient; one with an owner has both, and the recipient knows the
    interface and the owner; and the recipients that wait for the death of an owner
    are exactly those of the claims, each once, so a death frees what its client
    held and nothing else. *)
Theorem claims_invariant m0 m : claimStateMap_ m0 = ∅ → recipients_ m0 = [] → rtc (any_step char_signed) m0 m →
  (∀ k s, claimStateMap_ m !! k = Some s →
     (exclusiveOwner s = 0 ∧ normalClaimed s = true ∧ notifyCallback s = None ∧ claimRecipient s = None) ∨
     (exclusiveOwner s ≠ 0 ∧ ∃ cb r, notifyCallback s = Some cb ∧ claimRecipient s = Some r ∧ tokenId_ r = exclusiveOwner s ∧
       k = MakeClaimKey (busNum_ r) (devAddr_ r) (interfaceid_ r) ∧ (cb, ClaimDeath r) ∈ recipients_ m)) ∧
  (∀ cb r, (cb, ClaimDeath r) ∈ recipients_ m → ∃ s,
     claimStateMap_ m !! MakeClaimKey (busNum_ r) (devAddr_ r) (interfaceid_ r) = Some s ∧
     notifyCallback s = Some cb ∧ claimRecipient s = Some r) ∧
  NoDup (omap claim_watch (recipients_ m)).
Proof.
  intros Hc Hr Hs. destruct (claims_ok_reachable m0 m Hc Hr Hs) as (HC & HL & HCL). cbn in HC, HL, HCL.
  assert (∀ cb r, (cb, r) ∈ omap claim_watch (recipients_ m) ↔ (cb, ClaimDeath r) ∈ recipients_ m) as Hin.
  { intros cb r. rewrite list_elem_of_omap. split.
    - intros ([cb' []] & Hx & He); cbn in He; by simplify_eq.
    - intros Hx. by exists (cb, ClaimDeath r). }
  split; [|split; [|done]].
  - intros k s Hk. pose proof (HC k s Hk) as Hs'. unfold claim_ok in Hs'. case_decide; [by left|right]. split; [done|].
    destruct Hs' as (cb & r & Ecb & Er & Ht & Hkr). exists cb, r. do 4 (split; [done|]). apply Hin, HCL. exists s.
    cbn. rewrite Hkr. split; [done|]. unfold watch_of. by rewrite Ecb, Er.
  - intros cb r Hx. apply Hin, HCL in Hx as (s & Hk & Hw). exists s. split; [done|]. unfold watch_of in Hw.
    destruct (notifyCallback s), (claimRecipient s); by simplify_eq.
Qed.

(** *** Exclusive owners *)

(** The owner of [k] is still there; if the interface is shared now and was not, the
    owner was told. *)
Definition owner_kept (k : string) (s : ClaimInterfaceState) (v v' : ClaimView) : Prop :=
  ∃ s' news, v'.1.1 !! k = Some s' ∧ exclusiveOwner s' = exclusiveOwner s ∧ notifyCallback s' = notifyCallback s ∧
    claimRecipient s' = claimRecipient s ∧ v'.2 = news ++ v.2 ∧
    (normalClaimed s' = true → normalClaimed s = true ∨ ∃ cb, notifyCallback s = Some cb ∧ (cb, k) ∈ news).
Lemma owner_kept_refl k s v : v.1.1 !! k = Some s → owner_kept k s v v.
Proof. intros Hk. exists s, []. repeat (split; [done|]). by left. Qed.
Lemma owner_kept_trans k s s1 v v1 v2 : v1.1.1 !! k = Some s1 → owner_kept k s v v1 → owner_kept k s1 v1 v2 → owner_kept k s v v2.
Proof.
  intros Hk (s' & n1 & Hk' & Ho1 & Hc1 & Hr1 & En1 & Hn1) (s2 & n2 & Hk2 & Ho2 & Hc2 & Hr2 & En2 & Hn2).
  assert (s' = s1) as -> by congruence. exists s2, (n2 ++ n1). repeat split; [done|congruence..|by rewrite En2, En1, app_assoc|].
  intros Hn. destruct (Hn2 Hn) as [Hn'|(cb & Hcb & Hin)].
  - destruct (Hn1 Hn') as [?|(cb & Hcb & Hin)]; [by left|right]. exists cb. split; [done|]. apply elem_of_app. by right.
  - right. exists cb. split; [congruence|]. apply elem_of_app. by left.
Qed.
Lemma owner_kept_other k s C L E C' L' : C !! k = Some s → C' !! k = C !! k → owner_kept k s (C, L, E) (C', L', E).
Proof. intros Hk E1. exists s, []. cbn. rewrite E1. repeat (split; [done|]). by left. Qed.
(** The moves of another token keep the owner. *)
Lemma owner_kept_move t k s v v' : v.1.1 !! k = Some s → exclusiveOwner s ≠ 0 → exclusiveOwner s ≠ t → notifyCallback s ≠ None →
  claim_move t v v' → owner_kept k s v v'.
Proof.
  intros Hk Ho Ht Hcb Hm. revert Hk. destruct Hm; intros Hk.
  - destruct (decide (k0 = k)) as [->|Hne].
    + subst s0. cbn in Hk. rewrite Hk. cbn [from_option]. unfold Datatypes.id. exists (with_normal true s), (conflicts t k s). cbn.
      rewrite lookup_insert_eq. repeat (split; [done|]). intros _. right. destruct (notifyCallback s) as [cb|] eqn:Ecb; [|done].
      exists cb. split; [done|]. unfold conflicts. rewrite !(proj2 (Z.eqb_neq _ _)) by done. cbn. rewrite Ecb. by left.
    + exists s, (conflicts t k0 s0). cbn in *. rewrite lookup_insert_ne by done. repeat (split; [done|]). by left.
  - apply owner_kept_other; [done|]. cbn in *. destruct (decide (k0 = k)) as [->|Hne]; [congruence|by rewrite lookup_insert_ne].
  - apply owner_kept_other; [done|]. cbn in *. destruct (decide (k0 = k)) as [->|Hne]; [|by rewrite lookup_insert_ne].
    simplify_eq. by match goal with Hx : _ ∨ _ |- _ => destruct Hx as [?|[? _]] end.
  - apply owner_kept_other; [done|]. cbn in *. destruct (decide (k0 = k)) as [->|Hne]; [congruence|by rewrite lookup_partial_alter_ne].
  - destruct (decide (k0 = k)) as [->|Hne].
    + cbn in Hk. assert (s0 = s) as -> by congruence. exists (with_normal false s), []. cbn. rewrite lookup_insert_eq. repeat (split; [done|]). done.
    + apply owner_kept_other; [done|]. cbn. by rewrite lookup_insert_ne.
  - apply owner_kept_other; [done|]. cbn in *. destruct (decide (k0 = k)) as [->|Hne]; [congruence|by rewrite lookup_delete_ne].
Qed.
Lemma owner_kept_rtc t k s v v' : rtc (claim_move t) v v' → v.1.1 !! k = Some s → exclusiveOwner s ≠ 0 → exclusiveOwner s ≠ t →
  notifyCallback s ≠ None → owner_kept k s v v'.
Proof.
  intros Hm. revert s. induction Hm as [v|v1 v2 v3 Hm _ IH]; intros s Hk Ho Ht Hcb; [by apply owner_kept_refl|].
  pose proof (owner_kept_move t k s v1 v2 Hk Ho Ht Hcb Hm) as Hkept. pose proof Hkept as (s' & n & Hk' & Eo & Ec & _).
  eapply owner_kept_trans; [exact Hk'|done|]. apply IH; congruence.
Qed.
Lemma owner_kept_gone pfx k s v v' : rtc (claim_gone pfx) v v' → v.1.1 !! k = Some s → String.prefix pfx k = false →
  owner_kept k s v v' ∧ v'.1.1 !! k = Some s.
Proof.
  intros Hm Hk Hp. assert (v'.1.1 !! k = Some s ∧ v'.2 = v.2) as [Hk' E1].
  { revert Hk. induction Hm as [v|v1 v2 v3 Hm _ IH]; [done|]. intros Hk. destruct Hm as [k0 s0 C L E0 Hk0 Hp0]. cbn in *.
    apply IH. rewrite lookup_delete_ne; [done|]. congruence. }
  split; [|done]. exists s, []. repeat (split; [done|]). by left.
Qed.

(** C26: the exclusive owner of an interface stays its owner, with its callback and
    the recipient of its death, whatever others do: all requests of other callers
    on any device, their departures, deaths and everything else the service does
    leave it in possession; and when another claim makes the interface shared, the
    owner has been told of the conflict.  Only its own requests, its death and the
    departure of the device can end it. *)
Theorem exclusive_owner_stable m0 m c l m' b a i s : let k := MakeClaimKey b a i in
  claimStateMap_ m0 = ∅ → recipients_ m0 = [] → rtc (any_step char_signed) m0 m → in_u8 b → in_u8 a →
  claimStateMap_ m !! k = Some s → exclusiveOwner s ≠ 0 →
  service_step char_signed c m l m' → CallingTokenID c ≠ exclusiveOwner s →
  l ≠ L_departure b a → (∀ cb, notifyCallback s = Some cb → l ≠ L_death cb) →
  owner_kept k s (claims m) (claims m').
Proof.
  intros k Hc Hr Hs Hb Ha Hk Ho Hl Ht Hdep Hdeath. pose proof (claims_ok_reachable m0 m Hc Hr Hs) as Hok.
  assert (notifyCallback s ≠ None) as Hcb.
  { pose proof (proj1 Hok k s Hk) as Hs'. unfold claim_ok in Hs'. rewrite decide_False in Hs' by done. by destruct Hs' as (cb & r & -> & _). }
  apply step_claims in Hl. destruct l as [b' a' r|cb|cb|b' a'|remote|]; try (rewrite <- Hl in Hk || rewrite Hl; by apply owner_kept_refl).
  - by eapply owner_kept_rtc.
  - destruct Hl as (Hb' & Ha' & v & Hg & Hv).
    destruct (String.prefix (claim_prefix b' a') k) eqn:Hp.
    + exfalso. apply claim_prefix_key in Hp as [-> ->]; by try done.
    + destruct (owner_kept_gone _ _ _ _ _ Hg Hk Hp) as [Hkept Hk']. eapply owner_kept_trans; [exact Hk'|done|].
      by eapply owner_kept_rtc.
  - rewrite Hl. destruct (claims m) as [[C L] E0] eqn:Em. injection Em as EC _ _.
    pose proof (claim_died_lookup remote C L E0 k Hok) as Hd. rewrite <- EC, Hk in Hd. rewrite decide_False in Hd.
    2: { intros Hcb'. by apply (Hdeath remote). }
    exists s, []. rewrite EC in Hd. cbn [claim_died fst snd] in *. rewrite Hd. repeat (split; [done|]). by left.
Qed.

(** *** What the others get *)

(** C34: while an interface has an exclusive owner and is not shared, every bulk transfer
    by message and every submitted transfer on it (not queued requests and transfers by
    shared memory, which the code does not refuse), every exclusive claim and every release by another caller ends with an
    error code, whatever right the caller has on the device; the host manager is not
    called and the claims stay as they are. *)
Theorem exclusive_claim_refuses c b a i r m s : claimStateMap_ m !! MakeClaimKey b a i = Some s →
  exclusiveOwner s ≠ 0 → normalClaimed s = false → CallingTokenID c ≠ exclusiveOwner s → for_interface b a i r m →
  let '(res, m') := perform char_signed c b a r m in
  (∃ e, res = Done e ∧ e ≠ UEC_OK) ∧ rest m' = rest m.
Proof.
  intros Hk Ho Hn Ht Hr. assert (held_by_other c b a i m) as Hh by (by exists s).
  pose proof (perform_exclusive char_signed c b a i r m Hh Hr) as Hp.
  unfold Refuses, fixed in Hp. by destruct (perform char_signed c b a r m).
Qed.

(** C7: claims end with their holder: after the departure of a device nobody holds
    an interface of it; after the death of a client no claim has its callback; after
    a client with the right closes a device it owns no interface of it, and the
    claims of the others are as before. *)
Theorem claims_end c b a m : in_u8 b → in_u8 a →
  (∀ i, claimStateMap_ (DelDevice c b a m).2 !! MakeClaimKey b a i = None) ∧
  (∀ m0 remote, claimStateMap_ m0 = ∅ → recipients_ m0 = [] → rtc (any_step char_signed) m0 m → ∀ k s,
     claimStateMap_ (remote_died c remote m).2 !! k = Some s → notifyCallback s ≠ Some remote) ∧
  ((HasRight c (device_key b a) m).1 = true → let m' := (Close c b a m).2 in
     (∀ i s, claimStateMap_ m' !! MakeClaimKey b a i = Some s → CallingTokenID c ≠ 0 → exclusiveOwner s ≠ CallingTokenID c) ∧
     (∀ k s, claimStateMap_ m !! k = Some s → exclusiveOwner s ≠ CallingTokenID c → claimStateMap_ m' !! k = Some s)).
Proof.
  intros Hb Ha. split; [|split].
  - intros i. apply departure_table, claim_prefix_own.
  - intros m0 remote Hc Hr Hs k s Hk. pose proof (claims_ok_reachable m0 m Hc Hr Hs) as Hok.
    pose proof (remote_died_claims c remote m) as Hd.
    assert (claimStateMap_ (remote_died c remote m).2 = (claim_died remote (claims m)).1.1) as E1 by (by rewrite <- Hd).
    pose proof (claim_died_lookup remote _ _ _ k Hok) as Hl. rewrite E1 in Hk. unfold claims in Hk. rewrite Hl in Hk. destruct (claimStateMap_ m !! k) as [s0|]; [|done].
    case_decide as Hcb; [|congruence]. unfold disown in Hk. destruct (normalClaimed s0); by simplify_eq.
  - intros Hright m'. split.
    + intros i s Hk Ht Ho. unfold m' in Hk. rewrite close_table, Hright, claim_prefix_own in Hk. cbn in Hk.
      destruct (claimStateMap_ m !! _) as [s0|]; [|done]. destruct (Z.eqb_spec (exclusiveOwner s0) (CallingTokenID c)); [|congruence].
      unfold disown in Hk. destruct (normalClaimed s0); by simplify_eq.
    + intros k s Hk Ho. unfold m'. rewrite close_table, Hright, Hk, (proj2 (Z.eqb_neq _ _)) by done. by rewrite andb_false_r.
Qed.

(** ** Listeners *)

(** C32: what a listener hears is what happens.  Take the table of which user has
    which device open as the state that a listener follows, its notifications being
    the updates.  Every step of every reachable state, whoever makes it, takes the
    state of each listener that it leaves registered from the old table to the new
    one, a new listener starting from nothing; and whoever is not registered after
    the step hears nothing of it. *)
Theorem listener_knowledge m0 m c l m' : deviceConnectionMap_ m0 = ∅ → rtc (any_step char_signed) m0 m →
  service_step char_signed c m l m' → ∃ news, told m' = news ++ told m ∧ ∀ cb,
  (cb ∈ deviceListeners_ m' → ∀ use,
     know (if bool_decide (cb ∈ deviceListeners_ m) then uses (deviceConnectionMap_ m) else λ _, false) (heard cb news) use =
     uses (deviceConnectionMap_ m') use) ∧
  (cb ∉ deviceListeners_ m' → heard cb news = []).
Proof. intros Hc Hs Hl. exact (proj2 (served_step char_signed c l m m' Hl (conn_wf_reachable char_signed m0 m Hc Hs))). Qed.

(** ** Unloading *)

Context `{!DeviceServiceLaws DM}.
(** C35: the service goes when it is not needed.  After an event that it handled no
    timer runs while a device is attached or a gadget is connected; if nothing is,
    the timer runs, whatever requests, registrations and deaths follow until the next
    event of the driver leave it
    running, and when it fires before that event the service asks to be unloaded, once. *)
Theorem unload_when_idle c info m : let '(res, m1) := DeviceEvent char_signed c info m in
  res = Done UEC_OK → usbHostManager_ m1 ≠ None → usbDeviceManager_ m1 ≠ None →
  (attached m1 = true → unload_pending m1 = None ∧ (run_unload m1).2 = m1) ∧
  (attached m1 = false → (∀ p, (unload_Setup p).1 = true) → ∀ m2, rtc (between char_signed) m1 m2 →
     (UnloadSystemAbility (service_platform_ m2)).1 ≠ None → let m3 := (run_unload m2).2 in
     effects_ m3 = UnloadRequested :: effects_ m2 ∧ (run_unload m3).2 = m3).
Proof.
  pose proof (event_end char_signed c info m) as He. destruct (DeviceEvent char_signed c info m) as [res m1]. intros -> Hh Hd.
  destruct (He eq_refl) as (m0 & E1). cbn [fst snd] in E1. unfold fixed in E1. injection E1 as Ea Eb Ep.
  assert (both_set m0 = true) as Hb.
  { apply unload_around. cbn. rewrite <- Eb. unfold both_set. by destruct (usbHostManager_ m1), (usbDeviceManager_ m1). }
  destruct (unload_delay_run m0 Hb) as (E2 & Hbusy & Hidle). injection E2 as E2 _. rewrite <- Ep in Hbusy, Hidle. rewrite <- E2, <- Ea in Hbusy, Hidle.
  assert (∀ m : US, unload_pending m = None → (run_unload m).2 = m) as Hno by (intros x Hx; unfold run_unload; rewrite bind_run; cbn [get fst snd]; by rewrite Hx).
  split; [auto|]. intros Hatt Hok m2 Hs Hu m3.
  assert (unload_pending m2 = unload_pending m1) as E3.
  { clear - Hs. induction Hs as [|x y z Hxy _ IH]; [done|]. rewrite IH. by apply (between_pending char_signed). }
  destruct (fires m2) as [E4 E5]; [by rewrite E3; auto|done|]. split; [exact E4|]. by apply Hno.
Qed.
End Service.
