(* ===== verification/UsbServiceExamples.v ===== *)
(** * The service: a concrete platform and the theorems at work

    A service over the right manager with its database in memory, a bus with one
    device and a serial service with two ports; the theorems of the service applied
    to it, and runs that show what its checks leave out. *)
From S2P Require Import Prelude UsbErrors Platform UsbAccessory UsbDevice UsbDeviceTree UsbDescriptorParser UsbDescriptorTheorems UsbRightDatabase UsbRightDbHelper RightRecords UsbRightManager UsbRightManagerProofs RightTheorems UsbPortManager UsbDeviceManager SerialManager SerialTheorems UsbInterfaceType UsbHostManager UsbHostPolicy UsbHostTheorems UsbHostExamples UsbHostTransfer UsbService UsbServiceClaims UsbServiceHost UsbServiceDevice UsbServiceSerial UsbServiceLife UsbServiceSteps UsbServiceFrames UsbServiceClaimProofs UsbServiceConnProofs UsbServiceManagers UsbServiceUnload UsbServiceTheorems.

#[local] Existing Instance no_json.
#[local] Existing Instance demo_err_base.
#[local] Existing Instance demo_records.
#[local] Existing Instance demo_records_laws.

(** The bus answers every request for a descriptor with the same bytes. *)
Record DemoBus := { bus_bytes : list Z }.
#[export] Instance demo_bus : HostPlatform DemoBus () := {
  hdi_OpenDevice _ := constant 0; hdi_CloseDevice _ := constant 0;
  hdi_GetConfig _ _ := constant (0, 1);
  hdi_GetRawDescriptor _ _ := b ← get; mret (0, bus_bytes b); hdi_GetStringDescriptor _ _ l := constant (0, l);
  hdi_ManageInterface _ _ _ := constant 0; hdi_UsbDeviceAuthorize _ _ _ := constant 0;
  hdi_UsbInterfaceAuthorize _ _ _ _ := constant 0;
  UsbHostManager.GetParameter _ dflt := constant dflt;
  access _ _ := constant 0; iconv_open := constant false; iconv _ := constant None;
  steady_clock_ms := constant 0; UsbHostManager.GetCurrentTime := constant 0;
  CommonEventManager_PublishCommonEvent := constant true; UsbRightManager_IsSystemAppOrSa := constant false;
  has_SystemAbilityManager := constant true; CheckSystemAbility _ := constant true; LoadSystemAbility _ := constant 0;
  UsbHostManager.SendRequest _ := constant (0, ());
  reply_ReadInt32 := constant None; reply_ReadBool := constant None;
}.
#[export] Instance demo_transfers : HostTransferPlatform DemoBus := {
  IUsbDeviceInterface_Get := constant true; IUsbHostInterface_Get := constant true;
  hdi_BindUsbdHostSubscriber := constant 0; hdi_UnbindUsbdHostSubscriber := constant 0;
  hdi_ResetDevice _ := constant 0; hdi_ClaimInterface _ _ _ := constant 0; hdi_SetInterface _ _ _ := constant 0;
  hdi_ReleaseInterface _ _ := constant 0; hdi_SetConfig _ _ := constant 0; hdi_ClearHalt _ _ := constant 0;
  hdi_GetDeviceFileDescriptor _ fd := constant (0, fd); hdi_GetDeviceSpeed _ s := constant (0, s);
  hdi_GetInterfaceActiveStatus _ _ u := constant (0, u);
  hdi_BulkTransferRead _ _ _ l := constant (0, l); hdi_BulkTransferReadwithLength _ _ _ _ l := constant (0, l);
  hdi_BulkTransferWrite _ _ _ _ := constant 0; hdi_ControlTransferWrite _ _ _ := constant 0;
  hdi_ControlTransferRead _ _ l := constant (0, l); hdi_ControlTransferReadwithLength _ _ l := constant (0, l);
  hdi_RequestQueue _ _ _ _ := constant 0; hdi_RequestWait _ c b _ := constant (0, (c, b)); hdi_RequestCancel _ _ := constant 0;
  hdi_UsbCancelTransfer _ _ := constant 0; hdi_UsbSubmitTransfer _ _ _ _ := constant 0;
  hdi_RegBulkCallback _ _ _ := constant 0; hdi_UnRegBulkCallback _ _ := constant 0;
  hdi_BulkRead _ _ _ := constant 0; hdi_BulkWrite _ _ _ := constant 0; hdi_BulkCancel _ _ := constant 0;
  NotifyProcessStatus := constant (); cb_AddDeathRecipient _ := constant true;
}.
(** Ports are numbers; the first is on the device at 1-2. *)
#[export] Instance demo_ports : PortList (SerialManager (list Z) Z) := serial_port_list (λ p, {| busNum := 1; devAddr := p + 1 |}).
#[export] Instance demo_port_info : SerialPortInfo () (list Z) Z Z := {
  port_busNum _ := 1; port_devAddr p := p + 1; port_vid _ := 0x12d1; port_pid _ := 0x5000; port_serialNum _ := " ";
  make_attribute b _ _ _ := b; uninit_attribute := 0; ISerialInterface_Get := constant (Some [5; 6]);
}.
(** A gadget manager that only knows whether a gadget is connected. *)
#[export] Instance demo_device_service : DeviceService bool := {
  ds_InitUsbDeviceInterface := constant true; ds_Init := constant 0; ds_Stop := constant ();
  ds_SetPhyConnectState _ := constant (); ds_GetCurrentFunctions f := constant (0, f); ds_SetCurrentFunctions _ := constant 0;
  ds_ConvertFromString _ := 0; ds_ConvertToString _ := "none";
  ds_HandleEvent s := modify (λ _, s =? ACT_UPDEVICE); ds_ProcessCustomControlRequestUevent _ := constant ();
  ds_SetChargeFlag _ := constant (); ds_UserChangeProcess := constant (Some 0); ds_IsGadgetConnected := gets (λ b, b);
  ds_Dump _ := constant []; ds_GetDumpHelp := [];
}.
#[export] Instance demo_device_laws : DeviceServiceLaws bool := {| ds_gadget b := b; ds_gadget_law _ := eq_refl |}.
#[export] Instance demo_accessory_service : AccessoryService () := {
  as_InitUsbAccessoryInterface := constant true; as_GetAccessoryList _ l := constant l;
  as_GetAccessorySerialNumber _ _ s := constant (0, s); as_OpenAccessory fd := constant (0, fd); as_CloseAccessory _ := constant 0;
  as_HandleEvent _ := constant ();
}.
#[export] Instance demo_port_service : PortService () := {
  HDF_ERR_NOT_SUPPORT := -2; ps_InitUsbPortInterface := constant true; ps_Init := constant (); ps_Stop := constant ();
  ps_GetPorts l := constant (0, l); ps_GetSupportedModes _ s := constant (0, s); ps_SetPortRole _ _ _ := constant 0;
  ps_UpdatePort _ _ _ _ := constant (); ps_UpdatePortWithModes _ _ _ _ _ := constant (); ps_IsReverseCharge := constant false;
  ps_Dump _ := constant (Some []); ps_GetDumpHelp := [];
}.
(** Tokens 7 and 8 are applications of the user 100, the others services. *)
#[export] Instance demo_service_platform : ServicePlatform () := {
  HDF_DEV_ERR_OP := -1;
  AccessTokenKit_GetHapTokenInfo t := constant (
    if t =? 7 then Some {| hap_userID := 100; hap_bundleName := "com.app"; hap_apiVersion := 18 |}
    else if t =? 8 then Some {| hap_userID := 100; hap_bundleName := "com.other"; hap_apiVersion := 18 |} else None);
  AccessTokenKit_GetTokenType t := constant (if (t =? 7) || (t =? 8) then TOKEN_HAP else TOKEN_NATIVE);
  AddDeathRecipient _ := constant true; service_IUsbHostInterface_Get := constant true; UsbRightDbHelper_GetInstance := constant true;
  tty_exists := constant false; datashare_ready := constant true; datashare_Query := constant (Some "true");
  datashare_Update _ := constant true; system_GetBoolParameter _ := constant false; common_event_service := constant true;
  SubscribeSystemAbility := constant (Some 0); Publish := constant true; UnloadSystemAbility := constant (Some 0);
  unload_Setup := constant true; unload_Register := constant 3;
}.

(** The system application has token 9. *)
Definition root : Caller := {| CallingTokenID := 9; CallingUid := 0 |}.
Definition demo_rights (c : Caller) : RightPlatform () :=
  let 'Build_RightPlatform _ a b c1 d e f g h i j k l _ n o p q r s t u v w x y z := demo_platform in
  Build_RightPlatform () a b c1 d e f g h i j k l (λ _, CallingTokenID c =? 9) n o p q r s t u v w x y z.
#[local] Instance demo_right_service : RightService (UsbRightManager (UsbRightDbHelper MemStore) ()) :=
  right_service demo_rights (2 ^ 64 - 1) (λ _, mret ()).
#[local] Instance demo_right_laws : RightServiceLaws (UsbRightManager (UsbRightDbHelper MemStore) ()) :=
  right_service_laws demo_rights (2 ^ 64 - 1) (λ _, mret ()).

Abbreviation DemoService := (UsbService (UsbRightManager (UsbRightDbHelper MemStore) ()) (HostTransfers DemoBus (SerialManager (list Z) Z)) bool () () ()).
Definition demo_bytes : list Z := device_chunk composite_device ++ serialise composite.
Definition demo_host_transfers : HostTransfers DemoBus (SerialManager (list Z) Z) := {|
  manager := new_manager {| bus_bytes := demo_bytes |} true true (Some idle_manager); usbHostHdiCb_ := None; submitRecipients_ := [] |}.
(** Nothing is attached; the applications have the stored rights [rs]. *)
Definition empty_service (rs : list Row) : DemoService := {|
  usbRightManager_ := Some (demo_manager rs); usbHostManager_ := Some demo_host_transfers;
  usbDeviceManager_ := Some false; usbAccessoryManager_ := Some (); usbPortManager_ := Some ();
  deviceVidPidMap_ := ∅; serialVidPidMap_ := ∅; claimStateMap_ := ∅; deviceListeners_ := [];
  deviceConnectionMap_ := ∅; accessoryClientMap_ := ∅; recipients_ := []; ready_ := true; commEventRetryTimes_ := 0;
  unloadSelfTimerId_ := 0; unload_pending := None; service_platform_ := (); effects_ := [] |}.
Definition up (bus addr : Z) : USBDeviceInfo := {| status := ACT_DEVUP; info_busNum := bus; info_devNum := addr |}.
Definition down (bus addr : Z) : USBDeviceInfo := {| status := ACT_DEVDOWN; info_busNum := bus; info_devNum := addr |}.
Definition event (info : USBDeviceInfo) (m : DemoService) : DemoService := (DeviceEvent true root info m).2.
Definition ask (c : Caller) (r : DeviceRequest) (m : DemoService) : DemoService := (perform true c 1 2 r m).2.
(** The device at 1-2. *)
Definition plugged (rs : list Row) : DemoService := event (up 1 2) (empty_service rs).
Definition right_row (id : Z) (bundle token : string) : Row := {|
  row_id := id; row_uid := 100; row_installTime := 5; row_updateTime := 6; row_requestTime := 999999990;
  row_validPeriod := USB_RIGHT_VALID_PERIOD_SET; row_deviceName := "4817-20480- "; row_bundleName := bundle; row_tokenId := token |}.
Definition of_alice : Row := right_row 1 "com.app" "7".
Definition of_bob : Row := right_row 2 "com.other" "8".
(** Both have the right; Alice claims the interface 0 for herself. *)
Definition shared_bus : DemoService := plugged [of_alice; of_bob].
Definition claimed : DemoService := ask alice (R_ClaimInterfaceExclusive 0 1 (Some 50)) shared_bus.
Definition endpoint : USBEndpoint.t := {|
  USBEndpoint.address_ := 0x81; USBEndpoint.attributes_ := 2; USBEndpoint.interval_ := 0;
  USBEndpoint.maxPacketSize_ := 512; USBEndpoint.interfaceId_ := 0 |}.

(** *** What the checks leave out *)

(** A queued request does not ask for the claim. *)
Example a_queued_request_ignores_the_claim :
  ((perform true bob 1 2 (R_BulkTransferRead endpoint [] 10) claimed).1,
   (perform true bob 1 2 (R_RequestQueue endpoint [] []) claimed).1) =
  (Done (uec UEC_SERVICE_IO_EXCEPTION), Done UEC_OK).
Proof. vm_compute. reflexivity. Qed.
(** Nor does an ordinary claim; after it the transfers of anyone pass. *)
Example a_normal_claim_ends_exclusivity :
  let m := ask bob (R_ClaimInterface 0 1) claimed in
  ((perform true bob 1 2 (R_BulkTransferRead endpoint [] 10) m).1, is_news <$> head (effects_ m)) = (Done UEC_OK, Some true).
Proof. vm_compute. reflexivity. Qed.
(** Without a callback the claim succeeds and nobody owns the interface. *)
Example an_exclusive_claim_without_callback :
  let '(ret, m) := perform true alice 1 2 (R_ClaimInterfaceExclusive 0 1 None) shared_bus in
  (ret, map_to_list (claimStateMap_ m)) = (Done UEC_OK, []).
Proof. vm_compute. reflexivity. Qed.
(** Two opens and one close of a user: the listener hears that it left. *)
Example two_opens_and_one_close :
  let opened := ask alice R_OpenDevice (ask alice R_OpenDevice shared_bus) in
  (map_to_list (deviceConnectionMap_ (ask alice R_Close opened)), size (deviceConnectionMap_ opened)) = ([], 1%nat).
Proof. vm_compute. reflexivity. Qed.
(** A second arrival at an occupied address keeps the identity of the first. *)
Example an_arrival_keeps_the_old_identity :
  let other := set_manager (set_platform {| bus_bytes := device_chunk mouse ++ serialise composite |} (manager demo_host_transfers)) demo_host_transfers in
  let m := event (up 1 2) (set_host (Some other) shared_bus) in
  (deviceVidPidMap_ m !! "1-2", UsbDevice.vendorId_ <$> (h ← usbHostManager_ m; devices_ (manager h) !! "1-2")) =
  (Some "4817-20480- ", Some (UsbDevice.vendorId_ mouse)).
Proof. vm_compute. reflexivity. Qed.
(** A caller without token information asks for the right: the code says success. *)
Definition nobody : Caller := {| CallingTokenID := 20; CallingUid := 5 |}.
Example a_request_without_token_succeeds : (RequestRight nobody "1-2" shared_bus).1 = UEC_OK.
Proof. vm_compute. reflexivity. Qed.

(** *** The theorems at work *)

(** An arrival does not touch the rights. *)
Lemma plugged_rights rs : usbRightManager_ (plugged rs) = Some (demo_manager rs).
Proof. vm_compute. reflexivity. Qed.
Lemma demo_rights_settled rs : rights_settled (plugged rs).
Proof. intros rm. rewrite plugged_rights. by intros [= <-]. Qed.
(** Bob has no record, whatever the device. *)
Lemma bob_is_not_allowed desc (m : DemoService) : usbRightManager_ m = Some (demo_manager [of_alice]) → ¬ identity_right demo_rights bob desc m.
Proof.
  intros E1 (rm & Hrm & Hr). rewrite E1 in Hrm. injection Hrm as <-. destruct Hr as [[Hs|Hs]|(info & Hi & Hg)]; [done|done|].
  cbn in Hi. injection Hi as <-. destruct Hg as [Hu|Hg]; [done|].
  apply existsb_exists in Hg as (r & Hr & Hg). apply andb_true_iff in Hg as [Hg _]. apply bool_decide_eq_true in Hg as (_ & _ & Hb & _).
  destruct Hr as [<-|[]]. done.
Qed.

Lemma device_request_needs_right_witness :
  let '(res, m') := perform true bob 1 2 R_OpenDevice (plugged [of_alice]) in
  (rights_settled (plugged [of_alice]) ∧ res = Done (uec UEC_SERVICE_PERMISSION_DENIED)) ∧
  (∃ e, res = Done e ∧ e ≠ UEC_OK) ∧ rest m' = rest (plugged [of_alice]).
Proof.
  assert (rights_settled (plugged [of_alice])) as Hs by apply demo_rights_settled.
  assert (¬ device_right demo_rights bob "1-2" (plugged [of_alice])) as Hn.
  { intros (desc & _ & Hr). exact (bob_is_not_allowed desc _ (plugged_rights _) Hr). }
  pose proof (device_request_needs_right true demo_rights (2 ^ 64 - 1) (λ _, mret ()) bob 1 2 R_OpenDevice (plugged [of_alice]) Hs Hn) as Hp.
  assert ((perform true bob 1 2 R_OpenDevice (plugged [of_alice])).1 = Done (uec UEC_SERVICE_PERMISSION_DENIED)) as Hc by (by vm_compute).
  change (device_key 1 2) with "1-2" in Hp. destruct (perform true bob 1 2 R_OpenDevice (plugged [of_alice])) as [res m']. exact (conj (conj Hs Hc) Hp).
Defined.

(** The ports are known; the first belongs to the device. *)
Definition with_ports : DemoService := (SerialGetPortList [] (plugged [of_alice])).2.
Lemma serial_open_needs_right_witness :
  let '(res, m') := SerialOpen bob 1 (Some 60) with_ports in
  (rights_settled with_ports ∧ (SerialOpen alice 1 (Some 60) with_ports).1 = Some UEC_OK) ∧
  (∃ e, res = Some e ∧ e ≠ UEC_OK) ∧ rest m' = rest with_ports.
Proof.
  assert (usbRightManager_ with_ports = Some (demo_manager [of_alice])) as E1 by (vm_compute; reflexivity).
  assert (rights_settled with_ports) as Hs by (intros rm; rewrite E1; by intros [= <-]).
  assert (¬ port_right demo_rights bob 1 with_ports) as Hn.
  { intros (name & desc & p & _ & Hr). apply (bob_is_not_allowed desc (set_service_platform p with_ports)); [|done].
    rewrite <- E1. by destruct with_ports. }
  pose proof (serial_open_needs_right demo_rights (2 ^ 64 - 1) (λ _, mret ()) bob 1 (Some 60) with_ports Hs Hn) as Hp.
  assert ((SerialOpen alice 1 (Some 60) with_ports).1 = Some UEC_OK) as Ha by (by vm_compute).
  destruct (SerialOpen bob 1 (Some 60) with_ports) as [res m']. split; [exact (conj Hs Ha)|exact Hp].
Defined.

(** *** Claims *)

Definition start : DemoService := empty_service [of_alice; of_bob].
Lemma plug_step rs : any_step true (empty_service rs) (plugged rs).
Proof. exists root, L_other. split; [done|]. exact (s_event true root (empty_service rs) (up 1 2)). Qed.
Lemma ask_step c r m : CallingTokenID c ≠ 0 → any_step true m (ask c r m).
Proof. intros Hc. exists c, (L_request 1 2 r). split; [done|]. by apply s_request. Qed.
Lemma claimed_reachable : rtc (any_step true) start claimed.
Proof.
  apply (rtc_l _ start shared_bus); [exact (plug_step _)|]. apply (rtc_once shared_bus).
  exact (ask_step alice (R_ClaimInterfaceExclusive 0 1 (Some 50)) shared_bus ltac:(done)).
Qed.

Definition alice_owns : ClaimInterfaceState := {|
  exclusiveOwner := 7; normalClaimed := false; notifyCallback := Some 50;
  claimRecipient := Some {| busNum_ := 1; devAddr_ := 2; interfaceid_ := 0; tokenId_ := 7 |} |}.
Lemma alice_owns_it : claimStateMap_ claimed !! "1-2-0" = Some alice_owns.
Proof. vm_compute. reflexivity. Qed.
Lemma claims_invariant_witness :
  claimStateMap_ claimed !! "1-2-0" = Some alice_owns ∧
  NoDup (omap claim_watch (recipients_ claimed)).
Proof.
  split; [exact alice_owns_it|]. exact (proj2 (proj2 (claims_invariant true start claimed eq_refl eq_refl claimed_reachable))).
Defined.

Lemma exclusive_owner_stable_witness :
  let m' := ask bob (R_ClaimInterface 0 1) claimed in
  owner_kept "1-2-0" alice_owns (claims claimed) (claims m') ∧ normalClaimed <$> claimStateMap_ m' !! "1-2-0" = Some true.
Proof.
  split; [|vm_compute; reflexivity].
  assert (CallingTokenID bob ≠ exclusiveOwner alice_owns) as Ht by done.
  assert (exclusiveOwner alice_owns ≠ 0) as Ho by done. assert (in_u8 1 ∧ in_u8 2) as [Hb Ha] by done.
  refine (exclusive_owner_stable true start claimed bob (L_request 1 2 (R_ClaimInterface 0 1)) _ 1 2 0 alice_owns
    eq_refl eq_refl claimed_reachable Hb Ha alice_owns_it Ho _ Ht _ _); [by apply s_request|discriminate|discriminate].
Defined.

Lemma exclusive_claim_refuses_witness :
  let '(res, m') := perform true bob 1 2 (R_BulkTransferRead endpoint [] 10) claimed in
  res = Done (uec UEC_SERVICE_IO_EXCEPTION) ∧ (∃ e, res = Done e ∧ e ≠ UEC_OK) ∧ rest m' = rest claimed.
Proof.
  pose proof (exclusive_claim_refuses true bob 1 2 0 (R_BulkTransferRead endpoint [] 10) claimed
    alice_owns alice_owns_it ltac:(done) eq_refl ltac:(done) eq_refl) as Hp.
  assert ((perform true bob 1 2 (R_BulkTransferRead endpoint [] 10) claimed).1 = Done (uec UEC_SERVICE_IO_EXCEPTION)) as Hr by (by vm_compute).
  destruct (perform true bob 1 2 (R_BulkTransferRead endpoint [] 10) claimed) as [res m']. exact (conj Hr Hp).
Defined.

Lemma claims_end_witness :
  (in_u8 1 ∧ in_u8 2 ∧ is_Some (claimStateMap_ claimed !! "1-2-0")) ∧
  claimStateMap_ (DelDevice root 1 2 claimed).2 !! "1-2-0" = None ∧
  (∀ i s, claimStateMap_ (Close alice 1 2 claimed).2 !! MakeClaimKey 1 2 i = Some s → exclusiveOwner s ≠ 7).
Proof.
  assert (in_u8 1 ∧ in_u8 2) as [H1 H2] by done. split; [split; [done|split; [done|rewrite alice_owns_it; by eexists]]|].
  split; [exact (proj1 (claims_end true root 1 2 claimed H1 H2) 0)|]. intros i s Hs.
  assert ((HasRight alice "1-2" claimed).1 = true) as Hr by (vm_compute; reflexivity).
  exact (proj1 (proj2 (proj2 (claims_end true alice 1 2 claimed H1 H2)) Hr) i s Hs ltac:(done)).
Defined.

(** *** Listeners and the timer *)

Definition listened : DemoService := (RegisterConnectionListener root (Some 70) shared_bus).2.
Lemma listener_knowledge_witness :
  let m' := ask alice R_OpenDevice listened in
  deviceListeners_ m' = [70] ∧
  ∃ news, told m' = news ++ told listened ∧ know (uses (deviceConnectionMap_ listened)) (heard 70 news) ("1-2", 100) = true.
Proof.
  split; [by vm_compute|].
  destruct (listener_knowledge true start listened alice (L_request 1 2 R_OpenDevice) (ask alice R_OpenDevice listened)) as (news & Hn & Hk).
  - done.
  - apply (rtc_l _ start shared_bus); [exact (plug_step _)|]. apply (rtc_once shared_bus). exists root, (L_register (Some 70)). split; [done|]. by apply s_register.
  - by apply s_request.
  - exists news. split; [done|]. pose proof (proj1 (Hk 70) ltac:(vm_compute; left) ("1-2", 100)) as Hu.
    rewrite bool_decide_eq_true_2 in Hu by (vm_compute; left). rewrite Hu. vm_compute. reflexivity.
Defined.
Lemma unload_when_idle_witness :
  let m1 := event (down 1 2) claimed in
  let m3 := (run_unload m1).2 in
  (attached claimed = true ∧ attached m1 = false) ∧ effects_ m3 = UnloadRequested :: effects_ m1 ∧ (run_unload m3).2 = m3.
Proof.
  assert ((DeviceEvent true root (down 1 2) claimed).1 = Done UEC_OK) as Hr by (vm_compute; reflexivity).
  assert (attached claimed = true) as Hc by (vm_compute; reflexivity).
  assert (both_set (DeviceEvent true root (down 1 2) claimed).2 = true) as Hb by (vm_compute; reflexivity).
  assert (attached (DeviceEvent true root (down 1 2) claimed).2 = false) as Ha by (vm_compute; reflexivity).
  pose proof (unload_when_idle true root (down 1 2) claimed) as Hu. unfold event.
  destruct (DeviceEvent true root (down 1 2) claimed) as [res m1]. cbn [fst snd] in Hr, Hb, Ha |- *. cbv zeta.
  apply andb_true_iff in Hb as [Hh Hd].
  assert (usbHostManager_ m1 ≠ None) as Hh' by (intros Hx; by rewrite Hx in Hh).
  assert (usbDeviceManager_ m1 ≠ None) as Hd' by (intros Hx; by rewrite Hx in Hd).
  split; [exact (conj Hc Ha)|].
  exact (proj2 (Hu Hr Hh' Hd') Ha ltac:(intros []; reflexivity) m1 (rtc_refl _ m1) ltac:(discriminate)).
Defined.
