(* ===== verification/UsbSrvClient.v ===== *)
(** * The client library (interfaces/innerkits/native/src/usb_srv_client.cpp,
    claim_exclusive_callback.cpp, usb_device_pipe.cpp, usb_request.cpp)

    What an application links: one object that finds the service, forwards each
    request to it, and keeps the listeners of exclusive claims.  The proxy that
    carries a request is generated from IUsbServer.idl; it is the class
    [IUsbServer], a request is a value of [ServerCall]. *)
From S2P Require Import Prelude UsbErrors Platform UsbAccessory UsbDevice UsbDescriptorParser UsbPortManager UsbInterfaceType UsbHostManager UsbHostTransfer UsbService UsbServiceHost UsbServiceSerial.

Definition PARAM_ERROR : Z := 401.
Definition CLAIM_FORCE_1 : Z := 1.
Definition ERR_OK : Z := 0.

(** ** The interface (IUsbServer.idl) *)

(** One constructor for each method the library calls, indexed by what comes back: the code, with
    the values of the variables that are filled.  Such a variable is passed with
    the value it has before. *)
Inductive ServerCall : Type → Type :=
  | C_GetDevices (deviceList : list UsbDevice.t) : ServerCall (Z * list UsbDevice.t)
  | C_OpenDevice (busNum devAddr : Z) : ServerCall Z
  | C_Close (busNum devAddr : Z) : ServerCall Z
  | C_ResetDevice (busNum devAddr : Z) : ServerCall Z
  | C_ClaimInterface (busNum devAddr interfaceid force : Z) : ServerCall Z
  | C_ClaimInterfaceExclusive (busNum devAddr interfaceid force : Z) (cb : option RemoteObject) : ServerCall Z
  | C_SetInterface (busNum devAddr interfaceid altIndex : Z) : ServerCall Z
  | C_ReleaseInterface (busNum devAddr interfaceid : Z) : ServerCall Z
  | C_SetActiveConfig (busNum devAddr configId : Z) : ServerCall Z
  | C_ManageGlobalInterface (disable : bool) : ServerCall Z
  | C_ManageDevice (vendorId productId : Z) (disable : bool) : ServerCall Z
  | C_ManageDevicePolicy (trustList : list UsbDeviceIdInfo) : ServerCall Z
  | C_ManageInterfaceType (disableType : list UsbDeviceTypeInfo) (disable : bool) : ServerCall Z
  | C_ManageUsbType (disableType : list UsbDeviceTypeInfo) (disable : bool) : ServerCall Z
  | C_UsbAttachKernelDriver (busNum devAddr interfaceid : Z) : ServerCall Z
  | C_UsbDetachKernelDriver (busNum devAddr interfaceid : Z) : ServerCall Z
  | C_ClearHalt (busNum devAddr interfaceid endpointId : Z) : ServerCall Z
  | C_GetRawDescriptor (busNum devAddr : Z) (bufferData : list Z) : ServerCall (Z * list Z)
  | C_GetFileDescriptor (busNum devAddr fd : Z) : ServerCall (Z * Z)
  | C_GetDeviceSpeed (busNum devAddr speed : Z) : ServerCall (Z * Z)
  | C_GetInterfaceActiveStatus (busNum devAddr interfaceid : Z) (unactivated : bool) : ServerCall (Z * bool)
  | C_BulkTransferWrite (busNum devAddr : Z) (ep : USBEndpoint.t) (buffData : list Z) (timeOut : Z) : ServerCall Z
  | C_BulkTransferReadwithLength (busNum devAddr : Z) (ep : USBEndpoint.t) (length : Z) (buffData : list Z) (timeOut : Z) : ServerCall (Z * list Z)
  | C_ControlTransfer (busNum devAddr : Z) (ctrlParams : UsbCtlSetUp) (bufferData : list Z) : ServerCall (Z * list Z)
  | C_UsbControlTransfer (busNum devAddr : Z) (ctrlParams : UsbCtlSetUp) (bufferData : list Z) : ServerCall (Z * list Z)
  | C_RequestQueue (busNum devAddr : Z) (ep : USBEndpoint.t) (clientData bufferData : list Z) : ServerCall Z
  | C_RequestWait (busNum devAddr timeOut : Z) (clientData bufferData : list Z) : ServerCall (Z * (list Z * list Z))
  | C_RequestCancel (busNum devAddr interfaceid endpointId : Z) : ServerCall Z
  | C_UsbCancelTransfer (busNum devAddr endpoint : Z) : ServerCall Z
  | C_UsbSubmitTransfer (busNum devAddr : Z) (info : UsbTransInfo) (cb : option RemoteObject) (fd memSize : Z) : ServerCall Z
  | C_RegBulkCallback (busNum devAddr : Z) (ep : USBEndpoint.t) (cb : option RemoteObject) : ServerCall Z
  | C_UnRegBulkCallback (busNum devAddr : Z) (ep : USBEndpoint.t) : ServerCall Z
  | C_BulkRead (busNum devAddr : Z) (ep : USBEndpoint.t) (ashmem memSize : Z) : ServerCall Z
  | C_BulkWrite (busNum devAddr : Z) (ep : USBEndpoint.t) (ashmem memSize : Z) : ServerCall Z
  | C_BulkCancel (busNum devAddr : Z) (ep : USBEndpoint.t) : ServerCall Z
  | C_HasRight (deviceName : string) (hasRight : bool) : ServerCall (Z * bool)
  | C_RequestRight (deviceName : string) : ServerCall Z
  | C_RemoveRight (deviceName : string) : ServerCall Z
  | C_AddAccessRight (tokenId deviceName : string) : ServerCall Z
  | C_RegisterConnectionListener (cb : option RemoteObject) : ServerCall Z
  | C_UnRegisterConnectionListener (cb : option RemoteObject) : ServerCall Z
  | C_GetCurrentFunctions (funcs : Z) : ServerCall (Z * Z)
  | C_SetCurrentFunctions (funcs : Z) : ServerCall Z
  | C_UsbFunctionsFromString (funcs : string) (funcResult : Z) : ServerCall (Z * Z)
  | C_UsbFunctionsToString (funcs : Z) (result : string) : ServerCall (Z * string)
  | C_AddAccessoryRight (tokenId : Z) (access : USBAccessory) : ServerCall Z
  | C_HasAccessoryRight (access : USBAccessory) (checkResult : bool) : ServerCall (Z * bool)
  | C_RequestAccessoryRight (access : USBAccessory) (checkResult : bool) : ServerCall (Z * bool)
  | C_CancelAccessoryRight (access : USBAccessory) : ServerCall Z
  | C_GetAccessoryList (accessList : list USBAccessory) : ServerCall (Z * list USBAccessory)
  | C_OpenAccessory (access : USBAccessory) (fd : Z) (accessoryRemote : option RemoteObject) : ServerCall (Z * Z)
  | C_CloseAccessory (fd : Z) : ServerCall Z
  | C_GetPorts (ports : list UsbPort) : ServerCall (Z * list UsbPort)
  | C_GetSupportedModes (portId supportedModes : Z) : ServerCall (Z * Z)
  | C_SetPortRole (portId powerRole dataRole : Z) : ServerCall Z
  | C_SerialOpen (portId : Z) (serialRemote : option RemoteObject) : ServerCall Z
  | C_SerialClose (portId : Z) : ServerCall Z
  | C_SerialRead (portId : Z) (buffData : list Z) (size actualSize timeout : Z) : ServerCall (Z * (list Z * Z))
  | C_SerialWrite (portId : Z) (buffData : list Z) (size actualSize timeout : Z) : ServerCall (Z * Z)
  | C_SerialGetAttribute (portId : Z) (attribute : UsbSerialAttr) : ServerCall (Z * UsbSerialAttr)
  | C_SerialSetAttribute (portId : Z) (attribute : UsbSerialAttr) : ServerCall Z
  | C_SerialGetPortList (serialPortList : list UsbSerialPort) : ServerCall (Z * list UsbSerialPort)
  | C_AddSerialRight (tokenId portId : Z) : ServerCall Z
  | C_HasSerialRight (portId : Z) (hasRight : bool) : ServerCall (Z * bool)
  | C_RequestSerialRight (portId : Z) (hasRight : bool) : ServerCall (Z * bool)
  | C_CancelSerialRight (portId : Z) : ServerCall Z.

(** A call through the proxy of a remote object, with what it does to the rest of
    the system. *)
Class IUsbServer (S : Type) := serve : ∀ A, RemoteObject → ServerCall A → state S A.
Arguments serve {S _ A} _ _ _.

(** The system ability manager and the remote objects of the application.  The
    object of the ability is the service's, so a proxy can be made of it. *)
Class ClientPlatform (P : Type) := {
  GetSystemAbilityManager : state P bool;
  LoadSystemAbility : state P (option RemoteObject);
  CheckSystemAbility : state P (option RemoteObject);
  AsObject : RemoteObject → option RemoteObject;
  serial_monitor : RemoteObject;                    (* [new SerialDeathMonitor()] *)
  accessory_monitor : RemoteObject;                 (* [new AccessoryDeathMonitor()] *)
  claim_remote : RemoteObject;                      (* [new ClaimExclusiveCallback()] *)
  new_transfer_callback : Z → state P RemoteObject; (* [new UsbdCallBackServer(cb)] *)
  ERR_INVALID_VALUE : Z;
}.

(** ** What the library keeps *)

(** The identity of a [std::function]. *)
Definition Listener : Type := Z.
(** [ClaimExclusiveCallback] *)
Record ClaimExclusiveCallback := { listeners_ : gmap string Listener }.
Record USBDevicePipe := { pipe_busNum_ : Z; pipe_devAddr_ : Z }.
Definition new_pipe : USBDevicePipe := {| pipe_busNum_ := UINT8_MAX; pipe_devAddr_ := UINT8_MAX |}.
Record UsbRequest := {
  pipe_ : USBDevicePipe; endpoint_ : USBEndpoint.t; clientData_ : list Z; reqData_ : list Z }.

(** [HDI::Usb::V1_0::UsbCtrlTransfer]: the older structure, without a length. *)
Record UsbCtrlTransfer := {
  old_requestType : Z; old_requestCmd : Z; old_value : Z; old_index : Z; old_timeout : Z }.

Record UsbSrvClient (S P : Type) := {
  proxy_ : option RemoteObject;
  deathRecipient_ : Z;                              (* which recipient was made last *)
  claimCallback_ : option ClaimExclusiveCallback;
  serialRemote_ : option RemoteObject;
  accessoryRemote_ : option RemoteObject;
  watched_ : list (RemoteObject * Z);               (* where a recipient is registered *)
  heard_ : list (Listener * (Z * Z * Z));           (* the calls of listeners, newest first *)
  server_ : S;
  platform_ : P;
}.
Arguments proxy_ {S P} _.
Arguments deathRecipient_ {S P} _.
Arguments claimCallback_ {S P} _.
Arguments serialRemote_ {S P} _.
Arguments accessoryRemote_ {S P} _.
Arguments watched_ {S P} _.
Arguments heard_ {S P} _.
Arguments server_ {S P} _.
Arguments platform_ {S P} _.
Arguments Build_UsbSrvClient {S P} _ _ _ _ _ _ _ _ _.

Section Fields.
Context {S P : Type}.
Implicit Types m : UsbSrvClient S P.
Definition set_proxy x m := let 'Build_UsbSrvClient _ b c d e f g h i := m in Build_UsbSrvClient x b c d e f g h i.
Definition set_recipient x m := let 'Build_UsbSrvClient a _ c d e f g h i := m in Build_UsbSrvClient a x c d e f g h i.
Definition set_callback x m := let 'Build_UsbSrvClient a b _ d e f g h i := m in Build_UsbSrvClient a b x d e f g h i.
Definition set_remotes x y m := let 'Build_UsbSrvClient a b c _ _ f g h i := m in Build_UsbSrvClient a b c x y f g h i.
Definition set_watched x m := let 'Build_UsbSrvClient a b c d e _ g h i := m in Build_UsbSrvClient a b c d e x g h i.
Definition set_heard x m := let 'Build_UsbSrvClient a b c d e f _ h i := m in Build_UsbSrvClient a b c d e f x h i.
Definition set_server (x : S) m := let 'Build_UsbSrvClient a b c d e f g _ i := m in Build_UsbSrvClient a b c d e f g x i.
Definition set_platform (x : P) m := let 'Build_UsbSrvClient a b c d e f g h _ := m in Build_UsbSrvClient a b c d e f g h x.
End Fields.

(** ** Listeners of exclusive claims (claim_exclusive_callback.cpp) *)

Definition MakeKey (busNum devAddr interfaceId : Z) : string :=
  pretty busNum +:+ "-" +:+ pretty devAddr +:+ "-" +:+ pretty interfaceId.
Definition AddListener (busNum devAddr interfaceId : Z) (listener : option Listener) (k : ClaimExclusiveCallback)
    : ClaimExclusiveCallback :=
  match listener with
  | None => k
  | Some l => {| listeners_ := <[MakeKey busNum devAddr interfaceId := l]> (listeners_ k) |}
  end.
Definition RemoveListener (busNum devAddr interfaceId : Z) (k : ClaimExclusiveCallback) : ClaimExclusiveCallback :=
  {| listeners_ := delete (MakeKey busNum devAddr interfaceId) (listeners_ k) |}.
(** The loop erases each key with the prefix. *)
Definition RemoveListenersByDevice (busNum devAddr : Z) (k : ClaimExclusiveCallback) : ClaimExclusiveCallback :=
  let prefix := pretty busNum +:+ "-" +:+ pretty devAddr +:+ "-" in
  {| listeners_ := filter (λ kv, String.prefix prefix kv.1 = false) (listeners_ k) |}.
(** Which listener is called; with none there is only a log line. *)
Definition conflict_listener (busNum devAddr interfaceId : Z) (k : ClaimExclusiveCallback) : option Listener :=
  listeners_ k !! MakeKey busNum devAddr interfaceId.

Section Client.
Context {S P : Type} `{!IUsbServer S, !ClientPlatform P, !ErrCodeBase}.
Abbreviation CL := (UsbSrvClient S P).
Abbreviation M := (state CL).
(** What other threads do to the library, and anybody to the service, where a
    method holds no lock. *)
Context (others : M ()).
Abbreviation NO_INIT := (uec UEC_INTERFACE_NO_INIT).

Definition on_platform {A} (f : state P A) : M A := zoom platform_ set_platform f.
(** A call through [proxy_], which is [p]. *)
Definition call {A} (p : RemoteObject) (e : ServerCall A) : M A := zoom server_ set_server (serve p e).
(** A call on [claimCallback_] after the test for null. *)
Definition on_callback (f : ClaimExclusiveCallback → ClaimExclusiveCallback) : M () :=
  modify (λ m, set_callback (f <$> claimCallback_ m) m).

Definition onConflict (busNum devAddr interfaceId : Z) : M Z :=
  m ← get;
  match k ← claimCallback_ m; conflict_listener busNum devAddr interfaceId k with
  | Some l => modify (λ m, set_heard ((l, (busNum, devAddr, interfaceId)) :: heard_ m) m)
  | None => mret ()
  end;;
  mret 0.

(** ** The connection *)

Definition ConnectUsbService (force : bool) : M Z :=
  p ← gets proxy_;
  match p with
  | Some _ => mret UEC_OK
  | None =>
      sm ← on_platform GetSystemAbilityManager;
      if negb sm then mret (uec UEC_INTERFACE_GET_SYSTEM_ABILITY_MANAGER_FAILED) else
      remoteObject ← on_platform (if force then LoadSystemAbility else CheckSystemAbility);
      match (remoteObject : option RemoteObject) with
      | None => mret (uec UEC_INTERFACE_GET_USB_SERVICE_FAILED)
      | Some remote =>
          modify (set_proxy (Some remote));;
          let deathObject := AsObject remote in
          match deathObject with
          | None => mret (uec UEC_INTERFACE_DEAD_OBJECT)
          | Some obj =>
              modify (λ m, set_recipient (deathRecipient_ m + 1) m);;
              modify (λ m, set_watched ((obj, deathRecipient_ m) :: watched_ m) m);;
              mret UEC_OK
          end
      end
  end.
Definition Connect (force : bool) : M Z :=
  p ← gets proxy_; match p with Some _ => mret UEC_OK | None => ConnectUsbService force end.

(** [remote]: the object that died, [None] when the weak pointer cannot be
    promoted.  The lock is given up while the service loads. *)
Definition ResetProxy (remote : option RemoteObject) : M () :=
  p ← gets proxy_;
  match p with
  | None => mret ()
  | Some p =>
      let serviceRemote := AsObject p in
      match serviceRemote with
      | Some r =>
          if bool_decide (remote = Some r) then
            modify (λ m, set_watched (remove_one (r, deathRecipient_ m) (watched_ m)) m);;
            modify (set_proxy None);;
            others;;
            _ ← ConnectUsbService false; mret ()
          else mret ()
      | None => mret ()
      end
  end.
(** [UsbSrvDeathRecipient::OnRemoteDied]; the outer [None] is a null pointer. *)
Definition OnRemoteDied (remote : option (option RemoteObject)) : M () :=
  match remote with None => mret () | Some r => ResetProxy r end.
Definition construct : M () :=
  _ ← Connect false;
  modify (set_remotes (Some serial_monitor) (Some accessory_monitor));;
  modify (set_callback (Some {| listeners_ := ∅ |})).

(** [RETURN_IF_WITH_RET(Connect(force) != UEC_OK, ret); lock; RETURN_IF_WITH_RET(proxy_ == nullptr, ret);] *)
Definition connected {A} (force : bool) (ret : A) (f : RemoteObject → M A) : M A :=
  r ← Connect force;
  if negb (r =? UEC_OK) then mret ret else
  others;;
  p ← gets proxy_; match p with None => mret ret | Some p => f p end.
(** The methods on a pipe only look whether there is a proxy. *)
Definition with_proxy {A} (ret : A) (f : RemoteObject → M A) : M A :=
  p ← gets proxy_; match p with None => mret ret | Some p => f p end.

(** ** Devices and pipes *)

Definition GetInterfaceId (ep : USBEndpoint.t) : Z := (USBEndpoint.interfaceId_ ep + 128) `mod` 256 - 128.   (* int8_t *)
(** The interface, address and number arguments are [unsigned char]. *)
Definition interface_arg (i : UsbInterface.t) : Z := to_u8 (UsbInterface.id_ i).

Definition OpenDevice (d : UsbDevice.t) (pipe : USBDevicePipe) : M (Z * USBDevicePipe) :=
  connected false (NO_INIT, pipe) (λ p,
    ret ← call p (C_OpenDevice (UsbDevice.busNum_ d) (UsbDevice.devAddr_ d));
    if negb (ret =? UEC_OK) then mret (ret, pipe) else
    mret (UEC_OK, {| pipe_busNum_ := UsbDevice.busNum_ d; pipe_devAddr_ := UsbDevice.devAddr_ d |})).
Definition ResetDevice (pipe : USBDevicePipe) : M Z :=
  connected false NO_INIT (λ p,
    ret ← call p (C_ResetDevice (pipe_busNum_ pipe) (pipe_devAddr_ pipe));
    if negb (ret =? UEC_OK) then mret ret else mret UEC_OK).
(** The code is not looked at. *)
Definition HasRight (deviceName : string) : M bool :=
  connected false false (λ p, '(_, hasRight) ← call p (C_HasRight deviceName false); mret hasRight).
Definition HasRightEx (deviceName : string) (result : bool) : M (Z * bool) :=
  connected false (NO_INIT, result) (λ p, call p (C_HasRight deviceName false)).
Definition RequestRight (deviceName : string) : M Z :=
  connected false NO_INIT (λ p, call p (C_RequestRight deviceName)).
Definition RemoveRight (deviceName : string) : M Z :=
  connected false NO_INIT (λ p, call p (C_RemoveRight deviceName)).
Definition GetDevices (deviceList : list UsbDevice.t) : M (Z * list UsbDevice.t) :=
  connected false (NO_INIT, deviceList) (λ p, call p (C_GetDevices deviceList)).

Definition ClaimInterface (pipe : USBDevicePipe) (interface : UsbInterface.t) (force : bool) : M Z :=
  with_proxy NO_INIT (λ p, call p (C_ClaimInterface (pipe_busNum_ pipe) (pipe_devAddr_ pipe) (interface_arg interface) (Z.b2z force))).
(** No lock is held: the proxy is read again for the call. *)
Definition ClaimInterfaceExclusive (pipe : USBDevicePipe) (interface : UsbInterface.t) (force : bool)
    (callback : option Listener) : M (outcome Z) :=
  with_proxy (Done NO_INIT) (λ _,
    k ← gets claimCallback_;
    match k with
    | None => mret (Done (uec UEC_SERVICE_INVALID_VALUE))
    | Some _ =>
        on_callback (AddListener (pipe_busNum_ pipe) (pipe_devAddr_ pipe) (interface_arg interface) callback);;
        others;;
        p ← gets proxy_;
        match p with
        | None => mret Fault
        | Some p =>
            ret ← call p (C_ClaimInterfaceExclusive (pipe_busNum_ pipe) (pipe_devAddr_ pipe) (interface_arg interface)
                    (Z.b2z force) (Some claim_remote));
            (if negb (ret =? UEC_OK)
             then on_callback (RemoveListener (pipe_busNum_ pipe) (pipe_devAddr_ pipe) (interface_arg interface))
             else mret ());;
            mret (Done ret)
        end
    end).
Definition UsbAttachKernelDriver (pipe : USBDevicePipe) (interface : UsbInterface.t) : M Z :=
  with_proxy NO_INIT (λ p, call p (C_UsbAttachKernelDriver (pipe_busNum_ pipe) (pipe_devAddr_ pipe) (interface_arg interface))).
Definition UsbDetachKernelDriver (pipe : USBDevicePipe) (interface : UsbInterface.t) : M Z :=
  with_proxy NO_INIT (λ p, call p (C_UsbDetachKernelDriver (pipe_busNum_ pipe) (pipe_devAddr_ pipe) (interface_arg interface))).
(** The listener goes whatever the service answers. *)
Definition ReleaseInterface (pipe : USBDevicePipe) (interface : UsbInterface.t) : M Z :=
  with_proxy NO_INIT (λ p,
    ret ← call p (C_ReleaseInterface (pipe_busNum_ pipe) (pipe_devAddr_ pipe) (interface_arg interface));
    on_callback (RemoveListener (pipe_busNum_ pipe) (pipe_devAddr_ pipe) (interface_arg interface));;
    mret ret).

(** ** Transfers *)

(** The buffer of a read is emptied before and filled by the answer. *)
Definition BulkTransfer (pipe : USBDevicePipe) (endpoint : USBEndpoint.t) (bufferData : list Z) (timeOut : Z) : M (Z * list Z) :=
  with_proxy (NO_INIT, bufferData) (λ p,
    if USB_ENDPOINT_DIR_IN =? USBEndpoint.GetDirection endpoint then
      call p (C_BulkTransferReadwithLength (pipe_busNum_ pipe) (pipe_devAddr_ pipe) endpoint
                (to_i32 (Z.of_nat (length bufferData))) [] timeOut)
    else if USB_ENDPOINT_DIR_OUT =? USBEndpoint.GetDirection endpoint then
      ret ← call p (C_BulkTransferWrite (pipe_busNum_ pipe) (pipe_devAddr_ pipe) endpoint bufferData timeOut);
      mret (ret, bufferData)
    else mret (uec UEC_INTERFACE_INVALID_VALUE, bufferData)).

(** What a length that is not set holds. *)
Context (uninit_length : Z).
Definition UsbCtrlTransferChange (param : UsbCtrlTransfer) : UsbCtlSetUp := {|
  setup_reqType := old_requestType param; setup_reqCmd := old_requestCmd param; setup_value := old_value param;
  setup_index := old_index param; setup_length := uninit_length; setup_timeout := old_timeout param |}.
Definition UsbCtrlTransferChangeWithLength (param : UsbCtrlTransferParams) : UsbCtlSetUp := {|
  setup_reqType := requestType param; setup_reqCmd := requestCmd param; setup_value := ctrl_value param;
  setup_index := ctrl_index param; setup_length := ctrl_length param; setup_timeout := ctrl_timeout param |}.
Definition control_buffer (s : UsbCtlSetUp) (bufferData : list Z) : list Z :=
  if Z.land (to_u32 (setup_reqType s)) USB_ENDPOINT_DIR_MASK =? USB_ENDPOINT_DIR_IN then [] else bufferData.
Definition ControlTransfer (pipe : USBDevicePipe) (ctrl : UsbCtrlTransfer) (bufferData : list Z) : M (Z * list Z) :=
  with_proxy (NO_INIT, bufferData) (λ p,
    let ctlSetup := UsbCtrlTransferChange ctrl in
    call p (C_ControlTransfer (pipe_busNum_ pipe) (pipe_devAddr_ pipe) ctlSetup (control_buffer ctlSetup bufferData))).
Definition UsbControlTransfer (pipe : USBDevicePipe) (ctrlParams : UsbCtrlTransferParams) (bufferData : list Z) : M (Z * list Z) :=
  with_proxy (NO_INIT, bufferData) (λ p,
    let ctlSetup := UsbCtrlTransferChangeWithLength ctrlParams in
    call p (C_UsbControlTransfer (pipe_busNum_ pipe) (pipe_devAddr_ pipe) ctlSetup (control_buffer ctlSetup bufferData))).
Definition SetConfiguration (pipe : USBDevicePipe) (config : USBConfig.t) : M Z :=
  with_proxy NO_INIT (λ p, call p (C_SetActiveConfig (pipe_busNum_ pipe) (pipe_devAddr_ pipe) (to_u8 (USBConfig.id_ config)))).
Definition SetInterface (pipe : USBDevicePipe) (interface : UsbInterface.t) : M Z :=
  with_proxy NO_INIT (λ p, call p (C_SetInterface (pipe_busNum_ pipe) (pipe_devAddr_ pipe) (interface_arg interface)
                                      (to_u8 (UsbInterface.alternateSetting_ interface)))).
Definition GetRawDescriptors (pipe : USBDevicePipe) (bufferData : list Z) : M (Z * list Z) :=
  connected false (NO_INIT, bufferData) (λ p, call p (C_GetRawDescriptor (pipe_busNum_ pipe) (pipe_devAddr_ pipe) bufferData)).
Definition GetFileDescriptor (pipe : USBDevicePipe) (fd : Z) : M (Z * Z) :=
  connected false (NO_INIT, fd) (λ p, call p (C_GetFileDescriptor (pipe_busNum_ pipe) (pipe_devAddr_ pipe) fd)).
(** The listeners of the device go whatever the service answers. *)
Definition Close (pipe : USBDevicePipe) : M bool :=
  with_proxy false (λ p,
    ret ← call p (C_Close (pipe_busNum_ pipe) (pipe_devAddr_ pipe));
    on_callback (RemoveListenersByDevice (pipe_busNum_ pipe) (pipe_devAddr_ pipe));;
    mret (ret =? UEC_OK)).
(** Here they stay. *)
Definition CloseEx (pipe : USBDevicePipe) : M Z :=
  connected false NO_INIT (λ p, call p (C_Close (pipe_busNum_ pipe) (pipe_devAddr_ pipe))).

(** The timeout has 64 bits here and 32 in the interface. *)
Definition PipeRequestWait (pipe : USBDevicePipe) (timeOut : Z) (req : UsbRequest) : M (Z * UsbRequest) :=
  with_proxy (NO_INIT, req) (λ p,
    '(ret, (clientData, bufferData)) ← call p (C_RequestWait (pipe_busNum_ pipe) (pipe_devAddr_ pipe) (to_i32 timeOut) [] []);
    if negb (ret =? UEC_OK) then mret (ret, req) else
    mret (ret, {| pipe_ := pipe; endpoint_ := endpoint_ req; clientData_ := clientData; reqData_ := bufferData |})).
Definition RequestInitialize (request : UsbRequest) : M Z :=
  with_proxy NO_INIT (λ p, call p (C_ClaimInterface (pipe_busNum_ (pipe_ request)) (pipe_devAddr_ (pipe_ request))
    (to_u8 (GetInterfaceId (endpoint_ request))) CLAIM_FORCE_1)).
Definition RequestFree (request : UsbRequest) : M Z :=
  with_proxy NO_INIT (λ p, call p (C_RequestCancel (pipe_busNum_ (pipe_ request)) (pipe_devAddr_ (pipe_ request))
    (to_u8 (GetInterfaceId (endpoint_ request))) (to_u8 (USBEndpoint.address_ (endpoint_ request))))).
Definition RequestAbort (request : UsbRequest) : M Z :=
  with_proxy NO_INIT (λ p, call p (C_RequestCancel (pipe_busNum_ (pipe_ request)) (pipe_devAddr_ (pipe_ request))
    (to_u8 (GetInterfaceId (endpoint_ request))) (to_u8 (USBEndpoint.address_ (endpoint_ request))))).
Definition RequestQueue (request : UsbRequest) : M Z :=
  with_proxy NO_INIT (λ p, call p (C_RequestQueue (pipe_busNum_ (pipe_ request)) (pipe_devAddr_ (pipe_ request))
    (endpoint_ request) (clientData_ request) (reqData_ request))).
Definition UsbCancelTransfer (pipe : USBDevicePipe) (endpoint : Z) : M Z :=
  with_proxy NO_INIT (λ p, call p (C_UsbCancelTransfer (pipe_busNum_ pipe) (pipe_devAddr_ pipe) endpoint)).
Definition UsbTransInfoChange (param : USBTransferInfo) : UsbTransInfo := {|
  trans_endpoint := info_endpoint param; trans_flags := info_flags param; trans_type := info_type param;
  trans_timeOut := info_timeOut param; trans_length := info_length param; trans_userData := info_userData param;
  trans_numIsoPackets := info_numIsoPackets param |}.
(** The shared memory is not null. *)
Definition UsbSubmitTransfer (pipe : USBDevicePipe) (info : USBTransferInfo) (cb : option Listener) (ashmem : Ashmem) : M Z :=
  with_proxy NO_INIT (λ p,
    match cb with
    | None => mret PARAM_ERROR
    | Some cb =>
        callBackService ← on_platform (new_transfer_callback cb);
        call p (C_UsbSubmitTransfer (pipe_busNum_ pipe) (pipe_devAddr_ pipe) (UsbTransInfoChange info) (Some callBackService)
                  (ashmem_fd ashmem) (ashmem_size ashmem))
    end).
Definition RegBulkCallback (pipe : USBDevicePipe) (endpoint : USBEndpoint.t) (cb : option RemoteObject) : M Z :=
  with_proxy NO_INIT (λ p, call p (C_RegBulkCallback (pipe_busNum_ pipe) (pipe_devAddr_ pipe) endpoint cb)).
Definition UnRegBulkCallback (pipe : USBDevicePipe) (endpoint : USBEndpoint.t) : M Z :=
  with_proxy NO_INIT (λ p, call p (C_UnRegBulkCallback (pipe_busNum_ pipe) (pipe_devAddr_ pipe) endpoint)).
Definition BulkRead (pipe : USBDevicePipe) (endpoint : USBEndpoint.t) (ashmem : Ashmem) : M Z :=
  with_proxy NO_INIT (λ p, call p (C_BulkRead (pipe_busNum_ pipe) (pipe_devAddr_ pipe) endpoint (ashmem_fd ashmem) (ashmem_size ashmem))).
Definition BulkWrite (pipe : USBDevicePipe) (endpoint : USBEndpoint.t) (ashmem : Ashmem) : M Z :=
  with_proxy NO_INIT (λ p, call p (C_BulkWrite (pipe_busNum_ pipe) (pipe_devAddr_ pipe) endpoint (ashmem_fd ashmem) (ashmem_size ashmem))).
Definition BulkCancel (pipe : USBDevicePipe) (endpoint : USBEndpoint.t) : M Z :=
  with_proxy NO_INIT (λ p, call p (C_BulkCancel (pipe_busNum_ pipe) (pipe_devAddr_ pipe) endpoint)).
Definition ClearHalt (pipe : USBDevicePipe) (ep : USBEndpoint.t) : M Z :=
  with_proxy NO_INIT (λ p, call p (C_ClearHalt (pipe_busNum_ pipe) (pipe_devAddr_ pipe) (to_u8 (GetInterfaceId ep))
                                      (to_u8 (USBEndpoint.address_ ep)))).
Definition GetDeviceSpeed (pipe : USBDevicePipe) (speed : Z) : M (Z * Z) :=
  connected false (NO_INIT, speed) (λ p, call p (C_GetDeviceSpeed (pipe_busNum_ pipe) (pipe_devAddr_ pipe) speed)).
Definition GetInterfaceActiveStatus (pipe : USBDevicePipe) (interface : UsbInterface.t) (unactivated : bool) : M (Z * bool) :=
  connected false (NO_INIT, unactivated) (λ p,
    call p (C_GetInterfaceActiveStatus (pipe_busNum_ pipe) (pipe_devAddr_ pipe) (interface_arg interface) unactivated)).

(** ** Rights, policies, listeners *)

Definition AddAccessRight (tokenId deviceName : string) : M Z :=
  connected false NO_INIT (λ p, call p (C_AddAccessRight tokenId deviceName)).
Definition ManageGlobalInterface (disable : bool) : M Z :=
  connected false NO_INIT (λ p, call p (C_ManageGlobalInterface disable)).
Definition ManageDevice (vendorId productId : Z) (disable : bool) : M Z :=
  connected false NO_INIT (λ p, call p (C_ManageDevice vendorId productId disable)).
Definition UsbDeviceIdChange (deviceIdList : list UsbDeviceId) (deviceIdInfoList : list UsbDeviceIdInfo) : list UsbDeviceIdInfo :=
  deviceIdInfoList ++ map (λ d, {| info_productId := productId d; info_vendorId := vendorId d |}) deviceIdList.
Definition ManageDevicePolicy (trustList : list UsbDeviceId) : M Z :=
  connected false NO_INIT (λ p, call p (C_ManageDevicePolicy (UsbDeviceIdChange trustList []))).
Definition UsbDeviceTypeChange (disableType : list UsbDeviceType) (deviceTypes : list UsbDeviceTypeInfo) : list UsbDeviceTypeInfo :=
  deviceTypes ++ map (λ t, {| info_baseClass := baseClass t; info_subClass := subClass t; info_protocol := protocol t;
    info_isDeviceType := isDeviceType t; info_isDeviceTypeAllMatch := isDeviceTypeAllMatch t |}) disableType.
Definition ManageInterfaceType (disableType : list UsbDeviceType) (disable : bool) : M Z :=
  connected false NO_INIT (λ p, call p (C_ManageInterfaceType (UsbDeviceTypeChange disableType []) disable)).
Definition ManageUsbType (disableType : list UsbDeviceType) (disable : bool) : M Z :=
  connected false NO_INIT (λ p, call p (C_ManageUsbType (UsbDeviceTypeChange disableType []) disable)).
(** Without the lock and the second test: [Fault] is a null [proxy_]. *)
Definition unlocked (f : RemoteObject → M Z) : M (outcome Z) :=
  r ← Connect false;
  if negb (r =? UEC_OK) then mret (Done NO_INIT) else
  others;;
  p ← gets proxy_;
  match p with None => mret Fault | Some p => r ← f p; mret (Done r) end.
Definition RegisterConnectionListener (cb : option RemoteObject) : M (outcome Z) :=
  if bool_decide (cb = None) then mret (Done (uec UEC_INTERFACE_INVALID_VALUE)) else
  unlocked (λ p, call p (C_RegisterConnectionListener cb)).
Definition UnRegisterConnectionListener (cb : option RemoteObject) : M (outcome Z) :=
  if bool_decide (cb = None) then mret (Done (uec UEC_INTERFACE_INVALID_VALUE)) else
  unlocked (λ p, call p (C_UnRegisterConnectionListener cb)).

(** ** Functions, accessories, ports *)

Definition GetCurrentFunctions (funcs : Z) : M (Z * Z) :=
  connected true (NO_INIT, funcs) (λ p, call p (C_GetCurrentFunctions funcs)).
(** [false] is returned where there is no connection: the code of success. *)
Definition SetCurrentFunctions (funcs : Z) : M Z :=
  connected true FALSE_CODE (λ p, call p (C_SetCurrentFunctions funcs)).
Definition UsbFunctionsFromString (funcs : string) : M Z :=
  connected true NO_INIT (λ p,
    '(ret, funcResult) ← call p (C_UsbFunctionsFromString funcs 0);
    if negb (ret =? UEC_OK) then mret ret else mret funcResult).
Definition UsbFunctionsToString (funcs : Z) : M string :=
  connected true "" (λ p,
    '(ret, result) ← call p (C_UsbFunctionsToString funcs "");
    if negb (ret =? UEC_OK) then mret "" else mret result).
Definition GetAccessoryList (accessList : list USBAccessory) : M (Z * list USBAccessory) :=
  connected false (NO_INIT, accessList) (λ p, call p (C_GetAccessoryList accessList)).
Definition OpenAccessory (access : USBAccessory) (fd : Z) : M (Z * Z) :=
  connected false (NO_INIT, fd) (λ p, m ← get; call p (C_OpenAccessory access fd (accessoryRemote_ m))).
Definition AddAccessoryRight (tokenId : Z) (access : USBAccessory) : M Z :=
  connected false NO_INIT (λ p, call p (C_AddAccessoryRight tokenId access)).
Definition HasAccessoryRight (access : USBAccessory) (result : bool) : M (Z * bool) :=
  connected false (NO_INIT, result) (λ p, call p (C_HasAccessoryRight access result)).
Definition RequestAccessoryRight (access : USBAccessory) (result : bool) : M (Z * bool) :=
  connected false (NO_INIT, result) (λ p, call p (C_RequestAccessoryRight access result)).
Definition CancelAccessoryRight (access : USBAccessory) : M Z :=
  connected false NO_INIT (λ p, call p (C_CancelAccessoryRight access)).
Definition CloseAccessory (fd : Z) : M Z := connected false NO_INIT (λ p, call p (C_CloseAccessory fd)).
Definition GetPorts (usbports : list UsbPort) : M (Z * list UsbPort) :=
  connected true (NO_INIT, usbports) (λ p, call p (C_GetPorts usbports)).
Definition GetSupportedModes (portId result : Z) : M (Z * Z) :=
  connected true (NO_INIT, result) (λ p, call p (C_GetSupportedModes portId result)).
Definition SetPortRole (portId powerRole dataRole : Z) : M Z :=
  connected true NO_INIT (λ p, call p (C_SetPortRole portId powerRole dataRole)).

(** ** Serial ports *)

Definition SerialOpen (portId : Z) : M Z :=
  connected false NO_INIT (λ p, m ← get; call p (C_SerialOpen portId (serialRemote_ m))).
Definition SerialClose (portId : Z) : M Z := connected false NO_INIT (λ p, call p (C_SerialClose portId)).
Definition SerialRead (portId : Z) (data : list Z) (bufferSize actualSize timeout : Z) : M (Z * (list Z * Z)) :=
  connected false (NO_INIT, (data, actualSize)) (λ p, call p (C_SerialRead portId data bufferSize actualSize timeout)).
Definition SerialWrite (portId : Z) (data : list Z) (bufferSize actualSize timeout : Z) : M (Z * Z) :=
  connected false (NO_INIT, actualSize) (λ p, call p (C_SerialWrite portId data bufferSize actualSize timeout)).
Definition SerialGetAttribute (portId : Z) (attribute : UsbSerialAttr) : M (Z * UsbSerialAttr) :=
  connected false (NO_INIT, attribute) (λ p, call p (C_SerialGetAttribute portId attribute)).
Definition SerialSetAttribute (portId : Z) (attribute : UsbSerialAttr) : M Z :=
  connected false NO_INIT (λ p, call p (C_SerialSetAttribute portId attribute)).
Definition SerialGetPortList (serialPortList : list UsbSerialPort) : M (Z * list UsbSerialPort) :=
  connected false (NO_INIT, serialPortList) (λ p, call p (C_SerialGetPortList serialPortList)).
Definition HasSerialRight (portId : Z) (hasRight : bool) : M (Z * bool) :=
  connected false (NO_INIT, hasRight) (λ p,
    '(ret, hasRight) ← call p (C_HasSerialRight portId hasRight);
    if negb (ret =? UEC_OK) then mret (ret, hasRight) else mret (UEC_OK, hasRight)).
Definition CancelSerialRight (portId : Z) : M Z := connected false NO_INIT (λ p, call p (C_CancelSerialRight portId)).
Definition RequestSerialRight (portId : Z) (hasRight : bool) : M (Z * bool) :=
  connected false (NO_INIT, hasRight) (λ p, call p (C_RequestSerialRight portId hasRight)).
Definition AddSerialRight (tokenId portId : Z) : M Z := connected false NO_INIT (λ p, call p (C_AddSerialRight tokenId portId)).

(** ** Objects of the application (usb_device_pipe.cpp, usb_request.cpp) *)

Definition Pipe_Close (pipe : USBDevicePipe) : M Z :=
  bSuccess ← Close pipe; mret (if negb bSuccess then ERR_INVALID_VALUE else ERR_OK).
Definition Request_Initialize (pipe : USBDevicePipe) (endpoint : USBEndpoint.t) (r : UsbRequest) : M (Z * UsbRequest) :=
  let r := {| pipe_ := pipe; endpoint_ := endpoint; clientData_ := clientData_ r; reqData_ := reqData_ r |} in
  ret ← RequestInitialize r; mret (ret, r).
End Client.
