(* ===== verification/UsbSrvServer.v ===== *)
(** * The service behind the interface (services/native/include/usb_service.h)

    Which method of the service answers each call of the client library, and what
    the generated proxy and stub promise: the class [ServerLaws]. *)
From S2P Require Import Prelude UsbErrors Platform UsbAccessory UsbDevice UsbDescriptorParser UsbPortManager SerialManager UsbInterfaceType UsbHostManager UsbHostPolicy UsbHostTransfer UsbService UsbServiceClaims UsbServiceHost UsbServiceDevice UsbServiceSerial UsbServiceLife UsbServiceSteps UsbSrvClient.

(** The code in an answer, and the answer that leaves the variables alone. *)
Definition code_in {A} (e : ServerCall A) : A → Z :=
  match e in ServerCall A return A → Z with
  | C_GetDevices _ => fst
  | C_GetRawDescriptor _ _ _ => fst
  | C_GetFileDescriptor _ _ _ => fst
  | C_GetDeviceSpeed _ _ _ => fst
  | C_GetInterfaceActiveStatus _ _ _ _ => fst
  | C_BulkTransferReadwithLength _ _ _ _ _ _ => fst
  | C_ControlTransfer _ _ _ _ => fst
  | C_UsbControlTransfer _ _ _ _ => fst
  | C_RequestWait _ _ _ _ _ => fst
  | C_HasRight _ _ => fst
  | C_GetCurrentFunctions _ => fst
  | C_UsbFunctionsFromString _ _ => fst
  | C_UsbFunctionsToString _ _ => fst
  | C_HasAccessoryRight _ _ => fst
  | C_RequestAccessoryRight _ _ => fst
  | C_GetAccessoryList _ => fst
  | C_OpenAccessory _ _ _ => fst
  | C_GetPorts _ => fst
  | C_GetSupportedModes _ _ => fst
  | C_SerialRead _ _ _ _ _ => fst
  | C_SerialWrite _ _ _ _ _ => fst
  | C_SerialGetAttribute _ _ => fst
  | C_SerialGetPortList _ => fst
  | C_HasSerialRight _ _ => fst
  | C_RequestSerialRight _ _ => fst
  | _ => λ r, r
  end.
Definition left_alone {A} (e : ServerCall A) : Z → A :=
  match e in ServerCall A return Z → A with
  | C_GetDevices l => λ r, (r, l)
  | C_GetRawDescriptor _ _ b => λ r, (r, b)
  | C_GetFileDescriptor _ _ fd => λ r, (r, fd)
  | C_GetDeviceSpeed _ _ s => λ r, (r, s)
  | C_GetInterfaceActiveStatus _ _ _ u => λ r, (r, u)
  | C_BulkTransferReadwithLength _ _ _ _ b _ => λ r, (r, b)
  | C_ControlTransfer _ _ _ b => λ r, (r, b)
  | C_UsbControlTransfer _ _ _ b => λ r, (r, b)
  | C_RequestWait _ _ _ cd b => λ r, (r, (cd, b))
  | C_HasRight _ h => λ r, (r, h)
  | C_GetCurrentFunctions f => λ r, (r, f)
  | C_UsbFunctionsFromString _ f => λ r, (r, f)
  | C_UsbFunctionsToString _ s => λ r, (r, s)
  | C_HasAccessoryRight _ b => λ r, (r, b)
  | C_RequestAccessoryRight _ b => λ r, (r, b)
  | C_GetAccessoryList l => λ r, (r, l)
  | C_OpenAccessory _ fd _ => λ r, (r, fd)
  | C_GetPorts l => λ r, (r, l)
  | C_GetSupportedModes _ s => λ r, (r, s)
  | C_SerialRead _ b _ n _ => λ r, (r, (b, n))
  | C_SerialWrite _ _ _ n _ => λ r, (r, n)
  | C_SerialGetAttribute _ a => λ r, (r, a)
  | C_SerialGetPortList l => λ r, (r, l)
  | C_HasSerialRight _ h => λ r, (r, h)
  | C_RequestSerialRight _ h => λ r, (r, h)
  | _ => λ r, r
  end.

Section Server.
Context {W R D SerialPort SerialAttribute RM DM AM PM P : Type}.
Context `{!HostPlatform W R, !HostTransferPlatform W, !TableOrder, !CJson, !SerialInterface D SerialPort SerialAttribute}.
Context `{!PortList (SerialManager D SerialPort)}.
Context `{!SerialPortInfo P D SerialPort SerialAttribute, !RightService RM, !DeviceService DM, !AccessoryService AM}.
Context `{!PortService PM, !ServicePlatform P, !ErrCodeBase}.
Context (char_signed : bool).
Abbreviation SMgr := (SerialManager D SerialPort).
Abbreviation US := (UsbService RM (HostTransfers W SMgr) DM AM PM P).
Abbreviation M := (state US).

(** What a variable of the generated code holds before the method fills it. *)
Context (fresh_int : Z) (fresh_attr : UsbSerialAttr).
Definition plain {A} (f : M A) : M (outcome A) := r ← f; mret (Done r).
Definition raised {A} (f : M (option A)) : M (outcome A) := r ← f; mret (match r with Some a => Done a | None => Fault end).

(** The method of the service for a call of [c]: what is filled starts fresh, what
    is passed both ways starts with the client's value. *)
Definition answer {A} (c : Caller) (e : ServerCall A) : M (outcome A) :=
  match e in ServerCall A return M (outcome A) with
  | C_GetDevices _ => plain (UsbServiceHost.GetDevices [])
  | C_OpenDevice b a => UsbServiceHost.OpenDevice char_signed c b a
  | C_Close b a => plain (UsbServiceHost.Close c b a)
  | C_ResetDevice b a => plain (UsbServiceHost.ResetDevice c b a)
  | C_ClaimInterface b a i f => plain (UsbServiceClaims.ClaimInterface c b a i f)
  | C_ClaimInterfaceExclusive b a i f cb => plain (UsbServiceClaims.ClaimInterfaceExclusive c b a i f cb)
  | C_SetInterface b a i alt => plain (UsbServiceHost.SetInterface c b a i alt)
  | C_ReleaseInterface b a i => plain (UsbServiceClaims.ReleaseInterface c b a i)
  | C_SetActiveConfig b a i => plain (UsbServiceHost.SetActiveConfig c b a i)
  | C_ManageGlobalInterface d => plain (UsbServiceHost.ManageGlobalInterface c d)
  | C_ManageDevice v p d => plain (UsbServiceHost.ManageDevice c v p d)
  | C_ManageDevicePolicy l => plain (UsbServiceHost.ManageDevicePolicy c l)
  | C_ManageInterfaceType l d => plain (UsbServiceHost.ManageInterfaceType c l d)
  | C_ManageUsbType l d => plain (UsbServiceHost.ManageUsbType c l d)
  | C_UsbAttachKernelDriver b a i => plain (UsbServiceHost.UsbAttachKernelDriver c b a i)
  | C_UsbDetachKernelDriver b a i => plain (UsbServiceHost.UsbDetachKernelDriver c b a i)
  | C_ClearHalt b a i e => plain (UsbServiceHost.ClearHalt c b a i e)
  | C_GetRawDescriptor b a _ => plain (UsbServiceHost.GetRawDescriptor c b a [])
  | C_GetFileDescriptor b a _ => plain (UsbServiceHost.GetFileDescriptor c b a fresh_int)
  | C_GetDeviceSpeed b a _ => plain (UsbServiceHost.GetDeviceSpeed c b a (to_u8 fresh_int))
  | C_GetInterfaceActiveStatus b a i _ => plain (UsbServiceHost.GetInterfaceActiveStatus c b a i (negb (fresh_int =? 0)))
  | C_BulkTransferWrite b a ep d t => plain (UsbServiceHost.BulkTransferWrite c b a ep d t)
  | C_BulkTransferReadwithLength b a ep l _ t => plain (UsbServiceHost.BulkTransferReadwithLength c b a ep l [] t)
  | C_ControlTransfer b a s d => plain (UsbServiceHost.ControlTransfer c b a s d)
  | C_UsbControlTransfer b a s d => plain (UsbServiceHost.UsbControlTransfer c b a s d)
  | C_RequestQueue b a ep cd d => plain (UsbServiceHost.RequestQueue c b a ep cd d)
  | C_RequestWait b a t cd d => plain (UsbServiceHost.RequestWait c b a t cd d)
  | C_RequestCancel b a i e => plain (UsbServiceHost.RequestCancel c b a i e)
  | C_UsbCancelTransfer b a e => plain (UsbServiceHost.UsbCancelTransfer c b a e)
  | C_UsbSubmitTransfer b a i cb fd n => plain (UsbServiceHost.UsbSubmitTransfer c b a i cb fd n)
  | C_RegBulkCallback b a ep cb => plain (UsbServiceHost.RegBulkCallback c b a ep cb)
  | C_UnRegBulkCallback b a ep => plain (UsbServiceHost.UnRegBulkCallback c b a ep)
  | C_BulkRead b a ep fd n => plain (UsbServiceHost.BulkRead c b a ep fd n)
  | C_BulkWrite b a ep fd n => plain (UsbServiceHost.BulkWrite c b a ep fd n)
  | C_BulkCancel b a ep => plain (UsbServiceHost.BulkCancel c b a ep)
  | C_HasRight n _ => plain (UsbService.HasRightOut c n)
  | C_RequestRight n => plain (UsbService.RequestRight c n)
  | C_RemoveRight n => plain (UsbService.RemoveRight c n)
  | C_AddAccessRight t n => raised (UsbService.AddAccessRight c t n)
  | C_RegisterConnectionListener cb => plain (UsbServiceClaims.RegisterConnectionListener c cb)
  | C_UnRegisterConnectionListener cb => plain (UsbServiceClaims.UnRegisterConnectionListener c cb)
  | C_GetCurrentFunctions _ => plain (UsbServiceDevice.GetCurrentFunctions c fresh_int)
  | C_SetCurrentFunctions f => plain (UsbServiceDevice.SetCurrentFunctions c f)
  | C_UsbFunctionsFromString s _ => plain (UsbServiceDevice.UsbFunctionsFromString c s)
  | C_UsbFunctionsToString f _ => plain (UsbServiceDevice.UsbFunctionsToString c f)
  | C_AddAccessoryRight t a => raised (UsbServiceDevice.AddAccessoryRight c t a)
  | C_HasAccessoryRight a _ => plain (UsbServiceDevice.HasAccessoryRight c a (negb (fresh_int =? 0)))
  | C_RequestAccessoryRight a _ => plain (UsbServiceDevice.RequestAccessoryRight c a (negb (fresh_int =? 0)))
  | C_CancelAccessoryRight a => plain (UsbServiceDevice.CancelAccessoryRight c a)
  | C_GetAccessoryList _ => plain (UsbServiceDevice.GetAccessoryList c [])
  | C_OpenAccessory a _ r => plain (UsbServiceDevice.OpenAccessory c a fresh_int r)
  | C_CloseAccessory fd => plain (UsbServiceDevice.CloseAccessory c fd)
  | C_GetPorts _ => plain (UsbServiceDevice.GetPorts c [])
  | C_GetSupportedModes p _ => plain (UsbServiceDevice.GetSupportedModes c p fresh_int)
  | C_SetPortRole p a b => plain (UsbServiceDevice.SetPortRole c p a b)
  | C_SerialOpen p r => raised (UsbServiceSerial.SerialOpen c p r)
  | C_SerialClose p => plain (UsbServiceSerial.SerialClose c p)
  | C_SerialRead p _ n _ t => plain ('(r, d, k) ← UsbServiceSerial.SerialRead c p [] n (to_u32 fresh_int) t; mret (r, (d, k)))
  | C_SerialWrite p d n _ t => plain (UsbServiceSerial.SerialWrite c p d n (to_u32 fresh_int) t)
  | C_SerialGetAttribute p _ => plain (UsbServiceSerial.SerialGetAttribute c p fresh_attr)
  | C_SerialSetAttribute p a => plain (UsbServiceSerial.SerialSetAttribute c p a)
  | C_SerialGetPortList _ => plain (UsbServiceSerial.SerialGetPortList [])
  | C_AddSerialRight t p => raised (UsbServiceSerial.AddSerialRight c t p)
  | C_HasSerialRight p _ => plain (UsbServiceSerial.HasSerialRight c p)
  | C_RequestSerialRight p _ => raised (UsbServiceSerial.RequestSerialRight c p)
  | C_CancelSerialRight p => plain (UsbServiceSerial.CancelSerialRight c p)
  end.

(** What the generated code promises of a call that [c] makes.  With the code of
    success it was executed once, and its values came back; with another the
    variables of the client are as before, and the request may or may not have
    reached the service.  [service] is the service's part of the system. *)
Class ServerLaws {S : Type} `{!IUsbServer S} (service : S → US) (c : Caller) := {
  call_succeeds {A} p (e : ServerCall A) s a s' : serve p e s = (a, s') → code_in e a = UEC_OK →
    answer c e (service s) = (Done a, service s');
  call_fails {A} p (e : ServerCall A) s a s' : serve p e s = (a, s') → code_in e a ≠ UEC_OK →
    a = left_alone e (code_in e a) ∧ (service s' = service s ∨ service s' = (answer c e (service s)).2);
}.
End Server.
