(* ===== verification/UsbSrvClientProofs.v ===== *)
(** * The client library: what a request becomes

    The operations on a pipe as data, and rules that show that each of them is at
    most one request of the service, on the device of the pipe. *)
From S2P Require Import Prelude UsbErrors Platform UsbAccessory UsbDevice UsbDescriptorParser UsbPortManager SerialManager UsbInterfaceType UsbHostManager UsbHostPolicy UsbHostTransfer UsbService UsbServiceClaims UsbServiceHost UsbServiceDevice UsbServiceSerial UsbServiceLife UsbServiceSteps UsbSrvClient UsbSrvServer.

(** What an application does with a device it has opened or is about to open. *)
Inductive PipeOperation :=
  | P_OpenDevice (d : UsbDevice.t)
  | P_Close
  | P_CloseEx
  | P_ResetDevice
  | P_ClaimInterface (i : UsbInterface.t) (force : bool)
  | P_ClaimInterfaceExclusive (i : UsbInterface.t) (force : bool) (callback : option Listener)
  | P_ReleaseInterface (i : UsbInterface.t)
  | P_SetInterface (i : UsbInterface.t)
  | P_SetConfiguration (config : USBConfig.t)
  | P_UsbAttachKernelDriver (i : UsbInterface.t)
  | P_UsbDetachKernelDriver (i : UsbInterface.t)
  | P_ClearHalt (ep : USBEndpoint.t)
  | P_GetRawDescriptors (buffer : list Z)
  | P_GetFileDescriptor (fd : Z)
  | P_BulkTransfer (ep : USBEndpoint.t) (buffer : list Z) (timeOut : Z)
  | P_ControlTransfer (ctrl : UsbCtrlTransfer) (buffer : list Z)
  | P_UsbControlTransfer (ctrl : UsbCtrlTransferParams) (buffer : list Z)
  | P_PipeRequestWait (timeOut : Z) (req : UsbRequest)
  | P_RequestInitialize (ep : USBEndpoint.t)
  | P_RequestFree (ep : USBEndpoint.t)
  | P_RequestAbort (ep : USBEndpoint.t)
  | P_RequestQueue (ep : USBEndpoint.t) (clientData reqData : list Z)
  | P_UsbCancelTransfer (endpoint : Z)
  | P_UsbSubmitTransfer (info : USBTransferInfo) (cb : Listener) (ashmem : Ashmem)
  | P_RegBulkCallback (ep : USBEndpoint.t) (cb : option RemoteObject)
  | P_UnRegBulkCallback (ep : USBEndpoint.t)
  | P_BulkRead (ep : USBEndpoint.t) (ashmem : Ashmem)
  | P_BulkWrite (ep : USBEndpoint.t) (ashmem : Ashmem)
  | P_BulkCancel (ep : USBEndpoint.t)
  | P_GetDeviceSpeed (speed : Z)
  | P_GetInterfaceActiveStatus (i : UsbInterface.t) (unactivated : bool).

Section Operations.
Context {S P : Type} `{!IUsbServer S, !ClientPlatform P, !ErrCodeBase}.
Abbreviation CL := (UsbSrvClient S P).
Abbreviation M := (state CL).
Context (others : M ()) (uninit_length : Z).

Definition request_on (pipe : USBDevicePipe) (ep : USBEndpoint.t) (cd rd : list Z) : UsbRequest :=
  {| pipe_ := pipe; endpoint_ := ep; clientData_ := cd; reqData_ := rd |}.
(** The code of the library's method. *)
Definition code {A} (g : A → Z) (f : M A) : M (outcome Z) := x ← f; mret (Done (g x)).
Definition truth (b : bool) : Z := if b then UEC_OK else uec UEC_INTERFACE_INVALID_VALUE.
Definition operate (pipe : USBDevicePipe) (op : PipeOperation) : M (outcome Z) :=
  match op with
  | P_OpenDevice d => code fst (OpenDevice others d pipe)
  | P_Close => code truth (Close pipe)
  | P_CloseEx => code (λ r, r) (CloseEx others pipe)
  | P_ResetDevice => code (λ r, r) (ResetDevice others pipe)
  | P_ClaimInterface i f => code (λ r, r) (ClaimInterface pipe i f)
  | P_ClaimInterfaceExclusive i f cb => ClaimInterfaceExclusive others pipe i f cb
  | P_ReleaseInterface i => code (λ r, r) (ReleaseInterface pipe i)
  | P_SetInterface i => code (λ r, r) (SetInterface pipe i)
  | P_SetConfiguration k => code (λ r, r) (SetConfiguration pipe k)
  | P_UsbAttachKernelDriver i => code (λ r, r) (UsbAttachKernelDriver pipe i)
  | P_UsbDetachKernelDriver i => code (λ r, r) (UsbDetachKernelDriver pipe i)
  | P_ClearHalt ep => code (λ r, r) (ClearHalt pipe ep)
  | P_GetRawDescriptors b => code fst (GetRawDescriptors others pipe b)
  | P_GetFileDescriptor fd => code fst (GetFileDescriptor others pipe fd)
  | P_BulkTransfer ep b t => code fst (BulkTransfer pipe ep b t)
  | P_ControlTransfer ctrl b => code fst (ControlTransfer uninit_length pipe ctrl b)
  | P_UsbControlTransfer ctrl b => code fst (UsbControlTransfer pipe ctrl b)
  | P_PipeRequestWait t req => code fst (PipeRequestWait pipe t req)
  | P_RequestInitialize ep => code (λ r, r) (RequestInitialize (request_on pipe ep [] []))
  | P_RequestFree ep => code (λ r, r) (RequestFree (request_on pipe ep [] []))
  | P_RequestAbort ep => code (λ r, r) (RequestAbort (request_on pipe ep [] []))
  | P_RequestQueue ep cd rd => code (λ r, r) (RequestQueue (request_on pipe ep cd rd))
  | P_UsbCancelTransfer e => code (λ r, r) (UsbCancelTransfer pipe e)
  | P_UsbSubmitTransfer info cb a => code (λ r, r) (UsbSubmitTransfer pipe info (Some cb) a)
  | P_RegBulkCallback ep cb => code (λ r, r) (RegBulkCallback pipe ep cb)
  | P_UnRegBulkCallback ep => code (λ r, r) (UnRegBulkCallback pipe ep)
  | P_BulkRead ep a => code (λ r, r) (BulkRead pipe ep a)
  | P_BulkWrite ep a => code (λ r, r) (BulkWrite pipe ep a)
  | P_BulkCancel ep => code (λ r, r) (BulkCancel pipe ep)
  | P_GetDeviceSpeed s => code fst (GetDeviceSpeed others pipe s)
  | P_GetInterfaceActiveStatus i u => code fst (GetInterfaceActiveStatus others pipe i u)
  end.

(** The device, and the request of the service that the operation stands for; the
    arguments have eight bits there.  The remote object that carries the callback
    of a transfer is made for it, and [fresh] is what the stub's variable holds. *)
Definition target (pipe : USBDevicePipe) (op : PipeOperation) : Z * Z :=
  match op with
  | P_OpenDevice d => (UsbDevice.busNum_ d, UsbDevice.devAddr_ d)
  | _ => (pipe_busNum_ pipe, pipe_devAddr_ pipe)
  end.
Definition request (fresh : Z) (m : CL) (op : PipeOperation) : DeviceRequest :=
  match op with
  | P_OpenDevice _ => R_OpenDevice
  | P_Close => R_Close
  | P_CloseEx => R_Close
  | P_ResetDevice => R_ResetDevice
  | P_ClaimInterface i f => R_ClaimInterface (to_u8 (UsbInterface.id_ i)) (Z.b2z f)
  | P_ClaimInterfaceExclusive i f _ => R_ClaimInterfaceExclusive (to_u8 (UsbInterface.id_ i)) (Z.b2z f) (Some claim_remote)
  | P_ReleaseInterface i => R_ReleaseInterface (to_u8 (UsbInterface.id_ i))
  | P_SetInterface i => R_SetInterface (to_u8 (UsbInterface.id_ i)) (to_u8 (UsbInterface.alternateSetting_ i))
  | P_SetConfiguration k => R_SetActiveConfig (to_u8 (USBConfig.id_ k))
  | P_UsbAttachKernelDriver i => R_UsbAttachKernelDriver (to_u8 (UsbInterface.id_ i))
  | P_UsbDetachKernelDriver i => R_UsbDetachKernelDriver (to_u8 (UsbInterface.id_ i))
  | P_ClearHalt ep => R_ClearHalt (to_u8 (USBEndpoint.interfaceId_ ep)) (to_u8 (USBEndpoint.address_ ep))
  | P_GetRawDescriptors _ => R_GetRawDescriptor []
  | P_GetFileDescriptor _ => R_GetFileDescriptor fresh
  | P_BulkTransfer ep b t =>
      if USBEndpoint.GetDirection ep =? USB_ENDPOINT_DIR_IN
      then R_BulkTransferReadwithLength ep (to_i32 (Z.of_nat (length b))) [] t else R_BulkTransferWrite ep b t
  | P_ControlTransfer ctrl b =>
      let s := UsbCtrlTransferChange uninit_length ctrl in R_ControlTransfer s (control_buffer s b)
  | P_UsbControlTransfer ctrl b =>
      let s := UsbCtrlTransferChangeWithLength ctrl in R_UsbControlTransfer s (control_buffer s b)
  | P_PipeRequestWait t _ => R_RequestWait (to_i32 t) [] []
  | P_RequestInitialize ep => R_ClaimInterface (to_u8 (USBEndpoint.interfaceId_ ep)) CLAIM_FORCE_1
  | P_RequestFree ep => R_RequestCancel (to_u8 (USBEndpoint.interfaceId_ ep)) (to_u8 (USBEndpoint.address_ ep))
  | P_RequestAbort ep => R_RequestCancel (to_u8 (USBEndpoint.interfaceId_ ep)) (to_u8 (USBEndpoint.address_ ep))
  | P_RequestQueue ep cd rd => R_RequestQueue ep cd rd
  | P_UsbCancelTransfer e => R_UsbCancelTransfer e
  | P_UsbSubmitTransfer info cb a =>
      R_UsbSubmitTransfer (UsbTransInfoChange info) (Some (new_transfer_callback cb (platform_ m)).1) (ashmem_fd a) (ashmem_size a)
  | P_RegBulkCallback ep cb => R_RegBulkCallback ep cb
  | P_UnRegBulkCallback ep => R_UnRegBulkCallback ep
  | P_BulkRead ep a => R_BulkRead ep (ashmem_fd a) (ashmem_size a)
  | P_BulkWrite ep a => R_BulkWrite ep (ashmem_fd a) (ashmem_size a)
  | P_BulkCancel ep => R_BulkCancel ep
  | P_GetDeviceSpeed _ => R_GetDeviceSpeed (to_u8 fresh)
  | P_GetInterfaceActiveStatus i _ => R_GetInterfaceActiveStatus (to_u8 (UsbInterface.id_ i)) (negb (fresh =? 0))
  end.

Lemma GetInterfaceId_u8 ep : to_u8 (GetInterfaceId ep) = to_u8 (USBEndpoint.interfaceId_ ep).
Proof. unfold to_u8, GetInterfaceId. change (2 ^ 8) with 256. rewrite Zminus_mod_idemp_l. f_equal. lia. Qed.

(** A bulk transfer goes one way or the other. *)
Lemma GetDirection_cases ep :
  USBEndpoint.GetDirection ep = USB_ENDPOINT_DIR_IN ∨ USBEndpoint.GetDirection ep = USB_ENDPOINT_DIR_OUT.
Proof.
  unfold USBEndpoint.GetDirection, USB_ENDPOINT_DIR_MASK, USB_ENDPOINT_DIR_IN, USB_ENDPOINT_DIR_OUT.
  change 0x80 with (2 ^ 7). destruct (Z.testbit (USBEndpoint.address_ ep) 7) eqn:Hb; [left|right].
  - apply Z.bits_inj'. intros n Hn. rewrite Z.land_spec, Z.pow2_bits_eqb by lia. destruct (Z.eqb_spec 7 n) as [<-|]; [by rewrite Hb|by rewrite andb_false_r].
  - apply Z.bits_inj'. intros n Hn. rewrite Z.land_spec, Z.pow2_bits_eqb, Z.bits_0 by lia. destruct (Z.eqb_spec 7 n) as [<-|]; [by rewrite Hb|by rewrite andb_false_r].
Qed.
End Operations.

(** ** What the service sees of an operation *)

Section Told.
Context {W R D SerialPort SerialAttribute RM DM AM PM P S CP : Type}.
Context `{!HostPlatform W R, !HostTransferPlatform W, !TableOrder, !CJson, !SerialInterface D SerialPort SerialAttribute}.
Context `{!PortList (SerialManager D SerialPort)}.
Context `{!SerialPortInfo P D SerialPort SerialAttribute, !RightService RM, !DeviceService DM, !AccessoryService AM}.
Context `{!PortService PM, !ServicePlatform P, !IUsbServer S, !ClientPlatform CP, !ErrCodeBase}.
Context (char_signed : bool) (fresh_int : Z) (fresh_attr : UsbSerialAttr).
Abbreviation SMgr := (SerialManager D SerialPort).
Abbreviation US := (UsbService RM (HostTransfers W SMgr) DM AM PM P).
Abbreviation CL := (UsbSrvClient S CP).
Abbreviation M := (state CL).
Context (service : S → US) (c : Caller) `{!ServerLaws char_signed fresh_int fresh_attr service c}.
Context (others : M ()) (uninit_length : Z).

(** The service when the request reaches it: as it was, or as others left it. *)
Definition reached (m : CL) (s : S) : Prop :=
  s = server_ m ∨ ∃ m1, server_ m1 = server_ m ∧ s = server_ (others m1).2.
(** With success the service has executed [r] successfully, otherwise it has
    executed [r] or nothing. *)
Definition told (bus addr : Z) (r : DeviceRequest) (s : S) (res : outcome Z) (s' : S) : Prop :=
  (res = Done UEC_OK ∧ perform char_signed c bus addr r (service s) = (Done UEC_OK, service s')) ∨
  (res ≠ Done UEC_OK ∧ (service s' = service s ∨ service s' = (perform char_signed c bus addr r (service s)).2)).
Definition Tells (bus addr : Z) (r : DeviceRequest) (f : M (outcome Z)) (m : CL) : Prop :=
  ∃ s, reached m s ∧ told bus addr r s (f m).1 (server_ (f m).2).
(** Nobody else comes first. *)
Definition TellsNow (bus addr : Z) (r : DeviceRequest) (f : M (outcome Z)) (m : CL) : Prop :=
  told bus addr r (server_ m) (f m).1 (server_ (f m).2).

(** A call and a request that are the same to the service. *)
Definition answers {A} (bus addr : Z) (r : DeviceRequest) (e : ServerCall A) : Prop := ∀ s,
  perform char_signed c bus addr r s =
    let '(a, s') := answer char_signed fresh_int fresh_attr c e s in
    (match a with Done a => Done (code_in e a) | Fault => Fault | OutOfFuel => OutOfFuel end, s').

Lemma tells_now bus addr r f m : TellsNow bus addr r f m → Tells bus addr r f m.
Proof. intros Hf. exists (server_ m). split; [by left|done]. Qed.
Lemma told_refused bus addr r s res : res ≠ Done UEC_OK → told bus addr r s res s.
Proof. intros Hr. right. auto. Qed.

Lemma now_call {A B} bus addr r p (e : ServerCall A) (k : A → M B) (g : B → Z) m : answers bus addr r e →
  (∀ a m1, (g (k a m1).1 = UEC_OK ↔ code_in e a = UEC_OK) ∧ server_ (k a m1).2 = server_ m1) →
  TellsNow bus addr r (code g (call p e ≫= k)) m.
Proof.
  intros Ha Hk. unfold TellsNow, code, call, zoom. run_unfold.
  destruct (serve p e (server_ m)) as [a s'] eqn:Hs. destruct (Hk a (set_server s' m)) as [Hc Hsv].
  destruct (k a (set_server s' m)) as [b m2]. cbn in *. rewrite Hsv. replace (server_ (set_server s' m)) with s' by by destruct m.
  destruct (decide (code_in e a = UEC_OK)) as [Hok|Hno].
  - left. rewrite (proj2 Hc Hok). split; [done|]. rewrite Ha, (call_succeeds char_signed fresh_int fresh_attr p e _ _ _ Hs Hok). by rewrite Hok.
  - right. split; [intros [=Hg]; by apply Hno, Hc|]. destruct (call_fails char_signed fresh_int fresh_attr p e _ _ _ Hs Hno) as [_ [?|?]]; [by left|right].
    rewrite Ha. by destruct (answer _ _ _ _ _ _).
Qed.
Lemma now_call_only {A} bus addr r p (e : ServerCall A) (g : A → Z) m : answers bus addr r e → (∀ a, g a = code_in e a) →
  TellsNow bus addr r (code g (call p e)) m.
Proof.
  intros Ha Hg. pose proof (now_call bus addr r p e mret g m Ha) as Hn. unfold TellsNow, code in *.
  rewrite !bind_run in *. destruct (call p e m) as [a m1]. apply Hn. intros a' m2. cbn. by rewrite Hg.
Qed.
Lemma tells_with_proxy {A} bus addr r (ret : A) (f : RemoteObject → M A) (g : A → Z) m : g ret ≠ UEC_OK →
  (∀ p, TellsNow bus addr r (code g (f p)) m) → Tells bus addr r (code g (with_proxy ret f)) m.
Proof.
  intros Hr Hf. apply tells_now. unfold TellsNow, code, with_proxy in *. run_unfold.
  destruct (proxy_ m) as [p|]; [apply Hf|]. apply told_refused. intros [=]. done.
Qed.

Lemma Connect_server force (m : CL) : server_ (Connect force m).2 = server_ m.
Proof.
  unfold Connect, ConnectUsbService, on_platform. run_unfold. destruct m as [[] ? ? ? ? ? ? ? pl]; cbn; [done|].
  destruct (GetSystemAbilityManager pl) as [[] p]; cbn; [|done].
  destruct force; [destruct (LoadSystemAbility p) as [[o|] p']|destruct (CheckSystemAbility p) as [[o|] p']]; cbn; try done.
  all: by destruct (AsObject o).
Qed.
Lemma tells_connected {A} bus addr r force (ret : A) (f : RemoteObject → M A) (g : A → Z) m : g ret ≠ UEC_OK →
  (∀ p m, TellsNow bus addr r (code g (f p)) m) → Tells bus addr r (code g (connected others force ret f)) m.
Proof.
  intros Hr Hf. unfold Tells, code, connected in *. run_unfold.
  pose proof (Connect_server force m) as Hc. destruct (Connect force m) as [x m1]. cbn in Hc.
  destruct (negb (x =? UEC_OK)).
  { exists (server_ m). split; [by left|]. cbn. rewrite Hc. apply told_refused. congruence. }
  destruct (others m1) as [[] m2] eqn:Ho. exists (server_ m2). split; [right; exists m1; by rewrite Ho|].
  destruct (proxy_ m2) as [p|]; [apply Hf|]. cbn. apply told_refused. congruence.
Qed.

Lemma on_callback_server f (m : CL) : server_ (on_callback f m).2 = server_ m.
Proof. by destruct m. Qed.
Lemma tells_exclusive pipe i force cb bus addr m : bus = pipe_busNum_ pipe → addr = pipe_devAddr_ pipe →
  Tells bus addr (R_ClaimInterfaceExclusive (to_u8 (UsbInterface.id_ i)) (Z.b2z force) (Some claim_remote))
    (ClaimInterfaceExclusive others pipe i force cb) m.
Proof.
  intros -> ->. unfold Tells, ClaimInterfaceExclusive, with_proxy. run_unfold.
  destruct m as [[p0|] n [k|] sr ar w h sv pl]; cbn.
  2-4: exists sv; split; [by left|]; apply told_refused; intros [=E]; by apply uec_not_OK in E.
  match goal with |- context [others ?x] => destruct (others x) as [[] m2] eqn:Ho; exists (server_ m2); split; [right; exists x; by rewrite Ho|] end.
  destruct (proxy_ m2) as [p|]; [|by apply told_refused].
  unshelve epose proof (now_call (pipe_busNum_ pipe) (pipe_devAddr_ pipe) (R_ClaimInterfaceExclusive (to_u8 (UsbInterface.id_ i)) (Z.b2z force) (Some claim_remote))
    p (C_ClaimInterfaceExclusive (pipe_busNum_ pipe) (pipe_devAddr_ pipe) (interface_arg i) (Z.b2z force) (Some claim_remote))
    (λ ret, (if negb (ret =? UEC_OK) then on_callback (RemoveListener (pipe_busNum_ pipe) (pipe_devAddr_ pipe) (interface_arg i)) else mret ());; mret ret)
    (λ r, r) m2 _ _) as Hn.
  - intros s. cbn. unfold code_only, plain. run_unfold. unfold interface_arg. by destruct (UsbServiceClaims.ClaimInterfaceExclusive _ _ _ _ _ _ s).
  - intros a m3. cbn. run_unfold. destruct (negb (a =? UEC_OK)); by destruct m3.
  - unfold TellsNow, code in Hn. run_unfold. destruct (call _ _ m2) as [a m3]. cbn in *. destruct (negb (a =? UEC_OK)); [by destruct (on_callback _ m3)|exact Hn].
Qed.

(** The request and the call are answered by the same method. *)
Ltac same_method := intros ?; cbn; unfold code_only, code_of, plain, interface_arg; rewrite ?GetInterfaceId_u8; run_unfold;
  match goal with
  | |- context [let '(_, _) := ?f in _] => by destruct f
  | |- ?f = _ => by destruct f as [[] ?]
  end.
Lemma tells_submit pipe info cb a m : Tells (pipe_busNum_ pipe) (pipe_devAddr_ pipe)
    (R_UsbSubmitTransfer (UsbTransInfoChange info) (Some (new_transfer_callback cb (platform_ m)).1) (ashmem_fd a) (ashmem_size a))
    (code (λ r, r) (UsbSubmitTransfer pipe info (Some cb) a)) m.
Proof.
  apply tells_with_proxy; [apply uec_not_OK|]. intros p. unfold TellsNow, code, on_platform. run_unfold.
  destruct (new_transfer_callback cb (platform_ m)) as [remote pl] eqn:Hn.
  unshelve epose proof (now_call_only (pipe_busNum_ pipe) (pipe_devAddr_ pipe)
    (R_UsbSubmitTransfer (UsbTransInfoChange info) (Some remote) (ashmem_fd a) (ashmem_size a)) p
    (C_UsbSubmitTransfer (pipe_busNum_ pipe) (pipe_devAddr_ pipe) (UsbTransInfoChange info) (Some remote) (ashmem_fd a) (ashmem_size a))
    (λ r, r) (set_platform pl m) _ _) as Ht; [|done|].
  - same_method.
  - unfold TellsNow, code in Ht. run_unfold. replace (server_ (set_platform pl m)) with (server_ m) in Ht by by destruct m. exact Ht.
Qed.

Lemma operate_tells pipe op m : let '(bus, addr) := target pipe op in
  Tells bus addr (request uninit_length fresh_int m op) (operate others uninit_length pipe op) m.
Proof.
  pose proof uec_not_OK as Hn. destruct op; cbn [target operate request].
  all: try (apply tells_submit || (apply tells_exclusive; done)).
  all: try (unfold ReleaseInterface, SetInterface, SetConfiguration, UsbAttachKernelDriver, UsbDetachKernelDriver, ClearHalt, ControlTransfer, UsbControlTransfer, ClaimInterface,
     RequestInitialize, RequestFree, RequestAbort, RequestQueue, UsbCancelTransfer, RegBulkCallback, UnRegBulkCallback, BulkRead, BulkWrite, BulkCancel;
     apply tells_with_proxy; [apply Hn|intros p; apply now_call_only; [same_method|done]]).
  all: try (unfold CloseEx, GetRawDescriptors, GetFileDescriptor, GetDeviceSpeed, GetInterfaceActiveStatus; apply tells_connected; [apply Hn|intros p m'; apply now_call_only; [same_method|done]]).
  - apply tells_connected; [apply Hn|intros p m']. apply now_call; [same_method|]. intros a m1. run_unfold. cbn.
    split; [|by destruct (a =? UEC_OK)]. by destruct (Z.eqb_spec a UEC_OK).
  - apply tells_with_proxy; [apply Hn|intros p]. apply now_call; [same_method|]. intros a m1. run_unfold. cbn.
    split; [|by destruct m1]. unfold truth. destruct (Z.eqb_spec a UEC_OK) as [->|]; [done|]. split; [intros E; by apply Hn in E|done].
  - apply tells_connected; [apply Hn|intros p m']. apply now_call; [same_method|]. intros a m1. run_unfold. cbn.
    split; [|by destruct (a =? UEC_OK)]. by destruct (Z.eqb_spec a UEC_OK).
  - apply tells_with_proxy; [apply Hn|intros p]. apply now_call; [same_method|]. intros a m1. by destruct m1.
  - apply tells_with_proxy; [apply Hn|intros p]. rewrite (Z.eqb_sym USB_ENDPOINT_DIR_IN), (Z.eqb_sym USB_ENDPOINT_DIR_OUT).
    destruct (Z.eqb_spec (USBEndpoint.GetDirection ep) USB_ENDPOINT_DIR_IN) as [_|Hi]; [apply now_call_only; [same_method|done]|].
    destruct (GetDirection_cases ep) as [Ho|Ho]; [by rewrite Ho in Hi|rewrite Ho, Z.eqb_refl].
    apply now_call; [same_method|]. by intros a m1.
  - apply tells_with_proxy; [apply Hn|intros p]. apply now_call; [same_method|]. intros [a [cd rd]] m1. run_unfold. cbn.
    by destruct (Z.eqb_spec a UEC_OK).
Qed.
End Told.
