(* ===== verification/UsbSrvClientSteps.v ===== *)
(** * The client library: its steps

    Every method of the library and every call it receives, as steps of its state;
    which interface of which device a step is about. *)
From S2P Require Import Prelude UsbErrors Platform UsbAccessory UsbPortManager UsbDevice UsbDescriptorParser UsbInterfaceType UsbHostManager UsbHostTransfer UsbService UsbServiceHost UsbServiceSerial UsbSrvClient.

Definition pipe_ok (pipe : USBDevicePipe) : Prop := in_u8 (pipe_busNum_ pipe) ∧ in_u8 (pipe_devAddr_ pipe).
Definition device_ok (d : UsbDevice.t) : Prop := in_u8 (UsbDevice.busNum_ d) ∧ in_u8 (UsbDevice.devAddr_ d).

(** What a step can do to the listener of an interface. *)
Inductive ClientLabel :=
  | K_claim (bus addr interface : Z)
  | K_release (bus addr interface : Z)
  | K_close (bus addr : Z)
  | K_construct
  | K_system
  | K_other.

Section Steps.
Context {S P : Type} `{!IUsbServer S, !ClientPlatform P, !ErrCodeBase}.
Abbreviation CL := (UsbSrvClient S P).
Abbreviation M := (state CL).
Context (others : M ()) (uninit_length : Z).

(** The calls about an opened device; they change nothing the library keeps but
    what connecting changes. *)
Inductive pipe_step (m : CL) : CL → Prop :=
  | p_open d pipe : device_ok d → pipe_step m (OpenDevice others d pipe m).2
  | p_reset pipe : pipe_ok pipe → pipe_step m (ResetDevice others pipe m).2
  | p_claim pipe i f : pipe_ok pipe → pipe_step m (ClaimInterface pipe i f m).2
  | p_attach pipe i : pipe_ok pipe → pipe_step m (UsbAttachKernelDriver pipe i m).2
  | p_detach pipe i : pipe_ok pipe → pipe_step m (UsbDetachKernelDriver pipe i m).2
  | p_bulk pipe ep b t : pipe_ok pipe → pipe_step m (BulkTransfer pipe ep b t m).2
  | p_control pipe s b : pipe_ok pipe → pipe_step m (ControlTransfer uninit_length pipe s b m).2
  | p_usb_control pipe s b : pipe_ok pipe → pipe_step m (UsbControlTransfer pipe s b m).2
  | p_config pipe k : pipe_ok pipe → pipe_step m (SetConfiguration pipe k m).2
  | p_interface pipe i : pipe_ok pipe → pipe_step m (SetInterface pipe i m).2
  | p_descriptors pipe b : pipe_ok pipe → pipe_step m (GetRawDescriptors others pipe b m).2
  | p_fd pipe fd : pipe_ok pipe → pipe_step m (GetFileDescriptor others pipe fd m).2
  | p_close_ex pipe : pipe_ok pipe → pipe_step m (CloseEx others pipe m).2
  | p_wait pipe t r : pipe_ok pipe → pipe_step m (PipeRequestWait pipe t r m).2
  | p_initialize pipe ep r : pipe_ok pipe → pipe_step m (Request_Initialize pipe ep r m).2
  | p_free r : pipe_ok (pipe_ r) → pipe_step m (RequestFree r m).2
  | p_abort r : pipe_ok (pipe_ r) → pipe_step m (RequestAbort r m).2
  | p_queue r : pipe_ok (pipe_ r) → pipe_step m (RequestQueue r m).2
  | p_cancel pipe e : pipe_ok pipe → pipe_step m (UsbCancelTransfer pipe e m).2
  | p_submit pipe i cb a : pipe_ok pipe → pipe_step m (UsbSubmitTransfer pipe i cb a m).2
  | p_register pipe ep cb : pipe_ok pipe → pipe_step m (RegBulkCallback pipe ep cb m).2
  | p_unregister pipe ep : pipe_ok pipe → pipe_step m (UnRegBulkCallback pipe ep m).2
  | p_bulk_read pipe ep a : pipe_ok pipe → pipe_step m (BulkRead pipe ep a m).2
  | p_bulk_write pipe ep a : pipe_ok pipe → pipe_step m (BulkWrite pipe ep a m).2
  | p_bulk_cancel pipe ep : pipe_ok pipe → pipe_step m (BulkCancel pipe ep m).2
  | p_halt pipe ep : pipe_ok pipe → pipe_step m (ClearHalt pipe ep m).2
  | p_speed pipe s : pipe_ok pipe → pipe_step m (GetDeviceSpeed others pipe s m).2
  | p_active pipe i u : pipe_ok pipe → pipe_step m (GetInterfaceActiveStatus others pipe i u m).2.

(** The calls that are about no opened device. *)
Inductive plain_step (m : CL) : CL → Prop :=
  | q_has_right n : plain_step m (HasRight others n m).2
  | q_has_right_ex n r : plain_step m (HasRightEx others n r m).2
  | q_request n : plain_step m (RequestRight others n m).2
  | q_remove n : plain_step m (RemoveRight others n m).2
  | q_devices l : plain_step m (GetDevices others l m).2
  | q_access t n : plain_step m (AddAccessRight others t n m).2
  | q_global d : plain_step m (ManageGlobalInterface others d m).2
  | q_device v p d : plain_step m (ManageDevice others v p d m).2
  | q_policy l : plain_step m (ManageDevicePolicy others l m).2
  | q_interfaces l d : plain_step m (ManageInterfaceType others l d m).2
  | q_types l d : plain_step m (ManageUsbType others l d m).2
  | q_listen cb : plain_step m (RegisterConnectionListener others cb m).2
  | q_unlisten cb : plain_step m (UnRegisterConnectionListener others cb m).2
  | q_functions f : plain_step m (GetCurrentFunctions others f m).2
  | q_set_functions f : plain_step m (SetCurrentFunctions others f m).2
  | q_from_string s : plain_step m (UsbFunctionsFromString others s m).2
  | q_to_string f : plain_step m (UsbFunctionsToString others f m).2
  | q_accessories l : plain_step m (GetAccessoryList others l m).2
  | q_open_accessory a fd : plain_step m (OpenAccessory others a fd m).2
  | q_add_accessory t a : plain_step m (AddAccessoryRight others t a m).2
  | q_has_accessory a r : plain_step m (HasAccessoryRight others a r m).2
  | q_request_accessory a r : plain_step m (RequestAccessoryRight others a r m).2
  | q_cancel_accessory a : plain_step m (CancelAccessoryRight others a m).2
  | q_close_accessory fd : plain_step m (CloseAccessory others fd m).2
  | q_ports l : plain_step m (GetPorts others l m).2
  | q_modes p r : plain_step m (GetSupportedModes others p r m).2
  | q_role p a b : plain_step m (SetPortRole others p a b m).2
  | q_serial_open p : plain_step m (SerialOpen others p m).2
  | q_serial_close p : plain_step m (SerialClose others p m).2
  | q_serial_read p d n k t : plain_step m (SerialRead others p d n k t m).2
  | q_serial_write p d n k t : plain_step m (SerialWrite others p d n k t m).2
  | q_serial_get p a : plain_step m (SerialGetAttribute others p a m).2
  | q_serial_set p a : plain_step m (SerialSetAttribute others p a m).2
  | q_serial_list l : plain_step m (SerialGetPortList others l m).2
  | q_serial_has p r : plain_step m (HasSerialRight others p r m).2
  | q_serial_cancel p : plain_step m (CancelSerialRight others p m).2
  | q_serial_request p r : plain_step m (RequestSerialRight others p r m).2
  | q_serial_add t p : plain_step m (AddSerialRight others t p m).2.

(** All steps.  [k_system]: the rest of the system moves. *)
Inductive client_step (m : CL) : ClientLabel → CL → Prop :=
  | k_construct : client_step m K_construct (construct m).2
  | k_pipe m' : pipe_step m m' → client_step m K_other m'
  | k_plain m' : plain_step m m' → client_step m K_other m'
  | k_exclusive pipe i f cb : pipe_ok pipe → client_step m (K_claim (pipe_busNum_ pipe) (pipe_devAddr_ pipe) (interface_arg i)) (ClaimInterfaceExclusive others pipe i f cb m).2
  | k_release pipe i : pipe_ok pipe → client_step m (K_release (pipe_busNum_ pipe) (pipe_devAddr_ pipe) (interface_arg i)) (ReleaseInterface pipe i m).2
  | k_close pipe : pipe_ok pipe → client_step m (K_close (pipe_busNum_ pipe) (pipe_devAddr_ pipe)) (Close pipe m).2
  | k_conflict bus addr interface : client_step m K_other (onConflict bus addr interface m).2
  | k_died remote : client_step m K_other (OnRemoteDied others remote m).2
  | k_system s p : client_step m K_system (set_server s (set_platform p m)).
End Steps.

(** ** Types of calls *)

(** The arguments that the interface declares [unsigned char]. *)
Definition typed_call {A} (e : ServerCall A) : Prop :=
  match e with
  | C_OpenDevice b a => in_u8 b ∧ in_u8 a
  | C_Close b a => in_u8 b ∧ in_u8 a
  | C_ResetDevice b a => in_u8 b ∧ in_u8 a
  | C_ClaimInterface b a i f => in_u8 b ∧ in_u8 a ∧ in_u8 i ∧ in_u8 f
  | C_ClaimInterfaceExclusive b a i f _ => in_u8 b ∧ in_u8 a ∧ in_u8 i ∧ in_u8 f
  | C_SetInterface b a i alt => in_u8 b ∧ in_u8 a ∧ in_u8 i ∧ in_u8 alt
  | C_ReleaseInterface b a i => in_u8 b ∧ in_u8 a ∧ in_u8 i
  | C_SetActiveConfig b a i => in_u8 b ∧ in_u8 a ∧ in_u8 i
  | C_UsbAttachKernelDriver b a i => in_u8 b ∧ in_u8 a ∧ in_u8 i
  | C_UsbDetachKernelDriver b a i => in_u8 b ∧ in_u8 a ∧ in_u8 i
  | C_ClearHalt b a i n => in_u8 b ∧ in_u8 a ∧ in_u8 i ∧ in_u8 n
  | C_GetRawDescriptor b a _ => in_u8 b ∧ in_u8 a
  | C_GetFileDescriptor b a _ => in_u8 b ∧ in_u8 a
  | C_GetDeviceSpeed b a _ => in_u8 b ∧ in_u8 a
  | C_GetInterfaceActiveStatus b a i _ => in_u8 b ∧ in_u8 a ∧ in_u8 i
  | C_BulkTransferWrite b a _ _ _ => in_u8 b ∧ in_u8 a
  | C_BulkTransferReadwithLength b a _ n _ _ => in_u8 b ∧ in_u8 a ∧ in_i32 n
  | C_ControlTransfer b a _ _ => in_u8 b ∧ in_u8 a
  | C_UsbControlTransfer b a _ _ => in_u8 b ∧ in_u8 a
  | C_RequestQueue b a _ _ _ => in_u8 b ∧ in_u8 a
  | C_RequestWait b a t _ _ => in_u8 b ∧ in_u8 a ∧ in_i32 t
  | C_RequestCancel b a i n => in_u8 b ∧ in_u8 a ∧ in_u8 i ∧ in_u8 n
  | C_UsbCancelTransfer b a _ => in_u8 b ∧ in_u8 a
  | C_UsbSubmitTransfer b a _ _ _ _ => in_u8 b ∧ in_u8 a
  | C_RegBulkCallback b a _ _ => in_u8 b ∧ in_u8 a
  | C_UnRegBulkCallback b a _ => in_u8 b ∧ in_u8 a
  | C_BulkRead b a _ _ _ => in_u8 b ∧ in_u8 a
  | C_BulkWrite b a _ _ _ => in_u8 b ∧ in_u8 a
  | C_BulkCancel b a _ => in_u8 b ∧ in_u8 a
  | _ => True
  end.

Lemma typed_force f : in_u8 (Z.b2z f).
Proof. unfold in_u8. destruct f; cbn; lia. Qed.
(** Calls are typed by what the code does to their arguments. *)
Ltac typed := cbn [typed_call]; unfold pipe_ok, device_ok in *; destruct_and?;
  repeat match goal with |- _ ∧ _ => split end;
  first [assumption | apply to_u8_range | apply typed_force | apply to_i32_range | exact I | by unfold in_u8, CLAIM_FORCE_1].

(** A server that notes the calls it gets, newest first. *)
Definition SomeCall : Type := sigT ServerCall.
Definition logged (S : Type) : Type := list SomeCall * S.
#[export] Instance logged_server {S} `{!IUsbServer S} : IUsbServer (logged S) := λ A p e s,
  let '(a, s') := serve p e s.2 in (a, (existT A e :: s.1, s')).
Lemma logged_call {S A} `{!IUsbServer S} p (e : ServerCall A) (s : logged S) : (serve p e s).2.1 = existT A e :: s.1.
Proof. change (serve p e s) with (let '(a, s') := (serve p e s.2 : A * S) in (a, (existT A e :: s.1, s'))). by destruct (serve p e s.2). Qed.

(** * The client library: what its methods leave alone

    A relation between states that holds across connecting, calls of the service,
    and what other threads do, holds across every method that only connects and
    calls; the three views the theorems need follow. *)

Section Frames.
Context {S P : Type} `{!IUsbServer S, !ClientPlatform P, !ErrCodeBase}.
Abbreviation CL := (UsbSrvClient S P).
Abbreviation M := (state CL).
Context (others : M ()) (uninit_length : Z) (R : relation CL) `{!PreOrder R}.
Context (others_runs : Runs R others) (connect_runs : ∀ force, Runs R (Connect force : M Z)).
Context (call_runs : ∀ A p (e : ServerCall A), typed_call e → Runs R (call p e : M A)).
Context (platform_runs : ∀ A (f : state P A), Runs R (on_platform f : M A)).

Lemma connected_runs {A} force (ret : A) (f : RemoteObject → M A) : (∀ p, Runs R (f p)) → Runs R (connected others force ret f).
Proof. intros Hf. unfold connected. pose proof (connect_runs force). repeat first [apply Hf|progress runs|done]. Qed.
Lemma with_proxy_runs {A} (ret : A) (f : RemoteObject → M A) : (∀ p, Runs R (f p)) → Runs R (with_proxy ret f).
Proof. intros Hf. unfold with_proxy. repeat first [apply Hf|progress runs]. Qed.
Lemma unlocked_runs (f : RemoteObject → M Z) : (∀ p, Runs R (f p)) → Runs R (unlocked others f).
Proof. intros Hf. unfold unlocked. pose proof (connect_runs false). repeat first [apply Hf|progress runs|done]. Qed.

Ltac calls := cbn zeta; repeat first
  [ apply connected_runs; intros ? | apply with_proxy_runs; intros ? | apply unlocked_runs; intros ?
  | apply call_runs; typed | apply platform_runs | progress runs ].

Lemma pipe_runs m m' : pipe_step others uninit_length m m' → R m m'.
Proof.
  destruct 1; revert m.
  all: match goal with |- ∀ m, R m (?f m).2 => change (Runs R f) end.
  all: unfold OpenDevice, ResetDevice, ClaimInterface, UsbAttachKernelDriver, UsbDetachKernelDriver, BulkTransfer, ControlTransfer,
    UsbControlTransfer, SetConfiguration, SetInterface, GetRawDescriptors, GetFileDescriptor, CloseEx, PipeRequestWait,
    Request_Initialize, RequestInitialize, RequestFree, RequestAbort, RequestQueue, UsbCancelTransfer, UsbSubmitTransfer, RegBulkCallback,
    UnRegBulkCallback, BulkRead, BulkWrite, BulkCancel, ClearHalt, GetDeviceSpeed, GetInterfaceActiveStatus; calls.
Qed.
Lemma plain_runs m m' : plain_step others m m' → R m m'.
Proof.
  destruct 1; revert m.
  all: match goal with |- ∀ m, R m (?f m).2 => change (Runs R f) end.
  all: unfold HasRight, HasRightEx, RequestRight, RemoveRight, GetDevices, AddAccessRight, ManageGlobalInterface, ManageDevice,
    ManageDevicePolicy, ManageInterfaceType, ManageUsbType, RegisterConnectionListener, UnRegisterConnectionListener,
    GetCurrentFunctions, SetCurrentFunctions, UsbFunctionsFromString, UsbFunctionsToString, GetAccessoryList, OpenAccessory,
    AddAccessoryRight, HasAccessoryRight, RequestAccessoryRight, CancelAccessoryRight, CloseAccessory, GetPorts,
    GetSupportedModes, SetPortRole, SerialOpen, SerialClose, SerialRead, SerialWrite, SerialGetAttribute,
    SerialSetAttribute, SerialGetPortList, HasSerialRight, CancelSerialRight, RequestSerialRight, AddSerialRight; calls.
Qed.
End Frames.
