(* ===== verification/UsbSrvClientTheorems.v ===== *)
(** * The client library: its properties

    What reaches the service, who may do it, what the library keeps. *)
From S2P Require Import Prelude UsbErrors Platform UsbAccessory UsbDevice UsbDescriptorParser UsbRightDatabase UsbRightDbHelper RightRecords UsbRightManager UsbRightManagerProofs UsbPortManager SerialManager UsbInterfaceType UsbHostManager UsbHostPolicy UsbHostTransfer UsbService UsbServiceClaims UsbServiceHost UsbServiceDevice UsbServiceSerial UsbServiceLife UsbServiceSteps UsbServiceFrames UsbServiceClaimProofs UsbServiceManagers UsbServiceTheorems UsbSrvClient UsbSrvServer UsbSrvClientProofs UsbSrvClientSteps.

(** ** Requests *)

Section Requests.
Context {W R D SerialPort SerialAttribute H E DM AM PM P S CP : Type}.
Context `{!HostPlatform W R, !HostTransferPlatform W, !TableOrder, !CJson, !SerialInterface D SerialPort SerialAttribute}.
Context `{!PortList (SerialManager D SerialPort)}.
Context `{!SerialPortInfo P D SerialPort SerialAttribute, !DeviceService DM, !AccessoryService AM}.
Context `{!PortService PM, !ServicePlatform P, !ErrCodeBase, !RightRecords H, !RightRecordsLaws H, !IUsbServer S, !ClientPlatform CP}.
Context (char_signed : bool) (platform : Caller → RightPlatform E) (ulong_max : Z).
Context (right_others : Caller → state (UsbRightManager H E) ()).
#[local] Instance client_right_service : RightService (UsbRightManager H E) := right_service platform ulong_max right_others.
#[local] Instance client_right_laws : RightServiceLaws (UsbRightManager H E) := right_service_laws platform ulong_max right_others.
Context (fresh_int : Z) (fresh_attr : UsbSerialAttr).
Abbreviation US := (UsbService (UsbRightManager H E) (HostTransfers W (SerialManager D SerialPort)) DM AM PM P).
Context (service : S → US) (c : Caller) `{!ServerLaws char_signed fresh_int fresh_attr service c}.
Context (others : state (UsbSrvClient S CP) ()) (uninit_length : Z).

(** C13: each operation on a pipe is at most one request of the service, the one it
    stands for, on the device of the pipe: it succeeds only when the service has
    executed the request successfully, and if it fails the service has executed
    that request or none.  The service is as the operation found it, or as others
    left it where the library waits. *)
Theorem client_refines_service pipe op m :
  let '(bus, addr) := target pipe op in
  let r := request uninit_length fresh_int m op in
  let '(res, m') := operate others uninit_length pipe op m in
  ∃ s, reached others m s ∧
    ((res = Done UEC_OK ∧ perform char_signed c bus addr r (service s) = (Done UEC_OK, service (server_ m'))) ∨
     (res ≠ Done UEC_OK ∧ (service (server_ m') = service s ∨ service (server_ m') = (perform char_signed c bus addr r (service s)).2))).
Proof.
  pose proof (operate_tells char_signed fresh_int fresh_attr service c others uninit_length pipe op m) as Ht.
  destruct (target pipe op) as [bus addr]. unfold Tells, told in Ht. by destruct (operate others uninit_length pipe op m).
Qed.

(** C17: an operation on a pipe succeeds through the library only for a process that is
    entitled to it, over the whole way from the pipe to the records of rights: one with
    the right on the device, or, for the speed of the device and the state of an
    interface, a system application or service with the permission for USB devices. *)
Theorem client_success_needs_right pipe op m m' : operate others uninit_length pipe op m = (Done UEC_OK, m') →
  ∃ s, reached others m s ∧
    (rights_settled (service s) →
     entitled_to platform c (target pipe op).1 (target pipe op).2 (request uninit_length fresh_int m op) (service s)).
Proof.
  intros Ho. pose proof (operate_tells char_signed fresh_int fresh_attr service c others uninit_length pipe op m) as Ht.
  destruct (target pipe op) as [bus addr]. unfold Tells in Ht. rewrite Ho in Ht. destruct Ht as (s & Hr & [[_ Hp]|[Hne _]]); [|done].
  exists s. split; [done|]. intros Hs. cbn [fst snd]. apply (may_ask_entitled platform ulong_max right_others); [done|].
  apply not_false_iff_true. intros Hc.
  destruct (perform_refused char_signed c bus addr (request uninit_length fresh_int m op) (service s) Hc) as [(e & He & Hne) _].
  pose proof (f_equal fst Hp) as Hd. cbn [fst] in Hd. assert (Done UEC_OK = Done e) as [= <-]; [|done].
  rewrite <- Hd. exact He.
Qed.
End Requests.

(** ** What the library keeps *)

Section Kept.
Context {S P : Type} `{!IUsbServer S, !ClientPlatform P, !ErrCodeBase}.
Abbreviation CL := (UsbSrvClient S P).
Abbreviation M := (state CL).
Context (others : M ()) (uninit_length : Z).
Implicit Types m : CL.

(** *** The connection *)

(** The object that is watched for the proxy in use, and no other; nothing is watched for
    a proxy without an object, which [ConnectUsbService] keeps. *)
Definition connection_ok m : Prop :=
  watched_ m = match proxy_ m with
               | Some p => match AsObject p with Some o => [(o, deathRecipient_ m)] | None => [] end
               | None => []
               end.
Definition keeps_connection m m' : Prop := connection_ok m → connection_ok m'.
#[local] Instance keeps_connection_preorder : PreOrder keeps_connection.
Proof. split; [intros m Hm; exact Hm|]. intros m1 m2 m3 H12 H23 Hm. by apply H23, H12. Qed.
(** Nothing of the connection changes. *)
Definition connection_of m := (proxy_ m, deathRecipient_ m, watched_ m).
Lemma keeps_connection_same m m' : connection_of m' = connection_of m → keeps_connection m m'.
Proof. unfold keeps_connection, connection_ok, connection_of. intros [= -> -> ->]. done. Qed.

Lemma ConnectUsbService_connection force m : connection_ok m → connection_ok (ConnectUsbService force m).2.
Proof.
  unfold connection_ok, ConnectUsbService, on_platform. run_unfold. destruct m as [[o|] n k sr ar w h sv pl]; cbn; [done|].
  intros ->. destruct (GetSystemAbilityManager pl) as [[] pl']; cbn; [|done].
  destruct force; [destruct (LoadSystemAbility pl') as [[o|] p']|destruct (CheckSystemAbility pl') as [[o|] p']]; cbn; try done.
  all: destruct (AsObject o) eqn:Ho; cbn; by rewrite Ho.
Qed.
Lemma Connect_connection force : Runs keeps_connection (Connect force).
Proof. intros m Hm. unfold Connect. run_unfold. destruct (proxy_ m); [done|by apply ConnectUsbService_connection]. Qed.
Lemma call_connection A p (e : ServerCall A) : Runs keeps_connection (call p e).
Proof. apply runs_zoom. intros m. apply keeps_connection_same. by destruct m. Qed.
Lemma platform_connection A (f : state P A) : Runs keeps_connection (on_platform f).
Proof. apply runs_zoom. intros m. apply keeps_connection_same. by destruct m. Qed.
Lemma callback_connection f : Runs keeps_connection (on_callback f).
Proof. intros m. apply keeps_connection_same. by destruct m. Qed.
#[local] Hint Resolve call_connection platform_connection callback_connection Connect_connection : runs.

Lemma ResetProxy_connection remote : Runs keeps_connection others → Runs keeps_connection (ResetProxy others remote).
Proof.
  intros Ho m Hm. unfold ResetProxy. run_unfold. destruct m as [[p|] n k sr ar w h sv pl]; cbn; [|exact Hm].
  destruct (AsObject p) as [o|] eqn:Hp; cbn; [|exact Hm]. case_bool_decide as Hr; [|exact Hm].
  match goal with |- context [others ?x] => pose proof (Ho x) as Hx; destruct (others x) as [[] m2] end.
  pose proof (ConnectUsbService_connection false m2) as Hc. destruct (ConnectUsbService false m2) as [z m3]. apply Hc, Hx.
  unfold connection_ok in *. cbn in *. rewrite Hp in Hm. subst w. cbn. by rewrite bool_decide_true.
Qed.
Lemma step_connection l m m' : Runs keeps_connection others → client_step others uninit_length m l m' → keeps_connection m m'.
Proof.
  intros Ho. destruct 1 as [|m' Hp|m' Hp|pipe i f cb Hp|pipe i Hp|pipe Hp|b a i|r|s p].
  - revert m. change (Runs keeps_connection construct). unfold construct. runs.
    all: intros m; apply keeps_connection_same; by destruct m.
  - eapply (pipe_runs others uninit_length keeps_connection), Hp; eauto with runs.
  - eapply (plain_runs others keeps_connection), Hp; eauto with runs.
  - revert m. change (Runs keeps_connection (ClaimInterfaceExclusive others pipe i f cb)). unfold ClaimInterfaceExclusive, with_proxy.
    repeat first [exact Ho|progress runs].
  - revert m. change (Runs keeps_connection (ReleaseInterface pipe i)). unfold ReleaseInterface, with_proxy. runs.
  - revert m. change (Runs keeps_connection (Close pipe)). unfold Close, with_proxy. runs.
  - apply keeps_connection_same. unfold onConflict. run_unfold.
    destruct m as [px n [k|] sr ar w h sv pl]; cbn; [by destruct (conflict_listener b a i k)|done].
  - destruct r as [r|]; [by apply ResetProxy_connection|by intros Hm].
  - apply keeps_connection_same. by destruct m.
Qed.

(** C19: in every state that the library reaches, whatever it is asked, whoever dies and
    whatever other threads do that keeps to this too: the service in use is
    watched, by the recipient made for it, and nothing else is; the one exception is a
    proxy without an object, which is kept with nothing watched.  When the object
    dies the connection is given up before the service is looked for again; the
    death of another object changes nothing. *)
Theorem the_service_in_use_is_watched m0 m : Runs keeps_connection others → proxy_ m0 = None → watched_ m0 = [] →
  rtc (λ m m', ∃ l, client_step others uninit_length m l m') m0 m →
  connection_ok m ∧
  (∀ o, watched_ m = [(o, deathRecipient_ m)] →
    (OnRemoteDied others (Some (Some o)) m).2 =
      ((others;; ConnectUsbService false) (set_proxy None (set_watched [] m))).2) ∧
  (∀ o, watched_ m ≠ [(o, deathRecipient_ m)] → OnRemoteDied others (Some (Some o)) m = ((), m)).
Proof.
  intros Ho Hp Hw Hs. assert (connection_ok m) as Hm.
  { assert (connection_ok m0) as H0 by (unfold connection_ok; by rewrite Hp, Hw).
    clear Hp Hw. induction Hs as [|m0 m1 m2 [l Hl] _ IH]; [done|]. by apply IH, (step_connection l m0 m1 Ho Hl). }
  split; [done|]. unfold connection_ok in Hm. split.
  - intros o Hw'. cbn [OnRemoteDied]. unfold ResetProxy. run_unfold. destruct m as [[p|] n k sr ar w h sv pl]; cbn in *; [|by subst].
    destruct (AsObject p) as [o'|] eqn:Hpo; [|by subst]. subst w. injection Hw' as ->. cbn. rewrite !bool_decide_true by done. cbn.
    rewrite bool_decide_true by done.
    match goal with |- context [others ?x] => destruct (others x) as [[] m2] end. by destruct (ConnectUsbService false m2).
  - intros o Hw'. cbn [OnRemoteDied]. unfold ResetProxy. run_unfold. destruct m as [[p|] n k sr ar w h sv pl]; cbn in *; [|done].
    destruct (AsObject p) as [o'|] eqn:Hpo; [|done]. cbn. rewrite bool_decide_false; [done|]. intros [= ->]. by apply Hw'.
Qed.

(** *** The listener of an exclusive claim *)

(** Who is told when another claims the interface. *)
Definition listener_at (bus addr interface : Z) m : option Listener :=
  k ← claimCallback_ m; listeners_ k !! MakeKey bus addr interface.
(** The steps that may take the listener of the interface away. *)
Definition concerns (bus addr interface : Z) (l : ClientLabel) : Prop :=
  match l with
  | K_claim b a i | K_release b a i => b = bus ∧ a = addr ∧ i = interface
  | K_close b a => b = bus ∧ a = addr
  | K_construct => True
  | K_system | K_other => False
  end.
Definition keeps_listener bus addr interface (l : Listener) m m' : Prop :=
  listener_at bus addr interface m = Some l → listener_at bus addr interface m' = Some l.
#[local] Instance keeps_listener_preorder bus addr interface l : PreOrder (keeps_listener bus addr interface l).
Proof. split; [intros m Hm; exact Hm|]. intros m1 m2 m3 H12 H23 Hm. by apply H23, H12. Qed.

Section Listener.
Context (bus addr interface : Z) (l : Listener).
Context (Hbus : in_u8 bus) (Haddr : in_u8 addr) (Hinterface : in_u8 interface).
Abbreviation KL := (keeps_listener bus addr interface l).

Lemma keeps_listener_same m m' : claimCallback_ m' = claimCallback_ m → KL m m'.
Proof. unfold keeps_listener, listener_at. by intros ->. Qed.
Lemma keeps_listener_key f m : (∀ k, listeners_ k !! MakeKey bus addr interface = Some l →
  listeners_ (f k) !! MakeKey bus addr interface = Some l) → KL m (on_callback f m).2.
Proof. unfold keeps_listener, listener_at. intros Hf. destruct m as [px n [k|] sr ar w h sv pl]; cbn; [apply Hf|done]. Qed.
Lemma ConnectUsbService_listener force : Runs KL (ConnectUsbService force).
Proof.
  intros m. apply keeps_listener_same. unfold ConnectUsbService, on_platform. run_unfold. destruct m as [[o|] n k sr ar w h sv pl]; cbn; [done|].
  destruct (GetSystemAbilityManager pl) as [[] pl']; cbn; [|done].
  destruct force; [destruct (LoadSystemAbility pl') as [[o|] p']|destruct (CheckSystemAbility pl') as [[o|] p']]; cbn; try done.
  all: by destruct (AsObject o).
Qed.
Lemma Connect_listener force : Runs KL (Connect force).
Proof. intros m Hm. unfold Connect. run_unfold. destruct (proxy_ m); [done|by apply ConnectUsbService_listener]. Qed.
Lemma call_listener A p (e : ServerCall A) : Runs KL (call p e).
Proof. apply runs_zoom. intros m. apply keeps_listener_same. by destruct m. Qed.
Lemma platform_listener A (f : state P A) : Runs KL (on_platform f).
Proof. apply runs_zoom. intros m. apply keeps_listener_same. by destruct m. Qed.
#[local] Hint Resolve call_listener platform_listener Connect_listener ConnectUsbService_listener : runs.

(** Listeners of other interfaces come and go. *)
Lemma other_key b a i : in_u8 b → in_u8 a → in_u8 i → ¬ (b = bus ∧ a = addr ∧ i = interface) → MakeKey b a i ≠ MakeKey bus addr interface.
Proof. intros ??? Hn He. by apply Hn, MakeClaimKey_inj. Qed.
Lemma claim_other b a i cb : MakeKey b a i ≠ MakeKey bus addr interface → Runs KL (on_callback (AddListener b a i cb)).
Proof. intros Hn m. apply keeps_listener_key. intros k Hk. destruct cb; [|done]. cbn. by rewrite lookup_insert_ne. Qed.
Lemma release_other b a i : MakeKey b a i ≠ MakeKey bus addr interface → Runs KL (on_callback (RemoveListener b a i)).
Proof. intros Hn m. apply keeps_listener_key. intros k Hk. cbn. by rewrite lookup_delete_ne. Qed.
Lemma close_other b a : in_u8 b → in_u8 a → ¬ (b = bus ∧ a = addr) → Runs KL (on_callback (RemoveListenersByDevice b a)).
Proof.
  intros Hb Ha Hn m. apply keeps_listener_key. intros k Hk. cbn. apply map_lookup_filter_Some. split; [done|]. cbn.
  apply not_true_iff_false. intros Hp. by apply Hn, (claim_prefix_key bus addr b a interface).
Qed.
Lemma step_listener lbl m m' : Runs KL others → client_step others uninit_length m lbl m' → ¬ concerns bus addr interface lbl → KL m m'.
Proof.
  intros Ho Hs Hc. destruct Hs as [|m' Hp|m' Hp|pipe i f cb [Hb Ha]|pipe i [Hb Ha]|pipe [Hb Ha]|b a i|r|s p]; cbn in Hc.
  - by destruct Hc.
  - eapply (pipe_runs others uninit_length KL), Hp; eauto with runs.
  - eapply (plain_runs others KL), Hp; eauto with runs.
  - revert m. change (Runs KL (ClaimInterfaceExclusive others pipe i f cb)). unfold ClaimInterfaceExclusive, with_proxy.
    assert (MakeKey (pipe_busNum_ pipe) (pipe_devAddr_ pipe) (interface_arg i) ≠ MakeKey bus addr interface) by (apply other_key; [done..|apply to_u8_range|done]).
    repeat first [exact Ho|by apply claim_other|by apply release_other|progress runs].
  - revert m. change (Runs KL (ReleaseInterface pipe i)). unfold ReleaseInterface, with_proxy.
    assert (MakeKey (pipe_busNum_ pipe) (pipe_devAddr_ pipe) (interface_arg i) ≠ MakeKey bus addr interface) by (apply other_key; [done..|apply to_u8_range|done]).
    repeat first [by apply release_other|progress runs].
  - revert m. change (Runs KL (Close pipe)). unfold Close, with_proxy. repeat first [by apply close_other|progress runs].
  - apply keeps_listener_same. unfold onConflict. run_unfold.
    destruct m as [px n [k|] sr ar w h sv pl]; cbn; [by destruct (conflict_listener b a i k)|done].
  - destruct r as [r|]; [|by intros Hm]. revert m. change (Runs KL (ResetProxy others r)). unfold ResetProxy.
    assert (∀ f, (∀ m, claimCallback_ (f m) = claimCallback_ m) → Runs KL (modify f)) as Hm.
    { intros f Hf m. apply keeps_listener_same, Hf. }
    repeat first [exact Ho|apply Hm; intros []; reflexivity|progress runs].
  - apply keeps_listener_same. by destruct m.
Qed.
End Listener.

(** C25: after an exclusive claim that succeeded, given with a listener, the listener
    is there until the library claims or releases that interface again or closes
    the device; whatever else is asked meanwhile, and whether or not the service
    dies, a conflict that the service reports is passed to that listener, with
    the interface it is about, and to no other. *)
Theorem conflict_reaches_listener pipe i force l m m1 m2 : pipe_ok pipe →
  let bus := pipe_busNum_ pipe in let addr := pipe_devAddr_ pipe in
  Runs (keeps_listener bus addr (interface_arg i) l) others →
  ClaimInterfaceExclusive others pipe i force (Some l) m = (Done UEC_OK, m1) →
  rtc (λ m m', ∃ lbl, ¬ concerns bus addr (interface_arg i) lbl ∧ client_step others uninit_length m lbl m') m1 m2 →
  onConflict bus addr (interface_arg i) m2 = (0, set_heard ((l, (bus, addr, interface_arg i)) :: heard_ m2) m2).
Proof.
  intros [Hb Ha] bus addr Ho Hc Hs.
  assert (listener_at bus addr (interface_arg i) m1 = Some l) as Hl.
  { unfold ClaimInterfaceExclusive, with_proxy in Hc. run_unfold. destruct m as [[p0|] n [k|] sr ar w h sv pl]; cbn in Hc.
    2-4: injection Hc as E _; by apply uec_not_OK in E.
    match type of Hc with context [others ?x] => pose proof (Ho x) as Hx; destruct (others x) as [[] m3] end. cbn in Hx.
    assert (listener_at bus addr (interface_arg i) m3 = Some l) as Hm3.
    { apply Hx. unfold listener_at. cbn. by rewrite lookup_insert_eq. }
    destruct (proxy_ m3) as [p|]; [|done]. cbn in Hc.
    match type of Hc with context [call ?p ?e m3] => pose proof (call_listener bus addr (interface_arg i) l _ p e m3 Hm3) as Hk; destruct (call p e m3) as [ret m4] end.
    destruct (Z.eqb_spec ret UEC_OK) as [->|Hne]; cbn in Hc; [injection Hc as <-; exact Hk|].
    injection Hc as E _. congruence. }
  assert (listener_at bus addr (interface_arg i) m2 = Some l) as Hl2.
  { clear Hc. induction Hs as [|ma mb mc (lbl & Hn & Hstep) _ IH]; [done|]. apply IH.
    revert Hl. by apply (step_listener bus addr (interface_arg i) l Hb Ha (to_u8_range _) lbl). }
  unfold onConflict. run_unfold. unfold listener_at in Hl2. destruct m2 as [px n [k|] sr ar w h sv pl]; [|done]. cbn in *.
  unfold conflict_listener. by rewrite Hl2.
Qed.

(** *** Without a connection *)

(** The service is not to be had: the abilities' manager is not there or does not
    know the service. *)
Definition unavailable m : Prop :=
  (GetSystemAbilityManager (platform_ m)).1 = false ∨
  (GetSystemAbilityManager (platform_ m)).1 = true ∧ (CheckSystemAbility (GetSystemAbilityManager (platform_ m)).2).1 = None.
(** Nothing is changed but what the platform was asked. *)
Definition only_platform m m' : Prop := ∃ p, m' = set_platform p m.
Lemma Connect_unavailable m : proxy_ m = None → unavailable m →
  (Connect false m).1 ≠ UEC_OK ∧ only_platform m (Connect false m).2.
Proof.
  unfold unavailable, Connect, ConnectUsbService, on_platform. run_unfold. destruct m as [px n k sr ar w h sv pl]; cbn. intros -> Hu. cbn.
  destruct (GetSystemAbilityManager pl) as [[] p1]; cbn in *.
  - destruct Hu as [|[_ Hu]]; [done|]. destruct (CheckSystemAbility p1) as [[o|] p2]; cbn in *; [done|]. split; [apply uec_not_OK|by exists p2].
  - split; [apply uec_not_OK|by exists p1].
Qed.
(** an operation on a pipe, when there is no connection and none can be made, is
    answered with the code for that, or, for [Close] of a pipe, with [false]; the
    service is not called and the listeners stay. *)
Theorem disconnected_requests_fail pipe op m : proxy_ m = None → unavailable m →
  let '(res, m') := operate others uninit_length pipe op m in
  (res = Done (uec UEC_INTERFACE_NO_INIT) ∨ op = P_Close ∧ res = Done (truth false)) ∧ only_platform m m'.
Proof.
  intros Hp Hu. assert (only_platform m m) as Hm by (exists (platform_ m); by destruct m).
  assert (∀ A (ret : A) f (g : A → Z), code g (with_proxy ret f) m = (Done (g ret), m)) as Hw.
  { intros. unfold code, with_proxy. run_unfold. by rewrite Hp. }
  assert (∀ A (ret : A) f (g : A → Z), (code g (connected others false ret f) m).1 = Done (g ret) ∧
    only_platform m (code g (connected others false ret f) m).2) as Hc.
  { intros. unfold code, connected. run_unfold. destruct (Connect_unavailable m Hp Hu) as [Hn Ho].
    destruct (Connect false m) as [x m1]. cbn in Hn. by destruct (Z.eqb_spec x UEC_OK). }
  destruct op; cbn [operate].
  all: try (unfold ReleaseInterface, SetInterface, SetConfiguration, UsbAttachKernelDriver, UsbDetachKernelDriver, ClearHalt, ControlTransfer, UsbControlTransfer, ClaimInterface,
     RequestInitialize, RequestFree, RequestAbort, RequestQueue, UsbCancelTransfer, RegBulkCallback, UnRegBulkCallback, BulkRead, BulkWrite, BulkCancel, BulkTransfer, PipeRequestWait, UsbSubmitTransfer, Close;
     rewrite Hw; split; auto; fail).
  all: try (unfold OpenDevice, ResetDevice, CloseEx, GetRawDescriptors, GetFileDescriptor, GetDeviceSpeed, GetInterfaceActiveStatus;
     match goal with |- context [code ?g (connected _ _ ?ret ?f) ?s] => destruct (Hc _ ret f g) as [Hr Ho]; destruct (code g (connected others false ret f) s) as [res m']; cbn in Hr; subst res; split; auto end; fail).
  unfold ClaimInterfaceExclusive, with_proxy. run_unfold. rewrite Hp. auto.
Qed.
End Kept.
