(* ===== verification/UsbSrvClientExamples.v ===== *)
(** * The client library: a concrete system and the theorems at work

    Alice's process, linked with the library, and the service of
    [UsbServiceExamples] behind a proxy that loses nothing while the service
    lives. *)
From S2P Require Import Prelude UsbErrors Platform UsbAccessory UsbDevice UsbDeviceTree UsbDescriptorParser UsbDescriptorTheorems UsbRightDatabase UsbRightDbHelper RightRecords UsbRightManager UsbRightManagerProofs RightTheorems UsbPortManager UsbDeviceManager SerialManager SerialTheorems UsbInterfaceType UsbHostManager UsbHostPolicy UsbHostTheorems UsbHostExamples UsbHostTransfer UsbService UsbServiceClaims UsbServiceHost UsbServiceDevice UsbServiceSerial UsbServiceLife UsbServiceSteps UsbServiceManagers UsbServiceTheorems UsbServiceExamples UsbSrvClient UsbSrvServer UsbSrvClientProofs UsbSrvClientSteps UsbSrvClientTheorems.

#[local] Existing Instance no_json.
#[local] Existing Instance demo_err_base.
#[local] Existing Instance demo_records.
#[local] Existing Instance demo_records_laws.
#[local] Existing Instance demo_right_service.
#[local] Existing Instance demo_right_laws.

(** ** The system *)

Definition the_service : RemoteObject := 100.
Record System := { running : bool; the_state : DemoService }.
Definition fresh_attr : UsbSerialAttr := {| baudRate_ := 0; stopBits_ := 0; parity_ := 0; dataBits_ := 0 |}.
(** A call of a process that is lost when the service is not there. *)
Definition system_of (c : Caller) : IUsbServer System := λ A p e s,
  if running s && (p =? the_service) then
    let '(a, s') := answer true 0 fresh_attr c e (the_state s) in
    match a with
    | Done a => (if code_in e a =? UEC_OK then a else left_alone e (code_in e a), {| running := true; the_state := s' |})
    | _ => (left_alone e 1, {| running := false; the_state := s' |})
    end
  else (left_alone e 1, s).
Lemma code_in_left_alone {A} (e : ServerCall A) r : code_in e (left_alone e r) = r.
Proof. by destruct e. Qed.
Lemma system_laws c : @ServerLaws _ _ _ _ _ _ _ _ _ _ demo_bus demo_transfers _ no_json _ _ _ _ _ _ _ _ true 0 fresh_attr System (system_of c) the_state c.
Proof.
  split; unfold serve, system_of; intros A p e s a s' Hs Hc.
  all: destruct (running s && (p =? the_service)); [|injection Hs as <- <-; rewrite code_in_left_alone in *; try done; auto].
  all: destruct (answer true 0 fresh_attr c e (the_state s)) as [[a0| |] st] eqn:Ha; injection Hs as <- <-; cbn.
  all: try (rewrite code_in_left_alone in *; auto; done).
  all: destruct (Z.eqb_spec (code_in e a0) UEC_OK) as [E|E]; rewrite ?code_in_left_alone in *; try done; auto.
Qed.

(** What the ability manager answers. *)
#[export] Instance demo_client_platform : ClientPlatform (option RemoteObject) := {
  GetSystemAbilityManager := constant true; UsbSrvClient.LoadSystemAbility := gets (λ s, s);
  UsbSrvClient.CheckSystemAbility := gets (λ s, s);
  AsObject p := Some p; serial_monitor := 61; accessory_monitor := 62; claim_remote := 50;
  new_transfer_callback cb := constant (200 + cb); ERR_INVALID_VALUE := -1;
}.
#[local] Instance alice_server : IUsbServer System := system_of alice.
#[local] Instance alice_laws : ServerLaws true 0 fresh_attr the_state alice := system_laws alice.
Abbreviation DemoClient := (UsbSrvClient System (option RemoteObject)).
Definition unstarted (s : option RemoteObject) (m : DemoService) : DemoClient := {|
  proxy_ := None; deathRecipient_ := 0; claimCallback_ := None; serialRemote_ := None; accessoryRemote_ := None;
  watched_ := []; heard_ := []; server_ := {| running := true; the_state := m |}; platform_ := s |}.
Definition quiet : state DemoClient () := mret ().
(** Alice's process, with the device at 1-2 and the rights of both. *)
Definition alice_client : DemoClient := (construct (unstarted (Some the_service) shared_bus)).2.
Definition the_pipe : USBDevicePipe := {| pipe_busNum_ := 1; pipe_devAddr_ := 2 |}.
Definition interface_number (n : Z) : UsbInterface.t := {|
  UsbInterface.id_ := n; UsbInterface.protocol_ := 0; UsbInterface.klass_ := 3; UsbInterface.subClass_ := 0;
  UsbInterface.alternateSetting_ := 0; UsbInterface.name_ := ""; UsbInterface.endpoints_ := [endpoint];
  UsbInterface.iInterface_ := 0; UsbInterface.authorized_ := true |}.
Abbreviation claim_it n := (operate quiet 0 the_pipe (P_ClaimInterfaceExclusive (interface_number n) true (Some 33)) alice_client).

(** *** What the code does with odd inputs *)

(** An interface number of nine bits is another interface to the service. *)
Example a_large_interface_number_is_cut :
  ((claim_it 256).1, elements (dom (claimStateMap_ (the_state (server_ (claim_it 256).2))))) = (Done UEC_OK, ["1-2-0"]).
Proof. vm_compute. reflexivity. Qed.
(** Setting functions without a connection: the code says success. *)
Example functions_set_without_connection :
  (SetCurrentFunctions quiet 4 (unstarted None shared_bus)).1 = UEC_OK.
Proof. vm_compute. reflexivity. Qed.
(** The service refuses to take the claim back (the other process holds it); the
    listener of Alice's claim is gone all the same.  A claim that is repeated and
    refused loses its listener too, though the service still has the owner. *)
Definition close_of_library (f : state DemoClient Z) : DemoClient := (f (claim_it 0).2).2.
Example CloseEx_keeps_the_listener :
  (listener_at 1 2 0 (close_of_library (CloseEx quiet the_pipe)),
   listener_at 1 2 0 (close_of_library (b ← Close the_pipe; mret (Z.b2z b)))) = (Some 33, None).
Proof. vm_compute. reflexivity. Qed.
(** The service is gone between the test and the call: a null pointer. *)
Example listener_registered_while_the_service_dies :
  (RegisterConnectionListener (modify (set_proxy None)) (Some 70) alice_client).1 = Fault.
Proof. vm_compute. reflexivity. Qed.

(** *** The theorems at work *)

Lemma client_refines_service_witness :
  ∃ s, reached quiet alice_client s ∧
    perform true alice 1 2 (R_ClaimInterfaceExclusive 0 1 (Some 50)) (the_state s) = (Done UEC_OK, the_state (server_ (claim_it 0).2)).
Proof.
  pose proof (client_refines_service true demo_rights (2 ^ 64 - 1) (λ _, mret ()) 0 fresh_attr the_state alice quiet 0
    the_pipe (P_ClaimInterfaceExclusive (interface_number 0) true (Some 33)) alice_client) as Hp.
  assert ((claim_it 0).1 = Done UEC_OK) as Hc by (vm_compute; reflexivity).
  assert (request 0 0 alice_client (P_ClaimInterfaceExclusive (interface_number 0) true (Some 33)) = R_ClaimInterfaceExclusive 0 1 (Some 50)) as Er by reflexivity.
  assert (target the_pipe (P_ClaimInterfaceExclusive (interface_number 0) true (Some 33)) = (1, 2)) as Et by reflexivity.
  rewrite Et, Er in Hp. clear Et Er.
  destruct (operate quiet 0 the_pipe (P_ClaimInterfaceExclusive (interface_number 0) true (Some 33)) alice_client) as [res m'].
  cbn [fst snd] in *. subst res.
  destruct Hp as (s & Hs & [[_ Hr]|[Hn _]]); [exact (ex_intro _ s (conj Hs Hr))|by destruct Hn].
Defined.

Lemma client_success_needs_right_witness :
  ∃ s, reached quiet alice_client s ∧
    (rights_settled (the_state s) → device_right demo_rights alice (device_key 1 2) (the_state s)).
Proof.
  assert (operate quiet 0 the_pipe P_CloseEx alice_client = (Done UEC_OK, (operate quiet 0 the_pipe P_CloseEx alice_client).2)) as Ho by (vm_compute; reflexivity).
  exact (client_success_needs_right true demo_rights (2 ^ 64 - 1) (λ _, mret ()) 0 fresh_attr the_state alice quiet 0
    the_pipe P_CloseEx alice_client _ Ho).
Defined.

(** One step. *)
Lemma one_step l (m m' : DemoClient) : client_step quiet 0 m l m' → rtc (λ m m', ∃ l, client_step quiet 0 m l m') m m'.
Proof. intros Hs. apply rtc_once. by exists l. Qed.
Lemma the_service_in_use_is_watched_witness :
  watched_ alice_client = [(the_service, deathRecipient_ alice_client)] ∧
  (OnRemoteDied quiet (Some (Some the_service)) alice_client).2 =
    ((quiet;; ConnectUsbService false) (set_proxy None (set_watched [] alice_client))).2.
Proof.
  assert (Runs (keeps_connection (S := System)) quiet) as Ho by (intros m Hm; exact Hm).
  assert (watched_ alice_client = [(the_service, deathRecipient_ alice_client)]) as Hw by (vm_compute; reflexivity).
  split; [exact Hw|]. refine (proj1 (proj2 (the_service_in_use_is_watched quiet 0 (unstarted (Some the_service) shared_bus) alice_client Ho eq_refl eq_refl _)) _ Hw).
  apply (one_step K_construct), k_construct.
Defined.

Lemma the_pipe_ok : pipe_ok the_pipe.
Proof. by split. Qed.
Lemma nobody_concerned : ¬ concerns 1 2 0 K_other.
Proof. intros []. Qed.
(** Between the claim and the conflict Alice reads. *)
Abbreviation alice_claims := (ClaimInterfaceExclusive quiet the_pipe (interface_number 0) true (Some 33) alice_client).
Abbreviation after_a_read := (BulkTransfer the_pipe endpoint [0; 0] 10 alice_claims.2).2.
Lemma conflict_reaches_listener_witness :
  alice_claims.1 = Done UEC_OK ∧
  onConflict 1 2 (interface_arg (interface_number 0)) after_a_read =
    (0, set_heard ((33, (1, 2, interface_arg (interface_number 0))) :: heard_ after_a_read) after_a_read).
Proof.
  assert (alice_claims.1 = Done UEC_OK) as Hc by (vm_compute; reflexivity). split; [exact Hc|].
  assert (Runs (keeps_listener (S := System) 1 2 0 33) quiet) as Ho by (intros m Hm; exact Hm).
  assert (alice_claims = (Done UEC_OK, alice_claims.2)) as Hd by (vm_compute; reflexivity).
  refine (conflict_reaches_listener quiet 0 the_pipe (interface_number 0) true 33 alice_client alice_claims.2 after_a_read the_pipe_ok Ho Hd _).
  apply rtc_once. exists K_other. split; [exact nobody_concerned|]. apply k_pipe, p_bulk, the_pipe_ok.
Defined.

Lemma disconnected_requests_fail_witness :
  unavailable (unstarted None shared_bus) ∧
  let '(res, m') := operate quiet 0 the_pipe P_ResetDevice (unstarted None shared_bus) in
  (res = Done (uec UEC_INTERFACE_NO_INIT) ∨ P_ResetDevice = P_Close ∧ res = Done (truth false)) ∧
  only_platform (unstarted None shared_bus) m'.
Proof.
  assert (unavailable (unstarted None shared_bus)) as Hu by (right; exact (conj eq_refl eq_refl)).
  split; [exact Hu|]. exact (disconnected_requests_fail quiet 0 the_pipe P_ResetDevice (unstarted None shared_bus) eq_refl Hu).
Defined.

(** The same process with its calls noted. *)
Definition noted : UsbSrvClient (logged System) (option RemoteObject) := {|
  proxy_ := Some the_service; deathRecipient_ := 0; claimCallback_ := None; serialRemote_ := None; accessoryRemote_ := None;
  watched_ := []; heard_ := []; server_ := ([], {| running := true; the_state := shared_bus |}); platform_ := None |}.
