(* ===== verification/UsbFunctionSwitchWindow.v ===== *)
(** * The window that asks for a function
    (services/native/src/usb_function_switch_window.cpp)

    When a host is connected a dialog asks the user what the gadget should be.  The
    dialog is an ability of another process: the window connects to it, sends it a
    request to show itself when the connection is there, and another to go away. *)
From S2P Require Import Prelude UsbErrors Platform UsbDescriptorParser UsbHostTransfer.

Definition DEFAULT_PARAM_VALUE : string := "charge,mtp,ptp".
Definition MAX_RETRY_TIMES : nat := 30.
Definition DELAY_CHECK_DIALOG : Z := 1.
Definition SUPPORTED_FUNC_NONE : Z := -1.
Definition SUPPORTED_FUNC_MTP : Z := 8.
Definition SUPPORTED_FUNC_PTP : Z := 16.
Definition ERR_OK : Z := 0.
Definition CMD_SHOW : Z := 1.
Definition CMD_CLOSE : Z := 3.
Definition BOOT_COMPLETED : string := "bootevent.boot.completed".

Inductive UsbFunctionSwitchWindowAction := ACTION_DEFAULT | ACTION_SHOW | ACTION_DISMISS | ACTION_FORBID.
#[global] Instance UsbFunctionSwitchWindowAction_eq_dec : EqDecision UsbFunctionSwitchWindowAction.
Proof. solve_decision. Defined.

(** Parameters of the system, the bundle and ability managers, the settings. *)
Class SwitchPlatform (P : Type) := {
  GetBoolParameter : string → bool → state P bool;
  SetParameter : string → string → state P bool;
  GetStringParameter : string → string → state P string;
  WatchParameter : string → state P Z;
  GetBundleInfo : state P bool;                     (* whether the dialog's bundle is there *)
  AbilityManagerClient_GetInstance : state P bool;  (* not null *)
  ConnectAbility : string → nat → state P Z;        (* the dialog's ability, the connection *)
  DisconnectAbility : nat → state P Z;
  SendRequest : RemoteObject → Z → option string → state P (Z * option Z);   (* the code and the reply's number *)
  SubscribeCommonEvent : state P bool;
  OobeQuery : string → string → string → state P (bool * string);
  QueryActiveOsAccountIds : state P (list Z);
  timer_Setup : state P Z;
}.

(** [UsbFuncAbilityConn]; the system keeps such an object and calls it. *)
Record UsbFuncAbilityConn := { isAbortDialog_ : bool; remoteObject_ : option RemoteObject }.
Definition new_conn : UsbFuncAbilityConn := {| isAbortDialog_ := false; remoteObject_ := None |}.

(** What the timer runs. *)
Inductive CheckTask := CheckDialog.
Inductive WindowEffect :=
  | Connected (conn : nat)                          (* the ability manager took the connection *)
  | Disconnected (conn : nat)
  | Requested (remote : RemoteObject) (cmd : Z)     (* sent to a dialog *)
  | Watching                                        (* the end of booting *)
  | Wanted (b : bool)                               (* the window is to be shown, or not *)
  | Dropped (conn : nat).                           (* the window forgets the connection *)
#[global] Instance WindowEffect_eq_dec : EqDecision WindowEffect.
Proof. solve_decision. Defined.

Record UsbFunctionSwitchWindow (P T : Type) := {
  windowAction_ : UsbFunctionSwitchWindowAction;
  conns_ : list UsbFuncAbilityConn;                 (* all connections ever made, by number *)
  usbFuncAbilityConn : option nat;
  isDialogInstalled_ : bool;
  checkDialogTimerId_ : Z;
  checkDialogTimer_ : T;
  window_platform_ : P;
  window_trace_ : list WindowEffect;                (* newest first *)
}.
Arguments windowAction_ {P T} _.
Arguments conns_ {P T} _.
Arguments usbFuncAbilityConn {P T} _.
Arguments isDialogInstalled_ {P T} _.
Arguments checkDialogTimerId_ {P T} _.
Arguments checkDialogTimer_ {P T} _.
Arguments window_platform_ {P T} _.
Arguments window_trace_ {P T} _.
Arguments Build_UsbFunctionSwitchWindow {P T} _ _ _ _ _ _ _ _.

Section Fields.
Context {P T : Type}.
Implicit Types m : UsbFunctionSwitchWindow P T.
Definition set_action x m := let 'Build_UsbFunctionSwitchWindow _ b c d e f g h := m in Build_UsbFunctionSwitchWindow x b c d e f g h.
Definition set_conns x m := let 'Build_UsbFunctionSwitchWindow a _ c d e f g h := m in Build_UsbFunctionSwitchWindow a x c d e f g h.
Definition set_current x m := let 'Build_UsbFunctionSwitchWindow a b _ d e f g h := m in Build_UsbFunctionSwitchWindow a b x d e f g h.
Definition set_installed x m := let 'Build_UsbFunctionSwitchWindow a b c _ e f g h := m in Build_UsbFunctionSwitchWindow a b c x e f g h.
Definition set_check_id x m := let 'Build_UsbFunctionSwitchWindow a b c d _ f g h := m in Build_UsbFunctionSwitchWindow a b c d x f g h.
Definition set_check_timer (x : T) m := let 'Build_UsbFunctionSwitchWindow a b c d e _ g h := m in Build_UsbFunctionSwitchWindow a b c d e x g h.
Definition set_window_platform (x : P) m := let 'Build_UsbFunctionSwitchWindow a b c d e f _ h := m in Build_UsbFunctionSwitchWindow a b c d e f x h.
Definition set_window_trace x m := let 'Build_UsbFunctionSwitchWindow a b c d e f g _ := m in Build_UsbFunctionSwitchWindow a b c d e f g x.
End Fields.

Definition UINT32_MAX : Z := 4294967295.
(** [UsbFunctionSwitchWindow()], the members' initial values. *)
Definition new_window {P T} (p : P) (t : T) : UsbFunctionSwitchWindow P T :=
  Build_UsbFunctionSwitchWindow ACTION_DEFAULT [] None false UINT32_MAX t p [].

Definition contains (sub s : string) : bool := match String.index 0 sub s with Some _ => true | None => false end.

Section Window.
Context {P T : Type} `{!SwitchPlatform P, !DelayTimer CheckTask T, !CJson, !ErrCodeBase}.
Abbreviation W := (UsbFunctionSwitchWindow P T).
Abbreviation M := (state W).
(** What happens while a check of the installation sleeps. *)
Context (others : M ()).

Definition ask {A} (f : state P A) : M A := zoom window_platform_ set_window_platform f.
Definition on_check_timer {A} (f : state T A) : M A := zoom checkDialogTimer_ set_check_timer f.
Definition note (e : WindowEffect) : M () := modify (λ m, set_window_trace (e :: window_trace_ m) m).
Definition alter_conn (c : nat) (f : UsbFuncAbilityConn → UsbFuncAbilityConn) : M () :=
  modify (λ m, set_conns (alter f c (conns_ m)) m).
Definition set_abort (x : bool) (k : UsbFuncAbilityConn) : UsbFuncAbilityConn := {| isAbortDialog_ := x; remoteObject_ := remoteObject_ k |}.
Definition set_remote (x : option RemoteObject) (k : UsbFuncAbilityConn) : UsbFuncAbilityConn := {| isAbortDialog_ := isAbortDialog_ k; remoteObject_ := x |}.
(** A request to a dialog. *)
Definition send (r : RemoteObject) (cmd : Z) (data : option string) : M (Z * option Z) := note (Requested r cmd);; ask (SendRequest r cmd data).

Definition GetSupportedFunctions : M Z :=
  supportedFuncStr ← ask (GetStringParameter "const.usb_manager.supported_functions" DEFAULT_PARAM_VALUE);
  if contains "none" supportedFuncStr then mret SUPPORTED_FUNC_NONE else
  mret (Z.lor (if contains "mtp" supportedFuncStr then SUPPORTED_FUNC_MTP else 0)
              (if contains "ptp" supportedFuncStr then SUPPORTED_FUNC_PTP else 0)).

(** ** The connection to the dialog *)

Definition PrepareJson : M string :=
  supportedFuncs ← GetSupportedFunctions;
  mret (default "" (cJSON_PrintUnformatted
    (JObject [("supportedFuncs", JString (pretty supportedFuncs)); ("ability.want.params.uiExtensionType", JString "sysDialog/common")]))).
(** An aborted connection uses [remoteObject_], not the object that has just
    arrived: [Fault] is a null pointer. *)
Definition OnAbilityConnectDone (c : nat) (remoteObject : option RemoteObject) : M (outcome ()) :=
  match remoteObject with
  | None => mret (Done ())
  | Some r =>
      m ← get;
      match conns_ m !! c with
      | None => mret (Done ())
      | Some k =>
          if isAbortDialog_ k then
            match remoteObject_ k with
            | None => mret Fault
            | Some old => _ ← send old CMD_CLOSE None; mret (Done ())
            end
          else
            paramStr ← PrepareJson;
            if bool_decide (paramStr = "") then mret (Done ()) else
            '(ret, reply) ← send r CMD_SHOW (Some paramStr);
            if negb (ret =? ERR_OK) then mret (Done ()) else
            if negb (bool_decide (reply = Some ERR_OK)) then mret (Done ()) else
            alter_conn c (set_remote (Some r));; mret (Done ())
      end
  end.
Definition OnAbilityDisconnectDone (c : nat) : M () := alter_conn c (set_remote None).
Definition CloseDialog (c : nat) : M () :=
  alter_conn c (set_abort true);;
  m ← get;
  match k ← conns_ m !! c; remoteObject_ k with
  | None => mret ()
  | Some r => _ ← send r CMD_CLOSE None; mret ()
  end.
Definition ReopenDialog (c : nat) : M () := alter_conn c (set_abort false).

(** ** Showing and hiding *)

Definition ShowFunctionSwitchWindow : M bool :=
  installed ← gets isDialogInstalled_;
  if negb installed then mret false else
  m ← get;
  (match usbFuncAbilityConn m with
   | None => modify (set_conns (conns_ m ++ [new_conn]));; modify (set_current (Some (length (conns_ m))))
   | Some _ => mret ()
   end);;
  current ← gets usbFuncAbilityConn;
  let c := default 0%nat current in
  ReopenDialog c;;
  abilityManager ← ask AbilityManagerClient_GetInstance;
  if negb abilityManager then mret false else
  ret ← ask (ConnectAbility "com.ohos.sceneboard.systemdialog" c);
  if ret =? ERR_OK then note (Connected c);; mret true else
  ret ← ask (ConnectAbility "com.ohos.systemui.dialog" c);
  if ret =? ERR_OK then note (Connected c);; mret true else
  modify (set_current None);; note (Dropped c);; mret false.
Definition UnShowFunctionSwitchWindow : M bool :=
  current ← gets usbFuncAbilityConn;
  match (current : option nat) with
  | None => mret true
  | Some c =>
      abmc ← ask AbilityManagerClient_GetInstance;
      if negb abmc then mret false else
      CloseDialog c;;
      ret ← ask (DisconnectAbility c);
      if negb (ret =? UEC_OK) then mret false else note (Disconnected c);; mret true
  end.
(** [~UsbFunctionSwitchWindow] *)
Definition destroy : M () :=
  action ← gets windowAction_;
  if bool_decide (action = ACTION_SHOW) then _ ← UnShowFunctionSwitchWindow; mret () else mret ().

(** Whether the first start of the system is not over yet. *)
Definition ShouldRejectShowWindow : M bool :=
  '(resp, device_provisioned) ← ask (OobeQuery
    "datashare:///com.ohos.settingsdata/entry/settingsdata/SETTINGSDATA?Proxy=true&key=device_provisioned" "device_provisioned" "0");
  if resp && negb (bool_decide (device_provisioned = "1")) then mret true else
  activedOsAccountIds ← ask QueryActiveOsAccountIds;
  match activedOsAccountIds with
  | [] => mret true
  | userId :: _ =>
      let secure := "datashare:///com.ohos.settingsdata/entry/settingsdata/USER_SETTINGSDATA_SECURE_" +:+ pretty (userId : Z) in
      '(resp_userSetup, user_setup_complete) ← ask (OobeQuery (secure +:+ "?Proxy=true&key=user_setup_complete") "user_setup_complete" "0");
      if resp_userSetup && negb (bool_decide (user_setup_complete = "1")) then mret true else
      '(resp_ota, is_ota_finished) ← ask (OobeQuery (secure +:+ "?Proxy=true&key=is_ota_finished") "is_ota_finished" "0");
      mret (resp_ota && bool_decide (is_ota_finished = "0"))
  end.

Definition ShowWindowIfConnected : M bool :=
  action ← gets windowAction_;
  if bool_decide (action = ACTION_SHOW) then
    ok ← ShowFunctionSwitchWindow; if negb ok then mret false else mret true
  else mret false.
(** Called when the parameter of booting changes; the answer about the first start
    is only logged, here and below. *)
Definition BootCompletedEventCallback : M () :=
  booted ← ask (GetBoolParameter BOOT_COMPLETED false);
  if negb booted then mret () else
  _ ← ShouldRejectShowWindow;
  _ ← ShowWindowIfConnected; mret ().

Definition PopUpFunctionSwitchWindow : M bool :=
  isPromptEnabled ← ask (GetBoolParameter "persist.usb.setting.gadget_conn_prompt" true);
  if negb isPromptEnabled then mret false else
  isTempDisablePrompt ← ask (GetBoolParameter "usb.setting.gadget_conn_prompt" true);
  if negb isTempDisablePrompt then _ ← ask (SetParameter "usb.setting.gadget_conn_prompt" "true"); mret false else
  supportedFuncs ← GetSupportedFunctions;
  if supportedFuncs <? 0 then mret false else
  action ← gets windowAction_;
  if bool_decide (action = ACTION_FORBID) then mret false else
  modify (set_action ACTION_SHOW);; note (Wanted true);;
  booted ← ask (GetBoolParameter BOOT_COMPLETED false);
  if negb booted then _ ← ask (WatchParameter BOOT_COMPLETED); note Watching;; mret false else
  _ ← ShouldRejectShowWindow;
  ShowFunctionSwitchWindow.
Definition DismissFunctionSwitchWindow : M bool :=
  action ← gets windowAction_;
  if bool_decide (action = ACTION_FORBID) then mret false else
  modify (set_action ACTION_DISMISS);; note (Wanted false);;
  UnShowFunctionSwitchWindow.

(** ** Whether the dialog is installed *)

(** One query for each retry left; the loop sleeps after a query that says no. *)
Fixpoint check_dialog (retries : nat) : M bool :=
  match retries with
  | O => mret false
  | S retries =>
      installed ← ask GetBundleInfo;
      modify (set_installed installed);;
      if negb installed then others;; check_dialog retries else
      action ← gets windowAction_;
      (if bool_decide (action = ACTION_SHOW) then
         booted ← ask (GetBoolParameter BOOT_COMPLETED false);
         if (booted : bool) then _ ← ShowFunctionSwitchWindow; mret () else mret ()
       else mret ());;
      mret true
  end.
Definition CheckDialogInstallStatus : M bool := check_dialog MAX_RETRY_TIMES.
(** [FuncSwitchSubscriber::OnReceiveEvent]: the bundles have been scanned. *)
Definition OnReceiveEvent (scan_finished : bool) : M () :=
  if scan_finished then _ ← CheckDialogInstallStatus; mret () else mret ().
Definition check_and_subscribe : M () :=
  checkRet ← CheckDialogInstallStatus;
  if negb checkRet then _ ← ask SubscribeCommonEvent; mret () else mret ().
Definition drop_check : M () := id ← gets checkDialogTimerId_; on_check_timer (timer_Unregister id).
Definition run_check : M () := check_and_subscribe;; drop_check.
Definition Init : M Z :=
  installed ← gets isDialogInstalled_;
  if (installed : bool) then mret UEC_OK else
  drop_check;;
  ret ← ask timer_Setup;
  if negb (ret =? UEC_OK) then
    check_and_subscribe;;
    installed ← gets isDialogInstalled_; mret (if (installed : bool) then UEC_OK else ret)
  else
    id ← on_check_timer (timer_Register CheckDialog DELAY_CHECK_DIALOG true);
    modify (set_check_id id);; mret UEC_OK.
End Window.
