(* ===== verification/UsbSwitchWindowTheorems.v ===== *)
(** * The window that asks for a function: its properties *)
From S2P Require Import Prelude UsbErrors Platform UsbDescriptorParser UsbHostExamples UsbHostTransfer UsbFunctionSwitchWindow.

Section Window.
Context {P T : Type} `{!SwitchPlatform P, !DelayTimer CheckTask T, !CJson, !ErrCodeBase}.
Abbreviation W := (UsbFunctionSwitchWindow P T).
Abbreviation M := (state W).
Context (others : M ()).
Implicit Types m : W.

(** What happens to the window: the device manager, the timer, the events of the
    system and the connections call it.  After a null pointer nothing follows. *)
Inductive window_step m : W → Prop :=
  | w_init : window_step m (Init others m).2
  | w_check : window_step m (run_check others m).2
  | w_scan b : window_step m (OnReceiveEvent others b m).2
  | w_boot : window_step m (BootCompletedEventCallback m).2
  | w_popup : window_step m (PopUpFunctionSwitchWindow m).2
  | w_dismiss : window_step m (DismissFunctionSwitchWindow m).2
  | w_connected c r m' : OnAbilityConnectDone c r m = (Done (), m') → window_step m m'
  | w_disconnected c : window_step m (OnAbilityDisconnectDone c m).2
  | w_destroy : window_step m (destroy m).2
  | w_platform p t : window_step m (set_window_platform p (set_check_timer t m)).

(** ** What is shown is wanted *)

(** Whether the window was to be shown, after a trace. *)
Fixpoint wanted (t : list WindowEffect) : bool :=
  match t with [] => false | Wanted b :: _ => b | _ :: t => wanted t end.
(** A dialog is only connected while it is wanted. *)
Fixpoint connects_wanted (t : list WindowEffect) : Prop :=
  match t with [] => True | Connected _ :: t => wanted t = true ∧ connects_wanted t | _ :: t => connects_wanted t end.
(** A connection that is not aborted is the current one of a window to be shown;
    the exception are those the window has dropped. *)
Definition window_ok m : Prop :=
  connects_wanted (window_trace_ m) ∧
  (windowAction_ m = ACTION_SHOW ↔ wanted (window_trace_ m) = true) ∧
  (∀ c, usbFuncAbilityConn m = Some c → c < length (conns_ m))%nat ∧
  (∀ c k, conns_ m !! c = Some k → isAbortDialog_ k = false → Dropped c ∉ window_trace_ m →
     windowAction_ m = ACTION_SHOW ∧ usbFuncAbilityConn m = Some c).
Definition keeps_window m m' : Prop := window_ok m → window_ok m'.
Definition reachable m : Prop := ∃ p t, rtc window_step (new_window p t) m.
#[local] Instance keeps_window_preorder : PreOrder keeps_window.
Proof. split; [intros m Hm; exact Hm|]. intros m1 m2 m3 H12 H23 Hm. by apply H23, H12. Qed.

Lemma keeps_window_same m m' : windowAction_ m' = windowAction_ m → conns_ m' = conns_ m → usbFuncAbilityConn m' = usbFuncAbilityConn m →
  window_trace_ m' = window_trace_ m → keeps_window m m'.
Proof. unfold keeps_window, window_ok. by intros -> -> -> ->. Qed.
Lemma ask_keeps {A} (f : state P A) : Runs keeps_window (ask f).
Proof. apply runs_zoom. intros m. apply keeps_window_same; by destruct m. Qed.
Lemma timer_keeps {A} (f : state T A) : Runs keeps_window (on_check_timer f).
Proof. apply runs_zoom. intros m. apply keeps_window_same; by destruct m. Qed.
(** Events that change neither what is wanted nor the connections. *)
Definition plain_effect (e : WindowEffect) : bool :=
  match e with Connected _ | Wanted _ => false | _ => true end.
Lemma note_keeps e : plain_effect e = true → Runs keeps_window (note e).
Proof.
  intros He [a cs cur i n t p tr] (Hc & Hw & Hl & Ho). unfold note, modify, window_ok in *. cbn in *.
  split; [by destruct e|]. split; [by rewrite Hw; destruct e|]. split; [done|].
  intros c k Hk Hb Hd. apply (Ho c k Hk Hb). intros Hin. by apply Hd, elem_of_cons; right.
Qed.
#[local] Hint Resolve ask_keeps timer_keeps : runs.
#[local] Hint Extern 1 (Runs _ (note _)) => apply note_keeps; reflexivity : runs.

Lemma requested_keeps r cmd data : Runs keeps_window (send r cmd data : M _).
Proof. unfold send. runs. Qed.

(** While the window is to be shown. *)
Definition showing m : Prop := windowAction_ m = ACTION_SHOW ∧ window_ok m.
Definition keeps_showing m m' : Prop := showing m → showing m'.
#[local] Instance keeps_showing_preorder : PreOrder keeps_showing.
Proof. split; [intros m Hm; exact Hm|]. intros m1 m2 m3 H12 H23 Hm. by apply H23, H12. Qed.
Lemma ask_shows {A} (f : state P A) : Runs keeps_showing (ask f).
Proof. apply runs_zoom. intros m [Ha Hm]. split; [by destruct m|]. revert Hm. apply keeps_window_same; by destruct m. Qed.
Lemma reopen_ok m c : showing m → usbFuncAbilityConn m = Some c →
  showing (ReopenDialog c m).2 ∧ usbFuncAbilityConn (ReopenDialog c m).2 = Some c.
Proof.
  destruct m as [a cs cur i n t p tr]. unfold showing, window_ok. cbn. intros (-> & Hc & Hw & Hl & Ho) ->.
  split; [|done]. do 3 (split; [done|]). split; [intros c' [= <-]; rewrite length_alter; by apply Hl|].
  intros c' k Hk Hb Hd. split; [done|]. destruct (decide (c' = c)) as [->|Hn]; [done|].
  rewrite list_lookup_alter_ne in Hk by done. by apply (Ho c' k).
Qed.
Lemma new_ok m : showing m → usbFuncAbilityConn m = None →
  showing (set_current (Some (length (conns_ m))) (set_conns (conns_ m ++ [new_conn]) m)).
Proof.
  destruct m as [a cs cur i n t p tr]. unfold showing, window_ok. cbn. intros (-> & Hc & Hw & Hl & Ho) ->.
  do 3 (split; [done|]). split; [intros c' [= <-]; rewrite length_app; cbn; lia|].
  intros c' k [Hk|[Hle Hk]]%lookup_app_Some Hb Hd; [by destruct (Ho c' k Hk Hb Hd)|].
  apply lookup_lt_Some in Hk. cbn in Hk. split; [done|]. f_equal. lia.
Qed.
Lemma connected_ok c : Runs keeps_showing (note (Connected c) : M ()).
Proof.
  intros [a cs cur i n t p tr]. unfold keeps_showing, showing, window_ok. cbn. intros (-> & Hc & Hw & Hl & Ho).
  split; [done|]. split; [by split; [apply Hw|]|]. split; [done|]. split; [done|].
  intros c' k Hk Hb Hd. apply (Ho c' k Hk Hb). intros Hin. by apply Hd, elem_of_cons; right.
Qed.
Lemma drop_ok m c : showing m → usbFuncAbilityConn m = Some c → showing (note (Dropped c) (set_current None m)).2.
Proof.
  destruct m as [a cs cur i n t p tr]. unfold showing, window_ok. cbn. intros (-> & Hc & Hw & Hl & Ho) ->.
  do 4 (split; [done|]). intros c' k Hk Hb Hd. apply not_elem_of_cons in Hd as [Hn Hd].
  destruct (Ho c' k Hk Hb Hd) as [_ [= <-]]. done.
Qed.
Lemma ask_run {A} (f : state P A) m :
  ask f m = ((f (window_platform_ m)).1, set_window_platform (f (window_platform_ m)).2 m).
Proof. unfold ask, zoom. by destruct (f _). Qed.
Lemma ask_current {A} (f : state P A) m : usbFuncAbilityConn (ask f m).2 = usbFuncAbilityConn m.
Proof. rewrite ask_run. by destruct m. Qed.
(** The part of [ShowFunctionSwitchWindow] after the connection has been chosen. *)
Lemma attempt_shows c m : showing m → usbFuncAbilityConn m = Some c →
  showing ((abilityManager ← ask AbilityManagerClient_GetInstance;
    if negb abilityManager then mret false else
    ret ← ask (ConnectAbility "com.ohos.sceneboard.systemdialog" c);
    if ret =? ERR_OK then note (Connected c);; mret true else
    ret ← ask (ConnectAbility "com.ohos.systemui.dialog" c);
    if ret =? ERR_OK then note (Connected c);; mret true else
    modify (set_current None);; note (Dropped c);; mret false) m : bool * W).2.
Proof.
  intros Hm Hc. rewrite bind_run. rewrite <- (ask_current AbilityManagerClient_GetInstance) in Hc.
  apply (ask_shows AbilityManagerClient_GetInstance) in Hm. destruct (ask _ m) as [[] m1]; cbn [negb fst snd] in *; [|done].
  do 2 (rewrite bind_run; match goal with |- context [ask ?f ?x] =>
    rewrite <- (ask_current f) in Hc; apply (ask_shows f) in Hm; destruct (ask f x) as [? ?m]; cbn [fst snd] in * end;
    case_match; [by apply connected_ok|]).
  by apply drop_ok.
Qed.
Lemma ShowFunctionSwitchWindow_shows : Runs keeps_showing (ShowFunctionSwitchWindow : M bool).
Proof.
  intros m Hm. unfold ShowFunctionSwitchWindow. rewrite bind_run. cbn [gets fst snd].
  destruct (isDialogInstalled_ m); cbn [negb]; [|done]. rewrite bind_run. cbn [get fst snd]. rewrite bind_run.
  destruct (usbFuncAbilityConn m) as [c|] eqn:Ec; cbn [fst snd mret state_ret].
  - rewrite bind_run. cbn [gets fst snd]. rewrite Ec. cbn [default]. rewrite bind_run.
    destruct (reopen_ok m c Hm Ec). by apply attempt_shows.
  - apply new_ok in Hm; [|done]. rewrite !bind_run.
    replace (modify _ _).2 with (set_current (Some (length (conns_ m))) (set_conns (conns_ m ++ [new_conn]) m)) by (by destruct m).
    set (m1 := set_current _ _) in *. assert (usbFuncAbilityConn m1 = Some (length (conns_ m))) as E1 by (by destruct m).
    cbn [gets fst snd]. rewrite E1. destruct (reopen_ok m1 _ Hm E1) as [Hs Hc].
    apply (attempt_shows _ _ Hs) in Hc. by rewrite bind_run in Hc.
Qed.
Lemma note_shows e : plain_effect e = true → Runs keeps_showing (note e : M ()).
Proof. intros He m [Ha Hm]. split; [by destruct m|]. by apply note_keeps. Qed.
#[local] Hint Resolve ask_shows ShowFunctionSwitchWindow_shows requested_keeps : runs.
#[local] Hint Extern 1 (Runs keeps_showing (note _)) => apply note_shows; reflexivity : runs.
Lemma keeps_if_showing {A} (f g : M A) : Runs keeps_showing f → Runs keeps_window g →
  Runs keeps_window (action ← gets windowAction_; if bool_decide (action = ACTION_SHOW) then f else g).
Proof.
  intros Hf Hg m Hm. rewrite bind_run. cbn [gets fst snd]. case_bool_decide; [|by apply Hg]. by apply Hf.
Qed.
Lemma keeps_when_showing {A B} (f g : M A) (k : A → M B) : Runs keeps_showing f → Runs keeps_window g → (∀ a, Runs keeps_window (k a)) →
  Runs keeps_window (action ← gets windowAction_; (if bool_decide (action = ACTION_SHOW) then f else g) ≫= k).
Proof.
  intros Hf Hg Hk m Hm. rewrite bind_run. cbn [gets fst snd]. rewrite bind_run. apply Hk. case_bool_decide; [|by apply Hg]. by apply Hf.
Qed.
Lemma conn_keeps c f : (∀ k, isAbortDialog_ (f k) = false → isAbortDialog_ k = false) → Runs keeps_window (alter_conn c f : M ()).
Proof.
  intros Hf [a cs cur i n t p tr] (Hc & Hw & Hl & Ho). unfold alter_conn, modify, window_ok in *. cbn in *.
  do 2 (split; [done|]). split; [intros c' Hc'; rewrite length_alter; by apply Hl|]. intros c' k Hk Hb Hd.
  destruct (decide (c' = c)) as [->|Hn]; [|rewrite list_lookup_alter_ne in Hk by done; by apply (Ho c' k)].
  rewrite list_lookup_alter, decide_True in Hk by done. apply fmap_Some in Hk as (k' & Hk' & ->). apply (Ho c k' Hk' (Hf _ Hb) Hd).
Qed.
Lemma action_shows m : window_ok m → showing ((modify (set_action ACTION_SHOW);; note (Wanted true)) m : () * W).2.
Proof.
  destruct m as [a cs cur i n t p tr]. unfold showing, window_ok. cbn. intros (Hc & Hw & Hl & Ho).
  do 4 (split; [done|]). intros c k Hk Hb Hd. split; [done|]. apply (Ho c k Hk Hb). intros Hin. by apply Hd, elem_of_cons; right.
Qed.
#[local] Hint Extern 1 (Runs _ (alter_conn _ _)) => apply conn_keeps; done : runs.
Lemma showing_keeps {A} (f : M A) m : Runs keeps_showing f → showing m → window_ok (f m).2.
Proof. intros Hf Hm. by apply Hf. Qed.

(** The system always has an ability manager; others keep the window, too. *)
Context (ability_manager : ∀ p : P, (AbilityManagerClient_GetInstance p).1 = true) (others_keep : Runs keeps_window others).

(** What hiding finds: a window not to be shown, its current connection perhaps open. *)
Definition hiding m : Prop :=
  connects_wanted (window_trace_ m) ∧
  (windowAction_ m = ACTION_SHOW ↔ wanted (window_trace_ m) = true) ∧
  (∀ c, usbFuncAbilityConn m = Some c → c < length (conns_ m))%nat ∧
  (∀ c k, conns_ m !! c = Some k → isAbortDialog_ k = false → Dropped c ∉ window_trace_ m → usbFuncAbilityConn m = Some c).
Lemma window_ok_hiding m : window_ok m → hiding m.
Proof. intros (Hc & Hw & Hl & Ho). do 3 (split; [done|]). intros c k Hk Hb Hd. by apply (Ho c k Hk Hb Hd). Qed.
Lemma abort_ok c m : hiding m → usbFuncAbilityConn m = Some c → window_ok (alter_conn c (set_abort true) m).2.
Proof.
  destruct m as [a cs cur i n t p tr]. unfold hiding, window_ok. cbn. intros (Hc & Hw & Hl & Ho) ->.
  do 2 (split; [done|]). split; [intros c' [= <-]; rewrite length_alter; by apply Hl|]. intros c' k Hk Hb Hd.
  destruct (decide (c' = c)) as [->|Hn].
  - rewrite list_lookup_alter, decide_True in Hk by done. by apply fmap_Some in Hk as (k' & _ & ->).
  - rewrite list_lookup_alter_ne in Hk by done. destruct Hn. by injection (Ho c' k Hk Hb Hd).
Qed.
Lemma CloseDialog_hides c m : hiding m → usbFuncAbilityConn m = Some c → window_ok (CloseDialog c m : () * W).2.
Proof.
  intros Hm Hc. unfold CloseDialog. rewrite bind_run. generalize (abort_ok c m Hm Hc).
  match goal with |- _ → window_ok (?f ?x).2 => assert (Runs keeps_window f) as Hf by runs; apply Hf end.
Qed.
Lemma UnShowFunctionSwitchWindow_hides m : hiding m → window_ok (UnShowFunctionSwitchWindow m : bool * W).2.
Proof.
  intros Hm. unfold UnShowFunctionSwitchWindow. rewrite bind_run. cbn [gets fst snd].
  destruct (usbFuncAbilityConn m) as [c|] eqn:Ec.
  - rewrite bind_run, ask_run, ability_manager. cbn [fst snd negb]. rewrite bind_run.
    assert (hiding (set_window_platform (AbilityManagerClient_GetInstance (window_platform_ m)).2 m)) as Hm1 by (by destruct m).
    apply (CloseDialog_hides c) in Hm1; [|by destruct m]. revert Hm1.
    match goal with |- _ → window_ok (?f ?x).2 => assert (Runs keeps_window f) as Hf by runs; apply Hf end.
  - destruct m as [a cs cur i n t p tr]. cbn in Ec. subst cur. destruct Hm as (Hc & Hw & Hl & Ho).
    do 3 (split; [done|]). intros c k Hk Hb Hd. by specialize (Ho c k Hk Hb Hd).
Qed.
Lemma UnShowFunctionSwitchWindow_keeps : Runs keeps_window (UnShowFunctionSwitchWindow : M bool).
Proof. intros m Hm. by apply UnShowFunctionSwitchWindow_hides, window_ok_hiding. Qed.
Lemma DismissFunctionSwitchWindow_keeps : Runs keeps_window (DismissFunctionSwitchWindow : M bool).
Proof.
  intros m Hm. unfold DismissFunctionSwitchWindow. rewrite bind_run. cbn [gets fst snd]. case_bool_decide; [done|].
  rewrite !bind_run. apply UnShowFunctionSwitchWindow_hides. destruct m as [a cs cur i n t p tr].
  destruct (window_ok_hiding _ Hm) as (Hc & Hw & Hl & Ho). do 2 (split; [done|]). split; [done|].
  intros c k Hk Hb Hd. apply (Ho c k Hk Hb). intros Hin. by apply Hd, elem_of_cons; right.
Qed.
Lemma wanted_keeps {A} (f : M A) : Runs keeps_showing f →
  Runs keeps_window (modify (set_action ACTION_SHOW);; note (Wanted true);; f).
Proof. intros Hf m Hm. rewrite !bind_run. apply (showing_keeps _ _ Hf), (action_shows _ Hm). Qed.
#[local] Hint Extern 2 (Runs keeps_window (modify (set_action ACTION_SHOW) ≫= _)) => apply wanted_keeps; runs : runs.
#[local] Hint Extern 2 (Runs keeps_window (gets windowAction_ ≫= _)) =>
  first [apply keeps_if_showing | apply keeps_when_showing]; runs : runs.
#[local] Hint Resolve UnShowFunctionSwitchWindow_keeps DismissFunctionSwitchWindow_keeps others_keep : runs.
Lemma ShouldRejectShowWindow_keeps : Runs keeps_window (ShouldRejectShowWindow : M bool) ∧ Runs keeps_showing (ShouldRejectShowWindow : M bool).
Proof. unfold ShouldRejectShowWindow. split; runs. Qed.
#[local] Hint Extern 1 (Runs _ ShouldRejectShowWindow) => apply ShouldRejectShowWindow_keeps : runs.
Lemma GetSupportedFunctions_keeps : Runs keeps_window (GetSupportedFunctions : M Z).
Proof. unfold GetSupportedFunctions. runs. Qed.
#[local] Hint Resolve GetSupportedFunctions_keeps : runs.
Lemma PopUpFunctionSwitchWindow_keeps : Runs keeps_window (PopUpFunctionSwitchWindow : M bool).
Proof. unfold PopUpFunctionSwitchWindow. runs. Qed.
Lemma BootCompletedEventCallback_keeps : Runs keeps_window (BootCompletedEventCallback : M ()).
Proof. unfold BootCompletedEventCallback, ShowWindowIfConnected. runs. Qed.
Lemma installed_keeps b : Runs keeps_window (modify (set_installed b) : M ()).
Proof. apply runs_modify. intros m. apply keeps_window_same; by destruct m. Qed.
Lemma check_id_keeps i : Runs keeps_window (modify (set_check_id i) : M ()).
Proof. apply runs_modify. intros m. apply keeps_window_same; by destruct m. Qed.
#[local] Hint Resolve installed_keeps check_id_keeps : runs.
Lemma check_dialog_keeps n : Runs keeps_window (check_dialog others n).
Proof. induction n; cbn [check_dialog]; runs. Qed.
#[local] Hint Resolve check_dialog_keeps : runs.
Lemma OnAbilityConnectDone_keeps c r : Runs keeps_window (OnAbilityConnectDone c r : M (outcome ())).
Proof. unfold OnAbilityConnectDone, PrepareJson. runs. Qed.
Lemma window_step_keeps m m' : window_step m m' → keeps_window m m'.
Proof.
  destruct 1 as [| |b| | | |c r m' E|c| |p t].
  7: { generalize (OnAbilityConnectDone_keeps c r m). by rewrite E. }
  all: try match goal with |- keeps_window ?x (?f ?x).2 => cut (Runs keeps_window f); [by intros Hf; apply Hf|] end.
  all: unfold Init, run_check, check_and_subscribe, drop_check, OnReceiveEvent, CheckDialogInstallStatus, destroy, OnAbilityDisconnectDone.
  all: auto using PopUpFunctionSwitchWindow_keeps, BootCompletedEventCallback_keeps, DismissFunctionSwitchWindow_keeps.
  all: try by runs.
  apply keeps_window_same; by destruct m.
Qed.
Lemma window_ok_new p t : window_ok (new_window p t).
Proof. done. Qed.
Lemma window_ok_reachable m : reachable m → window_ok m.
Proof.
  intros (p & t & Hr). generalize (window_ok_new p t). change (keeps_window (new_window p t) m).
  revert Hr. generalize (new_window p t). intros m0. induction 1 as [|m0 m1 m2 Hs _ IH]; [done|].
  intros Hm0. by apply IH, (window_step_keeps _ _ Hs).
Qed.

(** ** Connections that are there *)

Lemma request_run r cmd data m : ∃ a p, send r cmd data m = (a, set_window_platform p (set_window_trace (Requested r cmd :: window_trace_ m) m)).
Proof. unfold send, note. rewrite bind_run, ask_run. destruct m. by do 2 eexists. Qed.
(** An open connection answers the arrival of its dialog with one request or none. *)
Lemma open_connection c r m k : conns_ m !! c = Some k → isAbortDialog_ k = false →
  (OnAbilityConnectDone c (Some r) m).1 = Done ().
Proof.
  intros Hk Ha. unfold OnAbilityConnectDone. rewrite bind_run. cbn [get fst snd]. rewrite Hk, Ha. run; done.
Qed.
Lemma aborted_connection c r m k : conns_ m !! c = Some k → isAbortDialog_ k = true →
  (OnAbilityConnectDone c (Some r) m).1 = (match remoteObject_ k with Some _ => Done () | None => Fault end) ∧
  window_trace_ (OnAbilityConnectDone c (Some r) m).2 =
    (match remoteObject_ k with Some old => [Requested old CMD_CLOSE] | None => [] end) ++ window_trace_ m.
Proof.
  intros Hk Ha. unfold OnAbilityConnectDone. rewrite bind_run. cbn [get fst snd]. rewrite Hk, Ha.
  destruct (remoteObject_ k) as [old|]; [|done]. rewrite bind_run.
  destruct (request_run old CMD_CLOSE None m) as (a & p & ->). by destruct m.
Qed.
Lemma unknown_connection c r m : conns_ m !! c = None → OnAbilityConnectDone c (Some r) m = (Done (), m).
Proof. intros Hk. unfold OnAbilityConnectDone. rewrite bind_run. cbn [get fst snd]. by rewrite Hk. Qed.

(** C23: In every reachable state a dialog is connected only while the window is to be
    shown, and asked to show itself only then and by the current connection; the one
    exception are connections the window has forgotten after a failed attempt. *)
Lemma shows_only_while_wanted m c r : reachable m →
  connects_wanted (window_trace_ m) ∧
  (window_trace_ (OnAbilityConnectDone c (Some r) m).2 = Requested r CMD_SHOW :: window_trace_ m →
   Dropped c ∈ window_trace_ m ∨ wanted (window_trace_ m) = true ∧ usbFuncAbilityConn m = Some c).
Proof.
  intros (Hc & Hw & Hl & Ho)%window_ok_reachable. split; [done|]. intros Ht.
  destruct (decide (Dropped c ∈ window_trace_ m)) as [|Hd]; [by left|right].
  destruct (conns_ m !! c) as [k|] eqn:Hk; cycle 1.
  { rewrite unknown_connection in Ht by done. apply (f_equal length) in Ht. cbn in Ht. lia. }
  destruct (isAbortDialog_ k) eqn:Ha.
  - destruct (aborted_connection c r m k Hk Ha) as [_ E]. rewrite Ht in E.
    destruct (remoteObject_ k); [done|]. apply (f_equal length) in E. cbn in E. lia.
  - destruct (Ho c k Hk Ha Hd) as [Hs Hcur]. by rewrite <- Hw.
Qed.

(** Aborting a connection without a dialog sends nothing. *)
Lemma silent_close c k m : conns_ m !! c = Some k → remoteObject_ k = None →
  CloseDialog c m = ((), set_conns (alter (set_abort true) c (conns_ m)) m).
Proof.
  intros Hk Hr. unfold CloseDialog, alter_conn. rewrite bind_run. cbn [modify fst snd]. rewrite bind_run. cbn [get fst snd].
  replace (conns_ (set_conns _ m) !! c) with (Some (set_abort true k)); [cbn; by rewrite Hr|].
  destruct m. cbn in *. by rewrite list_lookup_alter, decide_True, Hk.
Qed.
Lemma unshown_connections c k m : usbFuncAbilityConn m = Some c → conns_ m !! c = Some k → remoteObject_ k = None →
  conns_ (UnShowFunctionSwitchWindow m).2 = alter (set_abort true) c (conns_ m).
Proof.
  intros Hc Hk Hr. unfold UnShowFunctionSwitchWindow. rewrite bind_run. cbn [gets fst snd]. rewrite Hc.
  rewrite bind_run, ask_run, ability_manager. cbn [fst snd negb]. rewrite bind_run, (silent_close c k) by (done || by destruct m).
  rewrite bind_run, ask_run. destruct m. by case_match.
Qed.
Lemma dismissed_connections c k m : windowAction_ m ≠ ACTION_FORBID → usbFuncAbilityConn m = Some c → conns_ m !! c = Some k →
  remoteObject_ k = None → conns_ (DismissFunctionSwitchWindow m).2 = alter (set_abort true) c (conns_ m).
Proof.
  intros Ha Hc Hk Hr. unfold DismissFunctionSwitchWindow. rewrite bind_run. cbn [gets fst snd]. rewrite bool_decide_eq_false_2 by done.
  rewrite !bind_run. rewrite (unshown_connections c k) by (done || by destruct m). by destruct m.
Qed.

(** The arrival of a dialog is a null pointer exactly for an aborted connection
    that has no dialog yet; dismissing the window before the dialog arrives makes
    every current connection one. *)
Lemma late_connection_faults m c r k : windowAction_ m ≠ ACTION_FORBID → usbFuncAbilityConn m = Some c → conns_ m !! c = Some k →
  ((OnAbilityConnectDone c (Some r) m).1 = Fault ↔ isAbortDialog_ k = true ∧ remoteObject_ k = None) ∧
  (remoteObject_ k = None → (OnAbilityConnectDone c (Some r) (DismissFunctionSwitchWindow m).2).1 = Fault).
Proof.
  intros Ha Hc Hk. split.
  - destruct (isAbortDialog_ k) eqn:Eb.
    + destruct (aborted_connection c r m k Hk Eb) as [-> _]. destruct (remoteObject_ k); [|done]. split; [done|]. by intros [_ ?].
    + rewrite (open_connection c r m k) by done. split; [done|]. by intros [? _].
  - intros Hr. assert (∃ k', conns_ (DismissFunctionSwitchWindow m).2 !! c = Some k' ∧ isAbortDialog_ k' = true ∧ remoteObject_ k' = None)
      as (k' & Hk' & Hb' & Hr'); cycle 1.
    { destruct (aborted_connection c r _ k' Hk' Hb') as [-> _]. by rewrite Hr'. }
    exists (set_abort true k). split; [|by destruct k].
    rewrite (dismissed_connections c k) by done. by rewrite list_lookup_alter, decide_True, Hk.
Qed.

(** ** Deferred requests *)

(** The connection the next attempt will use. *)
Definition next_conn m : nat := default (length (conns_ m)) (usbFuncAbilityConn m).
Lemma show_connects m : (∀ c (p : P), (ConnectAbility "com.ohos.systemui.dialog" c p).1 = ERR_OK) → isDialogInstalled_ m = true →
  window_trace_ (ShowFunctionSwitchWindow m : bool * W).2 = Connected (next_conn m) :: window_trace_ m.
Proof.
  intros Hok Hi. destruct m as [a cs cur i n t p tr]. cbn in Hi. subst i. unfold next_conn.
  unfold ShowFunctionSwitchWindow, ask, note, ReopenDialog, alter_conn.
  destruct cur as [c|]; run_unfold; cbn -[alter];
    specialize (ability_manager p); destruct (AbilityManagerClient_GetInstance p) as [x p1]; cbn in ability_manager; subst x; cbn -[alter];
    match goal with |- context [ConnectAbility ?a ?c ?p] => destruct (ConnectAbility a c p) as [x p2] end; cbn -[alter];
    case_match; cbn -[alter]; try done;
    match goal with |- context [ConnectAbility ?a ?c ?p] => specialize (Hok c p); destruct (ConnectAbility a c p) as [y p3] end;
    cbn in Hok; subst y; done.
Qed.
(** Steps after which the window is still wanted. *)
Definition wants (m m' : W) : Prop := wanted (window_trace_ m) = true → wanted (window_trace_ m') = true.
#[local] Instance wants_preorder : PreOrder wants.
Proof. split; [intros m Hm; exact Hm|]. intros m1 m2 m3 H12 H23 Hm. by apply H23, H12. Qed.
Lemma ask_wants {A} (f : state P A) : Runs wants (ask f).
Proof. apply runs_zoom. intros m. unfold wants. by destruct m. Qed.
Lemma timer_wants {A} (f : state T A) : Runs wants (on_check_timer f).
Proof. apply runs_zoom. intros m. unfold wants. by destruct m. Qed.
Lemma modify_wants f : (∀ m, window_trace_ (f m) = window_trace_ m) → Runs wants (modify f).
Proof. intros Hf. apply runs_modify. intros m. unfold wants. by rewrite Hf. Qed.
Lemma note_wants e : e ≠ Wanted false → Runs wants (note e : M ()).
Proof. intros He [a cs cur i n t p tr]. unfold wants. cbn. destruct e as [| | | |[]|]; done. Qed.
#[local] Hint Resolve ask_wants timer_wants : runs.
#[local] Hint Extern 1 (Runs wants (note _)) => apply note_wants; done : runs.
#[local] Hint Extern 1 (Runs wants (modify _)) => apply modify_wants; intros []; done : runs.
Lemma ShowFunctionSwitchWindow_wants : Runs wants (ShowFunctionSwitchWindow : M bool).
Proof. unfold ShowFunctionSwitchWindow, ReopenDialog, alter_conn. runs. Qed.
#[local] Hint Resolve ShowFunctionSwitchWindow_wants : runs.
(** Other threads do not dismiss the window, say. *)
Lemma step_wants m m' : Runs wants others → window_step m m' → wants m m' ∨ m' = (DismissFunctionSwitchWindow m).2.
Proof.
  intros Ho Hs. assert (∀ n, Runs wants (check_dialog others n)) as Hd by (intros n; induction n; cbn [check_dialog]; runs).
  assert (Runs wants (UnShowFunctionSwitchWindow : M bool)) as Hu by (unfold UnShowFunctionSwitchWindow, CloseDialog, send, alter_conn; runs).
  assert (∀ c r, Runs wants (OnAbilityConnectDone c r : M (outcome ()))) as Hc
    by (intros; unfold OnAbilityConnectDone, PrepareJson, GetSupportedFunctions, send, alter_conn; runs).
  destruct Hs as [| |b| | | |c r m' E|c| |p t].
  6: by right.
  6: { left. generalize (Hc c r m). by rewrite E. }
  all: left; try match goal with |- wants ?x (?f ?x).2 => cut (Runs wants f); [by intros Hf; apply Hf|] end.
  - unfold Init, check_and_subscribe, drop_check, CheckDialogInstallStatus. runs.
  - unfold run_check, check_and_subscribe, drop_check, CheckDialogInstallStatus. runs.
  - unfold OnReceiveEvent, CheckDialogInstallStatus. runs.
  - unfold BootCompletedEventCallback, ShowWindowIfConnected, ShouldRejectShowWindow. runs.
  - unfold PopUpFunctionSwitchWindow, GetSupportedFunctions, ShouldRejectShowWindow. runs.
  - unfold OnAbilityDisconnectDone, alter_conn. runs.
  - unfold destroy. runs.
  - unfold wants. by destruct m.
Qed.

(** What a request reads, one question after the other: the setting, the setting of
    this connection, the functions, and whether the system has booted. *)
Definition prompt (p : P) := GetBoolParameter "persist.usb.setting.gadget_conn_prompt" true p.
Definition temporary_prompt (p : P) := GetBoolParameter "usb.setting.gadget_conn_prompt" true (prompt p).2.
Definition functions (p : P) := GetStringParameter "const.usb_manager.supported_functions" DEFAULT_PARAM_VALUE (temporary_prompt p).2.
Definition boot (p : P) := GetBoolParameter BOOT_COMPLETED false (functions p).2.
(** Nothing refuses the request: neither the settings nor the device's functions
    nor a window that is forbidden. *)
Definition popup_allowed m : bool :=
  let p := window_platform_ m in
  (prompt p).1 && (temporary_prompt p).1 && negb (contains "none" (functions p).1) && negb (bool_decide (windowAction_ m = ACTION_FORBID)).
(** What a request does: it makes the window wanted; the dialog is connected at once
    when the system has booted and the dialog is installed, and the end of booting is
    watched when it has not.  A refused one only asks. *)
Definition popup_spec m m' : Prop :=
  let p := window_platform_ m in
  if popup_allowed m then
    windowAction_ m' = ACTION_SHOW ∧
    if (boot p).1 then
      window_trace_ m' = (if isDialogInstalled_ m then [Connected (next_conn m)] else []) ++ Wanted true :: window_trace_ m
    else m' = set_window_platform (WatchParameter BOOT_COMPLETED (boot p).2).2
                (set_window_trace (Watching :: Wanted true :: window_trace_ m) (set_action ACTION_SHOW m))
  else ∃ p', m' = set_window_platform p' m.

(** Nothing but questions to the system. *)
Definition asked m m' : Prop := ∃ p, m' = set_window_platform p m.
#[local] Instance asked_preorder : PreOrder asked.
Proof.
  split; [intros m; exists (window_platform_ m); by destruct m|].
  intros m1 m2 m3 [p ->] [q ->]. exists q. by destruct m1.
Qed.
Lemma ask_asked {A} (f : state P A) : Runs asked (ask f).
Proof. apply runs_zoom. intros m. by eexists. Qed.
#[local] Hint Resolve ask_asked : runs.
Lemma ShouldRejectShowWindow_asked : Runs asked (ShouldRejectShowWindow : M bool).
Proof. unfold ShouldRejectShowWindow. runs. Qed.

Lemma show_absent m : isDialogInstalled_ m = false → ShowFunctionSwitchWindow m = (false, m).
Proof. intros Hi. unfold ShowFunctionSwitchWindow. rewrite bind_run. cbn [gets fst snd]. by rewrite Hi. Qed.
Definition same_action m m' : Prop := windowAction_ m' = windowAction_ m.
#[local] Instance same_action_preorder : PreOrder same_action.
Proof. split; [done|]. intros m1 m2 m3. unfold same_action. congruence. Qed.
Lemma ShowFunctionSwitchWindow_action : Runs same_action (ShowFunctionSwitchWindow : M bool).
Proof.
  assert (∀ A (f : state P A), Runs same_action (ask f)) as Ha by (intros; apply runs_zoom; intros []; done).
  assert (∀ f, (∀ m, windowAction_ (f m) = windowAction_ m) → Runs same_action (modify f)) as Hf by (intros f Hf; by apply runs_modify).
  assert (∀ e, Runs same_action (note e : M ())) as Hn by (intros e []; done).
  unfold ShowFunctionSwitchWindow, ReopenDialog, alter_conn.
  repeat first [apply Ha | apply Hn | apply Hf; intros []; reflexivity | progress runs].
Qed.
Lemma GetSupportedFunctions_run m : let r := GetStringParameter "const.usb_manager.supported_functions" DEFAULT_PARAM_VALUE (window_platform_ m) in
  (GetSupportedFunctions m).2 = set_window_platform r.2 m ∧ ((GetSupportedFunctions m).1 <? 0) = contains "none" r.1.
Proof.
  unfold GetSupportedFunctions. rewrite bind_run, ask_run. cbn [fst snd]. cbv zeta.
  destruct (contains "none" _); [done|]. split; [done|]. by repeat case_match.
Qed.
(** A request is carried out, remembered or refused. *)
Lemma PopUpFunctionSwitchWindow_spec m : (∀ c (p : P), (ConnectAbility "com.ohos.systemui.dialog" c p).1 = ERR_OK) →
  popup_spec m (PopUpFunctionSwitchWindow m).2.
Proof.
  intros Hok. unfold popup_spec, popup_allowed, PopUpFunctionSwitchWindow. cbv zeta.
  rewrite bind_run, ask_run. fold (prompt (window_platform_ m)). cbn [fst snd].
  destruct (prompt (window_platform_ m)).1 eqn:E1; cbn [negb andb]; [|by eexists].
  rewrite bind_run, ask_run. replace (window_platform_ (set_window_platform _ m)) with (prompt (window_platform_ m)).2 by (by destruct m).
  fold (temporary_prompt (window_platform_ m)). cbn [fst snd].
  replace (set_window_platform (temporary_prompt (window_platform_ m)).2 _) with (set_window_platform (temporary_prompt (window_platform_ m)).2 m) by (by destruct m).
  destruct (temporary_prompt (window_platform_ m)).1 eqn:E2; cbn [negb andb].
  2: { rewrite bind_run, ask_run. eexists. by destruct m. }
  rewrite bind_run. pose proof (GetSupportedFunctions_run (set_window_platform (temporary_prompt (window_platform_ m)).2 m)) as [-> ->].
  replace (window_platform_ (set_window_platform _ m)) with (temporary_prompt (window_platform_ m)).2 by (by destruct m).
  fold (functions (window_platform_ m)).
  replace (set_window_platform (functions (window_platform_ m)).2 _) with (set_window_platform (functions (window_platform_ m)).2 m) by (by destruct m).
  destruct (contains "none" (functions (window_platform_ m)).1) eqn:E3; cbn [negb andb]; [by eexists|].
  rewrite bind_run. cbn [gets fst snd]. replace (windowAction_ (set_window_platform _ m)) with (windowAction_ m) by (by destruct m).
  case_bool_decide as E4; cbn [negb]; [by eexists|]. rewrite !bind_run, ask_run. cbn [modify note fst snd].
  match goal with |- context [GetBoolParameter BOOT_COMPLETED false ?x] => replace x with (functions (window_platform_ m)).2 by (by destruct m) end.
  fold (boot (window_platform_ m)). destruct (boot (window_platform_ m)).1 eqn:E5; cbn [negb fst snd].
  - rewrite bind_run. match goal with |- context [ShouldRejectShowWindow ?x] => destruct (ShouldRejectShowWindow_asked x) as [p ->] end.
    split; [rewrite ShowFunctionSwitchWindow_action; by destruct m|].
    destruct (isDialogInstalled_ m) eqn:Ei; [rewrite show_connects; [|done|]|rewrite show_absent]; by destruct m.
  - rewrite bind_run, ask_run. cbn [fst snd]. rewrite bind_run. cbn [note modify mret state_ret fst snd].
    match goal with |- context [WatchParameter BOOT_COMPLETED ?x] => replace x with (boot (window_platform_ m)).2 by (by destruct m) end.
    split; by destruct m.
Qed.

End Window.

(** * The window that asks for a function: a concrete system

    A phone that boots while a host is connected, and a user who is faster than the
    dialog; the theorems above at work. *)

#[local] Existing Instance demo_err_base.
#[local] Existing Instance number_json.

(** ** The system *)

Record Phone := { booted : bool; bundle : bool; lists : string }.
Definition phone_platform (connects : bool) (provisioned : string) : SwitchPlatform Phone := {|
  GetBoolParameter name def p := (if bool_decide (name = BOOT_COMPLETED) then booted p else def, p);
  SetParameter _ _ p := (true, p);
  GetStringParameter _ _ p := (lists p, p);
  WatchParameter _ p := (0, p);
  GetBundleInfo p := (bundle p, p);
  AbilityManagerClient_GetInstance p := (true, p);
  ConnectAbility a _ p := (if connects && bool_decide (a = "com.ohos.systemui.dialog") then ERR_OK else 1, p);
  DisconnectAbility _ p := (UEC_OK, p);
  SendRequest _ _ _ p := ((ERR_OK, Some ERR_OK), p);
  SubscribeCommonEvent p := (true, p);
  OobeQuery _ _ _ p := ((true, provisioned), p);
  QueryActiveOsAccountIds p := ([100], p);
  timer_Setup p := (UEC_OK, p);
|}.
#[local] Instance the_phone : SwitchPlatform Phone := phone_platform true "1".
Abbreviation Window := (UsbFunctionSwitchWindow Phone (gmap Z CheckTask)).
Definition nothing : state Window () := mret ().
Definition fresh (b : bool) : Window := new_window {| booted := b; bundle := true; lists := "charge,mtp,ptp" |} ∅.
Definition dialog : RemoteObject := 7.
Definition boots : Phone := {| booted := true; bundle := true; lists := "charge,mtp,ptp" |}.
Definition set_phone (p : Phone) (m : Window) : Window := set_window_platform p (set_check_timer (checkDialogTimer_ m) m).

(** The dialog is found, a host is connected before the boot is complete. *)
Abbreviation found := (run_check nothing (fresh false)).2.
Abbreviation early := (PopUpFunctionSwitchWindow found).2.
Abbreviation after_boot := (BootCompletedEventCallback (set_phone boots early)).2.
Example a_popup_waits_for_the_boot :
  (PopUpFunctionSwitchWindow found).1 = false ∧ window_trace_ after_boot = [Connected 0; Watching; Wanted true].
Proof. vm_compute. done. Qed.
Abbreviation arrived := (OnAbilityConnectDone 0 (Some dialog) after_boot).
Example the_dialog_shows : arrived.1 = Done () ∧ window_trace_ arrived.2 = Requested dialog CMD_SHOW :: window_trace_ after_boot.
Proof. vm_compute. done. Qed.
(** An orderly dismissal closes the dialog. *)
Example the_dialog_closes : (DismissFunctionSwitchWindow arrived.2).1 = true ∧
  window_trace_ (DismissFunctionSwitchWindow arrived.2).2 = [Disconnected 0; Requested dialog CMD_CLOSE; Wanted false] ++ window_trace_ arrived.2.
Proof. vm_compute. done. Qed.
(** A cable pulled before the dialog is there. *)
Example a_quick_dismissal_crashes :
  (DismissFunctionSwitchWindow after_boot).1 = true ∧
  (OnAbilityConnectDone 0 (Some dialog) (DismissFunctionSwitchWindow after_boot).2).1 = Fault.
Proof. vm_compute. done. Qed.
(** A second request that cannot connect forgets the dialog that is shown: hiding
    then answers yes and closes nothing. *)
Abbreviation forgotten := (PopUpFunctionSwitchWindow (SwitchPlatform0 := phone_platform false "1") arrived.2).2.
Example a_failed_reconnect_forgets_the_dialog :
  window_trace_ forgotten = [Dropped 0; Wanted true] ++ window_trace_ arrived.2 ∧
  (DismissFunctionSwitchWindow forgotten).1 = true ∧
  window_trace_ (DismissFunctionSwitchWindow forgotten).2 = Wanted false :: window_trace_ forgotten.
Proof. vm_compute. done. Qed.
(** The first start of the system is not over, and the window is shown all the same. *)
Example the_first_start_is_ignored : let m := set_phone boots found in
  (ShouldRejectShowWindow (SwitchPlatform0 := phone_platform true "0") m).1 = true ∧
  (PopUpFunctionSwitchWindow (SwitchPlatform0 := phone_platform true "0") m).1 = true.
Proof. vm_compute. done. Qed.

(** ** Witnesses *)

Lemma phone_manager (p : Phone) : (AbilityManagerClient_GetInstance p).1 = true.
Proof. done. Qed.
Lemma nothing_keeps : Runs keeps_window nothing.
Proof. intros m Hm. exact Hm. Qed.
Lemma found_reachable : reachable nothing found.
Proof. eexists _, _. eapply rtc_l; [apply w_check|]. apply rtc_refl. Qed.
Lemma after_boot_reachable : reachable nothing after_boot.
Proof.
  eexists _, _. eapply rtc_l; [apply w_check|]. eapply rtc_l; [apply w_popup|].
  eapply rtc_l; [apply (w_platform _ _ boots)|]. eapply rtc_l; [apply w_boot|]. apply rtc_refl.
Qed.

Lemma shows_only_while_wanted_witness :
  reachable nothing after_boot ∧ connects_wanted (window_trace_ after_boot) ∧
  (Dropped 0 ∈ window_trace_ after_boot ∨ wanted (window_trace_ after_boot) = true ∧ usbFuncAbilityConn after_boot = Some 0%nat).
Proof.
  split; [exact after_boot_reachable|].
  destruct (shows_only_while_wanted nothing phone_manager nothing_keeps after_boot 0 dialog after_boot_reachable) as [Hc Hs].
  split; [exact Hc|]. apply Hs. vm_compute. reflexivity.
Defined.
Lemma late_connection_faults_witness :
  (OnAbilityConnectDone 0 (Some dialog) (DismissFunctionSwitchWindow after_boot).2).1 = Fault.
Proof.
  destruct (late_connection_faults phone_manager after_boot 0 dialog new_conn) as [_ Hf];
    [by vm_compute | by vm_compute | by vm_compute | ].
  apply Hf. reflexivity.
Defined.
Lemma phone_connects c (p : Phone) : (ConnectAbility "com.ohos.systemui.dialog" c p).1 = ERR_OK.
Proof. done. Qed.
Lemma nothing_wants : Runs wants nothing.
Proof. intros m Hm. exact Hm. Qed.
Abbreviation awake := (set_phone boots early).
Lemma awake_reachable : reachable nothing awake.
Proof.
  eexists _, _. eapply rtc_l; [apply w_check|]. eapply rtc_l; [apply w_popup|].
  eapply rtc_l; [apply (w_platform _ _ boots)|]. apply rtc_refl.
Qed.
