(* ===== verification/UsbConnectionNotifier.v ===== *)
(** * Notifications about the connection
    (services/native/src/usb_connection_notifier.cpp)

    One notification says what the port is used for, another that debugging is on.
    [GetSetUid] and [GetBundleMgr], which nothing calls, are left out. *)
From S2P Require Import Prelude UsbErrors.

Definition DEFAULT_PARAM_VALUE : string := "charge,mtp,ptp".
Definition NOTIFICATION_NAME : string := "usb_service".
Definition NOTIFICATION_NAME_ONE : string := "usb_service1".
Definition g_uid : Z := 1018.
Definition BUNDLE_NAME : string := "com.usb.right".
Definition SETTING_BUNDLE_NAME : string := "com.ohos.settings".
Definition SETTING_BUNDLE_NAME_ABILITY : string := "com.ohos.settings.MainAbility".
Definition SETTING_BUNDLE_NAME_URL : string := "developer_options_settings".
Definition BUNDLE_NAME_KEY : string := "EntryAbility".
Definition HAP_PATH : string := "system/app/com.usb.right/usb_right_dialog.hap".
Definition ICON_NAME : string := "icon".
Definition NOTIFICATION_ID_ZERO : Z := 0.
Definition NOTIFICATION_ID_ONE : Z := 1.
Definition NOTIFICATION_STATUS_CLOSE_SOUND : Z := Z.shiftl 1 0.
Definition NOTIFICATION_STATUS_CLOSE_LOCKSCREEN : Z := Z.shiftl 1 1.
Definition NOTIFICATION_STATUS_CLOSE_BANNER : Z := Z.shiftl 1 2.
Definition NOTIFICATION_STATUS_CLOSE_LIGHT_SCREEN : Z := Z.shiftl 1 3.
Definition NOTIFICATION_STATUS_CLOSE_VIBRATION : Z := Z.shiftl 1 4.
Definition SUPPORTED_FUNC_NONE : Z := -1.
Definition SUPPORTED_FUNC_MTP : Z := 8.
Definition SUPPORTED_FUNC_PTP : Z := 16.
Definition SUPPORTED_FUNC_REVERSECHARGE : Z := Z.shiftl 1 30.

Definition USB_FUNC_CHARGE : string := "USB_func_charge_notifier".
Definition USB_FUNC_MTP : string := "USB_func_mtp_notifier".
Definition USB_FUNC_PTP : string := "USB_func_ptp_notifier".
Definition USB_FUNC_MORE : string := "USB_func_more_notifier".
Definition USB_HDC_NOTIFIER_TITLE : string := "USB_hdc_notifier_title".
Definition USB_HDC_NOTIFIER_CONTENT : string := "USB_hdc_notifier_content".
Definition USB_FUNC_REVERSE_CHARGE : string := "USB_func_charge_connected_notifier".

(** What a tap on a notification starts. *)
Record WantAgent := { element : string * string; want_uri : string; usbSupportedFunctions : option Z }.
(** [NotificationRequest], the fields the code sets. *)
Record NotificationRequest (I : Type) := {
  notificationId : Z;
  content : option (string * string);              (* title and text *)
  creatorUid : Z; unremovable : bool; removeAllowed : bool; tapDismissed : bool;
  groupName : string; littleIcon : option I; wantAgent : option WantAgent;
  slot_service : bool;                             (* the slot is [SERVICE_REMINDER] *)
  controlFlags : Z;
}.
Arguments notificationId {I}. Arguments content {I}. Arguments creatorUid {I}. Arguments unremovable {I}.
Arguments removeAllowed {I}. Arguments tapDismissed {I}. Arguments groupName {I}. Arguments littleIcon {I}.
Arguments wantAgent {I}. Arguments slot_service {I}. Arguments controlFlags {I}.

(** The settings, the resources of the dialog's package, the notification service.
    A handle of the resource manager is there ([true]) or not. *)
Class NotifierPlatform (I P : Type) := {
  default_request : NotificationRequest I;                   (* [NotificationRequest()] *)
  GetStringParameter : string → string → state P string;
  CreateResourceManager : state P bool;
  CreateResConfig : state P bool;
  UpdateResConfig : state P ();                              (* to the language in use *)
  AddResource : string → state P bool;
  GetStringByName : string → state P string;
  (* the picture of the name, the outer [None] when no image source is made *)
  LoadImage : string → state P (option I);
  PublishNotification : NotificationRequest I → state P Z;
  service_CancelNotification : Z → state P Z;
}.

Inductive NotifierEffect (I : Type) :=
  | Published (r : NotificationRequest I) (result : Z)
  | Canceled (id : Z) (result : Z).
Arguments Published {I}. Arguments Canceled {I}.

Record UsbConnectionNotifier (I P : Type) := {
  notifierMap : gmap string string;
  usbSupportedFunctions_ : Z;
  request_ : NotificationRequest I;
  requestHdc_ : NotificationRequest I;
  icon_ : option I;
  lastFunc_ : string;
  notifier_platform_ : P;
  notifier_trace_ : list (NotifierEffect I);        (* newest first *)
}.
Arguments notifierMap {I P}. Arguments usbSupportedFunctions_ {I P}. Arguments request_ {I P}. Arguments requestHdc_ {I P}.
Arguments icon_ {I P}. Arguments lastFunc_ {I P}. Arguments notifier_platform_ {I P}. Arguments notifier_trace_ {I P}.
Arguments Build_UsbConnectionNotifier {I P}.

Section Fields.
Context {I P : Type}.
Implicit Types m : UsbConnectionNotifier I P.
Definition set_names x m := let 'Build_UsbConnectionNotifier _ b c d e f g h := m in Build_UsbConnectionNotifier x b c d e f g h.
Definition set_supported x m := let 'Build_UsbConnectionNotifier a _ c d e f g h := m in Build_UsbConnectionNotifier a x c d e f g h.
Definition set_request x m := let 'Build_UsbConnectionNotifier a b _ d e f g h := m in Build_UsbConnectionNotifier a b x d e f g h.
Definition set_request_hdc x m := let 'Build_UsbConnectionNotifier a b c _ e f g h := m in Build_UsbConnectionNotifier a b c x e f g h.
Definition set_icon x m := let 'Build_UsbConnectionNotifier a b c d _ f g h := m in Build_UsbConnectionNotifier a b c d x f g h.
Definition set_last x m := let 'Build_UsbConnectionNotifier a b c d e _ g h := m in Build_UsbConnectionNotifier a b c d e x g h.
Definition set_notifier_platform (x : P) m := let 'Build_UsbConnectionNotifier a b c d e f _ h := m in Build_UsbConnectionNotifier a b c d e f x h.
Definition set_notifier_trace x m := let 'Build_UsbConnectionNotifier a b c d e f g _ := m in Build_UsbConnectionNotifier a b c d e f g x.
End Fields.

Definition contains (sub s : string) : bool := match String.index 0 sub s with Some _ => true | None => false end.

Section Notifier.
Context {I P : Type} `{!NotifierPlatform I P}.
Abbreviation N := (UsbConnectionNotifier I P).
Abbreviation M := (state N).

Definition on_notifier_platform {A} (f : state P A) : M A := zoom notifier_platform_ set_notifier_platform f.
Definition initial_names : gmap string string :=
  list_to_map (map (λ k, (k, "")) [USB_FUNC_CHARGE; USB_FUNC_MTP; USB_FUNC_PTP; USB_FUNC_MORE;
    USB_HDC_NOTIFIER_TITLE; USB_HDC_NOTIFIER_CONTENT; USB_FUNC_REVERSE_CHARGE]).
(** [notifierMap[func]]: a name that is not there is entered with the empty text. *)
Definition name_of (func : string) : M string :=
  modify (λ m, match notifierMap m !! func with Some _ => m | None => set_names (<[func := ""]> (notifierMap m)) m end);;
  m ← get; mret (default "" (notifierMap m !! func)).

Definition GetHapIcon : M () :=
  resourceManager ← on_notifier_platform CreateResourceManager; if negb resourceManager then mret () else
  ok ← on_notifier_platform (AddResource HAP_PATH); if negb ok then mret () else
  image ← on_notifier_platform (LoadImage ICON_NAME);
  match image with None => mret () | Some pixelMap => modify (set_icon (Some pixelMap)) end.
(** [UsbConnectionNotifier()]. *)
Definition construct_notifier (p : P) : N :=
  (GetHapIcon (Build_UsbConnectionNotifier initial_names 0 default_request default_request None "" p [])).2.
Definition GetHapString : M () :=
  resourceManager ← on_notifier_platform CreateResourceManager; if negb resourceManager then mret () else
  resConfig ← on_notifier_platform CreateResConfig; if negb resConfig then mret () else
  on_notifier_platform UpdateResConfig;;
  ok ← on_notifier_platform (AddResource HAP_PATH); if negb ok then mret () else
  m ← get;
  for_each (λ it : string * string,
    outValue ← on_notifier_platform (GetStringByName it.1);
    modify (λ m, set_names (<[it.1 := outValue]> (notifierMap m)) m)) (map_to_list (notifierMap m)).

Definition GetSupportedFunctions : M Z :=
  supportedFuncStr ← on_notifier_platform (GetStringParameter "const.usb_manager.supported_functions" DEFAULT_PARAM_VALUE);
  if contains "none" supportedFuncStr then mret SUPPORTED_FUNC_NONE else
  mret (Z.lor (Z.lor (if contains "mtp" supportedFuncStr then SUPPORTED_FUNC_MTP else 0)
                     (if contains "ptp" supportedFuncStr then SUPPORTED_FUNC_PTP else 0))
              (if contains "reverseCharge" supportedFuncStr then SUPPORTED_FUNC_REVERSECHARGE else 0)).
Definition SetWantAgent (supported : Z) : WantAgent :=
  {| element := (BUNDLE_NAME, BUNDLE_NAME_KEY); want_uri := ""; usbSupportedFunctions := Some supported |}.
Definition SetWantAgentHdc : WantAgent :=
  {| element := (SETTING_BUNDLE_NAME, SETTING_BUNDLE_NAME_ABILITY); want_uri := SETTING_BUNDLE_NAME_URL; usbSupportedFunctions := None |}.

Definition publish (r : NotificationRequest I) : M () :=
  result ← on_notifier_platform (PublishNotification r); modify (λ m, set_notifier_trace (Published r result :: notifier_trace_ m) m).
Definition cancel (id : Z) : M () :=
  result ← on_notifier_platform (service_CancelNotification id); modify (λ m, set_notifier_trace (Canceled id result :: notifier_trace_ m) m).

Definition SendNotification (func : string) : M () :=
  supported ← GetSupportedFunctions;
  modify (set_supported supported);;
  if supported <=? 0 then mret () else
  modify (set_last func);;
  GetHapString;;
  title ← name_of func;
  text ← name_of USB_FUNC_MORE;
  m ← get;
  let old := request_ m in
  let r := {| notificationId := NOTIFICATION_ID_ZERO; content := Some (title, text); creatorUid := g_uid; unremovable := true;
    removeAllowed := true; tapDismissed := false; groupName := NOTIFICATION_NAME;
    littleIcon := match icon_ m with Some i => Some i | None => littleIcon old end;
    wantAgent := Some (SetWantAgent (usbSupportedFunctions_ m)); slot_service := slot_service old; controlFlags := controlFlags old |} in
  modify (set_request r);;
  publish r.
(** Reverse charging is what a host shows, all else is a device's. *)
Definition CancelNotification (isHost : bool) : M () :=
  m ← get;
  if (isHost && negb (bool_decide (lastFunc_ m = USB_FUNC_REVERSE_CHARGE))) ||
     (negb isHost && bool_decide (lastFunc_ m = USB_FUNC_REVERSE_CHARGE)) then mret () else
  modify (set_last "");;
  cancel (notificationId (request_ m)).

Definition SendHdcNotification : M () :=
  GetHapString;;
  title ← name_of USB_HDC_NOTIFIER_TITLE;
  text ← name_of USB_HDC_NOTIFIER_CONTENT;
  m ← get;
  let old := requestHdc_ m in
  let r := {| notificationId := NOTIFICATION_ID_ONE; content := Some (title, text); creatorUid := g_uid; unremovable := true;
    removeAllowed := true; tapDismissed := false; groupName := NOTIFICATION_NAME_ONE;
    littleIcon := match icon_ m with Some i => Some i | None => littleIcon old end;
    wantAgent := Some SetWantAgentHdc; slot_service := true;
    controlFlags := Z.lor (Z.lor (Z.lor (Z.lor NOTIFICATION_STATUS_CLOSE_SOUND NOTIFICATION_STATUS_CLOSE_LOCKSCREEN)
      NOTIFICATION_STATUS_CLOSE_BANNER) NOTIFICATION_STATUS_CLOSE_LIGHT_SCREEN) NOTIFICATION_STATUS_CLOSE_VIBRATION |} in
  modify (set_request_hdc r);;
  publish r.
Definition CancelHdcNotification : M () :=
  m ← get; cancel (notificationId (requestHdc_ m)).
End Notifier.
