(* ===== verification/UsbNotifierTheorems.v ===== *)
(** * Notifications about the connection: their properties *)
From S2P Require Import Prelude UsbErrors Platform UsbDeviceManager UsbDeviceProofs UsbDeviceTheorems UsbConnectionNotifier.

(** The device manager's kinds of notification are names of the notifier. *)
Definition type_name (t : UsbNotifyType) : string :=
  match t with
  | UsbDeviceManager.USB_FUNC_MTP => UsbConnectionNotifier.USB_FUNC_MTP
  | UsbDeviceManager.USB_FUNC_PTP => UsbConnectionNotifier.USB_FUNC_PTP
  | UsbDeviceManager.USB_FUNC_CHARGE => UsbConnectionNotifier.USB_FUNC_CHARGE
  | UsbDeviceManager.USB_FUNC_REVERSE_CHARGE => UsbConnectionNotifier.USB_FUNC_REVERSE_CHARGE
  end.

(** What the notification service shows: the last request of each number. *)
Fixpoint shown {I} (trace : list (NotifierEffect I)) : gmap Z (NotificationRequest I) :=
  match trace with
  | [] => ∅
  | Published r result :: trace => if result =? 0 then <[notificationId r := r]> (shown trace) else shown trace
  | Canceled id result :: trace => if result =? 0 then delete id (shown trace) else shown trace
  end.

Section Notifier.
Context {I P : Type} `{!NotifierPlatform I P}.
Abbreviation N := (UsbConnectionNotifier I P).
Abbreviation M := (state N).
Implicit Types n : N.
Definition showing n := shown (notifier_trace_ n).

(** The service accepts requests, whose numbers start at zero. *)
Context (default_id : notificationId (default_request (P := P) : NotificationRequest I) = NOTIFICATION_ID_ZERO).
Context (publish_ok : ∀ (r : NotificationRequest I) (p : P), (PublishNotification r p).1 = 0).
Context (cancel_ok : ∀ i (p : P), (service_CancelNotification (I := I) i p).1 = 0).

(** ** What each operation does *)

(** Texts and settings aside, nothing changes. *)
Definition same_notes n n' : Prop :=
  request_ n' = request_ n ∧ requestHdc_ n' = requestHdc_ n ∧ lastFunc_ n' = lastFunc_ n ∧ notifier_trace_ n' = notifier_trace_ n.
#[local] Instance same_notes_preorder : PreOrder same_notes.
Proof. split; [by intros n|]. unfold same_notes. intros n1 n2 n3 (-> & -> & -> & ->) (-> & -> & -> & ->). done. Qed.
Lemma platform_same {A} (f : state P A) : Runs same_notes (on_notifier_platform f : M A).
Proof. apply runs_zoom. intros n. by destruct n. Qed.
Lemma names_same f : Runs same_notes (modify (λ n, set_names (f n) n) : M ()).
Proof. apply runs_modify. intros n. by destruct n. Qed.
Lemma supported_same z : Runs same_notes (modify (set_supported z) : M ()).
Proof. apply runs_modify. intros n. by destruct n. Qed.
#[local] Hint Resolve platform_same names_same supported_same : runs.
Lemma GetHapString_same : Runs same_notes (GetHapString : M ()).
Proof. unfold GetHapString. runs. Qed.
Lemma GetSupportedFunctions_same : Runs same_notes (GetSupportedFunctions : M Z).
Proof. unfold GetSupportedFunctions. runs. Qed.
Lemma name_same func : Runs same_notes (name_of func : M string).
Proof. unfold name_of. runs. apply runs_modify. intros n. destruct (notifierMap n !! func); by destruct n. Qed.
Lemma published_run r n : ∃ p, publish r n = ((), set_notifier_platform p (set_notifier_trace (Published r 0 :: notifier_trace_ n) n)).
Proof.
  unfold publish, on_notifier_platform, modify. run_unfold. specialize (publish_ok r (notifier_platform_ n)).
  destruct (PublishNotification r (notifier_platform_ n)) as [z p]. cbn in publish_ok. subst z. exists p. by destruct n.
Qed.
Lemma cancel_run i n : ∃ p, cancel i n = ((), set_notifier_platform p (set_notifier_trace (Canceled i 0 :: notifier_trace_ n) n)).
Proof.
  unfold cancel, on_notifier_platform, modify. run_unfold. specialize (cancel_ok i (notifier_platform_ n)).
  destruct (service_CancelNotification i (notifier_platform_ n)) as [z p]. cbn in cancel_ok. subst z. exists p. by destruct n.
Qed.

Lemma send_spec func n : let n' := (SendNotification func n).2 in
  same_notes n n' ∨ (lastFunc_ n' = func ∧ requestHdc_ n' = requestHdc_ n ∧ notificationId (request_ n') = NOTIFICATION_ID_ZERO ∧
    notifier_trace_ n' = Published (request_ n') 0 :: notifier_trace_ n).
Proof.
  cbv zeta. unfold SendNotification. rewrite bind_run. pose proof (GetSupportedFunctions_same n) as H1. revert H1.
  generalize (GetSupportedFunctions n). intros [z n1] H1. cbn [fst snd] in *. rewrite bind_run. case_match.
  { left. etransitivity; [exact H1|]. apply supported_same. }
  pose proof (supported_same z n1) as H2. pose proof (transitivity H1 H2) as H3. cbn [fst snd modify] in *. clear H1 H2.
  revert H3. generalize (set_supported z n1). intros n2 (_ & Hq & _ & Ht). right.
  rewrite bind_run. cbn [modify snd]. rewrite bind_run. pose proof (GetHapString_same (set_last func n2)) as H4.
  rewrite bind_run. pose proof (transitivity H4 (name_same func _)) as H5. clear H4.
  rewrite bind_run. pose proof (transitivity H5 (name_same USB_FUNC_MORE _)) as H6. clear H5.
  revert H6. generalize (name_of USB_FUNC_MORE (name_of func (GetHapString (set_last func n2)).2).2). intros [text n3] (_ & Hq3 & Hl3 & Ht3).
  cbn [fst snd] in *. rewrite bind_run. cbn [get fst snd]. rewrite bind_run. cbn [modify fst snd].
  match goal with |- context [publish ?r ?x] => destruct (published_run r x) as [p ->] end. cbn [snd].
  destruct n3, n2. cbn in *. subst. done.
Qed.
Lemma hdc_spec n : let n' := (SendHdcNotification n).2 in
  lastFunc_ n' = lastFunc_ n ∧ request_ n' = request_ n ∧ notificationId (requestHdc_ n') = NOTIFICATION_ID_ONE ∧
  notifier_trace_ n' = Published (requestHdc_ n') 0 :: notifier_trace_ n.
Proof.
  cbv zeta. unfold SendHdcNotification. rewrite bind_run. pose proof (GetHapString_same n) as H4.
  rewrite bind_run. pose proof (transitivity H4 (name_same USB_HDC_NOTIFIER_TITLE _)) as H5. clear H4.
  rewrite bind_run. pose proof (transitivity H5 (name_same USB_HDC_NOTIFIER_CONTENT _)) as H6. clear H5.
  revert H6. generalize (name_of USB_HDC_NOTIFIER_CONTENT (name_of USB_HDC_NOTIFIER_TITLE (GetHapString n).2).2). intros [text n3] (Hr3 & _ & Hl3 & Ht3).
  cbn [fst snd] in *. rewrite bind_run. cbn [get fst snd]. rewrite bind_run. cbn [modify fst snd].
  match goal with |- context [publish ?r ?x] => destruct (published_run r x) as [p ->] end. cbn [snd].
  destruct n3, n. cbn in *. subst. done.
Qed.
(** Whether [CancelNotification isHost] is meant for what was sent last. *)
Definition concerns (isHost : bool) (last : string) : bool := Bool.eqb isHost (bool_decide (last = USB_FUNC_REVERSE_CHARGE)).
Lemma cancel_spec b n : let n' := (CancelNotification b n).2 in
  if concerns b (lastFunc_ n)
  then lastFunc_ n' = "" ∧ request_ n' = request_ n ∧ requestHdc_ n' = requestHdc_ n ∧
    notifier_trace_ n' = Canceled (notificationId (request_ n)) 0 :: notifier_trace_ n
  else n' = n.
Proof.
  cbv zeta. unfold CancelNotification, concerns. rewrite bind_run. cbn [get fst snd].
  destruct b, (bool_decide (lastFunc_ n = USB_FUNC_REVERSE_CHARGE)); cbn [andb orb negb Bool.eqb]; try done.
  all: rewrite bind_run; cbn [modify fst snd]; match goal with |- context [cancel ?i ?x] => destruct (cancel_run i x) as [p ->] end; by destruct n.
Qed.
Lemma cancel_hdc_spec n : let n' := (CancelHdcNotification n).2 in
  lastFunc_ n' = lastFunc_ n ∧ request_ n' = request_ n ∧ requestHdc_ n' = requestHdc_ n ∧
  notifier_trace_ n' = Canceled (notificationId (requestHdc_ n)) 0 :: notifier_trace_ n.
Proof.
  cbv zeta. unfold CancelHdcNotification. rewrite bind_run. cbn [get fst snd].
  destruct (cancel_run (notificationId (requestHdc_ n)) n) as [p ->]. by destruct n.
Qed.
Lemma GetHapIcon_same : Runs same_notes (GetHapIcon : M ()).
Proof. unfold GetHapIcon. runs. apply runs_modify. intros n. by destruct n. Qed.
Lemma construct_spec (p : P) : let n := construct_notifier p : N in
  request_ n = default_request (P := P) ∧ requestHdc_ n = default_request (P := P) ∧ lastFunc_ n = "" ∧ notifier_trace_ n = [].
Proof. apply GetHapIcon_same. Qed.

(** ** The notification of debugging *)

(** The notifier carries out what the device manager asks for. *)
Definition do_effect (e : DeviceEffect) : M () :=
  match e with
  | UsbDeviceManager.SendNotification t => SendNotification (type_name t)
  | UsbDeviceManager.CancelNotification isHost => CancelNotification isHost
  | UsbDeviceManager.SendHdcNotification => SendHdcNotification
  | UsbDeviceManager.CancelHdcNotification => CancelHdcNotification
  | _ => mret ()
  end.
(** The manager's trace has its newest effect first. *)
Fixpoint follow (trace : list DeviceEffect) (n : N) : N :=
  match trace with [] => n | e :: trace => (do_effect e (follow trace n)).2 end.

Definition numbers_ok n : Prop := notificationId (request_ n) = NOTIFICATION_ID_ZERO ∧
  (notificationId (requestHdc_ n) = NOTIFICATION_ID_ZERO ∨ notificationId (requestHdc_ n) = NOTIFICATION_ID_ONE).
Definition debugging n : bool := bool_decide (is_Some (showing n !! NOTIFICATION_ID_ONE)).
Lemma debugging_same n n' : same_notes n n' → numbers_ok n → numbers_ok n' ∧ debugging n' = debugging n ∧ requestHdc_ n' = requestHdc_ n.
Proof. unfold same_notes, numbers_ok, debugging, showing. by intros (-> & -> & _ & ->). Qed.
Lemma follow_debugging trace (p : P) : let n := follow trace (construct_notifier p) in
  numbers_ok n ∧ (hdc_shown trace = true → notificationId (requestHdc_ n) = NOTIFICATION_ID_ONE) ∧ debugging n = hdc_shown trace.
Proof.
  induction trace as [|e trace (Hn & Hi & Hd)].
  { destruct (construct_spec p) as (Hr & Hh & _ & Ht). cbn [follow]. unfold numbers_ok, debugging, showing. rewrite Hr, Hh, Ht. cbn.
    split; [by auto|]. split; [done|]. apply bool_decide_eq_false. rewrite lookup_empty. by intros []. }
  cbn [follow]. revert Hn Hi Hd. generalize (follow trace (construct_notifier p)). intros n Hn Hi Hd.
  destruct e as [| | | | | |t|b| | | | |]; cbn [do_effect hdc_shown]; try done.
  - destruct (send_spec (type_name t) n) as [Hs|(_ & Hh & Hr & Ht)].
    + destruct (debugging_same _ _ Hs Hn) as (? & -> & ->). done.
    + unfold numbers_ok, debugging, showing in *. rewrite Hh, Ht. cbn [shown Z.eqb]. rewrite Hr.
      split; [by destruct Hn|]. split; [done|]. by rewrite lookup_insert_ne.
  - pose proof (cancel_spec b n) as Hc. cbv zeta in Hc. destruct (concerns b (lastFunc_ n)); [|by rewrite Hc].
    destruct Hc as (_ & Hr & Hh & Ht). unfold numbers_ok, debugging, showing in *. rewrite Hr, Hh, Ht. cbn [shown Z.eqb].
    destruct Hn as [-> Hn]. split; [done|]. split; [done|]. by rewrite lookup_delete_ne.
  - destruct (hdc_spec n) as (_ & Hr & Hh & Ht). unfold numbers_ok, debugging, showing in *. rewrite Hr, Hh, Ht. cbn [shown Z.eqb]. rewrite Hh.
    split; [split; [by destruct Hn|by right]|]. split; [done|]. rewrite lookup_insert_eq. by apply bool_decide_eq_true.
  - destruct (cancel_hdc_spec n) as (_ & Hr & Hh & Ht). unfold numbers_ok, debugging, showing in *. rewrite Hr, Hh, Ht. cbn [shown Z.eqb].
    split; [done|]. split; [done|]. apply bool_decide_eq_false. destruct (hdc_shown trace).
    + rewrite Hi by done. rewrite lookup_delete_eq. by intros [].
    + destruct (decide (notificationId (requestHdc_ n) = NOTIFICATION_ID_ONE)) as [->|Hne]; [rewrite lookup_delete_eq; by intros []|].
      rewrite lookup_delete_ne by done. by apply bool_decide_eq_false in Hd.
Qed.

(** C2: The device manager and the notifier together: in every state the manager can
    reach, the notifier that has done what the manager asked for shows the
    notification of debugging exactly while the device is connected with the HDC
    function, whatever has been sent and taken back besides. *)
Theorem debugging_is_shown {D T} `{!UsbDeviceInterface D, !DelayTimer DeviceTask T, !DelayTimerLaws DeviceTask T, !ErrCodeBase, !CJson}
    window_ok (d : option D) (t : T) m (p : P) : pending t = ∅ → rtc (device_step window_ok) (initial d t) m →
  is_Some (showing (follow (trace_ m) (construct_notifier p)) !! NOTIFICATION_ID_ONE) ↔
  connected_ m && has_flag (to_u32 (currentFunctions_ m)) USB_FUNCTION_HDC = true.
Proof.
  intros Ht Hr. destruct (reachable_inv window_ok d t m Ht Hr) as (_ & Hf & Hs).
  destruct (follow_debugging (trace_ m) p) as (_ & _ & Hd). rewrite <- Hf, <- Hs, <- Hd.
  unfold debugging. by rewrite bool_decide_eq_true.
Qed.

(** ** The notification of the connection *)

(** What the managers do to the notifier: the debugging notification is only taken
    back while it is shown. *)
Inductive notifier_step n : N → Prop :=
  | n_send t : notifier_step n (SendNotification (type_name t) n).2
  | n_cancel isHost : notifier_step n (CancelNotification isHost n).2
  | n_hdc : notifier_step n (SendHdcNotification n).2
  | n_cancel_hdc : debugging n = true → notifier_step n (CancelHdcNotification n).2
  | n_platform p : notifier_step n (set_notifier_platform p n).

(** The notification is shown exactly while the name of the last one is kept. *)
Definition connection_ok n : Prop := numbers_ok n ∧ (debugging n = true → notificationId (requestHdc_ n) = NOTIFICATION_ID_ONE) ∧
  (showing n !! NOTIFICATION_ID_ZERO = None ↔ lastFunc_ n = "").
Lemma notifier_step_ok n n' : notifier_step n n' → connection_ok n → connection_ok n'.
Proof.
  unfold connection_ok. intros Hstep (Hn & Hi & Hs). destruct Hstep as [t|b| |Hd|p].
  - destruct (send_spec (type_name t) n) as [Hn'|(Hl & Hh & Hr & Ht)].
    + destruct (debugging_same _ _ Hn' Hn) as (? & -> & ->). unfold showing. destruct Hn' as (_ & _ & -> & ->). done.
    + unfold numbers_ok, debugging, showing in *. rewrite Hh, Ht, Hl. cbn [shown Z.eqb]. rewrite Hr.
      split; [by destruct Hn|]. split; [by rewrite lookup_insert_ne|]. rewrite lookup_insert_eq. by destruct t.
  - pose proof (cancel_spec b n) as Hc. cbv zeta in Hc. destruct (concerns b (lastFunc_ n)); [|by rewrite Hc].
    destruct Hc as (Hl & Hr & Hh & Ht). unfold numbers_ok, debugging, showing in *. rewrite Hr, Hh, Ht, Hl. cbn [shown Z.eqb].
    destruct Hn as [-> Hn]. split; [done|]. split; [by rewrite lookup_delete_ne|]. by rewrite lookup_delete_eq.
  - destruct (hdc_spec n) as (Hl & Hr & Hh & Ht). unfold numbers_ok, debugging, showing in *. rewrite Hr, Hh, Ht, Hl. cbn [shown Z.eqb]. rewrite Hh.
    split; [split; [by destruct Hn|by right]|]. split; [done|]. by rewrite lookup_insert_ne.
  - destruct (cancel_hdc_spec n) as (Hl & Hr & Hh & Ht). unfold numbers_ok, showing in *. rewrite Hr, Hh, Hl. unfold debugging, showing in *.
    rewrite Ht. cbn [shown Z.eqb]. rewrite Hi by done. split; [by destruct Hn; auto|]. split; [done|]. by rewrite lookup_delete_ne.
  - by destruct n.
Qed.

(** In every reachable state of the notifier the notification of the connection
    is shown exactly while the name of the last one is kept; taking it back removes
    it if it is of the asking role, reverse charging for a host and all else for a
    device, and otherwise changes nothing. *)
Theorem connection_notification (p : P) n isHost : rtc notifier_step (construct_notifier p) n →
  (showing n !! NOTIFICATION_ID_ZERO = None ↔ lastFunc_ n = "") ∧
  (if concerns isHost (lastFunc_ n)
   then showing (CancelNotification isHost n).2 = delete NOTIFICATION_ID_ZERO (showing n)
   else (CancelNotification isHost n).2 = n).
Proof.
  intros Hr. assert (connection_ok n) as ((Hn & _) & _ & Hs).
  { assert (connection_ok (construct_notifier p)) as H0.
    { destruct (follow_debugging [] p) as (Hn & Hi & Hd). cbn [follow] in *. split; [done|].
      destruct (construct_spec p) as (_ & _ & Hl & Ht). split; [by rewrite Hd|]. unfold showing. by rewrite Ht, Hl. }
    revert H0. induction Hr as [|x y z Hxy _ IH]; [done|]. intros Hx. by apply IH, (notifier_step_ok x y). }
  split; [done|]. pose proof (cancel_spec isHost n) as Hc. cbv zeta in Hc. destruct (concerns isHost (lastFunc_ n)); [|done].
  destruct Hc as (_ & _ & _ & Ht). unfold showing. rewrite Ht. cbn [shown Z.eqb]. by rewrite Hn.
Qed.
End Notifier.

(** * Notifications about the connection: a concrete system *)

(** A phone: its language, and what its settings allow. *)
Record Notices := { language : string; allowed : string }.
Definition blank : NotificationRequest nat := {| notificationId := 0; content := None; creatorUid := 0; unremovable := false; removeAllowed := true;
  tapDismissed := true; groupName := ""; littleIcon := None; wantAgent := None; slot_service := false; controlFlags := 0 |}.
#[local] Instance notices_platform : NotifierPlatform nat Notices := {|
  default_request := blank;
  UsbConnectionNotifier.GetStringParameter _ _ p := (allowed p, p);
  CreateResourceManager p := (true, p);
  CreateResConfig p := (true, p);
  UpdateResConfig p := ((), p);
  AddResource _ p := (true, p);
  GetStringByName k p := (k +:+ "/" +:+ language p, p);
  LoadImage _ p := (Some 77%nat, p);
  PublishNotification _ p := (0, p);
  service_CancelNotification _ p := (0, p);
|}.
Abbreviation Notifier := (UsbConnectionNotifier nat Notices).
Abbreviation english := ({| language := "en"; allowed := "charge,mtp,ptp" |} : Notices).
Abbreviation started := (construct_notifier english : Notifier).
Definition titles (n : Notifier) : list (Z * option (string * string)) :=
  (λ r : Z * NotificationRequest nat, (r.1, content r.2)) <$> map_to_list (showing n).

Abbreviation files := ((SendNotification UsbConnectionNotifier.USB_FUNC_MTP started).2).
Example files_are_announced : titles files = [(0, Some ("USB_func_mtp_notifier/en", "USB_func_more_notifier/en"))] ∧
  (λ r, (littleIcon r, wantAgent r)) <$> showing files !! 0 = Some (Some 77%nat, Some (SetWantAgent 24)).
Proof. vm_compute. done. Qed.
(** The host's side does not take back what the device's side has sent. *)
Example roles_are_apart : (CancelNotification true files).2 = files ∧ titles (CancelNotification false files).2 = [].
Proof. vm_compute. done. Qed.
(** Without functions to choose from nothing is announced. *)
Example nothing_to_announce :
  titles (SendNotification UsbConnectionNotifier.USB_FUNC_CHARGE (construct_notifier {| language := "en"; allowed := "charge" |})).2 = [].
Proof. vm_compute. done. Qed.
(** Taking back the notification of debugging before it was ever sent takes back the
    other one, since a request's number is zero until it is set; the device manager
    does not do that. *)
Example an_early_cancellation : titles (CancelHdcNotification files).2 = [].
Proof. vm_compute. done. Qed.

(** ** Witnesses *)

Lemma blank_number : notificationId (default_request (P := Notices) : NotificationRequest nat) = NOTIFICATION_ID_ZERO.
Proof. done. Qed.
Lemma always_published (r : NotificationRequest nat) (p : Notices) : (PublishNotification r p).1 = 0.
Proof. done. Qed.
Lemma always_canceled i (p : Notices) : (service_CancelNotification (I := nat) i p).1 = 0.
Proof. done. Qed.

Lemma debugging_is_shown_witness :
  is_Some (showing (follow (trace_ plugged) started) !! NOTIFICATION_ID_ONE).
Proof.
  assert (pending (∅ : gmap Z DeviceTask) = ∅) as Hp by reflexivity.
  apply (debugging_is_shown blank_number always_published always_canceled true (Some FUNCTION_HDC) ∅ plugged english Hp plugged_reachable).
  vm_compute. reflexivity.
Defined.
Lemma files_reachable : rtc notifier_step started files.
Proof. eapply rtc_l; [apply (n_send _ UsbDeviceManager.USB_FUNC_MTP)|apply rtc_refl]. Qed.
Lemma connection_notification_witness :
  lastFunc_ files ≠ "" ∧ showing (CancelNotification false files).2 = delete NOTIFICATION_ID_ZERO (showing files).
Proof.
  split; [by vm_compute|].
  destruct (connection_notification blank_number always_published always_canceled english files false files_reachable) as [_ Hc].
  assert (concerns false (lastFunc_ files) = true) as Ec by (vm_compute; reflexivity). rewrite Ec in Hc. exact Hc.
Defined.
