(* ===== verification/UsbTransferCallbacks.v ===== *)
(** * Completed transfers
    (services/native/src/usb_transfer_callback_impl.cpp, usb_bulkcallback_impl.cpp,
    utils/native/src/struct_parcel.cpp, and on the other side
    interfaces/innerkits/native/src/usbd_callback_stub.cpp,
    usbd_callback_server.cpp, usbd_bulk_callback.cpp)

    When the driver has completed a transfer it calls an object of the service,
    which writes what happened into a parcel and sends it to the process that
    asked for the transfer; a stub there reads the parcel and calls back. *)
From S2P Require Import Prelude UsbErrors Platform UsbHostTransfer.

Definition MAX_NUM_OF_ISO_PACKAGE : Z := 15000.
Definition CMD_USBD_TRANSFER_CALLBACK_READ : Z := 0.
Definition CMD_USBD_TRANSFER_CALLBACK_WRITE : Z := 1.
Definition CMD_USBD_BULK_CALLBACK_READ : Z := 0.
Definition CMD_USBD_BULK_CALLBACK_WRITE : Z := 1.
(** What the stubs give to [IPCObjectStub]. *)
Definition TRANSFER_DESCRIPTOR : string := "UsbdStubCallback.V1_2".
Definition BULK_DESCRIPTOR : string := "UsbdBulkCallback.V1_0".

(** [UsbIsoPacketDescriptor] of the driver's interface. *)
Record UsbIsoPacketDescriptor := { isoLength : Z; isoActualLength : Z; isoStatus : Z }.
#[global] Instance UsbIsoPacketDescriptor_eq_dec : EqDecision UsbIsoPacketDescriptor.
Proof. solve_decision. Defined.

(** ** The parcel *)

Section Parcels.
Context {P : Type} `{!Parcel P, !MessageParcel P}.

(** [UsbPassIsoParcel] and [UsbIsoParcel], the same code for two versions. *)
Definition UsbPassIsoParcel_Marshalling (i : UsbIsoPacketDescriptor) : state P bool :=
  ok ← WriteInt32 (isoLength i); if negb ok then mret false else
  ok ← WriteInt32 (isoActualLength i); if negb ok then mret false else
  ok ← WriteInt32 (isoStatus i); if negb ok then mret false else mret true.
Definition UsbIsoParcel_Unmarshalling : state P (option UsbIsoPacketDescriptor) :=
  l ← ReadInt32; match l with None => mret None | Some l =>
  a ← ReadInt32; match a with None => mret None | Some a =>
  s ← ReadInt32; match s with None => mret None | Some s =>
  mret (Some {| isoLength := l; isoActualLength := a; isoStatus := s |}) end end end.

Fixpoint write_packets (l : list UsbIsoPacketDescriptor) : state P bool :=
  match l with
  | [] => mret true
  | i :: l => ok ← WriteParcelable (UsbPassIsoParcel_Marshalling i); if negb ok then mret false else write_packets l
  end.
(** The size is a [uint32_t], and so is the index of the loop. *)
Definition UsbPassIsoVecParcel_Marshalling (isoInfoVec : list UsbIsoPacketDescriptor) : state P bool :=
  let vecSize := to_u32 (Z.of_nat (length isoInfoVec)) in
  ok ← WriteUint32 vecSize; if negb ok then mret false else
  write_packets (take (Z.to_nat vecSize) isoInfoVec).
Fixpoint read_packets (n : nat) : state P (option (list UsbIsoPacketDescriptor)) :=
  match n with
  | O => mret (Some [])
  | S n =>
      i ← ReadParcelable UsbIsoParcel_Unmarshalling;
      match i with None => mret None | Some i =>
      l ← read_packets n; mret (cons i <$> l) end
  end.
Definition UsbIsoVecParcel_Unmarshalling : state P (option (list UsbIsoPacketDescriptor)) :=
  vecSize ← ReadUint32;
  match vecSize with
  | None => mret None
  | Some vecSize => if MAX_NUM_OF_ISO_PACKAGE <? vecSize then mret None else read_packets (Z.to_nat vecSize)
  end.

(** What the service writes for a completed transfer, and for a bulk transfer. *)
Definition write_completion (token : string) (status actLength : Z) (isoInfo : list UsbIsoPacketDescriptor) (userData : Z) : state P bool :=
  ok ← WriteInterfaceToken token; if negb ok then mret false else
  ok ← WriteParcelable (UsbPassIsoVecParcel_Marshalling isoInfo); if negb ok then mret false else
  ok ← WriteInt32 status; if negb ok then mret false else
  ok ← WriteInt32 actLength; if negb ok then mret false else
  ok ← WriteUint64 userData; if negb ok then mret false else mret true.
Definition write_bulk_completion (token : string) (status actLength : Z) : state P bool :=
  ok ← WriteInterfaceToken token; if negb ok then mret false else
  ok ← WriteInt32 status; if negb ok then mret false else
  ok ← WriteInt32 actLength; if negb ok then mret false else mret true.
End Parcels.

(** ** The service *)

(** The descriptor an object has, and requests to it. *)
Class CallbackTransport (P W : Type) := {
  GetInterfaceDescriptor : RemoteObject → string;
  remote_SendRequest : RemoteObject → Z → P → state W Z;
}.

Section Service.
Context {P W : Type} `{!Parcel P, !MessageParcel P, !CallbackTransport P W, !ErrCodeBase}.

Definition send_completion (write : string → state P bool) (cmd : Z) (remote_ : option RemoteObject) : state W Z :=
  match remote_ with
  | None => mret (uec UEC_SERVICE_INVALID_VALUE)
  | Some r =>
      let '(ok, data) := write (GetInterfaceDescriptor r) new_parcel in
      if negb ok then mret (uec UEC_SERVICE_INVALID_VALUE) else
      ret ← remote_SendRequest r cmd data;
      if negb (ret =? UEC_OK) then mret ret else mret UEC_OK
  end.
(** [UsbTransferCallbackImpl]; [remote_] is the object given to its constructor. *)
Definition OnTransferWriteCallback (remote_ : option RemoteObject) (status actLength : Z) (isoInfo : list UsbIsoPacketDescriptor)
  (userData : Z) : state W Z :=
  send_completion (λ token, write_completion token status actLength isoInfo userData) CMD_USBD_TRANSFER_CALLBACK_WRITE remote_.
Definition OnTransferReadCallback (remote_ : option RemoteObject) (status actLength : Z) (isoInfo : list UsbIsoPacketDescriptor)
  (userData : Z) : state W Z :=
  send_completion (λ token, write_completion token status actLength isoInfo userData) CMD_USBD_TRANSFER_CALLBACK_READ remote_.
(** [UsbBulkCallbackImpl]. *)
Definition OnBulkWriteCallback (remote_ : option RemoteObject) (status actLength : Z) : state W Z :=
  send_completion (λ token, write_bulk_completion token status actLength) CMD_USBD_BULK_CALLBACK_WRITE remote_.
Definition OnBulkReadCallback (remote_ : option RemoteObject) (status actLength : Z) : state W Z :=
  send_completion (λ token, write_bulk_completion token status actLength) CMD_USBD_BULK_CALLBACK_READ remote_.
End Service.

(** ** The client *)

(** A call of the client's function. *)
Record Completion := { info_status : Z; info_actualLength : Z; info_iso : list UsbIsoPacketDescriptor; info_userData : Z }.
(** [UsbdCallBackServer]: the last packets it has seen, and the calls of
    [callback_], newest first. *)
Record UsbdCallBackServer := { isoInfo_ : list UsbIsoPacketDescriptor; callbacks_ : list Completion }.
Definition new_server : UsbdCallBackServer := {| isoInfo_ := []; callbacks_ := [] |}.
(** The body of both directions. *)
Definition Server_OnTransferCallback (status actualLength : Z) (isoInfo : list UsbIsoPacketDescriptor) (userData : Z) :
  state UsbdCallBackServer Z := λ s,
  let iso := if negb (bool_decide (isoInfo = [])) then isoInfo else isoInfo_ s in
  (UEC_OK, {| isoInfo_ := iso;
    callbacks_ := {| info_status := status; info_actualLength := actualLength; info_iso := iso; info_userData := userData |} :: callbacks_ s |}).
Definition Server_OnTransferWriteCallback := Server_OnTransferCallback.
Definition Server_OnTransferReadCallback := Server_OnTransferCallback.

Section Client.
Context {P : Type} `{!Parcel P, !MessageParcel P, !ErrCodeBase}.
(** [IPCObjectStub::OnRemoteRequest] of the other codes. *)
Context (other_code : Z → Z).

(** The body of [TransferWriteCallback] and [TransferReadCallback], with the virtual
    function it ends in. *)
Definition TransferCallback (on : Z → Z → list UsbIsoPacketDescriptor → Z → state UsbdCallBackServer Z) (data : P) : state UsbdCallBackServer Z :=
  let '(iso, data) := ReadParcelable UsbIsoVecParcel_Unmarshalling data in
  match iso with None => mret (uec UEC_SERVICE_WRITE_PARCEL_ERROR) | Some iso =>
  let '(status, data) := ReadInt32 data in
  match status with None => mret (uec UEC_SERVICE_WRITE_PARCEL_ERROR) | Some status =>
  let '(actLength, data) := ReadInt32 data in
  match actLength with None => mret (uec UEC_SERVICE_WRITE_PARCEL_ERROR) | Some actLength =>
  let '(userData, data) := ReadUint64 data in
  match userData with None => mret (uec UEC_SERVICE_WRITE_PARCEL_ERROR) | Some userData =>
  on status actLength iso userData end end end end.
Definition TransferWriteCallback : P → state UsbdCallBackServer Z := TransferCallback Server_OnTransferWriteCallback.
Definition TransferReadCallback : P → state UsbdCallBackServer Z := TransferCallback Server_OnTransferReadCallback.
(** [UsbdStubCallBack::OnRemoteRequest]: what the callback answers is dropped. *)
Definition Transfer_OnRemoteRequest (code : Z) (data : P) : state UsbdCallBackServer Z :=
  if (code =? CMD_USBD_TRANSFER_CALLBACK_WRITE) || (code =? CMD_USBD_TRANSFER_CALLBACK_READ) then
    let '(remoteDescriptor, data) := ReadInterfaceToken data in
    if negb (bool_decide (TRANSFER_DESCRIPTOR = remoteDescriptor)) then mret (uec UEC_INTERFACE_PERMISSION_DENIED) else
    _ ← (if code =? CMD_USBD_TRANSFER_CALLBACK_WRITE then TransferWriteCallback else TransferReadCallback) data; mret UEC_OK
  else mret (other_code code).

(** [UsbdBulkCallBack]: whether it was a write, the status and the length. *)
Definition Bulk_OnRemoteRequest (code : Z) (data : P) : state (list (bool * Z * Z)) Z :=
  if (code =? CMD_USBD_BULK_CALLBACK_WRITE) || (code =? CMD_USBD_BULK_CALLBACK_READ) then
    let '(remoteDescriptor, data) := ReadInterfaceToken data in
    if negb (bool_decide (BULK_DESCRIPTOR = remoteDescriptor)) then mret (uec UEC_INTERFACE_PERMISSION_DENIED) else
    let '(status, data) := ReadInt32 data in
    match status with None => mret (uec UEC_SERVICE_WRITE_PARCEL_ERROR) | Some status =>
    let '(actLength, data) := ReadInt32 data in
    match actLength with None => mret (uec UEC_SERVICE_WRITE_PARCEL_ERROR) | Some actLength =>
    modify (cons (code =? CMD_USBD_BULK_CALLBACK_WRITE, status, actLength));; mret UEC_OK end end
  else mret (other_code code).
End Client.

(** What the system's IPC does: a request to an object that lives reaches its stub
    in the client's process, whose answer comes back. *)
Class TransferDelivery (P : Type) `{!Parcel P, !MessageParcel P, !ErrCodeBase}
  `{!CallbackTransport P (gmap RemoteObject UsbdCallBackServer)} (other_code : Z → Z) := {
  law_descriptor r : GetInterfaceDescriptor r = TRANSFER_DESCRIPTOR;
  law_deliver r s code data w : w !! r = Some s →
    remote_SendRequest r code data w =
      let '(ret, s') := Transfer_OnRemoteRequest other_code code data s in (ret, <[r := s']> w);
}.
