(* ===== verification/UsbTransferTheorems.v ===== *)
(** * Completed transfers: what reaches the process that asked *)
From S2P Require Import Prelude UsbErrors Platform UsbHostTransfer UsbTransferCallbacks.

Definition packet_ok (i : UsbIsoPacketDescriptor) : Prop := in_i32 (isoLength i) ∧ in_i32 (isoActualLength i) ∧ in_i32 (isoStatus i).
Definition packet_items (i : UsbIsoPacketDescriptor) : list parcel_item :=
  [PObject; PWord (to_u32 (isoLength i)); PWord (to_u32 (isoActualLength i)); PWord (to_u32 (isoStatus i))].

Section Parcels.
Context {P : Type} `{!Parcel P, !MessageParcel P, !ParcelLaws P, !MessageParcelLaws P, !RoomyParcel P}.
Implicit Types p : P.

Lemma write_int32 z : writes (WriteInt32 z) [PWord (to_u32 z)].
Proof. intros p. split; [apply room_int32|]. apply law_write_int32, room_int32. Qed.
Lemma write_uint32 z : writes (WriteUint32 z) [PWord (to_u32 z)].
Proof. intros p. split; [apply room_uint32|]. apply law_write_uint32, room_uint32. Qed.
Lemma write_token s : writes (WriteInterfaceToken s) [PToken s].
Proof. intros p. apply law_write_token. Qed.
Lemma write_uint64 z : writes (WriteUint64 z) [PUint64 (to_u64 z)].
Proof. intros p. apply law_write_uint64. Qed.
Lemma write_object m items : writes m items → writes (WriteParcelable m) (PObject :: items).
Proof.
  intros Hm p. destruct (law_write_parcelable m p) as (p' & Hp' & ->). destruct (Hm p') as [Hw Hc].
  split; [done|]. by rewrite Hc, Hp', <- app_assoc.
Qed.
Lemma writes_true : writes (mret true : state P bool) [].
Proof. intros p. split; [done|]. cbn. by rewrite app_nil_r. Qed.
(** One write after the other, each with the early return of the code. *)
Lemma writes_then (f g : state P bool) i j : writes f i → writes g j →
  writes (ok ← f; if negb ok then mret false else g) (i ++ j).
Proof.
  intros Hf Hg p. rewrite bind_run. destruct (Hf p) as [-> Hc]. cbn [negb]. destruct (Hg (f p).2) as [Hw Hc2].
  split; [done|]. by rewrite Hc2, Hc, app_assoc.
Qed.
Lemma read_object {A} (m : state P (option A)) a items : reads m a items → reads (ReadParcelable m) a (PObject :: items).
Proof. intros Hm p l Hp. destruct (law_read_parcelable m (items ++ l) p Hp) as (p' & Hp' & ->). by apply Hm. Qed.
Lemma read_int32 z : in_i32 z → reads ReadInt32 (Some z) [PWord (to_u32 z)].
Proof. intros Hz p l Hp. destruct (law_read_int32 _ _ _ Hp) as [-> ->]. by rewrite to_i32_to_u32. Qed.
Lemma read_uint64 z : in_u64 z → reads ReadUint64 (Some z) [PUint64 (to_u64 z)].
Proof. intros Hz p l Hp. destruct (law_read_uint64 _ _ _ Hp) as [-> ->]. by rewrite to_u64_id. Qed.

Lemma packet_writes i : writes (WriteParcelable (UsbPassIsoParcel_Marshalling i)) (packet_items i).
Proof.
  apply write_object. unfold UsbPassIsoParcel_Marshalling.
  apply (writes_then _ _ [_] [_; _]), (writes_then _ _ [_] [_]), (writes_then _ _ [_] []), writes_true; apply write_int32.
Qed.
Lemma packet_reads i : packet_ok i → reads (ReadParcelable UsbIsoParcel_Unmarshalling) (Some i) (packet_items i).
Proof.
  intros (Hl & Ha & Hs). apply read_object. unfold UsbIsoParcel_Unmarshalling.
  eapply (reads_cons _ _ (Some _)); [by apply read_int32|]. eapply (reads_cons _ _ (Some _)); [by apply read_int32|].
  eapply (reads_cons _ _ (Some _)); [by apply read_int32|]. destruct i. apply reads_ret.
Qed.
Lemma packets_writes l : writes (write_packets l) (concat (map packet_items l)).
Proof.
  induction l as [|i l IH]; cbn [write_packets map concat]; [apply writes_true|].
  apply writes_then; [apply packet_writes|done].
Qed.
Lemma packets_reads l : Forall packet_ok l → reads (read_packets (length l)) (Some l) (concat (map packet_items l)).
Proof.
  induction 1 as [|i l Hi _ IH]; cbn [read_packets length map concat]; [apply reads_ret|].
  eapply reads_bind; [by apply packet_reads|]. rewrite <- (app_nil_r (concat _)).
  eapply reads_bind; [exact IH|]. apply reads_ret.
Qed.

(** ** The vector of packets *)

Definition packets_items (l : list UsbIsoPacketDescriptor) : list parcel_item :=
  PObject :: PWord (to_u32 (Z.of_nat (length l))) :: concat (map packet_items l).
Lemma vector_writes l : Z.of_nat (length l) < 2 ^ 32 →
  writes (WriteParcelable (UsbPassIsoVecParcel_Marshalling l)) (packets_items l).
Proof.
  intros Hl. apply write_object. unfold UsbPassIsoVecParcel_Marshalling.
  rewrite (to_u32_id (Z.of_nat _)) by (unfold in_u32; lia). rewrite Nat2Z.id, take_ge by done.
  apply (writes_then _ _ [_]); [|apply packets_writes].
  rewrite <- (to_u32_id (Z.of_nat (length l))) at 2 by (unfold in_u32; lia). apply write_uint32.
Qed.
Lemma vector_reads l : Z.of_nat (length l) <= MAX_NUM_OF_ISO_PACKAGE → Forall packet_ok l →
  reads (ReadParcelable UsbIsoVecParcel_Unmarshalling) (Some l) (packets_items l).
Proof.
  intros Hl Hp. unfold MAX_NUM_OF_ISO_PACKAGE in Hl. apply read_object. unfold UsbIsoVecParcel_Unmarshalling.
  eapply (reads_cons _ _ (Some (Z.of_nat (length l)))).
  - intros p r Hr. destruct (law_read_uint32 _ _ _ Hr) as [-> ->]. rewrite to_u32_id by (unfold in_u32; lia). done.
  - destruct (Z.ltb_spec MAX_NUM_OF_ISO_PACKAGE (Z.of_nat (length l))); [unfold MAX_NUM_OF_ISO_PACKAGE in *; lia|].
    rewrite Nat2Z.id. by apply packets_reads.
Qed.
(** Too many packets are refused before any of them is read. *)
Lemma vector_refused l p r : MAX_NUM_OF_ISO_PACKAGE < Z.of_nat (length l) < 2 ^ 32 → contents p = packets_items l ++ r →
  (ReadParcelable UsbIsoVecParcel_Unmarshalling p).1 = None.
Proof.
  intros Hl Hp. destruct (law_read_parcelable UsbIsoVecParcel_Unmarshalling _ p Hp) as (p' & Hp' & ->).
  unfold UsbIsoVecParcel_Unmarshalling. rewrite bind_run. destruct (law_read_uint32 _ _ _ Hp') as [-> _].
  rewrite to_u32_id by (unfold in_u32; unfold MAX_NUM_OF_ISO_PACKAGE in *; lia).
  by destruct (Z.ltb_spec MAX_NUM_OF_ISO_PACKAGE (Z.of_nat (length l))); [|lia].
Qed.
End Parcels.

(** ** Delivery *)

Lemma one_body {P} `{!Parcel P, !MessageParcel P, !ErrCodeBase} (b : bool) :
  (if b then TransferWriteCallback (P := P) else TransferReadCallback) = TransferCallback Server_OnTransferCallback.
Proof. by destruct b. Qed.

Section Delivery.
Context {P : Type} `{!Parcel P, !MessageParcel P, !ParcelLaws P, !MessageParcelLaws P, !RoomyParcel P, !ErrCodeBase}.
Abbreviation Servers := (gmap RemoteObject UsbdCallBackServer).
Context `{!CallbackTransport P Servers} (other_code : Z → Z) `{!TransferDelivery P other_code}.

Definition completion_items (status actLength : Z) (isoInfo : list UsbIsoPacketDescriptor) (userData : Z) : list parcel_item :=
  PToken TRANSFER_DESCRIPTOR :: packets_items isoInfo ++ [PWord (to_u32 status); PWord (to_u32 actLength); PUint64 (to_u64 userData)].
Lemma completion_writes status actLength isoInfo userData : Z.of_nat (length isoInfo) < 2 ^ 32 →
  writes (write_completion TRANSFER_DESCRIPTOR status actLength isoInfo userData : state P bool)
    (completion_items status actLength isoInfo userData).
Proof.
  intros Hl. unfold write_completion, completion_items.
  apply (writes_then _ _ [_]); [apply write_token|]. apply writes_then; [by apply vector_writes|].
  apply (writes_then _ _ [_] [_; _]), (writes_then _ _ [_] [_]), (writes_then _ _ [_] []), writes_true;
    [apply write_int32|apply write_int32|apply write_uint64].
Qed.
Lemma TransferCallback_full (data : P) status actLength isoInfo userData s :
  in_i32 status → in_i32 actLength → in_u64 userData → Forall packet_ok isoInfo →
  Z.of_nat (length isoInfo) <= MAX_NUM_OF_ISO_PACKAGE →
  contents data = packets_items isoInfo ++ [PWord (to_u32 status); PWord (to_u32 actLength); PUint64 (to_u64 userData)] →
  TransferCallback Server_OnTransferCallback data s = Server_OnTransferCallback status actLength isoInfo userData s.
Proof.
  intros Hs Ha Hu Hi Hl Hd. unfold TransferCallback.
  destruct (vector_reads isoInfo Hl Hi data _ Hd) as [H1 H2].
  destruct (ReadParcelable _ data) as [o d1]. cbn [fst snd] in *. subst o.
  destruct (read_int32 status Hs d1 _ H2) as [H3 H4]. destruct (ReadInt32 d1) as [o d2]. cbn [fst snd] in *. subst o.
  destruct (read_int32 actLength Ha d2 _ H4) as [H5 H6]. destruct (ReadInt32 d2) as [o d3]. cbn [fst snd] in *. subst o.
  destruct (read_uint64 userData Hu d3 [] H6) as [H7 _]. destruct (ReadUint64 d3) as [o d4]. cbn [fst snd] in *. by subst o.
Qed.
Lemma TransferCallback_too_long (data : P) isoInfo r s : MAX_NUM_OF_ISO_PACKAGE < Z.of_nat (length isoInfo) < 2 ^ 32 →
  contents data = packets_items isoInfo ++ r → TransferCallback Server_OnTransferCallback data s = (uec UEC_SERVICE_WRITE_PARCEL_ERROR, s).
Proof.
  intros Hl Hd. unfold TransferCallback. pose proof (vector_refused isoInfo data _ Hl Hd) as Hr.
  destruct (ReadParcelable _ data) as [o d1]. cbn [fst] in Hr. by subst o.
Qed.

(** The two directions. *)
Definition OnTransfer (write : bool) := if write then OnTransferWriteCallback (P := P) (W := Servers) else OnTransferReadCallback.
(** What the client's object becomes: its packets are only replaced by a completion that
    has some, and the callback gets those of the object. *)
Definition called (status actLength : Z) (isoInfo : list UsbIsoPacketDescriptor) (userData : Z) (s : UsbdCallBackServer) : UsbdCallBackServer :=
  let iso := match isoInfo with [] => isoInfo_ s | _ => isoInfo end in
  {| isoInfo_ := iso;
     callbacks_ := {| info_status := status; info_actualLength := actLength; info_iso := iso; info_userData := userData |} :: callbacks_ s |}.
Lemma Server_called status actLength isoInfo userData s :
  Server_OnTransferCallback status actLength isoInfo userData s = (UEC_OK, called status actLength isoInfo userData s).
Proof. unfold Server_OnTransferCallback, called. by destruct isoInfo. Qed.

(** C40: A completed transfer reaches the object of the process that asked for it,
    and no other: the callback runs once, with the status, the length, the packets
    and the data of the user as the driver reported them; but one that is reported without
    packets brings those of the last completion that had some.  With more packets than
    the client accepts nothing is called, and the service is told success. *)
Lemma completion_delivered write r w s status actLength isoInfo userData :
  w !! r = Some s → in_i32 status → in_i32 actLength → in_u64 userData → Forall packet_ok isoInfo →
  Z.of_nat (length isoInfo) < 2 ^ 32 →
  OnTransfer write (Some r) status actLength isoInfo userData w =
    (UEC_OK, if Z.of_nat (length isoInfo) <=? MAX_NUM_OF_ISO_PACKAGE
             then <[r := called status actLength isoInfo userData s]> w else w).
Proof.
  intros Hr Hs Ha Hu Hi Hl.
  assert (OnTransfer write (Some r) status actLength isoInfo userData w =
    send_completion (W := Servers) (λ token, write_completion token status actLength isoInfo userData)
      (if write then CMD_USBD_TRANSFER_CALLBACK_WRITE else CMD_USBD_TRANSFER_CALLBACK_READ) (Some r) w) as -> by by destruct write.
  unfold send_completion. rewrite law_descriptor.
  destruct (completion_writes status actLength isoInfo userData Hl (new_parcel (P := P))) as [Hw Hc].
  destruct (write_completion _ _ _ _ _ new_parcel) as [ok data]. cbn [fst snd] in *. subst ok. cbn [negb].
  rewrite law_new_parcel in Hc. cbn [app] in Hc. rewrite bind_run, (law_deliver r s) by done.
  unfold Transfer_OnRemoteRequest. replace (_ || _) with true by by destruct write.
  destruct (law_read_token _ _ _ Hc) as [Ht Hd]. destruct (ReadInterfaceToken data) as [t d]. cbn [fst snd] in *. subst t.
  rewrite bool_decide_eq_true_2 by done. cbn [negb]. rewrite one_body, bind_run.
  destruct (Z.leb_spec (Z.of_nat (length isoInfo)) MAX_NUM_OF_ISO_PACKAGE) as [Hm|Hm].
  - rewrite (TransferCallback_full d status actLength isoInfo userData) by done. by rewrite Server_called.
  - rewrite (TransferCallback_too_long d isoInfo _ s) by done. cbn. by rewrite insert_id.
Qed.
End Delivery.

(** ** The stubs against any sender *)

Section Stubs.
Context {P : Type} `{!Parcel P, !MessageParcel P, !ErrCodeBase} (other_code : Z → Z).

Lemma TransferCallback_cases (data : P) s :
  (∃ e, TransferCallback Server_OnTransferCallback data s = (e, s)) ∨ ∃ a b iso u, TransferCallback Server_OnTransferCallback data s = Server_OnTransferCallback a b iso u s.
Proof.
  unfold TransferCallback. destruct (ReadParcelable _ data) as [[iso|] d1]; [|left; by eexists].
  destruct (ReadInt32 d1) as [[a|] d2]; [|left; by eexists]. destruct (ReadInt32 d2) as [[b|] d3]; [|left; by eexists].
  destruct (ReadUint64 d3) as [[u|] d4]; [|left; by eexists]. right. by eexists _, _, _, _.
Qed.
(** A request with another descriptor or code runs no callback, and none runs it
    twice. *)
Lemma stub_calls_at_most_once code (data : P) s : let '(ret, s') := Transfer_OnRemoteRequest other_code code data s in
  s' = s ∨ ((ReadInterfaceToken data).1 = TRANSFER_DESCRIPTOR ∧ ret = UEC_OK ∧ ∃ c, callbacks_ s' = c :: callbacks_ s).
Proof.
  unfold Transfer_OnRemoteRequest. destruct (_ || _); [|by left].
  destruct (ReadInterfaceToken data) as [t d]. cbn [fst]. case_bool_decide as Ht; cbn [negb]; [|by left]. subst t.
  rewrite one_body, bind_run. destruct (TransferCallback_cases d s) as [[e ->]|(a & b & iso & u & ->)]; [by left|].
  rewrite Server_called. right. split; [done|]. split; [done|]. by eexists.
Qed.
End Stubs.

Section Bulk.
Context {P : Type} `{!Parcel P, !MessageParcel P, !ParcelLaws P, !MessageParcelLaws P, !RoomyParcel P, !ErrCodeBase}.
Context {W : Type} `{!CallbackTransport P W} (other_code : Z → Z).

Lemma bulk_writes status actLength : writes (write_bulk_completion BULK_DESCRIPTOR status actLength : state P bool)
  [PToken BULK_DESCRIPTOR; PWord (to_u32 status); PWord (to_u32 actLength)].
Proof.
  unfold write_bulk_completion. apply (writes_then _ _ [_] [_; _]); [apply write_token|].
  apply (writes_then _ _ [_] [_]), (writes_then _ _ [_] []), writes_true; apply write_int32.
Qed.
(** The parcel of a bulk transfer is the one call of the stub's virtual function. *)
Lemma bulk_parcel_read (write : bool) status actLength l : in_i32 status → in_i32 actLength →
  Bulk_OnRemoteRequest other_code (if write then CMD_USBD_BULK_CALLBACK_WRITE else CMD_USBD_BULK_CALLBACK_READ)
    (write_bulk_completion BULK_DESCRIPTOR status actLength (new_parcel (P := P))).2 l = (UEC_OK, (write, status, actLength) :: l).
Proof.
  intros Hs Ha. destruct (bulk_writes status actLength (new_parcel (P := P))) as [_ Hc]. rewrite law_new_parcel in Hc. cbn [app] in Hc.
  revert Hc. generalize (write_bulk_completion BULK_DESCRIPTOR status actLength (new_parcel (P := P))).2. intros data Hc.
  unfold Bulk_OnRemoteRequest. replace (_ || _) with true by by destruct write.
  destruct (law_read_token _ _ _ Hc) as [Ht Hd]. destruct (ReadInterfaceToken data) as [t d]. cbn [fst snd] in *. subst t.
  rewrite bool_decide_eq_true_2 by done. cbn [negb].
  destruct (read_int32 status Hs d _ Hd) as [H1 H2]. destruct (ReadInt32 d) as [o d1]. cbn [fst snd] in *. subst o.
  destruct (read_int32 actLength Ha d1 _ H2) as [H3 _]. destruct (ReadInt32 d1) as [o d2]. cbn [fst snd] in *. subst o.
  by destruct write.
Qed.
End Bulk.

(** ** A concrete system *)

#[local] Existing Instance demo_err_base.
Definition no_code (code : Z) : Z := 305.
#[local] Instance processes : CallbackTransport (list parcel_item) (gmap RemoteObject UsbdCallBackServer) := {|
  GetInterfaceDescriptor _ := TRANSFER_DESCRIPTOR;
  remote_SendRequest r code data w :=
    match w !! r with
    | None => (32, w)
    | Some s => let '(ret, s') := Transfer_OnRemoteRequest no_code code data s in (ret, <[r := s']> w)
    end;
|}.
#[local] Instance processes_deliver : TransferDelivery (list parcel_item) no_code.
Proof. split; [done|]. intros r s code data w E. cbn. by rewrite E. Qed.

Definition packet : UsbIsoPacketDescriptor := {| isoLength := 192; isoActualLength := 188; isoStatus := 0 |}.
Abbreviation waiting := ({[ 5 := new_server ]} : gmap RemoteObject UsbdCallBackServer).
Example a_transfer_arrives :
  OnTransferReadCallback (Some 5) 0 188 [packet] 42 waiting =
  (UEC_OK, {[ 5 := {| isoInfo_ := [packet]; callbacks_ := [{| info_status := 0; info_actualLength := 188; info_iso := [packet]; info_userData := 42 |}] |} ]}).
Proof. vm_compute. done. Qed.
(** Packets of an earlier completion are reported again with a completion that has none. *)
Example old_packets_return :
  (OnTransferReadCallback (Some 5) 0 0 [] 43 (OnTransferReadCallback (Some 5) 0 188 [packet] 42 waiting).2).2 !! 5 =
  Some {| isoInfo_ := [packet]; callbacks_ := [
    {| info_status := 0; info_actualLength := 0; info_iso := [packet]; info_userData := 43 |};
    {| info_status := 0; info_actualLength := 188; info_iso := [packet]; info_userData := 42 |}] |}.
Proof. vm_compute. done. Qed.
Example a_client_that_is_gone : OnTransferReadCallback (Some 6) 0 188 [packet] 42 waiting = (32, waiting).
Proof. vm_compute. done. Qed.
Example nobody_to_tell : (OnTransferReadCallback None 0 188 [packet] 42 waiting) = (uec UEC_SERVICE_INVALID_VALUE, waiting).
Proof. vm_compute. done. Qed.

Lemma completion_delivered_witness :
  waiting !! 5 = Some new_server ∧
  OnTransfer true (Some 5) 0 188 [packet] 42 waiting = (UEC_OK, <[5 := called 0 188 [packet] 42 new_server]> waiting).
Proof.
  split; [reflexivity|].
  apply (completion_delivered no_code true 5 waiting new_server 0 188 [packet] 42);
    [reflexivity | split; lia | split; lia | split; lia | constructor; [split; [split; cbn; lia|split; split; cbn; lia]|constructor] | cbn; lia].
Defined.
