(* ===== verification/HeapLogic.v ===== *)
(** * A heap with an allocator that may fail, and a logic of what code owns

    C code that allocates is verified by what it owns: assertions hold of a part of
    the heap, the separating conjunction splits it, and nothing can be dropped, so
    that a proof shows that nothing is leaked and nothing freed twice. *)
From iris.proofmode Require Import proofmode.
From S2P Require Import Prelude.

(** ** Memory *)

Abbreviation ptr := positive.
(** [bad]: something that is not allocated has been read, written or freed. *)
Record Mem (A B : Type) := { heap : gmap ptr B; bad : bool; allocator : A }.
Arguments heap {A B} _.
Arguments bad {A B} _.
Arguments allocator {A B} _.
(** An allocator that knows what is in use gives something else, or nothing. *)
Class Malloc (A : Type) := { malloc : gset ptr → state A (option ptr) }.
Class MallocLaws (A : Type) `{!Malloc A} := {
  law_malloc used a p : (malloc used a).1 = Some p → p ∉ used;
}.

Section Memory.
Context {A B : Type} `{!Malloc A}.
Abbreviation M := (state (Mem A B)).
Definition fault : M () := modify (λ m, {| heap := heap m; bad := true; allocator := allocator m |}).
Definition calloc (b : B) : M (option ptr) := λ m,
  let '(o, a) := malloc (dom (heap m)) (allocator m) in
  (o, {| heap := match o with Some p => <[p := b]> (heap m) | None => heap m end; bad := bad m; allocator := a |}).
Definition load (p : ptr) : M (option B) := λ m,
  match heap m !! p with Some b => (Some b, m) | None => (None, (fault m).2) end.
Definition store (p : ptr) (b : B) : M () := λ m,
  match heap m !! p with
  | Some _ => ((), {| heap := <[p := b]> (heap m); bad := bad m; allocator := allocator m |})
  | None => fault m
  end.
Definition free (p : ptr) : M () := λ m,
  match heap m !! p with
  | Some _ => ((), {| heap := delete p (heap m); bad := bad m; allocator := allocator m |})
  | None => fault m
  end.
(** [free(nullptr)] does nothing. *)
Definition free_opt (q : option ptr) : M () := match q with Some p => free p | None => mret () end.
(** A counting loop over a vector, which a body may leave. *)
Fixpoint for_index {X Y} (i : nat) (body : nat → X → M (option Y)) (l : list X) : M (option Y) :=
  match l with
  | [] => mret None
  | x :: l => r ← body i x; match r with Some y => mret (Some y) | None => for_index (S i) body l end
  end.
End Memory.

(** ** Assertions *)

Record heapProp (B : Type) := HeapProp { holds : gmap ptr B → Prop }.
Arguments HeapProp {B} _.
Arguments holds {B} _ _ : simpl never.
Section Assertions.
Context {B : Type}.
Implicit Types P Q R : heapProp B.
#[export] Instance heapProp_equiv : Equiv (heapProp B) := λ P Q, ∀ h, holds P h ↔ holds Q h.
#[export] Instance heapProp_equivalence : Equivalence (≡@{heapProp B}).
Proof. split; [by intros P h|intros P Q HPQ h; by rw (HPQ h)|]. intros P Q R HPQ HQR h. by rw (HPQ h). Qed.
Canonical Structure heapPropO := discreteO (heapProp B).

Record entails P Q : Prop := Entails { entail_at : ∀ h, holds P h → holds Q h }.
Definition h_emp : heapProp B := HeapProp (λ h, h = ∅).
Definition h_pure (φ : Prop) : heapProp B := HeapProp (λ _, φ).
Definition h_and P Q : heapProp B := HeapProp (λ h, holds P h ∧ holds Q h).
Definition h_or P Q : heapProp B := HeapProp (λ h, holds P h ∨ holds Q h).
Definition h_impl P Q : heapProp B := HeapProp (λ h, holds P h → holds Q h).
Definition h_forall {X} (Φ : X → heapProp B) : heapProp B := HeapProp (λ h, ∀ x, holds (Φ x) h).
Definition h_exist {X} (Φ : X → heapProp B) : heapProp B := HeapProp (λ h, ∃ x, holds (Φ x) h).
Definition h_sep P Q : heapProp B := HeapProp (λ h, ∃ h1 h2, h = h1 ∪ h2 ∧ h1 ##ₘ h2 ∧ holds P h1 ∧ holds Q h2).
Definition h_wand P Q : heapProp B := HeapProp (λ h, ∀ h', h ##ₘ h' → holds P h' → holds Q (h ∪ h')).
Definition h_persistently P : heapProp B := h_pure (entails h_emp P).

Lemma heapProp_mixin : BiMixin entails h_emp h_pure h_and h_or h_impl (@h_forall) (@h_exist) h_sep h_wand.
Proof.
  split.
  1-25,30: by (repeat intro; try split; firstorder).
  - intros P. split. intros h HP. exists ∅, h. split; [by rw left_id_L|]. split; [apply map_disjoint_empty_l|done].
  - intros P. split. intros h (h1 & h2 & -> & _ & -> & HP). by rw left_id_L.
  - intros P Q. split. intros h (h1 & h2 & -> & Hd & HP & HQ). exists h2, h1. by rw map_union_comm.
  - intros P Q R. split. intros h (h12 & h3 & -> & Hd & (h1 & h2 & -> & Hd' & HP & HQ) & HR). apply map_disjoint_union_l in Hd as [Hd1 Hd2].
    exists h1, (h2 ∪ h3). rw assoc_L. split; [done|]. split; [by apply map_disjoint_union_r|]. split; [done|]. by exists h2, h3.
  - intros P Q R [HPQ]. split. intros h (h1 & h2 & -> & Hd & HP & HQ). by apply HPQ.
Qed.
Lemma heapProp_persistently_mixin : BiPersistentlyMixin entails h_emp h_and (@h_exist) h_sep h_persistently.
Proof.
  eapply bi_persistently_mixin_discrete, heapProp_mixin; [done| |done].
  intros X Φ [HΦ]. destruct (HΦ ∅) as [x Hx]; [done|]. exists x. split. by intros h ->.
Qed.
Lemma heapProp_later_mixin : BiLaterMixin entails h_pure h_or h_impl (@h_forall) (@h_exist) h_sep h_persistently (λ P, P).
Proof. eapply bi_later_mixin_id, heapProp_mixin. done. Qed.
Canonical Structure heapPropI : bi := {|
  bi_ofe_mixin := ofe_mixin_of (heapProp B); bi_cofe_aux := discrete_cofe _;
  bi_bi_mixin := heapProp_mixin; bi_bi_persistently_mixin := heapProp_persistently_mixin; bi_bi_later_mixin := heapProp_later_mixin |}.

Definition points_to (p : ptr) (b : B) : heapPropI := HeapProp (λ h, h = {[p := b]}).
End Assertions.
Arguments heapPropI B : clear implicits.
Notation "p ↦ b" := (points_to p b) (at level 20) : bi_scope.

(** ** What code does to what it owns *)

Section Wp.
Context {A B : Type} `{!Malloc A, !MallocLaws A}.
Abbreviation M := (state (Mem A B)).
Implicit Types P Q : heapPropI B.
Implicit Types m : Mem A B.

(** Owning [h], whatever the rest of the heap is, [f] touches only [h] and what it
    allocates, and ends with an answer and a part of the heap that [Φ] describes. *)
Definition wp {X} (f : M X) (Φ : X → heapPropI B) : heapPropI B := HeapProp (λ h, ∀ m frame,
  heap m = h ∪ frame → h ##ₘ frame → bad m = false →
  ∃ h', heap (f m).2 = h' ∪ frame ∧ h' ##ₘ frame ∧ bad (f m).2 = false ∧ holds (Φ (f m).1) h').

Lemma wp_ret {X} (x : X) Φ : Φ x ⊢ wp (mret x) Φ.
Proof. split. intros h HΦ m frame Hm Hd Hb. by exists h. Qed.
Lemma wp_bind {X Y} (f : M X) (g : X → M Y) Φ : wp f (λ x, wp (g x) Φ) ⊢ wp (f ≫= g) Φ.
Proof.
  split. intros h Hf m frame Hm Hd Hb. destruct (Hf m frame Hm Hd Hb) as (h1 & Hm1 & Hd1 & Hb1 & Hg).
  rw bind_run. by apply Hg.
Qed.
Lemma wp_wand {X} (f : M X) Φ Ψ : wp f Φ -∗ (∀ x, Φ x -∗ Ψ x) -∗ wp f Ψ.
Proof.
  apply bi.entails_wand, bi.wand_intro_r. split. intros h (h1 & h2 & -> & H12 & Hf & Hw) m frame Hm Hd Hb.
  apply map_disjoint_union_l in Hd as [Hd1 Hd2].
  destruct (Hf m (h2 ∪ frame)) as (h' & Hm' & Hd' & Hb' & HΦ); [by rw assoc_L|by apply map_disjoint_union_r|done|].
  apply map_disjoint_union_r in Hd' as [Hd2' Hdf]. exists (h' ∪ h2). split; [by rw -assoc_L|].
  split; [by apply map_disjoint_union_l|]. split; [done|]. rw map_union_comm //. by apply Hw.
Qed.
Lemma wp_mono {X} (f : M X) Φ Ψ : (∀ x, Φ x ⊢ Ψ x) → wp f Φ ⊢ wp f Ψ.
Proof. intros HΦ. iIntros "Hf". iApply (wp_wand with "Hf"). iIntros (x) "Hx". by iApply HΦ. Qed.
(** The allocator can refuse. *)
Definition may_fail : Prop := ∃ (used : gset ptr) (a : A), (malloc used a).1 = None.
Lemma wp_calloc b Φ :
  (∀ o, match o with Some p => p ↦ b | None => <affine> ⌜may_fail⌝ end -∗ Φ o) ⊢ wp (calloc b) Φ.
Proof.
  split. intros h HΦ m frame Hm Hd Hb. unfold calloc.
  pose proof (law_malloc (dom (heap m)) (allocator m)) as Hl.
  assert ((malloc (dom (heap m)) (allocator m)).1 = None → may_fail) as Hf by (intros; by eexists _, _).
  destruct (malloc (dom (heap m)) (allocator m)) as [[p|] a]; cbn [fst snd heap bad] in *.
  - specialize (Hl p eq_refl). apply not_elem_of_dom in Hl. rw Hm in Hl. apply lookup_union_None in Hl as [Hh Hfr].
    exists (h ∪ {[p := b]}). rw Hm. split.
    { rw (map_union_comm h {[p := b]}); [by rw insert_union_singleton_l assoc_L|by apply map_disjoint_singleton_r]. }
    split; [apply map_disjoint_union_l; split; [done|by apply map_disjoint_singleton_l]|]. split; [done|].
    apply (HΦ (Some p)); [by apply map_disjoint_singleton_r|done].
  - exists h. rw Hm. split; [done|]. split; [done|]. split; [done|]. rw -(right_id_L ∅ (∪) h).
    apply (HΦ None); [apply map_disjoint_empty_r|]. split; [done|by apply Hf].
Qed.
(** An owned block is in the heap. *)
Lemma lookup_owned p b (h frame : gmap ptr B) : ({[p := b]} ∪ h ∪ frame) !! p = Some b.
Proof. rw -assoc_L. apply lookup_union_Some_l, lookup_singleton_eq. Qed.
Lemma wp_load p b Φ : p ↦ b ∗ (p ↦ b -∗ Φ (Some b)) ⊢ wp (load p) Φ.
Proof.
  split. intros h (h1 & h2 & -> & H12 & Hp & Hw) m frame Hm Hd Hb. unfold load. pose proof Hp as Hp'. hnf in Hp. subst h1.
  rw Hm. rw lookup_owned.
  exists ({[p := b]} ∪ h2). split; [done|]. split; [done|]. split; [done|]. cbn. rw map_union_comm //. by apply Hw.
Qed.
Lemma wp_store p b b' Φ : p ↦ b ∗ (p ↦ b' -∗ Φ ()) ⊢ wp (store p b') Φ.
Proof.
  split. intros h (h1 & h2 & -> & H12 & Hp & Hw) m frame Hm Hd Hb. unfold store. hnf in Hp. subst h1.
  rw Hm. rw lookup_owned. cbn.
  apply map_disjoint_union_l in Hd as [Hpf Hd]. rw map_disjoint_singleton_l in Hpf. rw map_disjoint_singleton_l in H12.
  exists (h2 ∪ {[p := b']}). split.
  - rw (map_union_comm h2); [|by apply map_disjoint_singleton_r]. rw -!assoc_L -!insert_union_singleton_l. by rw insert_insert_eq.
  - split; [apply map_disjoint_union_l; split; [done|by apply map_disjoint_singleton_l]|]. split; [done|].
    apply Hw; [by apply map_disjoint_singleton_r|done].
Qed.
Lemma wp_free p b Φ : p ↦ b ∗ Φ () ⊢ wp (free p) Φ.
Proof.
  split. intros h (h1 & h2 & -> & H12 & Hp & HΦ) m frame Hm Hd Hb. unfold free. hnf in Hp. subst h1.
  rw Hm. rw lookup_owned. cbn.
  apply map_disjoint_union_l in Hd as [Hpf Hd]. rw map_disjoint_singleton_l in Hpf. rw map_disjoint_singleton_l in H12.
  exists h2. split; [|done]. rw -assoc_L -insert_union_singleton_l delete_insert_id //. by apply lookup_union_None.
Qed.
Lemma wp_free_opt q b Φ :
  match q with Some p => p ↦ b | None => emp end ∗ Φ () ⊢ wp (free_opt q) Φ.
Proof. destruct q as [p|]; [apply wp_free|]. iIntros "[_ H]". by iApply wp_ret. Qed.

(** *** Loops *)

Lemma wp_for_index {X Y} (I : nat → heapPropI B) (body : nat → X → M (option Y)) l Φ :
  (∀ i x, l !! i = Some x → I i ⊢ wp (body i x) (λ r, match r with None => I (S i) | Some y => Φ (Some y) end)) →
  (I (length l) ⊢ Φ None) → I O ⊢ wp (for_index O body l) Φ.
Proof.
  intros Hbody Hend.
  cut (∀ l1 l2, l = l1 ++ l2 → I (length l1) ⊢ wp (for_index (length l1) body l2) Φ); [intros H; by apply (H [])|].
  intros l1 l2. revert l1. induction l2 as [|x l2 IH]; intros l1 Hl; cbn [for_index].
  - iIntros "HI". iApply wp_ret. iApply Hend. by rw Hl app_nil_r.
  - iIntros "HI". iApply wp_bind. iApply (wp_wand with "[HI]"); [iApply (Hbody with "HI")|].
    { by rw Hl list_lookup_middle. }
    iIntros ([y|]) "H"; [by iApply wp_ret|]. specialize (IH (l1 ++ [x])). rw length_app /= Nat.add_1_r in IH.
    iApply (IH with "H"). by rw Hl -assoc_L.
Qed.
Lemma wp_for_each {X} (I : nat → heapPropI B) (body : X → M ()) l Φ :
  (∀ i x, l !! i = Some x → I i ⊢ wp (body x) (λ _, I (S i))) →
  (I (length l) ⊢ Φ ()) → I O ⊢ wp (for_each body l) Φ.
Proof.
  revert I. induction l as [|x l IH]; intros I Hbody Hend; cbn [for_each].
  - iIntros "HI". iApply wp_ret. by iApply Hend.
  - iIntros "HI". iApply wp_bind. iApply (wp_wand with "[HI]"); [by iApply (Hbody O x with "HI")|]. iIntros (_) "HI".
    iApply (IH (λ i, I (S i)) with "HI"); [|done]. intros i y Hy. by apply (Hbody (S i)).
Qed.

(** What holds of everything an operation is run on. *)
Lemma wp_sound {X} (f : M X) P Φ m h frame : (P ⊢ wp f Φ) → holds P h → heap m = h ∪ frame → h ##ₘ frame → bad m = false →
  ∃ h', heap (f m).2 = h' ∪ frame ∧ h' ##ₘ frame ∧ bad (f m).2 = false ∧ holds (Φ (f m).1) h'.
Proof. intros [Hf] HP. apply (Hf h HP). Qed.
End Wp.
