(* ===== verification/OhUsbManager.v ===== *)
(** * The C interface (interfaces/kits/capi/src/ohusb_manager.cpp)

    The functions a C program calls.  They forward to the client library and turn
    what it gives into structures on the heap, which the caller hands back to be
    freed.  A block of the heap is an array of one of the structures, or a string;
    a pointer to an element is the block's address with an index. *)
From S2P Require Import Prelude UsbErrors Platform UsbDevice UsbInterfaceType UsbHostManager UsbService UsbSrvClient HeapLogic.

(** ** Codes and structures (ohusb_manager.h) *)

Definition OH_USBMANAGER_SUCCESS : Z := 0.
Definition OH_USBMANAGER_ERROR_PERMISSION_DENIED : Z := 14400001.
Definition OH_USBMANAGER_ERROR_SERVICE_EXCEPTION : Z := 14400004.
Definition OH_USBMANAGER_ERROR_NO_DEVICE : Z := 14400008.
Definition OH_USBMANAGER_ERROR_NO_MEMORY : Z := 14400009.
Definition OH_USBMANAGER_ERROR_IO_ERROR : Z := 14400012.
Definition OH_USBMANAGER_ERROR_INVALID_PARAMETER : Z := 14400014.
Definition HDF_FAILURE_CODE : Z := -1.
Definition HDF_ERR_IO_CODE : Z := -17.
Definition HDF_DEV_ERR_NO_DEVICE_CODE : Z := -202.

Definition to_u16 (z : Z) : Z := z `mod` 2 ^ 16.
(** A [const char *]: null, the constant [EMPTY_STRING], or what [strdup] gave. *)
Inductive cstr := CNull | CEmpty | CStr (p : ptr).

Record OH_UsbManager_UsbEndpoint := {
  ep_address : Z; ep_attributes : Z; ep_interval : Z; ep_maxPacketSize : Z;
  ep_direction : Z; ep_number : Z; ep_type : Z; ep_interfaceId : Z }.
Record OH_UsbManager_UsbInterface := {
  if_id : Z; if_protocol : Z; if_clazz : Z; if_subClass : Z; if_alternateSetting : Z;
  if_name : cstr; if_endpoints : option ptr; if_endpointCount : Z }.
Record OH_UsbManager_UsbConfig := {
  cf_id : Z; cf_attributes : Z; cf_maxPower : Z; cf_name : cstr; cf_isRemoteWakeup : bool;
  cf_isSelfPowered : bool; cf_interfaces : option ptr; cf_interfaceCount : Z }.
Record OH_UsbManager_UsbDevice := {
  dv_busNum : Z; dv_devAddress : Z; dv_name : cstr; dv_manufacturerName : cstr; dv_productName : cstr;
  dv_version : cstr; dv_vendorId : Z; dv_productId : Z; dv_clazz : Z; dv_subClass : Z; dv_protocol : Z;
  dv_configs : option ptr; dv_configCount : Z }.
Record OH_UsbManager_UsbPipe := { pp_busNum : Z; pp_devAddress : Z }.

Inductive block :=
  | BString (s : string)
  | BEndpoints (l : list OH_UsbManager_UsbEndpoint)
  | BInterfaces (l : list OH_UsbManager_UsbInterface)
  | BConfigs (l : list OH_UsbManager_UsbConfig)
  | BDevices (l : list OH_UsbManager_UsbDevice).

(** What an array of [X] is on the heap, and the element [calloc] makes. *)
Class Element (X : Type) := {
  inject : list X → block;
  project : block → option (list X);
  zero_element : X;
  project_inject l : project (inject l) = Some l;
}.
#[export] Program Instance endpoint_element : Element OH_UsbManager_UsbEndpoint := {|
  inject := BEndpoints; project b := match b with BEndpoints l => Some l | _ => None end;
  zero_element := {| ep_address := 0; ep_attributes := 0; ep_interval := 0; ep_maxPacketSize := 0;
    ep_direction := 0; ep_number := 0; ep_type := 0; ep_interfaceId := 0 |} |}.
Solve Obligations with done.
#[export] Program Instance interface_element : Element OH_UsbManager_UsbInterface := {|
  inject := BInterfaces; project b := match b with BInterfaces l => Some l | _ => None end;
  zero_element := {| if_id := 0; if_protocol := 0; if_clazz := 0; if_subClass := 0; if_alternateSetting := 0;
    if_name := CNull; if_endpoints := None; if_endpointCount := 0 |} |}.
Solve Obligations with done.
#[export] Program Instance config_element : Element OH_UsbManager_UsbConfig := {|
  inject := BConfigs; project b := match b with BConfigs l => Some l | _ => None end;
  zero_element := {| cf_id := 0; cf_attributes := 0; cf_maxPower := 0; cf_name := CNull; cf_isRemoteWakeup := false;
    cf_isSelfPowered := false; cf_interfaces := None; cf_interfaceCount := 0 |} |}.
Solve Obligations with done.
#[export] Program Instance device_element : Element OH_UsbManager_UsbDevice := {|
  inject := BDevices; project b := match b with BDevices l => Some l | _ => None end;
  zero_element := {| dv_busNum := 0; dv_devAddress := 0; dv_name := CNull; dv_manufacturerName := CNull;
    dv_productName := CNull; dv_version := CNull; dv_vendorId := 0; dv_productId := 0; dv_clazz := 0; dv_subClass := 0;
    dv_protocol := 0; dv_configs := None; dv_configCount := 0 |} |}.
Solve Obligations with done.

(** *** What is assigned to the fields of an element *)

Definition endpoint_fields (e : USBEndpoint.t) : OH_UsbManager_UsbEndpoint := {|
  ep_address := to_u8 (USBEndpoint.address_ e); ep_attributes := to_u8 (USBEndpoint.attributes_ e);
  ep_interval := to_u8 (USBEndpoint.interval_ e); ep_maxPacketSize := to_u16 (USBEndpoint.maxPacketSize_ e);
  ep_direction := USBEndpoint.GetDirection e; ep_number := USBEndpoint.GetNumber e;
  ep_type := to_u8 (USBEndpoint.GetType e); ep_interfaceId := to_u8 (USBEndpoint.interfaceId_ e) |}.
Definition interface_fields (i : UsbInterface.t) (y : OH_UsbManager_UsbInterface) : OH_UsbManager_UsbInterface := {|
  if_id := to_u8 (UsbInterface.id_ i); if_protocol := to_u8 (UsbInterface.protocol_ i);
  if_clazz := to_u8 (UsbInterface.klass_ i); if_subClass := to_u8 (UsbInterface.subClass_ i);
  if_alternateSetting := to_u8 (UsbInterface.alternateSetting_ i);
  if_name := if_name y; if_endpoints := if_endpoints y; if_endpointCount := if_endpointCount y |}.
Definition set_if_name x (y : OH_UsbManager_UsbInterface) :=
  let 'Build_OH_UsbManager_UsbInterface a b c d e _ g h := y in Build_OH_UsbManager_UsbInterface a b c d e x g h.
Definition set_if_endpoints x n (y : OH_UsbManager_UsbInterface) :=
  let 'Build_OH_UsbManager_UsbInterface a b c d e f _ _ := y in Build_OH_UsbManager_UsbInterface a b c d e f x n.
(** [maxPower] is what [GetMaxPower] gives, in milliamperes, cut to a byte. *)
Definition config_fields (c : USBConfig.t) (y : OH_UsbManager_UsbConfig) : OH_UsbManager_UsbConfig := {|
  cf_id := to_u8 (USBConfig.id_ c); cf_attributes := to_u8 (USBConfig.attributes_ c);
  cf_maxPower := to_u8 (USBConfig.GetMaxPower c); cf_name := cf_name y;
  cf_isRemoteWakeup := USBConfig.IsRemoteWakeup c; cf_isSelfPowered := USBConfig.IsSelfPowered c;
  cf_interfaces := cf_interfaces y; cf_interfaceCount := cf_interfaceCount y |}.
Definition set_cf_name x (y : OH_UsbManager_UsbConfig) :=
  let 'Build_OH_UsbManager_UsbConfig a b c _ e f g h := y in Build_OH_UsbManager_UsbConfig a b c x e f g h.
Definition set_cf_interfaces x n (y : OH_UsbManager_UsbConfig) :=
  let 'Build_OH_UsbManager_UsbConfig a b c d e f _ _ := y in Build_OH_UsbManager_UsbConfig a b c d e f x n.
Definition device_fields (d : UsbDevice.t) (y : OH_UsbManager_UsbDevice) : OH_UsbManager_UsbDevice := {|
  dv_busNum := UsbDevice.busNum_ d; dv_devAddress := UsbDevice.devAddr_ d; dv_name := dv_name y;
  dv_manufacturerName := dv_manufacturerName y; dv_productName := dv_productName y; dv_version := dv_version y;
  dv_vendorId := to_u16 (UsbDevice.vendorId_ d); dv_productId := to_u16 (UsbDevice.productId_ d);
  dv_clazz := to_u8 (UsbDevice.baseClass_ d); dv_subClass := to_u8 (UsbDevice.subClass_ d);
  dv_protocol := to_u8 (UsbDevice.protocol_ d); dv_configs := dv_configs y; dv_configCount := dv_configCount y |}.
Definition set_dv_names n m p v (y : OH_UsbManager_UsbDevice) :=
  let 'Build_OH_UsbManager_UsbDevice a b _ _ _ _ g h i j k l o := y in Build_OH_UsbManager_UsbDevice a b n m p v g h i j k l o.
Definition set_dv_configs x n (y : OH_UsbManager_UsbDevice) :=
  let 'Build_OH_UsbManager_UsbDevice a b c d e f g h i j k _ _ := y in Build_OH_UsbManager_UsbDevice a b c d e f g h i j k x n.

(** ** Codes *)

Section Codes.
Context `{!ErrCodeBase}.
Definition ConvertErrCode (cppRet : Z) : Z :=
  if cppRet =? UEC_OK then OH_USBMANAGER_SUCCESS
  else if (cppRet =? uec UEC_INTERFACE_NO_MEMORY) || (cppRet =? uec UEC_SERVICE_NO_MEMORY) then OH_USBMANAGER_ERROR_NO_MEMORY
  else if (cppRet =? uec UEC_INTERFACE_PERMISSION_DENIED) || (cppRet =? uec UEC_SERVICE_PERMISSION_DENIED)
       then OH_USBMANAGER_ERROR_PERMISSION_DENIED
  else OH_USBMANAGER_ERROR_SERVICE_EXCEPTION.
Definition ConvertErrCodeForConnect (cppRet : Z) : Z :=
  if (cppRet =? HDF_DEV_ERR_NO_DEVICE_CODE) || (cppRet =? HDF_FAILURE_CODE) || (cppRet =? HDF_ERR_IO_CODE)
  then OH_USBMANAGER_ERROR_IO_ERROR else ConvertErrCode cppRet.
Definition ConvertErrCodeForGetFd (cppRet : Z) : Z :=
  if (cppRet =? HDF_DEV_ERR_NO_DEVICE_CODE) || (cppRet =? HDF_FAILURE_CODE)
  then OH_USBMANAGER_ERROR_NO_DEVICE else ConvertErrCode cppRet.
End Codes.

(** ** Copying to the heap, and freeing *)

(** The loops count in [uint32_t]. *)
Definition count_of {X} (l : list X) : Z := to_u32 (Z.of_nat (length l)).
Definition counted {X} (l : list X) : list X := take (Z.to_nat (count_of l)) l.

Section Copies.
Context {A : Type} `{!Malloc A}.
Abbreviation M := (state (Mem A block)).

(** [p[i]]; outside the array, or in something else, is a fault. *)
Definition elem_load {X} `{!Element X} (p : ptr) (i : nat) : M (option X) :=
  b ← load p;
  match l ← b; project l ≫= (.!! i) with Some x => mret (Some x) | None => fault;; mret None end.
(** Assigns to fields of the element at [out]. *)
Definition elem_update {X} `{!Element X} (out : ptr * nat) (f : X → X) : M () :=
  b ← load out.1;
  match l ← b; project l with
  | Some l => if bool_decide (out.2 < length l)%nat then store out.1 (inject (alter f out.2 l)) else fault
  | None => fault
  end.

Definition StrdupSafe (src : option string) : M cstr :=
  match src with
  | None => mret CEmpty
  | Some s => dst ← calloc (BString s); mret match dst with Some p => CStr p | None => CEmpty end
  end.
Definition StrdupFromStd (src : string) : M cstr := StrdupSafe (Some (c_str src)).
(** [if (x != nullptr && x != EMPTY_STRING) { free(x); }] *)
Definition free_string (x : cstr) : M () := match x with CStr p => free p | CNull | CEmpty => mret () end.
(** The loop over the first elements of an array, which is freed after it. *)
Definition free_array {X} `{!Element X} (body : X → M ()) (q : option ptr) (count : Z) : M () :=
  match q with
  | None => mret ()
  | Some p =>
      for_each (λ i, x ← elem_load p i; match x with Some x => body x | None => mret () end) (seq 0 (Z.to_nat count));;
      free p
  end.

Definition FreeInterfaces : option ptr → Z → M () :=
  free_array (λ x, free_string (if_name x);; free_opt (if_endpoints x)).
Definition FreeConfigsArray : option ptr → Z → M () :=
  free_array (λ x, free_string (cf_name x);; FreeInterfaces (cf_interfaces x) (cf_interfaceCount x)).
Definition OH_UsbManager_FreeUsbDeviceList (devices : option ptr) (deviceCount : Z) : M () :=
  if deviceCount =? 0 then mret () else
  free_array (λ x, free_string (dv_name x);; free_string (dv_manufacturerName x);; free_string (dv_productName x);;
    free_string (dv_version x);; FreeConfigsArray (dv_configs x) (dv_configCount x)) devices deviceCount.

Definition CopyEndpoints (cppIface : UsbInterface.t) (out : ptr * nat) : M Z :=
  let cppEps := UsbInterface.endpoints_ cppIface in
  let eCount := count_of cppEps in
  if eCount =? 0 then elem_update out (set_if_endpoints None 0);; mret OH_USBMANAGER_SUCCESS else
  eps ← calloc (inject (replicate (Z.to_nat eCount) (zero_element : OH_UsbManager_UsbEndpoint)));
  match eps with
  | None => mret OH_USBMANAGER_ERROR_NO_MEMORY
  | Some p =>
      _ ← for_index 0 (λ e cppEp, elem_update (p, e) (λ _, endpoint_fields cppEp);; mret (None : option Z)) (counted cppEps);
      elem_update out (set_if_endpoints (Some p) eCount);;
      mret OH_USBMANAGER_SUCCESS
  end.

Definition copy_interface (cppIface : UsbInterface.t) (out : ptr * nat) : M Z :=
  elem_update out (interface_fields cppIface);;
  name ← StrdupFromStd (UsbInterface.name_ cppIface);
  elem_update out (set_if_name name);;
  CopyEndpoints cppIface out.
Definition CopyInterfaces (cppCfg : USBConfig.t) (out : ptr * nat) : M Z :=
  let cppIfaces := USBConfig.interfaces_ cppCfg in
  let iCount := count_of cppIfaces in
  if iCount =? 0 then elem_update out (set_cf_interfaces None 0);; mret OH_USBMANAGER_SUCCESS else
  ifaces ← calloc (inject (replicate (Z.to_nat iCount) (zero_element : OH_UsbManager_UsbInterface)));
  match ifaces with
  | None => mret OH_USBMANAGER_ERROR_NO_MEMORY
  | Some p =>
      r ← for_index 0 (λ i cppIface,
        epRet ← copy_interface cppIface (p, i);
        if negb (epRet =? OH_USBMANAGER_SUCCESS) then FreeInterfaces (Some p) (Z.of_nat i + 1);; mret (Some epRet)
        else mret None) (counted cppIfaces);
      match r with
      | Some epRet => mret epRet
      | None => elem_update out (set_cf_interfaces (Some p) iCount);; mret OH_USBMANAGER_SUCCESS
      end
  end.

Definition copy_config (cppCfg : USBConfig.t) (out : ptr * nat) : M Z :=
  elem_update out (config_fields cppCfg);;
  name ← StrdupFromStd (USBConfig.name_ cppCfg);
  elem_update out (set_cf_name name);;
  CopyInterfaces cppCfg out.
Definition CopyConfigs (cppDev : UsbDevice.t) (out : ptr * nat) : M Z :=
  let cppConfigs := UsbDevice.configs_ cppDev in
  let cCount := count_of cppConfigs in
  if cCount =? 0 then elem_update out (set_dv_configs None 0);; mret OH_USBMANAGER_SUCCESS else
  cfgs ← calloc (inject (replicate (Z.to_nat cCount) (zero_element : OH_UsbManager_UsbConfig)));
  match cfgs with
  | None => mret OH_USBMANAGER_ERROR_NO_MEMORY
  | Some p =>
      r ← for_index 0 (λ c cppCfg,
        ifaceRet ← copy_config cppCfg (p, c);
        if negb (ifaceRet =? OH_USBMANAGER_SUCCESS) then FreeConfigsArray (Some p) (Z.of_nat c + 1);; mret (Some ifaceRet)
        else mret None) (counted cppConfigs);
      match r with
      | Some ifaceRet => mret ifaceRet
      | None => elem_update out (set_dv_configs (Some p) cCount);; mret OH_USBMANAGER_SUCCESS
      end
  end.

Definition copy_device (cppDev : UsbDevice.t) (out : ptr * nat) : M Z :=
  elem_update out (device_fields cppDev);;
  n ← StrdupFromStd (UsbDevice.name_ cppDev);
  m ← StrdupFromStd (UsbDevice.manufacturerName_ cppDev);
  p ← StrdupFromStd (UsbDevice.productName_ cppDev);
  v ← StrdupFromStd (UsbDevice.version_ cppDev);
  elem_update out (set_dv_names n m p v);;
  CopyConfigs cppDev out.
(** [OH_UsbManager_GetUsbDeviceList] after the devices have been obtained: the
    code, [*devices] and [*deviceCount], which were set to null and 0 before. *)
Definition copy_devices (deviceList : list UsbDevice.t) : M (Z * option ptr * Z) :=
  match deviceList with
  | [] => mret (OH_USBMANAGER_SUCCESS, None, 0)
  | _ =>
      let count := count_of deviceList in
      arr ← calloc (inject (replicate (Z.to_nat count) (zero_element : OH_UsbManager_UsbDevice)));
      match arr with
      | None => mret (OH_USBMANAGER_ERROR_NO_MEMORY, None, 0)
      | Some p =>
          r ← for_index 0 (λ i cppDev,
            cfgRet ← copy_device cppDev (p, i);
            if negb (cfgRet =? OH_USBMANAGER_SUCCESS)
            then OH_UsbManager_FreeUsbDeviceList (Some p) (Z.of_nat i + 1);; mret (Some cfgRet)
            else mret None) (counted deviceList);
          match r with
          | Some cfgRet => mret (cfgRet, None, 0)
          | None => mret (OH_USBMANAGER_SUCCESS, Some p, count)
          end
      end
  end.
End Copies.

(** ** The functions *)

(** [OH_UsbManager_PermissionCallback] and the user's context. *)
Definition PermissionCallback : Type := Z * Z.
Record OhUsb (S P A : Type) := {
  client : UsbSrvClient S P;                         (* [UsbSrvClient::GetInstance()] *)
  memory : Mem A block;
  threads : list (string * PermissionCallback);      (* the threads that have not run *)
  answered : list (PermissionCallback * Z * bool);   (* the calls of callbacks, newest first *)
}.
Arguments client {S P A} _.
Arguments memory {S P A} _.
Arguments threads {S P A} _.
Arguments answered {S P A} _.

Section Functions.
Context {S P A : Type} `{!IUsbServer S, !ClientPlatform P, !ErrCodeBase, !Malloc A}.
Context (others : state (UsbSrvClient S P) ()).
Abbreviation M := (state (OhUsb S P A)).

Definition on_client {X} : state (UsbSrvClient S P) X → M X :=
  zoom client (λ c m, {| client := c; memory := memory m; threads := threads m; answered := answered m |}).
Definition on_memory {X} : state (Mem A block) X → M X :=
  zoom memory (λ h m, {| client := client m; memory := h; threads := threads m; answered := answered m |}).
Definition start_thread (t : string * PermissionCallback) : M () :=
  modify (λ m, {| client := client m; memory := memory m; threads := threads m ++ [t]; answered := answered m |}).
Definition call_back (c : PermissionCallback) (errCode : Z) (result : bool) : M () :=
  modify (λ m, {| client := client m; memory := memory m; threads := threads m; answered := (c, errCode, result) :: answered m |}).

(** The variables of the caller are passed with the values they have, [None] for a
    null pointer, and come back with the values they are left with. *)
Definition OH_UsbManager_GetUsbDeviceList (devices : option (option ptr)) (deviceCount : option Z)
    : M (Z * option (option ptr) * option Z) :=
  match devices, deviceCount with
  | Some _, Some _ =>
      '(ret, deviceList) ← on_client (GetDevices others []);
      if negb (ret =? UEC_OK) then mret (ConvertErrCode ret, Some None, Some 0) else
      '(r, p, n) ← on_memory (copy_devices deviceList);
      mret (r, Some p, Some n)
  | _, _ => mret (OH_USBMANAGER_ERROR_INVALID_PARAMETER, devices, deviceCount)
  end.
Definition OH_UsbManager_ConnectDevice (device : option OH_UsbManager_UsbDevice) (pipe : option OH_UsbManager_UsbPipe)
    : M (Z * option OH_UsbManager_UsbPipe) :=
  match device, pipe with
  | Some d, Some _ =>
      (* [SetBusNum] and [SetDevAddr] on a new device, which has no name *)
      let cppDevice := set_address (dv_busNum d) (dv_devAddress d) "" UsbDevice.default_ in
      '(ret, cppPipe) ← on_client (OpenDevice others cppDevice new_pipe);
      if negb (ret =? UEC_OK) then mret (ConvertErrCodeForConnect ret, pipe) else
      mret (OH_USBMANAGER_SUCCESS, Some {| pp_busNum := pipe_busNum_ cppPipe; pp_devAddress := pipe_devAddr_ cppPipe |})
  | _, _ => mret (OH_USBMANAGER_ERROR_INVALID_PARAMETER, pipe)
  end.
Definition OH_UsbManager_HasPermission (deviceName : option string) (result : option bool) : M (Z * option bool) :=
  match deviceName, result with
  | Some n, Some _ =>
      '(ret, hasRight) ← on_client (HasRightEx others n false);
      if negb (ret =? UEC_OK) then mret (OH_USBMANAGER_ERROR_SERVICE_EXCEPTION, Some false) else
      mret (OH_USBMANAGER_SUCCESS, Some hasRight)
  | _, _ => mret (OH_USBMANAGER_ERROR_INVALID_PARAMETER, result)
  end.
Definition OH_UsbManager_RequestPermission (deviceName : option string) (callback : option Z) (userContext : Z) : M Z :=
  match deviceName, callback with
  | Some n, Some cb => start_thread (n, (cb, userContext));; mret OH_USBMANAGER_SUCCESS
  | _, _ => mret OH_USBMANAGER_ERROR_INVALID_PARAMETER
  end.
(** What the thread does. *)
Definition request_thread (t : string * PermissionCallback) : M () :=
  ret ← on_client (RequestRight others t.1);
  if ret =? UEC_OK then call_back t.2 OH_USBMANAGER_SUCCESS true
  else if ret =? uec UEC_SERVICE_PERMISSION_DENIED then call_back t.2 OH_USBMANAGER_SUCCESS false
  else call_back t.2 OH_USBMANAGER_ERROR_SERVICE_EXCEPTION false.
(** The [k]-th of the threads that wait is run. *)
Definition run_thread (k : nat) : M () :=
  m ← get;
  match threads m !! k with
  | None => mret ()
  | Some t =>
      modify (λ m, {| client := client m; memory := memory m; threads := delete k (threads m); answered := answered m |});;
      request_thread t
  end.
Definition OH_UsbManager_GetFileDescriptor (pipe : option OH_UsbManager_UsbPipe) (fd : option Z) : M (Z * option Z) :=
  match pipe, fd with
  | Some q, Some _ =>
      '(ret, cppFd) ← on_client (GetFileDescriptor others {| pipe_busNum_ := pp_busNum q; pipe_devAddr_ := pp_devAddress q |} (-1));
      if negb (ret =? UEC_OK) then mret (ConvertErrCodeForGetFd ret, fd) else
      mret (OH_USBMANAGER_SUCCESS, Some cppFd)
  | _, _ => mret (OH_USBMANAGER_ERROR_INVALID_PARAMETER, fd)
  end.
Definition OH_UsbManager_ClosePipe (pipe : option OH_UsbManager_UsbPipe) : M Z :=
  match pipe with
  | Some q =>
      ret ← on_client (CloseEx others {| pipe_busNum_ := pp_busNum q; pipe_devAddr_ := pp_devAddress q |});
      mret (if negb (ret =? UEC_OK) then ConvertErrCode ret else OH_USBMANAGER_SUCCESS)
  | None => mret OH_USBMANAGER_ERROR_INVALID_PARAMETER
  end.
End Functions.
