(* ===== verification/OhUsbManagerProofs.v ===== *)
(** * What the C interface keeps on the heap

    Assertions for the structures a list of devices is turned into, the rules for
    arrays, and the specification of each function that copies or frees. *)
From iris.proofmode Require Import proofmode.
From S2P Require Import Prelude UsbErrors Platform UsbDevice HeapLogic OhUsbManager.

Lemma counted_lookup {X} (l : list X) i x : counted l !! i = Some x → l !! i = Some x.
Proof. by intros [? _]%lookup_take_Some. Qed.
Lemma count_of_range {X} (l : list X) : in_u32 (count_of l).
Proof. apply to_u32_range. Qed.
Lemma length_counted {X} (l : list X) : length (counted l) = Z.to_nat (count_of l).
Proof.
  unfold counted. rw length_take. pose proof (to_u32_range (Z.of_nat (length l))) as Hr. unfold count_of, to_u32, in_u32 in *.
  pose proof (Z.mod_le (Z.of_nat (length l)) (2 ^ 32)). lia.
Qed.
Lemma counted_small {X} (l : list X) : Z.of_nat (length l) < 2 ^ 32 → counted l = l.
Proof. intros Hl. unfold counted, count_of. rw to_u32_id; [|by unfold in_u32; lia]. by rw Nat2Z.id firstn_all. Qed.

(** ** Assertions *)

Section Assertions.
Context (A : Type) `{!Malloc A}.
Abbreviation prop := (heapPropI block).

(** A string that is what it was copied from, or the static empty one, which the code uses
    when its copy cannot be allocated; here any string may be empty when the allocator
    can refuse at all. *)
Definition string_at (c : cstr) (s : string) : prop :=
  match c with
  | CStr p => p ↦ BString (c_str s)
  | CEmpty => <affine> ⌜may_fail (A:=A)⌝
  | CNull => False
  end.
Definition string_owned (c : cstr) : prop :=
  match c with CStr p => ∃ s, p ↦ BString s | CNull | CEmpty => emp end.

(** A pointer with a count, and the list it stands for: null when it is empty. *)
Definition array_at {X Y} `{!Element X} (at_ : X → Y → prop) (q : option ptr) (n : Z) (l : list Y) : prop :=
  <affine> ⌜n = count_of l⌝ ∗
  match q with
  | None => <affine> ⌜counted l = []⌝
  | Some p => <affine> ⌜l ≠ []⌝ ∗ ∃ a, p ↦ inject a ∗ [∗ list] x;y ∈ a;counted l, at_ x y
  end.
Definition array_owned {X} `{!Element X} (own : X → prop) (q : option ptr) (n : Z) : prop :=
  match q with
  | None => emp
  | Some p => ∃ a, p ↦ inject a ∗ <affine> ⌜(Z.to_nat n <= length a)%nat⌝ ∗ [∗ list] x ∈ take (Z.to_nat n) a, own x
  end.

Definition endpoint_at (y : OH_UsbManager_UsbEndpoint) (x : USBEndpoint.t) : prop := <affine> ⌜y = endpoint_fields x⌝.
Definition endpoints_owned (q : option ptr) : prop :=
  match q with Some p => ∃ a, p ↦ BEndpoints a | None => emp end.
Definition interface_at (y : OH_UsbManager_UsbInterface) (x : UsbInterface.t) : prop :=
  <affine> ⌜y = interface_fields x y⌝ ∗ string_at (if_name y) (UsbInterface.name_ x) ∗
  array_at endpoint_at (if_endpoints y) (if_endpointCount y) (UsbInterface.endpoints_ x).
Definition interface_owned (y : OH_UsbManager_UsbInterface) : prop :=
  string_owned (if_name y) ∗ endpoints_owned (if_endpoints y).
Definition config_at (y : OH_UsbManager_UsbConfig) (x : USBConfig.t) : prop :=
  <affine> ⌜y = config_fields x y⌝ ∗ string_at (cf_name y) (USBConfig.name_ x) ∗
  array_at interface_at (cf_interfaces y) (cf_interfaceCount y) (USBConfig.interfaces_ x).
Definition config_owned (y : OH_UsbManager_UsbConfig) : prop :=
  string_owned (cf_name y) ∗ array_owned interface_owned (cf_interfaces y) (cf_interfaceCount y).
Definition device_at (y : OH_UsbManager_UsbDevice) (x : UsbDevice.t) : prop :=
  <affine> ⌜y = device_fields x y⌝ ∗ string_at (dv_name y) (UsbDevice.name_ x) ∗
  string_at (dv_manufacturerName y) (UsbDevice.manufacturerName_ x) ∗ string_at (dv_productName y) (UsbDevice.productName_ x) ∗
  string_at (dv_version y) (UsbDevice.version_ x) ∗
  array_at config_at (dv_configs y) (dv_configCount y) (UsbDevice.configs_ x).
Definition device_owned (y : OH_UsbManager_UsbDevice) : prop :=
  string_owned (dv_name y) ∗ string_owned (dv_manufacturerName y) ∗ string_owned (dv_productName y) ∗
  string_owned (dv_version y) ∗ array_owned config_owned (dv_configs y) (dv_configCount y).

(** *** What is represented is owned *)

Lemma string_at_owned c s : string_at c s ⊢ string_owned c.
Proof. destruct c as [| |p]; cbn; [by iIntros "[]"|by iIntros "_"|]. iIntros "H". by iExists _. Qed.
Lemma big_sepL2_owned {X Y} (at_ : X → Y → prop) own a l :
  (∀ x y, at_ x y ⊢ own x) → ([∗ list] x;y ∈ a;l, at_ x y) ⊢ [∗ list] x ∈ a, own x.
Proof.
  intros Hown. rw (big_sepL2_mono _ (λ _ x _, own x)); [|intros; apply Hown]. by rw big_sepL2_const_sepL_l bi.and_elim_r.
Qed.
Lemma array_at_owned {X Y} `{!Element X} (at_ : X → Y → prop) own q n l :
  (∀ x y, at_ x y ⊢ own x) → array_at at_ q n l ⊢ array_owned own q n.
Proof.
  intros Hown. iIntros "[%Hn H]". destruct q as [p|]; [|by iDestruct "H" as "%"]. iDestruct "H" as (_ a) "[Hp Ha]".
  iDestruct (big_sepL2_length with "Ha") as %Hl. rw length_counted in Hl. iExists a. iFrame "Hp". subst n.
  iSplit; [iPureIntro; lia|]. rw firstn_all2; [|lia].
  iApply (big_sepL2_owned with "Ha"). done.
Qed.
Lemma endpoints_at_owned q n l : array_at endpoint_at q n l ⊢ endpoints_owned q.
Proof.
  iIntros "[_ H]". destruct q as [p|]; [|by iDestruct "H" as "%"]. iDestruct "H" as (_ a) "[Hp Ha]". iExists a. cbn.
  iDestruct (big_sepL2_owned _ (λ _, emp)%I with "Ha") as "Ha"; [by iIntros (x y) "_"|]. rw big_sepL_emp. by iFrame.
Qed.
Lemma interface_at_owned y x : interface_at y x ⊢ interface_owned y.
Proof. iIntros "(_ & Hs & He)". rw string_at_owned endpoints_at_owned. iFrame. Qed.
Lemma config_at_owned y x : config_at y x ⊢ config_owned y.
Proof. iIntros "(_ & Hs & He)". rw string_at_owned (array_at_owned _ _ _ _ _ interface_at_owned). iFrame. Qed.
Lemma device_at_owned y x : device_at y x ⊢ device_owned y.
Proof.
  iIntros "(_ & H1 & H2 & H3 & H4 & He)". rw !string_at_owned (array_at_owned _ _ _ _ _ config_at_owned). iFrame.
Qed.
End Assertions.

(** ** Elements of arrays *)

Section Rules.
Context {A : Type} `{!Malloc A, !MallocLaws A}.
Abbreviation prop := (heapPropI block).
Abbreviation M := (state (Mem A block)).

Lemma wp_elem_load {X} `{!Element X} p i (l : list X) x (Φ : option X → prop) :
  l !! i = Some x → p ↦ inject l ∗ (p ↦ inject l -∗ Φ (Some x)) ⊢ wp (A:=A) (elem_load p i) Φ.
Proof.
  intros Hx. iIntros "[Hp HΦ]". iApply wp_bind. iApply wp_load. iFrame "Hp". iIntros "Hp". cbn. rw project_inject /= Hx.
  iApply wp_ret. by iApply "HΦ".
Qed.
(** The element after [l1]. *)
Lemma wp_elem_update {X} `{!Element X} p (f : X → X) l1 x l2 (Φ : () → prop) :
  p ↦ inject (l1 ++ x :: l2) ∗ (p ↦ inject (l1 ++ f x :: l2) -∗ Φ ()) ⊢ wp (A:=A) (elem_update (p, length l1) f) Φ.
Proof.
  iIntros "[Hp HΦ]". iApply wp_bind. iApply wp_load. iFrame "Hp". iIntros "Hp". cbn [fst snd]. cbn. rw project_inject.
  rw bool_decide_true; [|rw length_app /=; lia]. iApply wp_store. iFrame "Hp".
  rw -{1}(Nat.add_0_r (length l1)) alter_app_r. by iApply "HΦ".
Qed.

(** ** Strings *)

Lemma wp_StrdupFromStd s (Φ : cstr → prop) :
  (∀ c, string_at A c s -∗ Φ c) ⊢ wp (A:=A) (StrdupFromStd s) Φ.
Proof.
  iIntros "HΦ". iApply wp_bind. iApply wp_calloc. iIntros ([p|]) "Ho"; iApply wp_ret; by iApply "HΦ".
Qed.
Lemma wp_free_string c (Φ : () → prop) : string_owned c ∗ Φ () ⊢ wp (A:=A) (free_string c) Φ.
Proof.
  iIntros "[Hc HΦ]". destruct c as [| |p]; cbn; [by iApply wp_ret..|]. iDestruct "Hc" as (s) "Hc". iApply wp_free. iFrame.
Qed.

(** ** Freeing *)

Lemma wp_free_array {X} `{!Element X} (body : X → M ()) (own : X → prop) q n Φ :
  (∀ x (Ψ : () → prop), own x ∗ Ψ () ⊢ wp (body x) Ψ) →
  array_owned own q n ∗ Φ () ⊢ wp (free_array body q n) Φ.
Proof.
  intros Hbody. iIntros "[Hq HΦ]". destruct q as [p|]; cbn; [|by iApply wp_ret].
  iDestruct "Hq" as (a) "(Hp & %Hn & Ha)". iApply wp_bind.
  iApply (wp_for_each (λ i, p ↦ inject a ∗ ([∗ list] x ∈ drop i (take (Z.to_nat n) a), own x) ∗ Φ ())%I with "[Hp Ha HΦ]").
  - intros i j [-> Hi]%lookup_seq. iIntros "(Hp & Ha & HΦ)". destruct (lookup_lt_is_Some_2 a i) as [x Hx]; [lia|].
    rw (drop_S _ x); [|by rw lookup_take_lt]. iDestruct "Ha" as "[Hx Ha]". cbn [Nat.add].
    iApply wp_bind. iApply wp_elem_load; [done|]. iFrame "Hp". iIntros "Hp". iApply Hbody. iFrame.
  - iIntros "(Hp & Ha & HΦ)". rw length_seq drop_ge; [|rw length_take; lia]. iApply wp_free. by iFrame.
  - by iFrame.
Qed.
Lemma wp_FreeInterfaces q n (Φ : () → prop) : array_owned interface_owned q n ∗ Φ () ⊢ wp (A:=A) (FreeInterfaces q n) Φ.
Proof.
  apply wp_free_array. intros x Ψ. iIntros "[[Hs He] HΨ]". iApply wp_bind. iApply wp_free_string. iFrame.
  unfold endpoints_owned. destruct (if_endpoints x) as [p|]; cbn [free_opt]; [|by iApply wp_ret].
  iDestruct "He" as (a) "He". iApply wp_free. iFrame.
Qed.
Lemma wp_FreeConfigsArray q n (Φ : () → prop) : array_owned config_owned q n ∗ Φ () ⊢ wp (A:=A) (FreeConfigsArray q n) Φ.
Proof.
  apply wp_free_array. intros x Ψ. iIntros "[[Hs He] HΨ]". iApply wp_bind. iApply wp_free_string. iFrame.
  iApply wp_FreeInterfaces. iFrame.
Qed.
Lemma wp_FreeUsbDeviceList q n (Φ : () → prop) :
  n ≠ 0 → array_owned device_owned q n ∗ Φ () ⊢ wp (A:=A) (OH_UsbManager_FreeUsbDeviceList q n) Φ.
Proof.
  intros Hn. unfold OH_UsbManager_FreeUsbDeviceList. rw (proj2 (Z.eqb_neq n 0) Hn). apply wp_free_array. intros x Ψ.
  iIntros "[(H1 & H2 & H3 & H4 & He) HΨ]". do 4 (iApply wp_bind; iApply wp_free_string; iFrame).
  iApply wp_FreeConfigsArray. iFrame.
Qed.

(** ** Copying *)

(** How a copy ends: done, or given up for lack of memory. *)
Definition copied (done_ failed : prop) (r : Z) : prop :=
  (<affine> ⌜r = OH_USBMANAGER_SUCCESS⌝ ∗ done_) ∨ (<affine> ⌜r = OH_USBMANAGER_ERROR_NO_MEMORY ∧ may_fail (A:=A)⌝ ∗ failed).

(** A loop that fills an array that was made with [calloc]. *)
Lemma wp_fill {X Y} `{!Element X} (at_ : X → Y → prop) (failed : Z → prop) p (body : nat → Y → M (option Z)) l :
  (∀ ys x rest, l !! length ys = Some x →
    p ↦ inject (ys ++ zero_element :: rest) ∗ ([∗ list] y;x ∈ ys;take (length ys) l, at_ y x) ⊢
    wp (body (length ys) x) (λ r, match r with
      | None => ∃ y, p ↦ inject (ys ++ y :: rest) ∗ ([∗ list] y;x ∈ ys;take (length ys) l, at_ y x) ∗ at_ y x
      | Some e => failed e end)) →
  p ↦ inject (replicate (length l) zero_element) ⊢
  wp (for_index 0 body l) (λ r, match r with None => ∃ a, p ↦ inject a ∗ [∗ list] y;x ∈ a;l, at_ y x | Some e => failed e end).
Proof.
  intros Hbody. iIntros "Hp".
  iApply (wp_for_index (λ i, ∃ ys, <affine> ⌜length ys = i⌝ ∗ p ↦ inject (ys ++ replicate (length l - i) zero_element) ∗
    [∗ list] y;x ∈ ys;take i l, at_ y x)%I with "[Hp]").
  - intros i x Hx. iIntros "(%ys & <- & Hp & Hys)". pose proof (lookup_lt_Some _ _ _ Hx) as Hlt.
    replace (length l - length ys)%nat with (S (length l - S (length ys))) by lia. cbn [replicate].
    iApply (wp_wand with "[Hp Hys]"); [by iApply (Hbody ys x _ Hx with "[$Hp $Hys]")|]. iIntros ([e|]) "H"; [done|].
    iDestruct "H" as (y) "(Hp & Hys & Hy)". iExists (ys ++ [y]). rw (take_S_r _ _ _ Hx) -assoc_L length_app Nat.add_1_r.
    iFrame "Hp". iSplit; [done|]. iApply big_sepL2_snoc. iFrame.
  - iIntros "(%ys & %Hys & Hp & Ha)". rw Nat.sub_diag firstn_all app_nil_r. iExists ys. iFrame.
  - iExists []. rw Nat.sub_0_r. iFrame "Hp". by iSplit.
Qed.

Lemma wp_CopyEndpoints x p l1 y l2 : if_endpoints y = None →
  p ↦ inject (l1 ++ y :: l2) ⊢ wp (A:=A) (CopyEndpoints x (p, length l1))
    (copied (∃ q n, p ↦ inject (l1 ++ set_if_endpoints q n y :: l2) ∗ array_at endpoint_at q n (UsbInterface.endpoints_ x))
            (p ↦ inject (l1 ++ y :: l2))).
Proof.
  intros Hy. iIntros "Hp". unfold CopyEndpoints. set (l := UsbInterface.endpoints_ x).
  pose proof (count_of_range l) as Hr. unfold in_u32 in Hr. destruct (Z.eqb_spec (count_of l) 0) as [H0|H0].
  - iApply wp_bind. iApply wp_elem_update. iFrame "Hp". iIntros "Hp". iApply wp_ret. iLeft. iSplit; [done|].
    iExists None, 0. iFrame. unfold array_at, counted. rw H0. done.
  - iApply wp_bind. iApply wp_calloc. iIntros ([q|]) "Ho".
    + iApply wp_bind. rw -length_counted.
      iApply (wp_wand with "[Ho]").
      { iApply (wp_fill endpoint_at (λ _, False)%I with "Ho"). intros ys e rest _. iIntros "[Hq Ha]". iApply wp_bind.
        iApply wp_elem_update. iFrame "Hq". iIntros "Hq". iApply wp_ret. iExists _. iFrame. done. }
      iIntros ([e|]) "H"; [done|]. iDestruct "H" as (a) "[Hq Ha]". iApply wp_bind. iApply wp_elem_update. iFrame "Hp".
      iIntros "Hp". iApply wp_ret. iLeft. iSplit; [done|]. iExists (Some q), _. iFrame "Hp". iSplit; [done|]. iSplit; [by iPureIntro; intros E; rw E in H0|]. iExists a. iFrame.
    + iDestruct "Ho" as %Ho. iApply wp_ret. iRight. iFrame. done.
Qed.

(** *** Arrays whose elements own something *)

Section Nested.
Context {X Y : Type} `{!Element X} (at_ : X → Y → prop) (own : X → prop).
Context (step : Y → ptr * nat → M Z) (Free : option ptr → Z → M ()).
Hypothesis at_owned : ∀ y x, at_ y x ⊢ own y.
Hypothesis wp_step : ∀ x p l1 l2, p ↦ inject (l1 ++ zero_element :: l2) ⊢
  wp (step x (p, length l1)) (λ r, ∃ y, p ↦ inject (l1 ++ y :: l2) ∗ copied (at_ y x) (own y) r).
Hypothesis wp_Free : ∀ q n (Φ : () → prop), n ≠ 0 → array_owned own q n ∗ Φ () ⊢ wp (Free q n) Φ.

(** The loop stops at the first failure, after everything has been given back. *)
Lemma wp_fill_or_free p l :
  p ↦ inject (replicate (length l) zero_element) ⊢
  wp (for_index 0 (λ i x, r ← step x (p, i);
      if negb (r =? OH_USBMANAGER_SUCCESS) then Free (Some p) (Z.of_nat i + 1);; mret (Some r) else mret None) l)
    (λ r, match r with
          | None => ∃ a, p ↦ inject a ∗ [∗ list] y;x ∈ a;l, at_ y x
          | Some e => <affine> ⌜e = OH_USBMANAGER_ERROR_NO_MEMORY ∧ may_fail (A:=A)⌝
          end).
Proof.
  apply (wp_fill at_ (λ e, <affine> ⌜e = OH_USBMANAGER_ERROR_NO_MEMORY ∧ may_fail (A:=A)⌝)%I).
  intros ys x rest _. iIntros "[Hp Ha]". iApply wp_bind. iApply (wp_wand with "[Hp]"); [iApply (wp_step with "Hp")|].
  iIntros (r) "(%y & Hp & [[-> Hy]|[%Hr Hy]])"; [|destruct Hr as [-> Hf]]; cbn [Z.eqb negb].
  - iApply wp_ret. iExists y. iFrame.
  - iApply wp_bind. iApply wp_Free; [lia|]. iSplitL; [|by iApply wp_ret].
    iDestruct (big_sepL2_length with "Ha") as %Hl. iDestruct (big_sepL2_owned _ _ _ _ at_owned with "Ha") as "Ha".
    iExists _. iFrame "Hp". replace (Z.to_nat (Z.of_nat (length ys) + 1)) with (length (ys ++ [y])) by (rw length_app /=; lia).
    assert (ys ++ y :: rest = (ys ++ [y]) ++ rest) as -> by by rw -assoc_L. rw take_app_length. iSplit; [iPureIntro; rw (length_app (ys ++ [y])); lia|].
    iApply big_sepL_snoc. iFrame.
Qed.

Lemma wp_copy_array {Z'} `{!Element Z'} (set_ : option ptr → Z → Z' → Z') l p l1 y l2 :
  p ↦ inject (l1 ++ y :: l2) ⊢
  wp (if count_of l =? 0 then elem_update (p, length l1) (set_ None 0);; mret OH_USBMANAGER_SUCCESS else
      array ← calloc (inject (replicate (Z.to_nat (count_of l)) (zero_element : X)));
      match array with
      | None => mret OH_USBMANAGER_ERROR_NO_MEMORY
      | Some q =>
          r ← for_index 0 (λ i x, r ← step x (q, i);
            if negb (r =? OH_USBMANAGER_SUCCESS) then Free (Some q) (Z.of_nat i + 1);; mret (Some r) else mret None) (counted l);
          match r with
          | Some r => mret r
          | None => elem_update (p, length l1) (set_ (Some q) (count_of l));; mret OH_USBMANAGER_SUCCESS
          end
      end)
    (copied (∃ q n, p ↦ inject (l1 ++ set_ q n y :: l2) ∗ array_at at_ q n l) (p ↦ inject (l1 ++ y :: l2))).
Proof.
  iIntros "Hp". pose proof (count_of_range l) as Hr. unfold in_u32 in Hr. destruct (Z.eqb_spec (count_of l) 0) as [H0|H0].
  - iApply wp_bind. iApply wp_elem_update. iFrame "Hp". iIntros "Hp". iApply wp_ret. iLeft. iSplit; [done|].
    iExists None, 0. iFrame. unfold array_at, counted. rw H0. done.
  - iApply wp_bind. iApply wp_calloc. iIntros ([q|]) "Ho".
    + iApply wp_bind. rw -length_counted. iApply (wp_wand with "[Ho]"); [iApply (wp_fill_or_free with "Ho")|].
      iIntros ([e|]) "H".
      * iDestruct "H" as %[-> Hf]. iApply wp_ret. iRight. by iFrame.
      * iDestruct "H" as (a) "[Hq Ha]". iApply wp_bind. iApply wp_elem_update. iFrame "Hp". iIntros "Hp". iApply wp_ret.
        iLeft. iSplit; [done|]. iExists (Some q), _. iFrame "Hp". iSplit; [done|]. iSplit; [by iPureIntro; intros E; rw E in H0|]. iExists a. iFrame.
    + iDestruct "Ho" as %Ho. iApply wp_ret. iRight. by iFrame.
Qed.
End Nested.

Lemma wp_copy_interface x p l1 l2 : p ↦ inject (l1 ++ zero_element :: l2) ⊢ wp (A:=A) (copy_interface x (p, length l1))
  (λ r, ∃ y, p ↦ inject (l1 ++ y :: l2) ∗ copied (interface_at A y x) (interface_owned y) r).
Proof.
  iIntros "Hp". iApply wp_bind. iApply wp_elem_update. iFrame "Hp". iIntros "Hp". iApply wp_bind. iApply wp_StrdupFromStd.
  iIntros (c) "Hc". iApply wp_bind. iApply wp_elem_update. iFrame "Hp". iIntros "Hp".
  iApply (wp_wand with "[Hp]"); [by iApply (wp_CopyEndpoints with "Hp")|].
  iIntros (r) "[[-> (%q & %n & Hp & He)]|[%Hr Hp]]"; iExists _; iFrame "Hp"; [iLeft|iRight]; (iSplit; [done|]).
  - iSplit; [done|]. iFrame.
  - iSplitL; [|done]. by iApply string_at_owned.
Qed.
Lemma wp_CopyInterfaces x p l1 y l2 : p ↦ inject (l1 ++ y :: l2) ⊢ wp (A:=A) (CopyInterfaces x (p, length l1))
  (copied (∃ q n, p ↦ inject (l1 ++ set_cf_interfaces q n y :: l2) ∗ array_at (interface_at A) q n (USBConfig.interfaces_ x))
          (p ↦ inject (l1 ++ y :: l2))).
Proof. apply (wp_copy_array _ _ _ _ (interface_at_owned A) wp_copy_interface (λ q n Φ _, wp_FreeInterfaces q n Φ)). Qed.
Lemma wp_copy_config x p l1 l2 : p ↦ inject (l1 ++ zero_element :: l2) ⊢ wp (A:=A) (copy_config x (p, length l1))
  (λ r, ∃ y, p ↦ inject (l1 ++ y :: l2) ∗ copied (config_at A y x) (config_owned y) r).
Proof.
  iIntros "Hp". iApply wp_bind. iApply wp_elem_update. iFrame "Hp". iIntros "Hp". iApply wp_bind. iApply wp_StrdupFromStd.
  iIntros (c) "Hc". iApply wp_bind. iApply wp_elem_update. iFrame "Hp". iIntros "Hp".
  iApply (wp_wand with "[Hp]"); [by iApply (wp_CopyInterfaces with "Hp")|].
  iIntros (r) "[[-> (%q & %n & Hp & He)]|[%Hr Hp]]"; iExists _; iFrame "Hp"; [iLeft|iRight]; (iSplit; [done|]).
  - iSplit; [done|]. iFrame.
  - iSplitL; [|done]. by iApply string_at_owned.
Qed.
Lemma wp_CopyConfigs x p l1 y l2 : p ↦ inject (l1 ++ y :: l2) ⊢ wp (A:=A) (CopyConfigs x (p, length l1))
  (copied (∃ q n, p ↦ inject (l1 ++ set_dv_configs q n y :: l2) ∗ array_at (config_at A) q n (UsbDevice.configs_ x))
          (p ↦ inject (l1 ++ y :: l2))).
Proof. apply (wp_copy_array _ _ _ _ (config_at_owned A) wp_copy_config (λ q n Φ _, wp_FreeConfigsArray q n Φ)). Qed.
Lemma wp_copy_device x p l1 l2 : p ↦ inject (l1 ++ zero_element :: l2) ⊢ wp (A:=A) (copy_device x (p, length l1))
  (λ r, ∃ y, p ↦ inject (l1 ++ y :: l2) ∗ copied (device_at A y x) (device_owned y) r).
Proof.
  iIntros "Hp". iApply wp_bind. iApply wp_elem_update. iFrame "Hp". iIntros "Hp".
  iApply wp_bind. iApply wp_StrdupFromStd. iIntros (c1) "H1". iApply wp_bind. iApply wp_StrdupFromStd. iIntros (c2) "H2".
  iApply wp_bind. iApply wp_StrdupFromStd. iIntros (c3) "H3". iApply wp_bind. iApply wp_StrdupFromStd. iIntros (c4) "H4".
  iApply wp_bind. iApply wp_elem_update. iFrame "Hp". iIntros "Hp".
  iApply (wp_wand with "[Hp]"); [by iApply (wp_CopyConfigs with "Hp")|].
  iIntros (r) "[[-> (%q & %n & Hp & He)]|[%Hr Hp]]"; iExists _; iFrame "Hp"; [iLeft|iRight]; (iSplit; [done|]).
  - iSplit; [done|]. iFrame.
  - rw !string_at_owned. iFrame.
Qed.
Lemma wp_copy_devices l : emp ⊢ wp (A:=A) (copy_devices l) (λ '(r, q, n),
  (<affine> ⌜r = OH_USBMANAGER_SUCCESS⌝ ∗ array_at (device_at A) q n l) ∨
  (<affine> ⌜r = OH_USBMANAGER_ERROR_NO_MEMORY ∧ q = None ∧ n = 0 ∧ may_fail (A:=A)⌝)).
Proof.
  iIntros "_". destruct l as [|x l]; [iApply wp_ret; by iLeft; iSplit|]. cbn [copy_devices]. set (l' := x :: l).
  iApply wp_bind. iApply wp_calloc. iIntros ([q|]) "Ho".
  - iApply wp_bind. rw -length_counted. iApply (wp_wand with "[Ho]").
    { iApply (wp_fill_or_free _ _ _ _ (device_at_owned A) wp_copy_device wp_FreeUsbDeviceList with "Ho"). }
    iIntros ([e|]) "H".
    + iDestruct "H" as %[-> Hf]. iApply wp_ret. by iRight.
    + iDestruct "H" as (a) "[Hq Ha]". iApply wp_ret. iLeft. iSplit; [done|]. iSplit; [done|]. iSplit; [done|]. iExists a. iFrame.
  - iDestruct "Ho" as %Ho. iApply wp_ret. by iRight.
Qed.

(** *** For those who do not use the proof mode *)

Lemma array_at_owned_holds q n l h : holds (array_at (device_at A) q n l) h → holds (array_owned device_owned q n) h.
Proof. intros H. destruct (array_at_owned _ _ q n l (device_at_owned A)) as [E]. by apply E. Qed.
Lemma wp_FreeUsbDeviceList_emp q n : n ≠ 0 →
  array_owned device_owned q n ⊢ wp (A:=A) (OH_UsbManager_FreeUsbDeviceList q n) (λ _, emp)%I.
Proof. iIntros (Hn) "H". iApply wp_FreeUsbDeviceList; [done|]. by iFrame. Qed.
End Rules.
