(* ===== verification/OhUsbManagerTheorems.v ===== *)
(** * The C interface: theorems

    Who owns the memory of a list of devices, for an allocator that may refuse at
    any call; and what each function gives its caller. *)
From S2P Require Import Prelude UsbErrors Platform UsbRightDatabase UsbRightManager UsbPortManager UsbDevice SerialManager UsbInterfaceType UsbHostManager UsbHostTransfer UsbService UsbServiceExamples UsbSrvClient UsbSrvServer UsbSrvClientExamples HeapLogic OhUsbManager OhUsbManagerProofs.

(** ** Memory *)

Section Theorems.
Context {S P A : Type} `{!IUsbServer S, !ClientPlatform P, !ErrCodeBase, !Malloc A, !MallocLaws A}.
Context (others : state (UsbSrvClient S P) ()).
Implicit Types m : OhUsb S P A.

Lemma ConvertErrCode_fails r : r ≠ UEC_OK → ConvertErrCode r ≠ OH_USBMANAGER_SUCCESS.
Proof. intros Hr. unfold ConvertErrCode. rewrite (proj2 (Z.eqb_neq _ _) Hr). by repeat case_match. Qed.

Lemma on_client_run {X} (f : state (UsbSrvClient S P) X) m x c : f (client m) = (x, c) →
  on_client f m = (x, {| client := c; memory := memory m; threads := threads m; answered := answered m |}).
Proof. intros Hf. unfold on_client, zoom. by rewrite Hf. Qed.
(** *** What [copy_devices] leaves *)
Lemma copy_devices_memory l (h : Mem A block) : bad h = false →
  ∃ r q n h' mine, copy_devices l h = ((r, q, n), h') ∧ bad h' = false ∧ heap h' = mine ∪ heap h ∧ mine ##ₘ heap h ∧
    (r = OH_USBMANAGER_SUCCESS ∧ holds (array_at (device_at A) q n l) mine ∨
     r = OH_USBMANAGER_ERROR_NO_MEMORY ∧ q = None ∧ n = 0 ∧ may_fail (A:=A) ∧ mine = ∅).
Proof.
  intros Hb. destruct (wp_sound (copy_devices l) _ _ h ∅ (heap h) (wp_copy_devices l)) as (mine & Hh & Hd & Hb' & Hpost);
    [done|by rewrite (left_id_L ∅ (∪))|apply map_disjoint_empty_l|done|].
  destruct (copy_devices l h) as [[[r q] n] h']. exists r, q, n, h', mine. do 4 (split; [done|]).
  destruct Hpost as [(h1 & h2 & -> & _ & Hr & Ha)|Hr].
  - left. destruct Hr as [-> Hr]. split; [done|]. by rewrite (left_id_L ∅ (∪)).
  - right. destruct Hr as [-> (-> & -> & -> & Hf)]. done.
Qed.
(** *** Giving it back, in any memory that still has it *)
Lemma free_memory q n l mine rest (h : Mem A block) : Z.of_nat (length l) < 2 ^ 32 →
  holds (array_at (device_at A) q n l) mine → heap h = mine ∪ rest → mine ##ₘ rest → bad h = false →
  heap (OH_UsbManager_FreeUsbDeviceList q n h).2 = rest ∧ bad (OH_UsbManager_FreeUsbDeviceList q n h).2 = false.
Proof.
  intros Hl Ha Hh Hd Hb. destruct (decide (n = 0)) as [->|Hn].
  - cut (mine = ∅); [intros ->; by rewrite (left_id_L ∅ (∪)) in Hh|].
    destruct Ha as (h1 & h2 & -> & _ & [-> H0] & Ha). destruct q as [p|].
    + destruct Ha as (h3 & h4 & -> & _ & [-> Hne] & _). assert (count_of l = 0) as Hc by done. unfold count_of in Hc.
      rewrite to_u32_id in Hc by (unfold in_u32; lia). by destruct l.
    + destruct Ha as [-> _]. by rewrite (left_id_L ∅ (∪)).
  - destruct (wp_sound (OH_UsbManager_FreeUsbDeviceList q n) (array_owned device_owned q n) (λ _, h_emp) h mine rest)
      as (h' & Hh' & _ & Hb' & Hemp); [|by eapply array_at_owned_holds|done..|].
    + by apply wp_FreeUsbDeviceList_emp.
    + rewrite Hh'. split; [|done]. assert (h' = ∅) as -> by done. by rewrite (left_id_L ∅ (∪)).
Qed.


(** ** The other functions *)

Ltac on_the_client := match goal with
  | |- context [on_client ?f ?m] =>
      let x := fresh "x" in let c := fresh "c" in let E := fresh "E" in
      destruct (f (client m)) as [x c] eqn:E; rewrite (on_client_run _ _ _ _ E); cbn [fst snd] in *
  end.

(** A null pointer is refused before anything else happens. *)
Theorem null_pointers_refused m :
  (∀ d n, d = None ∨ n = None →
    OH_UsbManager_GetUsbDeviceList others d n m = ((OH_USBMANAGER_ERROR_INVALID_PARAMETER, d, n), m)) ∧
  (∀ d p, d = None ∨ p = None →
    OH_UsbManager_ConnectDevice others d p m = ((OH_USBMANAGER_ERROR_INVALID_PARAMETER, p), m)) ∧
  (∀ n r, n = None ∨ r = None →
    OH_UsbManager_HasPermission others n r m = ((OH_USBMANAGER_ERROR_INVALID_PARAMETER, r), m)) ∧
  (∀ n cb x, n = None ∨ cb = None →
    OH_UsbManager_RequestPermission n cb x m = (OH_USBMANAGER_ERROR_INVALID_PARAMETER, m)) ∧
  (∀ p fd, p = None ∨ fd = None →
    OH_UsbManager_GetFileDescriptor others p fd m = ((OH_USBMANAGER_ERROR_INVALID_PARAMETER, fd), m)) ∧
  OH_UsbManager_ClosePipe others None m = (OH_USBMANAGER_ERROR_INVALID_PARAMETER, m).
Proof. split_and!; [..|done]; try (by intros [] [] [Hn|Hn]); by intros [] [] x [Hn|Hn]. Qed.

(** A pipe is given exactly with [OH_USBMANAGER_SUCCESS], and is the device's; a
    device that cannot be opened is an I/O error. *)
Theorem connect_gives_the_pipe d p m :
  let '((r, p'), m') := OH_UsbManager_ConnectDevice others (Some d) (Some p) m in
  memory m' = memory m ∧
  (r = OH_USBMANAGER_SUCCESS → p' = Some {| pp_busNum := dv_busNum d; pp_devAddress := dv_devAddress d |}) ∧
  (r ≠ OH_USBMANAGER_SUCCESS → p' = Some p).
Proof.
  unfold OH_UsbManager_ConnectDevice. rewrite bind_run. on_the_client. destruct x as [ret q].
  destruct (Z.eqb_spec ret UEC_OK) as [->|Hr]; cbn.
  - split; [done|]. split; [|done]. intros _. revert E. unfold OpenDevice, connected.
    run; intros Heq; simplify_eq; try done; by edestruct uec_not_OK.
  - split; [done|]. split; [|done]. intros Hs. unfold ConvertErrCodeForConnect in Hs. case_match; [done|].
    by apply ConvertErrCode_fails in Hr.
Qed.

(** *** Permission requests *)

(** Each answer says yes exactly when the service granted the right, and an error
    only for other codes than the refusal. *)
Theorem permission_answer m k n cb : threads m !! k = Some (n, cb) →
  let '(ret, c) := RequestRight others n (client m) in
  (run_thread others k m).2 = {| client := c; memory := memory m; threads := delete k (threads m);
    answered := (cb, (if (ret =? UEC_OK) || (ret =? uec UEC_SERVICE_PERMISSION_DENIED) then OH_USBMANAGER_SUCCESS
                      else OH_USBMANAGER_ERROR_SERVICE_EXCEPTION), ret =? UEC_OK) :: answered m |}.
Proof.
  intros Hk. destruct (RequestRight others n (client m)) as [ret c] eqn:E. unfold run_thread. rewrite bind_run. cbn [get fst snd].
  rewrite Hk, bind_run. unfold request_thread. rewrite bind_run. cbn [modify fst snd].
  erewrite on_client_run by exact E. cbn [fst snd]. by destruct (ret =? UEC_OK), (ret =? uec UEC_SERVICE_PERMISSION_DENIED).
Qed.
(** What was asked for and what has been answered, whatever order the threads run in. *)
Definition run_threads (ks : list nat) : state (OhUsb S P A) () := for_each (run_thread others) ks.
Theorem permission_callbacks_once ks m :
  (threads (run_threads ks m).2).*2 ++ (answered (run_threads ks m).2).*1.*1 ≡ₚ (threads m).*2 ++ (answered m).*1.*1.
Proof.
  unfold run_threads. revert m. induction ks as [|k ks IH]; intros m; [done|]. cbn [for_each]. rewrite bind_run, IH.
  destruct (threads m !! k) as [[n cb]|] eqn:Hk.
  - pose proof (permission_answer m k n cb Hk) as Hrun. destruct (RequestRight others n (client m)) as [ret c].
    rewrite Hrun. cbn. rewrite <- Permutation_middle. change (cb :: ?l) with ([cb] ++ l).
    rewrite (delete_Permutation (threads m) k (n, cb)) at 2 by done. done.
  - unfold run_thread. rewrite bind_run. cbn [get fst snd]. by rewrite Hk.
Qed.
End Theorems.

(** * The C interface: a concrete system

    A service with one device, and an allocator whose answers are planned. *)

#[local] Existing Instance demo_err_base.

(** The answers of [calloc] and [strdup] in advance; after them there is memory. *)
#[export] Instance planned_malloc : Malloc (list bool) := {
  malloc used := λ plan, match plan with false :: plan => (None, plan) | _ => (Some (fresh used), tail plan) end }.
#[export] Instance planned_laws : MallocLaws (list bool).
Proof. split. by intros used [|[] plan] p; [intros [= <-]; apply is_fresh..|]. Qed.
(** Only the [n]-th is refused. *)
Definition all_but (n : nat) : list bool := replicate n true ++ [false].

(** A service that has devices and refuses everything else. *)
Definition lists_devices : IUsbServer (list UsbDevice.t) := λ A p e s,
  match e in ServerCall A return A * list UsbDevice.t with
  | C_GetDevices _ => ((UEC_OK, s), s)
  | e => (left_alone e 1, s)
  end.
#[local] Existing Instance lists_devices.

(** A keyboard that asks for 500 mA. *)
Definition keyboard : UsbDevice.t := {|
  UsbDevice.name_ := "1-2"; UsbDevice.manufacturerName_ := "maker"; UsbDevice.productName_ := "keys";
  UsbDevice.version_ := "1.0"; UsbDevice.serial_ := "7"; UsbDevice.authorizeStatus_ := UsbDevice.ENABLED;
  UsbDevice.devAddr_ := 2; UsbDevice.busNum_ := 1; UsbDevice.descConfigCount_ := 1; UsbDevice.bMaxPacketSize0_ := 8;
  UsbDevice.bcdUSB_ := 512; UsbDevice.bcdDevice_ := 256; UsbDevice.iManufacturer_ := 1; UsbDevice.iProduct_ := 2;
  UsbDevice.iSerialNumber_ := 3; UsbDevice.vendorId_ := 4660; UsbDevice.productId_ := 1; UsbDevice.baseClass_ := 0;
  UsbDevice.subClass_ := 0; UsbDevice.protocol_ := 0;
  UsbDevice.configs_ := [ {| USBConfig.id_ := 1; USBConfig.attributes_ := 128; USBConfig.interfaces_ := [interface_number 0];
                             USBConfig.maxPower_ := 250; USBConfig.name_ := ""; USBConfig.iConfiguration_ := 0 |} ] |}.
Definition unused_memory (plan : list bool) : Mem (list bool) block := {| heap := ∅; bad := false; allocator := plan |}.
Definition program (plan : list bool) : OhUsb (list UsbDevice.t) (option RemoteObject) (list bool) := {|
  client := {| proxy_ := None; deathRecipient_ := 0; claimCallback_ := None; serialRemote_ := None; accessoryRemote_ := None;
               watched_ := []; heard_ := []; server_ := [keyboard]; platform_ := Some the_service |};
  memory := unused_memory plan; threads := []; answered := [] |}.
Definition nobody : state (UsbSrvClient (list UsbDevice.t) (option RemoteObject)) () := mret ().
Definition list_devices (plan : list bool) := OH_UsbManager_GetUsbDeviceList nobody (Some None) (Some 9) (program plan).
Definition summary (plan : list bool) : Z * option Z * nat * bool :=
  let '((r, q, n), m) := list_devices plan in (r, n, length (map_to_list (heap (memory m))), bad (memory m)).

(** Ten blocks: the device, its four strings, the configuration with its name, the
    interface with its name, and the endpoints. *)
Example ten_blocks : summary [] = (OH_USBMANAGER_SUCCESS, Some 1, 10%nat, false).
Proof. vm_compute. reflexivity. Qed.
(** An array that is missing ends the request, with nothing left behind. *)
Example a_missing_array :
  map (λ n, summary (all_but n)) [0; 5; 7; 9]%nat = replicate 4 (OH_USBMANAGER_ERROR_NO_MEMORY, Some 0, O, false).
Proof. vm_compute. reflexivity. Qed.
(** A string that is missing is not reported: it is empty. *)
Example a_missing_string :
  map (λ n, summary (all_but n)) [1; 2; 3; 4; 6; 8]%nat = replicate 6 (OH_USBMANAGER_SUCCESS, Some 1, 9%nat, false).
Proof. vm_compute. reflexivity. Qed.
(** The 500 mA of the configuration become 244. *)
Definition max_powers (m : OhUsb (list UsbDevice.t) (option RemoteObject) (list bool)) : list Z :=
  map_to_list (heap (memory m)) ≫= λ '(_, b), match b with BConfigs l => map cf_maxPower l | _ => [] end.
Example half_an_ampere : (map USBConfig.GetMaxPower (UsbDevice.configs_ keyboard), max_powers (list_devices []).2) = ([500], [244]).
Proof. vm_compute. reflexivity. Qed.
(** What was given is freed to the last block. *)
Example freed :
  let '((r, q, n), m) := list_devices [] in
  let m' := (OH_UsbManager_FreeUsbDeviceList (default None q) (default 0 n) (memory m)).2 in
  (map_to_list (heap m'), bad m') = ([], false).
Proof. vm_compute. reflexivity. Qed.
(** To free it twice is an error of the program that the model sees. *)
Example freed_twice :
  let '((r, q, n), m) := list_devices [] in
  let free := OH_UsbManager_FreeUsbDeviceList (default None q) (default 0 n) in
  bad (free (free (memory m)).2).2 = true.
Proof. vm_compute. reflexivity. Qed.

