(* ===== verification/UsbCli.v ===== *)
(** * The command-line tool (tools/ohos-usbManager)

    usb_cli.cpp and usb_cli_serialization.cpp: the tool asks the client library for a
    list and prints it as JSON.  Any allocation of the JSON library may fail. *)
From S2P Require Import Prelude UsbErrors Platform UsbAccessory UsbDevice UsbHostTransfer UsbService UsbServiceSerial UsbSrvClient.

Definition CLASS_HUB : Z := 0x09.
Definition TOOL_VERSION : string := "1.0.0".
Definition TOOL_NAME : string := "ohos-usbManager".
Definition CMD_GET_DEVICE_LIST : string := "get-device-list".
Definition CMD_GET_ACCESSORY_LIST : string := "get-accessory-list".
Definition CMD_GET_USBSERIAL_LIST : string := "get-serial-list".

(** A text in quotation marks. *)
Definition quoted (s : string) : string := let q := String (ascii_of_nat 34) "" in q +:+ s +:+ q.
(** A member of an object whose value is a text. *)
Definition text_member (k v : string) : string := quoted k +:+ ":" +:+ quoted v.
Definition JSON_ERR_STR : string :=
  "{" +:+ text_member "type" "result" +:+ "," +:+ text_member "status" "failed" +:+ "," +:+ text_member "errCode" "" +:+ "," +:+
  text_member "errMsg" "" +:+ "," +:+ text_member "suggestion" "" +:+ "}".

(** ** Serialisation (usb_cli_serialization.cpp) *)

(** Whether the JSON library gets what it needs for its next call. *)
Class CJsonMemory (J : Type) := json_room : state J bool.

Section Serialization.
Context {J : Type} `{!CJson, !CJsonMemory J, !ErrCodeBase}.
Abbreviation M := (state J).
Abbreviation members := (list (string * cjson)).

(** [cJSON_AddNumberToObject], [cJSON_AddStringToObject], [cJSON_AddBoolToObject] and
    [cJSON_AddItemToObject] with the results ignored: a member that finds no memory
    is missing. *)
Definition add_member (kvs : members) (kv : string * cjson) : M members :=
  ok ← json_room; mret (if (ok : bool) then kvs ++ [kv] else kvs).
Fixpoint add_members (kvs : members) (l : members) : M members :=
  match l with [] => mret kvs | kv :: l => kvs ← add_member kvs kv; add_members kvs l end.
(** The loop that adds the children that could be made. *)
Fixpoint add_items {X} (serialize : X → M (option cjson)) (l : list X) (array : list cjson) : M (list cjson) :=
  match l with
  | [] => mret array
  | x :: l =>
      item ← serialize x;
      match item with
      | None => add_items serialize l array
      | Some j => ok ← json_room; add_items serialize l (if (ok : bool) then array ++ [j] else array)
      end
  end.

Definition SerializeEndpoint (e : USBEndpoint.t) : M (option cjson) :=
  json ← json_room;
  if negb json then mret None else
  kvs ← add_members [] [
    ("address", JNumber (USBEndpoint.address_ e)); ("attributes", JNumber (USBEndpoint.attributes_ e));
    ("interval", JNumber (USBEndpoint.interval_ e)); ("maxPacketSize", JNumber (USBEndpoint.maxPacketSize_ e));
    ("direction", JNumber (USBEndpoint.GetDirection e)); ("number", JNumber (USBEndpoint.GetEndpointNumber e));
    ("type", JNumber (USBEndpoint.GetType e)); ("interfaceId", JNumber (USBEndpoint.interfaceId_ e))];
  mret (Some (JObject kvs)).
Definition SerializeInterface (i : UsbInterface.t) : M (option cjson) :=
  json ← json_room;
  if negb json then mret None else
  kvs ← add_members [] [
    ("id", JNumber (UsbInterface.id_ i)); ("protocol", JNumber (UsbInterface.protocol_ i));
    ("clazz", JNumber (UsbInterface.klass_ i)); ("subClass", JNumber (UsbInterface.subClass_ i));
    ("alternateSetting", JNumber (UsbInterface.alternateSetting_ i)); ("name", JString (c_str (UsbInterface.name_ i)))];
  endpoints ← json_room;
  if negb endpoints then mret None else
  eps ← add_items SerializeEndpoint (UsbInterface.endpoints_ i) [];
  ok ← json_room;
  if negb ok then mret None else mret (Some (JObject (kvs ++ [("endpoints", JArray eps)]))).
Definition SerializeConfig (c : USBConfig.t) : M (option cjson) :=
  json ← json_room;
  if negb json then mret None else
  kvs ← add_members [] [
    ("id", JNumber (USBConfig.id_ c)); ("attributes", JNumber (USBConfig.attributes_ c));
    ("maxPower", JNumber (USBConfig.GetMaxPower c)); ("name", JString (c_str (USBConfig.name_ c)));
    ("isRemoteWakeup", JBool (USBConfig.IsRemoteWakeup c)); ("isSelfPowered", JBool (USBConfig.IsSelfPowered c))];
  interfaces ← json_room;
  if negb interfaces then mret None else
  infs ← add_items (λ i, match USBConfig.GetInterface (Z.of_nat i) c with
                         | Some iface => SerializeInterface iface | None => mret None end)
           (seq 0 (length (USBConfig.interfaces_ c))) [];
  kvs ← add_member kvs ("interfaces", JArray infs);
  mret (Some (JObject kvs)).
Definition SerializeDevice (d : UsbDevice.t) : M (option cjson) :=
  json ← json_room;
  if negb json then mret None else
  kvs ← add_members [] [
    ("busNum", JNumber (UsbDevice.busNum_ d)); ("devAddress", JNumber (UsbDevice.devAddr_ d)); ("serial", JString "");
    ("name", JString (c_str (UsbDevice.name_ d))); ("manufacturerName", JString (c_str (UsbDevice.manufacturerName_ d)));
    ("productName", JString (c_str (UsbDevice.productName_ d))); ("version", JString (c_str (UsbDevice.version_ d)));
    ("vendorId", JNumber (UsbDevice.vendorId_ d)); ("productId", JNumber (UsbDevice.productId_ d));
    ("clazz", JNumber (UsbDevice.baseClass_ d)); ("subClass", JNumber (UsbDevice.subClass_ d));
    ("protocol", JNumber (UsbDevice.protocol_ d))];
  configs ← json_room;
  if negb configs then mret None else
  cfgs ← add_items SerializeConfig (UsbDevice.configs_ d) [];
  kvs ← add_member kvs ("configs", JArray cfgs);
  mret (Some (JObject kvs)).
Definition SerializeAccessory (a : USBAccessory) : M (option cjson) :=
  json ← json_room;
  if negb json then mret None else
  kvs ← add_members [] [
    ("manufacturer", JString (c_str (manufacturer_ a))); ("product", JString (c_str (product_ a)));
    ("description", JString (c_str (description_ a))); ("version", JString (c_str (version_ a)));
    ("serialNumber", JString "")];
  mret (Some (JObject kvs)).
Definition SerializeSerialPort (p : UsbSerialPort) : M (option cjson) :=
  json ← json_room;
  if negb json then mret None else
  let deviceName := pretty (serial_busNum_ p) +:+ "-" +:+ pretty (serial_devAddr_ p) in
  kvs ← add_members [] [("portId", JNumber (serial_portId_ p)); ("deviceName", JString deviceName)];
  mret (Some (JObject kvs)).

(** [cJSON_PrintUnformatted(root)], which allocates the text. *)
Definition print_root (root : cjson) : M string :=
  ok ← json_room;
  mret (if (ok : bool) then match cJSON_PrintUnformatted root with Some s => s | None => JSON_ERR_STR end else JSON_ERR_STR).
(** A null pointer in [items] is passed over. *)
Definition FormatSuccess (items : list (option cjson)) : M string :=
  root ← json_room;
  if negb root then mret JSON_ERR_STR else
  kvs ← add_members [] [("type", JString "result"); ("status", JString "success")];
  data ← json_room;
  if negb data then mret JSON_ERR_STR else
  list ← json_room;
  if negb list then mret JSON_ERR_STR else
  items ← add_items (λ item, mret item) items [];
  dkvs ← add_members [] [("number", JNumber (Z.of_nat (length items))); ("list", JArray items)];
  kvs ← add_member kvs ("data", JObject dkvs);
  print_root (JObject kvs).

Definition GetErrorCodeString (code : Z) : string :=
  if code =? 1 then "MISSING_SUBCOMMAND"
  else if code =? 2 then "UNKNOWN_SUBCOMMAND"
  else if (code =? uec UEC_INTERFACE_NO_INIT) || (code =? uec UEC_SERVICE_NO_INIT) then "USB_SERVICE_UNAVAILABLE"
  else if (code =? uec UEC_INTERFACE_PERMISSION_DENIED) || (code =? uec UEC_SERVICE_PERMISSION_DENIED) then "PERMISSION_DENIED"
  else if code =? uec UEC_SERIAL_PORT_NOT_EXIST then "SERIAL_PORT_NOT_FOUND"
  else "QUERY_FAILED".
Definition GetErrorSuggestion (code : Z) : string :=
  if code =? 1 then "Run './ohos-usbManager --help' for available commands."
  else "Please check if the device is connected and the connection is normal.".
Definition FormatError (code : Z) (message : string) : M string :=
  root ← json_room;
  if negb root then mret JSON_ERR_STR else
  kvs ← add_members [] [
    ("type", JString "result"); ("status", JString "failed"); ("errCode", JString (GetErrorCodeString code));
    ("errMsg", JString message); ("suggestion", JString (GetErrorSuggestion code))];
  print_root (JObject kvs).
End Serialization.

(** ** The program (usb_cli.cpp) *)

Record Cli (S P J : Type) := {
  cli_client : UsbSrvClient S P;   (* [UsbSrvClient::GetInstance()] *)
  cli_json : J;                    (* the JSON library *)
  cout : list string;              (* the lines printed *)
}.
Arguments cli_client {S P J} _.
Arguments cli_json {S P J} _.
Arguments cout {S P J} _.

Section Program.
Context {S P J : Type} `{!IUsbServer S, !ClientPlatform P, !CJson, !CJsonMemory J, !ErrCodeBase}.
Context (others : state (UsbSrvClient S P) ()).
Abbreviation M := (state (Cli S P J)).

Definition ask {X} : state (UsbSrvClient S P) X → M X :=
  zoom cli_client (λ c m, {| cli_client := c; cli_json := cli_json m; cout := cout m |}).
Definition make {X} : state J X → M X :=
  zoom cli_json (λ j m, {| cli_client := cli_client m; cli_json := j; cout := cout m |}).
Definition print_lines (l : list string) : M () :=
  modify (λ m, {| cli_client := cli_client m; cli_json := cli_json m; cout := cout m ++ l |}).
(** [std::cout << f << std::endl] *)
Definition print_made (f : state J string) : M () := s ← make f; print_lines [s].

Definition PrintMainHelp : M () := print_lines [
  "Usage: " +:+ TOOL_NAME +:+ " [--help] [--version] <subcommand>"; ""; "Parameters:";
  "  --help              Show this help message"; "  --version           Show version information";
  "  get-device-list     List all attached USB peripheral devices";
  "  get-accessory-list  List all connected USB accessories"; "  get-serial-list  List all available serial ports";
  ""; "Examples:"; "  " +:+ TOOL_NAME +:+ " get-device-list"; "  " +:+ TOOL_NAME +:+ " get-accessory-list";
  "  " +:+ TOOL_NAME +:+ " get-serial-list"].
(** [PrintDeviceListHelp], [PrintAccessoryListHelp] and [PrintSerialListHelp], which
    differ in the name. *)
Definition PrintSubcommandHelp (command : string) : M () := print_lines [
  "Usage: " +:+ TOOL_NAME +:+ " " +:+ command +:+ " [--help] [--version]"; ""; "Parameters:";
  "  --help      Show this help message"; "  --version   Show version information"; ""; "Examples:";
  "  " +:+ TOOL_NAME +:+ " " +:+ command].
Definition PrintVersion : M () := print_lines [TOOL_NAME +:+ " version " +:+ TOOL_VERSION].

(** [argv], with the name of the program first. *)
Definition HasFlag (argv : list string) (flag : string) : bool := existsb (λ a, bool_decide (a = flag)) (tail argv).

Definition HandleGetDeviceList : M Z :=
  '(ret, deviceList) ← ask (GetDevices others []);
  if negb (ret =? 0) then print_made (FormatError ret "Query failed");; mret 1 else
  items ← make (mapM SerializeDevice (List.filter (λ d, negb (UsbDevice.baseClass_ d =? CLASS_HUB)) deviceList));
  print_made (FormatSuccess items);;
  mret 0.
Definition HandleGetAccessoryList : M Z :=
  '(ret, accessList) ← ask (GetAccessoryList others []);
  if negb (ret =? 0) then print_made (FormatError ret "Query failed");; mret 1 else
  items ← make (mapM SerializeAccessory accessList);
  print_made (FormatSuccess items);;
  mret 0.
Definition HandleGetSerialList : M Z :=
  '(ret, serialPortList) ← ask (SerialGetPortList others []);
  if negb (ret =? 0) then print_made (FormatError ret "Query failed");; mret 1 else
  items ← make (mapM SerializeSerialPort serialPortList);
  print_made (FormatSuccess items);;
  mret 0.

Definition PreprocessArgs (argv : list string) : M Z :=
  if (length argv <? 2)%nat
  then print_made (FormatError 1 "Missing subcommand. Please specify a subcommand to execute.");; mret (-1) else
  if HasFlag argv "--help" then PrintMainHelp;; mret 0 else
  if HasFlag argv "--version" then PrintVersion;; mret 0 else
  mret 1.
(** A subcommand in [main], with its tests for the flags. *)
Definition run_subcommand (argv : list string) (command : string) (handle : M Z) : M Z :=
  if HasFlag argv "--help" then PrintSubcommandHelp command;; mret 0 else
  if HasFlag argv "--version" then PrintVersion;; mret 0 else
  handle.
(** The first argument of [main] is there when [PreprocessArgs] lets it go on. *)
Definition main (argv : list string) : M Z :=
  ret ← PreprocessArgs argv;
  if ret <=? 0 then mret ret else
  match argv !! 1%nat with
  | None => mret ret
  | Some subcommand =>
      if bool_decide (subcommand = CMD_GET_DEVICE_LIST) then run_subcommand argv CMD_GET_DEVICE_LIST HandleGetDeviceList else
      if bool_decide (subcommand = CMD_GET_ACCESSORY_LIST) then run_subcommand argv CMD_GET_ACCESSORY_LIST HandleGetAccessoryList else
      if bool_decide (subcommand = CMD_GET_USBSERIAL_LIST) then run_subcommand argv CMD_GET_USBSERIAL_LIST HandleGetSerialList else
      print_made (FormatError 2 ("Unknown subcommand: " +:+ subcommand));;
      mret 1
  end.
End Program.
