(* ===== verification/UsbCliTheorems.v ===== *)
(** * The command-line tool: theorems

    What the tool prints has the form that ohos-usbManager.json documents, whichever
    allocation of the JSON library fails, and with memory it is exactly the list. *)
From S2P Require Import Prelude UsbErrors Platform UsbAccessory UsbRightDatabase UsbRightManager UsbPortManager UsbDevice SerialManager UsbInterfaceType UsbHostManager UsbHostTransfer UsbService UsbServiceSerial UsbServiceExamples UsbSrvClient UsbSrvServer UsbSrvClientExamples HeapLogic OhUsbManager OhUsbManagerTheorems UsbCli.

(** ** Schemas *)

Inductive schema :=
  | SInteger | SBoolean | SString
  | SArray (items : schema)
  | SObject (properties : list (string * schema)).
(** No member is without a property.  No member is required: any may find no memory. *)
Fixpoint conforms (t : schema) (j : cjson) : bool :=
  match t, j with
  | SInteger, JNumber _ | SBoolean, JBool _ | SString, JString _ => true
  | SArray t, JArray l => forallb (conforms t) l
  | SObject properties, JObject kvs =>
      forallb (λ kv, (fix look (properties : list (string * schema)) := match properties with
        | [] => false
        | (k, t) :: properties => if bool_decide (k = kv.1) then conforms t kv.2 else look properties
        end) properties) kvs
  | _, _ => false
  end.
(** A member that has a place among the properties. *)
Definition fits (properties : list (string * schema)) (kv : string * cjson) : bool := conforms (SObject properties) (JObject [kv]).

(** *** The output schemas of ohos-usbManager.json *)

Definition endpoint_properties : list (string * schema) := [
  ("address", SInteger); ("attributes", SInteger); ("interval", SInteger); ("maxPacketSize", SInteger);
  ("direction", SInteger); ("number", SInteger); ("type", SInteger); ("interfaceId", SInteger)].
Definition interface_properties : list (string * schema) := [
  ("id", SInteger); ("protocol", SInteger); ("clazz", SInteger); ("subClass", SInteger); ("alternateSetting", SInteger);
  ("name", SString); ("endpoints", SArray (SObject endpoint_properties))].
Definition config_properties : list (string * schema) := [
  ("id", SInteger); ("attributes", SInteger); ("isRemoteWakeup", SBoolean); ("isSelfPowered", SBoolean); ("maxPower", SInteger);
  ("name", SString); ("interfaces", SArray (SObject interface_properties))].
Definition device_properties : list (string * schema) := [
  ("name", SString); ("serial", SString); ("manufacturerName", SString); ("productName", SString); ("version", SString);
  ("vendorId", SInteger); ("productId", SInteger); ("clazz", SInteger); ("subClass", SInteger); ("protocol", SInteger);
  ("devAddress", SInteger); ("busNum", SInteger); ("configs", SArray (SObject config_properties))].
Definition accessory_properties : list (string * schema) := [
  ("manufacturer", SString); ("product", SString); ("description", SString); ("version", SString); ("serialNumber", SString)].
Definition port_properties : list (string * schema) := [("portId", SInteger); ("deviceName", SString)].
Definition data_properties (item : schema) : list (string * schema) := [("number", SInteger); ("list", SArray item)].
Definition output_properties (item : schema) : list (string * schema) := [
  ("type", SString); ("status", SString); ("data", SObject (data_properties item)); ("errCode", SString); ("errMsg", SString);
  ("suggestion", SString)].

Lemma conforms_object ps kvs : conforms (SObject ps) (JObject kvs) = forallb (fits ps) kvs.
Proof.
  induction kvs as [|kv kvs IH]; [done|]. cbn in *. rewrite <- IH. unfold fits. cbn. by rewrite andb_true_r.
Qed.

Fixpoint property (ps : list (string * schema)) (k : string) : option schema :=
  match ps with [] => None | (k', t) :: ps => if bool_decide (k' = k) then Some t else property ps k end.
Lemma fits_property ps k j : fits ps (k, j) = match property ps k with Some t => conforms t j | None => false end.
Proof.
  unfold fits. cbn. rewrite andb_true_r. induction ps as [|[k' t] ps IH]; cbn; [done|]. by case_bool_decide.
Qed.

(** ** What a computation gives, whatever the memory does *)

Definition Gives {J A} (Q : A → Prop) (f : state J A) : Prop := ∀ s, Q (f s).1.
Section Gives.
Context {J : Type}.
Lemma gives_ret {A} (Q : A → Prop) a : Q a → Gives Q (mret a : state J A).
Proof. by intros HQ s. Qed.
Lemma gives_bind {A B} (R : A → Prop) (Q : B → Prop) (f : state J A) (g : A → state J B) :
  Gives R f → (∀ a, R a → Gives Q (g a)) → Gives Q (f ≫= g).
Proof. intros Hf Hg s. rewrite bind_run. apply Hg, Hf. Qed.
Lemma gives_any {A B} (Q : B → Prop) (f : state J A) (g : A → state J B) : (∀ a, Gives Q (g a)) → Gives Q (f ≫= g).
Proof. intros Hg. by apply (gives_bind (λ _, True)). Qed.
Lemma gives_if {A} (Q : A → Prop) (b : bool) (f g : state J A) : Gives Q f → Gives Q g → Gives Q (if b then f else g).
Proof. by destruct b. Qed.
Lemma gives_mapM {A B} (Q : B → Prop) (f : A → state J B) l : (∀ x, Gives Q (f x)) → Gives (Forall Q) (mapM f l).
Proof.
  intros Hf. induction l as [|x l IH]; cbn; [by apply gives_ret|]. eapply gives_bind; [apply Hf|]. intros y Hy.
  eapply gives_bind; [apply IH|]. intros ys Hys. apply gives_ret. by constructor.
Qed.
End Gives.

Section Theorems.
Context {J : Type} `{!CJson, !CJsonMemory J, !ErrCodeBase}.

Lemma add_members_fit ps kvs l : forallb (fits ps) kvs = true → forallb (fits ps) l = true →
  Gives (λ kvs, forallb (fits ps) kvs = true) (add_members (J:=J) kvs l).
Proof.
  revert kvs. induction l as [|kv l IH]; intros kvs Hk Hl; cbn; [by apply gives_ret|]. apply andb_true_iff in Hl as [Hkv Hl].
  eapply (gives_bind (λ kvs, forallb (fits ps) kvs = true)); [|intros kvs' Hk'; by apply IH].
  apply gives_any. intros [|]; apply gives_ret; [|done]. rewrite forallb_app, Hk. cbn [forallb]. by rewrite Hkv.
Qed.
Lemma add_items_conform {X} (t : schema) (serialize : X → state J (option cjson)) l array :
  Forall (λ x, Gives (λ o, ∀ j, o = Some j → conforms t j = true) (serialize x)) l → forallb (conforms t) array = true →
  Gives (λ array, forallb (conforms t) array = true) (add_items serialize l array).
Proof.
  intros Hf. revert array. induction Hf as [|x l Hx Hf IH]; intros array Ha; cbn; [by apply gives_ret|].
  eapply gives_bind; [apply Hx|]. intros [j|] Hj; [|by apply IH]. apply gives_any. intros [|]; apply IH; [|done].
  rewrite forallb_app, Ha. cbn [forallb]. by rewrite Hj.
Qed.

(** *** Each serialisation *)
Abbreviation made ps := (Gives (λ o, ∀ j, o = Some j → conforms (SObject ps) j = true)).
Lemma gives_none ps : made ps (mret None : state J _).
Proof. by apply gives_ret. Qed.
Lemma gives_object ps kvs : forallb (fits ps) kvs = true → made ps (mret (Some (JObject kvs)) : state J _).
Proof. intros Hk. apply gives_ret. intros j [= <-]. by rewrite conforms_object. Qed.

(** One step through a serialisation. *)
Ltac serialized ps := match goal with
  | |- Gives _ (json_room ≫= _) => apply gives_any; intros []; cbn [negb]; [|by apply gives_none]
  | |- Gives _ (add_members _ _ ≫= _) => eapply gives_bind; [apply (add_members_fit ps); reflexivity|]; intros kvs Hkvs; cbn beta in Hkvs
  | |- Gives _ (mret (Some _)) => by apply gives_object
  end.
Lemma SerializeEndpoint_made e : made endpoint_properties (SerializeEndpoint (J:=J) e).
Proof. unfold SerializeEndpoint. do 3 serialized endpoint_properties. Qed.
(** The loop over the children, whose array becomes the last member. *)
Lemma add_children {X} ps k t (serialize : X → state J (option cjson)) l kvs :
  (∀ x, Gives (λ o, ∀ j, o = Some j → conforms t j = true) (serialize x)) →
  property ps k = Some (SArray t) → forallb (fits ps) kvs = true →
  Gives (λ array, forallb (fits ps) (kvs ++ [(k, JArray array)]) = true) (add_items serialize l []).
Proof.
  intros Hs Hf Hk s. rewrite forallb_app, Hk. cbn [forallb]. rewrite fits_property, Hf, andb_true_r.
  apply (add_items_conform t serialize l []); [by apply Forall_forall; intros ? _|done].
Qed.
Lemma gives_last ps kvs kv : forallb (fits ps) kvs = true → forallb (fits ps) (kvs ++ [kv]) = true →
  made ps (kvs ← add_member kvs kv; mret (Some (JObject kvs)) : state J _).
Proof.
  intros Hk Hkv. unfold add_member. intros s. rewrite !bind_run, !ret_run. cbn [fst snd]. intros j [= <-]. rewrite conforms_object.
  by case_match.
Qed.

Lemma SerializeInterface_made i : made interface_properties (SerializeInterface (J:=J) i).
Proof.
  unfold SerializeInterface. do 3 serialized interface_properties. eapply gives_bind.
  { eapply (add_children interface_properties "endpoints"); [exact SerializeEndpoint_made|reflexivity|done]. }
  intros eps Heps. do 2 serialized interface_properties.
Qed.
Lemma SerializeConfig_made c : made config_properties (SerializeConfig (J:=J) c).
Proof.
  unfold SerializeConfig. do 3 serialized config_properties. eapply gives_bind.
  { eapply (add_children config_properties "interfaces"); [|reflexivity|done].
    intros n. case_match; [apply SerializeInterface_made|apply gives_none]. }
  intros infs Hinfs. by apply gives_last.
Qed.
Lemma SerializeDevice_made d : made device_properties (SerializeDevice (J:=J) d).
Proof.
  unfold SerializeDevice. do 3 serialized device_properties. eapply gives_bind.
  { eapply (add_children device_properties "configs"); [exact SerializeConfig_made|reflexivity|done]. }
  intros cfgs Hcfgs. by apply gives_last.
Qed.
Lemma SerializeAccessory_made a : made accessory_properties (SerializeAccessory (J:=J) a).
Proof. unfold SerializeAccessory. do 3 serialized accessory_properties. Qed.
Lemma SerializeSerialPort_made p : made port_properties (SerializeSerialPort (J:=J) p).
Proof. unfold SerializeSerialPort. do 3 serialized port_properties. Qed.

(** ** What is printed *)

(** The text of an object of that form, in which [number] is the length of [list]. *)
Definition counts (kvs : list (string * cjson)) : Prop :=
  ∀ data n l, ("data", JObject data) ∈ kvs → ("number", JNumber n) ∈ data → ("list", JArray l) ∈ data → n = Z.of_nat (length l).
Definition documented (item : schema) (s : string) : Prop :=
  s = JSON_ERR_STR ∨ ∃ kvs, cJSON_PrintUnformatted (JObject kvs) = Some s ∧
    conforms (SObject (output_properties item)) (JObject kvs) = true ∧ counts kvs.

(** A last member that may be missing. *)
Lemma add_member_gives (Q : list (string * cjson) → Prop) kvs kv : Q kvs → Q (kvs ++ [kv]) → Gives Q (add_member (J:=J) kvs kv).
Proof. intros H1 H2. apply gives_any. by intros [|]; apply gives_ret. Qed.
Lemma print_root_documented item kvs : forallb (fits (output_properties item)) kvs = true → counts kvs →
  Gives (documented item) (print_root (J:=J) (JObject kvs)).
Proof.
  intros Hk Hc. apply gives_any. intros [|]; apply gives_ret; [|by left]. destruct (cJSON_PrintUnformatted _) as [s|] eqn:Hs; [|by left].
  right. exists kvs. by rewrite conforms_object.
Qed.
(** Members are kept or lost; none is added. *)
Lemma add_members_subset kvs l : Gives (λ kvs', ∀ kv, kv ∈ kvs' → kv ∈ kvs ++ l) (add_members (J:=J) kvs l).
Proof.
  revert kvs. induction l as [|kv l IH]; intros kvs; cbn; [apply gives_ret; set_solver|].
  eapply (gives_bind (λ kvs', ∀ kv', kv' ∈ kvs' → kv' ∈ kvs ++ [kv])).
  - apply gives_any. intros [|]; apply gives_ret; set_solver.
  - intros kvs' Hk s kv' Hkv. specialize (IH kvs' s kv' Hkv). set_solver.
Qed.
Lemma no_data kvs : Forall (λ kv, kv.1 ≠ "data") kvs → counts kvs.
Proof. rewrite Forall_forall. intros Hk data n l Hd. by apply Hk in Hd. Qed.
Lemma gives_and {A} (Q R : A → Prop) (f : state J A) : Gives Q f → Gives R f → Gives (λ a, Q a ∧ R a) f.
Proof. intros HQ HR s. by split. Qed.

Theorem FormatError_documented item code message : Gives (documented item) (FormatError (J:=J) code message).
Proof.
  apply gives_any. intros []; cbn [negb]; [|apply gives_ret; by left].
  eapply gives_bind; [apply gives_and; [by apply (add_members_fit (output_properties item))|apply add_members_subset]|].
  intros kvs [Hk Hs]. apply print_root_documented; [done|]. apply no_data, Forall_forall. intros kv Hkv. apply Hs in Hkv.
  cbn in Hkv. set_solver.
Qed.
Theorem FormatSuccess_documented t items : Forall (λ o, ∀ j, o = Some j → conforms t j = true) items →
  Gives (documented t) (FormatSuccess (J:=J) items).
Proof.
  intros Hi. unfold FormatSuccess. apply gives_any. intros []; cbn [negb]; [|apply gives_ret; by left].
  eapply gives_bind; [apply gives_and; [by apply (add_members_fit (output_properties t))|apply add_members_subset]|].
  intros kvs [Hk Hs]. do 2 (apply gives_any; intros []; cbn [negb]; [|apply gives_ret; by left]).
  eapply gives_bind; [apply (add_items_conform t); [|done]; eapply Forall_impl; [exact Hi|]; by intros o Ho; apply gives_ret|].
  intros l Hl.
  eapply gives_bind; [apply gives_and; [apply (add_members_fit (data_properties t)); [done|]|apply add_members_subset]|].
  { cbn [forallb]. rewrite !fits_property, andb_true_r. exact Hl. }
  intros data [Hd Hds]. eapply (gives_bind (λ kvs, forallb (fits (output_properties t)) kvs = true ∧ counts kvs)).
  - assert (Forall (λ kv, kv.1 ≠ "data") kvs) as Hno.
    { apply Forall_forall. intros kv Hkv. apply Hs in Hkv. cbn in Hkv. set_solver. }
    apply add_member_gives; (split; [|]).
    + done.
    + by apply no_data.
    + rewrite forallb_app, Hk. cbn [forallb]. rewrite fits_property. change (conforms (SObject (data_properties t)) (JObject data) && true = true). by rewrite conforms_object, Hd.
    + intros data' n l' Hin Hn Hl'. apply elem_of_app in Hin as [Hin|Hin].
      * rewrite Forall_forall in Hno. by apply Hno in Hin.
      * apply list_elem_of_singleton in Hin as [= ->]. apply Hds in Hn, Hl'. cbn in Hn, Hl'. set_solver.
  - intros kvs' [Hk' Hc']. by apply print_root_documented.
Qed.
End Theorems.

(** ** With memory: exactly the list *)

(** *** Reference trees *)
Definition endpoint_tree (e : USBEndpoint.t) : cjson := JObject [
  ("address", JNumber (USBEndpoint.address_ e)); ("attributes", JNumber (USBEndpoint.attributes_ e));
  ("interval", JNumber (USBEndpoint.interval_ e)); ("maxPacketSize", JNumber (USBEndpoint.maxPacketSize_ e));
  ("direction", JNumber (USBEndpoint.GetDirection e)); ("number", JNumber (USBEndpoint.GetEndpointNumber e));
  ("type", JNumber (USBEndpoint.GetType e)); ("interfaceId", JNumber (USBEndpoint.interfaceId_ e))].
Definition interface_tree (i : UsbInterface.t) : cjson := JObject [
  ("id", JNumber (UsbInterface.id_ i)); ("protocol", JNumber (UsbInterface.protocol_ i)); ("clazz", JNumber (UsbInterface.klass_ i));
  ("subClass", JNumber (UsbInterface.subClass_ i)); ("alternateSetting", JNumber (UsbInterface.alternateSetting_ i));
  ("name", JString (c_str (UsbInterface.name_ i))); ("endpoints", JArray (map endpoint_tree (UsbInterface.endpoints_ i)))].
Definition config_tree (c : USBConfig.t) : cjson := JObject [
  ("id", JNumber (USBConfig.id_ c)); ("attributes", JNumber (USBConfig.attributes_ c)); ("maxPower", JNumber (USBConfig.GetMaxPower c));
  ("name", JString (c_str (USBConfig.name_ c))); ("isRemoteWakeup", JBool (USBConfig.IsRemoteWakeup c));
  ("isSelfPowered", JBool (USBConfig.IsSelfPowered c)); ("interfaces", JArray (map interface_tree (USBConfig.interfaces_ c)))].
Definition device_tree (d : UsbDevice.t) : cjson := JObject [
  ("busNum", JNumber (UsbDevice.busNum_ d)); ("devAddress", JNumber (UsbDevice.devAddr_ d)); ("serial", JString "");
  ("name", JString (c_str (UsbDevice.name_ d))); ("manufacturerName", JString (c_str (UsbDevice.manufacturerName_ d)));
  ("productName", JString (c_str (UsbDevice.productName_ d))); ("version", JString (c_str (UsbDevice.version_ d)));
  ("vendorId", JNumber (UsbDevice.vendorId_ d)); ("productId", JNumber (UsbDevice.productId_ d)); ("clazz", JNumber (UsbDevice.baseClass_ d));
  ("subClass", JNumber (UsbDevice.subClass_ d)); ("protocol", JNumber (UsbDevice.protocol_ d));
  ("configs", JArray (map config_tree (UsbDevice.configs_ d)))].
Definition result_tree (items : list cjson) : cjson := JObject [
  ("type", JString "result"); ("status", JString "success");
  ("data", JObject [("number", JNumber (Z.of_nat (length items))); ("list", JArray items)])].

Class RoomyJson (J : Type) `{!CJsonMemory J} : Prop := json_has_room : ∀ s : J, (json_room s).1 = true.
Section Exact.
Context {J : Type} `{!CJson, !CJsonMemory J, !RoomyJson J, !ErrCodeBase}.
Abbreviation gives f x := (Gives (J:=J) (λ y, y = x) f).

Lemma gives_room {B} (Q : B → Prop) (g : bool → state J B) : Gives Q (g true) → Gives Q (json_room ≫= g).
Proof. intros Hg s. rewrite bind_run, json_has_room. apply Hg. Qed.
Lemma gives_then {A B} (Q : B → Prop) (f : state J A) x (g : A → state J B) : gives f x → Gives Q (g x) → Gives Q (f ≫= g).
Proof. intros Hf Hg. eapply gives_bind; [apply Hf|]. by intros a ->. Qed.
Lemma gives_add_member kvs kv : gives (add_member kvs kv) (kvs ++ [kv]).
Proof. apply gives_room. by apply gives_ret. Qed.
Lemma gives_add_members kvs l : gives (add_members kvs l) (kvs ++ l).
Proof.
  revert kvs. induction l as [|kv l IH]; intros kvs; cbn; [by rewrite app_nil_r; apply gives_ret|].
  eapply gives_then; [apply gives_add_member|]. intros s. rewrite (IH _ s). by rewrite <- app_assoc.
Qed.
Lemma gives_add_items {X} (serialize : X → state J (option cjson)) tree l array :
  Forall (λ x, gives (serialize x) (Some (tree x))) l → gives (add_items serialize l array) (array ++ map tree l).
Proof.
  intros Hl. revert array. induction Hl as [|x l Hx Hl IH]; intros array; cbn; [by rewrite app_nil_r; apply gives_ret|].
  eapply gives_then; [apply Hx|]. apply gives_room. intros s. rewrite (IH _ s). by rewrite <- app_assoc.
Qed.
Lemma gives_mapM_map {X Y} (f : X → state J Y) (g : X → Y) l : (∀ x, gives (f x) (g x)) → gives (mapM f l) (map g l).
Proof.
  intros Hf. induction l as [|x l IH]; cbn; [by apply gives_ret|]. eapply gives_then; [apply Hf|].
  eapply gives_then; [apply IH|]. by apply gives_ret.
Qed.
Ltac exactly := repeat first
  [ apply gives_room; cbn [negb] | eapply gives_then; [apply gives_add_members|]; cbn [app]
  | eapply gives_then; [apply gives_add_member|]; cbn [app] | by apply gives_ret ].

Lemma SerializeEndpoint_exact e : gives (SerializeEndpoint e) (Some (endpoint_tree e)).
Proof. unfold SerializeEndpoint. exactly. Qed.
Lemma SerializeInterface_exact i : gives (SerializeInterface i) (Some (interface_tree i)).
Proof.
  unfold SerializeInterface. exactly. eapply gives_then; [eapply (gives_add_items _ endpoint_tree), Forall_forall; intros e _|].
  - apply SerializeEndpoint_exact.
  - cbn [app]. exactly.
Qed.
Lemma GetInterface_index c i x : USBConfig.interfaces_ c !! i = Some x → USBConfig.GetInterface (Z.of_nat i) c = Some x.
Proof.
  intros Hx. unfold USBConfig.GetInterface. rewrite Nat2Z.id. apply lookup_lt_Some in Hx as Hi.
  destruct (Z.leb_spec (Z.of_nat (length (USBConfig.interfaces_ c))) (Z.of_nat i)); [lia|done].
Qed.
(** Reading the interfaces one by one is reading the list. *)
Lemma interfaces_by_index c : map (λ i, match USBConfig.GetInterface (Z.of_nat i) c with Some x => interface_tree x | None => JNumber 0 end)
  (seq 0 (length (USBConfig.interfaces_ c))) = map interface_tree (USBConfig.interfaces_ c).
Proof.
  apply list_eq. intros i. rewrite !list_lookup_fmap. destruct (decide (i < length (USBConfig.interfaces_ c))%nat) as [Hi|Hi].
  - rewrite lookup_seq_lt by done. destruct (lookup_lt_is_Some_2 _ _ Hi) as [x Hx]. rewrite Hx. cbn. rewrite (GetInterface_index c i x Hx). done.
  - rewrite (lookup_ge_None_2 (seq _ _)) by (rewrite length_seq; lia). by rewrite (lookup_ge_None_2 _ i) by lia.
Qed.
Lemma SerializeConfig_exact c : gives (SerializeConfig c) (Some (config_tree c)).
Proof.
  unfold SerializeConfig. exactly. eapply gives_then.
  - eapply (gives_add_items _ (λ i, match USBConfig.GetInterface (Z.of_nat i) c with Some x => interface_tree x | None => JNumber 0 end)).
    apply Forall_forall. intros i Hi%elem_of_seq.
    destruct (lookup_lt_is_Some_2 (USBConfig.interfaces_ c) i) as [x Hx]; [lia|]. rewrite (GetInterface_index _ _ _ Hx).
    apply SerializeInterface_exact.
  - cbn [app]. rewrite interfaces_by_index. exactly.
Qed.
Lemma SerializeDevice_exact d : gives (SerializeDevice d) (Some (device_tree d)).
Proof.
  unfold SerializeDevice. exactly. eapply gives_then; [eapply (gives_add_items _ config_tree), Forall_forall; intros e _|].
  - apply SerializeConfig_exact.
  - cbn [app]. exactly.
Qed.
Lemma FormatSuccess_exact l s : cJSON_PrintUnformatted (result_tree l) = Some s → gives (FormatSuccess (map Some l)) s.
Proof.
  intros Hs. unfold FormatSuccess. exactly. eapply gives_then; [eapply (gives_add_items _ (default (JNumber 0)))|].
  - apply Forall_forall. intros o [j [-> _]]%list_elem_of_fmap. by apply gives_ret.
  - cbn [app]. assert (map (default (JNumber 0)) (map Some l) = l) as -> by (rewrite map_map; apply map_id). exactly. intros st. fold (result_tree l). by rewrite Hs.
Qed.
End Exact.

(** ** The program *)

Section Program.
Context {S P J : Type} `{!IUsbServer S, !ClientPlatform P, !CJson, !CJsonMemory J, !ErrCodeBase}.
Context (others : state (UsbSrvClient S P) ()).
Implicit Types m : Cli S P J.

(** Which items a subcommand lists. *)
Definition item_schema (argv : list string) : schema :=
  match argv !! 1%nat with
  | Some c => if bool_decide (c = CMD_GET_DEVICE_LIST) then SObject device_properties else
              if bool_decide (c = CMD_GET_ACCESSORY_LIST) then SObject accessory_properties else SObject port_properties
  | None => SObject []
  end.
Lemma print_made_run f m : print_made f m = ((), {| cli_client := cli_client m; cli_json := (f (cli_json m)).2; cout := cout m ++ [(f (cli_json m)).1] |}).
Proof. unfold print_made. rewrite bind_run. unfold make, zoom. by destruct (f (cli_json m)). Qed.
Lemma ask_client_run {X} (f : state (UsbSrvClient S P) X) m x c : f (cli_client m) = (x, c) →
  ask f m = (x, {| cli_client := c; cli_json := cli_json m; cout := cout m |}).
Proof. intros Hf. unfold ask, zoom. by rewrite Hf. Qed.
Lemma make_run {X} (f : state J X) m :
  make f m = ((f (cli_json m)).1, {| cli_client := cli_client m; cli_json := (f (cli_json m)).2; cout := cout m |}).
Proof. unfold make, zoom. by destruct (f (cli_json m)). Qed.
(** A handler prints one line of the documented form. *)
Definition prints_line (t : schema) (f : state (Cli S P J) Z) : Prop :=
  ∀ m, ∃ line, cout (f m).2 = cout m ++ [line] ∧ documented t line ∧ ((f m).1 = 0 ∨ (f m).1 = 1 ∨ (f m).1 = -1).
Lemma print_line t f z : Gives (documented t) f → z = 0 ∨ z = 1 ∨ z = -1 → prints_line t (print_made f;; mret z).
Proof. intros Hf Hz m. rewrite bind_run, print_made_run. eexists. split; [done|]. by split; [apply Hf|]. Qed.
(** The shape of the three handlers. *)
Lemma prints_list {X} ps (get : state (UsbSrvClient S P) (Z * list X)) (items : list X → state J (list (option cjson))) :
  (∀ l, Gives (Forall (λ o, ∀ j, o = Some j → conforms (SObject ps) j = true)) (items l)) →
  prints_line (SObject ps) ('(ret, l) ← ask get;
    if negb (ret =? 0) then print_made (FormatError ret "Query failed");; mret 1 else
    its ← make (items l); print_made (FormatSuccess its);; mret 0).
Proof.
  intros Hi m. destruct (get (cli_client m)) as [[ret l] c] eqn:Hg. rewrite bind_run, (ask_client_run _ _ _ _ Hg). cbn [fst snd].
  destruct (ret =? 0); cbn [negb].
  - rewrite bind_run, make_run. cbn [fst snd cli_client cli_json cout].
    exact (print_line _ (FormatSuccess (items l (cli_json m)).1) 0 (FormatSuccess_documented _ _ (Hi l _)) (or_introl eq_refl)
      {| cli_client := c; cli_json := (items l (cli_json m)).2; cout := cout m |}).
  - exact (print_line _ (FormatError ret _) 1 (FormatError_documented _ _ _) (or_intror (or_introl eq_refl))
      {| cli_client := c; cli_json := cli_json m; cout := cout m |}).
Qed.
Lemma HandleGetDeviceList_prints : prints_line (SObject device_properties) (HandleGetDeviceList others).
Proof. apply (prints_list device_properties). intros l. apply gives_mapM, SerializeDevice_made. Qed.
Lemma HandleGetAccessoryList_prints : prints_line (SObject accessory_properties) (HandleGetAccessoryList others).
Proof. apply (prints_list accessory_properties). intros l. apply gives_mapM, SerializeAccessory_made. Qed.
Lemma HandleGetSerialList_prints : prints_line (SObject port_properties) (HandleGetSerialList others).
Proof. apply (prints_list port_properties). intros l. apply gives_mapM, SerializeSerialPort_made. Qed.

(** The flags are taken out before a subcommand is looked at: what it does with them
    is never run. *)
Theorem flags_come_first argv m : (2 <= length argv)%nat →
  (HasFlag argv "--help" = true → main others argv m = (0, (PrintMainHelp m).2)) ∧
  (HasFlag argv "--help" = false → HasFlag argv "--version" = true → main others argv m = (0, (PrintVersion m).2)).
Proof.
  intros Hl. unfold main, PreprocessArgs. destruct (Nat.ltb_spec (length argv) 2); [lia|].
  split; [intros ->; by rewrite !bind_run|intros -> ->; by rewrite !bind_run].
Qed.

(** Without flags the tool prints one line, whatever the service and the memory do: a
    text without content, or an object that has only what ohos-usbManager.json
    documents and counts its list. *)
Theorem output_is_documented argv m : HasFlag argv "--help" = false → HasFlag argv "--version" = false →
  ∃ line, cout (main others argv m).2 = cout m ++ [line] ∧ documented (item_schema argv) line.
Proof.
  intros Hh Hv. cut (prints_line (item_schema argv) (main others argv)); [intros Hp; destruct (Hp m) as (line & ? & ? & _); eauto|].
  unfold main, PreprocessArgs. rewrite Hh, Hv. intros m'. rewrite bind_run. destruct (length argv <? 2)%nat eqn:Hl.
  - rewrite bind_run, print_made_run. cbn [fst snd]. eexists. split; [done|]. split; [apply FormatError_documented|by right; right].
  - cbn [fst snd]. unfold item_schema. destruct argv as [|a [|c argv]]; [done..|]. cbn [lookup list_lookup].
    unfold run_subcommand. rewrite Hh, Hv. cbn.
    repeat case_bool_decide; [apply HandleGetDeviceList_prints|apply HandleGetAccessoryList_prints|apply HandleGetSerialList_prints|].
    apply print_line; [apply FormatError_documented|by right; left].
Qed.

(** With memory the list of devices is all of them but the hubs, in order. *)
Theorem device_list_exact `{!RoomyJson J} m c l s : GetDevices others [] (cli_client m) = ((0, l), c) →
  cJSON_PrintUnformatted (result_tree (map device_tree (List.filter (λ d, negb (UsbDevice.baseClass_ d =? CLASS_HUB)) l))) = Some s →
  let '(r, m') := HandleGetDeviceList others m in r = 0 ∧ cli_client m' = c ∧ cout m' = cout m ++ [s].
Proof.
  intros Hg Hs. unfold HandleGetDeviceList. rewrite bind_run, (ask_client_run _ _ _ _ Hg). cbn [fst snd Z.eqb negb].
  rewrite bind_run, make_run. cbn [fst snd cli_client cli_json cout]. set (l' := List.filter _ l) in *.
  pose proof (gives_mapM_map _ _ l' SerializeDevice_exact (cli_json m)) as ->. rewrite bind_run, print_made_run. cbn.
  rewrite <- (map_map device_tree Some). by rewrite (FormatSuccess_exact _ _ Hs).
Qed.
End Program.

(** * The command-line tool: runs on a concrete system *)

#[local] Existing Instance demo_err_base.
#[local] Existing Instance number_json.
#[local] Existing Instance lists_devices.

(** The answers of the JSON library's allocations in advance; after them there is memory. *)
#[export] Instance planned_json : CJsonMemory (list bool) := λ plan,
  match plan with false :: plan => (false, plan) | _ => (true, tail plan) end.

(** A keyboard behind a hub. *)
Definition hub : UsbDevice.t := {|
  UsbDevice.name_ := "1-1"; UsbDevice.manufacturerName_ := ""; UsbDevice.productName_ := "hub"; UsbDevice.version_ := "";
  UsbDevice.serial_ := ""; UsbDevice.authorizeStatus_ := UsbDevice.ENABLED; UsbDevice.devAddr_ := 1; UsbDevice.busNum_ := 1;
  UsbDevice.descConfigCount_ := 0; UsbDevice.bMaxPacketSize0_ := 64; UsbDevice.bcdUSB_ := 512; UsbDevice.bcdDevice_ := 256;
  UsbDevice.iManufacturer_ := 0; UsbDevice.iProduct_ := 0; UsbDevice.iSerialNumber_ := 0; UsbDevice.vendorId_ := 1;
  UsbDevice.productId_ := 1; UsbDevice.baseClass_ := CLASS_HUB; UsbDevice.subClass_ := 0; UsbDevice.protocol_ := 0;
  UsbDevice.configs_ := [] |}.
Definition shell (plan : list bool) : Cli (list UsbDevice.t) (option RemoteObject) (list bool) := {|
  cli_client := set_server [hub; keyboard] (client (program [])); cli_json := plan; cout := [] |}.
Definition run_tool (plan : list bool) (argv : list string) : Z * list (option cjson) :=
  let '(r, m) := main nobody ("ohos-usbManager" :: argv) (shell plan) in (r, map cJSON_Parse (cout m)).

(** Some member of the members of an output. *)
Definition the_member (k : string) (o : option cjson) : option cjson := j ← o; cJSON_GetObjectItem j k.
Example the_keyboard_is_listed :
  let '(r, out) := run_tool [] [CMD_GET_DEVICE_LIST] in
  (r, map (the_member "number" ∘ the_member "data") out, map (the_member "list" ∘ the_member "data") out) =
  (0, [Some (JNumber 1)], [Some (JArray [device_tree keyboard])]).
Proof. vm_compute. reflexivity. Qed.
(** Without memory for the array of configurations the device is left out, and the
    count with it: with little memory the tool says there are no devices, and succeeds. *)
Example little_memory :
  let '(r, out) := run_tool [false] [CMD_GET_DEVICE_LIST] in
  (r, map (the_member "number" ∘ the_member "data") out) = (0, [Some (JNumber 0)]).
Proof. vm_compute. reflexivity. Qed.
(** The help of a subcommand is the help of the tool. *)
Example help_of_a_subcommand :
  (main nobody ["ohos-usbManager"; CMD_GET_DEVICE_LIST; "--help"] (shell [])).2 = (PrintMainHelp (shell [])).2.
Proof. vm_compute. reflexivity. Qed.
(** Without a subcommand the code is not the documented 1. *)
Example no_subcommand : (run_tool [] []).1 = -1.
Proof. vm_compute. reflexivity. Qed.
(** An endpoint that sends to the host: the schema says 1. *)
Example an_endpoint_in :
  the_member "direction" (Some (endpoint_tree {| USBEndpoint.address_ := 129; USBEndpoint.attributes_ := 3;
    USBEndpoint.interval_ := 1; USBEndpoint.maxPacketSize_ := 8; USBEndpoint.interfaceId_ := 0 |})) = Some (JNumber 128).
Proof. vm_compute. reflexivity. Qed.

Lemma output_is_documented_witness :
  HasFlag ["ohos-usbManager"; CMD_GET_DEVICE_LIST] "--help" = false ∧
  ∃ line, cout (main nobody ["ohos-usbManager"; CMD_GET_DEVICE_LIST] (shell [])).2 = [] ++ [line] ∧
    documented (SObject device_properties) line.
Proof.
  split; [reflexivity|].
  exact (output_is_documented nobody ["ohos-usbManager"; CMD_GET_DEVICE_LIST] (shell []) eq_refl eq_refl).
Defined.
