(* ===== verification/UsbUtilities.v ===== *)
(** * Utilities (utils/native/src/usb_settings_datashare.cpp, usb_api_metrics.cpp)

    The settings of the system, read and written through a data share, and the
    numbers under which the results of calls are counted. *)
From S2P Require Import Prelude.

(** ** Settings *)

(** The helper of the data share.  A query gives no result set, one without a row,
    or the value of the first row with the key. *)
Class DataShareHelper (D : Type) := {
  ds_system_manager : state D bool;                              (* [GetSystemAbilityManager() != nullptr] *)
  ds_system_ability : Z → state D bool;
  ds_create : state D Z;                                         (* the code of [DataShareHelper::Create] *)
  ds_query : string → string → state D (option (option string));
  ds_insert : string → string → string → state D Z;
  ds_update : string → string → string → state D Z;
  ds_notify : string → state D ();
  ds_release : state D ();
}.
(** What a data share keeps for each address: rows of a key and a value. *)
Class DataShareLaws (D : Type) `{!DataShareHelper D} := {
  ds_rows : D → string → list (string * string);
  law_ds_query uri key d : ds_rows (ds_query uri key d).2 = ds_rows d;
  law_ds_found uri key d v : (ds_query uri key d).1 = Some v → v = snd <$> find (λ r, bool_decide (r.1 = key)) (ds_rows d uri);
  law_ds_insert uri key value d uri' : ds_rows (ds_insert uri key value d).2 uri' =
    if bool_decide (uri' = uri ∧ (ds_insert uri key value d).1 ≠ -1) then ds_rows d uri' ++ [(key, value)] else ds_rows d uri';
  law_ds_update uri key value d uri' : ds_rows (ds_update uri key value d).2 uri' =
    if bool_decide (uri' = uri ∧ (ds_update uri key value d).1 ≠ -1)
    then map (λ r, if bool_decide (r.1 = key) then (key, value) else r) (ds_rows d uri') else ds_rows d uri';
  law_ds_notify uri d : ds_rows (ds_notify uri d).2 = ds_rows d;
  law_ds_release d : ds_rows (ds_release d).2 = ds_rows d;
}.

Module UsbSettingDataShare.
Definition USB_SYSTEM_ABILITY_ID : Z := 4201.
Definition RDB_INVALID_VALUE : Z := -1.
Definition E_OK : Z := 0.
Section Methods.
Context {D : Type} `{!DataShareHelper D}.
Abbreviation M := (state D).

(** Whether there is a helper; its other codes only differ in the log. *)
Definition CreateDataShareHelper (systemAbilityId : Z) : M bool :=
  saManager ← ds_system_manager;
  if negb saManager then mret false else
  remote ← ds_system_ability systemAbilityId;
  if negb remote then mret false else
  ret ← ds_create;
  mret (ret =? E_OK).
(** The object: whether [datashareHelper_] is not null. *)
Definition construct : M bool := CreateDataShareHelper USB_SYSTEM_ABILITY_ID.
Definition destruct_ (datashareHelper_ : bool) : M () := if datashareHelper_ then ds_release else mret ().

(** [value] is passed with what it has and comes back. *)
Definition Query (datashareHelper_ : bool) (uri key value : string) : M (bool * string) :=
  if negb datashareHelper_ then mret (false, value) else
  result ← ds_query uri key;
  mret match result with
       | None | Some None => (false, value)
       | Some (Some v) => (true, v)
       end.
(** A result set without a row is a success. *)
Definition OobeQuery (datashareHelper_ : bool) (uri key value : string) : M (bool * string) :=
  if negb datashareHelper_ then mret (false, value) else
  result ← ds_query uri key;
  mret match result with
       | None => (false, value)
       | Some None => (true, value)
       | Some (Some v) => (true, v)
       end.
Definition Insert (datashareHelper_ : bool) (uri key value : string) : M bool :=
  if negb datashareHelper_ then mret false else
  result ← ds_insert uri key value;
  if result =? RDB_INVALID_VALUE then ds_release;; mret false else
  ds_notify uri;;
  ds_release;;
  mret true.
Definition Update (datashareHelper_ : bool) (uri key value : string) : M bool :=
  if negb datashareHelper_ then mret false else
  '(found, _) ← Query datashareHelper_ uri key "";
  if negb found then Insert datashareHelper_ uri key value else
  result ← ds_update uri key value;
  if result =? RDB_INVALID_VALUE then ds_release;; mret false else
  ds_notify uri;;
  ds_release;;
  mret true.
End Methods.
End UsbSettingDataShare.

(** ** Counting results *)

Module UsbApiMetrics.
Definition ERROR_CODE_BOUNDARY : nat := 29.
Definition METRICS_OTHER_ERROR : Z := 99999999.
Definition g_errorVector : list Z := [
  0; 201; 202; 401; 801;
  14400001; 14400002; 14400003; 14400004; 14400005; 14400006; 14400007; 14400008; 14400009; 14400010; 14400011; 14400012; 14400013;
  14401000; 14401001; 14401002; 14401003;
  31400001; 31400002; 31400003; 31400004; 31400005; 31400006; 31400007;
  METRICS_OTHER_ERROR].
Record t := { metricsName_ : string; startTime_ : Z * Z; errorCode_ : nat }.
Definition construct (name : string) (now : Z * Z) : t := {| metricsName_ := name; startTime_ := now; errorCode_ := 0 |}.
Fixpoint index_of (error : Z) (i : nat) (fuel : nat) : nat :=
  match fuel with
  | O => ERROR_CODE_BOUNDARY
  | S fuel => if bool_decide (g_errorVector !! i = Some error) then i else index_of error (S i) fuel
  end.
Definition SetErrorCode (error : Z) (m : t) : t :=
  {| metricsName_ := metricsName_ m; startTime_ := startTime_ m; errorCode_ := index_of error 0 ERROR_CODE_BOUNDARY |}.

(** What the destructor reports: a boolean, a time in milliseconds, kept in 32 bits,
    and the index. *)
Inductive Histogram := HBoolean (name : string) (sample : bool) | HTimes (name : string) (sample : Z) | HEnumeration (name : string) (sample : nat) (boundary : nat).
Definition TIME_1000 : Z := 1000.
Definition destruct_ (m : t) (endTime : Z * Z) : list Histogram :=
  [ HBoolean (metricsName_ m +:+ ".Boolean") (bool_decide (errorCode_ m = 0%nat));
    HTimes (metricsName_ m +:+ ".Time") (to_i32 ((endTime.1 - (startTime_ m).1) * TIME_1000 + Z.quot (endTime.2 - (startTime_ m).2) TIME_1000));
    HEnumeration (metricsName_ m +:+ ".Enum") (errorCode_ m) ERROR_CODE_BOUNDARY ].
End UsbApiMetrics.

(** ** Theorems *)

Section Settings.
Context {D : Type} `{!DataShareHelper D, !DataShareLaws D}.
Import UsbSettingDataShare.
Implicit Types d : D.

(** What a setting is: the first row with the key. *)
Definition setting d (uri key : string) : option string := snd <$> find (λ r, bool_decide (r.1 = key)) (ds_rows d uri).

Lemma find_app_row (rows : list (string * string)) key k v :
  snd <$> find (λ r, bool_decide (r.1 = key)) (rows ++ [(k, v)]) =
  match snd <$> find (λ r, bool_decide (r.1 = key)) rows with
  | Some x => Some x | None => if bool_decide (k = key) then Some v else None end.
Proof.
  induction rows as [|[k' v'] rows IH]; cbn [app find fst]; [by case_bool_decide|]. by destruct (bool_decide (k' = key)).
Qed.
Lemma find_map_row (rows : list (string * string)) key k v :
  snd <$> find (λ r, bool_decide (r.1 = key)) (map (λ r, if bool_decide (r.1 = k) then (k, v) else r) rows) =
  match snd <$> find (λ r, bool_decide (r.1 = key)) rows with
  | Some x => Some (if bool_decide (k = key) then v else x) | None => None end.
Proof.
  induction rows as [|[k' v'] rows IH]; [done|]. cbn [map find fst].
  destruct (decide (k' = k)) as [->|Hk].
  - rewrite (bool_decide_true (k = k)) by done. cbn [fst]. case_bool_decide; [|exact IH]. done.
  - rewrite (bool_decide_false (k' = k)) by done. cbn [fst]. destruct (decide (k' = key)) as [->|Hkey].
    + rewrite !(bool_decide_true (key = key)) by done. cbn. by rewrite bool_decide_false.
    + rewrite !(bool_decide_false (k' = key)) by done. exact IH.
Qed.

Lemma insert_row uri key value d uri' key' : (ds_insert uri key value d).1 ≠ -1 →
  setting (ds_insert uri key value d).2 uri' key' =
  match setting d uri' key' with
  | Some x => Some x | None => if bool_decide (uri' = uri ∧ key = key') then Some value else None end.
Proof.
  intros Hi. unfold setting. rewrite law_ds_insert. destruct (decide (uri' = uri)) as [->|Hu].
  - rewrite bool_decide_true, find_app_row by done. by repeat case_bool_decide; destruct_and?; simplify_eq; naive_solver.
  - rewrite (bool_decide_false (uri' = uri ∧ _)) by naive_solver. rewrite bool_decide_false by naive_solver. by case_match.
Qed.
Lemma update_row uri key value d uri' key' : (ds_update uri key value d).1 ≠ -1 →
  setting (ds_update uri key value d).2 uri' key' =
  match setting d uri' key' with
  | Some x => Some (if bool_decide (uri' = uri ∧ key = key') then value else x) | None => None end.
Proof.
  intros Hi. unfold setting. rewrite law_ds_update. destruct (decide (uri' = uri)) as [->|Hu].
  - rewrite bool_decide_true, find_map_row by done. case_match; [|done]. by repeat case_bool_decide; naive_solver.
  - rewrite (bool_decide_false (uri' = uri ∧ _)) by naive_solver. rewrite bool_decide_false by naive_solver. by case_match.
Qed.
Lemma release_row d uri key : setting (ds_release d).2 uri key = setting d uri key.
Proof. unfold setting. by rewrite law_ds_release. Qed.
Lemma notify_row d uri' uri key : setting (ds_notify uri' d).2 uri key = setting d uri key.
Proof. unfold setting. by rewrite law_ds_notify. Qed.
Lemma query_row d uri' key' uri key : setting (ds_query uri' key' d).2 uri key = setting d uri key.
Proof. unfold setting. by rewrite law_ds_query. Qed.

Lemma Insert_sets uri key value d uri' key' : let '(ok, d') := Insert true uri key value d in
  setting d' uri' key' = match setting d uri' key' with
    | Some x => Some x | None => if bool_decide (ok = true ∧ uri' = uri ∧ key = key') then Some value else None end.
Proof.
  unfold Insert. cbn [negb]. rewrite !bind_run. pose proof (insert_row uri key value d uri' key') as Hr.
  pose proof (law_ds_insert uri key value d uri') as Hf. destruct (ds_insert uri key value d) as [r d1]. cbn [fst snd] in *.
  destruct (Z.eqb_spec r RDB_INVALID_VALUE) as [->|Hi]; rewrite !bind_run; cbn [mret state_ret].
  - rewrite release_row. rewrite bool_decide_false in Hf by (intros [_ Hne]; by apply Hne). rewrite bool_decide_false by naive_solver.
    unfold setting. rewrite Hf. by destruct (snd <$> find _ _).
  - rewrite release_row, notify_row, (Hr Hi). destruct (setting d uri' key'); [done|].
    destruct (decide (uri' = uri ∧ key = key')); [rewrite !bool_decide_true by naive_solver|rewrite !bool_decide_false by naive_solver]; done.
Qed.
(** An update that succeeds has set the setting and nothing else, except when the
    query before it failed on a setting that exists: then a second row stands behind
    the old one, which stays what is read.  An update that fails changes nothing. *)
Theorem Update_sets uri key value d uri' key' :
  let '(ok, d') := Update true uri key value d in
  setting d' uri' key' =
    if bool_decide (ok = true ∧ uri' = uri ∧ key' = key ∧ ¬ ((ds_query uri key d).1 = None ∧ is_Some (setting d uri key)))
    then Some value else setting d uri' key'.
Proof.
  unfold Update, Query. cbn [negb]. rewrite !bind_run. pose proof (query_row d uri key uri' key') as Hq1.
  pose proof (law_ds_found uri key d) as Hf. pose proof (query_row d uri key uri key) as Hq2.
  destruct (ds_query uri key d) as [q d1]. cbn [fst snd] in *.
  assert (∀ v, q = Some v → v = setting d uri key) as Hset by (intros v ->; by apply Hf). clear Hf.
  destruct q as [[v|]|]; cbn [negb mret state_ret fst snd].
  - specialize (Hset _ eq_refl). rewrite !bind_run. pose proof (update_row uri key value d1 uri' key') as Hr.
    pose proof (law_ds_update uri key value d1 uri') as Hf. destruct (ds_update uri key value d1) as [r d2]. cbn [fst snd] in *.
    destruct (Z.eqb_spec r RDB_INVALID_VALUE) as [->|Hi]; rewrite !bind_run; cbn [mret state_ret].
    + rewrite release_row. rewrite bool_decide_false in Hf by (intros [_ Hne]; by apply Hne). rewrite bool_decide_false by naive_solver.
      rewrite <- Hq1. unfold setting. by rewrite Hf.
    + rewrite release_row, notify_row, (Hr Hi), Hq1. destruct (decide (uri' = uri ∧ key' = key)) as [[-> ->]|Hne].
      * rewrite <- Hset, !bool_decide_true by naive_solver. done.
      * rewrite !bool_decide_false by naive_solver. by destruct (setting d uri' key').
  - specialize (Hset _ eq_refl). pose proof (Insert_sets uri key value d1 uri' key') as Hr.
    destruct (Insert true uri key value d1) as [ok d2]. rewrite Hr, Hq1.
    destruct (decide (uri' = uri ∧ key' = key)) as [[-> ->]|Hne].
    + rewrite <- Hset. destruct ok; [rewrite !bool_decide_true by naive_solver|rewrite !bool_decide_false by naive_solver]; done.
    + rewrite !bool_decide_false by naive_solver. by destruct (setting d uri' key').
  - pose proof (Insert_sets uri key value d1 uri' key') as Hr. destruct (Insert true uri key value d1) as [ok d2]. rewrite Hr, Hq1.
    destruct (decide (uri' = uri ∧ key' = key)) as [[-> ->]|Hne].
    + destruct (setting d uri key) as [x|] eqn:Hs; [by rewrite bool_decide_false by (rewrite ?Hs; naive_solver)|].
      destruct ok; [rewrite !bool_decide_true by (rewrite ?Hs; split_and!; try done; by intros [_ []])|rewrite !bool_decide_false by naive_solver]; done.
    + rewrite !bool_decide_false by naive_solver. by destruct (setting d uri' key').
Qed.
End Settings.

(** *** Counting *)
Import UsbApiMetrics.
Lemma index_of_spec error i fuel : (i + fuel = ERROR_CODE_BOUNDARY)%nat →
  (index_of error i fuel < ERROR_CODE_BOUNDARY ∧ g_errorVector !! index_of error i fuel = Some error)%nat ∨
  (index_of error i fuel = ERROR_CODE_BOUNDARY ∧ ∀ j, (i <= j < ERROR_CODE_BOUNDARY)%nat → g_errorVector !! j ≠ Some error).
Proof.
  revert i. induction fuel as [|fuel IH]; intros i Hi; cbn [index_of]; [right; split; [done|lia]|].
  case_bool_decide as Hx; [left; split; [lia|done]|]. destruct (IH (S i)) as [H|[H1 H2]]; [lia|by left|].
  right. split; [done|]. intros j Hj. destruct (decide (j = i)) as [->|]; [done|]. apply H2. lia.
Qed.
(** The index names the code, and the last one all codes that have none. *)
Theorem SetErrorCode_index error m :
  let i := errorCode_ (SetErrorCode error m) in
  (i <= ERROR_CODE_BOUNDARY)%nat ∧ (i < ERROR_CODE_BOUNDARY ↔ ∃ j, j < ERROR_CODE_BOUNDARY ∧ g_errorVector !! j = Some error)%nat ∧
  ((i < ERROR_CODE_BOUNDARY)%nat → g_errorVector !! i = Some error).
Proof.
  cbv zeta. unfold SetErrorCode. cbn [errorCode_]. destruct (index_of_spec error 0 ERROR_CODE_BOUNDARY eq_refl) as [[H1 H2]|[H1 H2]].
  - split; [lia|]. split; [|done]. split; [by eauto|done].
  - rewrite H1. split; [done|]. split; [|intros; lia]. split; [intros; lia|]. intros (j & Hj & Hx). exfalso. apply (H2 j); [lia|done].
Qed.
(** 14400014, an interface that is busy, is not in the list. *)
Example busy_is_other : errorCode_ (SetErrorCode 14400014 (construct "claim" (0, 0))) = 29%nat.
Proof. reflexivity. Qed.

(** *** Settings on a concrete store *)

(** One address; the answers of its queries in advance. *)
Record DemoShare := { demo_rows : string → list (string * string); demo_answers : list bool }.
#[export] Instance demo_share : DataShareHelper DemoShare := {
  ds_system_manager := mret true; ds_system_ability _ := mret true; ds_create := mret 0;
  ds_query uri key := λ d,
    ((if default true (head (demo_answers d)) then Some (snd <$> find (λ r, bool_decide (r.1 = key)) (demo_rows d uri)) else None),
     {| demo_rows := demo_rows d; demo_answers := tail (demo_answers d) |});
  ds_insert uri key value := λ d, (1, {| demo_rows := λ u, if bool_decide (u = uri) then demo_rows d u ++ [(key, value)] else demo_rows d u;
    demo_answers := demo_answers d |});
  ds_update uri key value := λ d, (1, {| demo_rows := λ u, if bool_decide (u = uri)
    then map (λ r, if bool_decide (r.1 = key) then (key, value) else r) (demo_rows d u) else demo_rows d u; demo_answers := demo_answers d |});
  ds_notify _ := mret (); ds_release := mret ();
}.
#[export] Instance demo_share_laws : DataShareLaws DemoShare.
Proof.
  refine {| ds_rows := demo_rows |}; try done.
  - intros uri key d v. cbn. case_match; [|done]. by intros [= <-].
  - intros uri key value d uri'. cbn. destruct (decide (uri' = uri)); [rewrite !bool_decide_true by naive_solver|rewrite !bool_decide_false by naive_solver]; done.
  - intros uri key value d uri'. cbn. destruct (decide (uri' = uri)); [rewrite !bool_decide_true by naive_solver|rewrite !bool_decide_false by naive_solver]; done.
Defined.
Definition hdc_on (answers : list bool) : DemoShare := {| demo_rows := λ _, [("HDC_STATUS", "true")]; demo_answers := answers |}.
Definition turn_off (answers : list bool) : bool * option string :=
  let '(ok, d) := UsbSettingDataShare.Update true "uri" "HDC_STATUS" "false" (hdc_on answers) in (ok, setting d "uri" "HDC_STATUS").
Example an_update : turn_off [] = (true, Some "false").
Proof. vm_compute. reflexivity. Qed.
(** A query that fails once: the update reports success, and the setting is as before. *)
Example an_update_lost : turn_off [false] = (true, Some "true").
Proof. vm_compute. reflexivity. Qed.
