(* ===== verification/NapiUtil.v ===== *)
(** * Values of the script engine
    (interfaces/kits/js/napi/src/napi_util.cpp, utils/native/src/usb_napi_errors.cpp)

    The JavaScript binding reads its arguments from values of the script engine and
    builds what it returns there.  The engine is reached through Node-API, the class
    [Napi]: its state is passed along, a value is a handle.  [NapiLaws] says what
    the calls do to plain objects. *)
From S2P Require Import Prelude Platform.

Definition OHEC_COMMON_PERMISSION_NOT_ALLOWED : Z := 201.
Definition OHEC_COMMON_NORMAL_APP_NOT_ALLOWED : Z := 202.
Definition OHEC_COMMON_PARAM_ERROR : Z := 401.
Definition CAPABILITY_NOT_SUPPORT : Z := 801.
Definition UEC_COMMON_BASE : Z := 14400000.
Definition UEC_COMMON_HAS_NO_RIGHT : Z := UEC_COMMON_BASE + 1.
Definition UEC_COMMON_HDC_NOT_ALLOWED : Z := UEC_COMMON_BASE + 2.
Definition UEC_COMMON_PORTROLE_SWITCH_NOT_ALLOWED : Z := UEC_COMMON_BASE + 3.
Definition UEC_COMMON_SERVICE_EXCEPTION : Z := UEC_COMMON_BASE + 4.
Definition UEC_COMMON_RIGHT_DATABASE_ERROR : Z := UEC_COMMON_BASE + 5.
Definition UEC_COMMON_FUNCTION_NOT_SUPPORT : Z := UEC_COMMON_BASE + 6.
Definition UEC_ACCESSORY_BASE : Z := UEC_COMMON_BASE + 1000.
Definition UEC_ACCESSORY_NOT_MATCH : Z := UEC_ACCESSORY_BASE + 1.
Definition UEC_ACCESSORY_OPEN_FAILED : Z := UEC_ACCESSORY_BASE + 2.
Definition UEC_ACCESSORY_CAN_NOT_REOPEN : Z := UEC_ACCESSORY_BASE + 3.
Definition USB_SUBMIT_TRANSFER_RESOURCE_BUSY_ERROR : Z := 14400007.
Definition USB_SUBMIT_TRANSFER_NO_DEVICE_ERROR : Z := 14400008.
Definition USB_SUBMIT_TRANSFER_NO_MEM_ERROR : Z := 14400009.
Definition USB_SUBMIT_TRANSFER_OTHER_ERROR : Z := 14400010.
Definition USB_SUBMIT_TRANSFER_NOT_FOUND_ERROR : Z := 14400011.
Definition USB_SUBMIT_TRANSFER_IO_ERROR : Z := 14400012.
Definition USB_DEVICE_PIPE_CHECK_ERROR : Z := 14400013.
Definition USB_INTERFACE_BUSY_ERROR : Z := 14400014.

Definition ERRCODE_MSG_MAP : list (Z * string) := [
  (OHEC_COMMON_PERMISSION_NOT_ALLOWED, "BusinessError 201:Permission verification failed. The application does not have the permission required to call the API.");
  (OHEC_COMMON_NORMAL_APP_NOT_ALLOWED, "BusinessError 202:Permission denied. Normal application uses system api.");
  (OHEC_COMMON_PARAM_ERROR, "BusinessError 401:Parameter error.");
  (CAPABILITY_NOT_SUPPORT, "BusinessError 801:Capability not supported.");
  (UEC_COMMON_HAS_NO_RIGHT, "BusinessError 14400001:Permission denied.");
  (UEC_COMMON_HDC_NOT_ALLOWED, "BusinessError 14400002:Permission denied. The HDC is disabled by the system.");
  (UEC_COMMON_PORTROLE_SWITCH_NOT_ALLOWED, "BusinessError 14400003:Unsupported operation.The current device does not support port role switching.");
  (UEC_COMMON_SERVICE_EXCEPTION, "BusinessError 14400004:Service exception. Possible causes:No accessory is plugged in.");
  (UEC_COMMON_RIGHT_DATABASE_ERROR, "BusinessError 14400005:Database operation exception.");
  (UEC_COMMON_FUNCTION_NOT_SUPPORT, "BusinessError 14400006:Unsupported operation. The function is not supported.");
  (UEC_ACCESSORY_NOT_MATCH, "BusinessError 14401001:The target USBAccessory not matched.");
  (UEC_ACCESSORY_OPEN_FAILED, "BusinessError 14401002:Failed to open the native accessory node.");
  (UEC_ACCESSORY_CAN_NOT_REOPEN, "BusinessError 14401003:Cannot reopen the accessory.");
  (USB_SUBMIT_TRANSFER_RESOURCE_BUSY_ERROR, "BusinessError 14400007:Resource busy. Possible causes:1. The transfer has already been submitted.2. The interface is claimed by another program or driver.");
  (USB_SUBMIT_TRANSFER_NO_DEVICE_ERROR, "BusinessError 14400008:No such device (it may have been disconnected).");
  (USB_SUBMIT_TRANSFER_NO_MEM_ERROR, "BusinessError 14400009:Insufficient memory. Possible causes: 1. Malloc memory failed.");
  (USB_SUBMIT_TRANSFER_OTHER_ERROR, "BusinessError 14400010:Other USB error.");
  (USB_SUBMIT_TRANSFER_NOT_FOUND_ERROR, "BusinessError 14400011:The transfer is not in progress, or is already complete or cancelled.");
  (USB_SUBMIT_TRANSFER_IO_ERROR, "BusinessError 14400012:Transmission I/O error.");
  (USB_DEVICE_PIPE_CHECK_ERROR, "BusinessError 14400013:The USBDevicePipe validity check failed. Possible causes:1.The input parameters fail the validation check.2.The call chain used to obtain the input parameters is not reasonable.");
  (USB_INTERFACE_BUSY_ERROR, "BusinessError 14400014:Interface busy. The interface is claimed by another program.")].
Definition GetErrMsgByErrCode (errCode : Z) : option string :=
  snd <$> find (λ p, p.1 =? errCode) ERRCODE_MSG_MAP.

(** Whether [memcpy_s(dest, destMax, src, count)] between addresses that are not null
    copies. *)
Class SecureC := {
  memcpy_s_ok : Z → Z → bool;
  SECUREC_MEM_MAX_LEN : Z;
  law_memcpy_s destMax count : 0 < count <= destMax → destMax <= SECUREC_MEM_MAX_LEN → memcpy_s_ok destMax count = true;
  law_memcpy_s_refuses destMax count : destMax < count → memcpy_s_ok destMax count = false;
}.

(** ** Node-API *)

Inductive napi_valuetype :=
  | napi_undefined | napi_null | napi_boolean | napi_number | napi_string | napi_symbol | napi_object | napi_function
  | napi_external | napi_bigint.
#[global] Instance napi_valuetype_eq_dec : EqDecision napi_valuetype.
Proof. solve_decision. Defined.
Inductive napi_typedarray_type := napi_uint8_array | napi_another_array.
#[global] Instance napi_typedarray_type_eq_dec : EqDecision napi_typedarray_type.
Proof. solve_decision. Defined.

(** Handles, and addresses of the bytes of an array buffer. *)
Definition napi_value : Type := Z.
Definition nullptr : napi_value := 0.
Definition napi_deferred : Type := Z.
Definition data_ptr : Type := Z.

(** A call gives what the variable it is given holds afterwards, with the status
    ([napi_ok] or not) where the code looks at it.  A variable that has a value
    before is passed. *)
Class Napi (E : Type) := {
  napi_typeof : napi_value → state E (bool * napi_valuetype);
  napi_has_named_property : napi_value → string → state E (bool * bool);   (* the variable is false before *)
  napi_get_named_property : napi_value → string → state E (bool * napi_value);
  napi_get_value_bool : napi_value → bool → state E bool;
  napi_get_value_int32 : napi_value → Z → state E Z;
  napi_get_value_uint32 : napi_value → Z → state E (bool * Z);
  napi_get_value_string_utf8 : napi_value → Z → state E string;            (* the bytes of a buffer of zeros of that size *)
  napi_is_array : napi_value → state E (bool * bool);
  napi_get_array_length : napi_value → state E (bool * Z);                 (* 0 before *)
  napi_get_element : napi_value → Z → state E (bool * napi_value);
  napi_is_typedarray : napi_value → state E (bool * bool);
  (* the type, the length and the address; [None] is a failure, which leaves the variables *)
  napi_get_typedarray_info : napi_value → state E (option (napi_typedarray_type * Z * option data_ptr));
  napi_create_object : state E napi_value;
  napi_create_array : state E napi_value;
  napi_create_string_utf8 : string → state E napi_value;
  napi_create_int32 : Z → state E napi_value;
  napi_create_uint32 : Z → state E (bool * napi_value);
  napi_get_boolean : bool → state E napi_value;
  napi_get_undefined : state E napi_value;
  napi_set_named_property : napi_value → string → napi_value → state E ();
  napi_set_element : napi_value → Z → napi_value → state E ();
  napi_create_error : napi_value → state E napi_value;
  napi_throw : napi_value → state E ();
  napi_create_arraybuffer : Z → state E (option data_ptr * napi_value);
  napi_create_typedarray : napi_typedarray_type → Z → napi_value → napi_value → state E napi_value;  (* the last is the variable before *)
  napi_create_promise : state E (option napi_deferred * napi_value);
  napi_resolve_deferred : napi_deferred → napi_value → state E ();
  napi_reject_deferred : napi_deferred → napi_value → state E ();
  napi_create_async_work : state E bool;
  napi_queue_async_work : state E bool;
  napi_create_reference : napi_value → state E (option Z);
  napi_get_reference_value : option Z → state E napi_value;
  napi_call_function : napi_value → list napi_value → state E bool;
  napi_create_threadsafe_function : napi_value → state E (option Z);
  napi_call_threadsafe_function : Z → state E bool;
  napi_send_event : state E bool;
  (* the memory of an array buffer *)
  read_bytes : data_ptr → Z → state E (list Z);
  write_bytes : data_ptr → list Z → state E ();
}.

Section NapiUtil.
Context {E : Type} `{!Napi E, !SecureC}.
Abbreviation M := (state E).

(** ** Errors (usb_napi_errors.cpp) *)

(** The file is compiled with the messages of one library or the other, so the message
    of the code is given; a code without one makes [undefined] of the error. *)
Definition business_error (message : option string) (errCode : Z) (errMsg : string) : M napi_value :=
  match message with
  | None => napi_get_undefined
  | Some commMsg =>
      message ← napi_create_string_utf8 (commMsg +:+ errMsg);
      code ← napi_create_int32 errCode;
      businessError ← napi_create_error message;
      napi_set_named_property businessError "code" code;;
      mret businessError
  end.
Definition throw_error (message : option string) (errCode : Z) (errMsg : string) : M () :=
  businessError ← business_error message errCode errMsg;
  napi_throw businessError.
Definition CreateBusinessError (errCode : Z) (errMsg : string) : M napi_value :=
  business_error (GetErrMsgByErrCode errCode) errCode errMsg.
Definition ThrowBusinessError (errCode : Z) (errMsg : string) : M () := throw_error (GetErrMsgByErrCode errCode) errCode errMsg.
(** [USB_ASSERT_BASE] and the macros made of it: what is returned when the assertion
    fails comes first. *)
Definition USB_ASSERT_BASE {A} (retVal : A) (assertion : bool) (errCode : Z) (errMsg : string) (k : M A) : M A :=
  if negb assertion then ThrowBusinessError errCode errMsg;; mret retVal else k.

(** ** Reading (napi_util.cpp) *)

Definition MAX_STR_LENGTH : Z := 1024.
Definition UINT_MAX : Z := 4294967295.
Definition SCHAR_MAX : Z := 127.

Definition JsValueToString (value : napi_value) (bufLen : Z) (target : string) : M string :=
  if (bufLen <=? 0) || (MAX_STR_LENGTH <? bufLen) then mret target else
  buf ← napi_get_value_string_utf8 value (bufLen + 1);
  mret (c_str buf).
(** The last argument of a reader is the field before. *)
Definition JsObjectToString (object : napi_value) (fieldStr : string) (bufLen : Z) (fieldRef : string) : M string :=
  if bufLen <=? 0 then mret fieldRef else
  '(_, hasProperty) ← napi_has_named_property object fieldStr;
  if negb hasProperty then mret fieldRef else
  '(_, field) ← napi_get_named_property object fieldStr;
  '(_, valueType) ← napi_typeof field;
  USB_ASSERT_BASE fieldRef (bool_decide (valueType = napi_string)) OHEC_COMMON_PARAM_ERROR ("The type of " +:+ fieldStr +:+ " must be string.") (
  buf ← napi_get_value_string_utf8 field (bufLen + 1);
  mret (c_str buf)).
Definition JsObjectGetProperty (object : napi_value) (fieldStr : string) (value : napi_value) : M (bool * napi_value) :=
  '(_, hasProperty) ← napi_has_named_property object fieldStr;
  if negb hasProperty then mret (hasProperty, value) else
  '(_, value) ← napi_get_named_property object fieldStr;
  mret (hasProperty, value).
Definition JsObjectToBool (object : napi_value) (fieldStr : string) (fieldRef : bool) : M bool :=
  '(_, hasProperty) ← napi_has_named_property object fieldStr;
  if negb hasProperty then mret fieldRef else
  '(_, field) ← napi_get_named_property object fieldStr;
  '(_, valueType) ← napi_typeof field;
  USB_ASSERT_BASE fieldRef (bool_decide (valueType = napi_boolean)) OHEC_COMMON_PARAM_ERROR ("The type of " +:+ fieldStr +:+ " must be boolean.") (
  napi_get_value_bool field fieldRef).
Definition JsObjectToInt (object : napi_value) (fieldStr : string) (fieldRef : Z) : M Z :=
  '(_, hasProperty) ← napi_has_named_property object fieldStr;
  if negb hasProperty then mret fieldRef else
  '(_, field) ← napi_get_named_property object fieldStr;
  '(_, valueType) ← napi_typeof field;
  USB_ASSERT_BASE fieldRef (bool_decide (valueType = napi_number)) OHEC_COMMON_PARAM_ERROR ("The type of " +:+ fieldStr +:+ " must be number.") (
  napi_get_value_int32 field fieldRef).
(** Whether it was read, and the field. *)
Definition JsObjectToUint32 (object : napi_value) (fieldStr : string) (fieldRef : Z) : M (bool * Z) :=
  '(status, hasProperty) ← napi_has_named_property object fieldStr;
  if negb status || negb hasProperty then mret (false, fieldRef) else
  '(status, field) ← napi_get_named_property object fieldStr;
  if negb status then mret (false, fieldRef) else
  '(status, valueType) ← napi_typeof field;
  if negb status then mret (false, fieldRef) else
  USB_ASSERT_BASE (false, fieldRef) (bool_decide (valueType = napi_number)) OHEC_COMMON_PARAM_ERROR
    ("The type of " +:+ fieldStr +:+ " must be number.") (
  napi_get_value_uint32 field fieldRef).
Definition JsObjectToUint (object : napi_value) (fieldStr : string) (fieldRef : Z) : M Z :=
  '(status, hasProperty) ← napi_has_named_property object fieldStr;
  if negb status || negb hasProperty then mret fieldRef else
  '(status, field) ← napi_get_named_property object fieldStr;
  if negb status then mret fieldRef else
  '(status, valueType) ← napi_typeof field;
  if negb status then mret fieldRef else
  USB_ASSERT_BASE fieldRef (bool_decide (valueType = napi_number)) OHEC_COMMON_PARAM_ERROR
    ("The type of " +:+ fieldStr +:+ " must be number.") (
  '(_, fieldRef) ← napi_get_value_uint32 field fieldRef;
  mret fieldRef).
(** Only half of the values of a [uint8_t] pass. *)
Definition JsObjectToUint8 (object : napi_value) (fieldStr : string) (fieldRef : Z) : M (bool * Z) :=
  tmpValue ← JsObjectToUint object fieldStr UINT_MAX;
  mret (if SCHAR_MAX <? tmpValue then (false, fieldRef) else (true, to_u8 tmpValue)).

(** The address and the size, which are null and 0 before. *)
Definition JsUint8ArrayParseReserveZeroBuffer (object : napi_value) : M (bool * (option data_ptr * Z)) :=
  '(status, isTypedArray) ← napi_is_typedarray object;
  if negb status || negb isTypedArray then
    USB_ASSERT_BASE (false, (None, 0)) isTypedArray OHEC_COMMON_PARAM_ERROR "The type of buffer must be TypedArray." (
    mret (false, (None, 0)))
  else
  infoStatus ← napi_get_typedarray_info object;
  match infoStatus with
  | None => mret (false, (None, 0))
  | Some (type, bufferSize, uint8Buffer) =>
      USB_ASSERT_BASE (false, (uint8Buffer, bufferSize)) (bool_decide (type = napi_uint8_array)) OHEC_COMMON_PARAM_ERROR
        "The type of buffer must be Uint8Array." (
      mret (true, (uint8Buffer, bufferSize)))
  end.
Definition JsUint8ArrayParse (object : napi_value) : M (bool * (option data_ptr * Z)) :=
  '(status, isTypedArray) ← napi_is_typedarray object;
  if negb status || negb isTypedArray then
    USB_ASSERT_BASE (false, (None, 0)) isTypedArray OHEC_COMMON_PARAM_ERROR "The type of buffer must be TypedArray." (
    mret (false, (None, 0)))
  else
  infoStatus ← napi_get_typedarray_info object;
  match infoStatus with
  | None => mret (false, (None, 0))
  | Some (type, bufferSize, uint8Buffer) =>
      USB_ASSERT_BASE (false, (uint8Buffer, bufferSize)) (bool_decide (type = napi_uint8_array)) OHEC_COMMON_PARAM_ERROR
        "The type of buffer must be Uint8Array." (
      USB_ASSERT_BASE (false, (uint8Buffer, bufferSize)) (negb (bufferSize =? 0)) OHEC_COMMON_PARAM_ERROR
        "The size of buffer must be a positive number." (
      mret (true, (uint8Buffer, bufferSize))))
  end.

(** ** Building *)

(** [memcpy_s] fails without a destination; the variable keeps what it has. *)
Definition Uint8ArrayToJsValue (uint8Buffer : list Z) (bufferSize : Z) (result : napi_value) : M napi_value :=
  '(nativeArraybuffer, nativeValue) ← napi_create_arraybuffer bufferSize;
  match nativeArraybuffer with
  | None => mret result
  | Some p =>
      if negb (memcpy_s_ok bufferSize bufferSize) then mret result else
      write_bytes p (take (Z.to_nat bufferSize) uint8Buffer);;
      napi_create_typedarray napi_uint8_array bufferSize nativeValue result
  end.
Definition SetValueUtf8String (fieldStr str : string) (result : napi_value) : M () :=
  value ← napi_create_string_utf8 (c_str str);
  napi_set_named_property result fieldStr value.
Definition SetValueInt32 (fieldStr : string) (intValue : Z) (result : napi_value) : M () :=
  value ← napi_create_int32 intValue;
  napi_set_named_property result fieldStr value.
Definition SetValueUint32 (fieldStr : string) (uintValue : Z) (result : napi_value) : M () :=
  '(status, value) ← napi_create_uint32 uintValue;
  if negb status then mret () else
  napi_set_named_property result fieldStr value.
Definition SetValueBool (fieldStr : string) (boolValue : bool) (result : napi_value) : M () :=
  value ← napi_get_boolean boolValue;
  napi_set_named_property result fieldStr value.
End NapiUtil.
