(* ===== verification/UsbInfoParse.v ===== *)
(** * Objects of scripts (interfaces/kits/js/napi/src/usb_info.cpp, the conversions)

    A device, its configurations, interfaces and endpoints, a pipe and an accessory
    as objects of a script, and what is read from such objects. *)
From S2P Require Import Prelude UsbErrors Platform UsbAccessory UsbDevice UsbDescriptorParser UsbPortManager UsbInterfaceType UsbHostManager UsbHostTransfer UsbService UsbServiceHost UsbServiceSerial UsbSrvClient NapiUtil.

Definition DEFAULT_DESCRIPTION_SIZE : Z := 32.
Definition DEFAULT_ACCESSORY_DESCRIPTION_SIZE : Z := 256.

(** The loop over a vector that sets the elements of an array. *)
Fixpoint for_elements {S A} (i : Z) (body : Z → A → state S ()) (l : list A) : state S () :=
  match l with [] => mret () | x :: l => body i x;; for_elements (i + 1) body l end.

Section Conversions.
Context {E : Type} `{!Napi E, !SecureC}.
Abbreviation M := (state E).
(** What a handle holds that nothing has been assigned to. *)
Context (indeterminate : napi_value).

(** ** C++ to script *)

Definition CreateUsbDevicePipe (pipe : USBDevicePipe) : M napi_value :=
  obj ← napi_create_object;
  SetValueInt32 "busNum" (pipe_busNum_ pipe) obj;;
  SetValueInt32 "devAddress" (pipe_devAddr_ pipe) obj;;
  mret obj.
Definition CreatAccessoryHandle (fd : Z) : M napi_value :=
  obj ← napi_create_object;
  SetValueInt32 "accessoryFd" fd obj;;
  mret obj.
Definition CtoJSUsbEndpoint (usbEndpoint : USBEndpoint.t) : M napi_value :=
  obj ← napi_create_object;
  SetValueUint32 "address" (USBEndpoint.address_ usbEndpoint) obj;;
  SetValueUint32 "attributes" (USBEndpoint.attributes_ usbEndpoint) obj;;
  SetValueInt32 "interval" (USBEndpoint.interval_ usbEndpoint) obj;;
  SetValueInt32 "maxPacketSize" (USBEndpoint.maxPacketSize_ usbEndpoint) obj;;
  SetValueUint32 "direction" (USBEndpoint.GetDirection usbEndpoint) obj;;
  SetValueUint32 "number" (USBEndpoint.GetEndpointNumber usbEndpoint) obj;;
  SetValueUint32 "type" (USBEndpoint.GetType usbEndpoint) obj;;
  SetValueInt32 "interfaceId" (GetInterfaceId usbEndpoint) obj;;
  mret obj.
(** The endpoint of each index below the number of endpoints exists. *)
Definition endpoints_array (endpoints : list USBEndpoint.t) : M napi_value :=
  arr ← napi_create_array;
  for_elements 0 (λ i usbEndpoint, objTmp ← CtoJSUsbEndpoint usbEndpoint; napi_set_element arr i objTmp) endpoints;;
  mret arr.
Definition CtoJSUsbInterface (usbInterface : UsbInterface.t) : M napi_value :=
  obj ← napi_create_object;
  SetValueInt32 "id" (UsbInterface.id_ usbInterface) obj;;
  SetValueInt32 "protocol" (UsbInterface.protocol_ usbInterface) obj;;
  SetValueInt32 "clazz" (UsbInterface.klass_ usbInterface) obj;;
  SetValueInt32 "subClass" (UsbInterface.subClass_ usbInterface) obj;;
  SetValueInt32 "alternateSetting" (UsbInterface.alternateSetting_ usbInterface) obj;;
  SetValueUtf8String "name" (UsbInterface.name_ usbInterface) obj;;
  arr ← endpoints_array (UsbInterface.endpoints_ usbInterface);
  napi_set_named_property obj "endpoints" arr;;
  mret obj.
Definition interfaces_array (interfaces : list UsbInterface.t) : M napi_value :=
  arr ← napi_create_array;
  for_elements 0 (λ i usbInterface, objTmp ← CtoJSUsbInterface usbInterface; napi_set_element arr i objTmp) interfaces;;
  mret arr.
Definition CtoJSUsbConfig (usbConfig : USBConfig.t) : M napi_value :=
  obj ← napi_create_object;
  SetValueInt32 "id" (USBConfig.id_ usbConfig) obj;;
  SetValueUint32 "attributes" (USBConfig.attributes_ usbConfig) obj;;
  SetValueBool "isRemoteWakeup" (USBConfig.IsRemoteWakeup usbConfig) obj;;
  SetValueBool "isSelfPowered" (USBConfig.IsSelfPowered usbConfig) obj;;
  SetValueInt32 "maxPower" (USBConfig.GetMaxPower usbConfig) obj;;
  SetValueUtf8String "name" (USBConfig.name_ usbConfig) obj;;
  arr ← interfaces_array (USBConfig.interfaces_ usbConfig);
  napi_set_named_property obj "interfaces" arr;;
  mret obj.
Definition configs_array (configs : list USBConfig.t) : M napi_value :=
  arr ← napi_create_array;
  for_elements 0 (λ i usbConfig, objTmp ← CtoJSUsbConfig usbConfig; napi_set_element arr i objTmp) configs;;
  mret arr.
Definition CtoJSUsbDevice (usbDevice : UsbDevice.t) : M napi_value :=
  obj ← napi_create_object;
  SetValueUtf8String "name" (UsbDevice.name_ usbDevice) obj;;
  SetValueUtf8String "serial" (UsbDevice.serial_ usbDevice) obj;;
  SetValueUtf8String "manufacturerName" (UsbDevice.manufacturerName_ usbDevice) obj;;
  SetValueUtf8String "productName" (UsbDevice.productName_ usbDevice) obj;;
  SetValueUtf8String "version" (UsbDevice.version_ usbDevice) obj;;
  SetValueInt32 "vendorId" (UsbDevice.vendorId_ usbDevice) obj;;
  SetValueInt32 "productId" (UsbDevice.productId_ usbDevice) obj;;
  SetValueInt32 "clazz" (UsbDevice.baseClass_ usbDevice) obj;;
  SetValueInt32 "subClass" (UsbDevice.subClass_ usbDevice) obj;;
  SetValueInt32 "protocol" (UsbDevice.protocol_ usbDevice) obj;;
  SetValueInt32 "devAddress" (UsbDevice.devAddr_ usbDevice) obj;;
  SetValueInt32 "busNum" (UsbDevice.busNum_ usbDevice) obj;;
  arr ← configs_array (UsbDevice.configs_ usbDevice);
  napi_set_named_property obj "configs" arr;;
  mret obj.
Definition CtoJSUSBAccessory (accessory : USBAccessory) : M napi_value :=
  obj ← napi_create_object;
  SetValueUtf8String "manufacturer" (manufacturer_ accessory) obj;;
  SetValueUtf8String "product" (product_ accessory) obj;;
  SetValueUtf8String "description" (description_ accessory) obj;;
  SetValueUtf8String "version" (version_ accessory) obj;;
  SetValueUtf8String "serialNumber" (serialNumber_ accessory) obj;;
  mret obj.
(** The loops of [CoreGetDevices], [DeviceGetAccessoryList] and [GetPorts]; the first
    two create an object that is not used. *)
Definition devices_array (deviceList : list UsbDevice.t) (result : napi_value) : M () :=
  for_elements 0 (λ i ent1, _ ← napi_create_object; device ← CtoJSUsbDevice ent1; napi_set_element result i device) deviceList.
Definition accessories_array (accessoryList : list USBAccessory) (result : napi_value) : M () :=
  for_elements 0 (λ i ent1, _ ← napi_create_object; device ← CtoJSUSBAccessory ent1; napi_set_element result i device) accessoryList.
Definition CtoJSUsbPort (p : UsbPort) : M napi_value :=
  port ← napi_create_object;
  SetValueInt32 "id" (id p) port;;
  SetValueInt32 "supportedModes" (supportedModes p) port;;
  usbPortStatus_ ← napi_create_object;
  SetValueInt32 "currentMode" (currentMode (usbPortStatus p)) usbPortStatus_;;
  SetValueInt32 "currentPowerRole" (currentPowerRole (usbPortStatus p)) usbPortStatus_;;
  SetValueInt32 "currentDataRole" (currentDataRole (usbPortStatus p)) usbPortStatus_;;
  napi_set_named_property port "status" usbPortStatus_;;
  mret port.
Definition ports_array (ports : list UsbPort) (result : napi_value) : M () :=
  for_elements 0 (λ i p, port ← CtoJSUsbPort p; napi_set_element result i port) ports.

(** ** Script to C++ *)

(** The object read into is passed with what it has before. *)
Definition ParseUsbDevicePipe (obj : napi_value) (pipe : USBDevicePipe) : M USBDevicePipe :=
  '(_, valueType) ← napi_typeof obj;
  USB_ASSERT_BASE pipe (bool_decide (valueType = napi_object)) OHEC_COMMON_PARAM_ERROR "The type of pipe must be USBDevicePipe." (
  busNum ← JsObjectToInt obj "busNum" 0;
  devAddr ← JsObjectToInt obj "devAddress" 0;
  mret {| pipe_busNum_ := to_u8 busNum; pipe_devAddr_ := to_u8 devAddr |}).
Definition ParseEndpointObj (endpointObj : napi_value) (ep : USBEndpoint.t) : M USBEndpoint.t :=
  address ← JsObjectToInt endpointObj "address" 0;
  attributes ← JsObjectToInt endpointObj "attributes" 0;
  interval ← JsObjectToInt endpointObj "interval" 0;
  maxPacketSize ← JsObjectToInt endpointObj "maxPacketSize" 0;
  direction ← JsObjectToInt endpointObj "direction" 0;
  USB_ASSERT_BASE ep ((to_u32 direction =? USB_ENDPOINT_DIR_IN) || (to_u32 direction =? USB_ENDPOINT_DIR_OUT)) OHEC_COMMON_PARAM_ERROR
    "The interface should have the endpoints property." (
  _ ← JsObjectToInt endpointObj "number" 0;
  _ ← JsObjectToInt endpointObj "type" 0;
  interfaceId ← JsObjectToInt endpointObj "interfaceId" 0;
  mret {| USBEndpoint.address_ := to_u32 address; USBEndpoint.attributes_ := to_u32 attributes;
          USBEndpoint.interval_ := interval; USBEndpoint.maxPacketSize_ := maxPacketSize;
          USBEndpoint.interfaceId_ := to_u8 interfaceId |}).
(** A loop over the elements of an array with the status of each looked at: [None]
    ends it, and what has been read stays.  [n] elements are left from the [k]-th. *)
Fixpoint read_elements {A} (parse : napi_value → M A) (array : napi_value) (n : nat) (k : Z) (acc : list A) : M (bool * list A) :=
  match n with
  | O => mret (true, acc)
  | S n =>
      '(status, elementObj) ← napi_get_element array k;
      if negb status then mret (false, acc) else
      x ← parse elementObj;
      read_elements parse array n (k + 1) (acc ++ [x])
  end.
(** What [ParseEndpointsObjs] and [ParseInterfacesObjs] have in common. *)
Definition read_array {A} (parse : napi_value → M A) (obj : napi_value) (property missing type : string) (acc : list A) : M (bool * list A) :=
  '(isGetObjSuccess, objs) ← JsObjectGetProperty obj property indeterminate;
  USB_ASSERT_BASE (false, acc) isGetObjSuccess OHEC_COMMON_PARAM_ERROR missing (
  '(status, result) ← napi_is_array objs;
  if negb status then mret (false, acc) else
  USB_ASSERT_BASE (false, acc) result OHEC_COMMON_PARAM_ERROR type (
  '(status, count) ← napi_get_array_length objs;
  if negb status then mret (false, acc) else
  read_elements parse objs (Z.to_nat count) 0 acc)).
Definition ParseEndpointsObjs (interfaceObj : napi_value) (eps : list USBEndpoint.t) : M (bool * list USBEndpoint.t) :=
  read_array (λ endpointObj, ParseEndpointObj endpointObj USBEndpoint.default_) interfaceObj "endpoints"
    "The interface should have the endpoints property." "The type of endpoints must be array." eps.
Definition ParseInterfaceObj (interfaceObj : napi_value) (interface : UsbInterface.t) : M UsbInterface.t :=
  id ← JsObjectToInt interfaceObj "id" 0;
  protocol ← JsObjectToInt interfaceObj "protocol" 0;
  clzz ← JsObjectToInt interfaceObj "clazz" 0;
  subClass ← JsObjectToInt interfaceObj "subClass" 0;
  alternateSetting ← JsObjectToInt interfaceObj "alternateSetting" 0;
  name ← JsObjectToString interfaceObj "name" DEFAULT_DESCRIPTION_SIZE "";
  '(ret, eps) ← ParseEndpointsObjs interfaceObj [];
  if negb ret then mret interface else
  mret {| UsbInterface.id_ := id; UsbInterface.protocol_ := protocol; UsbInterface.klass_ := clzz;
          UsbInterface.subClass_ := subClass; UsbInterface.alternateSetting_ := alternateSetting;
          UsbInterface.name_ := name; UsbInterface.endpoints_ := eps; UsbInterface.iInterface_ := UINT8_MAX;
          UsbInterface.authorized_ := true |}.
Definition ParseInterfacesObjs (configObj : napi_value) (interfaces : list UsbInterface.t) : M (bool * list UsbInterface.t) :=
  read_array (λ interfaceObj, ParseInterfaceObj interfaceObj UsbInterface.default_) configObj "interfaces"
    "The config should have the interfaces property." "The type of interfaces must be array." interfaces.
Definition ParseConfigObj (configObj : napi_value) (config : USBConfig.t) : M USBConfig.t :=
  id ← JsObjectToInt configObj "id" 0;
  attributes ← JsObjectToInt configObj "attributes" 0;
  maxPower ← JsObjectToInt configObj "maxPower" 0;
  name ← JsObjectToString configObj "name" DEFAULT_DESCRIPTION_SIZE "";
  _ ← JsObjectToBool configObj "isRemoteWakeup" false;
  _ ← JsObjectToBool configObj "isSelfPowered" false;
  '(ret, interfaces) ← ParseInterfacesObjs configObj [];
  if negb ret then mret config else
  mret {| USBConfig.id_ := id; USBConfig.attributes_ := to_u32 attributes; USBConfig.interfaces_ := interfaces;
          USBConfig.maxPower_ := maxPower; USBConfig.name_ := name; USBConfig.iConfiguration_ := UINT8_MAX |}.
(** Here the results are not looked at. *)
Fixpoint read_configs (configsObj : napi_value) (n : nat) (i : Z) (configs : list USBConfig.t) : M (list USBConfig.t) :=
  match n with
  | O => mret configs
  | S n =>
      '(_, configObj) ← napi_get_element configsObj i;
      config ← ParseConfigObj configObj USBConfig.default_;
      read_configs configsObj n (i + 1) (configs ++ [config])
  end.
Definition ParseConfigsObjs (deviceObj : napi_value) (configs : list USBConfig.t) : M (list USBConfig.t) :=
  '(hasProperty, configsObj) ← JsObjectGetProperty deviceObj "configs" indeterminate;
  USB_ASSERT_BASE configs hasProperty OHEC_COMMON_PARAM_ERROR "The device should have the configs property." (
  '(_, valueType) ← napi_typeof configsObj;
  USB_ASSERT_BASE configs (bool_decide (valueType = napi_object)) OHEC_COMMON_PARAM_ERROR "The type of configs must be object." (
  '(_, configCount) ← napi_get_array_length configsObj;
  read_configs configsObj (Z.to_nat configCount) 0 configs)).
(** The constructor does not take the serial. *)
Definition ParseDeviceObj (deviceObj : napi_value) : M UsbDevice.t :=
  name ← JsObjectToString deviceObj "name" DEFAULT_DESCRIPTION_SIZE "";
  manufacturerName ← JsObjectToString deviceObj "manufacturerName" DEFAULT_DESCRIPTION_SIZE "";
  productName ← JsObjectToString deviceObj "productName" DEFAULT_DESCRIPTION_SIZE "";
  version ← JsObjectToString deviceObj "version" DEFAULT_DESCRIPTION_SIZE "";
  _ ← JsObjectToString deviceObj "serial" DEFAULT_DESCRIPTION_SIZE "";
  devAddr ← JsObjectToInt deviceObj "devAddress" 0;
  busNum ← JsObjectToInt deviceObj "busNum" 0;
  vendorId ← JsObjectToInt deviceObj "vendorId" 0;
  productId ← JsObjectToInt deviceObj "productId" 0;
  clazz ← JsObjectToInt deviceObj "clazz" 0;
  subClass ← JsObjectToInt deviceObj "subClass" 0;
  protocol ← JsObjectToInt deviceObj "protocol" 0;
  configs ← ParseConfigsObjs deviceObj [];
  let d := UsbDevice.default_ in
  mret {| UsbDevice.name_ := name; UsbDevice.manufacturerName_ := manufacturerName; UsbDevice.productName_ := productName;
    UsbDevice.version_ := version; UsbDevice.serial_ := UsbDevice.serial_ d; UsbDevice.authorizeStatus_ := UsbDevice.authorizeStatus_ d;
    UsbDevice.devAddr_ := to_u8 devAddr; UsbDevice.busNum_ := to_u8 busNum; UsbDevice.descConfigCount_ := UsbDevice.descConfigCount_ d;
    UsbDevice.bMaxPacketSize0_ := UsbDevice.bMaxPacketSize0_ d; UsbDevice.bcdUSB_ := UsbDevice.bcdUSB_ d;
    UsbDevice.bcdDevice_ := UsbDevice.bcdDevice_ d; UsbDevice.iManufacturer_ := UsbDevice.iManufacturer_ d;
    UsbDevice.iProduct_ := UsbDevice.iProduct_ d; UsbDevice.iSerialNumber_ := UsbDevice.iSerialNumber_ d;
    UsbDevice.vendorId_ := vendorId; UsbDevice.productId_ := productId; UsbDevice.baseClass_ := clazz;
    UsbDevice.subClass_ := subClass; UsbDevice.protocol_ := protocol; UsbDevice.configs_ := configs |}.
Definition ParseAccessoryObj (accessoryObj : napi_value) : M USBAccessory :=
  manufacturer ← JsObjectToString accessoryObj "manufacturer" DEFAULT_ACCESSORY_DESCRIPTION_SIZE "";
  product ← JsObjectToString accessoryObj "product" DEFAULT_ACCESSORY_DESCRIPTION_SIZE "";
  description ← JsObjectToString accessoryObj "description" DEFAULT_ACCESSORY_DESCRIPTION_SIZE "";
  version ← JsObjectToString accessoryObj "version" DEFAULT_ACCESSORY_DESCRIPTION_SIZE "";
  serialNumber ← JsObjectToString accessoryObj "serialNumber" DEFAULT_ACCESSORY_DESCRIPTION_SIZE "";
  mret {| manufacturer_ := manufacturer; product_ := product; description_ := description; version_ := version;
          serialNumber_ := serialNumber |}.

Record PipeControlParam := {
  param_request : Z; param_target : Z; param_reqType : Z; param_value : Z; param_index : Z;
  param_data : option data_ptr; param_dataLength : Z }.
Definition ParsePipeControlParam (jsObj : napi_value) (controlParam : PipeControlParam) : M (bool * PipeControlParam) :=
  request ← JsObjectToInt jsObj "request" 0;
  target ← JsObjectToInt jsObj "target" 0;
  reqType ← JsObjectToUint jsObj "reqType" 0;
  value ← JsObjectToInt jsObj "value" 0;
  index ← JsObjectToInt jsObj "index" 0;
  '(hasProperty, dataValue) ← JsObjectGetProperty jsObj "data" indeterminate;
  USB_ASSERT_BASE (false, controlParam) hasProperty OHEC_COMMON_PARAM_ERROR "The controlParam should have the data property." (
  '(_, (data, dataLength)) ← JsUint8ArrayParseReserveZeroBuffer dataValue;
  mret (true, {| param_request := request; param_target := target; param_reqType := reqType; param_value := value;
                 param_index := index; param_data := data; param_dataLength := dataLength |})).
Record UsbPipeControlParam := {
  usb_reqType : Z; usb_request : Z; usb_value : Z; usb_index : Z; usb_length : Z;
  usb_data : option data_ptr; usb_dataLength : Z }.
Definition ParseUsbPipeControlParam (jsObj : napi_value) (controlParam : UsbPipeControlParam) : M UsbPipeControlParam :=
  reqType ← JsObjectToUint jsObj "bmRequestType" 0;
  request ← JsObjectToInt jsObj "bRequest" 0;
  value ← JsObjectToInt jsObj "wValue" 0;
  index ← JsObjectToInt jsObj "wIndex" 0;
  length ← JsObjectToInt jsObj "wLength" 0;
  '(hasProperty, dataValue) ← JsObjectGetProperty jsObj "data" indeterminate;
  USB_ASSERT_BASE controlParam hasProperty OHEC_COMMON_PARAM_ERROR "The controlParam should have the data property." (
  '(_, (data, dataLength)) ← JsUint8ArrayParseReserveZeroBuffer dataValue;
  mret {| usb_reqType := reqType; usb_request := request; usb_value := value; usb_index := index; usb_length := length;
          usb_data := data; usb_dataLength := dataLength |}).
End Conversions.
