(* ===== verification/UsbInfo.v ===== *)
(** * The functions of the JavaScript module
    (interfaces/kits/js/napi/src/usb_info.cpp, the functions that answer at once)

    A function checks its arguments, asks the client library and answers with a
    value; what goes wrong is thrown as an error with a code.  How long a call took
    and its code are counted when it returns. *)
From S2P Require Import Prelude UsbErrors Platform UsbAccessory UsbDevice UsbDescriptorParser UsbPortManager UsbInterfaceType UsbHostManager UsbHostTransfer UsbService UsbServiceHost UsbServiceSerial UsbSrvClient UsbTransferCallbacks UsbUtilities NapiUtil UsbInfoParse.

Definition STR_DEFAULT_SIZE : Z := 256.
Definition SEVVERSION : string := "001" +:+ "." +:+ "001" +:+ "." +:+ "025".
Definition HDF_FAILURE : Z := -1.
Definition HDF_DEV_ERR_NO_DEVICE : Z := -202.
Inductive UsbManagerFeature := FEATURE_HOST | FEATURE_DEVICE | FEATURE_PORT.

(** ** The process *)

(** How the module was built, the clock, the counters, open files, memory that is
    allocated and memory that is shared with the service. *)
Class NapiSystem (O : Type) := {
  USB_MANAGER_FEATURE_HOST : bool;
  USB_MANAGER_FEATURE_DEVICE : bool;
  USB_MANAGER_FEATURE_PORT : bool;
  USB_MANAGER_METRICS_ENABLE : bool;
  gettimeofday : state O (Z * Z);
  report : UsbApiMetrics.Histogram → state O ();
  usb_owner_tag : Z;      (* [fdsan_create_owner_tag(FDSAN_OWNER_TYPE_FILE, USB_NAPI_SUBDOMAIN)] *)
  fdsan_exchange_owner_tag : Z → Z → Z → state O ();
  fdsan_close_with_tag : Z → Z → state O ();
  close_fd : Z → state O ();
  new_nothrow : state O bool;
  new_context : gset positive → state O (option positive);
  CreateAshmem : string → Z → state O (option Ashmem);
  MapReadAndWriteAshmem : Ashmem → state O ();
  WriteToAshmem : Ashmem → list Z → state O bool;
  ReadFromAshmem : Ashmem → Z → state O (option (list Z));
  UnmapAshmem : Ashmem → state O ();
  CloseAshmem : Ashmem → state O ();
}.
Definition HasFeature {O} `{!NapiSystem O} (feature : UsbManagerFeature) : bool :=
  match feature with
  | FEATURE_HOST => USB_MANAGER_FEATURE_HOST
  | FEATURE_DEVICE => USB_MANAGER_FEATURE_DEVICE
  | FEATURE_PORT => USB_MANAGER_FEATURE_PORT
  end.
Arguments HasFeature O {_} feature.

(** ** Work for other threads (usb_async_context.h) *)

(** Where a buffer is: null, made by [new], or in an array of the script. *)
Inductive Buffer := NullBuffer | NativeBuffer (bytes : list Z) | ScriptBuffer (p : data_ptr).
Definition buffer_of (p : option data_ptr) : Buffer := match p with Some p => ScriptBuffer p | None => NullBuffer end.
Record TransferContext := {
  buffer : Buffer;
  bufferLength : Z;      (* uint32_t *)
  dataSize : Z;          (* uint32_t *)
  timeOut : Z;
  pipe : USBDevicePipe;
}.
(** What is particular to a request. *)
Inductive Request :=
  | RightRequest (deviceName : string)
  | AccessoryRightRequest (accessory : USBAccessory) (hasRight : bool) (errCode : Z)
  | FunctionRequest (functions errCode : Z) (metricsName : string)
  | PortRoleRequest (portId powerRole dataRole errCode : Z) (metricsName : string)
  | ControlTransferRequest (request target reqType value index : Z) (t : TransferContext)
  | UsbControlTransferRequest (reqType request value index length : Z) (t : TransferContext)
  | BulkTransferRequest (endpoint : USBEndpoint.t) (t : TransferContext).
Record USBAsyncContext := {
  deferred : option napi_deferred;
  succeeded : bool;                    (* [status == napi_ok], which is 0 *)
  work_metrics : option UsbApiMetrics.t;
  request_of : Request;
}.
(** The context of a submitted transfer. *)
Record USBTransferAsyncContext := {
  submit_pipe : USBDevicePipe;
  submit_endpoint : Z;
  submit_flags : Z;
  submit_type : Z;
  submit_timeOut : Z;
  submit_length : Z;
  submit_bufferLength : Z;
  submit_ashmem : option Ashmem;
  submit_buffer : option data_ptr;
  numIsoPackets : Z;
  callbackRef : option Z;
}.
(** The arguments of a call of the script's callback, with the context to delete. *)
Record AsyncCallBackContext := {
  cb_status : Z; cb_actualLength : Z; cb_isoInfo : list UsbIsoPacketDescriptor; cb_callbackRef : option Z; cb_context : positive }.

Record UsbInfo (S P E O : Type) := {
  g_usbClient : UsbSrvClient S P;
  engine : E;
  system : O;
  g_accFd : Z;
  metrics : UsbApiMetrics.t;                     (* of the function that runs *)
  works : list (bool * USBAsyncContext);         (* whether it has been executed *)
  transfers : gmap positive USBTransferAsyncContext;
  events : list AsyncCallBackContext;            (* sent to the script's thread *)
  bad_delete : bool;                             (* something not made by [new] was deleted *)
}.
Arguments g_usbClient {S P E O} _.
Arguments engine {S P E O} _.
Arguments system {S P E O} _.
Arguments g_accFd {S P E O} _.
Arguments metrics {S P E O} _.
Arguments works {S P E O} _.
Arguments transfers {S P E O} _.
Arguments events {S P E O} _.
Arguments bad_delete {S P E O} _.
Arguments Build_UsbInfo {S P E O} _ _ _ _ _ _ _ _ _.

Section Fields.
Context {S P E O : Type}.
Implicit Types m : UsbInfo S P E O.
Definition set_client (x : UsbSrvClient S P) m := let 'Build_UsbInfo _ b c d e f g h i := m in Build_UsbInfo x b c d e f g h i.
Definition set_engine (x : E) m := let 'Build_UsbInfo a _ c d e f g h i := m in Build_UsbInfo a x c d e f g h i.
Definition set_system (x : O) m := let 'Build_UsbInfo a b _ d e f g h i := m in Build_UsbInfo a b x d e f g h i.
Definition set_accFd (x : Z) m := let 'Build_UsbInfo a b c _ e f g h i := m in Build_UsbInfo a b c x e f g h i.
Definition set_metrics (x : UsbApiMetrics.t) m := let 'Build_UsbInfo a b c d _ f g h i := m in Build_UsbInfo a b c d x f g h i.
Definition set_works x m := let 'Build_UsbInfo a b c d e _ g h i := m in Build_UsbInfo a b c d e x g h i.
Definition set_transfers x m := let 'Build_UsbInfo a b c d e f _ h i := m in Build_UsbInfo a b c d e f x h i.
Definition set_events x m := let 'Build_UsbInfo a b c d e f g _ i := m in Build_UsbInfo a b c d e f g x i.
Definition set_bad_delete x m := let 'Build_UsbInfo a b c d e f g h _ := m in Build_UsbInfo a b c d e f g h x.
End Fields.

Section Functions.
Context {S P E O : Type} `{!IUsbServer S, !ClientPlatform P, !ErrCodeBase, !Napi E, !SecureC, !NapiSystem O}.
Context (others : state (UsbSrvClient S P) ()) (uninit_length : Z) (indeterminate : napi_value).
Abbreviation M := (state (UsbInfo S P E O)).

Definition on_client {A} (f : state (UsbSrvClient S P) A) : M A := zoom g_usbClient set_client f.
Definition on_engine {A} (f : state E A) : M A := zoom engine set_engine f.
Definition on_system {A} (f : state O A) : M A := zoom system set_system f.

(** ** What the functions share *)

(** [UsbApiMetrics metrics(name)] and its destructor around a body. *)
Definition destroy_metrics (m : UsbApiMetrics.t) : M () :=
  if negb (USB_MANAGER_METRICS_ENABLE (O:=O)) then mret () else
  endTime ← on_system gettimeofday;
  for_each (λ h, on_system (report h)) (UsbApiMetrics.destruct_ m endTime).
Definition with_metrics {A} (name : string) (body : M A) : M A :=
  now ← on_system gettimeofday;
  modify (set_metrics (UsbApiMetrics.construct name now));;
  r ← body;
  m ← gets metrics;
  destroy_metrics m;;
  mret r.
Definition SetErrorCode (error : Z) : M () := modify (λ m, set_metrics (UsbApiMetrics.SetErrorCode error (metrics m)) m).
Definition Throw (errCode : Z) (errMsg : string) : M () := on_engine (ThrowBusinessError errCode errMsg).
(** [metrics.SetErrorCode(c); ThrowBusinessError(env, c, msg);] *)
Definition fail_with (errCode : Z) (errMsg : string) : M () := SetErrorCode errCode;; Throw errCode errMsg.

(** The macros; the counters hear nothing of an assertion. *)
Definition USB_ASSERT {A} (retVal : A) (assertion : bool) (errMsg : string) (k : M A) : M A :=
  if negb assertion then Throw OHEC_COMMON_PARAM_ERROR errMsg;; mret retVal else k.
Definition USB_ASSERT_RETURN_UNDEF (assertion : bool) (errCode : Z) (k : M napi_value) : M napi_value :=
  obj ← on_engine napi_get_undefined;
  if negb assertion then Throw errCode "";; mret obj else k.
Definition NAPI_CHECK (status : bool) (k : M napi_value) : M napi_value :=
  if negb status then on_engine napi_get_undefined else k.
(** The two assertions after a request of a system function. *)
Definition system_api (ret : Z) (k : M napi_value) : M napi_value :=
  USB_ASSERT_RETURN_UNDEF (negb (ret =? uec UEC_SERVICE_PERMISSION_DENIED_SYSAPI)) OHEC_COMMON_NORMAL_APP_NOT_ALLOWED (
  USB_ASSERT_RETURN_UNDEF (negb (ret =? uec UEC_SERVICE_PERMISSION_DENIED_SYSAPI_FAILED)) OHEC_COMMON_PERMISSION_NOT_ALLOWED k).

(** [if (!HasFeature(f)) { metrics.SetErrorCode(...); ThrowBusinessError(...); return nullptr; }] *)
Definition needs_feature (f : UsbManagerFeature) (k : M napi_value) : M napi_value :=
  if negb (HasFeature O f) then fail_with CAPABILITY_NOT_SUPPORT "";; mret nullptr else k.
(** The arguments of a call, [None] when [napi_get_cb_info] fails. *)
Definition cb_info : Type := option (list napi_value).
Definition argv (args : list napi_value) (i : nat) : napi_value := nth i args nullptr.
Definition takes_no_arguments (info : cb_info) (k : M napi_value) : M napi_value :=
  USB_ASSERT nullptr (bool_decide (default 1%nat (length <$> info) = 0%nat)) "The function takes no arguments." k.
Definition takes_arguments (n : nat) (message : string) (info : cb_info) (k : list napi_value → M napi_value) : M napi_value :=
  match info with
  | None => on_engine napi_get_undefined
  | Some args => USB_ASSERT nullptr (n <=? length args)%nat message (k args)
  end.
(** The type of an argument, with the status looked at and without. *)
Definition of_type (v : napi_value) (t : napi_valuetype) (message : string) (k : M napi_value) : M napi_value :=
  '(status, type) ← on_engine (napi_typeof v);
  NAPI_CHECK status (USB_ASSERT nullptr (bool_decide (type = t)) message k).
Definition of_type_unchecked {A} (retVal : A) (v : napi_value) (t : napi_valuetype) (message : string) (k : M A) : M A :=
  '(_, type) ← on_engine (napi_typeof v);
  USB_ASSERT retVal (bool_decide (type = t)) message k.
Definition ONE : string := "The function at least takes one argument.".
Definition TWO : string := "The function at least takes two arguments.".
Definition PIPE : string := "The type of pipe must be USBDevicePipe.".
Definition ACCESSORY : string := "The type of device must be USBAccessory.".
Definition bool_value (b : bool) : M napi_value := on_engine (napi_get_boolean b).
Definition int_value (z : Z) : M napi_value := on_engine (napi_create_int32 z).
Definition undefined_value : M napi_value := on_engine napi_get_undefined.
Definition string_argument (v : napi_value) : M string := on_engine (JsValueToString v STR_DEFAULT_SIZE "").
Definition pipe_argument (v : napi_value) : M USBDevicePipe := on_engine (ParseUsbDevicePipe v new_pipe).

(** ** Devices *)

Definition CoreGetDevices (info : cb_info) : M napi_value :=
  with_metrics "BasicServicesKit.UsbManager.GetDevices" (
  needs_feature FEATURE_HOST (
  takes_no_arguments info (
  '(ret, deviceList) ← on_client (GetDevices others []);
  result ← on_engine napi_create_array;
  if negb (ret =? UEC_OK) then mret result else
  on_engine (devices_array deviceList result);;
  mret result))).
Definition CoreConnectDevice (info : cb_info) : M napi_value :=
  with_metrics "BasicServicesKit.UsbManager.ConnectDevice" (
  needs_feature FEATURE_HOST (
  takes_arguments 1 ONE info (λ args,
  of_type (argv args 0) napi_object "The type of device must be USBDevice." (
  dev ← on_engine (ParseDeviceObj indeterminate (argv args 0));
  '(ret, pipe) ← on_client (OpenDevice others dev new_pipe);
  if ret =? UEC_OK then on_engine (CreateUsbDevicePipe pipe)
  else if (ret =? uec UEC_SERVICE_PERMISSION_DENIED) || (ret =? uec UEC_INTERFACE_PERMISSION_DENIED) then
    fail_with UEC_COMMON_HAS_NO_RIGHT "need call requestRight to get the permission";; mret nullptr
  else undefined_value)))).

(** ** Accessories *)

Definition DeviceGetAccessoryList (info : cb_info) : M napi_value :=
  with_metrics "BasicServicesKit.UsbManager.GetAccessoryList" (
  needs_feature FEATURE_DEVICE (
  takes_no_arguments info (
  '(ret, accessoryList) ← on_client (GetAccessoryList others []);
  if ret =? UEC_OK then
    result ← on_engine napi_create_array;
    on_engine (accessories_array accessoryList result);;
    mret result
  else fail_with UEC_COMMON_SERVICE_EXCEPTION "Service exception";; mret nullptr))).
Definition DeviceOpenAccessory (info : cb_info) : M napi_value :=
  with_metrics "BasicServicesKit.UsbManager.OpenAccessory" (
  needs_feature FEATURE_DEVICE (
  takes_arguments 1 ONE info (λ args,
  of_type (argv args 0) napi_object ACCESSORY (
  accessory ← on_engine (ParseAccessoryObj (argv args 0));
  '(ret, fd) ← on_client (OpenAccessory others accessory (-1));
  if ret =? UEC_OK then
    modify (set_accFd fd);;
    on_system (fdsan_exchange_owner_tag fd 0 usb_owner_tag);;
    on_engine (CreatAccessoryHandle fd)
  else
  (if (ret =? uec UEC_SERVICE_PERMISSION_DENIED) || (ret =? uec UEC_INTERFACE_PERMISSION_DENIED) then
     fail_with UEC_COMMON_HAS_NO_RIGHT "Call requestAccessoryRight to get the permission first"
   else if ret =? uec UEC_SERVICE_ACCESSORY_NOT_MATCH then
     fail_with UEC_ACCESSORY_NOT_MATCH "Get accessory through getAccessoryList"
   else if ret =? uec UEC_SERVICE_ACCESSORY_OPEN_NATIVE_NODE_FAILED then
     fail_with UEC_ACCESSORY_OPEN_FAILED "Failed to open the native accessory node"
   else if ret =? uec UEC_SERVICE_ACCESSORY_REOPEN then
     fail_with UEC_ACCESSORY_CAN_NOT_REOPEN "Cannot reopen accessory"
   else fail_with UEC_COMMON_SERVICE_EXCEPTION "Service exception");;
  mret nullptr)))).
(** A wrong handle is an error, and the function goes on; without the property the
    descriptor is what the variable happens to hold. *)
Definition DeviceCloseAccessory (uninit_fd : Z) (info : cb_info) : M napi_value :=
  with_metrics "BasicServicesKit.UsbManager.CloseAccessory" (
  needs_feature FEATURE_DEVICE (
  takes_arguments 1 ONE info (λ args,
  of_type (argv args 0) napi_object "The type of device must be USBAccessoryHandle." (
  accessoryFd ← on_engine (JsObjectToInt (argv args 0) "accessoryFd" uninit_fd);
  fd ← gets g_accFd;
  (if (accessoryFd =? 0) || negb (accessoryFd =? fd) || (fd =? 0)
   then fail_with OHEC_COMMON_PARAM_ERROR "Parameter accessoryHandle error, need openAccessory first." else mret ());;
  on_system (fdsan_close_with_tag accessoryFd usb_owner_tag);;
  ret ← on_client (CloseAccessory others fd);
  modify (set_accFd 0);;
  (if negb (ret =? UEC_OK) then fail_with UEC_COMMON_SERVICE_EXCEPTION "Service exception" else mret ());;
  mret nullptr)))).
Definition DeviceAddAccessoryRight (uninit_token : Z) (info : cb_info) : M napi_value :=
  with_metrics "BasicServicesKit.UsbManager.AddAccessoryRight" (
  needs_feature FEATURE_DEVICE (
  takes_arguments 2 "The function at least takes two argument." info (λ args,
  of_type (argv args 0) napi_number "The type of tokenId must be number." (
  '(_, tokenId) ← on_engine (napi_get_value_uint32 (argv args 0) uninit_token);
  of_type (argv args 1) napi_object ACCESSORY (
  accessory ← on_engine (ParseAccessoryObj (argv args 1));
  ret ← on_client (AddAccessoryRight others tokenId accessory);
  if ret =? UEC_OK then mret nullptr
  else if ret =? uec UEC_SERVICE_GET_TOKEN_INFO_FAILED then fail_with OHEC_COMMON_PARAM_ERROR "";; mret nullptr
  else if ret =? uec UEC_SERVICE_ACCESSORY_NOT_MATCH then
    fail_with OHEC_COMMON_PARAM_ERROR "Get accessory through getAccessoryList";; mret nullptr
  else if ret =? uec UEC_SERVICE_DATABASE_OPERATION_FAILED then
    fail_with UEC_COMMON_RIGHT_DATABASE_ERROR "Database request operation exception";; mret nullptr
  else system_api ret (
    Throw UEC_COMMON_SERVICE_EXCEPTION "Service exception";;
    SetErrorCode UEC_COMMON_SERVICE_EXCEPTION;;
    mret nullptr)))))).
(** The current accessory is closed first, whichever accessory it is. *)
Definition DeviceCancelAccessoryRight (info : cb_info) : M napi_value :=
  with_metrics "BasicServicesKit.UsbManager.CancelAccessoryRight" (
  needs_feature FEATURE_DEVICE (
  takes_arguments 1 ONE info (λ args,
  of_type (argv args 0) napi_object ACCESSORY (
  accessory ← on_engine (ParseAccessoryObj (argv args 0));
  fd ← gets g_accFd;
  (if negb (fd =? 0) then
     on_system (close_fd fd);;
     _ ← on_client (CloseAccessory others fd);
     modify (set_accFd 0)
   else mret ());;
  ret ← on_client (CancelAccessoryRight others accessory);
  if ret =? UEC_OK then mret nullptr else
  (if ret =? uec UEC_SERVICE_ACCESSORY_NOT_MATCH then
     fail_with UEC_ACCESSORY_NOT_MATCH "Get accessory through getAccessoryList"
   else if ret =? uec UEC_SERVICE_DATABASE_OPERATION_FAILED then
     fail_with UEC_COMMON_RIGHT_DATABASE_ERROR "Database request operation exception"
   else fail_with UEC_COMMON_SERVICE_EXCEPTION "Service exception");;
  mret nullptr)))).
Definition DeviceHasAccessoryRight (info : cb_info) : M napi_value :=
  with_metrics "BasicServicesKit.UsbManager.HasAccessoryRight" (
  needs_feature FEATURE_DEVICE (
  takes_arguments 1 ONE info (λ args,
  of_type (argv args 0) napi_object ACCESSORY (
  accessory ← on_engine (ParseAccessoryObj (argv args 0));
  '(ret, result) ← on_client (HasAccessoryRight others accessory false);
  if ret =? UEC_OK then bool_value result else
  (if ret =? uec UEC_SERVICE_ACCESSORY_NOT_MATCH then
     fail_with UEC_ACCESSORY_NOT_MATCH "Get accessory through getAccessoryList"
   else if ret =? uec UEC_SERVICE_DATABASE_OPERATION_FAILED then
     fail_with UEC_COMMON_RIGHT_DATABASE_ERROR "Database request operation exception"
   else fail_with UEC_COMMON_SERVICE_EXCEPTION "Service exception");;
  mret nullptr)))).

(** ** Rights on devices *)

Definition DeviceAddAccessRight (info : cb_info) : M napi_value :=
  with_metrics "BasicServicesKit.UsbManager.AddDeviceAccessRight" (
  needs_feature FEATURE_HOST (
  takes_arguments 2 "The function at least takes two argument." info (λ args,
  of_type (argv args 0) napi_string "The type of tokenId must be string." (
  tokenId ← string_argument (argv args 0);
  of_type (argv args 1) napi_string "The type of deviceName must be string." (
  deviceName ← string_argument (argv args 1);
  ret ← on_client (AddAccessRight others tokenId deviceName);
  if ret =? UEC_OK then bool_value true else system_api ret (bool_value false)))))).
Definition DeviceRemoveRight (info : cb_info) : M napi_value :=
  with_metrics "BasicServicesKit.UsbManager.RemoveRight" (
  needs_feature FEATURE_HOST (
  takes_arguments 1 ONE info (λ args,
  of_type (argv args 0) napi_string "The type of deviceName must be string." (
  deviceName ← string_argument (argv args 0);
  ret ← on_client (RemoveRight others deviceName);
  bool_value (ret =? UEC_OK))))).
Definition CoreHasRight (info : cb_info) : M napi_value :=
  with_metrics "BasicServicesKit.UsbManager.HasRight" (
  needs_feature FEATURE_HOST (
  takes_arguments 1 ONE info (λ args,
  of_type (argv args 0) napi_string "The type of deviceName must be string" (
  deviceName ← string_argument (argv args 0);
  result ← on_client (HasRight others deviceName);
  bool_value result)))).

(** ** Functions and ports; each is there under two names *)

Definition UsbFunctionsFromString (metricsName : string) (info : cb_info) : M napi_value :=
  with_metrics metricsName (
  needs_feature FEATURE_DEVICE (
  takes_arguments 1 ONE info (λ args,
  of_type (argv args 0) napi_string "The type of funcs must be string." (
  funcs ← string_argument (argv args 0);
  numFuncs ← on_client (UsbSrvClient.UsbFunctionsFromString others funcs);
  system_api numFuncs (int_value numFuncs))))).
Definition UsbFunctionsToString (uninit_funcs : Z) (metricsName : string) (info : cb_info) : M napi_value :=
  with_metrics metricsName (
  needs_feature FEATURE_DEVICE (
  takes_arguments 1 ONE info (λ args,
  of_type (argv args 0) napi_number "The type of funcs must be number." (
  funcs ← on_engine (napi_get_value_int32 (argv args 0) uninit_funcs);
  strFuncs ← on_client (UsbSrvClient.UsbFunctionsToString others funcs);
  USB_ASSERT_RETURN_UNDEF (negb (bool_decide (strFuncs = PERMISSION_DENIED_SYSAPI))) OHEC_COMMON_NORMAL_APP_NOT_ALLOWED (
  USB_ASSERT_RETURN_UNDEF (negb (bool_decide (strFuncs = SYS_APP_PERMISSION_DENIED_SYSAPI))) OHEC_COMMON_PERMISSION_NOT_ALLOWED (
  on_engine (napi_create_string_utf8 (c_str strFuncs)))))))).
Definition GetCurrentFunctions (uninit_funcs : Z) (metricsName : string) (info : cb_info) : M napi_value :=
  with_metrics metricsName (
  needs_feature FEATURE_DEVICE (
  NAPI_CHECK (bool_decide (is_Some info)) (
  takes_no_arguments info (
  '(ret, cfuncs) ← on_client (UsbSrvClient.GetCurrentFunctions others uninit_funcs);
  system_api ret (if negb (ret =? UEC_OK) then undefined_value else int_value cfuncs))))).
Definition GetPorts (metricsName : string) (info : cb_info) : M napi_value :=
  with_metrics metricsName (
  needs_feature FEATURE_PORT (
  NAPI_CHECK (bool_decide (is_Some info)) (
  takes_no_arguments info (
  '(ret, ports) ← on_client (UsbSrvClient.GetPorts others []);
  system_api ret (
    if negb (ret =? UEC_OK) then undefined_value else
    result ← on_engine napi_create_array;
    on_engine (ports_array ports result);;
    mret result))))).
(** Other codes than the two of [system_api] are only logged. *)
Definition GetSupportedModes (metricsName : string) (info : cb_info) : M napi_value :=
  with_metrics metricsName (
  needs_feature FEATURE_PORT (
  takes_arguments 1 ONE info (λ args,
  of_type (argv args 0) napi_number "The type of portId must be number." (
  id ← on_engine (napi_get_value_int32 (argv args 0) 0);
  '(ret, result) ← on_client (UsbSrvClient.GetSupportedModes others id 0);
  system_api ret (int_value result))))).

(** ** Pipes *)

(** [force] when it is a boolean; another value is ignored. *)
Definition force_argument (args : list napi_value) : M bool :=
  if negb (3 <=? length args)%nat then mret false else
  '(_, type) ← on_engine (napi_typeof (argv args 2));
  if bool_decide (type = napi_boolean) then on_engine (napi_get_value_bool (argv args 2) false) else mret false.
Definition IFACE : string := "The type of iface must be USBInterface.".
Definition PipeClaimInterface (info : cb_info) : M napi_value :=
  with_metrics "BasicServicesKit.UsbManager.ClaimInterface" (
  needs_feature FEATURE_HOST (
  takes_arguments 2 TWO info (λ args,
  of_type_unchecked nullptr (argv args 0) napi_object PIPE (
  pipe ← pipe_argument (argv args 0);
  of_type_unchecked nullptr (argv args 1) napi_object IFACE (
  interface ← on_engine (ParseInterfaceObj indeterminate (argv args 1) UsbInterface.default_);
  isForce ← force_argument args;
  ret ← on_client (ClaimInterface pipe interface isForce);
  int_value ret))))).
Definition ThrowClaimExclusiveError (ret : Z) : M () :=
  if ret =? uec UEC_SERVICE_PERMISSION_DENIED then Throw UEC_COMMON_HAS_NO_RIGHT "BusinessError 14400001:Permission denied."
  else if ret =? uec UEC_INTERFACE_BUSY then
    Throw USB_SUBMIT_TRANSFER_RESOURCE_BUSY_ERROR "BusinessError 14400007:Resource busy. The interface is exclusively claimed by another application."
  else if ret =? uec UEC_SERVICE_INVALID_VALUE then
    Throw UEC_COMMON_SERVICE_EXCEPTION "BusinessError 14400004:Service exception. Possible causes: No device is inserted."
  else Throw USB_SUBMIT_TRANSFER_OTHER_ERROR "BusinessError 14400010:Other USB error. The driver returned an error.".
Record ClaimExclusiveParams := {
  claim_pipe : USBDevicePipe; claim_interface : UsbInterface.t; claim_isForce : bool; claim_callback : option Listener }.
Definition no_params : ClaimExclusiveParams :=
  {| claim_pipe := new_pipe; claim_interface := UsbInterface.default_; claim_isForce := false; claim_callback := None |}.
Definition callback_argument (args : list napi_value) : M (option Listener) :=
  if negb (4 <=? length args)%nat then mret None else
  '(_, type) ← on_engine (napi_typeof (argv args 3));
  if bool_decide (type = napi_function) then on_engine (napi_create_threadsafe_function (argv args 3)) else mret None.
Definition ParseClaimExclusiveParams (args : list napi_value) : M (bool * ClaimExclusiveParams) :=
  of_type_unchecked (false, no_params) (argv args 0) napi_object PIPE (
  pipe ← pipe_argument (argv args 0);
  let params := {| claim_pipe := pipe; claim_interface := UsbInterface.default_; claim_isForce := false; claim_callback := None |} in
  of_type_unchecked (false, params) (argv args 1) napi_object IFACE (
  interface ← on_engine (ParseInterfaceObj indeterminate (argv args 1) UsbInterface.default_);
  isForce ← force_argument args;
  callback ← callback_argument args;
  mret (true, {| claim_pipe := pipe; claim_interface := interface; claim_isForce := isForce; claim_callback := callback |}))).
(** What the parser says is not looked at.  [Fault] is a null pointer in the client
    library. *)
Definition PipeClaimInterfaceExclusive (info : cb_info) : M (outcome napi_value) :=
  if negb (HasFeature O FEATURE_HOST) then Throw CAPABILITY_NOT_SUPPORT "";; mret (Done nullptr) else
  match info with
  | None => v ← undefined_value; mret (Done v)
  | Some args =>
      USB_ASSERT (Done nullptr) (2 <=? length args)%nat TWO (
      '(_, params) ← ParseClaimExclusiveParams args;
      r ← on_client (ClaimInterfaceExclusive others (claim_pipe params) (claim_interface params) (claim_isForce params) (claim_callback params));
      match r with
      | Done ret =>
          if negb (ret =? UEC_OK) then ThrowClaimExclusiveError ret;; mret (Done nullptr) else
          v ← undefined_value; mret (Done v)
      | Fault => mret Fault
      | OutOfFuel => mret OutOfFuel
      end)
  end.
Definition PipeReleaseInterface (info : cb_info) : M napi_value :=
  with_metrics "BasicServicesKit.UsbManager.ReleaseInterface" (
  needs_feature FEATURE_HOST (
  takes_arguments 2 TWO info (λ args,
  of_type_unchecked nullptr (argv args 0) napi_object PIPE (
  pipe ← pipe_argument (argv args 0);
  of_type_unchecked nullptr (argv args 1) napi_object IFACE (
  interface ← on_engine (ParseInterfaceObj indeterminate (argv args 1) UsbInterface.default_);
  ret ← on_client (ReleaseInterface pipe interface);
  int_value ret))))).
Definition PipeSetInterface (info : cb_info) : M napi_value :=
  with_metrics "BasicServicesKit.UsbManager.SetInterface" (
  needs_feature FEATURE_HOST (
  takes_arguments 2 TWO info (λ args,
  of_type_unchecked nullptr (argv args 0) napi_object PIPE (
  pipe ← pipe_argument (argv args 0);
  of_type_unchecked nullptr (argv args 1) napi_object IFACE (
  interface ← on_engine (ParseInterfaceObj indeterminate (argv args 1) UsbInterface.default_);
  ret ← on_client (SetInterface pipe interface);
  int_value ret))))).
Definition PipeSetConfiguration (info : cb_info) : M napi_value :=
  with_metrics "BasicServicesKit.UsbManager.SetConfiguration" (
  needs_feature FEATURE_HOST (
  takes_arguments 2 TWO info (λ args,
  of_type_unchecked nullptr (argv args 0) napi_object PIPE (
  pipe ← pipe_argument (argv args 0);
  of_type_unchecked nullptr (argv args 1) napi_object "The type of config must be USBConfig." (
  config ← on_engine (ParseConfigObj indeterminate (argv args 1) USBConfig.default_);
  ret ← on_client (SetConfiguration pipe config);
  int_value ret))))).
Definition PipeGetRawDescriptors (info : cb_info) : M napi_value :=
  with_metrics "BasicServicesKit.UsbManager.GetRawDescriptor" (
  needs_feature FEATURE_HOST (
  takes_arguments 1 ONE info (λ args,
  of_type_unchecked nullptr (argv args 0) napi_object PIPE (
  pipe ← pipe_argument (argv args 0);
  '(ret, bufferData) ← on_client (GetRawDescriptors others pipe []);
  if ret =? UEC_OK then on_engine (Uint8ArrayToJsValue bufferData (Z.of_nat (length bufferData)) indeterminate)
  else undefined_value)))).
Definition PipeGetFileDescriptor (info : cb_info) : M napi_value :=
  with_metrics "BasicServicesKit.UsbManager.GetFileDescriptor" (
  needs_feature FEATURE_HOST (
  takes_arguments 1 ONE info (λ args,
  of_type_unchecked nullptr (argv args 0) napi_object PIPE (
  pipe ← pipe_argument (argv args 0);
  '(_, fd) ← on_client (GetFileDescriptor others pipe (-1));
  int_value fd)))).
Definition PipeClose (info : cb_info) : M napi_value :=
  with_metrics "BasicServicesKit.UsbManager.ClosePipe" (
  needs_feature FEATURE_HOST (
  takes_arguments 1 "The function takes one argument." info (λ args,
  of_type_unchecked nullptr (argv args 0) napi_object PIPE (
  pipe ← pipe_argument (argv args 0);
  ret ← on_client (Pipe_Close pipe);
  int_value ret)))).
Definition PipeResetDevice (info : cb_info) : M napi_value :=
  with_metrics "BasicServicesKit.UsbManager.ResetUsbDevice" (
  needs_feature FEATURE_HOST (
  takes_arguments 1 ONE info (λ args,
  of_type_unchecked nullptr (argv args 0) napi_object PIPE (
  pipe ← pipe_argument (argv args 0);
  ret ← on_client (ResetDevice others pipe);
  if ret =? UEC_OK then bool_value true else
  (if (ret =? HDF_DEV_ERR_NO_DEVICE) || (ret =? uec UEC_INTERFACE_NAME_NOT_FOUND) then
     fail_with USB_SUBMIT_TRANSFER_NO_DEVICE_ERROR "Submit transfer no device."
   else if ret =? uec UEC_SERVICE_PERMISSION_DENIED then fail_with UEC_COMMON_HAS_NO_RIGHT "No permission."
   else if ret =? HDF_FAILURE then fail_with USB_DEVICE_PIPE_CHECK_ERROR "Check devicePipe failed."
   else if ret =? uec UEC_SERVICE_INVALID_VALUE then fail_with UEC_COMMON_SERVICE_EXCEPTION "Service exception"
   else fail_with USB_SUBMIT_TRANSFER_OTHER_ERROR "Other USB error");;
  bool_value false)))).
Definition GetVersion (info : cb_info) : M napi_value :=
  with_metrics "BasicServicesKit.UsbManager.GetVersion" (
  on_engine (napi_create_string_utf8 (c_str SEVVERSION))).
End Functions.
