(* ===== verification/UsbInfoAsync.v ===== *)
(** * The functions of the JavaScript module that answer later
    (interfaces/kits/js/napi/src/usb_info.cpp)

    Requests that ask the user or move data answer with a promise.  A work is
    queued; a thread of the engine executes it, which asks the client library, and
    the script's thread completes it, which settles the promise.  Submitted
    transfers end with a call of the script's function. *)
From S2P Require Import Prelude UsbErrors Platform UsbAccessory UsbPortManager UsbDevice UsbDescriptorParser UsbInterfaceType UsbHostManager UsbHostTransfer UsbService UsbServiceHost UsbServiceSerial UsbSrvClient UsbTransferCallbacks UsbUtilities NapiUtil UsbInfoParse UsbInfo.

Definition TRANSFER_TYPE_ISOCHRONOUS : Z := 1.
Definition IO_ERROR : Z := -1.
Definition INVALID_PARAM : Z := -2.
Definition NO_DEVICE : Z := -4.
Definition NOT_FOUND : Z := -5.
Definition ERROR_BUSY : Z := -6.
Definition NO_MEM : Z := -11.
Definition DEFAULT_SUBMIT_BUFFER_SIZE : Z := 1024.
Definition TRANSFER_FLAGS_UNKNOWN : Z := 4.
Definition TRANSFER_TYPE_UNKNOWN : Z := 4.
Definition ASHMEM_NAME : string := "CreateAshmem".

Section Async.
Context {S P E O : Type} `{!IUsbServer S, !ClientPlatform P, !ErrCodeBase, !Napi E, !SecureC, !NapiSystem O}.
Context (others : state (UsbSrvClient S P) ()) (uninit_length : Z) (indeterminate : napi_value).
Abbreviation US := (UsbInfo S P E O).
Abbreviation M := (state US).

(** ** Buffers *)

(** [std::vector<uint8_t>(buffer, buffer + length)] *)
Definition vector_of (b : Buffer) (n : Z) : M (list Z) :=
  match b with
  | NullBuffer => mret []
  | NativeBuffer l => mret (take (Z.to_nat n) l)
  | ScriptBuffer p => on_engine (read_bytes p n)
  end.
(** [delete[] buffer; buffer = nullptr;] *)
Definition delete_buffer (b : Buffer) : M Buffer :=
  match b with
  | ScriptBuffer _ => modify (set_bad_delete true);; mret NullBuffer
  | _ => mret NullBuffer
  end.
(** [memcpy_s(buffer, bufferLength, data, count) == EOK] *)
Definition copy_to (b : Buffer) (bufferLength : Z) (data : list Z) (count : Z) : M bool :=
  match b with
  | ScriptBuffer p =>
      if negb (memcpy_s_ok bufferLength count) then mret false else
      on_engine (write_bytes p (take (Z.to_nat count) data));; mret true
  | _ => mret false
  end.
(** A copy of [length] bytes in memory of [new (std::nothrow)], [None] when there is
    none or they cannot be copied. *)
Definition native_copy (data : option data_ptr) (n : Z) : M (option Buffer) :=
  ok ← on_system new_nothrow;
  if negb ok then mret None else
  match data with
  | Some p =>
      if negb (memcpy_s_ok n n) then mret None else
      l ← on_engine (read_bytes p n); mret (Some (NativeBuffer l))
  | None => mret None
  end.
Definition set_buffer (b : Buffer) (t : TransferContext) : TransferContext :=
  {| buffer := b; bufferLength := bufferLength t; dataSize := dataSize t; timeOut := timeOut t; pipe := pipe t |}.
Definition set_dataSize (n : Z) (t : TransferContext) : TransferContext :=
  {| buffer := buffer t; bufferLength := bufferLength t; dataSize := n; timeOut := timeOut t; pipe := pipe t |}.

(** ** Execution *)

Definition is_out (reqType : Z) : bool := Z.land reqType USB_ENDPOINT_DIR_MASK =? USB_ENDPOINT_DIR_OUT.
Definition is_in (reqType : Z) : bool := Z.land reqType USB_ENDPOINT_DIR_MASK =? USB_ENDPOINT_DIR_IN.
(** The bodies of the three transfers, which differ in the directions and the call: the
    context and whether it succeeded.  The length that is reported is the length of
    the buffer, unless something has been read. *)
Definition execute_transfer (out in_ : bool) (transfer : list Z → state (UsbSrvClient S P) (Z * list Z)) (t : TransferContext)
    : M (TransferContext * bool) :=
  bufferData ← vector_of (buffer t) (bufferLength t);
  b ← (if out then delete_buffer (buffer t) else mret (buffer t));
  let t := set_buffer b t in
  let bufLen := Z.of_nat (length bufferData) in
  '(ret, bufferData) ← on_client (transfer bufferData);
  if negb (ret =? UEC_OK) then mret (set_dataSize 0 t, false) else
  let size := Z.of_nat (length bufferData) in
  if in_ && (0 <? bufferLength t) && (0 <? size) then
    let bufLen := if bufferLength t <? size then bufferLength t else size in
    ok ← copy_to (buffer t) (bufferLength t) bufferData bufLen;
    mret (if (ok : bool) then (set_dataSize (to_u32 bufLen) t, true) else (set_dataSize 0 t, false))
  else mret (set_dataSize (to_u32 bufLen) t, true).

Definition new_metrics (name : string) : M UsbApiMetrics.t := now ← on_system gettimeofday; mret (UsbApiMetrics.construct name now).
Definition metrics_name (r : Request) : string :=
  match r with
  | RightRequest _ => "BasicServicesKit.UsbManager.RequestRight"
  | AccessoryRightRequest _ _ _ => "BasicServicesKit.UsbManager.RequestAccessoryRight"
  | FunctionRequest _ _ metricsName => metricsName
  | PortRoleRequest _ _ _ _ metricsName => metricsName
  | ControlTransferRequest _ _ _ _ _ _ => "BasicServicesKit.UsbManager.ControlTransfer"
  | UsbControlTransferRequest _ _ _ _ _ _ => "BasicServicesKit.UsbManager.UsbControlTransfer"
  | BulkTransferRequest _ _ => "BasicServicesKit.UsbManager.BulkTransfer"
  end.
(** What each request asks: the request with its results, and the status, which some
    leave to the completion. *)
Definition g_requestRightExecute (deviceName : string) : M (Request * bool) :=
  ret ← on_client (RequestRight others deviceName);
  mret (RightRequest deviceName, ret =? UEC_OK).
Definition g_requestAccessoryRightExecute (accessory : USBAccessory) (status : bool) : M (Request * bool) :=
  '(ret, result) ← on_client (RequestAccessoryRight others accessory false);
  mret (AccessoryRightRequest accessory result ret, status).
Definition g_setCurrentFunctionExecute (functions : Z) (metricsName : string) (status : bool) : M (Request * bool) :=
  ret ← on_client (SetCurrentFunctions others functions);
  mret (FunctionRequest functions ret metricsName, status).
Definition g_setPortRoleExecute (portId powerRole dataRole : Z) (metricsName : string) (status : bool) : M (Request * bool) :=
  ret ← on_client (SetPortRole others portId powerRole dataRole);
  mret (PortRoleRequest portId powerRole dataRole ret metricsName, status).
Definition g_controlTransferExecute (request target reqType value index : Z) (t : TransferContext) : M (Request * bool) :=
  let tctrl := {| old_requestType := to_i32 reqType; old_requestCmd := request; old_value := value; old_index := index;
                  old_timeout := timeOut t |} in
  '(t, ok) ← execute_transfer (is_out reqType) (is_in reqType) (ControlTransfer uninit_length (pipe t) tctrl) t;
  mret (ControlTransferRequest request target reqType value index t, ok).
Definition g_usbControlTransferExecute (reqType request value index length : Z) (t : TransferContext) : M (Request * bool) :=
  let tctrl := {| requestType := to_i32 reqType; requestCmd := request; ctrl_value := value; ctrl_index := index;
                  ctrl_length := length; ctrl_timeout := timeOut t |} in
  '(t, ok) ← execute_transfer (is_out reqType) (is_in reqType) (UsbControlTransfer (pipe t) tctrl) t;
  mret (UsbControlTransferRequest reqType request value index length t, ok).
Definition g_bulkTransferExecute (endpoint : USBEndpoint.t) (t : TransferContext) : M (Request * bool) :=
  '(t, ok) ← execute_transfer (USBEndpoint.GetDirection endpoint =? USB_ENDPOINT_DIR_OUT)
               (USBEndpoint.GetDirection endpoint =? USB_ENDPOINT_DIR_IN) (λ data, BulkTransfer (pipe t) endpoint data (timeOut t)) t;
  mret (BulkTransferRequest endpoint t, ok).
Definition execute_request (r : Request) (status : bool) : M (Request * bool) :=
  match r with
  | RightRequest deviceName => g_requestRightExecute deviceName
  | AccessoryRightRequest accessory _ _ => g_requestAccessoryRightExecute accessory status
  | FunctionRequest functions _ metricsName => g_setCurrentFunctionExecute functions metricsName status
  | PortRoleRequest portId powerRole dataRole _ metricsName => g_setPortRoleExecute portId powerRole dataRole metricsName status
  | ControlTransferRequest request target reqType value index t => g_controlTransferExecute request target reqType value index t
  | UsbControlTransferRequest reqType request value index length t => g_usbControlTransferExecute reqType request value index length t
  | BulkTransferRequest endpoint t => g_bulkTransferExecute endpoint t
  end.
Definition execute (c : USBAsyncContext) : M USBAsyncContext :=
  m ← new_metrics (metrics_name (request_of c));
  '(r, status) ← execute_request (request_of c) (succeeded c);
  mret {| deferred := deferred c; succeeded := status; work_metrics := Some m; request_of := r |}.

(** ** Completion *)

(** How a promise is settled: whether it is resolved, the value, and the code the
    counters get. *)
Definition settlement : Type := bool * napi_value * option Z.
Definition rejected (code : Z) : M settlement := v ← on_engine (CreateBusinessError code ""); mret (false, v, Some code).
(** The promise is rejected with [false], which is no error. *)
Definition rejected_false : M settlement := v ← bool_value false; mret (false, v, Some UEC_COMMON_SERVICE_EXCEPTION).
Definition transfer_result (status : bool) (t : TransferContext) : M settlement :=
  if status then v ← int_value (to_i32 (dataSize t)); mret (true, v, None)
  else v ← int_value (-1); mret (true, v, Some UEC_COMMON_SERVICE_EXCEPTION).
Definition g_requestRightComplete (status : bool) : M settlement :=
  v ← bool_value status; mret (true, v, if status then None else Some UEC_COMMON_SERVICE_EXCEPTION).
Definition g_requestAccessoryRightComplete (hasRight : bool) (errCode : Z) : M settlement :=
  if errCode =? UEC_OK then v ← bool_value hasRight; mret (true, v, None)
  else if errCode =? uec UEC_SERVICE_ACCESSORY_NOT_MATCH then rejected UEC_ACCESSORY_NOT_MATCH
  else if errCode =? uec UEC_SERVICE_DATABASE_OPERATION_FAILED then rejected UEC_COMMON_RIGHT_DATABASE_ERROR
  else rejected UEC_COMMON_SERVICE_EXCEPTION.
Definition g_setCurrentFunctionComplete (errCode : Z) : M settlement :=
  if errCode =? UEC_OK then v ← bool_value true; mret (true, v, None)
  else if errCode =? uec UEC_SERVICE_PERMISSION_DENIED_SYSAPI then rejected OHEC_COMMON_NORMAL_APP_NOT_ALLOWED
  else if errCode =? uec UEC_SERVICE_PERMISSION_DENIED_SYSAPI_FAILED then rejected OHEC_COMMON_PERMISSION_NOT_ALLOWED
  else if errCode =? uec UEC_SERVICE_PERMISSION_CHECK_HDC then rejected UEC_COMMON_HDC_NOT_ALLOWED
  else if errCode =? uec UEC_SERVICE_FUNCTION_NOT_SUPPORT then rejected UEC_COMMON_FUNCTION_NOT_SUPPORT
  else rejected_false.
Definition g_setPortRoleComplete (errCode : Z) : M settlement :=
  if errCode =? UEC_OK then v ← bool_value true; mret (true, v, None)
  else if errCode =? uec UEC_SERVICE_PERMISSION_DENIED_SYSAPI then rejected OHEC_COMMON_NORMAL_APP_NOT_ALLOWED
  else if errCode =? uec UEC_SERVICE_PERMISSION_DENIED_SYSAPI_FAILED then rejected OHEC_COMMON_PERMISSION_NOT_ALLOWED
  else if errCode =? uec UEC_SERVICE_NOT_SUPPORT_SWITCH_PORT then rejected UEC_COMMON_PORTROLE_SWITCH_NOT_ALLOWED
  else rejected_false.
Definition complete_request (r : Request) (status : bool) : M settlement :=
  match r with
  | RightRequest _ => g_requestRightComplete status
  | AccessoryRightRequest _ hasRight errCode => g_requestAccessoryRightComplete hasRight errCode
  | FunctionRequest _ errCode _ => g_setCurrentFunctionComplete errCode
  | PortRoleRequest _ _ _ errCode _ => g_setPortRoleComplete errCode
  | ControlTransferRequest _ _ _ _ _ t => transfer_result status t
  | UsbControlTransferRequest _ _ _ _ _ t => transfer_result status t
  | BulkTransferRequest _ t => transfer_result status t
  end.
(** [ProcessPromise], and [napi_resolve_deferred] where nothing is rejected. *)
Definition ProcessPromise (deferred : option napi_deferred) (resolve : bool) (result : napi_value) : M () :=
  match deferred with
  | None => mret ()
  | Some d => on_engine (if resolve then napi_resolve_deferred d result else napi_reject_deferred d result)
  end.
Definition complete (c : USBAsyncContext) : M () :=
  '(resolve, queryResult, code) ← complete_request (request_of c) (succeeded c);
  match work_metrics c with
  | Some m => destroy_metrics match code with Some e => UsbApiMetrics.SetErrorCode e m | None => m end
  | None => mret ()
  end;;
  ProcessPromise (deferred c) resolve queryResult.

(** The engine executes a work that waits, and completes one that has been executed. *)
Definition run_execute (k : nat) : M () :=
  m ← get;
  match works m !! k with
  | Some (false, c) => c ← execute c; modify (λ m, set_works (<[k := (true, c)]> (works m)) m)
  | _ => mret ()
  end.
Definition run_complete (k : nat) : M () :=
  m ← get;
  match works m !! k with
  | Some (true, c) => modify (λ m, set_works (delete k (works m)) m);; complete c
  | _ => mret ()
  end.

(** ** The functions *)

(** The end of a function that has made its request.  A work that the engine does not
    take is lost, with its context. *)
Definition queue_work (resource : string) (c : USBAsyncContext) : M () :=
  _ ← on_engine (napi_create_string_utf8 resource);
  created ← on_engine napi_create_async_work;
  queued ← on_engine napi_queue_async_work;
  if created && queued then modify (λ m, set_works (works m ++ [(false, c)]) m) else mret ().
Definition promise_for (resource : string) (r : Request) : M napi_value :=
  '(d, result) ← on_engine napi_create_promise;
  queue_work resource {| deferred := d; succeeded := true; work_metrics := None; request_of := r |};;
  mret result.
(** [new (std::nothrow)] of the context. *)
Definition with_context (k : M napi_value) : M napi_value :=
  ok ← on_system new_nothrow; if negb ok then mret nullptr else k.
(** Without metrics. *)
Definition feature_or_throw (f : UsbManagerFeature) (k : M napi_value) : M napi_value :=
  if negb (HasFeature O f) then Throw CAPABILITY_NOT_SUPPORT "";; mret nullptr else k.

Definition CoreRequestRight (info : cb_info) : M napi_value :=
  feature_or_throw FEATURE_HOST (
  takes_arguments 1 ONE info (λ args,
  of_type (argv args 0) napi_string "The type of deviceName must be string." (
  deviceName ← string_argument (argv args 0);
  with_context (promise_for "RequestRight" (RightRequest deviceName))))).
Definition DeviceRequestAccessoryRight (info : cb_info) : M napi_value :=
  feature_or_throw FEATURE_DEVICE (
  takes_arguments 1 ONE info (λ args,
  of_type (argv args 0) napi_object ACCESSORY (
  accessory ← on_engine (ParseAccessoryObj (argv args 0));
  with_context (promise_for "RequestRight" (AccessoryRightRequest accessory false 0))))).
Definition SetCurrentFunctions (metricsName : string) (info : cb_info) : M napi_value :=
  feature_or_throw FEATURE_DEVICE (
  takes_arguments 1 ONE info (λ args,
  of_type (argv args 0) napi_number "The type of funcs must be number." (
  funcs ← on_engine (napi_get_value_int32 (argv args 0) 0);
  with_context (promise_for "SetCurrentFunctions" (FunctionRequest funcs 0 metricsName))))).
Definition SetPortRoles (metricsName : string) (info : cb_info) : M napi_value :=
  feature_or_throw FEATURE_PORT (
  takes_arguments 3 "The function at least takes three arguments." info (λ args,
  of_type (argv args 0) napi_number "The type of portId must be number." (
  of_type (argv args 1) napi_number "The type of powerRole must be number." (
  of_type (argv args 2) napi_number "The type of dataRole must be number." (
  id ← on_engine (napi_get_value_int32 (argv args 0) 0);
  powerRole ← on_engine (napi_get_value_int32 (argv args 1) 0);
  dataRole ← on_engine (napi_get_value_int32 (argv args 2) 0);
  with_context (promise_for "PortSetPortRole" (PortRoleRequest id powerRole dataRole 0 metricsName))))))).

(** *** Control transfers *)

(** A timeout that is a number; another value is ignored. *)
Definition timeout_argument (args : list napi_value) (i : nat) : M Z :=
  if negb (i <? length args)%nat then mret 0 else
  '(_, type) ← on_engine (napi_typeof (argv args i));
  if bool_decide (type = napi_number) then on_engine (napi_get_value_int32 (argv args i) 0) else mret 0.
Definition no_control : PipeControlParam :=
  {| param_request := 0; param_target := 0; param_reqType := 0; param_value := 0; param_index := 0; param_data := None;
     param_dataLength := 0 |}.
Definition no_usb_control : UsbPipeControlParam :=
  {| usb_reqType := 0; usb_request := 0; usb_value := 0; usb_index := 0; usb_length := 0; usb_data := None; usb_dataLength := 0 |}.
(** [None] is the tuple that begins with [false]. *)
Definition GetControlTransferParam (info : cb_info) : M (option (USBDevicePipe * PipeControlParam * Z)) :=
  match info with
  | None => mret None
  | Some args =>
      if (length args <? 2)%nat then Throw OHEC_COMMON_PARAM_ERROR "The function at least takes two arguments.";; mret None else
      '(_, type) ← on_engine (napi_typeof (argv args 0));
      if negb (bool_decide (type = napi_object)) then Throw OHEC_COMMON_PARAM_ERROR PIPE;; mret None else
      pipe ← pipe_argument (argv args 0);
      '(ret, controlParam) ← on_engine (ParsePipeControlParam indeterminate (argv args 1) no_control);
      if negb ret then mret None else
      timeOut ← timeout_argument args 2;
      mret (Some (pipe, controlParam, timeOut))
  end.
Definition GetUsbControlTransferParam (info : cb_info) : M (option (USBDevicePipe * UsbPipeControlParam * Z)) :=
  match info with
  | None => mret None
  | Some args =>
      if (length args <? 2)%nat then Throw OHEC_COMMON_PARAM_ERROR "The function at least takes two arguments.";; mret None else
      '(_, type) ← on_engine (napi_typeof (argv args 0));
      if negb (bool_decide (type = napi_object)) then Throw OHEC_COMMON_PARAM_ERROR PIPE;; mret None else
      pipe ← pipe_argument (argv args 0);
      '(_, type) ← on_engine (napi_typeof (argv args 1));
      if negb (bool_decide (type = napi_object))
      then Throw OHEC_COMMON_PARAM_ERROR "The type of pipe must be USBDeviceRequestParams.";; mret None else
      controlParam ← on_engine (ParseUsbPipeControlParam indeterminate (argv args 1) no_usb_control);
      timeOut ← timeout_argument args 2;
      mret (Some (pipe, controlParam, timeOut))
  end.
(** What is sent is copied now, what is received goes to the script's array later;
    [None] is a copy that cannot be made. *)
Definition control_buffer (reqType : Z) (data : option data_ptr) (dataLength : Z) : M (option Buffer) :=
  if is_out reqType then (if 0 <? dataLength then native_copy data dataLength else mret (Some NullBuffer))
  else mret (Some (buffer_of data)).
Definition control_context (b : Buffer) (dataLength timeOut : Z) (pipe : USBDevicePipe) : TransferContext :=
  {| buffer := b; bufferLength := to_u32 dataLength; dataSize := 0; timeOut := timeOut; pipe := pipe |}.
Definition PipeControlTransfer (info : cb_info) : M napi_value :=
  feature_or_throw FEATURE_HOST (
  params ← GetControlTransferParam info;
  match params with
  | None => mret nullptr
  | Some (pipe, p, timeOut) =>
      with_context (
      b ← control_buffer (param_reqType p) (param_data p) (param_dataLength p);
      match b with
      | None => mret nullptr
      | Some b => promise_for "PipeControlTransfer" (ControlTransferRequest (param_request p) (param_target p) (param_reqType p)
                    (param_value p) (param_index p) (control_context b (param_dataLength p) timeOut pipe))
      end)
  end).
Definition PipeUsbControlTransfer (info : cb_info) : M napi_value :=
  feature_or_throw FEATURE_HOST (
  params ← GetUsbControlTransferParam info;
  match params with
  | None => mret nullptr
  | Some (pipe, p, timeOut) =>
      with_context (
      b ← control_buffer (usb_reqType p) (usb_data p) (usb_dataLength p);
      match b with
      | None => mret nullptr
      | Some b => promise_for "PipeUsbControlTransfer" (UsbControlTransferRequest (usb_reqType p) (usb_request p) (usb_value p)
                    (usb_index p) (usb_length p) (control_context b (usb_dataLength p) timeOut pipe))
      end)
  end).

(** *** Bulk transfers *)

Definition new_bulk : USBEndpoint.t * TransferContext :=
  (USBEndpoint.default_, {| buffer := NullBuffer; bufferLength := 0; dataSize := 0; timeOut := 0; pipe := new_pipe |}).
(** An empty array that is sent is not copied. *)
Definition GetDescriptorOnBulkTransferParam (data : napi_value) (ep : USBEndpoint.t) : M (option (Buffer * Z)) :=
  '(hasBuffer, (p, bufferSize)) ← on_engine (JsUint8ArrayParseReserveZeroBuffer data);
  if negb hasBuffer then mret None else
  if (USBEndpoint.GetDirection ep =? USB_ENDPOINT_DIR_OUT) && (0 <? bufferSize) then
    b ← native_copy p bufferSize;
    mret ((λ b, (b, to_u32 bufferSize)) <$> b)
  else mret (Some (buffer_of p, to_u32 bufferSize)).
(** Where [napi_get_cb_info] fails a handle is returned as the boolean, and the
    transfer goes on. *)
Definition GetBulkTransferParams (info : cb_info) : M (bool * (USBEndpoint.t * TransferContext)) :=
  match info with
  | None => obj ← undefined_value; mret (negb (obj =? nullptr), new_bulk)
  | Some args =>
      USB_ASSERT (false, new_bulk) (3 <=? length args)%nat "The function at least takes three arguments." (
      of_type_unchecked (false, new_bulk) (argv args 0) napi_object PIPE (
      pipe ← pipe_argument (argv args 0);
      of_type_unchecked (false, new_bulk) (argv args 1) napi_object "The type of endpoint must be USBEndpoint." (
      ep ← on_engine (ParseEndpointObj (argv args 1) USBEndpoint.default_);
      timeOut ← timeout_argument args 3;
      r ← GetDescriptorOnBulkTransferParam (argv args 2) ep;
      mret match r with
           | None => (false, new_bulk)
           | Some (b, n) => (true, (ep, {| buffer := b; bufferLength := n; dataSize := 0; timeOut := timeOut; pipe := pipe |}))
           end)))
  end.
(** The promise exists before the arguments are looked at. *)
Definition PipeBulkTransfer (info : cb_info) : M napi_value :=
  feature_or_throw FEATURE_HOST (
  with_context (
  '(d, result) ← on_engine napi_create_promise;
  '(ok, (ep, t)) ← GetBulkTransferParams info;
  if negb ok then
    queryResult ← int_value (-1);
    ProcessPromise d true queryResult;;
    mret result
  else
  queue_work "PipeBulkTransfer" {| deferred := d; succeeded := true; work_metrics := None; request_of := BulkTransferRequest ep t |};;
  mret result)).
End Async.

(** * Submitted transfers and the module
    (interfaces/kits/js/napi/src/usb_info.cpp)

    A transfer that is submitted shares memory with the service; when the service
    reports its end, what has been read is copied to the script's array and the
    script's function is called on its own thread.  The module is the table of the
    functions and the constants. *)

Definition set_submit_pipe (p : USBDevicePipe) (c : USBTransferAsyncContext) : USBTransferAsyncContext :=
  let 'Build_USBTransferAsyncContext _ b c d e f g h i j k := c in Build_USBTransferAsyncContext p b c d e f g h i j k.
Definition set_submit_endpoint (x : Z) (c : USBTransferAsyncContext) : USBTransferAsyncContext :=
  let 'Build_USBTransferAsyncContext a _ c d e f g h i j k := c in Build_USBTransferAsyncContext a x c d e f g h i j k.
Definition set_submit_ashmem (x : option Ashmem) (c : USBTransferAsyncContext) : USBTransferAsyncContext :=
  let 'Build_USBTransferAsyncContext a b c d e f g _ i j k := c in Build_USBTransferAsyncContext a b c d e f g x i j k.
(** [new USBTransferAsyncContext()] *)
Definition new_transfer_context : USBTransferAsyncContext :=
  {| submit_pipe := new_pipe; submit_endpoint := 0; submit_flags := 0; submit_type := 0; submit_timeOut := 0; submit_length := 0;
     submit_bufferLength := 0; submit_ashmem := None; submit_buffer := None; numIsoPackets := 0; callbackRef := None |}.

Section Transfer.
Context {S P E O : Type} `{!IUsbServer S, !ClientPlatform P, !ErrCodeBase, !Napi E, !SecureC, !NapiSystem O}.
Context (others : state (UsbSrvClient S P) ()) (uninit_length : Z) (indeterminate : napi_value).
(** The static [func], and the flags of a structure that is not initialised. *)
Context (func : Listener) (uninit_flags : Z).
Abbreviation US := (UsbInfo S P E O).
Abbreviation M := (state US).

(** ** The arguments *)

(** The code of two assertions is [false], for which there is no message. *)
Definition assert_code_0 {A} (retVal : A) (assertion : bool) (errMsg : string) (k : state E A) : state E A :=
  USB_ASSERT_BASE retVal assertion 0 errMsg k.
(** Whether it succeeded, and the context as far as it is filled. *)
Definition ParseTransferParams (object : napi_value) (c : USBTransferAsyncContext) : state E (bool * USBTransferAsyncContext) :=
  '(_, valuePipe) ← napi_get_named_property object "devPipe";
  '(_, valueType) ← napi_typeof valuePipe;
  assert_code_0 (false, c) (bool_decide (valueType = napi_object)) "The valueType of pipe must be USBDevicePipe." (
  pipe ← ParseUsbDevicePipe valuePipe new_pipe;
  let c := set_submit_pipe pipe c in
  flags ← JsObjectToInt object "flags" TRANSFER_FLAGS_UNKNOWN;
  if flags =? TRANSFER_FLAGS_UNKNOWN then mret (false, c) else
  endpoint ← JsObjectToInt object "endpoint" (submit_endpoint c);
  transferType ← JsObjectToInt object "type" TRANSFER_TYPE_UNKNOWN;
  if transferType =? TRANSFER_TYPE_UNKNOWN then mret (false, c) else
  timeOut ← JsObjectToInt object "timeout" (submit_timeOut c);
  length ← JsObjectToInt object "length" (submit_length c);
  '(_, valueCallBack) ← JsObjectGetProperty object "callback" indeterminate;
  '(_, valueType) ← napi_typeof valueCallBack;
  assert_code_0 (false, c) (bool_decide (valueType = napi_function)) "The type of endpoint must be function." (
  ref ← napi_create_reference valueCallBack;
  '(_, valueUint8Array) ← JsObjectGetProperty object "buffer" indeterminate;
  '(hasBuffer, (buffer, bufferLength)) ← JsUint8ArrayParseReserveZeroBuffer valueUint8Array;
  if negb hasBuffer then mret (false, c) else
  packets ← JsObjectToUint object "isoPacketCount" (numIsoPackets c);
  mret (true, {| submit_pipe := pipe; submit_endpoint := endpoint; submit_flags := flags; submit_type := transferType;
    submit_timeOut := timeOut; submit_length := length; submit_bufferLength := bufferLength; submit_ashmem := None;
    submit_buffer := buffer; numIsoPackets := packets; callbackRef := ref |}))).
Definition transfer_object (parse : napi_value → USBTransferAsyncContext → state E (bool * USBTransferAsyncContext)) (info : cb_info)
    (c : USBTransferAsyncContext) : M (bool * USBTransferAsyncContext) :=
  match info with
  | None => obj ← undefined_value; mret (negb (obj =? nullptr), c)
  | Some args =>
      USB_ASSERT (false, c) (1 <=? length args)%nat "The function at least takes one arguments." (
      of_type_unchecked (false, c) (argv args 0) napi_object "The type of pipe must be USBDataTransfer type." (
      on_engine (parse (argv args 0) c)))
  end.
Definition GetTransferParamsFromJsObj := transfer_object ParseTransferParams.

(** ** Submission *)

(** The flags of the script go nowhere. *)
Definition GetUSBTransferInfo (ctx : positive) (c : USBTransferAsyncContext) : USBTransferInfo :=
  {| info_endpoint := submit_endpoint c; info_flags := uninit_flags; info_type := submit_type c; info_timeOut := submit_timeOut c;
     info_length := submit_length c; UsbHostTransfer.info_userData := Z.pos ctx; info_numIsoPackets := numIsoPackets c |}.
Definition set_info_length (n : Z) (i : USBTransferInfo) : USBTransferInfo :=
  {| info_endpoint := info_endpoint i; info_flags := info_flags i; info_type := info_type i; info_timeOut := info_timeOut i;
     info_length := n; UsbHostTransfer.info_userData := UsbHostTransfer.info_userData i; info_numIsoPackets := info_numIsoPackets i |}.
Definition endpoint_direction (endpoint : Z) : Z := Z.land (to_u8 endpoint) USB_ENDPOINT_DIR_MASK.
Definition bytes_at (p : option data_ptr) (n : Z) : M (list Z) :=
  match p with Some p => on_engine (read_bytes p n) | None => mret [] end.
(** The shared memory, when it could be made and what is sent fits in it. *)
Definition CreateAndWriteAshmem (c : USBTransferAsyncContext) (obj : USBTransferInfo) : M (option (Ashmem * USBTransferInfo)) :=
  let bufLen := if submit_length c <=? 0 then DEFAULT_SUBMIT_BUFFER_SIZE else submit_length c in
  ashmem ← on_system (CreateAshmem ASHMEM_NAME bufLen);
  match ashmem with
  | None => mret None
  | Some a =>
      if (endpoint_direction (submit_endpoint c) =? USB_ENDPOINT_DIR_OUT) && (0 <? submit_length c) then
        bufferData ← bytes_at (submit_buffer c) (submit_bufferLength c);
        let obj := set_info_length (to_i32 (Z.of_nat (length bufferData))) obj in
        on_system (MapReadAndWriteAshmem a);;
        ok ← on_system (WriteToAshmem a bufferData);
        if negb ok then on_system (UnmapAshmem a);; on_system (CloseAshmem a);; mret None else
        mret (Some (a, obj))
      else mret (Some (a, obj))
  end.
Definition UsbSubmitTransferErrorCode (error : Z) : Z :=
  if error =? IO_ERROR then USB_SUBMIT_TRANSFER_IO_ERROR
  else if error =? INVALID_PARAM then OHEC_COMMON_PARAM_ERROR
  else if error =? NO_DEVICE then USB_SUBMIT_TRANSFER_NO_DEVICE_ERROR
  else if error =? NOT_FOUND then USB_SUBMIT_TRANSFER_NOT_FOUND_ERROR
  else if error =? ERROR_BUSY then USB_SUBMIT_TRANSFER_RESOURCE_BUSY_ERROR
  else if error =? NO_MEM then USB_SUBMIT_TRANSFER_NO_MEM_ERROR
  else if error =? uec UEC_SERVICE_PERMISSION_DENIED then UEC_COMMON_HAS_NO_RIGHT
  else USB_SUBMIT_TRANSFER_OTHER_ERROR.
(** The context is put into [transfers] before the service can name it. *)
Definition UsbSubmitTransfer (info : cb_info) : M napi_value :=
  with_metrics "BasicServicesKit.UsbManager.UsbSubmitTransfer" (
  feature_or_throw FEATURE_HOST (
  m ← get;
  ctx ← on_system (new_context (dom (transfers m)));
  match ctx with
  | None => mret nullptr
  | Some ctx =>
      '(ok, c) ← GetTransferParamsFromJsObj info new_transfer_context;
      if negb ok then fail_with OHEC_COMMON_PARAM_ERROR "BusinessError 401:Parameter error.";; mret nullptr else
      let obj := GetUSBTransferInfo ctx c in
      if MAX_NUM_OF_ISO_PACKAGE <? info_numIsoPackets obj then mret nullptr else
      shared ← CreateAndWriteAshmem c obj;
      match shared with
      | None => mret nullptr
      | Some (a, obj) =>
          modify (λ m, set_transfers (<[ctx := set_submit_ashmem (Some a) c]> (transfers m)) m);;
          ret ← on_client (UsbSrvClient.UsbSubmitTransfer (submit_pipe c) obj (Some func) a);
          if negb (ret =? 0) then
            on_system (UnmapAshmem a);;
            on_system (CloseAshmem a);;
            modify (λ m, set_transfers (delete ctx (transfers m)) m);;
            fail_with (UsbSubmitTransferErrorCode ret) "";;
            mret nullptr
          else mret nullptr
      end
  end)).

(** ** The end of a transfer *)

(** [memcpy_s] to the script's array with its result ignored. *)
Definition copy_to_script (c : USBTransferAsyncContext) (data : list Z) (count : Z) : M () :=
  match submit_buffer c with
  | Some p => if memcpy_s_ok (submit_bufferLength c) count then on_engine (write_bytes p (take (Z.to_nat count) data)) else mret ()
  | None => mret ()
  end.
Definition close_shared (a : option Ashmem) : M () :=
  match a with Some a => on_system (UnmapAshmem a);; on_system (CloseAshmem a) | None => mret () end.
Definition read_shared (a : option Ashmem) (n : Z) : M (option (list Z)) :=
  match a with
  | Some a => on_system (MapReadAndWriteAshmem a);; on_system (ReadFromAshmem a n)
  | None => mret None
  end.
(** A [size_t] that is returned as an [int32_t]. *)
Definition ReadDataToBuffer (c : USBTransferAsyncContext) (info : Completion) : M Z :=
  let is_input := endpoint_direction (submit_endpoint c) =? USB_ENDPOINT_DIR_IN in
  let actBufLen := to_u64 (info_actualLength info) in
  if is_input && (0 <? submit_bufferLength c) && (submit_type c =? TRANSFER_TYPE_ISOCHRONOUS) && (info_status info =? UEC_OK) then
    let actBufLen := submit_bufferLength c in
    ashmemBuffer ← read_shared (submit_ashmem c) (to_i32 actBufLen);
    match ashmemBuffer with
    | None => close_shared (submit_ashmem c);; mret (to_i32 actBufLen)
    | Some data => copy_to_script c data actBufLen;; close_shared (submit_ashmem c);; mret (to_i32 actBufLen)
    end
  else if is_input && (0 <? submit_bufferLength c) && (0 <? info_actualLength info) then
    ashmemBuffer ← read_shared (submit_ashmem c) (info_actualLength info);
    match ashmemBuffer with
    | None => close_shared (submit_ashmem c);; mret (to_i32 actBufLen)
    | Some data =>
        let actBufLen := if submit_bufferLength c <? actBufLen then submit_bufferLength c else actBufLen in
        copy_to_script c data actBufLen;;
        close_shared (submit_ashmem c);;
        mret (to_i32 actBufLen)
    end
  else close_shared (submit_ashmem c);; mret (to_i32 actBufLen).
(** An event that the engine does not take leaves the context behind. *)
Definition JsCallBack (ctx : positive) (c : USBTransferAsyncContext) (info : Completion) : M () :=
  actBufLen ← ReadDataToBuffer c info;
  ok ← on_system new_nothrow;
  if negb ok then modify (λ m, set_transfers (delete ctx (transfers m)) m) else
  sent ← on_engine napi_send_event;
  if (sent : bool) then
    modify (λ m, set_events (events m ++ [{| cb_status := info_status info; cb_actualLength := actBufLen; cb_isoInfo := info_iso info;
      cb_callbackRef := callbackRef c; cb_context := ctx |}]) m)
  else mret ().
(** [func]: the context is found by its address; one that is not there has been
    deleted. *)
Definition on_completion (info : Completion) : M () :=
  m ← get;
  match (match info_userData info with Z.pos ctx => c ← transfers m !! ctx; Some (ctx, c) | _ => None end) with
  | Some (ctx, c) => JsCallBack ctx c info
  | None => modify (set_bad_delete true)
  end.

Definition iso_object (i : UsbIsoPacketDescriptor) : state E napi_value :=
  iso ← napi_create_object;
  isoLength_ ← napi_create_int32 (isoLength i);
  isoActualLength_ ← napi_create_int32 (isoActualLength i);
  isoStatus_ ← napi_create_int32 (isoStatus i);
  napi_set_named_property iso "length" isoLength_;;
  napi_set_named_property iso "actualLength" isoActualLength_;;
  napi_set_named_property iso "status" isoStatus_;;
  mret iso.
Definition ParmsInput (w : AsyncCallBackContext) : state E napi_value :=
  res ← napi_create_object;
  _ ← napi_create_object;
  status ← napi_create_int32 (cb_status w);
  actualLength ← napi_create_int32 (cb_actualLength w);
  napi_set_named_property res "status" status;;
  napi_set_named_property res "actualLength" actualLength;;
  if bool_decide (cb_isoInfo w = []) then mret res else
  isoObjArray ← napi_create_array;
  for_elements 0 (λ i iso, iso ← iso_object iso; napi_set_element isoObjArray i iso) (cb_isoInfo w);;
  napi_set_named_property res "isoPacketDescs" isoObjArray;;
  mret res.
(** The event on the script's thread; its context is deleted at the end. *)
Definition run_event : M () :=
  m ← get;
  match events m with
  | [] => mret ()
  | w :: rest =>
      modify (set_events rest);;
      resultJsCb ← on_engine (napi_get_reference_value (cb_callbackRef w));
      params ← on_engine (ParmsInput w);
      _ ← on_engine (napi_call_function resultJsCb [nullptr; params]);
      modify (λ m, set_transfers (delete (cb_context w) (transfers m)) m)
  end.

(** ** Cancellation *)

Definition ParseCancelParams (object : napi_value) (c : USBTransferAsyncContext) : state E (bool * USBTransferAsyncContext) :=
  '(_, valuePipe) ← napi_get_named_property object "devPipe";
  '(_, valueType) ← napi_typeof valuePipe;
  assert_code_0 (false, c) (bool_decide (valueType = napi_object)) "The valueType of pipe must be USBDevicePipe." (
  pipe ← ParseUsbDevicePipe valuePipe new_pipe;
  endpoint ← JsObjectToInt object "endpoint" (submit_endpoint c);
  mret (true, set_submit_endpoint endpoint (set_submit_pipe pipe c))).
Definition GetCancelParamsFromJsObj := transfer_object ParseCancelParams.
Definition UsbCancelTransfer (info : cb_info) : M napi_value :=
  with_metrics "BasicServicesKit.UsbManager.UsbCancelTransfer" (
  needs_feature FEATURE_HOST (
  '(ok, c) ← GetCancelParamsFromJsObj info new_transfer_context;
  if negb ok then fail_with OHEC_COMMON_PARAM_ERROR "BusinessError 401:Parameter error.";; mret nullptr else
  ret ← on_client (UsbSrvClient.UsbCancelTransfer (submit_pipe c) (submit_endpoint c));
  if negb (ret =? 0) then fail_with (UsbSubmitTransferErrorCode ret) "";; mret nullptr
  else mret nullptr)).

(** ** Conflicts of exclusive claims *)

(** What the listener made by [CreateClaimConflictCallback] does, and its call on the
    script's thread. *)
Definition claim_conflict (tsfn : Z) : M bool := on_engine (napi_call_threadsafe_function tsfn).
Definition ClaimConflictCb (jsCb : napi_value) (busNum devAddr interfaceId : Z) : state E () :=
  notifyObj ← napi_create_object;
  '(_, busVal) ← napi_create_uint32 busNum;
  '(_, devVal) ← napi_create_uint32 devAddr;
  '(_, ifVal) ← napi_create_uint32 interfaceId;
  napi_set_named_property notifyObj "busNum" busVal;;
  napi_set_named_property notifyObj "devAddr" devVal;;
  napi_set_named_property notifyObj "interfaceId" ifVal;;
  _ ← napi_call_function jsCb [notifyObj];
  mret ().

(** ** The module *)

Definition SetEnumProperty (object : napi_value) (name : string) (value : Z) : state E () :=
  if bool_decide (name = "") then mret () else
  tempValue ← napi_create_int32 value;
  napi_set_named_property object name tempValue.
(** The functions [NapiCreateFlagsEnum], [PowerRoleTypeEnum] and so on. *)
Definition create_enum (properties : list (string * Z)) : state E napi_value :=
  object ← napi_create_object;
  for_each (λ p, SetEnumProperty object p.1 p.2) properties;;
  mret object.
End Transfer.

Definition NapiCreateFlagsEnum : list (string * Z) :=
  [("USB_TRANSFER_SHORT_NOT_OK", 0); ("USB_TRANSFER_FREE_BUFFER", 1); ("USB_TRANSFER_FREE_TRANSFER", 2); ("USB_TRANSFER_ADD_ZERO_PACKET", 3)].
Definition NapiCreateTypeEnum : list (string * Z) :=
  [("TRANSFER_TYPE_ISOCHRONOUS", 1); ("TRANSFER_TYPE_BULK", 2); ("TRANSFER_TYPE_INTERRUPT", 3)].
Definition NapiCreateStatusEnum : list (string * Z) :=
  [("TRANSFER_COMPLETED", 0); ("TRANSFER_ERROR", 1); ("TRANSFER_TIMED_OUT", 2); ("TRANSFER_CANCELED", 3); ("TRANSFER_STALL", 4);
   ("TRANSFER_NO_DEVICE", 5); ("TRANSFER_OVERFLOW", 6)].
Definition PowerRoleTypeEnum : list (string * Z) := [("NONE", 0); ("SOURCE", 1); ("SINK", 2)].
Definition DataRoleTypeEnum : list (string * Z) := [("HOST", 1); ("DEVICE", 2)].
Definition PortModeTypeEnum : list (string * Z) := [("UFP", 1); ("DFP", 2); ("DRP", 3); ("NUM_MODES", 4)].
Definition USBRequestTargetTypeEnum : list (string * Z) :=
  [("USB_REQUEST_TARGET_DEVICE", 0); ("USB_REQUEST_TARGET_INTERFACE", 1); ("USB_REQUEST_TARGET_ENDPOINT", 2); ("USB_REQUEST_TARGET_OTHER", 3)].
Definition USBControlRequestTypeEnum : list (string * Z) :=
  [("USB_REQUEST_TYPE_STANDARD", 0); ("USB_REQUEST_TYPE_CLASS", 1); ("USB_REQUEST_TYPE_VENDOR", 2)].
Definition USBRequestDirectionEnum : list (string * Z) := [("USB_REQUEST_DIR_TO_DEVICE", 0); ("USB_REQUEST_DIR_FROM_DEVICE", 0x80)].
Definition FunctionTypeEnum : list (string * Z) :=
  [("ACM", 1); ("ECM", Z.shiftl 1 1); ("HDC", Z.shiftl 1 2); ("MTP", Z.shiftl 1 3); ("PTP", Z.shiftl 1 4); ("RNDIS", Z.shiftl 1 5);
   ("MIDI", Z.shiftl 1 6); ("AUDIO_SOURCE", Z.shiftl 1 7); ("NCM", Z.shiftl 1 8); ("STORAGE", Z.shiftl 1 9)].
(** What [DeclareEnum] defines: numbers, and objects that hold them. *)
Inductive Constant := CNumber (value : Z) | CEnum (properties : list (string * Z)).
Definition with_numbers (name : string) (properties : list (string * Z)) : list (string * Constant) :=
  map (λ p, (p.1, CNumber p.2)) properties ++ [(name, CEnum properties)].
Definition DeclareEnum : list (string * Constant) :=
  with_numbers "PowerRoleType" PowerRoleTypeEnum ++ with_numbers "DataRoleType" DataRoleTypeEnum ++
  with_numbers "PortModeType" PortModeTypeEnum ++ with_numbers "USBRequestTargetType" USBRequestTargetTypeEnum ++
  with_numbers "USBControlRequestType" USBControlRequestTypeEnum ++ with_numbers "USBRequestDirection" USBRequestDirectionEnum ++
  with_numbers "FunctionType" FunctionTypeEnum ++
  [("UsbTransferFlags", CEnum NapiCreateFlagsEnum); ("UsbEndpointTransferType", CEnum NapiCreateTypeEnum);
   ("UsbTransferStatus", CEnum NapiCreateStatusEnum)].

Section Module_.
Context {S P E O : Type} `{!IUsbServer S, !ClientPlatform P, !ErrCodeBase, !Napi E, !SecureC, !NapiSystem O}.
Context (others : state (UsbSrvClient S P) ()) (uninit : Z) (func : Listener).
Abbreviation M := (state (UsbInfo S P E O)).

Definition ends {A} (f : M A) : M (outcome A) := v ← f; mret (Done v).
(** [UsbInit]: the functions by their names.  What variables hold that nothing has been
    assigned to is [uninit]. *)
Definition UsbInit : list (string * (cb_info → M (outcome napi_value))) :=
  let metricsName n := "BasicServicesKit.UsbManager." +:+ n in [
  ("getDevices", λ i, ends (CoreGetDevices others i));
  ("connectDevice", λ i, ends (CoreConnectDevice others uninit i));
  ("hasRight", λ i, ends (CoreHasRight others i));
  ("requestRight", λ i, ends (CoreRequestRight i));
  ("usbFunctionsFromString", λ i, ends (UsbFunctionsFromString others (metricsName "UsbFunctionsFromString") i));
  ("getFunctionsFromString", λ i, ends (UsbFunctionsFromString others (metricsName "GetFunctionsFromString") i));
  ("usbFunctionsToString", λ i, ends (UsbFunctionsToString others uninit (metricsName "UsbFunctionsToString") i));
  ("getStringFromFunctions", λ i, ends (UsbFunctionsToString others uninit (metricsName "GetStringFromFunctions") i));
  ("setCurrentFunctions", λ i, ends (SetCurrentFunctions (metricsName "SetCurrentFunctions") i));
  ("setDeviceFunctions", λ i, ends (SetCurrentFunctions (metricsName "SetDeviceFunctions") i));
  ("getCurrentFunctions", λ i, ends (GetCurrentFunctions others uninit (metricsName "GetCurrentFunctions") i));
  ("getDeviceFunctions", λ i, ends (GetCurrentFunctions others uninit (metricsName "GetDeviceFunctions") i));
  ("getPorts", λ i, ends (GetPorts others (metricsName "GetPorts") i));
  ("getPortList", λ i, ends (GetPorts others (metricsName "GetPortList") i));
  ("getSupportedModes", λ i, ends (GetSupportedModes others (metricsName "GetSupportedModes") i));
  ("getPortSupportModes", λ i, ends (GetSupportedModes others (metricsName "GetPortSupportModes") i));
  ("setPortRoles", λ i, ends (SetPortRoles (metricsName "SetPortRoles") i));
  ("setPortRoleTypes", λ i, ends (SetPortRoles (metricsName "SetPortRoleTypes") i));
  ("claimInterface", λ i, ends (PipeClaimInterface uninit i));
  ("claimInterfaceExclusive", PipeClaimInterfaceExclusive others uninit);
  ("releaseInterface", λ i, ends (PipeReleaseInterface uninit i));
  ("bulkTransfer", λ i, ends (PipeBulkTransfer i));
  ("controlTransfer", λ i, ends (PipeControlTransfer uninit i));
  ("usbControlTransfer", λ i, ends (PipeUsbControlTransfer uninit i));
  ("setInterface", λ i, ends (PipeSetInterface uninit i));
  ("setConfiguration", λ i, ends (PipeSetConfiguration uninit i));
  ("getRawDescriptor", λ i, ends (PipeGetRawDescriptors others uninit i));
  ("getFileDescriptor", λ i, ends (PipeGetFileDescriptor others i));
  ("closePipe", λ i, ends (PipeClose i));
  ("resetUsbDevice", λ i, ends (PipeResetDevice others i));
  ("usbCancelTransfer", λ i, ends (UsbCancelTransfer i));
  ("usbSubmitTransfer", λ i, ends (UsbSubmitTransfer uninit func uninit i));
  ("getVersion", λ i, ends (GetVersion i));
  ("addDeviceAccessRight", λ i, ends (DeviceAddAccessRight others i));
  ("removeRight", λ i, ends (DeviceRemoveRight others i));
  ("getAccessoryList", λ i, ends (DeviceGetAccessoryList others i));
  ("openAccessory", λ i, ends (DeviceOpenAccessory others i));
  ("closeAccessory", λ i, ends (DeviceCloseAccessory others uninit i));
  ("addAccessoryRight", λ i, ends (DeviceAddAccessoryRight others uninit i));
  ("hasAccessoryRight", λ i, ends (DeviceHasAccessoryRight others i));
  ("requestAccessoryRight", λ i, ends (DeviceRequestAccessoryRight i));
  ("cancelAccessoryRight", λ i, ends (DeviceCancelAccessoryRight others i))].
End Module_.
