(* ===== verification/SerialInfo.v ===== *)
(** * The serial functions of the JavaScript module
    (interfaces/kits/js/napi/src/serial_info.cpp, utils/native/include/serial_napi_errors.h)

    A library of its own, with its own table of messages, in the process of the other
    functions: it shares the engine and the client library with them.  Arguments are
    numbers of ports and arrays of bytes; [read], [write] and [requestSerialRight]
    answer with a promise, the others at once. *)
From S2P Require Import Prelude UsbErrors Platform UsbAccessory UsbDevice UsbDescriptorParser UsbPortManager UsbInterfaceType UsbHostManager UsbHostTransfer UsbService UsbServiceHost UsbServiceSerial UsbSrvClient UsbTransferCallbacks UsbUtilities NapiUtil UsbInfoParse UsbInfo UsbInfoAsync.

(** ** Errors (serial_napi_errors.h) *)

Definition SYSPARAM_INVALID_INPUT : Z := 401.
Definition SERIAL_SYSAPI_NOPERMISSION_CALL : Z := 201.
Definition SERIAL_SYSAPI_PERMISSION_DENIED : Z := 202.
Definition SERIAL_SERVICE_ABNORMAL : Z := 31400001.
Definition SERIAL_INTERFACE_PERMISSION_DENIED : Z := 31400002.
Definition SERIAL_PORT_NOT_EXIST : Z := 31400003.
Definition SERIAL_PORT_OCCUPIED : Z := 31400004.
Definition SERIAL_PORT_NOT_OPEN : Z := 31400005.
Definition SERIAL_TIMED_OUT : Z := 31400006.
Definition SERIAL_IO_EXCEPTION : Z := 31400007.
(** The library is built with [SERIAL_NAPI], so these are its messages; there is none
    for [UEC_COMMON_RIGHT_DATABASE_ERROR]. *)
Definition ERRCODE_MSG_MAP : list (Z * string) := [
  (SYSPARAM_INVALID_INPUT, "BusinessError 401:Parameter error.");
  (SERIAL_SYSAPI_NOPERMISSION_CALL, "BusinessError 201:Permission denied. The application does not have the permission to call the API.");
  (SERIAL_SYSAPI_PERMISSION_DENIED, "BusinessError 202:Permission denied. Normal application uses system api.");
  (SERIAL_SERVICE_ABNORMAL, "BusinessError 31400001:The serial port service is abnormal.");
  (SERIAL_INTERFACE_PERMISSION_DENIED, "BusinessError 31400002:Permission denied. no access right to serial device, call requestSerialRight first.");
  (SERIAL_PORT_NOT_EXIST, "BusinessError 31400003:port not exist.");
  (SERIAL_PORT_OCCUPIED, "BusinessError 31400004:device is using by other application.");
  (SERIAL_PORT_NOT_OPEN, "BusinessError 31400005:device is not open, call open first.");
  (SERIAL_TIMED_OUT, "BusinessError 31400006:transfer timeout.");
  (SERIAL_IO_EXCEPTION, "BusinessError 31400007: IO exception. Possible causes: 1. The transfer was canceled. 2. The device offered more data.")].
Definition GetErrMsgByErrCode (errCode : Z) : option string := snd <$> find (λ p, p.1 =? errCode) ERRCODE_MSG_MAP.

(** ** The library *)

Inductive SerialRequest :=
  | SerialWriteRequest (portId size timeout : Z) (pData : option data_ptr)
  | SerialReadRequest (portId size timeout : Z) (pData : option data_ptr)
  | SerialRightRequest (portIdValue : Z) (hasRight : bool).
(** [SerialWriteAsyncContext], [SerialReadAsyncContext], [SerialRequestRightAsyncContext] *)
Record SerialAsyncContext := {
  serial_deferred : option napi_deferred;
  contextErrno : Z;
  ret : Z;                                     (* int *)
  serial_metrics : option UsbApiMetrics.t;
  serial_request : SerialRequest;
}.
Record SerialInfo (S P E O : Type) := {
  process : UsbInfo S P E O;
  serial_works : list (bool * SerialAsyncContext);    (* whether it has been executed *)
}.
Arguments process {S P E O} _.
Arguments serial_works {S P E O} _.
Arguments Build_SerialInfo {S P E O} _ _.

(** What [memcpy_s] leaves when it refuses to copy: the destination, its size and the
    bytes. *)
Class MemcpyFailure (E : Type) := memcpy_s_failed : option data_ptr → Z → list Z → state E ().

Section Serial.
Context {S P E O : Type} `{!IUsbServer S, !ClientPlatform P, !ErrCodeBase, !Napi E, !SecureC, !MemcpyFailure E, !NapiSystem O}.
Context (others : state (UsbSrvClient S P) ()).
(** What variables hold that nothing has been assigned to. *)
Context (uninit_attr : UsbSerialAttr) (uninit_type : napi_typedarray_type) (uninit_length uninit_ret : Z).
Abbreviation M := (state (UsbInfo S P E O)).
Abbreviation SM := (state (SerialInfo S P E O)).

(** ** Checks *)

Definition ErrorCodeConversion (value : Z) : Z :=
  let errorMap := [
    (uec UEC_SERVICE_PERMISSION_DENIED_SYSAPI, SERIAL_SYSAPI_PERMISSION_DENIED);
    (uec UEC_SERVICE_PERMISSION_DENIED, SERIAL_INTERFACE_PERMISSION_DENIED);
    (uec UEC_SERVICE_PERMISSION_DENIED_SYSAPI_FAILED, SERIAL_SYSAPI_NOPERMISSION_CALL);
    (uec UEC_SERIAL_PORT_REPEAT_OPEN, SERIAL_PORT_OCCUPIED);
    (uec UEC_SERIAL_PORT_REPEAT_CLOSE, SERIAL_PORT_OCCUPIED);
    (uec UEC_SERIAL_PORT_OCCUPIED, SERIAL_PORT_OCCUPIED);
    (uec UEC_SERIAL_DEVICENOTOPEN, SERIAL_PORT_NOT_OPEN);
    (uec UEC_SERIAL_PORT_NOT_OPEN, SERIAL_PORT_NOT_OPEN);
    (uec UEC_INTERFACE_TIMED_OUT, SERIAL_TIMED_OUT);
    (uec UEC_SERIAL_IO_EXCEPTION, SERIAL_IO_EXCEPTION);
    (uec UEC_SERIAL_PORT_NOT_EXIST, SERIAL_PORT_NOT_EXIST);
    (uec UEC_SERIAL_DATEBASE_ERROR, UEC_COMMON_RIGHT_DATABASE_ERROR)] in
  match find (λ p, p.1 =? value) errorMap with Some p => p.2 | None => SERIAL_SERVICE_ABNORMAL end.

Definition ThrowBusinessError (errCode : Z) (errMsg : string) : M () :=
  on_engine (throw_error (GetErrMsgByErrCode errCode) errCode errMsg).
Definition CheckAndThrowOnError (assertion : bool) (errCode : Z) (errMsg : string) : M bool :=
  if negb assertion then ThrowBusinessError errCode errMsg;; mret false else mret true.
(** [if (!CheckAndThrowOnError(...)) { return r; }], and with the counters told. *)
Definition check {A} (r : A) (assertion : bool) (errCode : Z) (errMsg : string) (k : M A) : M A :=
  ok ← CheckAndThrowOnError assertion errCode errMsg;
  if negb ok then mret r else k.
Definition check_counted (assertion : bool) (errCode : Z) (errMsg : string) (k : M napi_value) : M napi_value :=
  ok ← CheckAndThrowOnError assertion errCode errMsg;
  if negb ok then SetErrorCode errCode;; mret nullptr else k.
(** [if (!CheckAndThrowOnError(env, (ret == 0), ErrorCodeConversion(ret), ...))] *)
Definition check_answer (ret : Z) (errMsg : string) (k : M napi_value) : M napi_value :=
  check_counted (ret =? 0) (ErrorCodeConversion ret) errMsg k.

Definition ONE_ARGUMENT : string := "The function takes 1 arguments.".
Definition TWO_ARGUMENTS : string := "The function takes 2 arguments.".
Definition PORT_TYPE : string := "The type of portId must be int32_t.".
Definition NO_PORT : string := "Failed to get portId.".
(** The arguments of a function that answers at once; the number must be exact. *)
Definition exact_arguments (n : nat) (message failure : string) (info : cb_info) (k : list napi_value → M napi_value) : M napi_value :=
  match info with
  | None => check_counted false SYSPARAM_INVALID_INPUT failure (mret nullptr)
  | Some args => check_counted (length args =? n)%nat SYSPARAM_INVALID_INPUT message (k args)
  end.
(** A number that is not the one of a variable that was not set. *)
Definition number_counted (v : napi_value) (none : Z) (type_message none_message : string) (k : Z → M napi_value) : M napi_value :=
  '(_, type) ← on_engine (napi_typeof v);
  check_counted (bool_decide (type = napi_number)) SYSPARAM_INVALID_INPUT type_message (
  value ← on_engine (napi_get_value_int32 v none);
  check_counted (negb (value =? none)) SYSPARAM_INVALID_INPUT none_message (k value)).
Definition port_argument (type_message : string) (info : cb_info) (k : Z → M napi_value) : M napi_value :=
  exact_arguments 1 ONE_ARGUMENT "get arguments failed." info (λ args, number_counted (argv args 0) (-1) type_message NO_PORT k).
Definition number_unchecked {A} (r : A) (v : napi_value) (type_message : string) (k : Z → M A) : M A :=
  '(_, type) ← on_engine (napi_typeof v);
  check r (bool_decide (type = napi_number)) SYSPARAM_INVALID_INPUT type_message (
  value ← on_engine (napi_get_value_int32 v (-1));
  check r (negb (value =? -1)) SYSPARAM_INVALID_INPUT NO_PORT (k value)).

(** ** Ports *)

Definition port_object (p : UsbSerialPort) : state E napi_value :=
  portObj ← napi_create_object;
  SetValueInt32 "portId" (serial_portId_ p) portObj;;
  SetValueUtf8String "deviceName" (pretty (serial_busNum_ p) +:+ "-" +:+ pretty (serial_devAddr_ p)) portObj;;
  mret portObj.
Definition ports_array (ports : list UsbSerialPort) (result : napi_value) : state E () :=
  for_elements 0 (λ i p, portObj ← port_object p; napi_set_element result i portObj) ports.
(** Only negative codes are failures here, and none is thrown. *)
Definition SerialGetPortListNapi (info : cb_info) : M napi_value :=
  with_metrics "BasicServicesKit.SerialManager.GetPortList" (
  '(ret, portIds) ← on_client (SerialGetPortList others []);
  result ← on_engine napi_create_array;
  if ret <? 0 then mret result else
  on_engine (ports_array portIds result);;
  mret result).
Definition attribute_object (a : UsbSerialAttr) : state E napi_value :=
  result ← napi_create_object;
  SetValueUint32 "baudRate" (baudRate_ a) result;;
  SetValueUint32 "dataBits" (dataBits_ a) result;;
  SetValueUint32 "parity" (parity_ a) result;;
  SetValueUint32 "stopBits" (stopBits_ a) result;;
  mret result.
Definition SerialGetAttributeNapi (info : cb_info) : M napi_value :=
  with_metrics "BasicServicesKit.SerialManager.GetAttribute" (
  port_argument "The type of arg0 must be int32_t." info (λ portIdValue,
  '(ret, serialAttribute) ← on_client (SerialGetAttribute others portIdValue uninit_attr);
  check_answer ret "Failed to get attribute." (on_engine (attribute_object serialAttribute)))).
(** What is read, and whether all of it could be. *)
Definition attribute_argument (obj : napi_value) : state E (option UsbSerialAttr) :=
  '(ok, baudRate) ← JsObjectToUint32 obj "baudRate" (baudRate_ uninit_attr);
  if negb ok then mret None else
  '(ok, dataBits) ← JsObjectToUint8 obj "dataBits" (dataBits_ uninit_attr);
  if negb ok then mret None else
  '(ok, parity) ← JsObjectToUint8 obj "parity" (parity_ uninit_attr);
  if negb ok then mret None else
  '(ok, stopBits) ← JsObjectToUint8 obj "stopBits" (stopBits_ uninit_attr);
  if negb ok then mret None else
  mret (Some {| baudRate_ := baudRate; stopBits_ := stopBits; parity_ := parity; dataBits_ := dataBits |}).
Definition ParseSetAttributeInterfaceParams (info : cb_info) : M (option (Z * UsbSerialAttr)) :=
  match info with
  | None => check None false SYSPARAM_INVALID_INPUT "get arguments failed." (mret None)
  | Some args =>
      check None (length args =? 2)%nat SYSPARAM_INVALID_INPUT TWO_ARGUMENTS (
      number_unchecked None (argv args 0) "The type of arg0 must be int32_t." (λ portIdValue,
      '(_, type) ← on_engine (napi_typeof (argv args 1));
      check None (bool_decide (type = napi_object)) SYSPARAM_INVALID_INPUT "The type of arg1 must be SerialAttribute." (
      attribute ← on_engine (attribute_argument (argv args 1));
      check None (bool_decide (is_Some attribute)) SYSPARAM_INVALID_INPUT "Parse attribute failed." (
      mret ((λ a, (portIdValue, a)) <$> attribute)))))
  end.
Definition SerialSetAttributeNapi (info : cb_info) : M napi_value :=
  with_metrics "BasicServicesKit.SerialManager.SetAttribute" (
  params ← ParseSetAttributeInterfaceParams info;
  match params with
  | None => SetErrorCode SYSPARAM_INVALID_INPUT;; mret nullptr
  | Some (portIdValue, serialAttribute) =>
      ret ← on_client (SerialSetAttribute others portIdValue serialAttribute);
      check_answer ret "Failed to set attribute." (mret nullptr)
  end).
Definition SerialOpenNapi (info : cb_info) : M napi_value :=
  with_metrics "BasicServicesKit.SerialManager.Open" (
  port_argument PORT_TYPE info (λ portIdValue,
  ret ← on_client (SerialOpen others portIdValue);
  check_answer ret "SerialOpen failed." (mret nullptr))).
Definition SerialCloseNapi (info : cb_info) : M napi_value :=
  with_metrics "BasicServicesKit.SerialManager.Close" (
  port_argument PORT_TYPE info (λ portIdValue,
  ret ← on_client (SerialClose others portIdValue);
  check_answer ret "SerialClose failed." (mret nullptr))).

(** ** Rights *)

Definition SerialHasRightNapi (info : cb_info) : M napi_value :=
  with_metrics "BasicServicesKit.SerialManager.HasSerialRight" (
  port_argument PORT_TYPE info (λ portIdValue,
  '(ret, hasRight) ← on_client (HasSerialRight others portIdValue false);
  check_answer ret "SerialHasRight failed." (bool_value hasRight))).
Definition CancelSerialRightNapi (info : cb_info) : M napi_value :=
  with_metrics "BasicServicesKit.SerialManager.CancelSerialRight" (
  port_argument PORT_TYPE info (λ portIdValue,
  ret ← on_client (CancelSerialRight others portIdValue);
  check_answer ret "SerialRemoveRight failed." (mret nullptr))).
Definition SerialAddRightNapi (info : cb_info) : M napi_value :=
  with_metrics "BasicServicesKit.SerialManager.AddSerialRight" (
  exact_arguments 2 TWO_ARGUMENTS "can not get arguments." info (λ args,
  number_counted (argv args 0) 0 "The type of tokenId must be int32_t." "Failed to get tokenId." (λ tokenIdValue,
  number_counted (argv args 1) (-1) PORT_TYPE NO_PORT (λ portIdValue,
  ret ← on_client (AddSerialRight others tokenIdValue portIdValue);
  check_answer ret "SerialAddRight failed." (mret nullptr))))).

(** ** Bytes *)

(** The port, the array, and the timeout, which is 0 when it is left out. *)
Definition port_and_buffer (info : cb_info) : M (option (Z * napi_value * Z)) :=
  match info with
  | None => check None false SYSPARAM_INVALID_INPUT "get arguments failed." (mret None)
  | Some args =>
      check None ((length args =? 2) || (length args =? 3))%nat SYSPARAM_INVALID_INPUT "The function takes 2 or 3 arguments." (
      number_unchecked None (argv args 0) PORT_TYPE (λ portIdValue,
      if (length args =? 3)%nat then
        '(_, type) ← on_engine (napi_typeof (argv args 2));
        check None (bool_decide (type = napi_number)) SYSPARAM_INVALID_INPUT "The type of timeout must be uint32_t." (
        '(_, timeoutValue) ← on_engine (napi_get_value_uint32 (argv args 2) 0);
        mret (Some (portIdValue, argv args 1, timeoutValue)))
      else mret (Some (portIdValue, argv args 1, 0))))
  end.
Definition ParseWriteInterfaceParams : cb_info → M (option (Z * napi_value * Z)) := port_and_buffer.
Definition ParseReadInterfaceParams : cb_info → M (option (Z * napi_value * Z)) := port_and_buffer.
(** [napi_get_typedarray_info]; for another value the variables stay. *)
Definition buffer_info (buffer : napi_value) : M (napi_typedarray_type * Z * option data_ptr) :=
  r ← on_engine (napi_get_typedarray_info buffer);
  mret (default (uninit_type, uninit_length, None) r).
Definition BYTES : string := "The type of buffer must be an array of uint8_t.".
(** [std::vector<uint8_t>(p, p + n)]; [Fault] reads a null pointer. *)
Definition vector_at (p : option data_ptr) (n : Z) : M (outcome (list Z)) :=
  if n =? 0 then mret (Done []) else
  match p with
  | None => mret Fault
  | Some p => l ← on_engine (read_bytes p n); mret (Done l)
  end.
(** [memcpy_s(p, destMax, data.data(), data.size())] *)
Definition memcpy_s (p : option data_ptr) (destMax : Z) (data : list Z) : state E bool :=
  match p with
  | Some q => if memcpy_s_ok destMax (Z.of_nat (length data)) then write_bytes q data;; mret true
              else memcpy_s_failed p destMax data;; mret false
  | None => memcpy_s_failed p destMax data;; mret false
  end.
Definition SerialWriteSyncNapi (info : cb_info) : M (outcome napi_value) :=
  with_metrics "BasicServicesKit.SerialManager.WriteSync" (
  params ← ParseWriteInterfaceParams info;
  match params with
  | None => SetErrorCode SYSPARAM_INVALID_INPUT;; mret (Done nullptr)
  | Some (portIdValue, buffer, timeoutValue) =>
      '(arrayType, bufferLength, bufferValue) ← buffer_info buffer;
      if negb (bool_decide (arrayType = napi_uint8_array))
      then v ← check_counted false SYSPARAM_INVALID_INPUT BYTES (mret nullptr); mret (Done v) else
      vector ← vector_at bufferValue bufferLength;
      match vector with
      | Done bufferVector =>
          '(ret, actualSize) ← on_client (SerialWrite others portIdValue bufferVector (to_u32 bufferLength) 0 timeoutValue);
          v ← check_answer ret "SerialWrite Failed." (int_value (to_i32 actualSize));
          mret (Done v)
      | Fault => mret Fault
      | OutOfFuel => mret OutOfFuel
      end
  end).
(** A copy that fails is only logged. *)
Definition SerialReadSyncNapi (info : cb_info) : M napi_value :=
  with_metrics "BasicServicesKit.SerialManager.ReadSync" (
  params ← ParseReadInterfaceParams info;
  match params with
  | None => SetErrorCode SYSPARAM_INVALID_INPUT;; mret nullptr
  | Some (portIdValue, buffer, timeoutValue) =>
      '(arrayType, bufferLength, bufferValue) ← buffer_info buffer;
      check_counted (bool_decide (arrayType = napi_uint8_array)) SYSPARAM_INVALID_INPUT BYTES (
      '(ret, (bufferData, actualSize)) ← on_client (SerialRead others portIdValue [] (to_u32 bufferLength) 0 timeoutValue);
      check_answer ret "SerialReadSync Failed." (
      _ ← on_engine (memcpy_s bufferValue bufferLength bufferData);
      int_value (to_i32 actualSize)))
  end).

(** ** Works *)

Definition on_process {A} (f : M A) : SM A := zoom process (λ p m, Build_SerialInfo p (serial_works m)) f.
Definition set_request (r : SerialRequest) (c : SerialAsyncContext) : SerialAsyncContext :=
  {| serial_deferred := serial_deferred c; contextErrno := contextErrno c; ret := ret c; serial_metrics := serial_metrics c; serial_request := r |}.
(** The error, when the code is one, and the number that the promise is resolved with. *)
Definition set_result (code actualSize : Z) (c : SerialAsyncContext) : SerialAsyncContext :=
  {| serial_deferred := serial_deferred c; contextErrno := if code =? 0 then contextErrno c else ErrorCodeConversion code;
     ret := to_i32 actualSize; serial_metrics := serial_metrics c; serial_request := serial_request c |}.
Definition start_metrics (name : string) (c : SerialAsyncContext) : M SerialAsyncContext :=
  m ← new_metrics name;
  mret {| serial_deferred := serial_deferred c; contextErrno := contextErrno c; ret := ret c; serial_metrics := Some m; serial_request := serial_request c |}.
(** Without bytes nothing is written, and the result is not set. *)
Definition g_serialWriteExecute (portId size timeout : Z) (pData : option data_ptr) (c : SerialAsyncContext) : M (outcome SerialAsyncContext) :=
  context ← start_metrics "BasicServicesKit.SerialManager.Write" c;
  if negb (contextErrno context =? 0) then mret (Done context) else
  if size =? 0 then mret (Done context) else
  vector ← vector_at pData size;
  match vector with
  | Done bufferVector =>
      '(ret, actualSize) ← on_client (SerialWrite others portId bufferVector size 0 timeout);
      mret (Done (set_result ret actualSize context))
  | Fault => mret Fault
  | OutOfFuel => mret OutOfFuel
  end.
(** The copy is made whatever the service answered. *)
Definition g_serialReadExecute (portId size timeout : Z) (pData : option data_ptr) (c : SerialAsyncContext) : M (outcome SerialAsyncContext) :=
  context ← start_metrics "BasicServicesKit.SerialManager.Read" c;
  '(ret, (bufferData, actualSize)) ← on_client (SerialRead others portId [] size 0 timeout);
  _ ← on_engine (memcpy_s pData size bufferData);
  mret (Done (set_result ret actualSize context)).
Definition g_serialRequestRightExecute (portIdValue : Z) (hasRight : bool) (c : SerialAsyncContext) : M (outcome SerialAsyncContext) :=
  asyncContext ← start_metrics "BasicServicesKit.SerialManager.RequestSerialRight" c;
  '(code, hasRight) ← on_client (RequestSerialRight others portIdValue hasRight);
  mret (Done {| serial_deferred := serial_deferred asyncContext; contextErrno := if code =? 0 then 0 else ErrorCodeConversion code;
                ret := ret asyncContext; serial_metrics := serial_metrics asyncContext;
                serial_request := SerialRightRequest portIdValue hasRight |}).
Definition serial_execute (c : SerialAsyncContext) : M (outcome SerialAsyncContext) :=
  match serial_request c with
  | SerialWriteRequest portId size timeout pData => g_serialWriteExecute portId size timeout pData c
  | SerialReadRequest portId size timeout pData => g_serialReadExecute portId size timeout pData c
  | SerialRightRequest portIdValue hasRight => g_serialRequestRightExecute portIdValue hasRight c
  end.
(** The three completions, which differ in the value; an error is the number of its
    code. *)
Definition settle (c : SerialAsyncContext) (value : M napi_value) : M () :=
  (if negb (contextErrno c =? 0) then
     result ← int_value (contextErrno c); ProcessPromise (serial_deferred c) false result
   else result ← value; ProcessPromise (serial_deferred c) true result);;
  match serial_metrics c with
  | Some m => destroy_metrics (if negb (contextErrno c =? 0) then UsbApiMetrics.SetErrorCode (contextErrno c) m else m)
  | None => mret ()
  end.
Definition g_serialWriteComplete (c : SerialAsyncContext) : M () := settle c (int_value (ret c)).
Definition g_serialReadComplete (c : SerialAsyncContext) : M () := settle c (int_value (ret c)).
Definition g_serialRequestRightComplete (hasRight : bool) (c : SerialAsyncContext) : M () := settle c (bool_value hasRight).
Definition serial_complete (c : SerialAsyncContext) : M () :=
  match serial_request c with
  | SerialWriteRequest _ _ _ _ => g_serialWriteComplete c
  | SerialReadRequest _ _ _ _ => g_serialReadComplete c
  | SerialRightRequest _ hasRight => g_serialRequestRightComplete hasRight c
  end.
(** The engine executes a work that waits, and completes one that has been executed. *)
Definition serial_run_execute (k : nat) : SM (outcome ()) :=
  m ← get;
  match serial_works m !! k with
  | Some (false, c) =>
      r ← on_process (serial_execute c);
      match r with
      | Done c => modify (λ m, Build_SerialInfo (process m) (<[k := (true, c)]> (serial_works m)));; mret (Done ())
      | Fault => mret Fault
      | OutOfFuel => mret OutOfFuel
      end
  | _ => mret (Done ())
  end.
Definition serial_run_complete (k : nat) : SM () :=
  m ← get;
  match serial_works m !! k with
  | Some (true, c) =>
      modify (λ m, Build_SerialInfo (process m) (delete k (serial_works m)));; on_process (serial_complete c)
  | _ => mret ()
  end.

(** ** The functions that answer later *)

(** Making the work and queueing it, neither of which is looked at. *)
Definition serial_queue (resource : string) (c : SerialAsyncContext) : SM () :=
  _ ← on_process (on_engine (napi_create_string_utf8 resource));
  created ← on_process (on_engine napi_create_async_work);
  queued ← on_process (on_engine napi_queue_async_work);
  if created && queued then modify (λ m, Build_SerialInfo (process m) (serial_works m ++ [(false, c)])) else mret ().
Definition new_serial_context (d : napi_deferred) (ret : Z) (r : SerialRequest) : SerialAsyncContext :=
  {| serial_deferred := Some d; contextErrno := 0; ret := ret; serial_metrics := None; serial_request := r |}.
Definition throw_and_leave (errCode : Z) (errMsg : string) : SM napi_value :=
  _ ← on_process (CheckAndThrowOnError false errCode errMsg); mret nullptr.
(** The context, and the promise; [None] has been thrown. *)
Definition promise_of_context (no_memory : string) : M (option (napi_deferred * napi_value)) :=
  ok ← on_system new_nothrow;
  check None ok SYSPARAM_INVALID_INPUT no_memory (
  '(d, promise) ← on_engine napi_create_promise;
  match d with
  | None => check None false SERIAL_SERVICE_ABNORMAL "promise is null" (mret None)
  | Some d => mret (Some (d, promise))
  end).
(** Without a reference to the array the promise is lost. *)
Definition SerialWriteNapi (info : cb_info) : SM napi_value :=
  params ← on_process (ParseWriteInterfaceParams info);
  match params with
  | None => mret nullptr
  | Some (portIdValue, buffer, timeoutValue) =>
      '(arrayType, bufferLength, bufferValue) ← on_process (buffer_info buffer);
      if negb (bool_decide (arrayType = napi_uint8_array)) then throw_and_leave SYSPARAM_INVALID_INPUT BYTES else
      p ← on_process (promise_of_context "asyncContext is null");
      match p with
      | None => mret nullptr
      | Some (d, promise) =>
          bufferRef ← on_process (on_engine (napi_create_reference buffer));
          if negb (bool_decide (is_Some bufferRef)) then mret nullptr else
          serial_queue "SerialWrite" (new_serial_context d uninit_ret (SerialWriteRequest portIdValue (to_u32 bufferLength) timeoutValue bufferValue));;
          mret promise
      end
  end.
Definition SerialReadNapi (info : cb_info) : SM napi_value :=
  params ← on_process (ParseReadInterfaceParams info);
  match params with
  | None => mret nullptr
  | Some (portIdValue, buffer, timeoutValue) =>
      '(arrayType, bufferLength, bufferValue) ← on_process (buffer_info buffer);
      if negb (bool_decide (arrayType = napi_uint8_array)) then throw_and_leave SYSPARAM_INVALID_INPUT BYTES else
      p ← on_process (promise_of_context "Failed to create promise.");
      match p with
      | None => mret nullptr
      | Some (d, promise) =>
          serial_queue "SerialRead" (new_serial_context d uninit_ret (SerialReadRequest portIdValue (to_u32 bufferLength) timeoutValue bufferValue));;
          mret promise
      end
  end.
Definition SerialRequestRightNapi (info : cb_info) : SM napi_value :=
  params ← on_process match info with
    | None => check None false SYSPARAM_INVALID_INPUT "can not get arguments." (mret None)
    | Some args => check None (length args =? 1)%nat SYSPARAM_INVALID_INPUT ONE_ARGUMENT (
        number_unchecked None (argv args 0) PORT_TYPE (λ portIdValue, mret (Some portIdValue)))
    end;
  match params with
  | None => mret nullptr
  | Some portIdValue =>
      p ← on_process (promise_of_context "Failed to create promise.");
      match p with
      | None => mret nullptr
      | Some (d, result) =>
          serial_queue "SerialRequestRight" (new_serial_context d uninit_ret (SerialRightRequest portIdValue false));;
          mret result
      end
  end.

(** ** The module *)

Definition at_once (f : cb_info → M napi_value) (info : cb_info) : SM (outcome napi_value) := v ← on_process (f info); mret (Done v).
Definition later (f : cb_info → SM napi_value) (info : cb_info) : SM (outcome napi_value) := v ← f info; mret (Done v).
Definition SerialInit : list (string * (cb_info → SM (outcome napi_value))) := [
  ("getPortList", at_once SerialGetPortListNapi);
  ("open", at_once SerialOpenNapi);
  ("close", at_once SerialCloseNapi);
  ("read", later SerialReadNapi);
  ("readSync", at_once SerialReadSyncNapi);
  ("write", later SerialWriteNapi);
  ("writeSync", λ info, on_process (SerialWriteSyncNapi info));
  ("getAttribute", at_once SerialGetAttributeNapi);
  ("setAttribute", at_once SerialSetAttributeNapi);
  ("hasSerialRight", at_once SerialHasRightNapi);
  ("requestSerialRight", later SerialRequestRightNapi);
  ("addSerialRight", at_once SerialAddRightNapi);
  ("cancelSerialRight", at_once CancelSerialRightNapi)].
End Serial.

Definition NapiCreateStopBitsTypeEnum : list (string * Z) := [("STOPBIT_1", 0); ("STOPBIT_2", 1)].
Definition NapiCreateParityTypeEnum : list (string * Z) :=
  [("PARITY_NONE", 0); ("PARITY_ODD", 1); ("PARITY_EVEN", 2); ("PARITY_MARK", 3); ("PARITY_SPACE", 4)].
Definition NapiCreateDataBitsTypeEnum : list (string * Z) := [("DATABIT_8", 8); ("DATABIT_7", 7); ("DATABIT_6", 6); ("DATABIT_5", 5)].
Definition NapiCreateBaudRatesTypeEnum : list (string * Z) := [
  ("BAUDRATE_50", 50); ("BAUDRATE_75", 75); ("BAUDRATE_110", 110); ("BAUDRATE_134", 134); ("BAUDRATE_150", 150); ("BAUDRATE_200", 200);
  ("BAUDRATE_300", 300); ("BAUDRATE_600", 600); ("BAUDRATE_1200", 1200); ("BAUDRATE_1800", 1800); ("BAUDRATE_2400", 2400);
  ("BAUDRATE_4800", 4800); ("BAUDRATE_9600", 9600); ("BAUDRATE_19200", 19200); ("BAUDRATE_38400", 38400); ("BAUDRATE_57600", 57600);
  ("BAUDRATE_115200", 115200); ("BAUDRATE_230400", 230400); ("BAUDRATE_460800", 460800); ("BAUDRATE_500000", 500000);
  ("BAUDRATE_576000", 576000); ("BAUDRATE_921600", 921600); ("BAUDRATE_1000000", 1000000); ("BAUDRATE_1152000", 1152000);
  ("BAUDRATE_1500000", 1500000); ("BAUDRATE_2000000", 2000000); ("BAUDRATE_2500000", 2500000); ("BAUDRATE_3000000", 3000000);
  ("BAUDRATE_3500000", 3500000); ("BAUDRATE_4000000", 4000000)].
Definition DeclareEnum : list (string * Constant) :=
  [("StopBits", CEnum NapiCreateStopBitsTypeEnum); ("Parity", CEnum NapiCreateParityTypeEnum);
   ("DataBits", CEnum NapiCreateDataBitsTypeEnum); ("BaudRates", CEnum NapiCreateBaudRatesTypeEnum)].
