(* ===== verification/NapiLaws.v ===== *)
(** * What Node-API does to plain objects

    The laws of the script engine for plain objects, arrays, strings and numbers,
    and what follows for the readers and builders of [NapiUtil]: a builder makes new
    objects that read as a tree, and a reader of such a tree finds what is in it. *)
From S2P Require Import Prelude Platform NapiUtil UsbInfoParse.

(** ** Laws *)

Inductive script_value :=
  | SUndefined
  | SBool (b : bool)
  | SNumber (z : Z)                                 (* a number that is an integer *)
  | SString (s : string)
  | SFunction
  | SObject (properties : gmap string napi_value)   (* own properties *)
  | SArray (elements : list napi_value)
  | SBytes (type : napi_typedarray_type) (n : Z) (data : option data_ptr).
Definition type_of (s : script_value) : napi_valuetype :=
  match s with
  | SUndefined => napi_undefined | SBool _ => napi_boolean | SNumber _ => napi_number | SString _ => napi_string
  | SFunction => napi_function | SObject _ | SArray _ | SBytes _ _ _ => napi_object
  end.

(** [script_heap]: what is known of the values that handles stand for; [pending]: the
    exception that is thrown; [script_bytes]: the memory of array buffers;
    [script_roots]: the values there always are;
    [utf8_text]: what the engine makes of bytes. *)
Class NapiView (E : Type) := {
  script_heap : E → gmap napi_value script_value;
  pending : E → option napi_value;
  script_bytes : E → gmap data_ptr (list Z);
  script_roots : gmap napi_value script_value;
  utf8_text : string → string;
}.
(** Nothing known of objects is changed; nothing known is changed. *)
Definition same_objects {E} `{!NapiView E} (e e' : E) : Prop := script_heap e ⊆ script_heap e' ∧ pending e' = pending e.
Definition calm {E} `{!NapiView E} (e e' : E) : Prop := same_objects e e' ∧ script_bytes e ⊆ script_bytes e'.
#[export] Instance same_objects_preorder {E} `{!NapiView E} : PreOrder (@same_objects E _).
Proof. split; [by intros e|]. intros e1 e2 e3 [H12 P12] [H23 P23]. split; [by etransitivity|by rewrite P23]. Qed.
#[export] Instance calm_preorder {E} `{!NapiView E} : PreOrder (@calm E _).
Proof. split; [by intros e|]. intros e1 e2 e3 [H12 P12] [H23 P23]. split; by etransitivity. Qed.
(** A call that gives a new value. *)
Definition makes {E} `{!NapiView E} (e e' : E) (v : napi_value) (s : script_value) : Prop :=
  script_heap e !! v = None ∧ <[v := s]> (script_heap e) ⊆ script_heap e' ∧ pending e' = pending e.

Class NapiLaws (E : Type) `{!Napi E, !NapiView E} := {
  law_roots e : script_roots ⊆ script_heap e;
  law_typeof e v s : script_heap e !! v = Some s → let '(r, e') := napi_typeof v e in r = (true, type_of s) ∧ calm e e';
  law_has e o m k v : pending e = None → script_heap e !! o = Some (SObject m) → m !! k = Some v →
    let '(r, e') := napi_has_named_property o k e in r = (true, true) ∧ calm e e';
  law_get e o m k v : pending e = None → script_heap e !! o = Some (SObject m) → m !! k = Some v →
    let '(r, e') := napi_get_named_property o k e in r = (true, v) ∧ calm e e';
  law_bool e v b old : pending e = None → script_heap e !! v = Some (SBool b) →
    let '(r, e') := napi_get_value_bool v old e in r = b ∧ calm e e';
  law_int32 e v z old : pending e = None → script_heap e !! v = Some (SNumber z) →
    let '(r, e') := napi_get_value_int32 v old e in r = to_i32 z ∧ calm e e';
  law_uint32 e v z old : pending e = None → script_heap e !! v = Some (SNumber z) →
    let '(r, e') := napi_get_value_uint32 v old e in r = (true, to_u32 z) ∧ calm e e';
  (* a buffer that is too small gets a prefix *)
  law_string e v s n : pending e = None → script_heap e !! v = Some (SString s) →
    let '(r, e') := napi_get_value_string_utf8 v n e in
    calm e e' ∧ String.prefix r s = true ∧ Z.of_nat (String.length r) < Z.max 1 n ∧ (Z.of_nat (String.length s) < n → r = s);
  law_is_array e v l : pending e = None → script_heap e !! v = Some (SArray l) →
    let '(r, e') := napi_is_array v e in r = (true, true) ∧ calm e e';
  law_array_length e v l : pending e = None → script_heap e !! v = Some (SArray l) →
    let '(r, e') := napi_get_array_length v e in r = (true, Z.of_nat (length l)) ∧ calm e e';
  law_element e v l i x : pending e = None → script_heap e !! v = Some (SArray l) → l !! i = Some x →
    let '(r, e') := napi_get_element v (Z.of_nat i) e in r = (true, x) ∧ calm e e';
  law_is_typedarray e v t n p : pending e = None → script_heap e !! v = Some (SBytes t n p) →
    let '(r, e') := napi_is_typedarray v e in r = (true, true) ∧ calm e e';
  law_typedarray e v t n p : pending e = None → script_heap e !! v = Some (SBytes t n p) →
    let '(r, e') := napi_get_typedarray_info v e in r = Some (t, n, p) ∧ calm e e';
  law_create_object e : pending e = None → let '(v, e') := napi_create_object e in makes e e' v (SObject ∅);
  law_create_array e : pending e = None → let '(v, e') := napi_create_array e in makes e e' v (SArray []);
  law_create_string e s : pending e = None → let '(v, e') := napi_create_string_utf8 s e in makes e e' v (SString (utf8_text s));
  law_create_int32 e z : pending e = None → in_i32 z → let '(v, e') := napi_create_int32 z e in makes e e' v (SNumber z);
  law_create_uint32 e z : pending e = None → in_u32 z →
    let '(r, e') := napi_create_uint32 z e in r.1 = true ∧ makes e e' r.2 (SNumber z);
  law_boolean e b : pending e = None → let '(v, e') := napi_get_boolean b e in script_roots !! v = Some (SBool b) ∧ calm e e';
  law_set_property e o m k v : pending e = None → script_heap e !! o = Some (SObject m) →
    let '(_, e') := napi_set_named_property o k v e in
    <[o := SObject (<[k := v]> m)]> (script_heap e) ⊆ script_heap e' ∧ pending e' = None;
  law_set_element e a l v : pending e = None → script_heap e !! a = Some (SArray l) →
    let '(_, e') := napi_set_element a (Z.of_nat (length l)) v e in
    <[a := SArray (l ++ [v])]> (script_heap e) ⊆ script_heap e' ∧ pending e' = None;
  law_create_error e m s : pending e = None → script_heap e !! m = Some (SString s) →
    let '(v, e') := napi_create_error m e in makes e e' v (SObject {["message" := m]});
  law_throw e v : pending e = None → let '(_, e') := napi_throw v e in script_heap e ⊆ script_heap e' ∧ pending e' = Some v;
  (* what has been thrown stays until the script gets it *)
  law_still_create_string e s : is_Some (pending e) → calm e (napi_create_string_utf8 s e).2;
  law_still_create_int32 e z : is_Some (pending e) → calm e (napi_create_int32 z e).2;
  law_still_create_error e m : is_Some (pending e) → calm e (napi_create_error m e).2;
  law_still_set_property e o k v : is_Some (pending e) → calm e (napi_set_named_property o k v e).2;
  law_still_throw e v : is_Some (pending e) → calm e (napi_throw v e).2;
  law_still_resolve e d v : is_Some (pending e) → calm e (napi_resolve_deferred d v e).2;
  law_still_reject e d v : is_Some (pending e) → calm e (napi_reject_deferred d v e).2;
  law_undefined e : calm e (napi_get_undefined e).2;
  law_read_bytes e p l n : script_bytes e !! p = Some l → (Z.to_nat n <= length l)%nat →
    (read_bytes p n e).1 = take (Z.to_nat n) l ∧ script_bytes (read_bytes p n e).2 = script_bytes e;
  (* within the buffer *)
  law_write_bytes e p l data : script_bytes e !! p = Some l → (length data <= length l)%nat →
    script_bytes (write_bytes p data e).2 = <[p := data ++ drop (length data) l]> (script_bytes e);
  law_read_objects e p n : same_objects e (read_bytes p n e).2;
  law_write_objects e p data : same_objects e (write_bytes p data e).2;
  law_int32_bytes e z : script_bytes e ⊆ script_bytes (napi_create_int32 z e).2;
  law_create_promise e : pending e = None → calm e (napi_create_promise e).2;
}.

(** ** Trees *)

(** The value [v] reads as the tree [t] in the part [h] of the heap. *)
Fixpoint Reads (h : gmap napi_value script_value) (t : cjson) (v : napi_value) {struct t} : Prop :=
  match t with
  | JNumber z => h !! v = Some (SNumber z)
  | JBool b => h !! v = Some (SBool b)
  | JString s => h !! v = Some (SString s)
  | JArray l => ∃ vs, h !! v = Some (SArray vs) ∧
      (fix each (l : list cjson) (vs : list napi_value) {struct l} : Prop :=
         match l, vs with
         | [], [] => True
         | t :: l, w :: vs => Reads h t w ∧ each l vs
         | _, _ => False
         end) l vs
  | JObject kvs => ∃ m, h !! v = Some (SObject m) ∧
      (fix each (kvs : list (string * cjson)) {struct kvs} : Prop :=
         match kvs with
         | [] => True
         | (k, t) :: kvs => (∃ w, m !! k = Some w ∧ Reads h t w) ∧ each kvs
         end) kvs
  end.
Definition member_reads (h : gmap napi_value script_value) (m : gmap string napi_value) (kt : string * cjson) : Prop :=
  ∃ w, m !! kt.1 = Some w ∧ Reads h kt.2 w.
Lemma Reads_array h l v : Reads h (JArray l) v ↔ ∃ vs, h !! v = Some (SArray vs) ∧ Forall2 (Reads h) l vs.
Proof.
  cbn [Reads]. apply exist_proper. intros vs. apply and_iff_compat_l.
  revert vs. induction l as [|t l IH]; intros [|w vs]; split; try done; try by inversion 1.
  - intros [? ?%IH]. by constructor.
  - inversion 1; subst. split; [done|]. by apply IH.
Qed.
Lemma Reads_object h kvs v : Reads h (JObject kvs) v ↔ ∃ m, h !! v = Some (SObject m) ∧ Forall (member_reads h m) kvs.
Proof.
  cbn [Reads]. apply exist_proper. intros m. apply and_iff_compat_l.
  induction kvs as [|[k t] kvs IH]; [done|]. rewrite Forall_cons, <- IH. done.
Qed.
Fixpoint Reads_mono h h' t v (Hs : h ⊆ h') {struct t} : Reads h t v → Reads h' t v.
Proof.
  destruct t as [z|b|s|l|kvs]; [intros Ht; exact (lookup_weaken _ _ _ _ Ht Hs)..| |].
  - intros (vs & Hv & Hl). exists vs. split; [by eapply lookup_weaken|]. clear Hv.
    revert vs Hl. induction l as [|t l IH]; intros [|w vs]; try done. intros [Ht Hl]. split; [by apply (Reads_mono h h')|by apply IH].
  - intros (m & Hv & Hl). exists m. split; [by eapply lookup_weaken|]. clear Hv.
    induction kvs as [|[k t] kvs IH]; [done|]. destruct Hl as [(w & Hw & Ht) Hl].
    split; [exists w; split; [done|by apply (Reads_mono h h')]|by apply IH].
Qed.
Lemma member_reads_mono h h' m kt : h ⊆ h' → member_reads h m kt → member_reads h' m kt.
Proof. intros Hs (w & Hw & Ht). exists w. split; [done|by eapply Reads_mono]. Qed.

Section Laws.
Context {E : Type} `{!Napi E, !SecureC, !NapiView E, !NapiLaws E}.
Implicit Types (e : E) (h d : gmap napi_value script_value) (t : cjson) (v o : napi_value).

(** ** Builders *)

(** What has been made since [e0] is new, and reads as [t]. *)
Definition built t e0 v e : Prop := pending e = None ∧
  ∃ d, d ##ₘ script_heap e0 ∧ d ∪ script_heap e0 ⊆ script_heap e ∧ Reads (d ∪ script_roots) t v.
Definition Builds (f : state E napi_value) t : Prop := ∀ e0, pending e0 = None → built t e0 (f e0).1 (f e0).2.
(** An object or an array that is being filled: what it holds so far does not reach it. *)
Definition under_way (Q : gmap napi_value script_value → script_value → Prop) o e0 e : Prop := pending e = None ∧
  ∃ d s, d ##ₘ script_heap e0 ∧ d ∪ script_heap e0 ⊆ script_heap e ∧ d !! o = Some s ∧ Q (delete o d ∪ script_roots) s.
Definition object_so_far (kvs : list (string * cjson)) h s : Prop := ∃ m, s = SObject m ∧ Forall (member_reads h m) kvs.
Definition array_so_far (ts : list cjson) h s : Prop := ∃ vs, s = SArray vs ∧ Forall2 (Reads h) ts vs.
Definition monotone (Q : gmap napi_value script_value → script_value → Prop) : Prop := ∀ h h' s, h ⊆ h' → Q h s → Q h' s.
Lemma object_so_far_mono kvs : monotone (object_so_far kvs).
Proof.
  intros h h' s Hs (m & -> & Hm). exists m. split; [done|]. eapply Forall_impl; [exact Hm|]. intros kt. by apply member_reads_mono.
Qed.
Lemma array_so_far_mono ts : monotone (array_so_far ts).
Proof.
  intros h h' s Hs (vs & -> & Hm). exists vs. split; [done|]. eapply Forall2_impl; [exact Hm|]. intros t v. by apply Reads_mono.
Qed.

Lemma roots_disjoint d e : d ##ₘ script_heap e → d ##ₘ script_roots.
Proof. intros Hd. eapply map_disjoint_weaken_r; [exact Hd|apply law_roots]. Qed.
Lemma built_new v s t e e' : makes e e' v s → pending e = None → (∀ h, h !! v = Some s → Reads h t v) → built t e v e'.
Proof.
  intros (Hv & Hs & Hp) He Ht. split; [by rewrite Hp|]. exists {[v := s]}. split; [by apply map_disjoint_singleton_l|].
  rewrite <- insert_union_singleton_l. split; [done|]. apply Ht. apply lookup_union_Some_l, lookup_singleton_eq.
Qed.
Lemma Builds_int z : in_i32 z → Builds (napi_create_int32 z) (JNumber z).
Proof.
  intros Hz e He. pose proof (law_create_int32 e z He Hz) as Hl. destruct (napi_create_int32 z e) as [v e'].
  by apply (built_new v (SNumber z)).
Qed.
Lemma Builds_string s : Builds (napi_create_string_utf8 s) (JString (utf8_text s)).
Proof.
  intros e He. pose proof (law_create_string e s He) as Hl. destruct (napi_create_string_utf8 s e) as [v e'].
  by apply (built_new v (SString (utf8_text s))).
Qed.
Lemma Builds_bool b : Builds (napi_get_boolean b) (JBool b).
Proof.
  intros e He. pose proof (law_boolean e b He) as Hl. destruct (napi_get_boolean b e) as [v e'], Hl as [Hv [[Hs Hp] _]].
  split; [by rewrite <- He|]. exists ∅. split; [apply map_disjoint_empty_l|]. split; [by rewrite (left_id_L ∅ (∪))|].
  cbn [Reads fst]. by rewrite (left_id_L ∅ (∪)).
Qed.
(** A builder whose result a function of the state continues with. *)
Lemma Builds_run (f : state E napi_value) t e0 : Builds f t → pending e0 = None → ∃ v e, f e0 = (v, e) ∧ built t e0 v e.
Proof. intros Hf He. exists (f e0).1, (f e0).2. split; [by destruct (f e0)|by apply Hf]. Qed.

(** One more thing is made and put in. *)
Lemma under_way_put Q Q' t o e0 e v e1 (g : state E ()) : monotone Q → built t e v e1 → under_way Q o e0 e →
  (∀ h s, Q h s → Reads h t v → ∃ s', Q' h s' ∧ ∀ e1, pending e1 = None → script_heap e1 !! o = Some s →
     <[o := s']> (script_heap e1) ⊆ script_heap (g e1).2 ∧ pending (g e1).2 = None) →
  under_way Q' o e0 (g e1).2.
Proof.
  intros HQ (Hp1 & d2 & Hd2 & Hs2 & Ht) (Hp & d & s & Hd & Hs & Ho & Hq) Hg.
  assert (d ⊆ script_heap e) as Hde by (etransitivity; [apply map_union_subseteq_l|exact Hs]).
  assert (script_heap e0 ⊆ script_heap e) as H0e by (etransitivity; [by apply map_union_subseteq_r|exact Hs]).
  assert (script_heap e ⊆ script_heap e1) as He1 by (etransitivity; [by apply map_union_subseteq_r|exact Hs2]).
  assert (d2 !! o = None) as Ho2 by (eapply map_disjoint_Some_r; [exact Hd2|]; exact (lookup_weaken _ _ _ _ Ho Hde)).
  assert (d2 ##ₘ d) as Hdd by (eapply map_disjoint_weaken_r; [exact Hd2|exact Hde]).
  assert (d2 ∪ d ##ₘ script_heap e0) as H20.
  { apply map_disjoint_union_l. split; [|done]. eapply map_disjoint_weaken_r; [exact Hd2|exact H0e]. }
  assert (delete o (d2 ∪ d) ##ₘ script_roots) as Hr by (by apply map_disjoint_delete_l, (roots_disjoint _ e0)).
  assert (script_heap e0 !! o = None) as Ho0 by (eapply map_disjoint_Some_l; [exact Hd|exact Ho]).
  destruct (Hg (delete o (d2 ∪ d) ∪ script_roots) s) as (s' & Hq' & Hset).
  { eapply HQ; [|exact Hq]. apply map_union_mono_r; [done|]. rewrite delete_union. apply map_union_subseteq_r.
    by apply map_disjoint_delete_l, map_disjoint_delete_r. }
  { eapply Reads_mono; [|exact Ht]. apply map_union_mono_r; [done|]. rewrite delete_union, (delete_id d2) by done.
    apply map_union_subseteq_l. }
  destruct (Hset e1 Hp1) as [Hs' Hp']; [exact (lookup_weaken _ _ _ _ (lookup_weaken _ _ _ _ Ho Hde) He1)|].
  split; [done|]. exists (<[o := s']> (d2 ∪ d)), s'. split; [by apply map_disjoint_insert_l|].
  split; [|split; [apply lookup_insert_eq|by rewrite delete_insert_eq]].
  rewrite <- insert_union_l. etransitivity; [|exact Hs']. apply insert_mono. rewrite <- assoc_L by apply _.
  etransitivity; [|exact Hs2]. by apply map_union_mono_l.
Qed.

(** *** Objects *)

Definition filling (kvs : list (string * cjson)) o e0 : E → Prop := under_way (object_so_far kvs) o e0.
Lemma filling_start e0 : pending e0 = None → filling [] (napi_create_object e0).1 e0 (napi_create_object e0).2.
Proof.
  intros He. pose proof (law_create_object e0 He) as Hl. destruct (napi_create_object e0) as [o e], Hl as (Ho & Hs & Hp).
  cbn [fst snd]. split; [by rewrite Hp|]. exists {[o := SObject ∅]}, (SObject ∅). split; [by apply map_disjoint_singleton_l|].
  rewrite <- insert_union_singleton_l. split; [done|]. split; [apply lookup_singleton_eq|]. by exists ∅.
Qed.
Lemma filling_put kvs o e0 k t e v e1 : built t e v e1 → bool_decide (k ∈ kvs.*1) = false → filling kvs o e0 e →
  filling (kvs ++ [(k, t)]) o e0 (napi_set_named_property o k v e1).2.
Proof.
  intros Hb Hk He. apply bool_decide_eq_false in Hk. eapply under_way_put; [apply object_so_far_mono|exact Hb|exact He|].
  intros h s (m & -> & Hm) Ht. exists (SObject (<[k := v]> m)). split.
  - exists (<[k := v]> m). split; [done|]. apply Forall_app. split.
    + apply Forall_forall. intros [k' t'] Hi. destruct (proj1 (Forall_forall _ _) Hm _ Hi) as (w & Hw & Hr'). exists w. split; [|done].
      cbn in *. rewrite lookup_insert_ne; [done|]. intros ->. apply Hk. apply list_elem_of_fmap. by exists (k', t').
    + apply Forall_singleton. exists v. split; [apply lookup_insert_eq|done].
  - intros e2 He2 Ho. pose proof (law_set_property e2 o m k v He2 Ho) as Hl. by destruct (napi_set_named_property o k v e2).
Qed.
Lemma filling_set kvs o e0 k t (f : state E napi_value) : Builds f t → bool_decide (k ∈ kvs.*1) = false →
  triple (filling kvs o e0) (v ← f; napi_set_named_property o k v) (λ _, filling (kvs ++ [(k, t)]) o e0).
Proof.
  intros Hf Hk e He. rewrite bind_run. destruct (Builds_run f t e Hf (proj1 He)) as (v & e1 & Hr & Hb).
  rewrite Hr. by apply (filling_put kvs o e0 k t e).
Qed.
Lemma filling_done kvs o e0 : triple (filling kvs o e0) (mret o) (built (JObject kvs) e0).
Proof.
  intros e (Hp & d & s & Hd & Hs & Ho & m & -> & Hm). split; [done|]. exists d. split; [done|]. split; [done|].
  apply Reads_object. exists m. split; [by apply lookup_union_Some_l|]. eapply Forall_impl; [exact Hm|]. intros kt.
  apply member_reads_mono. apply map_union_mono_r; [by apply (roots_disjoint _ e0)|apply delete_subseteq].
Qed.
Lemma Builds_object (f : napi_value → state E napi_value) t :
  (∀ o e0, triple (filling [] o e0) (f o) (built t e0)) → Builds (o ← napi_create_object; f o) t.
Proof. intros Hf e0 He. rewrite bind_run. apply Hf. by apply filling_start. Qed.

Lemma filling_int kvs o e0 k z : in_i32 z → bool_decide (k ∈ kvs.*1) = false →
  triple (filling kvs o e0) (SetValueInt32 k z o) (λ _, filling (kvs ++ [(k, JNumber z)]) o e0).
Proof. intros Hz Hk. by apply filling_set; [apply Builds_int|]. Qed.
Lemma filling_string kvs o e0 k s : bool_decide (k ∈ kvs.*1) = false →
  triple (filling kvs o e0) (SetValueUtf8String k s o) (λ _, filling (kvs ++ [(k, JString (utf8_text (c_str s)))]) o e0).
Proof. intros Hk. by apply filling_set; [apply Builds_string|]. Qed.
Lemma filling_bool kvs o e0 k b : bool_decide (k ∈ kvs.*1) = false →
  triple (filling kvs o e0) (SetValueBool k b o) (λ _, filling (kvs ++ [(k, JBool b)]) o e0).
Proof. intros Hk. by apply filling_set; [apply Builds_bool|]. Qed.
Lemma filling_uint kvs o e0 k z : in_u32 z → bool_decide (k ∈ kvs.*1) = false →
  triple (filling kvs o e0) (SetValueUint32 k z o) (λ _, filling (kvs ++ [(k, JNumber z)]) o e0).
Proof.
  intros Hz Hk e He. unfold SetValueUint32. rewrite bind_run. pose proof (law_create_uint32 e z (proj1 He) Hz) as Hl.
  destruct (napi_create_uint32 z e) as [[ok v] e1], Hl as [Hok Hm]. cbn in Hok. subst ok. cbn [fst snd negb].
  apply (filling_put kvs o e0 k _ e); [|done|done]. apply (built_new v (SNumber z)); [done|apply He|done].
Qed.

(** *** Arrays *)

Definition filling_array (ts : list cjson) a e0 : E → Prop := under_way (array_so_far ts) a e0.
Lemma filling_array_put ts a e0 t e v e1 : built t e v e1 → filling_array ts a e0 e →
  filling_array (ts ++ [t]) a e0 (napi_set_element a (Z.of_nat (length ts)) v e1).2.
Proof.
  intros Hb He. eapply under_way_put; [apply array_so_far_mono|exact Hb|exact He|].
  intros h s (vs & -> & Hm) Ht. exists (SArray (vs ++ [v])). split.
  - exists (vs ++ [v]). split; [done|]. apply Forall2_app; [done|]. by constructor.
  - intros e2 He2 Ho. rewrite (Forall2_length _ _ _ Hm). pose proof (law_set_element e2 a vs v He2 Ho) as Hl.
    by destruct (napi_set_element a (Z.of_nat (length vs)) v e2).
Qed.
Lemma filling_array_start e0 : pending e0 = None → filling_array [] (napi_create_array e0).1 e0 (napi_create_array e0).2.
Proof.
  intros He. pose proof (law_create_array e0 He) as Hl. destruct (napi_create_array e0) as [a e], Hl as (Ha & Hs & Hp).
  cbn [fst snd]. split; [by rewrite Hp|]. exists {[a := SArray []]}, (SArray []). split; [by apply map_disjoint_singleton_l|].
  rewrite <- insert_union_singleton_l. split; [done|]. split; [apply lookup_singleton_eq|]. by exists [].
Qed.
Lemma filling_array_loop {A} (build : A → state E napi_value) (tree : A → cjson) (body : Z → A → state E ()) l a e0 :
  (∀ i x e, body i x e = (v ← build x; napi_set_element a i v) e) → (∀ x, x ∈ l → Builds (build x) (tree x)) →
  ∀ l' l1 e, l = l1 ++ l' → filling_array (map tree l1) a e0 e →
    filling_array (map tree l) a e0 (for_elements (Z.of_nat (length l1)) body l' e).2.
Proof.
  intros Hbody Hb. induction l' as [|x l' IH]; intros l1 e -> Hf; cbn [for_elements]; [by rewrite app_nil_r|].
  rewrite bind_run, Hbody. destruct (Builds_run (build x) (tree x) e) as (v & e1 & Hr & Hbx); [|apply Hf|].
  { apply Hb. rewrite elem_of_app. right. left. }
  rewrite bind_run, Hr. cbn [fst snd]. pose proof (filling_array_put (map tree l1) a e0 _ _ _ _ Hbx Hf) as Hn.
  rewrite length_map in Hn. specialize (IH (l1 ++ [x])). rewrite length_app, Nat2Z.inj_add in IH. rewrite <- (assoc_L (++) l1) in IH.
  apply IH; [done|]. by rewrite map_app.
Qed.
Lemma filling_array_done ts a e0 : triple (filling_array ts a e0) (mret a) (built (JArray ts) e0).
Proof.
  intros e (Hp & d & s & Hd & Hs & Ho & vs & -> & Hm). split; [done|]. exists d. split; [done|]. split; [done|].
  apply Reads_array. exists vs. split; [by apply lookup_union_Some_l|]. eapply Forall2_impl; [exact Hm|]. intros t w.
  apply Reads_mono. apply map_union_mono_r; [by apply (roots_disjoint _ e0)|apply delete_subseteq].
Qed.
Lemma Builds_array {A} (build : A → state E napi_value) (tree : A → cjson) (body : napi_value → Z → A → state E ()) l :
  (∀ a i x e, body a i x e = (v ← build x; napi_set_element a i v) e) → (∀ x, x ∈ l → Builds (build x) (tree x)) →
  Builds (a ← napi_create_array; for_elements 0 (body a) l;; mret a) (JArray (map tree l)).
Proof.
  intros Hbody Hb e0 He. rewrite bind_run. pose proof (filling_array_start e0 He) as Hf. destruct (napi_create_array e0) as [a e].
  cbn [fst snd] in *. pose proof (filling_array_loop build tree (body a) l a e0 (Hbody a) Hb l [] e eq_refl Hf) as Hl.
  rewrite bind_run. change (Z.of_nat (length [])) with 0 in Hl. destruct (for_elements 0 (body a) l e) as [[] e1].
  by apply filling_array_done.
Qed.
(** An object that is made before and not used. *)
Lemma Builds_after (f : state E napi_value) t : Builds f t → Builds (_ ← napi_create_object; f) t.
Proof.
  intros Hf e0 He. rewrite bind_run. pose proof (law_create_object e0 He) as Hl. destruct (napi_create_object e0) as [o e], Hl as (Ho & Hs & Hp).
  cbn [fst snd]. destruct (Hf e ltac:(by rewrite Hp)) as (Hp1 & d & Hd & Hs1 & Ht). split; [done|].
  assert (script_heap e0 ⊆ script_heap e) as H0 by (etransitivity; [by apply insert_subseteq|exact Hs]).
  exists d. split; [by eapply map_disjoint_weaken_r|]. split; [|done]. etransitivity; [|exact Hs1]. by apply map_union_mono_l.
Qed.

(** ** Errors *)

Definition error_tree (errCode : Z) (message : string) : cjson :=
  JObject [("code", JNumber errCode); ("message", JString (utf8_text message))].
Lemma makes_subseteq e e' v s : makes e e' v s → script_heap e ⊆ script_heap e'.
Proof. intros (Hv & Hs & _). etransitivity; [by apply insert_subseteq|exact Hs]. Qed.
Lemma Builds_business_error errCode errMsg commMsg : in_i32 errCode →
  Builds (business_error (Some commMsg) errCode errMsg) (error_tree errCode (commMsg +:+ errMsg)).
Proof.
  intros Hz e0 He. unfold business_error. rewrite bind_run.
  pose proof (law_create_string e0 (commMsg +:+ errMsg) He) as H1. destruct (napi_create_string_utf8 _ e0) as [v1 e1]. cbn [fst snd].
  assert (pending e1 = None) as P1 by (destruct H1 as (_ & _ & ->); done).
  pose proof (law_create_int32 e1 errCode P1 Hz) as H2. rewrite bind_run. destruct (napi_create_int32 _ e1) as [v2 e2]. cbn [fst snd].
  assert (pending e2 = None) as P2 by (destruct H2 as (_ & _ & ->); done).
  assert (script_heap e1 !! v1 = Some (SString (utf8_text (commMsg +:+ errMsg)))) as L1.
  { destruct H1 as (_ & Hs & _). eapply lookup_weaken; [|exact Hs]. apply lookup_insert_eq. }
  pose proof (lookup_weaken _ _ _ _ L1 (makes_subseteq _ _ _ _ H2)) as L1'.
  pose proof (law_create_error e2 v1 _ P2 L1') as H3. rewrite bind_run. destruct (napi_create_error _ e2) as [v3 e3]. cbn [fst snd].
  assert (pending e3 = None) as P3 by (destruct H3 as (_ & _ & ->); done).
  assert (script_heap e2 !! v2 = Some (SNumber errCode)) as L2.
  { destruct H2 as (_ & Hs & _). eapply lookup_weaken; [|exact Hs]. apply lookup_insert_eq. }
  assert (script_heap e3 !! v3 = Some (SObject {["message" := v1]})) as L3.
  { destruct H3 as (_ & Hs & _). eapply lookup_weaken; [|exact Hs]. apply lookup_insert_eq. }
  pose proof (law_set_property e3 v3 _ "code" v2 P3 L3) as H4. rewrite bind_run.
  destruct (napi_set_named_property v3 "code" v2 e3) as [[] e4], H4 as [Hs4 P4]. cbn [fst snd].
  pose proof (makes_subseteq _ _ _ _ H1) as S01. pose proof (makes_subseteq _ _ _ _ H2) as S12. pose proof (makes_subseteq _ _ _ _ H3) as S23.
  destruct H1 as (F1 & S1 & _), H2 as (F2 & S2 & _), H3 as (F3 & S3 & _). split; [done|].
  assert (v3 ≠ v1) by (intros ->; congruence). assert (v3 ≠ v2) by (intros ->; congruence). assert (v2 ≠ v1) by (intros ->; congruence).
  set (o := SObject (<["code" := v2]> {["message" := v1]})).
  exists (<[v3 := o]> (<[v2 := SNumber errCode]> {[v1 := SString (utf8_text (commMsg +:+ errMsg))]})).
  assert (script_heap e0 !! v2 = None) as F2' by (by eapply lookup_weaken_None).
  assert (script_heap e0 !! v3 = None) as F3' by (eapply lookup_weaken_None; [exact F3|by etransitivity]).
  split; [by rewrite !map_disjoint_insert_l; repeat split; [..|apply map_disjoint_singleton_l]|]. split.
  - rewrite <- !insert_union_l, <- insert_union_singleton_l. etransitivity; [|exact Hs4]. apply insert_mono.
    etransitivity; [|exact S23]. etransitivity; [|exact S2]. by apply insert_mono.
  - apply Reads_object. exists (<["code" := v2]> {["message" := v1]}). split; [by apply lookup_union_Some_l, lookup_insert_eq|].
    repeat constructor.
    + exists v2. split; [apply lookup_insert_eq|]. cbn [Reads snd]. apply lookup_union_Some_l. by simplify_map_eq.
    + exists v1. split; [by rewrite lookup_insert_ne|]. cbn [Reads snd]. apply lookup_union_Some_l. by simplify_map_eq.
Qed.
Lemma Builds_error errCode errMsg commMsg : GetErrMsgByErrCode errCode = Some commMsg → in_i32 errCode →
  Builds (CreateBusinessError errCode errMsg) (error_tree errCode (commMsg +:+ errMsg)).
Proof. intros Hm. unfold CreateBusinessError. rewrite Hm. apply Builds_business_error. Qed.
(** What a script catches. *)
Definition thrown (errCode : Z) e : Prop := ∃ v message, pending e = Some v ∧ Reads (script_heap e) (error_tree errCode message) v.
Lemma thrown_calm errCode e e' : calm e e' → thrown errCode e → thrown errCode e'.
Proof. intros [[Hs Hp] _] (v & msg & Hv & Ht). exists v, msg. split; [by rewrite Hp|by eapply Reads_mono]. Qed.
Lemma built_reads t e0 v e : built t e0 v e → Reads (script_heap e) t v.
Proof.
  intros (_ & d & _ & Hs & Ht). eapply Reads_mono; [|exact Ht]. etransitivity; [|exact Hs]. apply map_union_mono_l, law_roots.
Qed.
Lemma built_grows t e0 v e : built t e0 v e → script_heap e0 ⊆ script_heap e.
Proof. intros (_ & d & Hd & Hs & _). etransitivity; [by apply map_union_subseteq_r|exact Hs]. Qed.
Lemma throw_thrown message errCode errMsg e : is_Some message → in_i32 errCode → pending e = None →
  script_heap e ⊆ script_heap (throw_error message errCode errMsg e).2 ∧ thrown errCode (throw_error message errCode errMsg e).2.
Proof.
  intros [commMsg ->] Hz He. pose proof (Builds_business_error errCode errMsg commMsg Hz e He) as Hb. unfold throw_error.
  rewrite bind_run. destruct (business_error (Some commMsg) errCode errMsg e) as [v e1]. cbn [fst snd] in *.
  pose proof (law_throw e1 v (proj1 Hb)) as Ht. destruct (napi_throw v e1) as [[] e2], Ht as [Hs Hp]. cbn [snd]. split.
  - etransitivity; [by eapply built_grows|exact Hs].
  - exists v, (commMsg +:+ errMsg). split; [done|]. eapply Reads_mono; [exact Hs|]. by eapply built_reads.
Qed.
Lemma throw_still message errCode errMsg e : is_Some (pending e) → calm e (throw_error message errCode errMsg e).2.
Proof.
  intros He. unfold throw_error, business_error.
  destruct message as [m|]; rewrite bind_run; [rewrite bind_run|].
  - assert (∀ e', calm e e' → is_Some (pending e')) as Hp by (intros e' [[_ ->] _]; done).
    pose proof (law_still_create_string e (m +:+ errMsg) He) as H1. destruct (napi_create_string_utf8 _ e) as [v1 e1]. cbn [fst snd] in *.
    rewrite bind_run. pose proof (law_still_create_int32 e1 errCode (Hp _ H1)) as H2. destruct (napi_create_int32 _ e1) as [v2 e2]. cbn [fst snd] in *.
    assert (calm e e2) as C2 by (by etransitivity).
    rewrite bind_run. pose proof (law_still_create_error e2 v1 (Hp _ C2)) as H3. destruct (napi_create_error _ e2) as [v3 e3]. cbn [fst snd] in *.
    assert (calm e e3) as C3 by (by etransitivity).
    rewrite bind_run. pose proof (law_still_set_property e3 v3 "code" v2 (Hp _ C3)) as H4. destruct (napi_set_named_property _ _ _ e3) as [[] e4].
    cbn [fst snd mret state_ret] in *. assert (calm e e4) as C4 by (by etransitivity). etransitivity; [exact C4|]. by apply law_still_throw, Hp.
  - pose proof (law_undefined e) as H1. destruct (napi_get_undefined e) as [v e1]. cbn [fst snd] in *. etransitivity; [exact H1|].
    apply law_still_throw. by destruct H1 as [[_ ->] _].
Qed.

(** ** Readers *)

(** From [e0] nothing known has changed, nothing is thrown, and [v] reads as [t]. *)
Definition sees e0 v t e : Prop := calm e0 e ∧ pending e = None ∧ Reads (script_heap e) t v.
Lemma sees_calm e0 v t e e' : calm e e' → sees e0 v t e → sees e0 v t e'.
Proof.
  intros Hc (H0 & Hp & Ht). split; [by etransitivity|]. destruct Hc as [[Hs Hp'] _]. split; [by rewrite Hp'|]. by eapply Reads_mono.
Qed.
(** A reader of trees [t] finds something with [R]. *)
Definition Parses {A} (f : napi_value → state E A) t (R : A → Prop) : Prop := ∀ v e0,
  triple (sees e0 v t) (f v) (λ a e, R a ∧ sees e0 v t e).
Lemma triple_reads {A} e0 v t (f : state E A) (R : A → Prop) :
  (∀ e, pending e = None → Reads (script_heap e) t v → let '(a, e') := f e in R a ∧ calm e e') →
  triple (sees e0 v t) f (λ a e, R a ∧ sees e0 v t e).
Proof.
  intros Hf e He. specialize (Hf e (proj1 (proj2 He)) (proj2 (proj2 He))). destruct (f e) as [a e'], Hf as [Ha Hc].
  split; [done|by eapply sees_calm].
Qed.
Lemma sees_bind {A B} e0 v t (f : state E A) (R : A → Prop) (g : A → state E B) (Q : B → Prop) :
  triple (sees e0 v t) f (λ a e, R a ∧ sees e0 v t e) → (∀ a, R a → triple (sees e0 v t) (g a) (λ b e, Q b ∧ sees e0 v t e)) →
  triple (sees e0 v t) (f ≫= g) (λ b e, Q b ∧ sees e0 v t e).
Proof. intros Hf Hg. eapply triple_bind; [exact Hf|]. intros a. apply triple_pure, Hg. Qed.
Lemma sees_ret {A} e0 v t (a : A) (Q : A → Prop) : Q a → triple (sees e0 v t) (mret a) (λ b e, Q b ∧ sees e0 v t e).
Proof. intros Ha e He. done. Qed.
(** An assertion that holds. *)
Lemma reads_assert {A} e0 v t (r : A) b code msg (k : state E A) (Q : A → Prop) : b = true →
  triple (sees e0 v t) k (λ a e, Q a ∧ sees e0 v t e) →
  triple (sees e0 v t) (USB_ASSERT_BASE r b code msg k) (λ a e, Q a ∧ sees e0 v t e).
Proof. by intros ->. Qed.

(** The type of what is read. *)
Definition tree_type t : napi_valuetype :=
  match t with JNumber _ => napi_number | JBool _ => napi_boolean | JString _ => napi_string | JArray _ | JObject _ => napi_object end.
Lemma Reads_type h t v : Reads h t v → ∃ s, h !! v = Some s ∧ type_of s = tree_type t.
Proof. destruct t; [intros Hv; by eexists..| |]; intros (x & Hv & _); by eexists. Qed.
Lemma reads_typeof e0 v t : triple (sees e0 v t) (napi_typeof v) (λ r e, r = (true, tree_type t) ∧ sees e0 v t e).
Proof.
  apply triple_reads. intros e Hp Ht. destruct (Reads_type _ _ _ Ht) as (s & Hs & <-). apply (law_typeof e v s Hs).
Qed.

(** A property that is there, and what it reads as. *)
Lemma reads_has e0 v kvs k t : (k, t) ∈ kvs →
  triple (sees e0 v (JObject kvs)) (napi_has_named_property v k) (λ r e, r = (true, true) ∧ sees e0 v (JObject kvs) e).
Proof.
  intros Hk. apply triple_reads. intros e Hp (m & Hv & Hm)%Reads_object. rewrite Forall_forall in Hm.
  destruct (Hm _ Hk) as (w & Hw & _). by apply (law_has e v m k w).
Qed.
Lemma reads_get e0 v kvs k t {B} (g : bool * napi_value → state E B) (Q : B → Prop) : (k, t) ∈ kvs →
  (∀ w e1, triple (sees e1 w t) (g (true, w)) (λ b e, Q b ∧ sees e1 w t e)) →
  triple (sees e0 v (JObject kvs)) (napi_get_named_property v k ≫= g) (λ b e, Q b ∧ sees e0 v (JObject kvs) e).
Proof.
  intros Hk Hg e He. destruct He as (H0 & Hp & Ht). pose proof Ht as Ht'. apply Reads_object in Ht' as (m & Hv & Hm).
  rewrite Forall_forall in Hm. destruct (Hm _ Hk) as (w & Hw & Htw). pose proof (law_get e v m k w Hp Hv Hw) as Hl.
  rewrite bind_run. destruct (napi_get_named_property v k e) as [r e1], Hl as [-> Hc]. cbn [fst snd].
  assert (sees e1 w t e1) as Hs.
  { split; [done|]. destruct Hc as [[Hc1 Hc2] _]. split; [by rewrite Hc2|]. by eapply Reads_mono. }
  destruct (Hg w e1 e1 Hs) as [Hq (Hc' & _)]. split; [done|]. eapply sees_calm; [|done]. by etransitivity.
Qed.

Lemma reads_int e0 v kvs k z old : (k, JNumber z) ∈ kvs →
  triple (sees e0 v (JObject kvs)) (JsObjectToInt v k old) (λ r e, r = to_i32 z ∧ sees e0 v (JObject kvs) e).
Proof.
  intros Hk. unfold JsObjectToInt. eapply sees_bind; [by apply (reads_has _ _ _ _ (JNumber z))|]. intros ? ->. cbn [negb].
  apply (reads_get _ _ _ _ (JNumber z)); [done|]. intros w e1. eapply sees_bind; [apply reads_typeof|]. intros ? ->.
  apply reads_assert; [done|]. apply triple_reads. intros e Hp Hw. by apply law_int32.
Qed.
Lemma reads_uint e0 v kvs k z old : (k, JNumber z) ∈ kvs →
  triple (sees e0 v (JObject kvs)) (JsObjectToUint v k old) (λ r e, r = to_u32 z ∧ sees e0 v (JObject kvs) e).
Proof.
  intros Hk. unfold JsObjectToUint. eapply sees_bind; [by apply (reads_has _ _ _ _ (JNumber z))|]. intros ? ->. cbn [negb orb].
  apply (reads_get _ _ _ _ (JNumber z)); [done|]. intros w e1. cbn [negb]. eapply sees_bind; [apply reads_typeof|]. intros ? ->. cbn [negb].
  apply reads_assert; [done|]. eapply (sees_bind _ _ _ _ (λ r, r = (true, to_u32 z))).
  - apply triple_reads. intros e Hp Hw. by apply law_uint32.
  - intros ? ->. by apply sees_ret.
Qed.
Lemma reads_bool e0 v kvs k b old : (k, JBool b) ∈ kvs →
  triple (sees e0 v (JObject kvs)) (JsObjectToBool v k old) (λ r e, r = b ∧ sees e0 v (JObject kvs) e).
Proof.
  intros Hk. unfold JsObjectToBool. eapply sees_bind; [by apply (reads_has _ _ _ _ (JBool b))|]. intros ? ->. cbn [negb].
  apply (reads_get _ _ _ _ (JBool b)); [done|]. intros w e1. eapply sees_bind; [apply reads_typeof|]. intros ? ->.
  apply reads_assert; [done|]. apply triple_reads. intros e Hp Hw. by apply law_bool.
Qed.
(** A text is cut to the size of the buffer. *)
Definition cut_to (n : Z) (s s' : string) : Prop :=
  String.prefix s' s = true ∧ Z.of_nat (String.length s') <= n ∧ (Z.of_nat (String.length s) <= n → c_str s = s → s' = s).
Lemma c_str_prefix s : String.prefix (c_str s) s = true.
Proof. induction s as [|c s IH]; [done|]. cbn [c_str]. case_bool_decide; [done|]. cbn [String.prefix]. by destruct (ascii_dec c c). Qed.
Lemma prefix_trans s1 s2 s3 : String.prefix s1 s2 = true → String.prefix s2 s3 = true → String.prefix s1 s3 = true.
Proof.
  revert s2 s3. induction s1 as [|c s1 IH]; intros [|c2 s2] [|c3 s3]; cbn; try done.
  destruct (ascii_dec c c2) as [->|]; [|done]. destruct (ascii_dec c2 c3) as [->|]; [|done]. apply IH.
Qed.
Lemma prefix_length s1 s2 : String.prefix s1 s2 = true → (String.length s1 <= String.length s2)%nat.
Proof.
  revert s2. induction s1 as [|c s1 IH]; intros [|c2 s2]; cbn; try done; [lia|]. destruct (ascii_dec c c2); [|done]. intros ?%IH. lia.
Qed.
Lemma sees_string e0 v kvs k s n old : 0 < n → (k, JString s) ∈ kvs →
  triple (sees e0 v (JObject kvs)) (JsObjectToString v k n old) (λ r e, cut_to n s r ∧ sees e0 v (JObject kvs) e).
Proof.
  intros Hn Hk. unfold JsObjectToString. destruct (Z.leb_spec n 0); [lia|].
  eapply sees_bind; [by apply (reads_has _ _ _ _ (JString s))|]. intros ? ->. cbn [negb].
  apply (reads_get _ _ _ _ (JString s)); [done|]. intros w e1. eapply sees_bind; [apply reads_typeof|]. intros ? ->.
  apply reads_assert; [done|]. eapply (sees_bind _ _ _ _ (λ r, cut_to n s (c_str r))); [|intros r Hr; by apply sees_ret].
  apply triple_reads. intros e Hp Hw. pose proof (law_string e w s (n + 1) Hp Hw) as Hl.
  destruct (napi_get_value_string_utf8 w (n + 1) e) as [r e'], Hl as (Hc & Hpre & Hlen & Hall). split; [|done].
  split; [eapply prefix_trans; [apply c_str_prefix|done]|]. split.
  - pose proof (prefix_length _ _ (c_str_prefix r)). lia.
  - intros Hs Hz. by rewrite Hall by lia.
Qed.

(** The elements of an array. *)
Lemma element_sees e0 v ts i t e : sees e0 v (JArray ts) e → ts !! i = Some t →
  ∃ w e1, napi_get_element v (Z.of_nat i) e = ((true, w), e1) ∧ sees e1 w t e1 ∧ calm e e1.
Proof.
  intros (H0 & Hp & (vs & Hv & Hvs)%Reads_array) Hi. destruct (Forall2_lookup_l _ _ _ _ _ Hvs Hi) as (w & Hw & Ht).
  pose proof (law_element e v vs i w Hp Hv Hw) as Hl. destruct (napi_get_element v _ e) as [r e1], Hl as [-> Hc].
  exists w, e1. split; [done|]. split; [|done]. destruct Hc as [[Hc1 Hc2] _].
  split; [done|]. split; [by rewrite Hc2|by eapply Reads_mono].
Qed.
(** One element is read, and the rest goes on. *)
Lemma reads_next {C A B} (tree : C → cjson) (parse : napi_value → state E A) (g : bool * napi_value → state E B) (k : A → state E B)
    (R : C → A → Prop) (Q : B → E → Prop) e0 v xs1 x xs2 :
  Parses parse (tree x) (R x) → (∀ w, g (true, w) = (parse w ≫= k)) →
  (∀ a, R x a → triple (sees e0 v (JArray (map tree (xs1 ++ x :: xs2)))) (k a) Q) →
  triple (sees e0 v (JArray (map tree (xs1 ++ x :: xs2)))) (napi_get_element v (Z.of_nat (length xs1)) ≫= g) Q.
Proof.
  intros Hp Hg Hk e He. destruct (element_sees _ _ _ (length xs1) (tree x) _ He) as (w & e1 & Hr & Hs & Hc).
  { rewrite map_app. cbn [map]. apply list_lookup_middle. by rewrite length_map. }
  rewrite bind_run, Hr. cbn [fst snd]. rewrite Hg, bind_run. pose proof (Hp w e1 e1 Hs) as Ha. destruct (parse w e1) as [a e2].
  destruct Ha as [Ha (Hc' & _)]. apply Hk; [done|]. eapply (sees_calm _ _ _ e); [by etransitivity|done].
Qed.
Lemma reads_elements {C A} (tree : C → cjson) (parse : napi_value → state E A) v xs (R : C → A → Prop) e0 :
  (∀ x, x ∈ xs → Parses parse (tree x) (R x)) →
  ∀ xs2 xs1 acc, xs = xs1 ++ xs2 → Forall2 R xs1 acc →
  triple (sees e0 v (JArray (map tree xs))) (read_elements parse v (length xs2) (Z.of_nat (length xs1)) acc)
    (λ r e, (r.1 = true ∧ Forall2 R xs r.2) ∧ sees e0 v (JArray (map tree xs)) e).
Proof.
  intros Hparse xs2. induction xs2 as [|x xs2 IH]; intros xs1 acc -> Hacc; cbn [length read_elements].
  - apply sees_ret. by rewrite app_nil_r.
  - eapply reads_next; [apply Hparse; rewrite elem_of_app; right; left|done|]. intros a Ha.
    specialize (IH (xs1 ++ [x]) (acc ++ [a])). rewrite length_app, Nat2Z.inj_add, <- (assoc_L (++) xs1) in IH.
    apply IH; [done|]. apply Forall2_app; [done|]. by constructor.
Qed.
Lemma reads_length e0 v ts : triple (sees e0 v (JArray ts)) (napi_get_array_length v) (λ r e, r = (true, Z.of_nat (length ts)) ∧ sees e0 v (JArray ts) e).
Proof.
  apply triple_reads. intros e Hp (vs & Hv & Hvs)%Reads_array. rewrite (Forall2_length _ _ _ Hvs). by apply law_array_length.
Qed.
Lemma reads_is_array e0 v ts : triple (sees e0 v (JArray ts)) (napi_is_array v) (λ r e, r = (true, true) ∧ sees e0 v (JArray ts) e).
Proof. apply triple_reads. intros e Hp (vs & Hv & Hvs)%Reads_array. by apply (law_is_array e v vs). Qed.
Lemma reads_property {B} e0 v kvs k t old (g : bool * napi_value → state E B) (Q : B → Prop) : (k, t) ∈ kvs →
  (∀ w e1, triple (sees e1 w t) (g (true, w)) (λ b e, Q b ∧ sees e1 w t e)) →
  triple (sees e0 v (JObject kvs)) (JsObjectGetProperty v k old ≫= g) (λ b e, Q b ∧ sees e0 v (JObject kvs) e).
Proof.
  intros Hk Hg. unfold JsObjectGetProperty.
  enough (triple (sees e0 v (JObject kvs))
    (napi_has_named_property v k ≫= λ r, if negb r.2 then g (r.2, old) else napi_get_named_property v k ≫= λ f, g (r.2, f.2))
    (λ b e, Q b ∧ sees e0 v (JObject kvs) e)) as Ht.
  { intros e He. specialize (Ht e He). revert Ht. rewrite !bind_run. destruct (napi_has_named_property v k e) as [[ok has] e1]. cbn [fst snd].
    destruct has; cbn [negb]; [|done]. rewrite !bind_run. by destruct (napi_get_named_property v k e1) as [[ok' w] e2]. }
  eapply sees_bind; [by apply (reads_has _ _ _ _ t)|]. intros ? ->. cbn [negb snd].
  by apply (reads_get _ _ _ _ t).
Qed.
Lemma reads_array {C A} (tree : C → cjson) (parse : napi_value → state E A) indeterminate e0 v kvs k xs missing type (R : C → A → Prop) :
  (k, JArray (map tree xs)) ∈ kvs → (∀ x, x ∈ xs → Parses parse (tree x) (R x)) →
  triple (sees e0 v (JObject kvs)) (read_array indeterminate parse v k missing type [])
    (λ r e, (r.1 = true ∧ Forall2 R xs r.2) ∧ sees e0 v (JObject kvs) e).
Proof.
  intros Hk Hparse. unfold read_array. apply (reads_property _ _ _ _ (JArray (map tree xs))); [done|]. intros w e1.
  apply reads_assert; [done|]. eapply sees_bind; [apply reads_is_array|]. intros ? ->. cbn [negb].
  apply reads_assert; [done|]. eapply sees_bind; [apply reads_length|]. intros ? ->. cbn [negb].
  rewrite Nat2Z.id, length_map. by apply (reads_elements tree parse w xs R e1 Hparse xs [] []).
Qed.
End Laws.

(** One of the members of a literal object. *)
Ltac member := by repeat first [apply list_elem_of_here|apply list_elem_of_further].

(** * A small script engine

    An engine with a heap that keeps everything, which satisfies [NapiLaws]; the
    examples of the JavaScript module run on it. *)

Record Engine := {
  objects : gmap napi_value script_value;
  exception : option napi_value;
  memory_ : gmap data_ptr (list Z);
  settled_ : list (napi_deferred * bool * napi_value);   (* newest first *)
  called_ : list (napi_value * list napi_value);         (* newest first *)
}.
Definition undefined_handle : napi_value := 1.
Definition boolean_handle (b : bool) : napi_value := if b then 2 else 3.
Definition toy_roots : gmap napi_value script_value :=
  {[1 := SUndefined; 2 := SBool true; 3 := SBool false]}.
Definition heap_of (e : Engine) : gmap napi_value script_value := toy_roots ∪ objects e.
Definition new_handle (h : gmap napi_value script_value) : napi_value := 1 + foldr Z.max 0 (map_to_list h).*1.
Definition with_objects (o : gmap napi_value script_value) (e : Engine) : Engine :=
  {| objects := o; exception := exception e; memory_ := memory_ e; settled_ := settled_ e; called_ := called_ e |}.
Definition with_exception (x : option napi_value) (e : Engine) : Engine :=
  {| objects := objects e; exception := x; memory_ := memory_ e; settled_ := settled_ e; called_ := called_ e |}.
Definition with_memory (x : gmap data_ptr (list Z)) (e : Engine) : Engine :=
  {| objects := objects e; exception := exception e; memory_ := x; settled_ := settled_ e; called_ := called_ e |}.
Definition with_settled (x : list (napi_deferred * bool * napi_value)) (e : Engine) : Engine :=
  {| objects := objects e; exception := exception e; memory_ := memory_ e; settled_ := x; called_ := called_ e |}.
Definition with_called (x : list (napi_value * list napi_value)) (e : Engine) : Engine :=
  {| objects := objects e; exception := exception e; memory_ := memory_ e; settled_ := settled_ e; called_ := x |}.
Definition make (s : script_value) : state Engine napi_value := λ e,
  let v := new_handle (heap_of e) in (v, with_objects (<[v := s]> (objects e)) e).
Definition put (v : napi_value) (s : script_value) (e : Engine) : Engine := with_objects (<[v := s]> (objects e)) e.
(** A property of an object, or of another value: none. *)
Definition own_property (v : napi_value) (k : string) (e : Engine) : option napi_value :=
  match heap_of e !! v with Some (SObject m) => m !! k | _ => None end.
Fixpoint cut_string (n : nat) (s : string) : string :=
  match n, s with Datatypes.S n, String c s => String c (cut_string n s) | _, _ => EmptyString end.
Definition number_of (v : napi_value) (e : Engine) : option Z := match heap_of e !! v with Some (SNumber z) => Some z | _ => None end.
(** When an exception is pending nothing is set or thrown. *)
Definition unless_pending (f : Engine → Engine) : state Engine () := λ e, ((), match exception e with None => f e | Some _ => e end).

#[export] Instance toy_napi : Napi Engine := {|
  napi_typeof v := λ e, ((match heap_of e !! v with Some s => (true, type_of s) | None => (false, napi_undefined) end), e);
  napi_has_named_property v k := λ e, ((true, bool_decide (is_Some (own_property v k e))), e);
  napi_get_named_property v k := λ e, ((true, default undefined_handle (own_property v k e)), e);
  napi_get_value_bool v old := λ e, ((match heap_of e !! v with Some (SBool b) => b | _ => old end), e);
  napi_get_value_int32 v old := λ e, (from_option to_i32 old (number_of v e), e);
  napi_get_value_uint32 v old := λ e, (match number_of v e with Some z => (true, to_u32 z) | None => (false, old) end, e);
  napi_get_value_string_utf8 v n := λ e, (match heap_of e !! v with Some (SString s) => cut_string (Z.to_nat (n - 1)) s | _ => "" end, e);
  napi_is_array v := λ e, ((true, match heap_of e !! v with Some (SArray _) => true | _ => false end), e);
  napi_get_array_length v := λ e, (match heap_of e !! v with Some (SArray l) => (true, Z.of_nat (length l)) | _ => (false, 0) end, e);
  napi_get_element v i := λ e, ((true, match heap_of e !! v with Some (SArray l) => default undefined_handle (l !! Z.to_nat i) | _ => undefined_handle end), e);
  napi_is_typedarray v := λ e, ((true, match heap_of e !! v with Some (SBytes _ _ _) => true | _ => false end), e);
  napi_get_typedarray_info v := λ e, (match heap_of e !! v with Some (SBytes t n p) => Some (t, n, p) | _ => None end, e);
  napi_create_object := make (SObject ∅);
  napi_create_array := make (SArray []);
  napi_create_string_utf8 s := make (SString s);
  napi_create_int32 z := make (SNumber z);
  napi_create_uint32 z := λ e, let '(v, e) := make (SNumber z) e in ((true, v), e);
  napi_get_boolean b := λ e, (boolean_handle b, e);
  napi_get_undefined := λ e, (undefined_handle, e);
  napi_set_named_property o k v := unless_pending (λ e,
    match heap_of e !! o with Some (SObject m) => put o (SObject (<[k := v]> m)) e | _ => e end);
  napi_set_element a i v := unless_pending (λ e,
    match heap_of e !! a with
    | Some (SArray l) => if i =? Z.of_nat (length l) then put a (SArray (l ++ [v])) e else put a (SArray (<[Z.to_nat i := v]> l)) e
    | _ => e
    end);
  napi_create_error m := make (SObject {["message" := m]});
  napi_throw v := unless_pending (with_exception (Some v));
  napi_create_arraybuffer n := λ e,
    let p := new_handle (heap_of e) in
    let '(v, e) := make (SBytes napi_another_array n (Some p)) e in ((Some p, v), with_memory (<[p := replicate (Z.to_nat n) 0]> (memory_ e)) e);
  napi_create_typedarray t n b _ := λ e,
    let p := match heap_of e !! b with Some (SBytes _ _ p) => p | _ => None end in make (SBytes t n p) e;
  napi_create_promise := λ e, let '(v, e) := make (SObject ∅) e in ((Some v, v), e);
  napi_resolve_deferred d v := λ e, ((), with_settled ((d, true, v) :: settled_ e) e);
  napi_reject_deferred d v := λ e, ((), with_settled ((d, false, v) :: settled_ e) e);
  napi_create_async_work := λ e, (true, e);
  napi_queue_async_work := λ e, (true, e);
  napi_create_reference v := λ e, (Some v, e);
  napi_get_reference_value r := λ e, (default 0 r, e);
  napi_call_function f args := λ e, (true, with_called ((f, args) :: called_ e) e);
  napi_create_threadsafe_function v := λ e, (Some v, e);
  napi_call_threadsafe_function f := λ e, (true, with_called ((f, []) :: called_ e) e);
  napi_send_event := λ e, (true, e);
  read_bytes p n := λ e, (let l := default [] (memory_ e !! p) in take (Z.to_nat n) (l ++ replicate (Z.to_nat n) 0), e);
  write_bytes p d := λ e, ((), with_memory (<[p := d ++ drop (length d) (default [] (memory_ e !! p))]> (memory_ e)) e);
|}.
#[export] Instance toy_view : NapiView Engine := {|
  script_heap := heap_of; pending := exception; script_bytes := memory_; script_roots := toy_roots; utf8_text s := s |}.
#[export] Instance toy_securec : SecureC.
Proof.
  refine {| memcpy_s_ok destMax count := (0 <=? count) && (count <=? destMax); SECUREC_MEM_MAX_LEN := 2 ^ 31 - 1 |}.
  - intros destMax count [H0 H1] _. apply andb_true_iff. split; apply Z.leb_le; lia.
  - intros destMax count Hc. apply andb_false_iff. right. apply Z.leb_gt. lia.
Defined.

(** ** The laws *)

Lemma new_handle_fresh h : h !! new_handle h = None.
Proof.
  destruct (h !! new_handle h) as [s|] eqn:Hs; [|done]. exfalso.
  assert (new_handle h ∈ (map_to_list h).*1) as Hin by (apply list_elem_of_fmap; exists (new_handle h, s); by rewrite elem_of_map_to_list).
  assert (∀ l z, z ∈ l → z <= foldr Z.max 0 l) as Hmax.
  { induction l as [|y l IH]; intros z Hz; [by apply elem_of_nil in Hz|]. cbn. apply elem_of_cons in Hz as [->|Hz%IH]; lia. }
  apply Hmax in Hin. 
  enough (1 + foldr Z.max 0 (map_to_list h).*1 <= foldr Z.max 0 (map_to_list h).*1) by lia. exact Hin.
Qed.
Lemma heap_insert v s e : toy_roots !! v = None → heap_of (put v s e) = <[v := s]> (heap_of e).
Proof. intros Hv. unfold heap_of, put, with_objects. cbn [objects]. by rewrite insert_union_r. Qed.
Lemma make_makes s e : let '(v, e') := make s e in makes e e' v s.
Proof.
  cbn. pose proof (new_handle_fresh (heap_of e)) as Hf. split; [done|]. split; [|done]. cbn.
  change (<[new_handle (heap_of e) := s]> (heap_of e) ⊆ heap_of (put (new_handle (heap_of e)) s e)).
  rewrite heap_insert; [done|]. unfold heap_of in Hf at 1. by apply lookup_union_None in Hf as [? _].
Qed.
Lemma make_calm s e : calm e (make s e).2.
Proof.
  destruct (make_makes s e) as (Hv & Hs & Hp). split; [|reflexivity]. split; [|done]. etransitivity; [by apply insert_subseteq|exact Hs].
Qed.
Lemma put_object v s s0 e : heap_of e !! v = Some s0 → (∀ z, toy_roots !! v = Some z → z ≠ s0) →
  <[v := s]> (heap_of e) ⊆ heap_of (put v s e).
Proof.
  intros Hv Hr. rewrite heap_insert; [done|]. destruct (toy_roots !! v) as [z|] eqn:Hz; [|done].
  exfalso. apply (Hr z); [done|]. unfold heap_of in Hv. by erewrite lookup_union_Some_l in Hv; [injection Hv|done].
Qed.
Lemma toy_roots_inv v z : toy_roots !! v = Some z → z = SUndefined ∨ ∃ b, z = SBool b.
Proof.
  unfold toy_roots. rewrite !lookup_insert_Some. intros [[_ <-]|[_ [[_ <-]|[_ [_ <-]%lookup_singleton_Some]]]]; eauto.
Qed.
Lemma cut_string_prefix n s : String.prefix (cut_string n s) s = true.
Proof. revert n. induction s as [|c s IH]; intros [|n]; cbn; try done. by destruct (Ascii.ascii_dec c c). Qed.
Lemma cut_string_length n s : (String.length (cut_string n s) <= n)%nat.
Proof. revert s. induction n as [|n IH]; intros [|c s]; cbn; try lia. specialize (IH s). lia. Qed.
Lemma cut_string_all n s : (String.length s <= n)%nat → cut_string n s = s.
Proof. revert s. induction n as [|n IH]; intros [|c s]; cbn; try done; try lia. intros Hl. by rewrite IH by lia. Qed.

#[export] Instance toy_laws : NapiLaws Engine.
Proof.
  split; intros; cbn in *; unfold own_property, number_of, unless_pending in *;
    repeat match goal with H : heap_of _ !! _ = Some _ |- _ => rewrite ?H end; cbn.
  all: try (split; [done|reflexivity]).
  all: try by apply (make_makes _ e).
  all: try by apply (make_calm _ e).
  all: try match goal with H : is_Some (exception ?e) |- _ => destruct (exception e) eqn:He; [reflexivity|by destruct H] end.
  all: try match goal with H : exception ?e = None |- _ => rewrite ?H end.
  - by apply map_union_subseteq_l.
  - split; [|reflexivity]. by rewrite bool_decide_true by (by eexists).
  - split; [|reflexivity]. by rewrite H1.
  - split; [reflexivity|]. split; [apply cut_string_prefix|]. pose proof (cut_string_length (Z.to_nat (n - 1)) s). split; [lia|].
    intros Hl. apply cut_string_all. lia.
  - split; [|reflexivity]. by rewrite Nat2Z.id, H1.
  - split; [done|apply (make_makes _ e)].
  - split; [by destruct b|reflexivity].
  - split; [|done]. eapply put_object; [done|]. intros z [->|[b ->]]%toy_roots_inv; done.
  - rewrite Z.eqb_refl. split; [|done]. eapply put_object; [done|]. intros z [->|[b ->]]%toy_roots_inv; done.
  - done.
  - rewrite H. cbn. split; [|done]. by apply take_app_le.
  - by rewrite H.
  - reflexivity.
Qed.
