(* ===== verification/UsbInfoRoundTrip.v ===== *)
(** * Objects that a script gets and gives back

    A device that [getDevices] has made an object of is what the functions read from
    the object, up to what the conversions lose; so is a pipe. *)
From S2P Require Import Prelude UsbErrors Platform UsbAccessory UsbDevice UsbDescriptorParser UsbPortManager UsbInterfaceType UsbHostManager UsbHostTransfer UsbService UsbServiceHost UsbServiceSerial UsbSrvClient UsbSrvClientProofs UsbSrvClientSteps NapiUtil UsbInfoParse NapiLaws.

Section RoundTrip.
Context {E : Type} `{!Napi E, !SecureC, !NapiView E, !NapiLaws E}.
Context (indeterminate : napi_value).
Abbreviation M := (state E).

(** ** The trees *)

Definition text (s : string) : cjson := JString (utf8_text (c_str s)).
Definition pipe_tree (p : USBDevicePipe) : cjson :=
  JObject [("busNum", JNumber (pipe_busNum_ p)); ("devAddress", JNumber (pipe_devAddr_ p))].
Definition endpoint_tree (e : USBEndpoint.t) : cjson :=
  JObject [("address", JNumber (USBEndpoint.address_ e)); ("attributes", JNumber (USBEndpoint.attributes_ e));
           ("interval", JNumber (USBEndpoint.interval_ e)); ("maxPacketSize", JNumber (USBEndpoint.maxPacketSize_ e));
           ("direction", JNumber (USBEndpoint.GetDirection e)); ("number", JNumber (USBEndpoint.GetEndpointNumber e));
           ("type", JNumber (USBEndpoint.GetType e)); ("interfaceId", JNumber (GetInterfaceId e))].
Definition interface_tree (i : UsbInterface.t) : cjson :=
  JObject [("id", JNumber (UsbInterface.id_ i)); ("protocol", JNumber (UsbInterface.protocol_ i));
           ("clazz", JNumber (UsbInterface.klass_ i)); ("subClass", JNumber (UsbInterface.subClass_ i));
           ("alternateSetting", JNumber (UsbInterface.alternateSetting_ i)); ("name", text (UsbInterface.name_ i));
           ("endpoints", JArray (map endpoint_tree (UsbInterface.endpoints_ i)))].
Definition config_tree (c : USBConfig.t) : cjson :=
  JObject [("id", JNumber (USBConfig.id_ c)); ("attributes", JNumber (USBConfig.attributes_ c));
           ("isRemoteWakeup", JBool (USBConfig.IsRemoteWakeup c)); ("isSelfPowered", JBool (USBConfig.IsSelfPowered c));
           ("maxPower", JNumber (USBConfig.GetMaxPower c)); ("name", text (USBConfig.name_ c));
           ("interfaces", JArray (map interface_tree (USBConfig.interfaces_ c)))].
Definition device_tree (d : UsbDevice.t) : cjson :=
  JObject [("name", text (UsbDevice.name_ d)); ("serial", text (UsbDevice.serial_ d));
           ("manufacturerName", text (UsbDevice.manufacturerName_ d)); ("productName", text (UsbDevice.productName_ d));
           ("version", text (UsbDevice.version_ d)); ("vendorId", JNumber (UsbDevice.vendorId_ d));
           ("productId", JNumber (UsbDevice.productId_ d)); ("clazz", JNumber (UsbDevice.baseClass_ d));
           ("subClass", JNumber (UsbDevice.subClass_ d)); ("protocol", JNumber (UsbDevice.protocol_ d));
           ("devAddress", JNumber (UsbDevice.devAddr_ d)); ("busNum", JNumber (UsbDevice.busNum_ d));
           ("configs", JArray (map config_tree (UsbDevice.configs_ d)))].

(** The ranges of the fields' types; the power is doubled in an [int32_t]. *)
Definition ep_ok (e : USBEndpoint.t) : Prop :=
  in_u32 (USBEndpoint.address_ e) ∧ in_u32 (USBEndpoint.attributes_ e) ∧ in_i32 (USBEndpoint.interval_ e) ∧
  in_i32 (USBEndpoint.maxPacketSize_ e) ∧ in_u8 (USBEndpoint.interfaceId_ e).
Definition inf_ok (i : UsbInterface.t) : Prop :=
  in_i32 (UsbInterface.id_ i) ∧ in_i32 (UsbInterface.protocol_ i) ∧ in_i32 (UsbInterface.klass_ i) ∧
  in_i32 (UsbInterface.subClass_ i) ∧ in_i32 (UsbInterface.alternateSetting_ i) ∧
  Z.of_nat (length (UsbInterface.endpoints_ i)) < 2 ^ 32 ∧ Forall ep_ok (UsbInterface.endpoints_ i).
Definition cfg_ok (c : USBConfig.t) : Prop :=
  in_i32 (USBConfig.id_ c) ∧ in_u32 (USBConfig.attributes_ c) ∧ in_i32 (USBConfig.GetMaxPower c) ∧
  Z.of_nat (length (USBConfig.interfaces_ c)) < 2 ^ 32 ∧ Forall inf_ok (USBConfig.interfaces_ c).
Definition dev_ok (d : UsbDevice.t) : Prop :=
  in_u8 (UsbDevice.busNum_ d) ∧ in_u8 (UsbDevice.devAddr_ d) ∧ in_i32 (UsbDevice.vendorId_ d) ∧
  in_i32 (UsbDevice.productId_ d) ∧ in_i32 (UsbDevice.baseClass_ d) ∧ in_i32 (UsbDevice.subClass_ d) ∧
  in_i32 (UsbDevice.protocol_ d) ∧ Z.of_nat (length (UsbDevice.configs_ d)) < 2 ^ 32 ∧ Forall cfg_ok (UsbDevice.configs_ d).

Lemma u8_i32 z : in_u8 z → in_i32 z.
Proof. unfold in_u8, in_i32. lia. Qed.
Lemma GetDirection_range e : in_u32 (USBEndpoint.GetDirection e).
Proof. by destruct (GetDirection_cases e) as [-> | ->]. Qed.
Lemma land_ones_u32 z n : 0 <= n <= 8 → in_u32 (Z.land z (Z.ones n)).
Proof.
  intros Hn. rewrite Z.land_ones by lia. pose proof (Z.mod_pos_bound z (2 ^ n)). pose proof (Z.pow_le_mono_r 2 n 8). unfold in_u32. lia.
Qed.
Lemma GetEndpointNumber_range e : in_u32 (USBEndpoint.GetEndpointNumber e).
Proof. by apply (land_ones_u32 _ 4). Qed.
Lemma GetType_range e : in_u32 (USBEndpoint.GetType e).
Proof. by apply (land_ones_u32 _ 2). Qed.
Lemma GetInterfaceId_range e : in_i32 (GetInterfaceId e).
Proof. unfold GetInterfaceId, in_i32. pose proof (Z.mod_pos_bound (USBEndpoint.interfaceId_ e + 128) 256). lia. Qed.

(** ** What is made *)

(** Run a builder along its code. *)
Ltac build_field := eapply triple_bind; [
  first [apply filling_int|apply filling_uint|apply filling_string|apply filling_bool]; (reflexivity || eauto using u8_i32)|intros []].

Lemma Builds_pipe p : pipe_ok p → Builds (CreateUsbDevicePipe p) (pipe_tree p).
Proof. intros [Hb Ha]. apply Builds_object. intros o e0. do 2 build_field. apply filling_done. Qed.
Lemma Builds_endpoint e : ep_ok e → Builds (CtoJSUsbEndpoint e) (endpoint_tree e).
Proof.
  intros (Ha & Hat & Hi & Hm & Hf). apply Builds_object. intros o e0.
  pose proof (GetDirection_range e). pose proof (GetEndpointNumber_range e). pose proof (GetType_range e).
  pose proof (GetInterfaceId_range e). do 8 build_field. apply filling_done.
Qed.
(** The member that is an array comes last. *)
Lemma filling_array_member kvs all o e0 k ts (f : state E napi_value) : Builds f (JArray ts) → bool_decide (k ∈ kvs.*1) = false →
  all = kvs ++ [(k, JArray ts)] →
  triple (filling kvs o e0) (arr ← f; napi_set_named_property o k arr;; mret o) (built (JObject all) e0).
Proof.
  intros Hf Hk -> e He. pose proof (filling_set kvs o e0 k _ f Hf Hk e He) as Hs. revert Hs. rewrite !bind_run. apply filling_done.
Qed.
Lemma Builds_interface i : inf_ok i → Builds (CtoJSUsbInterface i) (interface_tree i).
Proof.
  intros (? & ? & ? & ? & ? & _ & Hes). apply Builds_object. intros o e0. do 6 build_field.
  eapply filling_array_member; [|done|done]. apply (Builds_array CtoJSUsbEndpoint endpoint_tree); [done|]. intros e He. apply Builds_endpoint.
  by eapply Forall_forall.
Qed.
Lemma Builds_config c : cfg_ok c → Builds (CtoJSUsbConfig c) (config_tree c).
Proof.
  intros (? & ? & ? & _ & His). apply Builds_object. intros o e0. do 6 build_field.
  eapply filling_array_member; [|done|done]. apply (Builds_array CtoJSUsbInterface interface_tree); [done|]. intros i Hi. apply Builds_interface.
  by eapply Forall_forall.
Qed.
Lemma Builds_device d : dev_ok d → Builds (CtoJSUsbDevice d) (device_tree d).
Proof.
  intros (? & ? & ? & ? & ? & ? & ? & _ & Hcs). apply Builds_object. intros o e0. do 12 build_field.
  eapply filling_array_member; [|done|done]. apply (Builds_array CtoJSUsbConfig config_tree); [done|]. intros c Hc. apply Builds_config.
  by eapply Forall_forall.
Qed.
(** The array that [getDevices] answers with. *)
Lemma Builds_devices ds : Forall dev_ok ds →
  Builds (result ← napi_create_array; devices_array ds result;; mret result) (JArray (map device_tree ds)).
Proof.
  intros Hds. apply (Builds_array (λ d, _ ← napi_create_object; CtoJSUsbDevice d) device_tree (λ result i d,
    _ ← napi_create_object; device ← CtoJSUsbDevice d; napi_set_element result i device)).
  - intros a i d e. rewrite !bind_run. by destruct (napi_create_object e) as [o e1].
  - intros d Hd. apply Builds_after, Builds_device. by eapply Forall_forall.
Qed.

(** ** What is read *)

(** A copy of a node: names are cut, what has no place in the object has its initial
    value, and the power is twice the power. *)
Definition name_copy (s s' : string) : Prop := cut_to DEFAULT_DESCRIPTION_SIZE (utf8_text (c_str s)) s'.
Definition interface_copy (i i' : UsbInterface.t) : Prop := ∃ name, name_copy (UsbInterface.name_ i) name ∧
  i' = {| UsbInterface.id_ := UsbInterface.id_ i; UsbInterface.protocol_ := UsbInterface.protocol_ i;
          UsbInterface.klass_ := UsbInterface.klass_ i; UsbInterface.subClass_ := UsbInterface.subClass_ i;
          UsbInterface.alternateSetting_ := UsbInterface.alternateSetting_ i; UsbInterface.name_ := name;
          UsbInterface.endpoints_ := UsbInterface.endpoints_ i; UsbInterface.iInterface_ := UINT8_MAX; UsbInterface.authorized_ := true |}.
Definition config_copy (c c' : USBConfig.t) : Prop := ∃ name interfaces, name_copy (USBConfig.name_ c) name ∧
  Forall2 interface_copy (USBConfig.interfaces_ c) interfaces ∧
  c' = {| USBConfig.id_ := USBConfig.id_ c; USBConfig.attributes_ := USBConfig.attributes_ c; USBConfig.interfaces_ := interfaces;
          USBConfig.maxPower_ := USBConfig.GetMaxPower c; USBConfig.name_ := name; USBConfig.iConfiguration_ := UINT8_MAX |}.
Definition device_copy (d d' : UsbDevice.t) : Prop := ∃ name manufacturer product version configs,
  name_copy (UsbDevice.name_ d) name ∧ name_copy (UsbDevice.manufacturerName_ d) manufacturer ∧
  name_copy (UsbDevice.productName_ d) product ∧ name_copy (UsbDevice.version_ d) version ∧
  Forall2 config_copy (UsbDevice.configs_ d) configs ∧
  d' = {| UsbDevice.name_ := name; UsbDevice.manufacturerName_ := manufacturer; UsbDevice.productName_ := product;
          UsbDevice.version_ := version; UsbDevice.serial_ := ""; UsbDevice.authorizeStatus_ := UsbDevice.ENABLED;
          UsbDevice.devAddr_ := UsbDevice.devAddr_ d; UsbDevice.busNum_ := UsbDevice.busNum_ d; UsbDevice.descConfigCount_ := UINT8_MAX;
          UsbDevice.bMaxPacketSize0_ := UINT8_MAX; UsbDevice.bcdUSB_ := UINT16_MAX; UsbDevice.bcdDevice_ := UINT16_MAX;
          UsbDevice.iManufacturer_ := UINT8_MAX; UsbDevice.iProduct_ := UINT8_MAX; UsbDevice.iSerialNumber_ := UINT8_MAX;
          UsbDevice.vendorId_ := UsbDevice.vendorId_ d; UsbDevice.productId_ := UsbDevice.productId_ d;
          UsbDevice.baseClass_ := UsbDevice.baseClass_ d; UsbDevice.subClass_ := UsbDevice.subClass_ d;
          UsbDevice.protocol_ := UsbDevice.protocol_ d; UsbDevice.configs_ := configs |}.

(** Run a reader along its code. *)
Ltac read_field := eapply sees_bind; [
  first [apply reads_int; member|apply reads_bool; member|apply sees_string; [done|member]]
  |let Hr := fresh in intros ? Hr; cbn beta in Hr; try subst].
Lemma u8_back z : in_u8 z → to_u8 (to_i32 z) = z.
Proof. intros Hz. rewrite to_i32_id by by apply u8_i32. unfold to_u8. by apply Z.mod_small. Qed.
Lemma u32_back z : in_u32 z → to_u32 (to_i32 z) = z.
Proof.
  unfold in_u32, to_u32, to_i32. intros Hz. rewrite Zminus_mod, Z.mod_mod, <- Zminus_mod by lia.
  replace (z + 2 ^ 31 - 2 ^ 31) with z by lia. by apply Z.mod_small.
Qed.
Lemma interfaceId_back e : in_u8 (USBEndpoint.interfaceId_ e) → to_u8 (to_i32 (GetInterfaceId e)) = USBEndpoint.interfaceId_ e.
Proof.
  intros He. rewrite to_i32_id, GetInterfaceId_u8 by apply GetInterfaceId_range. unfold to_u8. by apply Z.mod_small.
Qed.
Lemma direction_back e : (to_u32 (to_i32 (USBEndpoint.GetDirection e)) =? USB_ENDPOINT_DIR_IN) ||
  (to_u32 (to_i32 (USBEndpoint.GetDirection e)) =? USB_ENDPOINT_DIR_OUT) = true.
Proof.
  rewrite u32_back by apply GetDirection_range. by destruct (GetDirection_cases e) as [-> | ->].
Qed.

Lemma Parses_pipe p q : pipe_ok p → Parses (λ v, ParseUsbDevicePipe v q) (pipe_tree p) (eq p).
Proof.
  intros [Hb Ha] v e0. unfold ParseUsbDevicePipe. eapply sees_bind; [apply reads_typeof|]. intros ? ->.
  apply reads_assert; [done|]. do 2 read_field. apply sees_ret. rewrite !u8_back by done. by destruct p.
Qed.
Lemma Parses_endpoint e q : ep_ok e → Parses (λ v, ParseEndpointObj v q) (endpoint_tree e) (eq e).
Proof.
  intros (Ha & Hat & Hi & Hm & Hf) v e0. unfold ParseEndpointObj. do 5 read_field. apply reads_assert; [apply direction_back|].
  do 3 read_field. apply sees_ret. rewrite interfaceId_back, !u32_back, !to_i32_id by done. by destruct e.
Qed.
Lemma Parses_interface i q : inf_ok i → Parses (λ v, ParseInterfaceObj indeterminate v q) (interface_tree i) (interface_copy i).
Proof.
  intros (? & ? & ? & ? & ? & _ & Hes) v e0. unfold ParseInterfaceObj. do 6 read_field. rewrite Forall_forall in Hes. eapply sees_bind.
  { eapply (reads_array endpoint_tree); [member|]. intros e He. apply Parses_endpoint. by apply Hes. }
  intros [ret eps] [Hret Heps%list_eq_Forall2]. cbn [fst snd] in *. subst ret eps. apply sees_ret. eexists. split; [done|]. by rewrite !to_i32_id.
Qed.
Lemma Parses_config c q : cfg_ok c → Parses (λ v, ParseConfigObj indeterminate v q) (config_tree c) (config_copy c).
Proof.
  intros (? & ? & ? & _ & His) v e0. unfold ParseConfigObj. do 6 read_field. rewrite Forall_forall in His. eapply sees_bind.
  { eapply (reads_array interface_tree); [member|]. intros i Hi. apply Parses_interface. by apply His. }
  intros [ret interfaces] [Hret His']. cbn [fst snd] in *. subst ret. apply sees_ret. do 2 eexists. split; [done|]. split; [done|].
  rewrite (to_i32_id (USBConfig.id_ c)), u32_back, to_i32_id by done. done.
Qed.
Lemma reads_configs v xs e0 : Forall cfg_ok xs → ∀ xs2 xs1 acc, xs = xs1 ++ xs2 → Forall2 config_copy xs1 acc →
  triple (sees e0 v (JArray (map config_tree xs))) (read_configs indeterminate v (length xs2) (Z.of_nat (length xs1)) acc)
    (λ r e, Forall2 config_copy xs r ∧ sees e0 v (JArray (map config_tree xs)) e).
Proof.
  intros Hok xs2. induction xs2 as [|x xs2 IH]; intros xs1 acc -> Hacc; cbn [length read_configs].
  - apply sees_ret. by rewrite app_nil_r.
  - assert (cfg_ok x) as Hx by (rewrite Forall_forall in Hok; apply Hok; rewrite elem_of_app; right; left).
    eapply reads_next; [by apply Parses_config|done|].
    intros a Ha. specialize (IH (xs1 ++ [x]) (acc ++ [a])). rewrite length_app, Nat2Z.inj_add, <- (assoc_L (++) xs1) in IH.
    apply IH; [done|]. apply Forall2_app; [done|]. by constructor.
Qed.
Lemma Parses_configs v kvs cs e0 : Forall cfg_ok cs → ("configs", JArray (map config_tree cs)) ∈ kvs →
  triple (sees e0 v (JObject kvs)) (ParseConfigsObjs indeterminate v [])
    (λ r e, Forall2 config_copy cs r ∧ sees e0 v (JObject kvs) e).
Proof.
  intros Hcs Hk. unfold ParseConfigsObjs. apply (reads_property _ _ _ _ _ _ _ _ Hk). intros w e1.
  apply reads_assert; [done|]. eapply sees_bind; [apply reads_typeof|]. intros ? ->.
  apply reads_assert; [done|]. eapply sees_bind; [apply reads_length|]. intros ? ->.
  rewrite Nat2Z.id, length_map. by apply (reads_configs w cs e1 Hcs cs [] []).
Qed.
Lemma Parses_device d : dev_ok d → Parses (ParseDeviceObj indeterminate) (device_tree d) (device_copy d).
Proof.
  intros (? & ? & ? & ? & ? & ? & ? & _ & Hcs) v e0. unfold ParseDeviceObj. do 12 read_field. eapply sees_bind.
  { apply Parses_configs; [done|]. cbn [map]. member. }
  intros configs Hcs'. cbn beta in Hcs'. apply sees_ret. do 5 eexists. do 5 (split; [done|]).
  rewrite !u8_back, !to_i32_id by done. done.
Qed.

(** ** Round trips *)

(** Between its making and its reading other things may happen that change nothing of
    what the script has. *)
Lemma round_trip {A} (f : state E napi_value) (g : napi_value → state E A) t R e0 e1 :
  Builds f t → Parses g t R → pending e0 = None → same_objects (f e0).2 e1 → R (g (f e0).1 e1).1 ∧ calm e1 (g (f e0).1 e1).2.
Proof.
  intros Hf Hg He Hc. destruct (Hf e0 He) as (Hp & d & Hd & Hs & Ht). destruct Hc as [Hc1 Hc2].
  destruct (Hg (f e0).1 e1 e1) as [Hr (Hc & _)]; [|done]. split; [done|]. split; [by rewrite Hc2|].
  eapply Reads_mono; [|exact Ht]. etransitivity; [|exact Hc1]. etransitivity; [|exact Hs]. apply map_union_mono_l, law_roots.
Qed.

End RoundTrip.
