(* ===== verification/UsbInfoProofs.v ===== *)
(** * The functions of the JavaScript module: lemmas

    What a function of the module keeps, what it throws, and rules for the
    combinators it is made of. *)
From S2P Require Import Prelude UsbErrors Platform UsbAccessory UsbDevice UsbDescriptorParser UsbPortManager UsbInterfaceType UsbHostManager UsbHostTransfer UsbService UsbServiceHost UsbServiceSerial UsbSrvClient UsbTransferCallbacks UsbUtilities NapiUtil UsbInfoParse UsbInfo UsbInfoAsync NapiLaws.

Section Proofs.
Context {S P E O : Type} `{!IUsbServer S, !ClientPlatform P, !ErrCodeBase, !Napi E, !SecureC, !NapiSystem O, !NapiView E, !NapiLaws E}.
Abbreviation US := (UsbInfo S P E O).
Abbreviation M := (state US).
Implicit Types m : US.

(** ** What is kept *)

(** The clock, the counters and open files are not looked at. *)
Record kept m m' : Prop := {
  kept_client : g_usbClient m' = g_usbClient m;
  kept_fd : g_accFd m' = g_accFd m;
  kept_works : works m' = works m;
  kept_transfers : transfers m' = transfers m;
  kept_events : events m' = events m;
}.
#[export] Instance kept_preorder : PreOrder kept.
Proof. split; [by intros m|]. intros m1 m2 m3 [] []. split; congruence. Qed.
(** Nothing has happened that the script or the service could see. *)
Definition at_rest m0 m : Prop := kept m0 m ∧ calm (engine m0) (engine m) ∧ pending (engine m) = None.
(** An error has been thrown, and nothing else has happened. *)
Definition refused (errCode : Z) m0 m : Prop := kept m0 m ∧ script_heap (engine m0) ⊆ script_heap (engine m) ∧ thrown errCode (engine m).

(** Statements about the state that the clock and the counters do not matter to. *)
Class Indifferent (Q : US → Prop) : Prop := {
  indifferent_metrics m x : Q m → Q (set_metrics x m);
  indifferent_system m o : Q m → Q (set_system o m);
}.
#[export] Instance at_rest_indifferent m0 : Indifferent (at_rest m0).
Proof. by split; intros [] x [[] ?]. Qed.
#[export] Instance refused_indifferent errCode m0 : Indifferent (refused errCode m0).
Proof. by split; intros [] x [[] ?]. Qed.

Lemma triple_on_system {A} (f : state O A) (Q : US → Prop) : Indifferent Q → triple Q (on_system f) (λ _, Q).
Proof. intros HQ m Hm. unfold on_system, zoom. destruct (f (system m)) as [a o]. by apply indifferent_system. Qed.
Lemma triple_metrics (f : US → UsbApiMetrics.t) (Q : US → Prop) : Indifferent Q → triple Q (modify (λ m, set_metrics (f m) m)) (λ _, Q).
Proof. intros HQ m Hm. by apply indifferent_metrics. Qed.
Lemma triple_destroy_metrics x (Q : US → Prop) : Indifferent Q → triple Q (destroy_metrics x) (λ _, Q).
Proof.
  intros HQ. unfold destroy_metrics. apply triple_if; intros _; [by apply triple_ret|]. eapply triple_bind; [by apply triple_on_system|].
  intros endTime. apply triple_for_each. intros h Hh. by apply triple_on_system.
Qed.
Lemma triple_with_metrics {A} name (body : M A) (Pre : US → Prop) (Q : A → US → Prop) :
  Indifferent Pre → (∀ a, Indifferent (Q a)) → triple Pre body Q → triple Pre (with_metrics name body) Q.
Proof.
  intros HP HQ Hb. unfold with_metrics. eapply triple_bind; [by apply triple_on_system|]. intros now.
  eapply triple_bind; [by apply triple_metrics|]. intros []. eapply triple_bind; [exact Hb|]. intros r.
  eapply (triple_bind _ (λ _, Q r)); [by intros m|]. intros x. eapply triple_bind; [by apply triple_destroy_metrics|]. intros []. by apply triple_ret.
Qed.

(** ** Calls of the engine *)

Lemma engine_set x m : engine (set_engine x m) = x.
Proof. by destruct m. Qed.
Lemma kept_engine x m m' : kept m m' → kept m (set_engine x m').
Proof. by intros []; destruct m'. Qed.
(** Something that the engine does when nothing has been thrown. *)
Lemma triple_on_engine {A} (f : state E A) (φ : A → Prop) m0 :
  (∀ e, calm (engine m0) e → pending e = None → φ (f e).1 ∧ calm e (f e).2) →
  triple (at_rest m0) (on_engine f) (λ a m, φ a ∧ at_rest m0 m).
Proof.
  intros Hf m (Hk & Hc & Hp). unfold on_engine, zoom. destruct (Hf (engine m) Hc Hp) as [Ha Hc'].
  destruct (f (engine m)) as [a e]. cbn [fst snd] in *. split; [done|]. split; [by apply kept_engine|]. rewrite engine_set.
  split; [by etransitivity|]. by destruct Hc' as [[_ ->] _].
Qed.
Lemma triple_typeof m0 v s : script_heap (engine m0) !! v = Some s →
  triple (at_rest m0) (on_engine (napi_typeof v)) (λ r m, r = (true, type_of s) ∧ at_rest m0 m).
Proof.
  intros Hs. apply (triple_on_engine _ (λ r, r = (true, type_of s))). intros e [[Hc _] _] _. pose proof (law_typeof e v s (lookup_weaken _ _ _ _ Hs Hc)) as Hl.
  by destruct (napi_typeof v e).
Qed.
Lemma triple_undefined m0 : triple (at_rest m0) (on_engine napi_get_undefined) (λ _, at_rest m0).
Proof.
  eapply triple_conseq; [apply (triple_on_engine _ (λ _, True))|done|by intros a m []]. intros e _ _. split; [done|]. apply law_undefined.
Qed.

(** The codes that are thrown are numbers of 32 bits with a message. *)
Definition known_code (errCode : Z) : bool := bool_decide (is_Some (GetErrMsgByErrCode errCode)) && bool_decide (in_i32 errCode).
Lemma triple_throw m0 errCode errMsg : known_code errCode = true →
  triple (at_rest m0) (Throw errCode errMsg) (λ _, refused errCode m0).
Proof.
  intros [Hm%bool_decide_eq_true Hz%bool_decide_eq_true]%andb_true_iff m (Hk & [[Hc _] _] & Hp). unfold Throw, on_engine, zoom.
  unfold ThrowBusinessError.
  pose proof (throw_thrown _ errCode errMsg (engine m) Hm Hz Hp) as [Hs Ht]. destruct (throw_error _ _ _ _) as [[] e]. cbn [snd] in *.
  split; [by apply kept_engine|]. rewrite engine_set. split; [by etransitivity|done].
Qed.
Lemma triple_throw_again m0 errCode errCode' errMsg : triple (refused errCode m0) (Throw errCode' errMsg) (λ _, refused errCode m0).
Proof.
  intros m (Hk & Hs & Ht). unfold Throw, on_engine, zoom. unfold ThrowBusinessError.
  pose proof (throw_still (GetErrMsgByErrCode errCode') errCode' errMsg (engine m)) as Hc. destruct (throw_error _ _ _ _) as [[] e]. cbn [snd] in *.
  assert (calm (engine m) e) as Hc' by (apply Hc; by destruct Ht as (v & msg & -> & _)).
  split; [by apply kept_engine|]. rewrite engine_set. split; [etransitivity; [exact Hs|apply Hc']|]. by eapply thrown_calm.
Qed.
Lemma triple_fail_with m0 errCode errMsg : known_code errCode = true →
  triple (at_rest m0) (fail_with errCode errMsg) (λ _, refused errCode m0).
Proof. intros Hk. unfold fail_with. eapply triple_bind; [by apply triple_metrics, _|]. intros []. by apply triple_throw. Qed.
Lemma triple_fail_again m0 errCode errCode' errMsg : triple (refused errCode m0) (fail_with errCode' errMsg) (λ _, refused errCode m0).
Proof. unfold fail_with. eapply triple_bind; [by apply triple_metrics, _|]. intros []. apply triple_throw_again. Qed.

(** ** Refusals *)

Definition refuses {A} (errCode : Z) m0 (f : M A) : Prop := triple (at_rest m0) f (λ _, refused errCode m0).
Lemma refuses_then {A B} errCode m0 (f : M A) (k : A → M B) :
  refuses errCode m0 f → (∀ a, triple (refused errCode m0) (k a) (λ _, refused errCode m0)) → refuses errCode m0 (f ≫= k).
Proof. intros Hf Hk. by eapply triple_bind. Qed.
Lemma refusal_after {A B} errCode m0 (f : M A) (k : A → M B) :
  triple (at_rest m0) f (λ _, at_rest m0) → (∀ a, refuses errCode m0 (k a)) → refuses errCode m0 (f ≫= k).
Proof. intros Hf Hk. by eapply triple_bind. Qed.
Lemma refuses_return {A B} errCode m0 (f : M A) (b : B) : refuses errCode m0 f → refuses errCode m0 (f;; mret b).
Proof. intros Hf. apply refuses_then; [done|]. intros _. by apply triple_ret. Qed.
Lemma refuses_ends {A} errCode m0 (f : M A) : refuses errCode m0 f → refuses errCode m0 (ends f).
Proof. intros Hf. apply refuses_then; [done|]. intros a. by apply triple_ret. Qed.
Lemma refuses_with_metrics {A} errCode m0 name (f : M A) : refuses errCode m0 f → refuses errCode m0 (with_metrics name f).
Proof. apply triple_with_metrics; apply _. Qed.

Lemma refuses_feature m0 f (k : M napi_value) :
  (HasFeature O f = true → refuses OHEC_COMMON_PARAM_ERROR m0 k) →
  refuses (if HasFeature O f then OHEC_COMMON_PARAM_ERROR else CAPABILITY_NOT_SUPPORT) m0 (needs_feature f k).
Proof.
  intros Hk. unfold needs_feature. destruct (HasFeature O f); cbn [negb]; [by apply Hk|]. by apply refuses_return, triple_fail_with.
Qed.
Lemma refuses_feature_or_throw m0 f (k : M napi_value) :
  (HasFeature O f = true → refuses OHEC_COMMON_PARAM_ERROR m0 k) →
  refuses (if HasFeature O f then OHEC_COMMON_PARAM_ERROR else CAPABILITY_NOT_SUPPORT) m0 (feature_or_throw f k).
Proof.
  intros Hk. unfold feature_or_throw. destruct (HasFeature O f); cbn [negb]; [by apply Hk|]. by apply refuses_return, triple_throw.
Qed.
Lemma refuses_assert {A} m0 (r : A) b msg (k : M A) :
  (b = true → refuses OHEC_COMMON_PARAM_ERROR m0 k) → refuses OHEC_COMMON_PARAM_ERROR m0 (USB_ASSERT r b msg k).
Proof. intros Hk. unfold USB_ASSERT. destruct b; cbn [negb]; [by apply Hk|]. by apply refuses_return, triple_throw. Qed.
Lemma refuses_no_arguments m0 args (k : M napi_value) : args ≠ [] →
  refuses OHEC_COMMON_PARAM_ERROR m0 (takes_no_arguments (Some args) k).
Proof.
  intros Ha. apply refuses_assert. cbn. intros Hl%bool_decide_eq_true. by apply length_zero_iff_nil in Hl.
Qed.
(** Too few arguments, or a first one of another type. *)
Definition unfit m0 (n : nat) (t : napi_valuetype) (args : list napi_value) : Prop :=
  (length args < n)%nat ∨ ∃ s, script_heap (engine m0) !! argv args 0 = Some s ∧ type_of s ≠ t.
Lemma refuses_type m0 v t s msg (k : M napi_value) : script_heap (engine m0) !! v = Some s → type_of s ≠ t →
  refuses OHEC_COMMON_PARAM_ERROR m0 (of_type v t msg k).
Proof.
  intros Hs Ht. unfold of_type, refuses. eapply triple_bind; [by apply triple_typeof|]. intros r. apply triple_pure. intros ->.
  apply refuses_assert. by intros ?%bool_decide_eq_true.
Qed.
Lemma refuses_type_unchecked {A} m0 (r : A) v t s msg (k : M A) : script_heap (engine m0) !! v = Some s → type_of s ≠ t →
  refuses OHEC_COMMON_PARAM_ERROR m0 (of_type_unchecked r v t msg k).
Proof.
  intros Hs Ht. unfold of_type_unchecked, refuses. eapply triple_bind; [by apply triple_typeof|]. intros x. apply triple_pure. intros ->.
  apply refuses_assert. by intros ?%bool_decide_eq_true.
Qed.
Lemma refuses_arguments m0 n t args msg (k : list napi_value → M napi_value) : unfit m0 n t args →
  (∀ s, script_heap (engine m0) !! argv args 0 = Some s → type_of s ≠ t → refuses OHEC_COMMON_PARAM_ERROR m0 (k args)) →
  refuses OHEC_COMMON_PARAM_ERROR m0 (takes_arguments n msg (Some args) k).
Proof.
  intros Hu Hk. apply refuses_assert. intros Hl%Nat.leb_le. destruct Hu as [Hu|(s & Hs & Ht)]; [lia|]. by eapply Hk.
Qed.
(** The same with what is returned. *)
Definition refuses_as {A} (r : A) (errCode : Z) m0 (f : M A) : Prop := triple (at_rest m0) f (λ a m, a = r ∧ refused errCode m0 m).
Lemma refuses_as_assert {A} m0 (r : A) b msg (k : M A) :
  (b = true → refuses_as r OHEC_COMMON_PARAM_ERROR m0 k) → refuses_as r OHEC_COMMON_PARAM_ERROR m0 (USB_ASSERT r b msg k).
Proof.
  intros Hk. unfold USB_ASSERT. destruct b; cbn [negb]; [by apply Hk|].
  eapply triple_bind; [by apply triple_throw|]. intros []. by intros m Hm.
Qed.
Lemma refuses_as_type_unchecked {A} m0 (r : A) v t s msg (k : M A) : script_heap (engine m0) !! v = Some s → type_of s ≠ t →
  refuses_as r OHEC_COMMON_PARAM_ERROR m0 (of_type_unchecked r v t msg k).
Proof.
  intros Hs Ht. unfold of_type_unchecked, refuses_as. eapply triple_bind; [by apply triple_typeof|]. intros x. apply triple_pure. intros ->.
  apply refuses_as_assert. by intros ?%bool_decide_eq_true.
Qed.
Lemma refuses_known {A B} (r : A) errCode m0 (f : M A) (k : A → M B) :
  refuses_as r errCode m0 f → triple (refused errCode m0) (k r) (λ _, refused errCode m0) → refuses errCode m0 (f ≫= k).
Proof. intros Hf Hk. eapply triple_bind; [exact Hf|]. intros a. by apply triple_pure; intros ->. Qed.
(** What the engine does after a throw. *)
Lemma triple_still {A} (f : state E A) errCode m0 : (∀ e, is_Some (pending e) → calm e (f e).2) →
  triple (refused errCode m0) (on_engine f) (λ _, refused errCode m0).
Proof.
  intros Hf m (Hk & Hs & Ht). unfold on_engine, zoom. specialize (Hf (engine m)).
  destruct (f (engine m)) as [a e]. cbn [snd] in *.
  assert (calm (engine m) e) as Hc by (apply Hf; by destruct Ht as (v & msg & -> & _)).
  split; [by apply kept_engine|]. rewrite engine_set. split; [etransitivity; [exact Hs|apply Hc]|]. by eapply thrown_calm.
Qed.
Lemma triple_process_promise errCode m0 d b v : triple (refused errCode m0) (ProcessPromise d b v) (λ _, refused errCode m0).
Proof.
  destruct d as [d|]; [|by apply triple_ret]. apply triple_still. intros e He. destruct b; [by apply law_still_resolve|by apply law_still_reject].
Qed.
Lemma triple_create_promise m0 : triple (at_rest m0) (on_engine napi_create_promise) (λ _, at_rest m0).
Proof.
  eapply triple_conseq; [apply (triple_on_engine _ (λ _, True))|done|by intros a m []]. intros e _ He. split; [done|]. by apply law_create_promise.
Qed.

(** *** The parsers of arguments *)

Lemma refuses_control_param ind m0 args : unfit m0 2 napi_object args →
  refuses_as None OHEC_COMMON_PARAM_ERROR m0 (GetControlTransferParam ind (Some args)).
Proof.
  intros Hu. unfold GetControlTransferParam. destruct (Nat.ltb_spec (length args) 2); [by apply (refuses_as_assert _ None false _ (mret None))|].
  destruct Hu as [Hu|(s & Hs & Ht)]; [lia|]. unfold refuses_as. eapply triple_bind; [by apply triple_typeof|]. intros r. apply triple_pure. intros ->.
  by apply (refuses_as_assert _ None); intros ?%bool_decide_eq_true.
Qed.
Lemma refuses_usb_control_param ind m0 args : unfit m0 2 napi_object args →
  refuses_as None OHEC_COMMON_PARAM_ERROR m0 (GetUsbControlTransferParam ind (Some args)).
Proof.
  intros Hu. unfold GetUsbControlTransferParam. destruct (Nat.ltb_spec (length args) 2); [by apply (refuses_as_assert _ None false _ (mret None))|].
  destruct Hu as [Hu|(s & Hs & Ht)]; [lia|]. unfold refuses_as. eapply triple_bind; [by apply triple_typeof|]. intros r. apply triple_pure. intros ->.
  by apply (refuses_as_assert _ None); intros ?%bool_decide_eq_true.
Qed.
Lemma refuses_bulk_params m0 args : unfit m0 3 napi_object args →
  refuses_as (false, new_bulk) OHEC_COMMON_PARAM_ERROR m0 (GetBulkTransferParams (Some args)).
Proof.
  intros Hu. apply refuses_as_assert. intros Hl%Nat.leb_le. destruct Hu as [Hu|(s & Hs & Ht)]; [lia|]. by eapply refuses_as_type_unchecked.
Qed.
Lemma refuses_transfer_object parse c m0 args : unfit m0 1 napi_object args →
  refuses_as (false, c) OHEC_COMMON_PARAM_ERROR m0 (transfer_object parse (Some args) c).
Proof.
  intros Hu. apply refuses_as_assert. intros Hl%Nat.leb_le. destruct Hu as [Hu|(s & Hs & Ht)]; [lia|]. by eapply refuses_as_type_unchecked.
Qed.
(** Memory that is there. *)
Lemma triple_memory {A} (f : state O A) (φ : A → Prop) m0 : (∀ o, φ (f o).1) →
  triple (at_rest m0) (on_system f) (λ a m, φ a ∧ at_rest m0 m).
Proof.
  intros Hf m Hm. pose proof (triple_on_system f _ (at_rest_indifferent m0) m Hm) as Hr. unfold on_system, zoom in *.
  specialize (Hf (system m)). by destruct (f (system m)).
Qed.

(** ** Calls that succeed *)

(** Before the call of the client library only the clock and the counters move. *)
Definition untouched m0 m : Prop := kept m0 m ∧ engine m = engine m0.
#[export] Instance untouched_indifferent m0 : Indifferent (untouched m0).
Proof. by split; intros [] x [[] ?]. Qed.
(** After it the client is in the state [c], and the engine has done nothing that the
    script could see. *)
Definition answered m0 c m : Prop := g_usbClient m = c ∧ calm (engine m0) (engine m) ∧ pending (engine m) = None.
(** The value [v] reads as the tree [t], and the client is in the state [c]. *)
Definition returns m0 c t v m : Prop := g_usbClient m = c ∧ script_heap (engine m0) ⊆ script_heap (engine m) ∧
  pending (engine m) = None ∧ Reads (script_heap (engine m)) t v.
#[export] Instance returns_indifferent m0 c t v : Indifferent (returns m0 c t v).
Proof. by split; intros [] x ?. Qed.

Lemma with_feature f (k : M napi_value) Pre Q : HasFeature O f = true → triple Pre k Q → triple Pre (needs_feature f k) Q.
Proof. intros HF. unfold needs_feature. by rewrite HF. Qed.
Lemma with_assert {A} (r : A) b msg (k : M A) Pre Q : b = true → triple Pre k Q → triple Pre (USB_ASSERT r b msg k) Q.
Proof. by intros ->. Qed.
Lemma with_arguments n msg args (k : list napi_value → M napi_value) Pre Q : (n <= length args)%nat →
  triple Pre (k args) Q → triple Pre (takes_arguments n msg (Some args) k) Q.
Proof. intros Hl. apply with_assert. by apply Nat.leb_le. Qed.
Lemma with_type v t msg (k : M napi_value) m0 tr Q : Reads (script_heap (engine m0)) tr v → tree_type tr = t →
  triple (at_rest m0) k Q → triple (at_rest m0) (of_type v t msg k) Q.
Proof.
  intros Hv Ht Hk. destruct (Reads_type _ _ _ Hv) as (s & Hs & Hst). unfold of_type. eapply triple_bind; [by apply triple_typeof|].
  intros r. apply triple_pure. intros ->. unfold NAPI_CHECK. cbn [negb]. apply with_assert; [|done]. apply bool_decide_eq_true. congruence.
Qed.
Lemma triple_parse {A} (f : napi_value → state E A) t (R : A → Prop) v m0 : Parses f t R → Reads (script_heap (engine m0)) t v →
  triple (at_rest m0) (on_engine (f v)) (λ a m, R a ∧ at_rest m0 m).
Proof.
  intros Hf Hv. apply triple_on_engine. intros e [[Hc _] _] Hp. destruct (Hf v e e) as [Ha (Hc' & _)]; [|done].
  split; [done|]. split; [done|]. by eapply Reads_mono.
Qed.
Lemma triple_on_client {A} (f : state (UsbSrvClient S P) A) a c m0 : f (g_usbClient m0) = (a, c) →
  triple (at_rest m0) (on_client f) (λ r m, r = a ∧ answered m0 c m).
Proof.
  intros Hf m ([Hc _ _ _ _] & Hcalm & Hp). unfold on_client, zoom. rewrite Hc, Hf. split; [done|]. by destruct m.
Qed.
Lemma triple_build (f : state E napi_value) t c m0 : Builds f t →
  triple (answered m0 c) (on_engine f) (λ v m, returns m0 c t v m).
Proof.
  intros Hf m (Hc & [[Hs _] _] & Hp). unfold on_engine, zoom. specialize (Hf (engine m) Hp). destruct (f (engine m)) as [v e].
  cbn [fst snd] in *. unfold returns. rewrite engine_set. split; [by destruct m|]. split; [|split; [apply Hf|by eapply built_reads]].
  etransitivity; [exact Hs|]. by eapply built_grows.
Qed.
Lemma on_engine_bind {A B} (f : state E A) (g : A → state E B) m : on_engine (f ≫= g) m = (a ← on_engine f; on_engine (g a)) m.
Proof.
  unfold on_engine. rewrite bind_run. unfold zoom. rewrite bind_run. destruct (f (engine m)) as [a e]. cbn [fst snd].
  rewrite engine_set. destruct (g a e) as [b e']. by destruct m.
Qed.
Lemma triple_eq {A} (f g : M A) Pre Q : (∀ m, f m = g m) → triple Pre g Q → triple Pre f Q.
Proof. intros Hfg Hg m Hm. rewrite Hfg. by apply Hg. Qed.
Definition answered_with_error m0 c errCode m : Prop := g_usbClient m = c ∧ script_heap (engine m0) ⊆ script_heap (engine m) ∧ thrown errCode (engine m).
#[export] Instance answered_indifferent m0 c : Indifferent (answered m0 c).
Proof. by split; intros [] x ?. Qed.
#[export] Instance answered_with_error_indifferent m0 c errCode : Indifferent (answered_with_error m0 c errCode).
Proof. by split; intros [] x ?. Qed.
Lemma triple_answer_error m0 c errCode errMsg : known_code errCode = true →
  triple (answered m0 c) (fail_with errCode errMsg) (λ _, answered_with_error m0 c errCode).
Proof.
  intros [Hm%bool_decide_eq_true Hz%bool_decide_eq_true]%andb_true_iff. unfold fail_with.
  eapply triple_bind; [by apply triple_metrics, _|]. intros []. intros m (Hc & [[Hs _] _] & Hp). unfold Throw, on_engine, zoom.
  unfold ThrowBusinessError.
  pose proof (throw_thrown _ errCode errMsg (engine m) Hm Hz Hp) as [Hs' Ht]. destruct (throw_error _ _ _ _) as [[] e]. cbn [snd] in *.
  unfold answered_with_error. rewrite engine_set. split; [by destruct m|]. split; [by etransitivity|done].
Qed.
Lemma triple_answer_undefined m0 c : triple (answered m0 c) (on_engine napi_get_undefined) (λ _, answered m0 c).
Proof.
  intros m (Hc & Hs & Hp). unfold on_engine, zoom. pose proof (law_undefined (engine m)) as Hl.
  destruct (napi_get_undefined (engine m)) as [v e]. cbn [snd] in *. unfold answered. rewrite engine_set.
  split; [by destruct m|]. split; [by etransitivity|]. by destruct Hl as [[_ ->] _].
Qed.
End Proofs.
