(* ===== verification/UsbInfoTheorems.v ===== *)
(** * The JavaScript module: theorems *)
From S2P Require Import Prelude UsbErrors Platform UsbAccessory UsbDevice UsbDescriptorParser UsbPortManager UsbInterfaceType UsbHostManager UsbHostTransfer UsbService UsbServiceHost UsbServiceSerial UsbSrvClient UsbSrvClientProofs UsbSrvClientSteps UsbTransferCallbacks UsbUtilities NapiUtil UsbInfoParse UsbInfo UsbInfoAsync NapiLaws UsbInfoRoundTrip UsbInfoProofs.

(** ** Signatures *)

(** The feature a function needs, and its arguments: none, or at least so many with a
    first one of a type that is checked before anything is done. *)
Inductive Arguments_ := NoArguments | AtLeast (n : nat) (first : option napi_valuetype).
Definition signature : list (string * (UsbManagerFeature * Arguments_)) :=
  let object n := AtLeast n (Some napi_object) in
  let string n := AtLeast n (Some napi_string) in
  let number n := AtLeast n (Some napi_number) in [
  ("getDevices", (FEATURE_HOST, NoArguments)); ("connectDevice", (FEATURE_HOST, object 1%nat)); ("hasRight", (FEATURE_HOST, string 1%nat));
  ("requestRight", (FEATURE_HOST, string 1%nat)); ("usbFunctionsFromString", (FEATURE_DEVICE, string 1%nat));
  ("getFunctionsFromString", (FEATURE_DEVICE, string 1%nat)); ("usbFunctionsToString", (FEATURE_DEVICE, number 1%nat));
  ("getStringFromFunctions", (FEATURE_DEVICE, number 1%nat)); ("setCurrentFunctions", (FEATURE_DEVICE, number 1%nat));
  ("setDeviceFunctions", (FEATURE_DEVICE, number 1%nat)); ("getCurrentFunctions", (FEATURE_DEVICE, NoArguments));
  ("getDeviceFunctions", (FEATURE_DEVICE, NoArguments)); ("getPorts", (FEATURE_PORT, NoArguments)); ("getPortList", (FEATURE_PORT, NoArguments));
  ("getSupportedModes", (FEATURE_PORT, number 1%nat)); ("getPortSupportModes", (FEATURE_PORT, number 1%nat));
  ("setPortRoles", (FEATURE_PORT, number 3%nat)); ("setPortRoleTypes", (FEATURE_PORT, number 3%nat));
  ("claimInterface", (FEATURE_HOST, object 2%nat)); ("claimInterfaceExclusive", (FEATURE_HOST, AtLeast 2 None));
  ("releaseInterface", (FEATURE_HOST, object 2%nat)); ("bulkTransfer", (FEATURE_HOST, object 3%nat));
  ("controlTransfer", (FEATURE_HOST, object 2%nat)); ("usbControlTransfer", (FEATURE_HOST, object 2%nat));
  ("setInterface", (FEATURE_HOST, object 2%nat)); ("setConfiguration", (FEATURE_HOST, object 2%nat));
  ("getRawDescriptor", (FEATURE_HOST, object 1%nat)); ("getFileDescriptor", (FEATURE_HOST, object 1%nat));
  ("closePipe", (FEATURE_HOST, object 1%nat)); ("resetUsbDevice", (FEATURE_HOST, object 1%nat));
  ("usbCancelTransfer", (FEATURE_HOST, object 1%nat)); ("usbSubmitTransfer", (FEATURE_HOST, object 1%nat));
  ("addDeviceAccessRight", (FEATURE_HOST, string 2%nat)); ("removeRight", (FEATURE_HOST, string 1%nat));
  ("getAccessoryList", (FEATURE_DEVICE, NoArguments)); ("openAccessory", (FEATURE_DEVICE, object 1%nat));
  ("closeAccessory", (FEATURE_DEVICE, object 1%nat)); ("addAccessoryRight", (FEATURE_DEVICE, number 2%nat));
  ("hasAccessoryRight", (FEATURE_DEVICE, object 1%nat)); ("requestAccessoryRight", (FEATURE_DEVICE, object 1%nat));
  ("cancelAccessoryRight", (FEATURE_DEVICE, object 1%nat))].
Definition signature_of (name : string) : option (UsbManagerFeature * Arguments_) := snd <$> find (λ p, bool_decide (p.1 = name)) signature.

Section Theorems.
Context {S P E O : Type} `{!IUsbServer S, !ClientPlatform P, !ErrCodeBase, !Napi E, !SecureC, !NapiSystem O, !NapiView E, !NapiLaws E}.
Context (others : state (UsbSrvClient S P) ()) (uninit : Z) (func : Listener).
Abbreviation US := (UsbInfo S P E O).
Implicit Types m : US.

Definition ill_formed m (a : Arguments_) (args : list napi_value) : Prop :=
  match a with
  | NoArguments => args ≠ []
  | AtLeast n (Some t) => unfit m n t args
  | AtLeast n None => (length args < n)%nat
  end.
Definition refusal_code (f : UsbManagerFeature) : Z := if HasFeature O f then OHEC_COMMON_PARAM_ERROR else CAPABILITY_NOT_SUPPORT.

Definition fits_the_refusal m f a args : Prop := HasFeature O f = true → ill_formed m a args.
Definition call_refused (c : UsbManagerFeature * Arguments_) (body : cb_info → state US (outcome napi_value)) : Prop :=
  ∀ args m, fits_the_refusal m c.1 c.2 args → refuses (refusal_code c.1) m (body (Some args)).

(** One function of the table. *)
Ltac refuse_checks Ha := repeat lazymatch goal with
  | |- refuses _ _ (takes_arguments _ _ _ _) => eapply refuses_arguments; [by apply Ha|intros ? ? ?]
  | |- refuses _ _ (takes_no_arguments _ _) => by apply refuses_no_arguments, Ha
  | |- refuses _ _ (NAPI_CHECK (bool_decide _) _) => rewrite bool_decide_true by (by eexists); unfold NAPI_CHECK; cbn [negb]
  | |- refuses _ _ (of_type _ _ _ _) => by eapply refuses_type
  | |- refuses _ _ (of_type_unchecked _ _ _ _ _) => by eapply refuses_type_unchecked
  end.
Ltac refuse := intros args m Ha; apply refuses_ends; cbn [fst snd] in *;
  first [apply refuses_with_metrics|idtac];
  first [apply refuses_feature|apply refuses_feature_or_throw]; let HF := fresh in intros HF; specialize (Ha HF); refuse_checks Ha.

Lemma PipeControlTransfer_refused : call_refused (FEATURE_HOST, AtLeast 2 (Some napi_object)) (λ i, ends (PipeControlTransfer uninit i)).
Proof.
  refuse. eapply refuses_known; [by apply refuses_control_param|]. by apply triple_ret.
Qed.
Lemma PipeUsbControlTransfer_refused : call_refused (FEATURE_HOST, AtLeast 2 (Some napi_object)) (λ i, ends (PipeUsbControlTransfer uninit i)).
Proof.
  refuse. eapply refuses_known; [by apply refuses_usb_control_param|]. by apply triple_ret.
Qed.
Lemma PipeClaimInterfaceExclusive_refused : call_refused (FEATURE_HOST, AtLeast 2 None) (PipeClaimInterfaceExclusive others uninit).
Proof.
  intros args m Ha. cbn in Ha. unfold PipeClaimInterfaceExclusive, refusal_code. unfold fits_the_refusal in Ha. cbn [fst snd] in *.
  destruct (HasFeature O FEATURE_HOST) eqn:HF; cbn [negb].
  - apply refuses_assert. intros Hl%Nat.leb_le. specialize (Ha eq_refl). cbn in Ha. lia.
  - by apply refuses_return, triple_throw.
Qed.
(** Two functions need memory before they look at their arguments. *)
Definition memory : Prop := (∀ o : O, (new_nothrow o).1 = true) ∧ (∀ s (o : O), is_Some (new_context s o).1).
Lemma PipeBulkTransfer_refused : memory → call_refused (FEATURE_HOST, AtLeast 3 (Some napi_object)) (λ i, ends (PipeBulkTransfer i)).
Proof.
  intros [Hm _]. refuse. unfold with_context. eapply triple_bind; [exact (triple_memory _ (λ b, b = true) _ Hm)|]. intros ok. apply triple_pure. intros ->. cbn [negb].
  apply refusal_after; [apply triple_create_promise|]. intros [d result].
  eapply refuses_known; [by apply refuses_bulk_params|]. cbn [negb].
  eapply triple_bind; [apply triple_still; intros e He; by apply law_still_create_int32|]. intros v.
  eapply triple_bind; [apply triple_process_promise|]. intros []. by apply triple_ret.
Qed.
Lemma UsbSubmitTransfer_refused : memory → call_refused (FEATURE_HOST, AtLeast 1 (Some napi_object)) (λ i, ends (UsbSubmitTransfer uninit func uninit i)).
Proof.
  intros [_ Hm]. refuse. apply refusal_after; [by intros m'|]. intros m'.
  eapply triple_bind; [exact (triple_memory _ is_Some _ (Hm _))|]. intros ctx. apply triple_pure. intros [ctx' ->].
  eapply refuses_known; [by apply refuses_transfer_object|]. cbn [negb].
  eapply triple_bind; [apply triple_fail_again|]. intros []. by apply triple_ret.
Qed.
Lemma UsbCancelTransfer_refused : call_refused (FEATURE_HOST, AtLeast 1 (Some napi_object)) (λ i, ends (UsbCancelTransfer i)).
Proof.
  refuse. eapply refuses_known; [by apply refuses_transfer_object|]. cbn [negb].
  eapply triple_bind; [apply triple_fail_again|]. intros []. by apply triple_ret.
Qed.

Lemma UsbInit_refused : memory → Forall (λ p, ∀ c, signature_of p.1 = Some c → call_refused c p.2) (UsbInit others uninit func).
Proof.
  intros Hm. unfold UsbInit.
  repeat (apply Forall_cons; split; [intros c Hc; vm_compute in Hc; first [discriminate Hc|injection Hc as <-]; cbn [snd]|]); [..|by apply Forall_nil].
  all: first [by apply PipeBulkTransfer_refused|by apply UsbSubmitTransfer_refused|exact UsbCancelTransfer_refused|
    exact PipeControlTransfer_refused|exact PipeUsbControlTransfer_refused|exact PipeClaimInterfaceExclusive_refused|idtac].
  all: refuse.
Qed.

(** C12:  A call of a function of the module that is not supported by the device or
    whose arguments do not fit its line of the table of signatures ([signature_of])
    throws an error, with the code for a capability that
    is missing or for a wrong parameter: the service is not asked, nothing is queued
    or submitted, and no accessory is closed.  The table asks for a number of
    arguments at least and for the type of the first, but of claimInterfaceExclusive
    only for the number, and refuses too many only where there are to be none.  The
    engine has memory and no exception is pending before. *)
Theorem refused_calls_throw name f c args m : memory → (name, f) ∈ UsbInit others uninit func → signature_of name = Some c →
  pending (engine m) = None → (HasFeature O c.1 = true → ill_formed m c.2 args) →
  let m' := (f (Some args) m).2 in
  kept m m' ∧ script_heap (engine m) ⊆ script_heap (engine m') ∧
  thrown (if HasFeature O c.1 then OHEC_COMMON_PARAM_ERROR else CAPABILITY_NOT_SUPPORT) (engine m').
Proof.
  intros Hm Hf Hc Hp Ha. pose proof (proj1 (Forall_forall _ _) (UsbInit_refused Hm) _ Hf c Hc) as Hr. by apply (Hr args m Ha m).
Qed.

(** ** Devices and pipes *)

Lemma OpenDevice_copy d d' p (c : UsbSrvClient S P) : device_copy d d' → OpenDevice others d' p c = OpenDevice others d p c.
Proof. by intros (name & manufacturer & product & version & configs & _ & _ & _ & _ & _ & ->). Qed.
Lemma OpenDevice_pipe d p (c : UsbSrvClient S P) : (OpenDevice others d p c).1.1 = UEC_OK →
  (OpenDevice others d p c).1.2 = {| pipe_busNum_ := UsbDevice.busNum_ d; pipe_devAddr_ := UsbDevice.devAddr_ d |}.
Proof.
  unfold OpenDevice, connected, call. run; cbn; try done; intros Hr; zbool; try done; by apply uec_not_OK in Hr.
Qed.
Lemma getDevices_answers ds c m0 : HasFeature O FEATURE_HOST = true → GetDevices others [] (g_usbClient m0) = ((UEC_OK, ds), c) →
  Forall dev_ok ds → triple (at_rest m0) (CoreGetDevices others (Some [])) (λ v m, returns m0 c (JArray (map device_tree ds)) v m).
Proof.
  intros HF Hc Hds. apply triple_with_metrics; [apply _..|]. apply with_feature; [done|]. apply with_assert; [done|].
  eapply triple_bind; [by apply triple_on_client|]. intros r. apply triple_pure. intros ->. cbn beta iota.
  eapply triple_eq; [|by apply triple_build, Builds_devices]. intros m. rewrite on_engine_bind. rewrite !bind_run.
  destruct (on_engine napi_create_array m) as [result m1]. change (negb (UEC_OK =? UEC_OK)) with false. cbn iota beta. rewrite on_engine_bind, !bind_run.
  destruct (on_engine (devices_array ds _) _) as [[] m2]. by destruct m2.
Qed.
Lemma pipe_argument_reads p u m : pipe_ok p → pending (engine m) = None → Reads (script_heap (engine m)) (pipe_tree p) u →
  (pipe_argument u m).1 = p.
Proof.
  intros Hp He Hu. destruct (triple_parse (λ v, ParseUsbDevicePipe v new_pipe) _ _ u m (Parses_pipe p new_pipe Hp) Hu m) as [Heq _]; [done|].
  by rewrite Heq.
Qed.
Definition permission_code (ret : Z) : bool := (ret =? uec UEC_SERVICE_PERMISSION_DENIED) || (ret =? uec UEC_INTERFACE_PERMISSION_DENIED).
Definition connected_to m0 ret p (c : UsbSrvClient S P) (u : napi_value) m : Prop :=
  if ret =? UEC_OK then returns m0 c (pipe_tree p) u m
  else if permission_code ret then answered_with_error m0 c UEC_COMMON_HAS_NO_RIGHT m
  else answered m0 c m.
#[export] Instance connected_to_indifferent m0 ret p c u : Indifferent (connected_to m0 ret p c u).
Proof. unfold connected_to. repeat case_match; apply _. Qed.
Lemma connectDevice_answers w d m0 : HasFeature O FEATURE_HOST = true → dev_ok d → Reads (script_heap (engine m0)) (device_tree d) w →
  let '((ret, p), c) := OpenDevice others d new_pipe (g_usbClient m0) in
  triple (at_rest m0) (CoreConnectDevice others uninit (Some [w])) (connected_to m0 ret p c).
Proof.
  intros HF Hd Hw. destruct (OpenDevice others d new_pipe (g_usbClient m0)) as [[ret p] c] eqn:Ho.
  apply triple_with_metrics; [apply _..|]. apply with_feature; [done|]. apply with_arguments; [done|].
  eapply with_type; [exact Hw|done|].
  eapply triple_bind; [by eapply (triple_parse _ _ (device_copy d)); [apply Parses_device|exact Hw]|].
  intros d'. apply triple_pure. intros Hd'. eapply triple_bind.
  { apply triple_on_client. rewrite (OpenDevice_copy _ _ _ _ Hd'). exact Ho. }
  intros r. apply triple_pure. intros ->. cbn beta iota. unfold connected_to.
  destruct (Z.eqb_spec ret UEC_OK) as [->|Hr].
  - apply triple_build, Builds_pipe. pose proof (OpenDevice_pipe d new_pipe (g_usbClient m0)) as Hp. rewrite Ho in Hp.
    specialize (Hp eq_refl). cbn in Hp. subst p. destruct Hd as (? & ? & _). done.
  - fold (permission_code ret). destruct (permission_code ret); [|apply triple_answer_undefined].
    eapply triple_bind; [by apply triple_answer_error|]. intros []. by apply triple_ret.
Qed.

(** C15:  A script that connects one of the devices that [getDevices] answered with
    opens that device: the service is asked for the bus and the address of the
    device, the pipe that the script gets names them, and a refusal for want of the
    right is thrown. *)
Theorem connect_opens_what_was_got ds c m0 : HasFeature O FEATURE_HOST = true → pending (engine m0) = None →
  GetDevices others [] (g_usbClient m0) = ((UEC_OK, ds), c) → Forall dev_ok ds →
  let '(v, m1) := CoreGetDevices others (Some []) m0 in
  g_usbClient m1 = c ∧
  ∃ ws, script_heap (engine m1) !! v = Some (SArray ws) ∧ length ws = length ds ∧
  ∀ i w d m2, ws !! i = Some w → ds !! i = Some d → same_objects (engine m1) (engine m2) →
    let '((ret, p), c') := OpenDevice others d new_pipe (g_usbClient m2) in
    let '(u, m3) := CoreConnectDevice others uninit (Some [w]) m2 in
    connected_to m2 ret p c' u m3 ∧
    (ret = UEC_OK → p = {| pipe_busNum_ := UsbDevice.busNum_ d; pipe_devAddr_ := UsbDevice.devAddr_ d |} ∧
       ∀ m4, same_objects (engine m3) (engine m4) → (pipe_argument u m4).1 = p).
Proof.
  intros HF Hp Hc Hds. pose proof (getDevices_answers ds c m0 HF Hc Hds m0 ltac:(done)) as Hg.
  destruct (CoreGetDevices others (Some []) m0) as [v m1], Hg as (Hc1 & _ & Hp1 & Hv). cbn [fst snd] in *. split; [done|].
  apply Reads_array in Hv as (ws & Hv & Hws). exists ws. split; [done|].
  split; [by rewrite <- (Forall2_length _ _ _ Hws), length_map|]. intros i w d m2 Hw Hd Hm2.
  destruct (Forall2_lookup_r _ _ _ _ _ Hws Hw) as (t & Ht & Hr). rewrite list_lookup_fmap, Hd in Ht. injection Ht as <-.
  assert (dev_ok d) as Hok by (eapply Forall_lookup_1; eauto).
  assert (pending (engine m2) = None) as Hp2 by (by destruct Hm2 as [_ ->]).
  pose proof (connectDevice_answers w d m2 HF Hok) as Ha. pose proof (OpenDevice_pipe d new_pipe (g_usbClient m2)) as Hpipe.
  destruct (OpenDevice others d new_pipe (g_usbClient m2)) as [[ret p] c']. specialize (Ha ltac:(eapply Reads_mono; [apply Hm2|done])).
  specialize (Ha m2 ltac:(done)). destruct (CoreConnectDevice others uninit (Some [w]) m2) as [u m3]. cbn [fst snd] in *.
  split; [done|]. intros ->. specialize (Hpipe eq_refl). cbn in Hpipe. subst p. split; [done|]. intros m4 Hm4. unfold connected_to in Ha. cbn in Ha.
  destruct Ha as (_ & _ & Hp3 & Hu).
  apply pipe_argument_reads; [by destruct Hok as (? & ? & _)|by destruct Hm4 as [_ ->]|]. eapply Reads_mono; [apply Hm4|done].
Qed.
End Theorems.
