(* ===== verification/UsbInfoPromises.v ===== *)
(** * Promises of the JavaScript module: theorems

    What the promise of a request is settled with, and where the bytes of a transfer
    come from and go to. *)
From S2P Require Import Prelude UsbErrors Platform UsbAccessory UsbDevice UsbDescriptorParser UsbPortManager UsbInterfaceType UsbHostManager UsbHostTransfer UsbService UsbServiceHost UsbServiceSerial UsbSrvClient UsbSrvClientProofs UsbSrvClientSteps UsbTransferCallbacks UsbUtilities NapiUtil UsbInfoParse UsbInfo UsbInfoAsync NapiLaws UsbInfoRoundTrip UsbInfoProofs.

Section Promises.
Context {S P E O : Type} `{!IUsbServer S, !ClientPlatform P, !ErrCodeBase, !Napi E, !SecureC, !NapiSystem O, !NapiView E, !NapiLaws E}.
Context (others : state (UsbSrvClient S P) ()) (uninit_length : Z).
Abbreviation US := (UsbInfo S P E O).
Abbreviation CL := (UsbSrvClient S P).
Implicit Types m : US.

(** ** Answers *)

(** What a promise is settled with: whether it is resolved, and the value. *)
Definition Answer : Type := bool * cjson.
Definition error_answer (errCode : Z) : Answer := (false, error_tree errCode (default "" (GetErrMsgByErrCode errCode))).
Definition accessory_answer (ret : Z) (result : bool) : Answer :=
  if ret =? UEC_OK then (true, JBool result)
  else if ret =? uec UEC_SERVICE_ACCESSORY_NOT_MATCH then error_answer UEC_ACCESSORY_NOT_MATCH
  else if ret =? uec UEC_SERVICE_DATABASE_OPERATION_FAILED then error_answer UEC_COMMON_RIGHT_DATABASE_ERROR
  else error_answer UEC_COMMON_SERVICE_EXCEPTION.
Definition function_answer (ret : Z) : Answer :=
  if ret =? UEC_OK then (true, JBool true)
  else if ret =? uec UEC_SERVICE_PERMISSION_DENIED_SYSAPI then error_answer OHEC_COMMON_NORMAL_APP_NOT_ALLOWED
  else if ret =? uec UEC_SERVICE_PERMISSION_DENIED_SYSAPI_FAILED then error_answer OHEC_COMMON_PERMISSION_NOT_ALLOWED
  else if ret =? uec UEC_SERVICE_PERMISSION_CHECK_HDC then error_answer UEC_COMMON_HDC_NOT_ALLOWED
  else if ret =? uec UEC_SERVICE_FUNCTION_NOT_SUPPORT then error_answer UEC_COMMON_FUNCTION_NOT_SUPPORT
  else (false, JBool false).
Definition port_answer (ret : Z) : Answer :=
  if ret =? UEC_OK then (true, JBool true)
  else if ret =? uec UEC_SERVICE_PERMISSION_DENIED_SYSAPI then error_answer OHEC_COMMON_NORMAL_APP_NOT_ALLOWED
  else if ret =? uec UEC_SERVICE_PERMISSION_DENIED_SYSAPI_FAILED then error_answer OHEC_COMMON_PERMISSION_NOT_ALLOWED
  else if ret =? uec UEC_SERVICE_NOT_SUPPORT_SWITCH_PORT then error_answer UEC_COMMON_PORTROLE_SWITCH_NOT_ALLOWED
  else (false, JBool false).
(** The question to the service, and the answer to the script that follows. *)
Definition asks (r : Request) : option (state CL Answer) :=
  match r with
  | RightRequest deviceName => Some (ret ← RequestRight others deviceName; mret (true, JBool (ret =? UEC_OK)))
  | AccessoryRightRequest accessory _ _ =>
      Some ('(ret, result) ← RequestAccessoryRight others accessory false; mret (accessory_answer ret result))
  | FunctionRequest functions _ _ => Some (ret ← UsbSrvClient.SetCurrentFunctions others functions; mret (function_answer ret))
  | PortRoleRequest portId powerRole dataRole _ _ =>
      Some (ret ← SetPortRole others portId powerRole dataRole; mret (port_answer ret))
  | _ => None
  end.
(** The last thing the engine does is to settle the promise with a value that reads as
    the answer. *)
Definition settles (d : napi_deferred) (a : Answer) (e e' : E) : Prop := ∃ e1 v,
  script_heap e ⊆ script_heap e1 ∧ pending e1 = None ∧ Reads (script_heap e1) a.2 v ∧
  e' = ((if a.1 then napi_resolve_deferred d v else napi_reject_deferred d v) e1).2.

(** ** Completion *)

Definition reply (r : Request) (status : bool) : Answer :=
  let transferred (t : TransferContext) := (true, JNumber (if status then to_i32 (dataSize t) else -1)) in
  match r with
  | RightRequest _ => (true, JBool status)
  | AccessoryRightRequest _ hasRight errCode => accessory_answer errCode hasRight
  | FunctionRequest _ errCode _ => function_answer errCode
  | PortRoleRequest _ _ _ errCode _ => port_answer errCode
  | ControlTransferRequest _ _ _ _ _ t => transferred t
  | UsbControlTransferRequest _ _ _ _ _ t => transferred t
  | BulkTransferRequest _ t => transferred t
  end.
(** A settlement that says [a], from the state [m0]. *)
Definition says (a : Answer) (m0 : US) (s : settlement) m : Prop :=
  s.1.1 = a.1 ∧ kept m0 m ∧ script_heap (engine m0) ⊆ script_heap (engine m) ∧ pending (engine m) = None ∧ Reads (script_heap (engine m)) a.2 s.1.2.
#[export] Instance says_indifferent a m0 s : Indifferent (says a m0 s).
Proof. by split; intros [] x (? & [] & ?). Qed.
Lemma says_built (f : state E napi_value) t b code m0 : Builds f t →
  triple (at_rest m0) (v ← on_engine f; mret (b, v, code)) (says (b, t) m0).
Proof.
  intros Hf. eapply (triple_bind _ (λ v m, says (b, t) m0 (b, v, code) m)); [|intros v; by apply triple_ret].
  intros m (Hk & [[Hs _] _] & Hp). unfold on_engine, zoom. specialize (Hf (engine m) Hp). destruct (f (engine m)) as [v e]. cbn [fst snd] in *.
  split; [done|]. split; [by apply kept_engine|]. cbn [fst snd]. rewrite engine_set.
  split; [|split; [apply Hf|by eapply built_reads]]. etransitivity; [exact Hs|]. by eapply built_grows.
Qed.
Lemma string_app_nil s : s +:+ EmptyString = s.
Proof. induction s as [|c s IH]; [done|]. exact (f_equal (String c) IH). Qed.
Lemma says_error errCode m0 : known_code errCode = true → triple (at_rest m0) (rejected errCode) (says (error_answer errCode) m0).
Proof.
  intros [[msg Hm]%bool_decide_eq_true Hz%bool_decide_eq_true]%andb_true_iff. unfold error_answer. rewrite Hm. apply says_built.
  pose proof (Builds_error errCode "" msg Hm Hz) as Hb. by rewrite string_app_nil in Hb.
Qed.
Lemma says_bool b x code m0 : triple (at_rest m0) (v ← bool_value x; mret (b, v, code)) (says (b, JBool x) m0).
Proof. apply says_built, Builds_bool. Qed.
Lemma says_transfer status t m0 :
  triple (at_rest m0) (transfer_result status t) (says (true, JNumber (if status then to_i32 (dataSize t) else -1)) m0).
Proof.
  unfold transfer_result. destruct status; apply says_built, Builds_int; [|done]. apply to_i32_range.
Qed.
Lemma complete_request_says r status m0 : triple (at_rest m0) (complete_request r status) (says (reply r status) m0).
Proof.
  destruct r; cbn [complete_request reply]; try apply says_transfer; try apply says_bool.
  all: unfold g_requestRightComplete, g_requestAccessoryRightComplete, g_setCurrentFunctionComplete, g_setPortRoleComplete,
    accessory_answer, function_answer, port_answer; repeat case_match; first [apply says_bool|by apply says_error].
Qed.
Lemma complete_settles c d m : deferred c = Some d → pending (engine m) = None →
  let m' := (complete c m).2 in
  kept m m' ∧ settles d (reply (request_of c) (succeeded c)) (engine m) (engine m').
Proof.
  intros Hd Hp. enough (triple (at_rest m) (complete c) (λ _ m', kept m m' ∧ settles d (reply (request_of c) (succeeded c)) (engine m) (engine m')))
    as Ht by (by apply Ht).
  unfold complete. eapply triple_bind; [apply complete_request_says|]. intros [[resolve v] code].
  eapply (triple_bind _ (λ _, says (reply (request_of c) (succeeded c)) m (resolve, v, code))).
  { destruct (work_metrics c) as [x|]; [exact (triple_destroy_metrics _ _ (says_indifferent _ _ _))|by apply triple_ret]. }
  intros [] m1 (Hr & Hk & Hs & Hp1 & Hv). rewrite Hd. unfold ProcessPromise, on_engine, zoom. cbn [fst snd] in *. subst resolve.
  match goal with |- context [let '(_, _) := ?f in _] => destruct f as [[] e] eqn:He end.
  cbn [snd]. split; [by apply kept_engine|]. rewrite engine_set. exists (engine m1), v. split; [done|]. split; [done|]. split; [done|].
  by destruct (reply _ _) as [[] t]; cbn [fst snd] in *; rewrite He.
Qed.

(** ** Execution *)

Lemma run_execute_run k c m : works m !! k = Some (false, c) →
  (run_execute others uninit_length k m).2 =
    let '(c', m1) := execute others uninit_length c m in set_works (<[k := (true, c')]> (works m1)) m1.
Proof.
  intros Hk. unfold run_execute. rewrite bind_run. cbn [get fst snd]. rewrite Hk, bind_run.
  by destruct (execute others uninit_length c m) as [c' m1].
Qed.
Lemma run_complete_run k c m : works m !! k = Some (true, c) →
  (run_complete k m).2 = (complete c (set_works (delete k (works m)) m)).2.
Proof. intros Hk. unfold run_complete. rewrite bind_run. cbn [get fst snd]. by rewrite Hk. Qed.
(** Executing looks at the clock first. *)
Lemma execute_run c m : ∃ x o, let '((r, status), m1) := execute_request others uninit_length (request_of c) (succeeded c) (set_system o m) in
  execute others uninit_length c m = ({| deferred := deferred c; succeeded := status; work_metrics := Some x; request_of := r |}, m1).
Proof.
  unfold execute, new_metrics, on_system. run_unfold. destruct (gettimeofday (system m)) as [now o].
  exists (UsbApiMetrics.construct (metrics_name (request_of c)) now), o. by destruct (execute_request _ _ _ _ _) as [[r status] m1].
Qed.
(** Asking the service touches nothing else. *)
Lemma execute_asks r status q m : asks r = Some q →
  let '((r', status'), m1) := execute_request others uninit_length r status m in
  reply r' status' = (q (g_usbClient m)).1 ∧ m1 = set_client (q (g_usbClient m)).2 m.
Proof.
  destruct r; intros [= <-]; cbn [execute_request];
    unfold g_requestRightExecute, g_requestAccessoryRightExecute, g_setCurrentFunctionExecute, g_setPortRoleExecute, on_client; run; done.
Qed.

(** C39:  The promise of a request for a right, a function or the roles of a port is
    settled once, by the completion that takes the work out of the queue, with the
    value or the error that stands for the answer of the service to that request at
    the time it was executed, whatever has happened in between. *)
Theorem promises_settle k c d q m : works m !! k = Some (false, c) → deferred c = Some d → asks (request_of c) = Some q →
  let m1 := (run_execute others uninit_length k m).2 in
  let '(answer, cl) := q (g_usbClient m) in
  engine m1 = engine m ∧ g_usbClient m1 = cl ∧ ∃ c', works m1 = <[k := (true, c')]> (works m) ∧
  ∀ k2 m2, works m2 !! k2 = Some (true, c') → pending (engine m2) = None →
    let m3 := (run_complete k2 m2).2 in
    works m3 = delete k2 (works m2) ∧ g_usbClient m3 = g_usbClient m2 ∧ settles d answer (engine m2) (engine m3).
Proof.
  intros Hk Hd Hq. cbn zeta. rewrite (run_execute_run _ _ _ Hk). destruct (execute_run c m) as (x & o & He).
  pose proof (execute_asks (request_of c) (succeeded c) q (set_system o m) Hq) as Ha.
  destruct (execute_request _ _ _ _ _) as [[r status] m1], Ha as [Ha ->]. rewrite He.
  replace (g_usbClient (set_system o m)) with (g_usbClient m) in * by by destruct m.
  destruct (q (g_usbClient m)) as [answer cl]. cbn [fst snd] in *.
  split; [by destruct m|]. split; [by destruct m|]. eexists. split; [by destruct m|].
  intros k2 m2 Hk2 Hp2. rewrite (run_complete_run _ _ _ Hk2).
  destruct (complete_settles {| deferred := deferred c; succeeded := status; work_metrics := Some x; request_of := r |} d (set_works (delete k2 (works m2)) m2) Hd) as [[Hc _ Hw _ _] Hs]; [by destruct m2|].
  split; [rewrite Hw; by destruct m2|]. split; [rewrite Hc; by destruct m2|]. cbn [request_of succeeded] in Hs. rewrite Ha in Hs.
  by destruct m2.
Qed.

(** ** Bytes *)

Definition succeeds (ret : Z) (data : list Z) : bool := (ret =? UEC_OK) && negb (bool_decide (data = [])).
(** A transfer that sends: the buffer is a copy of the module's own. *)
Lemma execute_transfer_out transfer t l m : buffer t = NativeBuffer l → length l = Z.to_nat (bufferLength t) →
  (execute_transfer true false transfer t m).2 = set_client (transfer l (g_usbClient m)).2 m.
Proof.
  intros Hb Hl. unfold execute_transfer, vector_of, delete_buffer, on_client. rewrite Hb, take_ge by lia.
  run_unfold. destruct (transfer l (g_usbClient m)) as [[ret data] c]. by destruct (negb (ret =? UEC_OK)).
Qed.
(** A transfer that receives: the bytes of the script's array are read, and what has
    come is written over the beginning of it. *)
Lemma execute_transfer_in transfer t p m : buffer t = ScriptBuffer p → 0 < bufferLength t <= SECUREC_MEM_MAX_LEN →
  let '(before, e) := read_bytes p (bufferLength t) (engine m) in
  let '((ret, data), cl) := transfer before (g_usbClient m) in
  let m' := (execute_transfer false true transfer t m).2 in
  g_usbClient m' = cl ∧
  engine m' = (if succeeds ret data then (write_bytes p (take (Z.to_nat (bufferLength t)) data) e).2 else e).
Proof.
  intros Hb Hn. unfold execute_transfer, vector_of, on_client, on_engine. rewrite Hb. run_unfold.
  destruct (read_bytes p (bufferLength t) (engine m)) as [before e]. cbn [fst snd buffer bufferLength set_buffer].
  replace (g_usbClient (set_engine e m)) with (g_usbClient m) by by destruct m.
  destruct (transfer before (g_usbClient m)) as [[ret data] cl]. unfold succeeds. destruct (ret =? UEC_OK) eqn:Hr; cbn [negb andb]; [|by destruct m].
  rewrite (proj2 (Z.ltb_lt 0 (bufferLength t))) by lia. destruct (bool_decide_reflect (data = [])) as [->|Hd]; cbn [negb andb]; [by destruct m|].
  assert (0 < length data)%nat by (destruct data; [done|cbn; lia]).
  rewrite (proj2 (Z.ltb_lt 0 (Z.of_nat (length data)))) by lia. cbn [andb]. unfold copy_to, on_engine.
  rewrite law_memcpy_s by (destruct (Z.ltb_spec (bufferLength t) (Z.of_nat (length data))); lia). cbn [negb]. run_unfold.
  replace (take (Z.to_nat (if _ <? _ then _ else _)) data) with (take (Z.to_nat (bufferLength t)) data)
    by (destruct (Z.ltb_spec (bufferLength t) (Z.of_nat (length data))); [done|rewrite Nat2Z.id, firstn_all, take_ge by lia; done]).
  destruct m as [? ? ? ? ? ? ? ? ?]. cbn. by destruct (write_bytes p _ e).
Qed.

(** ** Bulk transfers *)

(** The engine takes the work that it is given. *)
Definition works_are_taken : Prop := ∀ e : E, (napi_create_async_work e).1 = true ∧ (napi_queue_async_work e).1 = true.
Definition bulk_context (b : Buffer) (n : Z) (pipe : USBDevicePipe) : TransferContext :=
  {| buffer := b; bufferLength := n; dataSize := 0; timeOut := 0; pipe := pipe |}.
Lemma native_copy_run p n m : 0 < n <= SECUREC_MEM_MAX_LEN → (∀ o : O, (new_nothrow o).1 = true) →
  ∃ o, native_copy (Some p) n m = let '(l, e) := read_bytes p n (engine m) in (Some (NativeBuffer l), set_engine e (set_system o m)).
Proof.
  intros Hn Hm. unfold native_copy, on_system, on_engine. run_unfold. specialize (Hm (system m)).
  destruct (new_nothrow (system m)) as [ok o]. cbn in Hm. subst ok. cbn [negb]. rewrite law_memcpy_s by lia. cbn [negb]. run_unfold.
  exists o. by destruct m; destruct (read_bytes p n _).
Qed.
Lemma queue_work_run resource c m : works_are_taken → let m' := (queue_work resource c m).2 in
  works m' = works m ++ [(false, c)] ∧ g_usbClient m' = g_usbClient m.
Proof.
  intros Ht. unfold queue_work, on_engine. run_unfold. destruct (napi_create_string_utf8 resource (engine m)) as [v e1].
  rewrite engine_set. pose proof (proj1 (Ht e1)) as H1. destruct (napi_create_async_work e1) as [b1 e2]. cbn in H1. subst b1.
  rewrite engine_set. pose proof (proj2 (Ht e2)) as H2. destruct (napi_queue_async_work e2) as [b2 e3]. cbn in H2. subst b2.
  by destruct m.
Qed.
Definition is_array (n : Z) (p : data_ptr) (a : napi_value) m : Prop := script_heap (engine m) !! a = Some (SBytes napi_uint8_array n (Some p)).
Definition array_holds (p : data_ptr) (l : list Z) m : Prop := script_bytes (engine m) !! p = Some l.
Lemma array_argument n p a m0 : is_array n p a m0 →
  triple (at_rest m0) (on_engine (JsUint8ArrayParseReserveZeroBuffer a)) (λ r m, r = (true, (Some p, n)) ∧ at_rest m0 m).
Proof.
  intros Ha. apply (triple_on_engine _ (λ r, r = (true, (Some p, n)))). intros e [[Hc _] _] Hp. pose proof (lookup_weaken _ _ _ _ Ha Hc) as Ha'.
  unfold JsUint8ArrayParseReserveZeroBuffer. rewrite bind_run. pose proof (law_is_typedarray e a _ _ _ Hp Ha') as Hl.
  destruct (napi_is_typedarray a e) as [r e1], Hl as [-> Hc1]. cbn [negb orb fst snd]. rewrite bind_run.
  assert (pending e1 = None) as Hp1 by (by destruct Hc1 as [[_ ->] _]).
  pose proof (law_typedarray e1 a _ _ _ Hp1 (lookup_weaken _ _ _ _ Ha' (proj1 (proj1 Hc1)))) as Hl.
  destruct (napi_get_typedarray_info a e1) as [r e2], Hl as [-> Hc2]. cbn. split; [done|]. by etransitivity.
Qed.
(** The bytes of the array at the call, or the array itself. *)
Definition array_buffer (p : data_ptr) (l : list Z) (out : bool) : Buffer := if out then NativeBuffer l else ScriptBuffer p.
Definition sends (e : USBEndpoint.t) : bool := USBEndpoint.GetDirection e =? USB_ENDPOINT_DIR_OUT.
Lemma bulk_data n p l a e m0 : is_array n p a m0 → array_holds p l m0 → n = Z.of_nat (length l) → 0 < n <= SECUREC_MEM_MAX_LEN → n < 2 ^ 32 →
  (∀ o : O, (new_nothrow o).1 = true) →
  triple (at_rest m0) (GetDescriptorOnBulkTransferParam a e) (λ r m, r = Some (array_buffer p l (sends e), n) ∧ kept m0 m).
Proof.
  intros Ha Hl Hlen Hn Hn' Hm. unfold GetDescriptorOnBulkTransferParam. eapply triple_bind; [by apply array_argument|].
  intros r. apply triple_pure. intros ->. cbn [negb]. unfold array_buffer, sends. rewrite (proj2 (Z.ltb_lt 0 n)), andb_true_r by lia.
  replace (to_u32 n) with n by (unfold to_u32; rewrite Z.mod_small; lia).
  destruct (USBEndpoint.GetDirection e =? USB_ENDPOINT_DIR_OUT); [|by intros m (Hk & _)].
  intros m (Hk & [_ Hb] & _). rewrite bind_run. destruct (native_copy_run p n m Hn Hm) as (o & Hr). rewrite Hr.
  destruct (law_read_bytes (engine m) p l n (lookup_weaken _ _ _ _ Hl Hb)) as [Hread _]; [lia|]. rewrite take_ge in Hread by lia.
  destruct (read_bytes p n (engine m)) as [l' e']. cbn in *. subst l'. split; [done|by destruct Hk, m].
Qed.
Lemma with_type_unchecked {A} (r : A) v t msg (k : state US A) m0 tr Q : Reads (script_heap (engine m0)) tr v → tree_type tr = t →
  triple (at_rest m0) k Q → triple (at_rest m0) (of_type_unchecked r v t msg k) Q.
Proof.
  intros Hv Ht Hk. destruct (Reads_type _ _ _ Hv) as (s & Hs & Hst). unfold of_type_unchecked. eapply triple_bind; [by apply triple_typeof|].
  intros x. apply triple_pure. intros ->. apply with_assert; [|done]. apply bool_decide_eq_true. congruence.
Qed.
(** The arguments of [bulkTransfer]: a pipe, an endpoint, and an array of [l]. *)
Record bulk_arguments n p l u w a q e m0 : Prop := {
  bulk_pipe_ok : pipe_ok q;
  bulk_ep_ok : ep_ok e;
  bulk_pipe : Reads (script_heap (engine m0)) (pipe_tree q) u;
  bulk_endpoint : Reads (script_heap (engine m0)) (endpoint_tree e) w;
  bulk_array : is_array n p a m0;
  bulk_bytes : array_holds p l m0;
  bulk_length : n = Z.of_nat (length l);
  bulk_size : 0 < n <= SECUREC_MEM_MAX_LEN;
  bulk_u32 : n < 2 ^ 32;
}.
(** The device can host, there is memory, and the engine takes works. *)
Definition able : Prop := HasFeature O FEATURE_HOST = true ∧ (∀ o : O, (new_nothrow o).1 = true) ∧ works_are_taken.
Lemma bulk_params n p l u w a q e m0 : bulk_arguments n p l u w a q e m0 → (∀ o : O, (new_nothrow o).1 = true) →
  triple (at_rest m0) (GetBulkTransferParams (Some [u; w; a]))
    (λ r m, r = (true, (e, bulk_context (array_buffer p l (sends e)) n q)) ∧ kept m0 m).
Proof.
  intros [Hq He Hu Hw Ha Hl Hlen Hn Hn'] Hm. apply with_assert; [done|]. eapply with_type_unchecked; [exact Hu|done|].
  eapply triple_bind; [by eapply (triple_parse (λ v, ParseUsbDevicePipe v new_pipe)); [apply Parses_pipe|]|].
  intros q'. apply triple_pure. intros <-. eapply with_type_unchecked; [exact Hw|done|].
  eapply triple_bind; [by eapply (triple_parse (λ v, ParseEndpointObj v USBEndpoint.default_)); [apply Parses_endpoint|]|].
  intros e'. apply triple_pure. intros <-. eapply (triple_bind _ (λ z m, z = 0 ∧ at_rest m0 m)); [by intros m|].
  intros z. apply triple_pure. intros ->. eapply triple_bind; [by eapply bulk_data|]. intros r. apply triple_pure. intros ->. by intros m Hk.
Qed.
Definition bulk_work (d : option napi_deferred) p l n q e : USBAsyncContext := {| deferred := d; succeeded := true; work_metrics := None;
  request_of := BulkTransferRequest e (bulk_context (array_buffer p l (sends e)) n q) |}.
Lemma bulk_is_queued n p l u w a q e m0 : bulk_arguments n p l u w a q e m0 → able →
  triple (at_rest m0) (PipeBulkTransfer (Some [u; w; a])) (λ _ m1, g_usbClient m1 = g_usbClient m0 ∧ ∃ d,
    works m1 = works m0 ++ [(false, bulk_work d p l n q e)]).
Proof.
  intros Hargs (HF & Hm & Ht). unfold PipeBulkTransfer, feature_or_throw. rewrite HF. cbn [negb]. unfold with_context.
  eapply triple_bind; [exact (triple_memory _ (λ b, b = true) _ Hm)|]. intros ok. apply triple_pure. intros ->. cbn [negb].
  eapply triple_bind; [apply triple_create_promise|]. intros [d result].
  eapply triple_bind; [by eapply bulk_params|]. intros r. apply triple_pure. intros ->. cbn [negb].
  intros m Hk. rewrite bind_run. destruct (queue_work_run "PipeBulkTransfer" (bulk_work d p l n q e) m Ht) as [Hworks Hc].
  unfold bulk_work in *. cbn [mret state_ret fst snd]. split; [by rewrite Hc, (kept_client _ _ Hk)|]. exists d. by rewrite Hworks, (kept_works _ _ Hk).
Qed.
(** What the execution of a bulk transfer does. *)
Lemma bulk_executes k d p l n q e m : works m !! k = Some (false, bulk_work d p l n q e) →
  ∃ o, let m' := (execute_transfer (sends e) (negb (sends e)) (λ data, BulkTransfer q e data 0)
                    (bulk_context (array_buffer p l (sends e)) n q) (set_system o m)).2 in
  engine (run_execute others uninit_length k m).2 = engine m' ∧ g_usbClient (run_execute others uninit_length k m).2 = g_usbClient m'.
Proof.
  intros Hk. rewrite (run_execute_run _ _ _ Hk). destruct (execute_run (bulk_work d p l n q e) m) as (x & o & He).
  exists o. cbn [bulk_work request_of succeeded execute_request] in He. unfold g_bulkTransferExecute in He. rewrite bind_run in He.
  replace (USBEndpoint.GetDirection e =? USB_ENDPOINT_DIR_IN) with (negb (sends e)) in He
    by (unfold sends; by destruct (GetDirection_cases e) as [-> | ->]).
  cbn [pipe timeOut bulk_context] in He. unfold sends in *. destruct (execute_transfer _ _ _ _ _) as [[t ok] m1]. cbn [fst snd mret state_ret] in *.
  rewrite He. by destruct m1.
Qed.
Lemma received_in_bounds p l data e : script_bytes e !! p = Some l →
  script_bytes (write_bytes p (take (length l) data) e).2 = <[p := take (length l) data ++ drop (length data) l]> (script_bytes e).
Proof.
  intros Hl. rewrite (law_write_bytes e p l) by (done || rewrite length_take; lia). f_equal. f_equal. rewrite length_take.
  destruct (decide (length data <= length l)%nat); [by rewrite Nat.min_r by lia|]. by rewrite !drop_ge by lia.
Qed.

(** C37:  A bulk transfer of an array of the script sends the bytes that the array had
    when the script asked for it, whatever has become of the array since, and touches
    the script no more; a transfer in the other direction writes what has come over
    the beginning of the array, never beyond its end, and nothing if it failed. *)
Theorem bulk_transfer_moves_the_array n p l u w a q e m0 : bulk_arguments n p l u w a q e m0 → able → pending (engine m0) = None →
  let m1 := (PipeBulkTransfer (Some [u; w; a]) m0).2 in
  g_usbClient m1 = g_usbClient m0 ∧ ∃ c, works m1 = works m0 ++ [(false, c)] ∧
  ∀ k m2, works m2 !! k = Some (false, c) →
    let m3 := (run_execute others uninit_length k m2).2 in
    if sends e then
      g_usbClient m3 = (BulkTransfer q e l 0 (g_usbClient m2)).2 ∧ engine m3 = engine m2
    else ∀ now, array_holds p now m2 → length now = length l →
      let '((ret, data), cl) := BulkTransfer q e now 0 (g_usbClient m2) in
      g_usbClient m3 = cl ∧
      script_bytes (engine m3) = (if succeeds ret data
        then <[p := take (length now) data ++ drop (length data) now]> (script_bytes (engine m2)) else script_bytes (engine m2)).
Proof.
  intros Hargs Hable Hp. destruct (bulk_is_queued n p l u w a q e m0 Hargs Hable m0) as (Hc & d & Hworks); [done|].
  destruct Hargs as [_ _ _ _ _ _ Hlen Hn _]. split; [done|]. eexists. split; [exact Hworks|]. intros k m2 Hk.
  destruct (bulk_executes _ _ _ _ _ _ _ _ Hk) as (o & Heng & Hcl). cbn zeta. rewrite Heng, Hcl.
  unfold array_buffer. destruct (sends e); cbn [negb].
  - rewrite (execute_transfer_out _ _ l) by (cbn; lia || done). by destruct m2.
  - intros now Hnow Hl.
    pose proof (execute_transfer_in (λ data, BulkTransfer q e data 0) (bulk_context (ScriptBuffer p) n q) p (set_system o m2) eq_refl Hn) as Hi.
    cbn [bufferLength bulk_context] in Hi. replace (engine (set_system o m2)) with (engine m2) in Hi by by destruct m2.
    replace (g_usbClient (set_system o m2)) with (g_usbClient m2) in Hi by by destruct m2.
    destruct (law_read_bytes (engine m2) p now n Hnow) as [Hread Hsame]; [lia|]. rewrite take_ge in Hread by lia.
    destruct (read_bytes p n (engine m2)) as [before e2]. cbn [fst snd] in *. subst before.
    destruct (BulkTransfer q e now 0 (g_usbClient m2)) as [[ret data] cl], Hi as [Hcl' Heng']. split; [done|]. rewrite Heng'.
    destruct (succeeds ret data); [|done]. replace (Z.to_nat n) with (length now) by lia.
    by rewrite (received_in_bounds p now), Hsame by (by rewrite Hsame).
Qed.
End Promises.
