(* ===== verification/UsbInfoExamples.v ===== *)
(** * The JavaScript module: a concrete script and the theorems at work

    A script in Alice's process, on the small engine of [NapiLaws] and the client library
    of [UsbSrvClientExamples]. *)
From S2P Require Import Prelude UsbErrors Platform UsbAccessory UsbDevice UsbDeviceTree UsbDescriptorParser UsbDescriptorTheorems UsbRightDatabase UsbRightDbHelper RightRecords UsbRightManager UsbRightManagerProofs RightTheorems UsbPortManager UsbDeviceManager SerialManager SerialTheorems UsbInterfaceType UsbHostManager UsbHostPolicy UsbHostTheorems UsbHostExamples UsbHostTransfer UsbService UsbServiceClaims UsbServiceHost UsbServiceDevice UsbServiceSerial UsbServiceLife UsbServiceSteps UsbServiceManagers UsbServiceTheorems UsbServiceExamples UsbSrvClient UsbSrvServer UsbSrvClientProofs UsbSrvClientSteps UsbSrvClientTheorems UsbSrvClientExamples UsbTransferCallbacks UsbUtilities NapiUtil UsbInfoParse UsbInfo UsbInfoAsync NapiLaws UsbInfoRoundTrip UsbInfoProofs UsbInfoTheorems UsbInfoPromises.

#[local] Existing Instance no_json.
#[local] Existing Instance demo_err_base.
#[local] Existing Instance demo_records.
#[local] Existing Instance demo_records_laws.
#[local] Existing Instance demo_right_service.
#[local] Existing Instance demo_right_laws.
#[local] Existing Instance alice_server.

(** A clock that ticks, memory without end, and everything built in. *)
#[local] Instance toy_system : NapiSystem Z := {|
  USB_MANAGER_FEATURE_HOST := true; USB_MANAGER_FEATURE_DEVICE := true; USB_MANAGER_FEATURE_PORT := true; USB_MANAGER_METRICS_ENABLE := true;
  gettimeofday := λ t, ((t, 0), t + 1); report h := λ t, ((), t); usb_owner_tag := 7;
  fdsan_exchange_owner_tag fd a b := λ t, ((), t); fdsan_close_with_tag fd tag := λ t, ((), t); close_fd fd := λ t, ((), t);
  new_nothrow := λ t, (true, t); new_context s := λ t, (Some (base.fresh s), t);
  CreateAshmem name n := λ t, (None, t); MapReadAndWriteAshmem a := λ t, ((), t); WriteToAshmem a d := λ t, (false, t);
  ReadFromAshmem a n := λ t, (None, t); UnmapAshmem a := λ t, ((), t); CloseAshmem a := λ t, ((), t);
|}.
Definition empty_engine : Engine := {| objects := ∅; exception := None; memory_ := ∅; settled_ := []; called_ := [] |}.
Abbreviation Script := (UsbInfo System (option RemoteObject) Engine Z).
Definition start : Script := Build_UsbInfo alice_client empty_engine 0 0 (UsbApiMetrics.construct "" (0, 0)) [] ∅ [] false.

(** *** What the code does with odd inputs *)

Definition error_code (m : Script) : option Z :=
  v ← exception (engine m); match heap_of (engine m) !! v with Some (SObject o) => c ← o !! "code"; number_of c (engine m) | _ => None end.
(** The script has a pipe, the two endpoints of the device, and an array of four bytes. *)
Definition the_array : data_ptr := 1000.
Definition endpoint_of (address : Z) : USBEndpoint.t := {|
  USBEndpoint.address_ := address; USBEndpoint.attributes_ := 2; USBEndpoint.interval_ := 0; USBEndpoint.maxPacketSize_ := 512;
  USBEndpoint.interfaceId_ := 0 |}.
Definition after_pipe : Engine := (CreateUsbDevicePipe the_pipe empty_engine).2.
Definition after_out : Engine := (CtoJSUsbEndpoint (endpoint_of 2) after_pipe).2.
Definition after_in : Engine := (CtoJSUsbEndpoint (endpoint_of 129) after_out).2.
Definition bytes_of_script : script_value := SBytes napi_uint8_array 4 (Some the_array).
Definition pipe_handle : napi_value := (CreateUsbDevicePipe the_pipe empty_engine).1.
Definition out_handle : napi_value := (CtoJSUsbEndpoint (endpoint_of 2) after_pipe).1.
Definition in_handle : napi_value := (CtoJSUsbEndpoint (endpoint_of 129) after_out).1.
Definition array_handle : napi_value := (make bytes_of_script after_in).1.
Definition prepared_engine : Engine := with_memory {[the_array := [1; 2; 3; 4]]} (make bytes_of_script after_in).2.
Definition prepared : Script := set_engine prepared_engine start.
Abbreviation with_property o k v m := (set_engine (napi_set_named_property o k v (engine m)).2 m).

(** An endpoint of a direction that does not exist is an error that is thrown, and a
    transfer from endpoint 0. *)
Definition wrong_direction : Script :=
  let '(v, e) := napi_create_int32 5 (engine prepared) in with_property in_handle "direction" v (set_engine e prepared).
Example a_wrong_direction_is_thrown_and_transferred :
  let m := (PipeBulkTransfer (Some [pipe_handle; in_handle; array_handle]) wrong_direction).2 in
  (error_code m, map (λ w, match request_of w.2 with BulkTransferRequest e _ => Some (USBEndpoint.address_ e) | _ => None end) (works m)) =
  (Some 401, [Some 0]).
Proof. vm_compute. reflexivity. Qed.

(** The service's calls noted. *)
Abbreviation Noted := (UsbInfo (logged System) (option RemoteObject) Engine Z).
Definition noted_start : Noted := Build_UsbInfo (set_callback (Some {| listeners_ := ∅ |}) noted) empty_engine 0 5 (UsbApiMetrics.construct "" (0, 0)) [] ∅ [] false.
Definition calls_of (m : Noted) := length (server_ (g_usbClient m)).1.
Definition quiet_noted : state (UsbSrvClient (logged System) (option RemoteObject)) () := mret ().
(** A claim without a pipe is an error and a claim; so is the closing of a handle
    that is not open, which closes the one that is. *)
Example a_claim_without_a_pipe_is_made :
  let m := (PipeClaimInterfaceExclusive quiet_noted 0 (Some [undefined_handle; undefined_handle]) noted_start).2 in
  (bool_decide (is_Some (exception (engine m))), calls_of m) = (true, 1%nat).
Proof. vm_compute. reflexivity. Qed.
Example a_wrong_handle_closes_the_accessory :
  let '(v, e) := (o ← napi_create_object; SetValueInt32 "accessoryFd" 4 o;; mret o) empty_engine in
  let m := (DeviceCloseAccessory quiet_noted 0 (Some [v]) (set_engine e noted_start)).2 in
  (bool_decide (is_Some (exception (engine m))), g_accFd m) = (true, 0).
Proof. vm_compute. reflexivity. Qed.

(** *** The theorems at work *)

Lemma enough_memory : memory (O := Z).
Proof. split; [done|by intros s o; eexists]. Qed.
Lemma refused_calls_throw_witness :
  let m' := (ends (CoreConnectDevice quiet 0 (Some [])) start).2 in
  kept start m' ∧ script_heap (engine start) ⊆ script_heap (engine m') ∧ thrown OHEC_COMMON_PARAM_ERROR (engine m').
Proof.
  assert (("connectDevice", λ i, ends (CoreConnectDevice quiet 0 i)) ∈ UsbInit (E := Engine) (O := Z) quiet 0 77) as Hf
    by (apply (list_elem_of_lookup_2 _ 1); reflexivity).
  refine (refused_calls_throw quiet 0 77 "connectDevice" _ (FEATURE_HOST, AtLeast 1 (Some napi_object)) [] start enough_memory Hf
    eq_refl eq_refl _).
  intros _. left. exact (le_n 1).
Defined.

(** The device at 1-2, as the library lists it. *)
Definition listed : list UsbDevice.t := (UsbSrvClient.GetDevices quiet [] alice_client).1.2.
Lemma listed_ok : Forall dev_ok listed.
Proof.
  rewrite (eq_refl : listed = ltac:(let x := eval vm_compute in listed in exact x)).
  repeat first [apply Forall_cons; split|apply Forall_nil|split]; cbn; try done; try (cbv; split; congruence).
Qed.
Definition first_device : UsbDevice.t := nth 0 listed UsbDevice.default_.
Lemma listed_one : listed = [first_device].
Proof. vm_compute. reflexivity. Qed.
Lemma first_bus : UsbDevice.busNum_ first_device = 1.
Proof. vm_compute. reflexivity. Qed.
Lemma first_address : UsbDevice.devAddr_ first_device = 2.
Proof. vm_compute. reflexivity. Qed.
Definition after_listing : UsbSrvClient System (option RemoteObject) := (UsbSrvClient.GetDevices quiet [] alice_client).2.
Lemma listing : UsbSrvClient.GetDevices quiet [] (g_usbClient start) = ((UEC_OK, listed), after_listing).
Proof. vm_compute. reflexivity. Qed.
Lemma opening : (OpenDevice quiet first_device new_pipe after_listing).1.1 = UEC_OK.
Proof. vm_compute. reflexivity. Qed.
(** The script connects the first device. *)
Lemma connect_opens_what_was_got_witness :
  let '(v, m1) := CoreGetDevices quiet (Some []) start in
  ∃ w, let '(u, m3) := CoreConnectDevice quiet 0 (Some [w]) m1 in
    (pipe_argument u m3).1 = {| pipe_busNum_ := 1; pipe_devAddr_ := 2 |}.
Proof.
  pose proof (connect_opens_what_was_got quiet 0 listed _ start eq_refl eq_refl listing listed_ok) as Hc.
  destruct (CoreGetDevices quiet (Some []) start) as [v m1], Hc as (Hm & ws & _ & Hl & Hc). rewrite listed_one in Hl.
  destruct ws as [|w ws]; [discriminate Hl|]. exists w.
  specialize (Hc 0%nat w first_device m1 eq_refl (f_equal (lookup 0%nat) listed_one) (reflexivity _)). rewrite Hm in Hc.
  pose proof opening as Ho. destruct (OpenDevice quiet first_device new_pipe after_listing) as [[ret p] c'].
  destruct (CoreConnectDevice quiet 0 (Some [w]) m1) as [u m3], Hc as [_ Hc]. destruct (Hc Ho) as [-> Hp].
  rewrite (Hp m3 (reflexivity _)), first_bus, first_address. reflexivity.
Defined.

(** Reading what has been prepared. *)
Lemma endpoint_of_ok address : in_u32 address → ep_ok (endpoint_of address).
Proof. intros Ha. split; [exact Ha|]. by repeat split. Qed.
Lemma built_pipe : built (pipe_tree the_pipe) empty_engine pipe_handle after_pipe.
Proof. apply (Builds_pipe the_pipe the_pipe_ok). reflexivity. Qed.
Lemma built_out : built (endpoint_tree (endpoint_of 2)) after_pipe out_handle after_out.
Proof. apply (Builds_endpoint _ (endpoint_of_ok 2 ltac:(done))). apply built_pipe. Qed.
Lemma in_grows : script_heap after_out ⊆ script_heap (engine prepared).
Proof.
  etransitivity; [eapply built_grows, (Builds_endpoint _ (endpoint_of_ok 129 ltac:(done)) after_out), built_out|].
  exact (makes_subseteq _ _ _ _ (make_makes bytes_of_script after_in)).
Qed.
Lemma pipe_reads : Reads (script_heap (engine prepared)) (pipe_tree the_pipe) pipe_handle.
Proof.
  eapply Reads_mono; [|exact (built_reads _ _ _ _ built_pipe)]. etransitivity; [exact (built_grows _ _ _ _ built_out)|exact in_grows].
Qed.
Lemma out_reads : Reads (script_heap (engine prepared)) (endpoint_tree (endpoint_of 2)) out_handle.
Proof. eapply Reads_mono; [exact in_grows|exact (built_reads _ _ _ _ built_out)]. Qed.
Lemma array_there : is_array 4 the_array array_handle prepared.
Proof. vm_compute. reflexivity. Qed.
Lemma toy_takes_works : works_are_taken (E := Engine).
Proof. by intros e. Qed.
(** The script asks for a transfer of [1; 2; 3; 4] and writes over the array: the
    service gets the four bytes. *)
Abbreviation asked := (PipeBulkTransfer (Some [pipe_handle; out_handle; array_handle]) prepared).2.
Definition overwritten (m : Script) : Script := set_engine (with_memory {[the_array := [9; 9; 9; 9]]} (engine m)) m.
Lemma works_overwritten m : works (overwritten m) = works m.
Proof. by destruct m. Qed.
Lemma the_arguments : bulk_arguments 4 the_array [1; 2; 3; 4] pipe_handle out_handle array_handle the_pipe (endpoint_of 2) prepared.
Proof.
  split; [exact the_pipe_ok|exact (endpoint_of_ok 2 ltac:(done))|exact pipe_reads|exact out_reads|exact array_there|vm_compute; reflexivity|reflexivity| |reflexivity].
  split; [reflexivity|discriminate].
Qed.
Lemma script_able : able (E := Engine) (O := Z).
Proof. split; [done|]. by split. Qed.
Lemma bulk_transfer_moves_the_array_witness :
  ∃ c, works asked = [(false, c)] ∧
  g_usbClient (run_execute quiet 0 0 (overwritten asked)).2 =
    (BulkTransfer the_pipe (endpoint_of 2) [1; 2; 3; 4] 0 (g_usbClient (overwritten asked))).2 ∧
  engine (run_execute quiet 0 0 (overwritten asked)).2 = engine (overwritten asked).
Proof.
  destruct (bulk_transfer_moves_the_array quiet 0 4 the_array [1; 2; 3; 4] pipe_handle out_handle array_handle the_pipe (endpoint_of 2) prepared
    the_arguments script_able eq_refl) as (_ & c & Hw & Hk).
  exists c. split; [exact Hw|]. refine (Hk 0%nat (overwritten asked) _).
  by rewrite works_overwritten, Hw.
Defined.

(** A waiting request for a right. *)
Definition waiting : USBAsyncContext :=
  {| deferred := Some 50; succeeded := true; work_metrics := None; request_of := RightRequest "1-2" |}.
Definition queued : Script := set_works [(false, waiting)] start.
Lemma promises_settle_witness :
  let m1 := (run_execute quiet 0 0 queued).2 in
  ∃ c', works m1 = [(true, c')] ∧
    settles 50 (true, JBool ((RequestRight quiet "1-2" (g_usbClient queued)).1 =? UEC_OK)) (engine m1) (engine (run_complete 0 m1).2).
Proof.
  pose proof (promises_settle quiet 0 0 waiting 50 _ queued eq_refl eq_refl eq_refl) as Hp. cbn zeta in *.
  rewrite bind_run in Hp. destruct (RequestRight quiet "1-2" (g_usbClient queued)) as [ret cl]. cbn [fst snd mret state_ret] in Hp.
  destruct Hp as (He & _ & c' & Hw & Hk). exists c'. split; [exact Hw|].
  destruct (Hk 0%nat _ (f_equal (lookup 0%nat) Hw)) as (_ & _ & Hs); [by rewrite He|exact Hs].
Defined.

Lemma first_ok : dev_ok first_device.
Proof. pose proof listed_ok as Hl. rewrite listed_one in Hl. exact (Forall_inv Hl). Qed.
(** Its name, its serial number and the power of its configuration. *)
Example what_comes_back :
  let '(d', _) := ParseDeviceObj 0 (CtoJSUsbDevice first_device empty_engine).1 (CtoJSUsbDevice first_device empty_engine).2 in
  (UsbDevice.name_ d', UsbDevice.serial_ d', map USBConfig.maxPower_ (UsbDevice.configs_ d')) = ("1-2", "", [100]).
Proof. vm_compute. reflexivity. Qed.
