(* ===== verification/SerialInfoTheorems.v ===== *)
(** * The serial functions of the JavaScript module: theorems

    What the functions answer to numbers, which bytes go to the service and to the
    arrays of the script, and what promises are settled with. *)
From S2P Require Import Prelude UsbErrors Platform UsbAccessory UsbRightDatabase UsbRightDbHelper RightRecords UsbRightManager UsbRightManagerProofs RightTheorems UsbDeviceManager UsbPortManager UsbDevice UsbDeviceTree UsbDescriptorParser UsbDescriptorTheorems SerialManager SerialTheorems UsbInterfaceType UsbHostManager UsbHostPolicy UsbHostTheorems UsbHostExamples UsbHostTransfer UsbService UsbServiceClaims UsbServiceHost UsbServiceDevice UsbServiceSerial UsbServiceLife UsbServiceSteps UsbServiceManagers UsbServiceTheorems UsbServiceExamples UsbSrvClient UsbSrvServer UsbSrvClientProofs UsbSrvClientSteps UsbSrvClientTheorems UsbSrvClientExamples UsbTransferCallbacks UsbUtilities NapiUtil UsbInfoParse UsbInfo UsbInfoAsync SerialInfo NapiLaws UsbInfoRoundTrip UsbInfoProofs UsbInfoTheorems UsbInfoPromises UsbInfoExamples.

(** A copy that is refused leaves the objects; the destination is as before or reset. *)
Class MemcpyLaws (E : Type) `{!NapiView E, !MemcpyFailure E} := law_memcpy_failed (e : E) p n data :
  let e' := (memcpy_s_failed p n data e).2 in
  same_objects e e' ∧ ∀ q (l : list Z), script_bytes e !! q = Some l →
    script_bytes e' !! q = Some l ∨
    p = Some q ∧ ((Z.to_nat n <= length l)%nat → script_bytes e' !! q = Some (replicate (Z.to_nat n) 0 ++ drop (Z.to_nat n) l)).

Section Theorems.
Context {S P E O : Type} `{!IUsbServer S, !ClientPlatform P, !ErrCodeBase, !Napi E, !SecureC, !MemcpyFailure E, !NapiSystem O,
  !NapiView E, !NapiLaws E, !MemcpyLaws E}.
Context (others : state (UsbSrvClient S P) ()).
Context (uninit_attr : UsbSerialAttr) (uninit_type : napi_typedarray_type) (uninit_length uninit_ret : Z).
Abbreviation US := (UsbInfo S P E O).
Abbreviation CL := (UsbSrvClient S P).
Abbreviation M := (state US).
Implicit Types m : US.

(** ** Refusals *)

Abbreviation refused := (refused SYSPARAM_INVALID_INPUT).
Lemma invalid_input_known errMsg m0 : triple (at_rest m0) (SerialInfo.ThrowBusinessError SYSPARAM_INVALID_INPUT errMsg) (λ _, refused m0).
Proof.
  intros m (Hk & [[Hc _] _] & Hp). unfold SerialInfo.ThrowBusinessError, on_engine, zoom.
  pose proof (throw_thrown (SerialInfo.GetErrMsgByErrCode SYSPARAM_INVALID_INPUT) SYSPARAM_INVALID_INPUT errMsg (engine m)) as Ht.
  destruct Ht as [Hs Ht]; [by eexists|done|done|]. destruct (throw_error _ _ _ _) as [[] e]. cbn [snd] in *.
  split; [by apply kept_engine|]. rewrite engine_set. split; [by etransitivity|done].
Qed.
(** A postcondition that a refusal meets. *)
Definition refusable m0 {A} (Q : A → US → Prop) : Prop := ∀ a m, refused m0 m → Q a m.
Lemma check_counted_rule b msg (k : M napi_value) m0 Q :
  (b = false → refusable m0 Q) → (b = true → triple (at_rest m0) k Q) →
  triple (at_rest m0) (check_counted b SYSPARAM_INVALID_INPUT msg k) Q.
Proof.
  intros Hr Hk. unfold check_counted, CheckAndThrowOnError. destruct b; cbn [negb]; [by apply Hk|].
  eapply (triple_bind _ (λ ok m, ok = false ∧ refused m0 m)).
  { eapply triple_bind; [apply invalid_input_known|]. intros []. by intros m Hm. }
  intros ok. apply triple_pure. intros ->. cbn [negb]. eapply triple_bind; [by apply triple_metrics, _|].
  intros []. intros m Hm. by apply Hr.
Qed.
Lemma check_rule {A} (r : A) b msg (k : M A) m0 Q :
  (b = false → ∀ m, refused m0 m → Q r m) → (b = true → triple (at_rest m0) k Q) →
  triple (at_rest m0) (check r b SYSPARAM_INVALID_INPUT msg k) Q.
Proof.
  intros Hr Hk. unfold check, CheckAndThrowOnError. destruct b; cbn [negb]; [by apply Hk|].
  eapply (triple_bind _ (λ ok m, ok = false ∧ refused m0 m)).
  { eapply triple_bind; [apply invalid_input_known|]. intros []. by intros m Hm. }
  intros ok. apply triple_pure. intros ->. intros m Hm. by apply Hr.
Qed.

(** The number that a value is. *)
Definition as_number (s : script_value) : option Z := match s with SNumber z => Some z | _ => None end.
Lemma as_number_type s : bool_decide (type_of s = napi_number) = bool_decide (is_Some (as_number s)).
Proof. by destruct s. Qed.
Lemma number_read v z old m0 : script_heap (engine m0) !! v = Some (SNumber z) →
  triple (at_rest m0) (on_engine (napi_get_value_int32 v old)) (λ r m, r = to_i32 z ∧ at_rest m0 m).
Proof.
  intros Hv. apply (triple_on_engine _ (λ r, r = to_i32 z)). intros e [[Hc _] _] Hp.
  pose proof (law_int32 e v z old Hp (lookup_weaken _ _ _ _ Hv Hc)) as Hl. by destruct (napi_get_value_int32 v old e).
Qed.
Lemma number_counted_rule v s none msg1 msg2 (k : Z → M napi_value) m0 Q : script_heap (engine m0) !! v = Some s →
  (match as_number s with None => True | Some z => to_i32 z = none end → refusable m0 Q) →
  (∀ z, as_number s = Some z → to_i32 z ≠ none → triple (at_rest m0) (k (to_i32 z)) Q) →
  triple (at_rest m0) (number_counted v none msg1 msg2 k) Q.
Proof.
  intros Hv Hr Hk. unfold number_counted. eapply triple_bind; [by apply triple_typeof|]. intros r. apply triple_pure. intros ->.
  rewrite as_number_type. destruct s as [| |z| | | | |]; cbn [as_number] in *; apply check_counted_rule; try done; try (by intros _; apply Hr).
  intros _. eapply triple_bind; [by apply number_read|]. intros r. apply triple_pure. intros ->.
  apply check_counted_rule; intros Hn.
  - apply Hr. apply negb_false_iff in Hn. lia.
  - apply Hk; [done|]. apply negb_true_iff in Hn. lia.
Qed.
(** The values of the arguments, those that are numbers. *)
Definition values m (args : list napi_value) (xs : list (option Z)) : Prop :=
  Forall2 (λ v x, ∃ s, script_heap (engine m) !! v = Some s ∧ as_number s = x) args xs.

(** ** Answers *)

(** A function that takes numbers asks the service one thing; a number that stands for
    a variable that was not set is refused. *)
Definition Question : Type := list (option Z) → option (state CL (Z * option cjson)).
Definition port_question (q : Z → state CL (Z * option cjson)) : Question := λ xs,
  match xs with [Some z] => if to_i32 z =? -1 then None else Some (q (to_i32 z)) | _ => None end.
Definition attribute_tree (a : UsbSerialAttr) : cjson := JObject [
  ("baudRate", JNumber (baudRate_ a)); ("dataBits", JNumber (dataBits_ a)); ("parity", JNumber (parity_ a)); ("stopBits", JNumber (stopBits_ a))].
Definition attribute_ok (a : UsbSerialAttr) : Prop :=
  in_u32 (baudRate_ a) ∧ in_u8 (stopBits_ a) ∧ in_u8 (parity_ a) ∧ in_u8 (dataBits_ a).
Inductive NumberFunction := F_open | F_close | F_getAttribute | F_hasSerialRight | F_cancelSerialRight | F_addSerialRight.
Definition name_of (o : NumberFunction) : string :=
  match o with
  | F_open => "open" | F_close => "close" | F_getAttribute => "getAttribute" | F_hasSerialRight => "hasSerialRight"
  | F_cancelSerialRight => "cancelSerialRight" | F_addSerialRight => "addSerialRight"
  end.
Definition question_of (o : NumberFunction) : Question :=
  match o with
  | F_open => port_question (λ p, ret ← SerialOpen others p; mret (ret, None))
  | F_close => port_question (λ p, ret ← SerialClose others p; mret (ret, None))
  | F_getAttribute => port_question (λ p, '(ret, a) ← SerialGetAttribute others p uninit_attr; mret (ret, Some (attribute_tree a)))
  | F_hasSerialRight => port_question (λ p, '(ret, hasRight) ← HasSerialRight others p false; mret (ret, Some (JBool hasRight)))
  | F_cancelSerialRight => port_question (λ p, ret ← CancelSerialRight others p; mret (ret, None))
  | F_addSerialRight => λ xs,
      match xs with
      | [Some t; Some z] => if (to_i32 t =? 0) || (to_i32 z =? -1) then None else
          Some (ret ← AddSerialRight others (to_i32 t) (to_i32 z); mret (ret, None))
      | _ => None
      end
  end.
(** An error is thrown: one with the code, or, for a code that the library has no message
    for, the value [undefined]. *)
Definition failed_with m0 (c : CL) (errCode : Z) m : Prop :=
  g_usbClient m = c ∧ script_heap (engine m0) ⊆ script_heap (engine m) ∧
  if bool_decide (is_Some (SerialInfo.GetErrMsgByErrCode errCode)) then thrown errCode (engine m) else ∃ e, pending (engine m) = Some (napi_get_undefined e).1.
Definition answers m0 (r : Z * option cjson * CL) (v : napi_value) m : Prop :=
  let '(ret, t, c) := r in
  if ret =? 0 then match t with None => v = nullptr ∧ answered m0 c m | Some t => returns m0 c t v m end
  else failed_with m0 c (ErrorCodeConversion ret) m.
#[export] Instance answers_indifferent m0 r v : Indifferent (answers m0 r v).
Proof. destruct r as [[ret [t|]] c]; unfold answers; destruct (ret =? 0); split; intros [] x Hx; exact Hx. Qed.
Definition responds m0 (q : option (state CL (Z * option cjson))) (v : napi_value) m : Prop :=
  match q with None => refused m0 m | Some q => answers m0 (q (g_usbClient m0)) v m end.
#[export] Instance responds_indifferent m0 q v : Indifferent (responds m0 q v).
Proof. destruct q; apply _. Qed.

Lemma ErrorCodeConversion_range code : in_i32 (ErrorCodeConversion code).
Proof. unfold ErrorCodeConversion. cbn [find fst snd]. repeat destruct (_ =? _); by split. Qed.
Lemma failing ret msg (k : M napi_value) m0 c : ret ≠ 0 →
  triple (answered m0 c) (check_answer ret msg k) (λ _, failed_with m0 c (ErrorCodeConversion ret)).
Proof.
  intros Hr m (Hc & [[Hs _] _] & Hp). unfold check_answer, check_counted, CheckAndThrowOnError. rewrite (proj2 (Z.eqb_neq _ _) Hr). cbn [negb].
  rewrite !bind_run. unfold SerialInfo.ThrowBusinessError, on_engine, zoom. set (code := ErrorCodeConversion ret).
  pose proof (throw_thrown (SerialInfo.GetErrMsgByErrCode code) code msg (engine m)) as Ht.
  assert (SerialInfo.GetErrMsgByErrCode code = None → let e := (throw_error None code msg (engine m)).2 in
    script_heap (engine m) ⊆ script_heap e ∧ pending e = Some (napi_get_undefined (engine m)).1) as Hu.
  { intros _. unfold throw_error, business_error. rewrite bind_run. pose proof (law_undefined (engine m)) as [[Hs1 Hp1] _].
    destruct (napi_get_undefined (engine m)) as [v e1]. cbn [fst snd] in *. pose proof (law_throw e1 v) as Hl.
    destruct (napi_throw v e1) as [[] e2]. destruct Hl as [Hs2 Hp2]; [by rewrite Hp1|]. cbn zeta. cbn [fst snd]. rewrite Hp2. split; [by etransitivity|done]. }
  unfold failed_with. destruct (SerialInfo.GetErrMsgByErrCode code) as [x|].
  - destruct Ht as [Hs1 Ht]; [by eexists|apply ErrorCodeConversion_range|done|]. destruct (throw_error (Some x) code msg (engine m)) as [[] e].
    rewrite bool_decide_true by (by eexists). destruct m. split; [done|]. split; [by etransitivity|done].
  - destruct (Hu eq_refl) as [Hs1 He]. destruct (throw_error None code msg (engine m)) as [[] e].
    rewrite bool_decide_false by (by intros []). destruct m. split; [done|]. split; [by etransitivity|by eexists].
Qed.
(** A question whose answer is nothing, and one whose answer is a value. *)
Lemma asks_nothing (q : state CL Z) msg m0 :
  triple (at_rest m0) (ret ← on_client q; check_answer ret msg (mret nullptr)) (answers m0 ((ret ← q; mret (ret, None)) (g_usbClient m0))).
Proof.
  destruct (q (g_usbClient m0)) as [ret c] eqn:Hq. rewrite bind_run, Hq. eapply triple_bind; [by apply triple_on_client|].
  intros r. apply triple_pure. intros ->. unfold answers. cbn [mret state_ret fst snd].
  destruct (Z.eqb_spec ret 0) as [->|Hr]; [by intros m Hm|by apply failing].
Qed.
Lemma asks_value {A} (q : state CL (Z * A)) (build : A → state E napi_value) (tree : A → cjson) msg m0 :
  Builds (build (q (g_usbClient m0)).1.2) (tree (q (g_usbClient m0)).1.2) →
  triple (at_rest m0) ('(ret, a) ← on_client q; check_answer ret msg (on_engine (build a)))
    (answers m0 (('(ret, a) ← q; mret (ret, Some (tree a))) (g_usbClient m0))).
Proof.
  intros Hb. destruct (q (g_usbClient m0)) as [[ret a] c] eqn:Hq. rewrite bind_run, Hq. cbn [fst snd] in *.
  eapply triple_bind; [by apply triple_on_client|]. intros r. apply triple_pure. intros ->. unfold answers. cbn [mret state_ret fst snd].
  destruct (Z.eqb_spec ret 0) as [->|Hr]; [by apply triple_build|by apply failing].
Qed.

(** ** Functions of numbers *)

Lemma Builds_attribute a : attribute_ok a → Builds (attribute_object a) (attribute_tree a).
Proof.
  intros (Hb & Hs & Hp & Hd). apply Builds_object. intros o e0. unfold in_u8, in_u32 in *. 
  do 4 (eapply triple_bind; [apply filling_uint; [split; lia|done]|intros []]). apply filling_done.
Qed.
Lemma port_function_responds name msg q (k : Z → M napi_value) args xs m0 : values m0 args xs →
  (∀ z, triple (at_rest m0) (k z) (answers m0 (q z (g_usbClient m0)))) →
  triple (at_rest m0) (with_metrics name (port_argument msg (Some args) k)) (responds m0 (port_question q xs)).
Proof.
  intros Hx Hk. apply triple_with_metrics; [apply _..|]. apply check_counted_rule.
  - intros Hl v m Hm. pose proof (Forall2_length _ _ _ Hx). destruct xs as [|x [|y xs]]; [done|cbn in *; by rewrite H1 in Hl|by destruct x].
  - intros Hl%Nat.eqb_eq. destruct Hx as [|v x args xs (s & Hs & <-) Hx]; [done|]. destruct Hx; [|done].
    eapply number_counted_rule; [exact Hs|..]; destruct (as_number s) as [z|]; cbn; try done.
    + intros -> a m Hm. done.
    + by intros _ a m Hm.
    + intros ? [= <-] Hz. rewrite (proj2 (Z.eqb_neq _ _) Hz). apply Hk.
Qed.
Lemma addSerialRight_responds args xs m0 : values m0 args xs →
  triple (at_rest m0) (SerialAddRightNapi others (Some args)) (responds m0 (question_of F_addSerialRight xs)).
Proof.
  intros Hx. apply triple_with_metrics; [apply _..|]. apply check_counted_rule.
  - intros Hl v m Hm. pose proof (Forall2_length _ _ _ Hx) as Hlen. destruct xs as [|[] [|[] [|? ?]]]; try done. cbn in Hlen. by rewrite Hlen in Hl.
  - intros Hl%Nat.eqb_eq. destruct Hx as [|v x args xs (s & Hs & <-) Hx]; [done|]. destruct Hx as [|v' y args xs (s' & Hs' & <-) Hx]; [done|].
    destruct Hx; [|done]. eapply number_counted_rule; [exact Hs|..]; destruct (as_number s) as [t|]; cbn; try done.
    + intros -> a m Hm. by destruct (as_number s').
    + by intros _ a m Hm.
    + intros ? [= <-] Ht. rewrite (proj2 (Z.eqb_neq _ _) Ht). eapply number_counted_rule; [exact Hs'|..]; destruct (as_number s') as [z|]; cbn; try done.
      * intros -> a m Hm. done.
      * by intros _ a m Hm.
      * intros ? [= <-] Hz. rewrite (proj2 (Z.eqb_neq _ _) Hz). apply asks_nothing.
Qed.
Definition body_of (o : NumberFunction) : cb_info → M napi_value :=
  match o with
  | F_open => SerialOpenNapi others | F_close => SerialCloseNapi others | F_getAttribute => SerialGetAttributeNapi others uninit_attr
  | F_hasSerialRight => SerialHasRightNapi others | F_cancelSerialRight => CancelSerialRightNapi others
  | F_addSerialRight => SerialAddRightNapi others
  end.
Abbreviation SerialInit := (SerialInit others uninit_attr uninit_type uninit_length uninit_ret).
Lemma body_responds o args xs m0 : values m0 args xs →
  (o = F_getAttribute → ∀ p, attribute_ok (SerialGetAttribute others p uninit_attr (g_usbClient m0)).1.2) →
  triple (at_rest m0) (body_of o (Some args)) (responds m0 (question_of o xs)).
Proof.
  intros Hx Ha. destruct o; cbn [body_of question_of]; [..|by apply addSerialRight_responds];
    apply port_function_responds; try done; intros p.
  - apply asks_nothing.
  - apply asks_nothing.
  - apply asks_value. by apply Builds_attribute, Ha.
  - apply (asks_value _ (λ b, napi_get_boolean b) JBool). apply Builds_bool.
  - apply asks_nothing.
Qed.
Lemma SerialInit_function o f : (name_of o, f) ∈ SerialInit → f = at_once (body_of o).
Proof.
  unfold SerialInfo.SerialInit. intros Hf.
  repeat (apply elem_of_cons in Hf as [Hf|Hf]; [by destruct o; simplify_eq|]). by apply elem_of_nil in Hf.
Qed.

(** C28:  The functions of the serial module that take numbers and answer at once (open,
    close, getAttribute, hasSerialRight, cancelSerialRight and addSerialRight, but not
    requestSerialRight, which answers by a promise) ask the service once for
    what they are named after, with the numbers as 32-bit integers, and the script
    gets the answer, or an error is thrown: an error object with the code that the answer
    stands for, or, for a code that the library has no message for, which is the one for
    the database, the value [undefined]; arguments
    that are too few, too many, no numbers, or the number of no port throw an
    error and nothing is asked. *)
Theorem serial_functions_answer o f args xs (m : SerialInfo S P E O) : (name_of o, f) ∈ SerialInit →
  pending (engine (process m)) = None → values (process m) args xs →
  (o = F_getAttribute → ∀ p, attribute_ok (SerialGetAttribute others p uninit_attr (g_usbClient (process m))).1.2) →
  ∃ v, (f (Some args) m).1 = Done v ∧
  let m' := (f (Some args) m).2 in
  serial_works m' = serial_works m ∧
  match question_of o xs with
  | None => refused (process m) (process m')
  | Some q => answers (process m) (q (g_usbClient (process m))) v (process m')
  end.
Proof.
  intros Hf%SerialInit_function Hp Hx Ha. subst f. unfold at_once, on_process. run_unfold.
  pose proof (body_responds o args xs (process m) Hx Ha (process m) ltac:(done)) as Hr.
  destruct (body_of o (Some args) (process m)) as [v p]. exists v. cbn [fst snd] in *. split; [done|]. split; [done|].
  unfold responds in Hr. by destruct (question_of o xs).
Qed.

(** ** Bytes *)

(** What an array that held [l] holds when [data] has come: its beginning is
    overwritten, and more than it holds is not copied. *)
Definition filled (l data l' : list Z) : Prop := length l' = length l ∧ ((0 < length data <= length l)%nat → l' = data ++ drop (length data) l).
Lemma memcpy_s_fills q n l data e : script_bytes e !! q = Some l → n = Z.of_nat (length l) → n <= SECUREC_MEM_MAX_LEN →
  let e' := (memcpy_s (Some q) n data e).2 in
  same_objects e e' ∧ (∃ l', script_bytes e' !! q = Some l' ∧ filled l data l') ∧
  ∀ q' (l2 : list Z), q' ≠ q → script_bytes e !! q' = Some l2 → script_bytes e' !! q' = Some l2.
Proof.
  intros Hq -> Hmax. unfold memcpy_s. destruct (memcpy_s_ok _ _) eqn:Hok; cbn zeta; rewrite bind_run.
  - assert (length data <= length l)%nat as Hle.
    { destruct (decide (length data <= length l)%nat) as [|Hgt]; [done|]. rewrite law_memcpy_s_refuses in Hok by lia. done. }
    pose proof (law_write_bytes e q l data Hq Hle) as Hw. pose proof (law_write_objects e q data) as Ho.
    destruct (write_bytes q data e) as [[] e']. cbn [fst snd mret state_ret] in *. split; [done|]. rewrite Hw. split.
    + eexists. split; [apply lookup_insert_eq|]. split; [rewrite length_app, length_drop; lia|done].
    + intros q' l2 Hn Hl2. by rewrite lookup_insert_ne.
  - destruct (law_memcpy_failed e (Some q) (Z.of_nat (length l)) data) as [Ho Hb]. destruct (memcpy_s_failed _ _ _ e) as [[] e'].
    cbn [fst snd mret state_ret] in *. split; [done|]. split.
    + destruct (Hb q l Hq) as [Hs|[_ Hs]]; eexists; (split; [by apply Hs; lia|]); (split; [|intros Hd; rewrite law_memcpy_s in Hok by lia; done]); [done|].
      rewrite length_app, length_replicate, length_drop. lia.
    + intros q' l2 Hn Hl2. destruct (Hb q' l2 Hl2) as [Hs|[[= ->] _]]; [done|by destruct Hn].
Qed.

(** The arguments of [readSync] and [writeSync]: the number of a port, and an array of [l]. *)
Record byte_arguments m (n : Z) (q : data_ptr) (l : list Z) (z : Z) (u a : napi_value) : Prop := {
  byte_port : script_heap (engine m) !! u = Some (SNumber z);
  byte_port_ok : to_i32 z ≠ -1;
  byte_array : is_array n q a m;
  byte_bytes : array_holds q l m;
  byte_length : n = Z.of_nat (length l);
  byte_u32 : n < 2 ^ 32;
  byte_size : n <= SECUREC_MEM_MAX_LEN;
  byte_calm : pending (engine m) = None;
}.
Lemma bytes_parse m0 n q l z u a : byte_arguments m0 n q l z u a →
  triple (at_rest m0) (port_and_buffer (Some [u; a])) (λ r m, r = Some (to_i32 z, a, 0) ∧ at_rest m0 m).
Proof.
  intros [Hu Hz _ _ _ _ _ _]. apply check_rule; [done|]. intros _. unfold number_unchecked.
  eapply triple_bind; [by apply triple_typeof|]. intros r. apply triple_pure. intros ->.
  apply check_rule; [done|]. intros _. eapply triple_bind; [by apply number_read|]. intros r. apply triple_pure. intros ->.
  apply check_rule; [intros Hn; apply negb_false_iff in Hn; lia|]. intros _. by intros m Hm.
Qed.
Lemma bytes_info m0 n q l z u a : byte_arguments m0 n q l z u a →
  triple (at_rest m0) (buffer_info uninit_type uninit_length a) (λ r m, r = (napi_uint8_array, n, Some q) ∧ at_rest m0 m).
Proof.
  intros [_ _ Ha _ _ _ _ _]. unfold buffer_info. eapply triple_bind.
  - apply (triple_on_engine _ (λ r, r = Some (napi_uint8_array, n, Some q))). intros e [[Hc _] _] Hp.
    pose proof (law_typedarray e a _ _ _ Hp (lookup_weaken _ _ _ _ Ha Hc)) as Hl. by destruct (napi_get_typedarray_info a e).
  - intros r. apply triple_pure. intros ->. by intros m Hm.
Qed.

(** [writeSync] sends the bytes that the array holds. *)
Definition done_answers m0 (r : Z * option cjson * CL) (v : outcome napi_value) m : Prop :=
  match v with Done w => answers m0 r w m | _ => False end.
#[export] Instance done_answers_indifferent m0 r v : Indifferent (done_answers m0 r v).
Proof. destruct v; [apply answers_indifferent|by split..]. Qed.
Lemma read_at_rest m0 n q l : array_holds q l m0 → n = Z.of_nat (length l) →
  triple (at_rest m0) (vector_at (Some q) n) (λ r m, r = Done l ∧ at_rest m0 m).
Proof.
  intros Hl ->. unfold vector_at. apply triple_if; intros Hn; zbool.
  - intros m Hm. by destruct l.
  - eapply (triple_bind _ (λ r m, r = l ∧ at_rest m0 m)); [|intros r; apply triple_pure; intros ->; by intros m Hm].
    apply (triple_on_engine _ (λ r, r = l)). intros e [_ Hb] _.
    destruct (law_read_bytes e q l (Z.of_nat (length l)) (lookup_weaken _ _ _ _ Hl Hb)) as [Hr Hs]; [lia|].
    split; [by rewrite Hr, take_ge by lia|]. split; [apply law_read_objects|by rewrite Hs].
Qed.
Theorem serial_write_sends_the_array n q l z u a m : byte_arguments m n q l z u a →
  let '(v, m') := SerialWriteSyncNapi others uninit_type uninit_length (Some [u; a]) m in
  done_answers m (('(ret, actualSize) ← SerialWrite others (to_i32 z) l n 0 0; mret (ret, Some (JNumber (to_i32 actualSize)))) (g_usbClient m)) v m'.
Proof.
  intros Hargs. pose proof Hargs as [_ _ _ Hl Hlen Hn _ Hp].
  enough (triple (at_rest m) (SerialWriteSyncNapi others uninit_type uninit_length (Some [u; a])) (done_answers m
    (('(ret, actualSize) ← SerialWrite others (to_i32 z) l n 0 0; mret (ret, Some (JNumber (to_i32 actualSize)))) (g_usbClient m)))) as Ht.
  { specialize (Ht m ltac:(done)). by destruct (SerialWriteSyncNapi _ _ _ _ m). }
  apply triple_with_metrics; [apply _..|]. eapply triple_bind; [by eapply bytes_parse|]. intros r. apply triple_pure. intros ->.
  eapply triple_bind; [by eapply bytes_info|]. intros r. apply triple_pure. intros ->.
  rewrite bool_decide_true by done. cbn [negb]. eapply triple_bind; [by eapply read_at_rest|]. intros r. apply triple_pure. intros ->.
  replace (to_u32 n) with n by (unfold to_u32; rewrite Z.mod_small; lia).
  apply (triple_eq _ (w ← ('(ret, actualSize) ← on_client (SerialWrite others (to_i32 z) l n 0 0);
    check_answer ret "SerialWrite Failed." (on_engine (napi_create_int32 (to_i32 actualSize)))); mret (Done w))).
  { intros m1. rewrite !bind_run. destruct (on_client _ m1) as [[ret actualSize] m2]. cbn [fst snd]. by rewrite bind_run. }
  eapply triple_bind.
  - apply (asks_value _ (λ actualSize, napi_create_int32 (to_i32 actualSize)) (λ actualSize, JNumber (to_i32 actualSize))).
    apply Builds_int, to_i32_range.
  - intros w m1 Hm1. exact Hm1.
Qed.

(** [readSync] puts what the service has read at the beginning of the array, never
    beyond its end, and touches no other array. *)
Definition array_filled m0 (c : CL) q l data m : Prop :=
  (∃ l', array_holds q l' m ∧ filled l data l') ∧ ∀ q' (l2 : list Z), q' ≠ q → array_holds q' l2 m0 → array_holds q' l2 m.
Definition read_answers m0 q l (r : Z * (list Z * Z) * CL) (v : napi_value) m : Prop :=
  let '((ret, (data, actualSize)), c) := r in
  if ret =? 0 then returns m0 c (JNumber (to_i32 actualSize)) v m ∧ array_filled m0 c q l data m
  else failed_with m0 c (ErrorCodeConversion ret) m.
#[export] Instance read_answers_indifferent m0 q l r v : Indifferent (read_answers m0 q l r v).
Proof. destruct r as [[ret [data actualSize]] c]. unfold read_answers. destruct (ret =? 0); split; intros [] x Hx; exact Hx. Qed.
Lemma copied_answers m0 n q l data actualSize c : array_holds q l m0 → n = Z.of_nat (length l) → n <= SECUREC_MEM_MAX_LEN →
  triple (answered m0 c) (_ ← on_engine (memcpy_s (Some q) n data); int_value (to_i32 actualSize))
    (λ v m, returns m0 c (JNumber (to_i32 actualSize)) v m ∧ array_filled m0 c q l data m).
Proof.
  intros Hl Hn Hmax m (Hc & [[Hs _] Hb] & Hp). rewrite bind_run. unfold int_value, on_engine, zoom.
  destruct (memcpy_s_fills q n l data (engine m) (lookup_weaken _ _ _ _ Hl Hb) Hn Hmax) as ([Hs1 Hp1] & (l' & Hl' & Hf) & Hothers).
  destruct (memcpy_s (Some q) n data (engine m)) as [ok e1]. cbn [fst snd] in *. rewrite engine_set.
  pose proof (Builds_int (to_i32 actualSize) (to_i32_range _) e1 ltac:(by rewrite Hp1)) as Hi.
  pose proof (law_int32_bytes e1 (to_i32 actualSize)) as Hbytes.
  destruct (napi_create_int32 (to_i32 actualSize) e1) as [v e2]. cbn [fst snd] in *.
  unfold returns, array_filled, array_holds. rewrite !engine_set. split.
  - split; [by destruct m|]. split; [|split; [apply Hi|by eapply built_reads]].
    etransitivity; [exact Hs|]. etransitivity; [exact Hs1|]. by eapply built_grows.
  - split; [by exists l'; split; [eapply lookup_weaken|]|]. intros q' l2 Hq Hl2. eapply lookup_weaken; [|exact Hbytes].
    apply Hothers; [done|]. by eapply lookup_weaken.
Qed.
Theorem serial_read_fills_the_array n q l z u a m : byte_arguments m n q l z u a →
  let '(v, m') := SerialReadSyncNapi others uninit_type uninit_length (Some [u; a]) m in
  read_answers m q l (SerialRead others (to_i32 z) [] n 0 0 (g_usbClient m)) v m'.
Proof.
  intros Hargs. pose proof Hargs as [_ _ _ Hl Hlen Hn Hmax Hp].
  destruct (SerialRead others (to_i32 z) [] n 0 0 (g_usbClient m)) as [[ret [data actualSize]] c] eqn:Hr.
  enough (triple (at_rest m) (SerialReadSyncNapi others uninit_type uninit_length (Some [u; a])) (read_answers m q l (ret, (data, actualSize), c))) as Ht.
  { specialize (Ht m ltac:(done)). by destruct (SerialReadSyncNapi _ _ _ _ m). }
  apply triple_with_metrics; [apply _..|]. eapply triple_bind; [by eapply bytes_parse|]. intros r. apply triple_pure. intros ->.
  eapply triple_bind; [by eapply bytes_info|]. intros r. apply triple_pure. intros ->. apply check_counted_rule; [done|]. intros _.
  replace (to_u32 n) with n by (unfold to_u32; rewrite Z.mod_small; lia).
  eapply triple_bind; [by apply triple_on_client|]. intros r. apply triple_pure. intros ->. unfold read_answers.
  destruct (Z.eqb_spec ret 0) as [->|Hret]; [|by apply failing].
  unfold check_answer, check_counted, CheckAndThrowOnError. cbn [negb Z.eqb]. by apply copied_answers.
Qed.

(** ** Promises *)

(** What a promise is settled with: the number of the error, or the answer. *)
Definition serial_answer (code : Z) (t : cjson) : Answer := if code =? 0 then (true, t) else (false, JNumber (ErrorCodeConversion code)).
Lemma ErrorCodeConversion_nonzero code : ErrorCodeConversion code ≠ 0.
Proof. unfold ErrorCodeConversion. cbn [find fst snd]. by repeat destruct (_ =? _). Qed.
(** What a work asks the service; a write without bytes asks nothing, and its promise is
    resolved with what the memory of the context held. *)
Definition serial_asks (c : SerialAsyncContext) (m : SerialInfo S P E O) : option (state CL Answer) :=
  match serial_request c with
  | SerialRightRequest portId hasRight =>
      Some ('(code, hasRight) ← RequestSerialRight others portId hasRight; mret (serial_answer code (JBool hasRight)))
  | SerialReadRequest portId size timeout _ =>
      Some ('(code, (_, actualSize)) ← SerialRead others portId [] size 0 timeout; mret (serial_answer code (JNumber (to_i32 actualSize))))
  | SerialWriteRequest portId size timeout pData =>
      if size =? 0 then Some (mret (true, JNumber (ret c))) else
      match pData with
      | None => None
      | Some q => let l := (read_bytes q size (engine (process m))).1 in
          Some ('(code, actualSize) ← SerialWrite others portId l size 0 timeout; mret (serial_answer code (JNumber (to_i32 actualSize))))
      end
  end.
Definition has_settled m0 d a m : Prop := kept m0 m ∧ settles d a (engine m0) (engine m).
#[export] Instance has_settled_indifferent m0 d a : Indifferent (has_settled m0 d a).
Proof. by split; intros [] x [[] ?]. Qed.
Lemma promise_settles (f : state E napi_value) t d b m0 : Builds f t →
  triple (at_rest m0) (result ← on_engine f; ProcessPromise (Some d) b result) (λ _, has_settled m0 d (b, t)).
Proof.
  intros Hf m (Hk & [[Hs _] _] & Hp). rewrite bind_run. unfold ProcessPromise, on_engine, zoom. specialize (Hf (engine m) Hp).
  destruct (f (engine m)) as [v e1]. cbn [fst snd] in *. rewrite engine_set.
  match goal with |- context [let '(_, _) := ?g in _] => destruct g as [[] e2] eqn:He end. cbn [snd]. split; [by do 2 apply kept_engine|].
  rewrite engine_set. exists e1, v. split; [etransitivity; [exact Hs|by eapply built_grows]|]. split; [apply Hf|].
  split; [by eapply built_reads|]. by destruct b; cbn [fst snd]; rewrite He.
Qed.
Lemma settle_settles c (f : state E napi_value) t d m0 : Builds f t → serial_deferred c = Some d → in_i32 (contextErrno c) →
  triple (at_rest m0) (settle c (on_engine f))
    (λ _, has_settled m0 d (if contextErrno c =? 0 then (true, t) else (false, JNumber (contextErrno c)))).
Proof.
  intros Hf Hd Hz. unfold settle. rewrite Hd.
  eapply (triple_bind _ (λ _, has_settled m0 d (if contextErrno c =? 0 then (true, t) else (false, JNumber (contextErrno c))))).
  - destruct (contextErrno c =? 0); cbn [negb]; apply promise_settles; [done|by apply Builds_int].
  - intros []. destruct (serial_metrics c); [by apply triple_destroy_metrics, _|by apply triple_ret].
Qed.
(** The answer that a context holds after its execution. *)
Definition held_answer (c : SerialAsyncContext) : Answer :=
  if contextErrno c =? 0 then (true, match serial_request c with SerialRightRequest _ hasRight => JBool hasRight | _ => JNumber (ret c) end)
  else (false, JNumber (contextErrno c)).
Lemma serial_complete_settles c d m0 : serial_deferred c = Some d → in_i32 (contextErrno c) → in_i32 (ret c) →
  triple (at_rest m0) (serial_complete c) (λ _, has_settled m0 d (held_answer c)).
Proof.
  intros Hd Hz Hr. unfold serial_complete, held_answer. destruct (serial_request c); apply settle_settles; try done.
  - by apply Builds_int.
  - by apply Builds_int.
  - by apply Builds_bool.
Qed.
(** Execution leaves the answer in the context. *)
Definition with_serial_metrics (x : UsbApiMetrics.t) (c : SerialAsyncContext) : SerialAsyncContext :=
  {| serial_deferred := serial_deferred c; contextErrno := contextErrno c; ret := ret c; serial_metrics := Some x; serial_request := serial_request c |}.
Lemma start_metrics_run name c (p : US) : ∃ x o, start_metrics name c p = (with_serial_metrics x c, set_system o p).
Proof.
  unfold start_metrics, new_metrics, on_system. run_unfold. destruct (gettimeofday (system p)) as [now o].
  by exists (UsbApiMetrics.construct name now), o.
Qed.
Definition holds (c : SerialAsyncContext) (a : Answer) (cl : CL) (c' : SerialAsyncContext) (p : US) : Prop :=
  serial_deferred c' = serial_deferred c ∧ in_i32 (contextErrno c') ∧ in_i32 (ret c') ∧ held_answer c' = a ∧ g_usbClient p = cl.
Lemma result_holds c code actualSize cl x p : contextErrno c = 0 → g_usbClient p = cl →
  match serial_request c with SerialRightRequest _ _ => False | _ => True end →
  holds c (serial_answer code (JNumber (to_i32 actualSize))) cl (set_result code actualSize (with_serial_metrics x c)) p.
Proof.
  intros Hc <- Hr. pose proof (ErrorCodeConversion_range code). pose proof (ErrorCodeConversion_nonzero code) as Hn.
  unfold holds, held_answer, serial_answer, set_result. cbn. rewrite Hc. destruct (code =? 0); cbn.
  - split; [done|]. split; [by split|]. split; [apply to_i32_range|]. by destruct (serial_request c).
  - rewrite (proj2 (Z.eqb_neq _ _) Hn). split; [done|]. split; [done|]. split; [apply to_i32_range|done].
Qed.
Lemma serial_execute_asks c q (m : SerialInfo S P E O) : contextErrno c = 0 → in_i32 (ret c) → serial_asks c m = Some q →
  ∃ c', (serial_execute others c (process m)).1 = Done c' ∧
  holds c (q (g_usbClient (process m))).1 (q (g_usbClient (process m))).2 c' (serial_execute others c (process m)).2.
Proof.
  intros Hc Hret. unfold serial_asks, serial_execute.
  destruct (serial_request c) as [portId size timeout pData|portId size timeout pData|portId hasRight] eqn:Hreq.
  - unfold g_serialWriteExecute. destruct (start_metrics_run "BasicServicesKit.SerialManager.Write" c (process m)) as (x & o & Hx).
    rewrite bind_run, Hx. cbn [fst snd]. cbn [contextErrno with_serial_metrics]. rewrite Hc. cbn [negb Z.eqb].
    destruct (Z.eqb_spec size 0) as [->|Hs].
    + intros [= <-]. eexists. split; [done|]. unfold holds, held_answer. cbn. rewrite Hc, Hreq. destruct (process m). by repeat split; try apply Hret.
    + destruct pData as [p|]; [|done]. intros [= <-]. unfold vector_at, on_engine, on_client. rewrite (proj2 (Z.eqb_neq _ _) Hs). run_unfold.
      destruct m as [m works']. cbn [process]. destruct m as [cl e o' fd mt w tr ev bd]. cbn. destruct (read_bytes p size e) as [l e']. cbn.
      destruct (SerialWrite others portId l size 0 timeout cl) as [[code actualSize] cl']. cbn. eexists. split; [done|].
      apply result_holds; [done|done|by rewrite Hreq].
  - unfold g_serialReadExecute. destruct (start_metrics_run "BasicServicesKit.SerialManager.Read" c (process m)) as (x & o & Hx).
    intros [= <-]. rewrite bind_run, Hx. cbn [fst snd]. unfold on_engine, on_client. run_unfold.
    destruct m as [m works']. cbn [process]. destruct m as [cl e o' fd mt w tr ev bd]. cbn.
    destruct (SerialRead others portId [] size 0 timeout cl) as [[code [data actualSize]] cl']. cbn.
    destruct (memcpy_s pData size data e) as [ok e']. cbn. eexists. split; [done|]. apply result_holds; [done|done|by rewrite Hreq].
  - unfold g_serialRequestRightExecute. destruct (start_metrics_run "BasicServicesKit.SerialManager.RequestSerialRight" c (process m)) as (x & o & Hx).
    intros [= <-]. rewrite bind_run, Hx. cbn [fst snd]. unfold on_client. run_unfold.
    destruct m as [m works']. cbn [process]. destruct m as [cl e o' fd mt w tr ev bd]. cbn.
    destruct (RequestSerialRight others portId hasRight cl) as [[code has] cl']. cbn. eexists. split; [done|].
    pose proof (ErrorCodeConversion_range code). pose proof (ErrorCodeConversion_nonzero code) as Hn.
    unfold holds, held_answer, serial_answer. cbn. destruct (code =? 0); cbn; [done|]. by rewrite (proj2 (Z.eqb_neq _ _) Hn).
Qed.

(** The promise of a read, a write or a request for the right is settled once, by the
    completion that takes the work out of the queue, with the number or the answer
    that came from the service when it was executed, or rejected with the number of
    the error. *)
Theorem serial_promises_settle k c d q (m : SerialInfo S P E O) : serial_works m !! k = Some (false, c) → serial_deferred c = Some d →
  contextErrno c = 0 → in_i32 (ret c) → serial_asks c m = Some q →
  let '(r, m1) := serial_run_execute others k m in
  let '(answer, cl) := q (g_usbClient (process m)) in
  r = Done () ∧ g_usbClient (process m1) = cl ∧ ∃ c', serial_works m1 = <[k := (true, c')]> (serial_works m) ∧
  ∀ k2 (m2 : SerialInfo S P E O), serial_works m2 !! k2 = Some (true, c') → pending (engine (process m2)) = None →
    let m3 := (serial_run_complete k2 m2).2 in
    serial_works m3 = delete k2 (serial_works m2) ∧ g_usbClient (process m3) = g_usbClient (process m2) ∧
    settles d answer (engine (process m2)) (engine (process m3)).
Proof.
  intros Hk Hd Hc Hret Hq. destruct (serial_execute_asks c q m Hc Hret Hq) as (c' & Hr & Hd' & Hz & Hi & Ha & Hcl).
  unfold serial_run_execute. rewrite bind_run. cbn [get fst snd]. rewrite Hk, bind_run.
  unfold on_process, zoom. destruct (serial_execute others c (process m)) as [r p]. cbn [fst snd] in *. subst r. run_unfold.
  destruct (q (g_usbClient (process m))) as [answer cl]. cbn [fst snd process serial_works] in *. split; [done|]. split; [done|]. exists c'. split; [done|].
  intros k2 m2 Hk2 Hp2. unfold serial_run_complete, on_process. run_unfold. rewrite Hk2. cbn [process serial_works].
  destruct (serial_complete_settles c' d (process m2) ltac:(by rewrite Hd') Hz Hi (process m2) ltac:(done)) as [[Hc2 _ _ _ _] Hs].
  destruct (serial_complete c' (process m2)) as [[] p2]. cbn in *. split; [done|]. split; [done|]. by rewrite <- Ha.
Qed.

(** ** The list of ports *)

Definition port_name (p : UsbSerialPort) : string := pretty (serial_busNum_ p) +:+ "-" +:+ pretty (serial_devAddr_ p).
Definition port_tree (p : UsbSerialPort) : cjson := JObject [
  ("portId", JNumber (serial_portId_ p)); ("deviceName", JString (utf8_text (c_str (port_name p))))].
Lemma Builds_port p : in_i32 (serial_portId_ p) → Builds (port_object p) (port_tree p).
Proof.
  intros Hp. apply Builds_object. intros o e0. eapply triple_bind; [by apply filling_int|]. intros [].
  eapply triple_bind; [by apply filling_string|]. intros []. apply filling_done.
Qed.
(** [getPortList] answers with the ports that the service lists, or with an empty array
    when it fails. *)
Theorem serial_port_list ret ports c info m : SerialGetPortList others [] (g_usbClient m) = ((ret, ports), c) →
  Forall (λ p, in_i32 (serial_portId_ p)) ports → pending (engine m) = None →
  let '(v, m') := SerialGetPortListNapi others info m in
  returns m c (JArray (if ret <? 0 then [] else map port_tree ports)) v m'.
Proof.
  intros Hc Hports Hp.
  enough (triple (at_rest m) (SerialGetPortListNapi others info) (returns m c (JArray (if ret <? 0 then [] else map port_tree ports)))) as Ht.
  { specialize (Ht m ltac:(done)). by destruct (SerialGetPortListNapi _ _ m). }
  apply triple_with_metrics; [apply _..|]. eapply triple_bind; [by apply triple_on_client|]. intros r. apply triple_pure. intros ->.
  assert (∀ l, (∀ p, p ∈ l → in_i32 (serial_portId_ p)) → Builds (a ← napi_create_array; ports_array l a;; mret a) (JArray (map port_tree l))) as Hb.
  { intros l Hl. apply (Builds_array port_object port_tree (λ a i p, portObj ← port_object p; napi_set_element a i portObj)); [done|].
    intros p Hin. by apply Builds_port, Hl. }
  rewrite Forall_forall in Hports. destruct (ret <? 0).
  - apply (triple_eq _ (on_engine (a ← napi_create_array; ports_array [] a;; mret a))).
    + intros m1. rewrite on_engine_bind, !bind_run. by destruct (on_engine napi_create_array m1) as [result []].
    + apply triple_build, (Hb []). by intros p []%elem_of_nil.
  - apply (triple_eq _ (on_engine (a ← napi_create_array; ports_array ports a;; mret a))).
    + intros m1. rewrite on_engine_bind, !bind_run. destruct (on_engine napi_create_array m1) as [result m2]. rewrite on_engine_bind, !bind_run.
      cbn [fst snd]. by destruct (on_engine (ports_array ports result) m2) as [[] []].
    + by apply triple_build, Hb.
Qed.
End Theorems.

(** ** The functions on a concrete system *)

#[local] Existing Instance no_json.
#[local] Existing Instance demo_err_base.
#[local] Existing Instance demo_records.
#[local] Existing Instance demo_records_laws.
#[local] Existing Instance demo_right_service.
#[local] Existing Instance demo_right_laws.
#[local] Existing Instance alice_server.
#[local] Existing Instance toy_system.

#[export] Instance toy_memcpy_failure : MemcpyFailure Engine := λ _ _ _ e, ((), e).
#[export] Instance toy_memcpy_laws : MemcpyLaws Engine.
Proof. intros e p n data. split; [by split|]. intros q l Hq. by left. Qed.

Abbreviation SerialScript := (SerialInfo System (option RemoteObject) Engine Z).
Definition no_attribute : UsbSerialAttr := {| baudRate_ := 0; stopBits_ := 0; parity_ := 0; dataBits_ := 0 |}.
(** The script has the number of a port. *)
Definition a_port : napi_value := (napi_create_int32 1 empty_engine).1.
Definition with_port : SerialScript := Build_SerialInfo (set_engine (napi_create_int32 1 empty_engine).2 start) [].

(** A failure of the database has a code without a message: what is thrown is
    [undefined]. *)
Example a_database_error_is_undefined :
  SerialInfo.GetErrMsgByErrCode (ErrorCodeConversion (uec UEC_SERIAL_DATEBASE_ERROR)) = None.
Proof. vm_compute. reflexivity. Qed.
(** The promise of a write without bytes is resolved with what memory held. *)
Definition empty_write (garbage : Z) : SerialScript :=
  Build_SerialInfo start [(false, new_serial_context 50 garbage (SerialWriteRequest 1 0 0 None))].
Example an_empty_write_says_anything : ∀ garbage,
  map (λ w, held_answer w.2) (serial_works (serial_run_execute quiet 0 (empty_write garbage)).2) = [(true, JNumber garbage)].
Proof. intros garbage. vm_compute. reflexivity. Qed.
(** The promise of a port that is not there is rejected with a number, which is no error. *)
Definition missing_port : SerialScript := Build_SerialInfo start [(false, new_serial_context 50 0 (SerialReadRequest 77 4 0 None))].
Example a_rejection_is_a_number :
  match held_answer <$> (snd <$> serial_works (serial_run_execute quiet 0 missing_port).2 !! 0%nat) with
  | Some (false, JNumber _) => true | _ => false end = true.
Proof. vm_compute. reflexivity. Qed.

Lemma serial_functions_answer_witness :
  let m := with_port in
  let '(v, m') := at_once (SerialHasRightNapi quiet) (Some [a_port]) m in
  serial_works m' = [] ∧ ∃ w, v = Done w ∧
  answers (process m) (('(ret, hasRight) ← HasSerialRight quiet 1 false; mret (ret, Some (JBool hasRight))) (g_usbClient (process m))) w (process m').
Proof.
  assert ((name_of F_hasSerialRight, at_once (SerialHasRightNapi quiet)) ∈
    SerialInit (E := Engine) (O := Z) quiet no_attribute napi_uint8_array 0 0) as Hf by (apply (list_elem_of_lookup_2 _ 9); reflexivity).
  assert (pending (engine (process with_port)) = None) as Hp by (vm_compute; reflexivity).
  destruct (serial_functions_answer quiet no_attribute napi_uint8_array 0 0 F_hasSerialRight _ [a_port] [Some 1] with_port Hf Hp)
    as (w & Hv & Hw & Ha); cbn zeta.
  - constructor; [|constructor]. by exists (SNumber 1).
  - discriminate.
  - destruct (at_once (SerialHasRightNapi quiet) (Some [a_port]) with_port) as [v m']. cbn [fst snd] in *.
    split; [exact Hw|]. exists w. split; [exact Hv|exact Ha].
Defined.
