(* ===== verification/UsbManagerImpl.v ===== *)
(** * The functions of the ArkTS module
    (frameworks/ets/taihe/usb_manager: idl/ohos.usbManager.taihe,
    idl/ohos.usbManager.serial.taihe, src/ohos.usbManager.impl.cpp,
    src/ohos.usbManager.serial.impl.cpp)

    The same requests as the JavaScript module, for another language: the arguments
    arrive as structures that are generated from an interface description, an error
    is a code and a message that are set for the caller, and nothing is queued; only
    submitted transfers and conflicts of claims call back.  The generated enumerations are
    numbers of keys here. *)
From S2P Require Import Prelude UsbErrors Platform UsbAccessory UsbDevice UsbDescriptorParser UsbPortManager UsbInterfaceType UsbHostManager UsbHostTransfer UsbService UsbServiceHost UsbServiceSerial UsbSrvClient UsbTransferCallbacks UsbUtilities NapiUtil UsbInfo SerialInfo.

(** ** The types of the interface (idl) *)

Module taihe.
(** The values of an enumeration, in the order of its keys. *)
Definition USBRequestDirection : list Z := [0; 0x80].
Definition USB_REQUEST_DIR_TO_DEVICE : Z := 0.
Definition USB_REQUEST_DIR_FROM_DEVICE : Z := 1.
Definition PortModeType : list Z := [0; 1; 2; 3; 4].
Definition NUM_MODES : Z := 4.
Definition BaudRates : list Z := [50; 75; 110; 134; 150; 200; 300; 600; 1200; 1800; 2400; 4800; 9600; 19200; 38400; 57600; 115200;
  230400; 460800; 500000; 576000; 921600; 1000000; 1152000; 1500000; 2000000; 2500000; 3000000; 3500000; 4000000].
Definition DataBits : list Z := [8; 7; 6; 5].
Definition Parity : list Z := [0; 1; 2; 3; 4].
Definition StopBits : list Z := [0; 1].

Record USBEndpoint := {
  ep_address : Z; ep_attributes : Z; ep_interval : Z; ep_maxPacketSize : Z; ep_direction : Z; ep_endpointAddr : Z; ep_type : Z;
  ep_interfaceId : Z;
}.
Record USBInterface := {
  if_id : Z; if_protocol : Z; if_clazz : Z; if_subClass : Z; if_alternateSetting : Z; if_name : string; if_endpoints : list USBEndpoint }.
Record USBConfiguration := {
  cfg_id : Z; cfg_attributes : Z; cfg_maxPower : Z; cfg_name : string; cfg_isRemoteWakeup : bool; cfg_isSelfPowered : bool;
  cfg_interfaces : list USBInterface }.
Record USBDevice := {
  dev_busNum : Z; dev_devAddress : Z; dev_serial : string; dev_name : string; dev_manufacturerName : string; dev_productName : string;
  dev_version : string; dev_vendorId : Z; dev_productId : Z; dev_clazz : Z; dev_subClass : Z; dev_protocol : Z;
  dev_configs : list USBConfiguration }.
Record USBDevicePipe := { p_busNum : Z; p_devAddress : Z }.
Definition no_pipe : USBDevicePipe := {| p_busNum := 0; p_devAddress := 0 |}.   (* [return {};] *)
Record USBPortStatus := { st_currentMode : Z; st_currentPowerRole : Z; st_currentDataRole : Z }.
Record USBPort := { port_id : Z; port_supportedModes : Z; port_status : USBPortStatus }.
Record USBAccessory := { acc_manufacturer : string; acc_product : string; acc_description : string; acc_version : string; acc_serialNumber : string }.
(** [data], [buffer] and [callback] are references to objects of the program. *)
Definition ani_ref : Type := Z.
Record USBDeviceRequestParams := {
  req_bmRequestType : Z; req_bRequest : Z; req_wValue : Z; req_wIndex : Z; req_wLength : Z; req_data : ani_ref }.
Record UsbIsoPacketDescriptor := { iso_length : Z; iso_actualLength : Z; iso_status : Z }.
Record SubmitTransferCallback := { sub_actualLength : Z; sub_status : Z; sub_isoPacketDescs : list UsbIsoPacketDescriptor }.
Record UsbDataTransferParams := {
  t_devPipe : USBDevicePipe; t_flags : Z; t_endpoint : Z; t_type : Z; t_timeout : Z; t_length : Z; t_callback : ani_ref;
  t_buffer : ani_ref; t_isoPacketCount : Z }.
Record InterfaceConflictInfo := { conflict_busNum : Z; conflict_devAddr : Z; conflict_interfaceId : Z }.
Record SerialPort := { sp_portId : Z; sp_deviceName : string }.
Record SerialAttribute := { sa_baudRate : Z; sa_dataBits : option Z; sa_parity : option Z; sa_stopBits : option Z }.

(** The generated conversions between keys and values. *)
Class TaiheEnum := {
  from_value : list Z → Z → Z;
  get_value : list Z → Z → Z;
  law_from_value l k v : NoDup l → l !! k = Some v → from_value l v = Z.of_nat k;
  law_get_value l k v : l !! k = Some v → get_value l (Z.of_nat k) = v;
}.
End taihe.

(** ** The runtime *)

Inductive ani_status := ANI_OK | ANI_ERROR | ANI_OTHER.
#[global] Instance ani_status_eq_dec : EqDecision ani_status.
Proof. solve_decision. Defined.
Definition ani_vm : Type := Z.

(** The calls of the runtime: [None] and [false] are a status other than [ANI_OK]. *)
Class Ani (E : Type) := {
  set_business_error : Z → string → state E ();
  get_env : state E bool;                                          (* not null in this thread *)
  Object_GetFieldByName_Ref : taihe.ani_ref → string → state E (option taihe.ani_ref);
  ArrayBuffer_GetInfo : taihe.ani_ref → state E (option (option data_ptr * Z));
  GlobalReference_Create : taihe.ani_ref → state E (option taihe.ani_ref);
  GlobalReference_Delete : taihe.ani_ref → state E bool;
  GetVM : state E (bool * option ani_vm);
  AttachCurrentThread : ani_vm → state E (ani_status * bool);      (* with whether there is an environment *)
  GetEnv : ani_vm → state E (ani_status * bool);
  CreateLocalScope : Z → state E bool;
  DestroyLocalScope : state E ();
  FindClass : string → state E (option Z);
  Class_FindMethod : Z → string → string → state E (option Z);
  Object_New : Z → Z → state E (option taihe.ani_ref);
  Object_InstanceOf : taihe.ani_ref → Z → state E (option bool);
  FunctionalObject_Call : taihe.ani_ref → list (option taihe.ani_ref) → state E bool;
  into_ani_callback : taihe.SubmitTransferCallback → state E taihe.ani_ref;
  into_ani_conflict : taihe.InterfaceConflictInfo → state E taihe.ani_ref;
  (* the handler of the main thread, a variable of each thread *)
  mainHandler : state E bool;
  set_mainHandler : state E ();
  GetMainEventRunner : state E bool;
  (* the memory of an array; [memcpy_s] says whether it copied *)
  array_read : data_ptr → Z → state E (list Z);
  memcpy_s : option data_ptr → Z → list Z → state E bool;
}.

Module UsbManager.
Export taihe.

Definition ERROR : Z := -1.
Definition IO_ERROR : Z := -1.
Definition INVALID_PARAM : Z := -2.
Definition NO_DEVICE : Z := -4.
Definition NOT_FOUND : Z := -5.
Definition ERROR_BUSY : Z := -6.
Definition NO_MEM : Z := -11.
Definition TRANSFER_TYPE_ISOCHRONOUS : Z := 1.
Definition LOCAL_SCOPE_SIZE : Z := 16.
Definition USB_RIGHT_FAILURE : Z := -1.

(** The codes are those of the JavaScript module; there is no message for
    [USB_DEVICE_PIPE_CHECK_ERROR]. *)
Definition ERRCODE_MSG_MAP : list (Z * string) := [
  (OHEC_COMMON_PERMISSION_NOT_ALLOWED, "BusinessError 201:Permission verification failed. The application does not have the permission required to call the API.");
  (OHEC_COMMON_NORMAL_APP_NOT_ALLOWED, "BusinessError 202:Permission denied. Normal application uses system api.");
  (OHEC_COMMON_PARAM_ERROR, "BusinessError 401:Parameter error.");
  (CAPABILITY_NOT_SUPPORT, "BusinessError 801:Capability not supported.");
  (UEC_COMMON_HAS_NO_RIGHT, "BusinessError 14400001:Permission denied.");
  (UEC_COMMON_HDC_NOT_ALLOWED, "BusinessError 14400002:Permission denied. The HDC is disabled by the system.");
  (UEC_COMMON_PORTROLE_SWITCH_NOT_ALLOWED, "BusinessError 14400003:Unsupported operation.The current device does not support port role switching.");
  (UEC_COMMON_SERVICE_EXCEPTION, "BusinessError 14400004:Service exception. Possible causes:No accessory is plugged in.");
  (UEC_COMMON_RIGHT_DATABASE_ERROR, "BusinessError 14400005:Database operation exception.");
  (UEC_COMMON_FUNCTION_NOT_SUPPORT, "BusinessError 14400006:Unsupported operation. The function is not supported.");
  (UEC_ACCESSORY_NOT_MATCH, "BusinessError 14401001:The target USBAccessory not matched.");
  (UEC_ACCESSORY_OPEN_FAILED, "BusinessError 14401002:Failed to open the native accessory node.");
  (UEC_ACCESSORY_CAN_NOT_REOPEN, "BusinessError 14401003:Cannot reopen the accessory.");
  (USB_SUBMIT_TRANSFER_RESOURCE_BUSY_ERROR, "BusinessError 14400007:Resource busy.");
  (USB_SUBMIT_TRANSFER_NO_DEVICE_ERROR, "BusinessError 14400008:No such device (it may have been disconnected).");
  (USB_SUBMIT_TRANSFER_NO_MEM_ERROR, "BusinessError 14400009:Insufficient memory.");
  (USB_SUBMIT_TRANSFER_OTHER_ERROR, "BusinessError 14400010:Other USB error.");
  (USB_SUBMIT_TRANSFER_NOT_FOUND_ERROR, "BusinessError 14400011:The transfer is not in progress, or is already complete or cancelled.");
  (USB_SUBMIT_TRANSFER_IO_ERROR, "BusinessError 14400012:Transmission I/O error.")].
Definition GetErrMsgByErrCode (errCode : Z) : string :=
  match find (λ p, p.1 =? errCode) ERRCODE_MSG_MAP with Some p => p.2 | None => "" end.

(** ** Conversions *)

(** Strings of the runtime are made of the whole of a string; on the way back
    [c_str()] ends at the first NUL. *)
Definition ParseToUSBEndpoint (e : USBEndpoint.t) : USBEndpoint := {|
  ep_address := to_i32 (USBEndpoint.address_ e);
  ep_attributes := to_i32 (USBEndpoint.attributes_ e);
  ep_interval := USBEndpoint.interval_ e;
  ep_maxPacketSize := USBEndpoint.maxPacketSize_ e;
  ep_direction := if USBEndpoint.GetDirection e =? USB_ENDPOINT_DIR_OUT then USB_REQUEST_DIR_TO_DEVICE else USB_REQUEST_DIR_FROM_DEVICE;
  ep_endpointAddr := USBEndpoint.GetEndpointNumber e;
  ep_type := USBEndpoint.GetType e;
  ep_interfaceId := GetInterfaceId e |}.
Definition ParseToUSBInterface (i : UsbInterface.t) : USBInterface := {|
  if_id := UsbInterface.id_ i; if_protocol := UsbInterface.protocol_ i; if_clazz := UsbInterface.klass_ i;
  if_subClass := UsbInterface.subClass_ i; if_alternateSetting := UsbInterface.alternateSetting_ i; if_name := UsbInterface.name_ i;
  if_endpoints := map ParseToUSBEndpoint (UsbInterface.endpoints_ i) |}.
Definition ParseToUSBConfiguration (c : USBConfig.t) : USBConfiguration := {|
  cfg_id := USBConfig.id_ c; cfg_attributes := to_i32 (USBConfig.attributes_ c); cfg_maxPower := USBConfig.GetMaxPower c;
  cfg_name := USBConfig.name_ c; cfg_isRemoteWakeup := USBConfig.IsRemoteWakeup c; cfg_isSelfPowered := USBConfig.IsSelfPowered c;
  cfg_interfaces := map ParseToUSBInterface (USBConfig.interfaces_ c) |}.
Definition ParseToUSBDevice (d : UsbDevice.t) : USBDevice := {|
  dev_busNum := UsbDevice.busNum_ d; dev_devAddress := UsbDevice.devAddr_ d; dev_serial := UsbDevice.serial_ d;
  dev_name := UsbDevice.name_ d; dev_manufacturerName := UsbDevice.manufacturerName_ d; dev_productName := UsbDevice.productName_ d;
  dev_version := UsbDevice.version_ d; dev_vendorId := UsbDevice.vendorId_ d; dev_productId := UsbDevice.productId_ d;
  dev_clazz := UsbDevice.baseClass_ d; dev_subClass := UsbDevice.subClass_ d; dev_protocol := UsbDevice.protocol_ d;
  dev_configs := map ParseToUSBConfiguration (UsbDevice.configs_ d) |}.

Definition ConvertToUSBEndpoint (e : USBEndpoint) : USBEndpoint.t := {|
  USBEndpoint.address_ := to_u32 (ep_address e); USBEndpoint.attributes_ := to_u32 (ep_attributes e);
  USBEndpoint.interval_ := ep_interval e; USBEndpoint.maxPacketSize_ := ep_maxPacketSize e;
  USBEndpoint.interfaceId_ := to_u8 (ep_interfaceId e) |}.
Definition ConvertToUsbInterface (i : USBInterface) : UsbInterface.t := {|
  UsbInterface.id_ := if_id i; UsbInterface.protocol_ := if_protocol i; UsbInterface.klass_ := if_clazz i;
  UsbInterface.subClass_ := if_subClass i; UsbInterface.alternateSetting_ := if_alternateSetting i;
  UsbInterface.name_ := c_str (if_name i); UsbInterface.endpoints_ := map ConvertToUSBEndpoint (if_endpoints i);
  UsbInterface.iInterface_ := UsbInterface.iInterface_ UsbInterface.default_;
  UsbInterface.authorized_ := UsbInterface.authorized_ UsbInterface.default_ |}.
Definition ConvertUSBDevicePipe (p : USBDevicePipe) : UsbSrvClient.USBDevicePipe :=
  {| pipe_busNum_ := to_u8 (p_busNum p); pipe_devAddr_ := to_u8 (p_devAddress p) |}.
Definition ConvertToUSBConfig (c : USBConfiguration) : USBConfig.t := {|
  USBConfig.id_ := cfg_id c; USBConfig.attributes_ := to_u32 (cfg_attributes c);
  USBConfig.interfaces_ := map ConvertToUsbInterface (cfg_interfaces c); USBConfig.maxPower_ := cfg_maxPower c;
  USBConfig.name_ := c_str (cfg_name c); USBConfig.iConfiguration_ := USBConfig.iConfiguration_ USBConfig.default_ |}.
(** [ConvertUsbDevice] and [taihe2Native] *)
Definition ConvertUsbDevice (a : USBAccessory) : UsbAccessory.USBAccessory := {|
  manufacturer_ := c_str (acc_manufacturer a); product_ := c_str (acc_product a); description_ := c_str (acc_description a);
  version_ := c_str (acc_version a); serialNumber_ := c_str (acc_serialNumber a) |}.
(** What is not set is as the constructor left it, the serial number too. *)
Definition ConvertToUsbDevice (d : USBDevice) : UsbDevice.t :=
  let o := UsbDevice.default_ in {|
  UsbDevice.name_ := c_str (dev_name d); UsbDevice.manufacturerName_ := c_str (dev_manufacturerName d);
  UsbDevice.productName_ := c_str (dev_productName d); UsbDevice.version_ := c_str (dev_version d);
  UsbDevice.serial_ := UsbDevice.serial_ o; UsbDevice.authorizeStatus_ := UsbDevice.authorizeStatus_ o;
  UsbDevice.devAddr_ := to_u8 (dev_devAddress d); UsbDevice.busNum_ := to_u8 (dev_busNum d);
  UsbDevice.descConfigCount_ := UsbDevice.descConfigCount_ o; UsbDevice.bMaxPacketSize0_ := UsbDevice.bMaxPacketSize0_ o;
  UsbDevice.bcdUSB_ := UsbDevice.bcdUSB_ o; UsbDevice.bcdDevice_ := UsbDevice.bcdDevice_ o;
  UsbDevice.iManufacturer_ := UsbDevice.iManufacturer_ o; UsbDevice.iProduct_ := UsbDevice.iProduct_ o;
  UsbDevice.iSerialNumber_ := UsbDevice.iSerialNumber_ o; UsbDevice.vendorId_ := dev_vendorId d; UsbDevice.productId_ := dev_productId d;
  UsbDevice.baseClass_ := dev_clazz d; UsbDevice.subClass_ := dev_subClass d; UsbDevice.protocol_ := dev_protocol d;
  UsbDevice.configs_ := map ConvertToUSBConfig (dev_configs d) |}.
Definition ConvertUSBPortStatus (s : UsbPortManager.UsbPortStatus) : USBPortStatus := {|
  st_currentMode := UsbPortManager.currentMode s; st_currentPowerRole := UsbPortManager.currentPowerRole s;
  st_currentDataRole := UsbPortManager.currentDataRole s |}.
(** A mode that is out of range is none. *)
Definition ConvertUSBPort (p : UsbPortManager.UsbPort) : USBPort :=
  let modes := UsbPortManager.supportedModes p in {|
  port_id := UsbPortManager.id p;
  port_supportedModes := if (0 <=? modes) && (modes <? NUM_MODES) then modes else 0;
  port_status := ConvertUSBPortStatus (UsbPortManager.usbPortStatus p) |}.
Definition native2Taihe (a : UsbAccessory.USBAccessory) : USBAccessory := {|
  acc_manufacturer := manufacturer_ a; acc_product := product_ a; acc_description := description_ a; acc_version := version_ a;
  acc_serialNumber := serialNumber_ a |}.
(** The endpoint of a bulk transfer, through the other constructor. *)
Definition ParseEndpointObj (e : USBEndpoint) : USBEndpoint.t := {|
  USBEndpoint.address_ := to_u32 (ep_address e); USBEndpoint.attributes_ := to_u32 (ep_attributes e);
  USBEndpoint.interval_ := to_i32 (to_u32 (ep_interval e)); USBEndpoint.maxPacketSize_ := to_i32 (to_u32 (ep_maxPacketSize e));
  USBEndpoint.interfaceId_ := to_u8 (ep_interfaceId e) |}.

Section Functions.
Context {S P E O : Type} `{!IUsbServer S, !ClientPlatform P, !ErrCodeBase, !Ani E, !NapiSystem O}.
Context (others : state (UsbSrvClient S P) ()).
(** What the handle of an accessory holds that is not set. *)
Context (uninit_handle : Z).
(** The state of a process that uses a module; the works and the transfers of the JavaScript
    module stay empty. *)
Abbreviation M := (state (UsbInfo S P E O)).

(** ** What the functions share *)

Definition ThrowBusinessError (errCode : Z) (errMsg : string) : M () :=
  on_engine (set_business_error errCode (GetErrMsgByErrCode errCode +:+ errMsg)).
(** [metrics.SetErrorCode(c); ThrowBusinessError(c, msg); return r;] *)
Definition fail_with {A} (r : A) (errCode : Z) (errMsg : string) : M A :=
  SetErrorCode errCode;; ThrowBusinessError errCode errMsg;; mret r.
Definition unsupported {A} (r : A) (f : UsbManagerFeature) (k : M A) : M A :=
  if negb (HasFeature O f) then fail_with r CAPABILITY_NOT_SUPPORT "" else k.
(** The two checks after a request of a system function. *)
Definition system_api {A} (r_normal r_permission : A) (ret : Z) (msg_normal msg_permission : string) (k : M A) : M A :=
  if ret =? uec UEC_SERVICE_PERMISSION_DENIED_SYSAPI then fail_with r_normal OHEC_COMMON_NORMAL_APP_NOT_ALLOWED msg_normal
  else if ret =? uec UEC_SERVICE_PERMISSION_DENIED_SYSAPI_FAILED then fail_with r_permission OHEC_COMMON_PERMISSION_NOT_ALLOWED msg_permission
  else k.

(** ** Devices *)

Definition connectDevice (device : USBDevice) : M USBDevicePipe :=
  with_metrics "BasicServicesKit.UsbManager.Static.ConnectDevice" (
  unsupported no_pipe FEATURE_HOST (
  '(ret, pipe) ← on_client (OpenDevice others (ConvertToUsbDevice device) new_pipe);
  if (ret =? uec UEC_SERVICE_PERMISSION_DENIED) || (ret =? uec UEC_INTERFACE_PERMISSION_DENIED) then
    fail_with no_pipe UEC_COMMON_HAS_NO_RIGHT "need call requestRight to get the permission"
  else if ret =? HDF_DEV_ERR_NO_DEVICE then fail_with no_pipe USB_SUBMIT_TRANSFER_IO_ERROR ""
  else if negb (ret =? UEC_OK) then fail_with no_pipe UEC_COMMON_SERVICE_EXCEPTION ""
  else mret {| p_busNum := pipe_busNum_ pipe; p_devAddress := pipe_devAddr_ pipe |})).
Definition getDevices : M (list USBDevice) :=
  with_metrics "BasicServicesKit.UsbManager.Static.GetDevices" (
  unsupported [] FEATURE_HOST (
  '(ret, deviceList) ← on_client (GetDevices others []);
  mret (if negb (ret =? 0) then [] else map ParseToUSBDevice deviceList))).
Definition hasRight (deviceName : string) : M bool :=
  with_metrics "BasicServicesKit.UsbManager.Static.HasRight" (
  unsupported false FEATURE_HOST (on_client (HasRight others deviceName))).
Definition requestRightSync (deviceName : string) : M bool :=
  with_metrics "BasicServicesKit.UsbManager.Static.RequestRightSync" (
  unsupported false FEATURE_HOST (ret ← on_client (RequestRight others deviceName); mret (ret =? UEC_OK))).
Definition removeRight (deviceName : string) : M bool :=
  with_metrics "BasicServicesKit.UsbManager.Static.RemoveRight" (
  unsupported false FEATURE_HOST (ret ← on_client (RemoveRight others deviceName); mret (ret =? UEC_OK))).
(** Other codes are counted and not thrown. *)
Definition addDeviceAccessRight (tokenId deviceName : string) : M bool :=
  with_metrics "BasicServicesKit.UsbManager.Static.AddAccessRight" (
  unsupported false FEATURE_HOST (
  ret ← on_client (AddAccessRight others tokenId deviceName);
  if ret =? UEC_OK then mret true else
  system_api false false ret "Normal app not allowed" "Permission not allowed" (SetErrorCode UEC_COMMON_SERVICE_EXCEPTION;; mret false))).

(** ** Functions and ports *)

(** What is thrown is returned as well. *)
Definition getFunctionsFromString (funcs : string) : M Z :=
  with_metrics "BasicServicesKit.UsbManager.Static.GetFunctionsFromString" (
  unsupported CAPABILITY_NOT_SUPPORT FEATURE_DEVICE (
  numFuncs ← on_client (UsbSrvClient.UsbFunctionsFromString others funcs);
  system_api OHEC_COMMON_NORMAL_APP_NOT_ALLOWED OHEC_COMMON_PERMISSION_NOT_ALLOWED numFuncs "" "" (mret numFuncs))).
Definition getStringFromFunctions (funcs : Z) : M string :=
  with_metrics "BasicServicesKit.UsbManager.Static.GetStringFromFunctions" (
  unsupported "" FEATURE_DEVICE (
  strFuncs ← on_client (UsbSrvClient.UsbFunctionsToString others funcs);
  if bool_decide (strFuncs = PERMISSION_DENIED_SYSAPI) then fail_with "" OHEC_COMMON_NORMAL_APP_NOT_ALLOWED ""
  else if bool_decide (strFuncs = SYS_APP_PERMISSION_DENIED_SYSAPI) then fail_with "" OHEC_COMMON_PERMISSION_NOT_ALLOWED ""
  else mret strFuncs)).
Definition setDeviceFunctionsSync (funcs : Z) : M () :=
  with_metrics "BasicServicesKit.UsbManager.Static.SetDeviceFunctionsSync" (
  unsupported () FEATURE_DEVICE (
  ret ← on_client (SetCurrentFunctions others funcs);
  if ret =? UEC_OK then mret () else
  system_api () () ret "" "" (
  if ret =? uec UEC_SERVICE_PERMISSION_CHECK_HDC then fail_with () UEC_COMMON_HDC_NOT_ALLOWED ""
  else fail_with () UEC_COMMON_FUNCTION_NOT_SUPPORT ""))).
Definition getDeviceFunctions : M Z :=
  with_metrics "BasicServicesKit.UsbManager.Static.GetDeviceFunctions" (
  unsupported 0 FEATURE_DEVICE (
  '(ret, cfuncs) ← on_client (UsbSrvClient.GetCurrentFunctions others 0);
  system_api cfuncs cfuncs ret "Normal app not allowed" "Permission not allowed" (
  if negb (ret =? UEC_OK) then fail_with cfuncs UEC_COMMON_SERVICE_EXCEPTION "" else mret cfuncs))).
Definition getPortList : M (list USBPort) :=
  with_metrics "BasicServicesKit.UsbManager.Static.GetPortList" (
  unsupported [] FEATURE_PORT (
  '(ret, ports) ← on_client (UsbSrvClient.GetPorts others []);
  system_api [] [] ret "" "" (
  if negb (ret =? UEC_OK) then fail_with [] UEC_COMMON_SERVICE_EXCEPTION "" else mret (map ConvertUSBPort ports)))).
(** The answer of the service is the key, whatever it is. *)
Definition getPortSupportModes (portId : Z) : M Z :=
  with_metrics "BasicServicesKit.UsbManager.Static.GetPortSupportModes" (
  unsupported 0 FEATURE_PORT (
  if portId <? 0 then fail_with 0 OHEC_COMMON_PARAM_ERROR "" else
  '(ret, result) ← on_client (UsbSrvClient.GetSupportedModes others portId 0);
  system_api result result ret "" "" (
  (if negb (ret =? UEC_OK) then SetErrorCode UEC_COMMON_SERVICE_EXCEPTION else mret ());; mret result))).
(** The roles are the values of their keys, which are the same numbers. *)
Definition setPortRoleTypesSync (portId powerRole dataRole : Z) : M () :=
  with_metrics "BasicServicesKit.UsbManager.Static.SetPortRoleTypesSync" (
  unsupported () FEATURE_PORT (
  if (portId <? 0) || (powerRole <? 0) || (dataRole <? 0) then fail_with () OHEC_COMMON_PARAM_ERROR "" else
  ret ← on_client (SetPortRole others portId powerRole dataRole);
  system_api () () ret "" "" (
  if negb (ret =? UEC_OK) then fail_with () UEC_COMMON_PORTROLE_SWITCH_NOT_ALLOWED "" else mret ()))).

(** ** Accessories *)

Definition addAccessoryRight (tokenId : Z) (accessory : USBAccessory) : M () :=
  with_metrics "BasicServicesKit.UsbManager.Static.AddAccessoryRight" (
  unsupported () FEATURE_DEVICE (
  ret ← on_client (AddAccessoryRight others (to_u32 tokenId) (ConvertUsbDevice accessory));
  if ret =? UEC_OK then mret ()
  else if ret =? uec UEC_SERVICE_GET_TOKEN_INFO_FAILED then fail_with () OHEC_COMMON_PARAM_ERROR ""
  else if ret =? uec UEC_SERVICE_ACCESSORY_NOT_MATCH then fail_with () OHEC_COMMON_PARAM_ERROR "Get accessory through getAccessoryList"
  else if ret =? uec UEC_SERVICE_DATABASE_OPERATION_FAILED then
    fail_with () UEC_COMMON_RIGHT_DATABASE_ERROR "Database request operation exception"
  else system_api () () ret "" "" (fail_with () UEC_COMMON_SERVICE_EXCEPTION "Service exception"))).
(** The ends of three functions, which differ in their messages. *)
Definition accessory_answer {A} (r : A) (ret : Z) (not_match database exception : string) : M A :=
  if ret =? UEC_OK then mret r
  else if ret =? uec UEC_SERVICE_ACCESSORY_NOT_MATCH then fail_with r UEC_ACCESSORY_NOT_MATCH not_match
  else if ret =? uec UEC_SERVICE_DATABASE_OPERATION_FAILED then fail_with r UEC_COMMON_RIGHT_DATABASE_ERROR database
  else fail_with r UEC_COMMON_SERVICE_EXCEPTION exception.
Definition hasAccessoryRight (accessory : USBAccessory) : M bool :=
  with_metrics "BasicServicesKit.UsbManager.Static.HasAccessoryRight" (
  unsupported false FEATURE_DEVICE (
  '(ret, result) ← on_client (HasAccessoryRight others (ConvertUsbDevice accessory) false);
  accessory_answer result ret "Get accessory through getAccessoryList" "Database request operation exception" "Service exception")).
Definition requestAccessoryRightSync (accessory : USBAccessory) : M bool :=
  with_metrics "BasicServicesKit.UsbManager.Static.RequestAccessoryRightSync" (
  unsupported false FEATURE_DEVICE (
  '(ret, result) ← on_client (RequestAccessoryRight others (ConvertUsbDevice accessory) false);
  accessory_answer result ret "" "" "")).
(** The current accessory is closed first, whichever accessory it is. *)
Definition cancelAccessoryRight (accessory : USBAccessory) : M () :=
  with_metrics "BasicServicesKit.UsbManager.Static.CancelAccessoryRight" (
  unsupported () FEATURE_DEVICE (
  fd ← gets g_accFd;
  (if negb (fd =? 0) then
     _ ← on_client (CloseAccessory others fd);
     on_system (close_fd fd);;
     modify (set_accFd 0)
   else mret ());;
  ret ← on_client (CancelAccessoryRight others (ConvertUsbDevice accessory));
  accessory_answer () ret "Get accessory through getAccessoryList" "Database request operation exception" "Service exception")).
Definition getAccessoryList : M (list USBAccessory) :=
  with_metrics "BasicServicesKit.UsbManager.Static.GetAccessoryList" (
  unsupported [] FEATURE_DEVICE (
  '(ret, accessoryList) ← on_client (GetAccessoryList others []);
  if ret =? UEC_OK then mret (map native2Taihe accessoryList) else fail_with [] UEC_COMMON_SERVICE_EXCEPTION "Service exception")).
(** The handle is its descriptor. *)
Definition openAccessory (accessory : USBAccessory) : M Z :=
  with_metrics "BasicServicesKit.UsbManager.Static.OpenAccessory" (
  unsupported uninit_handle FEATURE_DEVICE (
  '(ret, fd) ← on_client (OpenAccessory others (ConvertUsbDevice accessory) (-1));
  if ret =? UEC_OK then modify (set_accFd fd);; mret fd
  else if (ret =? uec UEC_SERVICE_PERMISSION_DENIED) || (ret =? uec UEC_INTERFACE_PERMISSION_DENIED) then
    fail_with uninit_handle UEC_COMMON_HAS_NO_RIGHT ""
  else if ret =? uec UEC_SERVICE_ACCESSORY_NOT_MATCH then fail_with uninit_handle UEC_ACCESSORY_NOT_MATCH ""
  else if ret =? uec UEC_SERVICE_ACCESSORY_OPEN_NATIVE_NODE_FAILED then fail_with uninit_handle UEC_ACCESSORY_OPEN_FAILED ""
  else if ret =? uec UEC_SERVICE_ACCESSORY_REOPEN then fail_with uninit_handle UEC_ACCESSORY_CAN_NOT_REOPEN ""
  else fail_with uninit_handle UEC_COMMON_SERVICE_EXCEPTION "")).
(** With no accessory open any descriptor is closed. *)
Definition closeAccessory (accessoryFd : Z) : M () :=
  with_metrics "BasicServicesKit.UsbManager.Static.CloseAccessory" (
  unsupported () FEATURE_DEVICE (
  fd ← gets g_accFd;
  if negb (accessoryFd =? fd) && negb (fd =? 0) then
    fail_with () OHEC_COMMON_PARAM_ERROR "Parameter accessoryHandle error, need openAccessory first."
  else
  on_system (close_fd accessoryFd);;
  ret ← on_client (CloseAccessory others fd);
  modify (set_accFd 0);;
  if negb (ret =? UEC_OK) then fail_with () UEC_COMMON_SERVICE_EXCEPTION "Service exception" else mret ())).

(** ** Pipes *)

Definition claimInterface (pipe : USBDevicePipe) (iface : USBInterface) (force : option bool) : M Z :=
  with_metrics "BasicServicesKit.UsbManager.Static.ClaimInterface" (
  unsupported ERROR FEATURE_HOST (on_client (ClaimInterface (ConvertUSBDevicePipe pipe) (ConvertToUsbInterface iface) (default false force)))).
Definition releaseInterface (pipe : USBDevicePipe) (iface : USBInterface) : M Z :=
  with_metrics "BasicServicesKit.UsbManager.Static.ReleaseInterface" (
  unsupported ERROR FEATURE_HOST (on_client (ReleaseInterface (ConvertUSBDevicePipe pipe) (ConvertToUsbInterface iface)))).
Definition setConfiguration (pipe : USBDevicePipe) (config : USBConfiguration) : M Z :=
  with_metrics "BasicServicesKit.UsbManager.Static.SetConfiguration" (
  unsupported ERROR FEATURE_HOST (on_client (SetConfiguration (ConvertUSBDevicePipe pipe) (ConvertToUSBConfig config)))).
Definition setInterface (pipe : USBDevicePipe) (iface : USBInterface) : M Z :=
  with_metrics "BasicServicesKit.UsbManager.Static.SetInterface" (
  unsupported ERROR FEATURE_HOST (on_client (SetInterface (ConvertUSBDevicePipe pipe) (ConvertToUsbInterface iface)))).
Definition getRawDescriptor (pipe : USBDevicePipe) : M (list Z) :=
  with_metrics "BasicServicesKit.UsbManager.Static.GetRawDescriptor" (
  unsupported [] FEATURE_HOST (
  '(ret, bufferData) ← on_client (GetRawDescriptors others (ConvertUSBDevicePipe pipe) []);
  if ret =? uec UEC_SERVICE_PERMISSION_DENIED then fail_with [] UEC_COMMON_HAS_NO_RIGHT "need call requestRight to get the permission"
  else if negb (ret =? UEC_OK) then fail_with [] UEC_COMMON_SERVICE_EXCEPTION ""
  else mret bufferData)).
(** A failure is the descriptor as the service left it. *)
Definition getFileDescriptor (pipe : USBDevicePipe) : M Z :=
  with_metrics "BasicServicesKit.UsbManager.Static.GetFileDescriptor" (
  unsupported ERROR FEATURE_HOST ('(_, fd) ← on_client (GetFileDescriptor others (ConvertUSBDevicePipe pipe) ERROR); mret fd)).
Definition closePipe (pipe : USBDevicePipe) : M Z :=
  with_metrics "BasicServicesKit.UsbManager.Static.ClosePipe" (
  unsupported ERROR FEATURE_HOST (on_client (Pipe_Close (ConvertUSBDevicePipe pipe)))).
Definition resetUsbDevice (pipe : USBDevicePipe) : M bool :=
  with_metrics "BasicServicesKit.UsbManager.ResetUsbDevice" (
  if negb (HasFeature O FEATURE_HOST) then fail_with false CAPABILITY_NOT_SUPPORT "Capability not supported." else
  ret ← on_client (ResetDevice others (ConvertUSBDevicePipe pipe));
  if ret =? UEC_OK then mret true
  else if (ret =? HDF_DEV_ERR_NO_DEVICE) || (ret =? uec UEC_INTERFACE_NAME_NOT_FOUND) then
    fail_with false USB_SUBMIT_TRANSFER_NO_DEVICE_ERROR "BusinessError 14400008:No such device (it may have been disconnected)."
  else if ret =? uec UEC_SERVICE_PERMISSION_DENIED then fail_with false UEC_COMMON_HAS_NO_RIGHT "No permission."
  else if ret =? USB_RIGHT_FAILURE then fail_with false USB_DEVICE_PIPE_CHECK_ERROR "Check devicePipe failed."
  else if ret =? uec UEC_SERVICE_INVALID_VALUE then
    fail_with false UEC_COMMON_SERVICE_EXCEPTION "BusinessError 14400004:Service exception. Possible causes:No accessory is plugged in."
  else fail_with false USB_SUBMIT_TRANSFER_OTHER_ERROR "BusinessError 14400010:Other USB error.").

(** ** Transfers that wait *)

(** The bytes behind an array object. *)
Definition array_info (array_obj : ani_ref) : state E (option (option data_ptr * Z)) :=
  env ← get_env;
  if negb env then mret None else
  bufferRef ← Object_GetFieldByName_Ref array_obj "buffer";
  match bufferRef with None => mret None | Some r => ArrayBuffer_GetInfo r end.
(** A null address has no bytes. *)
Definition bytes_at (data : option data_ptr) (size : Z) : state E (list Z) :=
  match data with Some p => array_read p size | None => mret [] end.
(** For a read the code of the copy takes the place of the service's. *)
Definition usbControlTransferSync (pipe : USBDevicePipe) (requestparam : USBDeviceRequestParams) (timeout : option Z) : M Z :=
  with_metrics "BasicServicesKit.UsbManager.Static.UsbControlTransferSync" (
  unsupported ERROR FEATURE_HOST (
  let tctrl := {| requestType := req_bmRequestType requestparam; requestCmd := req_bRequest requestparam;
    ctrl_value := req_wValue requestparam; ctrl_index := req_wIndex requestparam; ctrl_length := req_wLength requestparam;
    ctrl_timeout := default 0 timeout |} in
  info ← on_engine (array_info (req_data requestparam));
  match info with
  | None => mret ERROR
  | Some (data, size) =>
      bufferData ← on_engine (bytes_at data size);
      '(ret, bufferData) ← on_client (UsbControlTransfer (ConvertUSBDevicePipe pipe) tctrl bufferData);
      ok ← (if Z.land (to_u32 (req_bmRequestType requestparam)) USB_ENDPOINT_DIR_MASK =? USB_ENDPOINT_DIR_IN
            then on_engine (memcpy_s data size bufferData) else mret (ret =? UEC_OK));
      mret (if (ok : bool) then to_i32 (Z.of_nat (length bufferData)) else ERROR)
  end)).
Definition bulkTransferSync (pipe : USBDevicePipe) (endpoint : USBEndpoint) (buffer : ani_ref) (timeout : option Z) : M Z :=
  with_metrics "BasicServicesKit.UsbManager.Static.BulkTransferSync" (
  unsupported ERROR FEATURE_HOST (
  info ← on_engine (array_info buffer);
  match info with
  | None => mret ERROR
  | Some (data, size) =>
      let ep := ParseEndpointObj endpoint in
      bufferData ← on_engine (bytes_at data size);
      '(ret, bufferData) ← on_client (BulkTransfer (ConvertUSBDevicePipe pipe) ep bufferData (default 0 timeout));
      copied ← (if USBEndpoint.GetDirection ep =? USB_ENDPOINT_DIR_IN then
                  if size <? Z.of_nat (length bufferData) then mret false else on_engine (memcpy_s data size bufferData)
                else mret true);
      mret (if (copied : bool) && (ret =? UEC_OK) then to_i32 (Z.of_nat (length bufferData)) else ERROR)
  end)).
End Functions.

(** ** Submitted transfers and claims that wait for others *)

Record USBTransferAsyncContext := {
  vm : option ani_vm;
  pipe : UsbSrvClient.USBDevicePipe;
  endpoint : Z;
  flags : Z;
  type : Z;
  timeOut : Z;
  length_ : Z;                  (* [length] *)
  bufferLength : Z;
  ashmem : option Ashmem;
  buffer : option data_ptr;
  numIsoPackets : Z;            (* uint32_t *)
  callbackRef : option ani_ref;
}.
Record ClaimExclusiveCallbackContext := { claim_vm : ani_vm; claim_callbackRef : ani_ref }.
(** What is posted to the main thread. *)
Inductive Task :=
  | TransferTask (context : positive) (callbackParam : SubmitTransferCallback)
  | ConflictTask (ctx : ClaimExclusiveCallbackContext) (param : InterfaceConflictInfo).
Record Library (S P E O : Type) := {
  process : UsbInfo S P E O;
  contexts : gmap positive USBTransferAsyncContext;
  claim_contexts : gmap Listener ClaimExclusiveCallbackContext;     (* of the functions given to the client library *)
  tasks : list Task;
}.
Arguments process {S P E O} _.
Arguments contexts {S P E O} _.
Arguments claim_contexts {S P E O} _.
Arguments tasks {S P E O} _.
Arguments Build_Library {S P E O} _ _ _ _.

Section LibraryFields.
Context {S P E O : Type}.
Definition set_process (x : UsbInfo S P E O) (m : Library S P E O) : Library S P E O := let 'Build_Library _ b c d := m in Build_Library x b c d.
Definition set_contexts (x : gmap positive USBTransferAsyncContext) (m : Library S P E O) : Library S P E O := let 'Build_Library a _ c d := m in Build_Library a x c d.
Definition set_claim_contexts (x : gmap Listener ClaimExclusiveCallbackContext) (m : Library S P E O) : Library S P E O := let 'Build_Library a b _ d := m in Build_Library a b x d.
Definition set_tasks (x : list Task) (m : Library S P E O) : Library S P E O := let 'Build_Library a b c _ := m in Build_Library a b c x.
End LibraryFields.

Section Callbacks.
Context {S P E O : Type} `{!IUsbServer S, !ClientPlatform P, !ErrCodeBase, !Ani E, !NapiSystem O}.
Context (others : state (UsbSrvClient S P) ()).
(** The static [TransferCompleteCallback], and the flags of a structure that are not set. *)
Context (TransferCompleteCallback : Listener) (uninit_flags : Z).
Abbreviation TM := (state (Library S P E O)).

Definition on_process {A} (f : state (UsbInfo S P E O) A) : TM A := zoom process set_process f.
Definition on_env {A} (f : state E A) : TM A := on_process (on_engine f).
Definition on_memory {A} (f : state O A) : TM A := on_process (on_system f).
Definition delete_context (ctx : positive) : TM () := modify (λ m, set_contexts (delete ctx (contexts m)) m).

Definition UsbSubmitTransferErrorCode (error : Z) : Z :=
  if error =? IO_ERROR then USB_SUBMIT_TRANSFER_IO_ERROR
  else if error =? INVALID_PARAM then OHEC_COMMON_PARAM_ERROR
  else if error =? NO_DEVICE then USB_SUBMIT_TRANSFER_NO_DEVICE_ERROR
  else if error =? NOT_FOUND then USB_SUBMIT_TRANSFER_NOT_FOUND_ERROR
  else if error =? ERROR_BUSY then USB_SUBMIT_TRANSFER_RESOURCE_BUSY_ERROR
  else if error =? NO_MEM then USB_SUBMIT_TRANSFER_NO_MEM_ERROR
  else if error =? uec UEC_SERVICE_PERMISSION_DENIED then UEC_COMMON_HAS_NO_RIGHT
  else USB_SUBMIT_TRANSFER_OTHER_ERROR.

(** *** Submission *)

(** A context that is being filled is not reached by anything else: it is put into [contexts]
    when it is given away. *)
Definition CreateTransferContext (transfer : UsbDataTransferParams) : TM (option (positive * USBTransferAsyncContext)) :=
  m ← get;
  ctx ← on_memory (new_context (dom (contexts m)));
  match ctx with
  | None => on_process (ThrowBusinessError CAPABILITY_NOT_SUPPORT "");; mret None
  | Some ctx => mret (Some (ctx, {|
      vm := None; pipe := ConvertUSBDevicePipe (t_devPipe transfer); endpoint := t_endpoint transfer; flags := t_flags transfer;
      type := t_type transfer; timeOut := t_timeout transfer; length_ := t_length transfer; bufferLength := 0; ashmem := None;
      buffer := None; numIsoPackets := to_u32 (t_isoPacketCount transfer); callbackRef := None |}))
  end.
Definition set_data (v : option ani_vm) (data : option data_ptr) (size : Z) (c : USBTransferAsyncContext) : USBTransferAsyncContext :=
  {| vm := v; pipe := pipe c; endpoint := endpoint c; flags := flags c; type := type c; timeOut := timeOut c; length_ := length_ c;
     bufferLength := size; ashmem := ashmem c; buffer := data; numIsoPackets := numIsoPackets c; callbackRef := callbackRef c |}.
Definition set_callback (r : ani_ref) (c : USBTransferAsyncContext) : USBTransferAsyncContext :=
  {| vm := vm c; pipe := pipe c; endpoint := endpoint c; flags := flags c; type := type c; timeOut := timeOut c; length_ := length_ c;
     bufferLength := bufferLength c; ashmem := ashmem c; buffer := buffer c; numIsoPackets := numIsoPackets c; callbackRef := Some r |}.
Definition set_ashmem (a : Ashmem) (c : USBTransferAsyncContext) : USBTransferAsyncContext :=
  {| vm := vm c; pipe := pipe c; endpoint := endpoint c; flags := flags c; type := type c; timeOut := timeOut c; length_ := length_ c;
     bufferLength := bufferLength c; ashmem := Some a; buffer := buffer c; numIsoPackets := numIsoPackets c; callbackRef := callbackRef c |}.
Definition ExtractBufferData (array_obj : ani_ref) (c : USBTransferAsyncContext) : state E (option USBTransferAsyncContext) :=
  env ← get_env;
  if negb env then mret None else
  '(ok, v) ← GetVM;
  if negb ok then mret None else
  buffer ← Object_GetFieldByName_Ref array_obj "buffer";
  match buffer with
  | None => mret None
  | Some b =>
      info ← ArrayBuffer_GetInfo b;
      mret match info with Some (data, size) => Some (set_data v data size c) | None => None end
  end.
Definition SetupCallback (callbackObj : ani_ref) (c : USBTransferAsyncContext) : state E (option USBTransferAsyncContext) :=
  env ← get_env;
  if negb env then mret None else
  callback ← GlobalReference_Create callbackObj;
  mret ((λ r, set_callback r c) <$> callback).
(** The flags go nowhere. *)
Definition PrepareTransferInfo (transfer : UsbDataTransferParams) (ctx : positive) : USBTransferInfo :=
  {| info_endpoint := t_endpoint transfer; info_flags := uninit_flags; info_type := t_type transfer; info_timeOut := t_timeout transfer;
     info_length := t_length transfer; UsbHostTransfer.info_userData := Z.pos ctx; info_numIsoPackets := t_isoPacketCount transfer |}.
Definition set_info_length (n : Z) (i : USBTransferInfo) : USBTransferInfo :=
  {| info_endpoint := info_endpoint i; info_flags := info_flags i; info_type := info_type i; info_timeOut := info_timeOut i;
     info_length := n; UsbHostTransfer.info_userData := UsbHostTransfer.info_userData i; info_numIsoPackets := info_numIsoPackets i |}.
Definition endpoint_direction (endpoint : Z) : Z := Z.land (to_u8 endpoint) USB_ENDPOINT_DIR_MASK.
(** The memory is as long as the transfer, and what is sent as long as the array. *)
Definition CreateAndWriteAshmem (c : USBTransferAsyncContext) (obj : USBTransferInfo) : TM (option (Ashmem * USBTransferInfo)) :=
  shared ← on_memory (CreateAshmem "CreateAshmem" (length_ c));
  match shared with
  | None => mret None
  | Some a =>
      if endpoint_direction (endpoint c) =? USB_ENDPOINT_DIR_OUT then
        bufferData ← on_env (bytes_at (buffer c) (bufferLength c));
        on_memory (MapReadAndWriteAshmem a);;
        ok ← on_memory (WriteToAshmem a bufferData);
        if negb ok then on_memory (CloseAshmem a);; mret None else
        mret (Some (a, set_info_length (to_i32 (Z.of_nat (length bufferData))) obj))
      else mret (Some (a, obj))
  end.
Definition DeleteCallback (ctx : positive) (c : USBTransferAsyncContext) : TM () :=
  env ← on_env get_env;
  match callbackRef c with
  | Some r => if (env : bool) then _ ← on_env (GlobalReference_Delete r); mret () else mret ()
  | None => mret ()
  end;;
  delete_context ctx.
(** What goes wrong before the request is made is not thrown, and the callback is not
    called. *)
Definition submit (transfer : UsbDataTransferParams) : TM () :=
  context ← CreateTransferContext transfer;
  match context with
  | None => mret ()
  | Some (ctx, c) =>
      extracted ← on_env (ExtractBufferData (t_buffer transfer) c);
      match extracted with
      | None => delete_context ctx
      | Some c =>
          called ← on_env (SetupCallback (t_callback transfer) c);
          match called with
          | None => delete_context ctx
          | Some c =>
              shared ← CreateAndWriteAshmem c (PrepareTransferInfo transfer ctx);
              match shared with
              | None => DeleteCallback ctx c
              | Some (a, transferInfo) =>
                  let c := set_ashmem a c in
                  modify (λ m, set_contexts (<[ctx := c]> (contexts m)) m);;
                  ret ← on_process (on_client (UsbSubmitTransfer (pipe c) transferInfo (Some TransferCompleteCallback) a));
                  if negb (ret =? UEC_OK) then
                    on_memory (CloseAshmem a);;
                    DeleteCallback ctx c;;
                    on_process (fail_with () (UsbSubmitTransferErrorCode ret) "")
                  else mret ()
              end
          end
      end
  end.
Definition usbSubmitTransfer (transfer : UsbDataTransferParams) : TM () :=
  now ← on_memory gettimeofday;
  on_process (modify (set_metrics (UsbApiMetrics.construct "BasicServicesKit.UsbManager.SubmitTransfer" now)));;
  (if negb (HasFeature O FEATURE_HOST) then on_process (fail_with () CAPABILITY_NOT_SUPPORT "") else submit transfer);;
  m ← get;
  on_process (destroy_metrics (metrics (process m))).
Definition usbCancelTransfer (transfer : UsbDataTransferParams) : TM () := on_process (
  with_metrics "BasicServicesKit.UsbManager.UsbCancelTransfer" (
  unsupported () FEATURE_HOST (
  ret ← on_client (UsbCancelTransfer (ConvertUSBDevicePipe (t_devPipe transfer)) (t_endpoint transfer));
  if negb (ret =? UEC_OK) then fail_with () (UsbSubmitTransferErrorCode ret) "" else mret ()))).

(** *** The end of a transfer *)

Definition close_shared (a : option Ashmem) : TM () :=
  match a with Some a => on_memory (UnmapAshmem a);; on_memory (CloseAshmem a) | None => mret () end.
(** Reading [size] bytes of the shared memory and copying [actBufLen] of them, with the
    result of the copy only logged. *)
Definition copy_shared (c : USBTransferAsyncContext) (size actBufLen : Z) : TM () :=
  match ashmem c with
  | None => mret ()
  | Some a =>
      on_memory (MapReadAndWriteAshmem a);;
      ashmemBuffer ← on_memory (ReadFromAshmem a size);
      match ashmemBuffer with
      | None => mret ()
      | Some data => _ ← on_env (memcpy_s (buffer c) (bufferLength c) (take (Z.to_nat actBufLen) data)); mret ()
      end
  end.
Definition ReadDataToBuffer (c : USBTransferAsyncContext) (info : Completion) : TM () :=
  let is_input := endpoint_direction (endpoint c) =? USB_ENDPOINT_DIR_IN in
  (if is_input && (type c =? TRANSFER_TYPE_ISOCHRONOUS) && (info_status info =? UEC_OK) && (0 <? bufferLength c)
   then copy_shared c (to_i32 (bufferLength c)) (bufferLength c)
   else if is_input && (0 <? bufferLength c) && (0 <? info_actualLength info)
   then copy_shared c (info_actualLength info) (Z.min (info_actualLength info) (bufferLength c))
   else mret ());;
  close_shared (ashmem c).
Definition SendEventToMainThread (func : Task) : TM bool :=
  handler ← on_env mainHandler;
  runner ← (if (handler : bool) then mret true else on_env GetMainEventRunner);
  if negb runner then mret false else
  on_env (if (handler : bool) then mret () else set_mainHandler);;
  modify (λ m, set_tasks (tasks m ++ [func]) m);;
  mret true.
(** The lengths of a packet are given in the order of the driver's structure, which the
    interface has the other way round. *)
Definition iso_descriptor (i : UsbTransferCallbacks.UsbIsoPacketDescriptor) : UsbIsoPacketDescriptor :=
  {| iso_length := isoActualLength i; iso_actualLength := isoLength i; iso_status := isoStatus i |}.
Definition callback_param (info : Completion) : SubmitTransferCallback :=
  {| sub_actualLength := info_actualLength info; sub_status := info_status info; sub_isoPacketDescs := map iso_descriptor (info_iso info) |}.
Definition AniCallBack (ctx : positive) (c : USBTransferAsyncContext) (info : Completion) : TM () :=
  ReadDataToBuffer c info;;
  sent ← SendEventToMainThread (TransferTask ctx (callback_param info));
  if negb sent then DeleteCallback ctx c else mret ().
(** [TransferCompleteCallback]: a context that is not there has been deleted. *)
Definition on_completion (info : Completion) : TM () :=
  m ← get;
  match (match info_userData info with Z.pos ctx => c ← contexts m !! ctx; Some (ctx, c) | _ => None end) with
  | Some (ctx, c) => AniCallBack ctx c info
  | None => on_process (modify (set_bad_delete true))
  end.
Definition GetDefaultBusinessError : state E (option ani_ref) :=
  cls ← FindClass "@ohos.base.BusinessError";
  match cls with
  | None => mret None
  | Some cls =>
      ctor ← Class_FindMethod cls "<ctor>" ":";
      match ctor with None => mret None | Some ctor => Object_New cls ctor end
  end.
(** The environment of the main thread: [None] when there is none, [Fault] when the
    variable is null and used. *)
Definition attach (v : option ani_vm) : state E (outcome bool) :=
  match v with
  | None => mret Fault
  | Some v =>
      '(status, env) ← AttachCurrentThread v;
      if bool_decide (status = ANI_ERROR) then
        '(status, env) ← GetEnv v;
        if negb (bool_decide (status = ANI_OK)) then mret (Done false) else
        mret (if (env : bool) then Done true else Fault)
      else mret (if (env : bool) then Done true else Fault)
  end.
(** A call of a function object that is an instance of a class. *)
Definition call_function (callback : ani_ref) (class : string) (argv : list (option ani_ref)) : state E () :=
  cls ← FindClass class;
  match cls with
  | None => mret ()
  | Some cls =>
      result ← Object_InstanceOf callback cls;
      match result with Some true => _ ← FunctionalObject_Call callback argv; mret () | _ => mret () end
  end.
Definition run_transfer_task (ctx : positive) (param : SubmitTransferCallback) : TM (outcome ()) :=
  m ← get;
  match contexts m !! ctx with
  | None => on_process (modify (set_bad_delete true));; mret Fault
  | Some c =>
      attached ← on_env (attach (vm c));
      match attached with
      | Fault => mret Fault
      | OutOfFuel => mret OutOfFuel
      | Done false => DeleteCallback ctx c;; mret (Done ())
      | Done true =>
          scope ← on_env (CreateLocalScope LOCAL_SCOPE_SIZE);
          if negb scope then DeleteCallback ctx c;; mret (Done ()) else
          businessError ← on_env GetDefaultBusinessError;
          result ← on_env (into_ani_callback param);
          match callbackRef c with
          | Some r => on_env (call_function r "std.core.Function2" [businessError; Some result])
          | None => mret ()
          end;;
          DeleteCallback ctx c;;
          on_env DestroyLocalScope;;
          mret (Done ())
      end
  end.

(** *** Claims *)

Definition DeleteClaimCallback (ctx : ClaimExclusiveCallbackContext) : state E () :=
  '(status, env) ← AttachCurrentThread (claim_vm ctx);
  env ← (if negb (bool_decide (status = ANI_OK)) then '(_, env) ← GetEnv (claim_vm ctx); mret env else mret env);
  if (env : bool) then _ ← GlobalReference_Delete (claim_callbackRef ctx); mret () else mret ().
Definition SetupClaimCallback (callbackAddr : ani_ref) : state E (option ClaimExclusiveCallbackContext) :=
  env ← get_env;
  if negb env then mret None else
  callbackRef ← GlobalReference_Create callbackAddr;
  match callbackRef with
  | None => mret None
  | Some r =>
      '(ok, v) ← GetVM;
      match (if (ok : bool) then v else None) with
      | None => _ ← GlobalReference_Delete r; mret None
      | Some v => mret (Some {| claim_vm := v; claim_callbackRef := r |})
      end
  end.
(** The function that is given to the client library is known by the reference it holds. *)
Definition conflict_callback (onConflict : option ani_ref) : TM (option Listener) :=
  match onConflict with
  | Some r =>
      if r =? 0 then mret None else
      ctx ← on_env (SetupClaimCallback r);
      match ctx with
      | None => mret None
      | Some ctx =>
          modify (λ m, set_claim_contexts (<[claim_callbackRef ctx := ctx]> (claim_contexts m)) m);;
          mret (Some (claim_callbackRef ctx))
      end
  | None => mret None
  end.
Definition ThrowClaimError (ret : Z) : state (UsbInfo S P E O) () :=
  if ret =? uec UEC_SERVICE_PERMISSION_DENIED then ThrowBusinessError UEC_COMMON_HAS_NO_RIGHT "BusinessError 14400001:Permission denied."
  else if ret =? uec UEC_INTERFACE_BUSY then ThrowBusinessError USB_SUBMIT_TRANSFER_RESOURCE_BUSY_ERROR
    "BusinessError 14400007:Resource busy. The interface is exclusively claimed by another application."
  else if ret =? uec UEC_SERVICE_INVALID_VALUE then ThrowBusinessError UEC_COMMON_SERVICE_EXCEPTION "BusinessError 14400004:Service exception."
  else ThrowBusinessError USB_SUBMIT_TRANSFER_OTHER_ERROR "BusinessError 14400010:Other USB error.".
(** Without metrics; [Fault] is a null pointer in the client library. *)
Definition claimInterfaceExclusive (pipe : USBDevicePipe) (iface : USBInterface) (force : option bool) (onConflict : option ani_ref)
    : TM (outcome ()) :=
  if negb (HasFeature O FEATURE_HOST) then on_process (ThrowBusinessError CAPABILITY_NOT_SUPPORT "");; mret (Done ()) else
  cb ← conflict_callback onConflict;
  r ← on_process (on_client (ClaimInterfaceExclusive others (ConvertUSBDevicePipe pipe) (ConvertToUsbInterface iface) (default false force) cb));
  match r with
  | Done ret => (if ret =? UEC_OK then mret () else on_process (ThrowClaimError ret));; mret (Done ())
  | Fault => mret Fault
  | OutOfFuel => mret OutOfFuel
  end.
(** The last copy of a function goes, and its context with it. *)
Definition drop_claim (l : Listener) : TM () :=
  m ← get;
  match claim_contexts m !! l with
  | Some ctx => modify (λ m, set_claim_contexts (delete l (claim_contexts m)) m);; on_env (DeleteClaimCallback ctx)
  | None => mret ()
  end.
Definition OnClaimConflict (ctx : ClaimExclusiveCallbackContext) (busNum devAddr interfaceId : Z) : TM () :=
  _ ← SendEventToMainThread (ConflictTask ctx
        {| conflict_busNum := busNum; conflict_devAddr := devAddr; conflict_interfaceId := interfaceId |});
  mret ().
(** The client library calls the function [l]. *)
Definition on_conflict (l : Listener) (busNum devAddr interfaceId : Z) : TM () :=
  m ← get;
  match claim_contexts m !! l with Some ctx => OnClaimConflict ctx busNum devAddr interfaceId | None => mret () end.
Definition run_conflict_task (ctx : ClaimExclusiveCallbackContext) (param : InterfaceConflictInfo) : state E (outcome ()) :=
  attached ← attach (Some (claim_vm ctx));
  match attached with
  | Fault => mret Fault
  | OutOfFuel => mret OutOfFuel
  | Done false => mret (Done ())
  | Done true =>
      scope ← CreateLocalScope LOCAL_SCOPE_SIZE;
      if negb scope then mret (Done ()) else
      aniObj ← into_ani_conflict param;
      call_function (claim_callbackRef ctx) "std.core.Function1" [Some aniObj];;
      DestroyLocalScope;;
      mret (Done ())
  end.
(** The main thread runs what was posted first. *)
Definition run_task : TM (outcome ()) :=
  m ← get;
  match tasks m with
  | [] => mret (Done ())
  | t :: rest =>
      modify (set_tasks rest);;
      match t with
      | TransferTask ctx param => run_transfer_task ctx param
      | ConflictTask ctx param => on_env (run_conflict_task ctx param)
      end
  end.
End Callbacks.
End UsbManager.

(** ** Serial ports (ohos.usbManager.serial.impl.cpp) *)

Module SerialPorts.
Export taihe.

Definition ERROR : Z := -1.
Definition MAX_READ_BUF_SIZE : Z := 8192.
Definition MAX_WRITE_BUF_SIZE : Z := 128000.

Section Functions.
Context {S P E O : Type} `{!IUsbServer S, !ClientPlatform P, !ErrCodeBase, !Ani E, !NapiSystem O, !TaiheEnum}.
Context (others : state (UsbSrvClient S P) ()).
(** What attributes hold that are not set. *)
Context (uninit_attr : UsbSerialAttr).
Abbreviation M := (state (UsbInfo S P E O)).

(** The codes and the conversion of codes are those of the JavaScript module. *)
Definition CheckAndThrowOnError (assertion : bool) (errCode : Z) (errMsg : string) : M bool :=
  if negb assertion then on_engine (set_business_error errCode (c_str errMsg));; mret false else mret true.
Definition check {A} (r : A) (assertion : bool) (errCode : Z) (errMsg : string) (k : M A) : M A :=
  ok ← CheckAndThrowOnError assertion errCode errMsg;
  if negb ok then SetErrorCode errCode;; mret r else k.
(** [metrics.SetErrorCode(c); set_business_error(c, msg); return r;] *)
Definition fail_with {A} (r : A) (errCode : Z) (errMsg : string) : M A :=
  SetErrorCode errCode;; on_engine (set_business_error errCode errMsg);; mret r.

Definition GetPortList : M (list SerialPort) :=
  with_metrics "BasicServicesKit.SerialManager.Static.GetPortList" (
  '(ret, portIds) ← on_client (SerialGetPortList others []);
  mret (if ret <? 0 then [] else
    map (λ p, {| sp_portId := serial_portId_ p; sp_deviceName := pretty (serial_busNum_ p) +:+ "-" +:+ pretty (serial_devAddr_ p) |}) portIds)).
Definition HasSerialRight (portId : Z) : M bool :=
  with_metrics "BasicServicesKit.SerialManager.Static.HasSerialRight" (
  check false (0 <=? portId) SYSPARAM_INVALID_INPUT "HasSerialRight failed." (
  '(ret, hasRight) ← on_client (UsbSrvClient.HasSerialRight others portId false);
  check hasRight (ret =? 0) (ErrorCodeConversion ret) "HasSerialRight failed." (mret hasRight))).
Definition RequestSerialRight (portId : Z) : M bool :=
  with_metrics "BasicServicesKit.SerialManager.Static.RequestSerialRight" (
  check false (0 <=? portId) SYSPARAM_INVALID_INPUT "RequestSerialRight failed." (
  '(ret, hasRight) ← on_client (UsbSrvClient.RequestSerialRight others portId false);
  check hasRight (ret =? 0) (ErrorCodeConversion ret) "RequestSerialRight failed." (mret hasRight))).
Definition AddSerialRight (tokenId portId : Z) : M () :=
  with_metrics "BasicServicesKit.SerialManager.Static.AddSerialRight" (
  check () (0 <? tokenId) SYSPARAM_INVALID_INPUT "AddSerialRight failed." (
  check () (0 <=? portId) SYSPARAM_INVALID_INPUT "AddSerialRight failed." (
  ret ← on_client (UsbSrvClient.AddSerialRight others (to_u32 tokenId) portId);
  check () (ret =? 0) (ErrorCodeConversion ret) "AddSerialRight failed." (mret ())))).
Definition CancelSerialRight (portId : Z) : M () :=
  with_metrics "BasicServicesKit.SerialManager.Static.CancelSerialRight" (
  check () (0 <=? portId) SYSPARAM_INVALID_INPUT "CancelSerialRight failed." (
  ret ← on_client (UsbSrvClient.CancelSerialRight others portId);
  check () (ret =? 0) (ErrorCodeConversion ret) "CancelSerialRight failed." (mret ()))).
Definition OpenSerial (portId : Z) : M () :=
  with_metrics "BasicServicesKit.SerialManager.Static.OpenSerial" (
  check () (0 <=? portId) SYSPARAM_INVALID_INPUT "OpenSerial failed." (
  ret ← on_client (SerialOpen others portId);
  check () (ret =? 0) (ErrorCodeConversion ret) "OpenSerial failed." (mret ()))).
Definition CloseSerial (portId : Z) : M () :=
  with_metrics "BasicServicesKit.SerialManager.Static.CloseSerial" (
  check () (0 <=? portId) SYSPARAM_INVALID_INPUT "CloseSerial failed." (
  ret ← on_client (SerialClose others portId);
  check () (ret =? 0) (ErrorCodeConversion ret) "CloseSerial failed." (mret ()))).

(** *** Attributes *)

Definition SerialAttributeToTaihe (a : UsbSerialAttr) : SerialAttribute := {|
  sa_baudRate := from_value BaudRates (baudRate_ a); sa_dataBits := Some (from_value DataBits (dataBits_ a));
  sa_parity := Some (from_value Parity (parity_ a)); sa_stopBits := Some (from_value StopBits (stopBits_ a)) |}.
(** What is returned with an error. *)
Definition no_attribute : SerialAttribute := {| sa_baudRate := 0; sa_dataBits := None; sa_parity := None; sa_stopBits := None |}.
Definition GetAttribute (portId : Z) : M SerialAttribute :=
  with_metrics "BasicServicesKit.SerialManager.Static.GetAttribute" (
  if portId <? 0 then fail_with no_attribute SYSPARAM_INVALID_INPUT "portId is invalid!" else
  '(ret, serialAttribute) ← on_client (SerialGetAttribute others portId uninit_attr);
  if negb (ret =? 0) then fail_with no_attribute (ErrorCodeConversion ret) "Failed to get attribute!" else
  mret (SerialAttributeToTaihe serialAttribute)).
(** The attributes are optional in the interface and required here. *)
Definition attribute_of_taihe (a : SerialAttribute) : UsbSerialAttr + string :=
  match sa_dataBits a, sa_parity a, sa_stopBits a with
  | None, _, _ => inr "attribute.dataBits is invalid!"
  | _, None, _ => inr "attribute.parity is invalid!"
  | _, _, None => inr "attribute.stopBits is invalid!"
  | Some dataBits, Some parity, Some stopBits => inl {|
      baudRate_ := get_value BaudRates (sa_baudRate a); dataBits_ := get_value DataBits dataBits; parity_ := get_value Parity parity;
      stopBits_ := get_value StopBits stopBits |}
  end.
Definition SetAttribute (portId : Z) (attribute : SerialAttribute) : M () :=
  with_metrics "BasicServicesKit.SerialManager.Static.SetAttribute" (
  if portId <? 0 then fail_with () SYSPARAM_INVALID_INPUT "portId is invalid!" else
  match attribute_of_taihe attribute with
  | inr message => fail_with () SYSPARAM_INVALID_INPUT message
  | inl serialAttribute =>
      ret ← on_client (SerialSetAttribute others portId serialAttribute);
      if negb (ret =? 0) then fail_with () (ErrorCodeConversion ret) "Failed to set attribute!" else mret ()
  end).

(** *** Bytes *)

(** A timeout is optional in the interface and required here. *)
Definition ReadSync (portId : Z) (buffer : ani_ref) (timeout : option Z) : M Z :=
  with_metrics "BasicServicesKit.SerialManager.Static.ReadSync" (
  if portId <? 0 then fail_with ERROR SYSPARAM_INVALID_INPUT "portId is invalid!" else
  env ← on_engine get_env;
  if negb env then mret ERROR else
  bufferRef ← on_engine (Object_GetFieldByName_Ref buffer "buffer");
  match bufferRef with
  | None => fail_with ERROR SYSPARAM_INVALID_INPUT "buffer is invalid!"
  | Some r =>
      info ← on_engine (ArrayBuffer_GetInfo r);
      match info with
      | None => fail_with ERROR SYSPARAM_INVALID_INPUT "buffer is invalid!"
      | Some (data, dataSize) =>
          if bool_decide (data = None) || (MAX_READ_BUF_SIZE <? dataSize)
          then fail_with ERROR SYSPARAM_INVALID_INPUT "buffer size > 8192 byte!" else
          match timeout with
          | None => fail_with ERROR SYSPARAM_INVALID_INPUT "timeout is invalid!"
          | Some t =>
              '(ret, (bufferData, actualSize)) ← on_client (SerialRead others portId [] (to_u32 dataSize) 0 (to_u32 t));
              if negb (ret =? 0) then fail_with ERROR (ErrorCodeConversion ret) "readSync Failed!" else
              let size := Z.of_nat (length bufferData) in
              let actualSize := if negb (size =? actualSize) then to_u32 size else actualSize in
              let actualSize := if dataSize <? actualSize then to_u32 dataSize else actualSize in
              ok ← (if 0 <? actualSize then on_engine (memcpy_s data dataSize (take (Z.to_nat actualSize) bufferData)) else mret true);
              mret (if (ok : bool) then to_i32 actualSize else ERROR)
          end
      end
  end).
Definition WriteSync (portId : Z) (buffer : list Z) (timeout : option Z) : M Z :=
  with_metrics "BasicServicesKit.SerialManager.Static.WriteSync" (
  if portId <? 0 then fail_with ERROR SYSPARAM_INVALID_INPUT "portId is invalid!" else
  if MAX_WRITE_BUF_SIZE <? Z.of_nat (length buffer) then fail_with ERROR SYSPARAM_INVALID_INPUT "buffer size > 128kb!" else
  match timeout with
  | None => fail_with ERROR SYSPARAM_INVALID_INPUT "timeout is invalid!"
  | Some t =>
      '(ret, actualSize) ← on_client (SerialWrite others portId buffer (to_u32 (Z.of_nat (length buffer))) 0 (to_u32 t));
      if negb (ret =? 0) then fail_with ERROR (ErrorCodeConversion ret) "writeSync Failed!" else
      mret (to_i32 actualSize)
  end).
End Functions.
End SerialPorts.
