(* ===== verification/UsbManagerTheorems.v ===== *)
(** * The ArkTS module: theorems

    That what is submitted calls back once, on a runtime that keeps to its laws; which
    errors the functions that answer at once set, and what the structures of a program
    carry; and a program on a small runtime. *)
From S2P Require Import Prelude UsbErrors Platform UsbAccessory UsbDevice UsbDeviceTree UsbDescriptorParser UsbDescriptorTheorems UsbRightDatabase UsbRightDbHelper RightRecords UsbRightManager UsbRightManagerProofs RightTheorems UsbPortManager UsbDeviceManager SerialManager SerialTheorems UsbInterfaceType UsbHostManager UsbHostPolicy UsbHostTheorems UsbHostExamples UsbHostTransfer UsbService UsbServiceClaims UsbServiceHost UsbServiceDevice UsbServiceSerial UsbServiceLife UsbServiceSteps UsbServiceManagers UsbServiceTheorems UsbServiceExamples UsbSrvClient UsbSrvServer UsbSrvClientProofs UsbSrvClientSteps UsbSrvClientTheorems UsbSrvClientExamples UsbTransferCallbacks UsbUtilities NapiUtil UsbInfo SerialInfo UsbManagerImpl NapiLaws UsbInfoRoundTrip UsbDeviceProofs UsbInfoProofs.
Import UsbManager.

(** ** What the runtime does *)

Inductive ani_value := V_callback (p : SubmitTransferCallback) | V_conflict (p : InterfaceConflictInfo) | V_error.
(** What of it matters: the error that is set, the global references with their
    objects, the objects the module made in its scopes, the calls of functions of the program
    (oldest first), the bytes of arrays. *)
Class AniView (E : Type) := {
  error_set : E → option (Z * string);
  referred : E → gmap ani_ref ani_ref;
  values : E → gmap ani_ref ani_value;
  called : E → list (ani_ref * list (option ani_value));
  array_bytes : E → gmap data_ptr (list Z);
}.
Abbreviation references e := (dom (referred e)).
(** Nothing is referred to, given up or called. *)
Record quiet {E} `{!AniView E} (e e' : E) : Prop := {
  quiet_referred : referred e' = referred e;
  quiet_called : called e' = called e;
}.
#[export] Instance quiet_preorder {E} `{!AniView E} : PreOrder (@quiet E _).
Proof. split; [by intros e|]. intros e1 e2 e3 [] []. split; congruence. Qed.
(** The same, within a scope, and no error and no bytes either. *)
Record silent {E} `{!AniView E} (e e' : E) : Prop := {
  silent_quiet : quiet e e';
  silent_values : values e ⊆ values e';
  silent_error : error_set e' = error_set e;
  silent_bytes : array_bytes e' = array_bytes e;
}.
#[export] Instance silent_preorder {E} `{!AniView E} : PreOrder (@silent E _).
Proof. split; [by intros e|]. intros e1 e2 e3 [] []. split; [by etransitivity|by etransitivity|congruence|congruence]. Qed.

Class AniLaws (E : Type) `{!Ani E, !AniView E} := {
  law_error c msg (e : E) : error_set e = None → error_set (set_business_error c msg e).2 = Some (c, msg);
  law_error_quiet c msg : Runs quiet (set_business_error c msg);
  law_get_env : Runs silent get_env;
  law_field o k : Runs silent (Object_GetFieldByName_Ref o k);
  law_info r : Runs silent (ArrayBuffer_GetInfo r);
  law_create o (e : E) :
    let '(r, e') := GlobalReference_Create o e in
    match r with
    | Some r => (r ∉ references e) ∧ referred e' = <[r := o]> (referred e) ∧ called e' = called e
    | None => quiet e e'
    end;
  law_delete r (e : E) : r ∈ references e →
    let '(_, e') := GlobalReference_Delete r e in referred e' = delete r (referred e) ∧ called e' = called e;
  law_vm (e : E) : let '((ok, v), e') := GetVM e in silent e e' ∧ (ok = true → is_Some v);
  law_attach v : Runs silent (AttachCurrentThread v);
  law_env v : Runs silent (GetEnv v);
  law_scope n : Runs silent (CreateLocalScope n);
  law_scope_end : Runs quiet DestroyLocalScope;
  law_class n : Runs silent (FindClass n);
  law_method c n s : Runs silent (Class_FindMethod c n s);
  law_new c m (e : E) :
    let '(r, e') := Object_New c m e in silent e e' ∧ (∀ r', r = Some r' → values e' !! r' = Some V_error);
  law_instance r c : Runs silent (Object_InstanceOf r c);
  law_call r o args (e : E) : referred e !! r = Some o →
    let '(_, e') := FunctionalObject_Call r args e in
    referred e' = referred e ∧ called e' = called e ++ [(o, map (λ a, a ≫= λ a, values e !! a) args)];
  law_into_callback p (e : E) : let '(v, e') := into_ani_callback p e in silent e e' ∧ values e' !! v = Some (V_callback p);
  law_into_conflict p (e : E) : let '(v, e') := into_ani_conflict p e in silent e e' ∧ values e' !! v = Some (V_conflict p);
  law_handler : Runs silent mainHandler;
  law_set_handler : Runs silent set_mainHandler;
  law_runner : Runs silent GetMainEventRunner;
  law_read p n : Runs silent (array_read p n);
  law_memcpy p n data : Runs quiet (memcpy_s p n data);
}.
(** Memory that is allocated is not in use. *)
Class NewLaws (O : Type) `{!NapiSystem O} := law_new_context used (o : O) k : (new_context used o).1 = Some k → k ∉ used.
(** The main thread can be reached and calls functions. *)
Class AniWorks (E : Type) `{!Ani E, !AniView E} := {
  works_env (e : E) : (get_env e).1 = true;
  works_runner (e : E) : (GetMainEventRunner e).1 = true;
  works_attach v (e : E) : (AttachCurrentThread v e).1 = (ANI_OK, true);
  works_scope n (e : E) : (CreateLocalScope n e).1 = true;
  works_class n (e : E) : is_Some (FindClass n e).1;
  works_method c n s (e : E) : is_Some (Class_FindMethod c n s e).1;
  works_new c m (e : E) : is_Some (Object_New c m e).1;
  works_instance r c (e : E) : r ∈ references e → (Object_InstanceOf r c e).1 = Some true;
}.

Create HintDb ani discriminated.
Section Quiet.
Context {E : Type} `{!Ani E, !AniView E, !AniLaws E}.

Lemma quiet_of_silent {A} (f : state E A) : Runs silent f → Runs quiet f.
Proof. intros Hf e. apply Hf. Qed.
Lemma silent_vm : Runs silent GetVM.
Proof. intros e. pose proof (law_vm e) as Hl. destruct (GetVM e) as [[]]. apply Hl. Qed.
Lemma silent_new c m : Runs silent (Object_New c m).
Proof. intros e. pose proof (law_new c m e) as Hl. destruct (Object_New c m e). apply Hl. Qed.
Lemma silent_into_callback p : Runs silent (into_ani_callback p).
Proof. intros e. pose proof (law_into_callback p e) as Hl. destruct (into_ani_callback p e). apply Hl. Qed.
Lemma silent_into_conflict p : Runs silent (into_ani_conflict p).
Proof. intros e. pose proof (law_into_conflict p e) as Hl. destruct (into_ani_conflict p e). apply Hl. Qed.
End Quiet.
#[export] Hint Resolve law_get_env law_field law_info law_attach law_env law_scope law_scope_end law_class law_method law_instance law_handler
  law_set_handler law_runner law_read silent_vm silent_new silent_into_callback silent_into_conflict : runs.

(** ** The state of the library *)

Section Library.
Context {S P E O : Type} `{!IUsbServer S, !ClientPlatform P, !ErrCodeBase, !Ani E, !NapiSystem O, !AniView E, !AniLaws E, !NewLaws O}.
Context (others : state (UsbSrvClient S P) ()) (TransferCompleteCallback : Listener) (uninit_flags : Z).
Abbreviation US := (UsbInfo S P E O).
Abbreviation LIB := (Library S P E O).
Abbreviation TM := (state LIB).
Implicit Types m : LIB.
Definition env_of m : E := engine (process m).

(** Neither contexts nor tasks nor references change. *)
Record calm_lib m m' : Prop := {
  calm_contexts : contexts m' = contexts m;
  calm_claims : claim_contexts m' = claim_contexts m;
  calm_tasks : tasks m' = tasks m;
  calm_delete : bad_delete (process m') = bad_delete (process m);
  calm_env : quiet (env_of m) (env_of m');
}.
#[export] Instance calm_lib_preorder : PreOrder calm_lib.
Proof. split; [by intros m|]. intros m1 m2 m3 [] []. split; try congruence. by etransitivity. Qed.
(** The same for the part of the process. *)
Record calm_process (p p' : US) : Prop := { calm_p_delete : bad_delete p' = bad_delete p; calm_p_env : quiet (engine p) (engine p') }.
#[export] Instance calm_process_preorder : PreOrder calm_process.
Proof. split; [by intros m|]. intros m1 m2 m3 [] []. split; [congruence|by etransitivity]. Qed.

Lemma calm_on_process {A} (f : state US A) : Runs calm_process f → Runs calm_lib (on_process f).
Proof.
  intros Hf. apply runs_zoom. intros [p cs cl ts]. destruct (Hf p) as [Hd He]. by split.
Qed.
Lemma calm_on_client {A} (f : state (UsbSrvClient S P) A) : Runs calm_process (on_client f).
Proof. intros p. unfold on_client, zoom. destruct p, (f _). by split. Qed.
Lemma calm_on_system {A} (f : state O A) : Runs calm_process (on_system f).
Proof. intros p. unfold on_system, zoom. destruct p, (f _). by split. Qed.
Lemma calm_on_engine {A} (f : state E A) : Runs quiet f → Runs calm_process (on_engine f).
Proof. intros Hf p. unfold on_engine, zoom. specialize (Hf (engine p)). destruct p, (f _). by split. Qed.
Lemma calm_on_memory {A} (f : state O A) : Runs calm_lib (on_memory f).
Proof. apply calm_on_process, calm_on_system. Qed.
Lemma calm_on_env {A} (f : state E A) : Runs quiet f → Runs calm_lib (on_env f).
Proof. intros Hf. by apply calm_on_process, calm_on_engine. Qed.
Lemma calm_on_env_silent {A} (f : state E A) : Runs silent f → Runs calm_lib (on_env f).
Proof. intros Hf. by apply calm_on_env, quiet_of_silent. Qed.
Lemma calm_set_metrics x : Runs calm_process (modify (set_metrics x)).
Proof. intros p. by destruct p. Qed.
Lemma calm_SetErrorCode c : Runs calm_process (SetErrorCode c).
Proof. intros p. by destruct p. Qed.
#[local] Hint Resolve calm_on_process calm_on_client calm_on_system calm_on_engine calm_on_memory calm_on_env calm_on_env_silent
  calm_set_metrics calm_SetErrorCode law_memcpy : runs.
Lemma calm_throw c msg : Runs calm_process (ThrowBusinessError c msg).
Proof. apply calm_on_engine, law_error_quiet. Qed.
#[local] Hint Resolve calm_throw : runs.
Lemma calm_fail_with {A} (r : A) c msg : Runs calm_process (fail_with r c msg).
Proof. unfold fail_with. runs. Qed.
Lemma calm_destroy x : Runs calm_process (destroy_metrics x).
Proof. unfold destroy_metrics. runs. Qed.
#[local] Hint Resolve calm_fail_with calm_destroy : runs.

(** ** The invariant *)

Definition posted (ts : list Task) : list positive :=
  omap (λ t, match t with TransferTask ctx _ => Some ctx | ConflictTask _ _ => None end) ts.
(** Every function that may be called is referred to, by one context; what is posted
    has its context, and no context is posted twice. *)
Record well_formed m : Prop := {
  wf_delete : bad_delete (process m) = false;
  wf_alive ctx c : contexts m !! ctx = Some c → is_Some (vm c) ∧ ∃ r, callbackRef c = Some r ∧ r ∈ references (env_of m);
  wf_injective ctx1 ctx2 c1 c2 : contexts m !! ctx1 = Some c1 → contexts m !! ctx2 = Some c2 →
    callbackRef c1 = callbackRef c2 → ctx1 = ctx2;
  wf_apart ctx c (l : Listener) : contexts m !! ctx = Some c → callbackRef c = Some l → claim_contexts m !! l = None;
  wf_claim (l : Listener) x : claim_contexts m !! l = Some x → claim_callbackRef x = l ∧ l ∈ references (env_of m);
  wf_posted : NoDup (posted (tasks m));
  wf_posted_there ctx : ctx ∈ posted (tasks m) → is_Some (contexts m !! ctx);
  wf_conflicts x p : ConflictTask x p ∈ tasks m → claim_contexts m !! (claim_callbackRef x : Listener) = Some x;
}.
Lemma wf_grow m m' : contexts m' = contexts m → claim_contexts m' = claim_contexts m → tasks m' = tasks m →
  bad_delete (process m') = bad_delete (process m) → references (env_of m) ⊆ references (env_of m') → well_formed m → well_formed m'.
Proof.
  intros Hc Hl Ht Hd Hr []. split; rewrite ?Hc, ?Hl, ?Ht, ?Hd; auto.
  - intros ctx c Hctx. destruct (wf_alive0 ctx c Hctx) as [Hv (r & Hrc & Hin)]. split; [done|]. exists r. auto.
  - intros l x Hx. destruct (wf_claim0 l x Hx) as [Hv Hin]. auto.
Qed.
Lemma wf_calm m m' : calm_lib m m' → well_formed m → well_formed m'.
Proof. intros [Hc Hl Ht Hd [Hr _]]. apply wf_grow; try done. by rewrite Hr. Qed.
Lemma wf_runs {A} (f : TM A) m : Runs calm_lib f → well_formed m → well_formed (f m).2.
Proof. intros Hf. by apply wf_calm. Qed.

(** *** Deleting a context *)

(** The context [ctx] with the values [c] is nobody else's to call. *)
Definition deletable (ctx : positive) (c : USBTransferAsyncContext) m : Prop :=
  (ctx ∉ posted (tasks m)) ∧ ∃ r, callbackRef c = Some r ∧ r ∈ references (env_of m) ∧
    (∀ ctx' c', contexts m !! ctx' = Some c' → callbackRef c' = Some r → ctx' = ctx) ∧ claim_contexts m !! (r : Listener) = None.
Lemma deletable_calm ctx c m m' : calm_lib m m' → deletable ctx c m → deletable ctx c m'.
Proof. intros [Hc Hl Ht _ [Hr _]] Hd. unfold deletable. by rewrite Hc, Hl, Ht, Hr. Qed.
Record deleted (ctx : positive) (r : ani_ref) m m' : Prop := {
  deleted_contexts : contexts m' = delete ctx (contexts m);
  deleted_claims : claim_contexts m' = claim_contexts m;
  deleted_tasks : tasks m' = tasks m;
  deleted_delete : bad_delete (process m') = bad_delete (process m);
  deleted_references : delete r (referred (env_of m)) ⊆ referred (env_of m');
  deleted_called : called (env_of m') = called (env_of m);
}.
Lemma DeleteCallback_deleted ctx c r m : callbackRef c = Some r → r ∈ references (env_of m) → deleted ctx r m (DeleteCallback ctx c m).2.
Proof.
  intros Hc Hr. unfold DeleteCallback, on_env, on_process, on_engine, delete_context. rewrite Hc. destruct m as [p cs cl ts]. run_unfold.
  cbn [process] in *. pose proof (law_get_env (engine p)) as [Hq _ _ _]. destruct (get_env (engine p)) as [env e]. cbn in *.
  destruct env.
  - pose proof (law_delete r e) as Hl. destruct p as [x1 e0 x3 x4 x5 x6 x7 x8 x9]. cbn in *.
    destruct (GlobalReference_Delete r e) as [b e'], Hl as (Hr' & Hca); [by rewrite (quiet_referred _ _ Hq)|].
    destruct Hq as [Hq1 Hq3]. split; cbn; try done; [by rewrite Hr', Hq1|by rewrite Hca].
  - destruct p as [x1 e0 x3 x4 x5 x6 x7 x8 x9]. destruct Hq as [Hq1 Hq3]. cbn in *. split; cbn; try done. rewrite Hq1. apply delete_subseteq.
Qed.
Lemma wf_deleted ctx c r m m' : well_formed m → deletable ctx c m → callbackRef c = Some r → deleted ctx r m m' → well_formed m'.
Proof.
  intros [] (Hp & r' & Hc & _ & Hown & Hcl) Hr [Hcs Hcl' Ht Hd Href%subseteq_dom _]. rewrite dom_delete_L in Href. rewrite Hr in Hc. injection Hc as <-.
  split; rewrite ?Hcs, ?Hcl', ?Ht, ?Hd; try done.
  - intros ctx' c' [Hne Hc']%lookup_delete_Some. destruct (wf_alive0 _ _ Hc') as [Hv (r' & Hr' & Hin)]. split; [done|]. exists r'.
    split; [done|]. apply Href, elem_of_difference. split; [done|]. intros ->%elem_of_singleton. apply Hne. symmetry. by apply (Hown _ c').
  - intros ctx1 ctx2 c1 c2 [_ H1]%lookup_delete_Some [_ H2]%lookup_delete_Some. by apply (wf_injective0 ctx1 ctx2 c1 c2).
  - intros ctx' c' l [_ H1]%lookup_delete_Some. by apply (wf_apart0 ctx' c' l).
  - intros l x Hl. destruct (wf_claim0 _ _ Hl) as [Hx Hin]. split; [done|]. apply Href, elem_of_difference. split; [done|].
    intros ->%elem_of_singleton. congruence.
  - intros ctx' Hin. rewrite lookup_delete_ne; [by apply wf_posted_there0|]. by intros ->.
Qed.
Lemma wf_DeleteCallback ctx c m : well_formed m → deletable ctx c m → well_formed (DeleteCallback ctx c m).2.
Proof.
  intros Hw Hd. pose proof Hd as (_ & r & Hc & Hr & _). eapply wf_deleted; [done|done|done|]. by apply DeleteCallback_deleted.
Qed.

(** *** Submission *)

Lemma silent_bytes_at data n : Runs silent (bytes_at data n).
Proof. unfold bytes_at. runs. Qed.
#[local] Hint Resolve silent_bytes_at : runs.
Lemma calm_create_shared c obj : Runs calm_lib (CreateAndWriteAshmem c obj).
Proof. unfold CreateAndWriteAshmem. runs. Qed.
Lemma calm_close_shared a : Runs calm_lib (close_shared a).
Proof. unfold close_shared. runs. Qed.
Lemma calm_copy_shared c n k : Runs calm_lib (copy_shared c n k).
Proof. unfold copy_shared. runs. Qed.
#[local] Hint Resolve calm_create_shared calm_close_shared calm_copy_shared : runs.
Lemma calm_read_data c info : Runs calm_lib (ReadDataToBuffer c info).
Proof. unfold ReadDataToBuffer. runs. Qed.
Lemma calm_cancel transfer : Runs calm_lib (usbCancelTransfer transfer).
Proof. unfold usbCancelTransfer. apply calm_on_process. unfold with_metrics, unsupported. runs. Qed.

(** What the context of a transfer under way holds so far. *)
Definition fresh_context (ctx : positive) m : Prop := contexts m !! ctx = None.
Lemma fresh_not_posted ctx m : well_formed m → fresh_context ctx m → ctx ∉ posted (tasks m).
Proof. intros Hw Hf Hin. destruct (wf_posted_there _ Hw ctx Hin) as [c Hc]. congruence. Qed.
Lemma triple_runs {A} (f : TM A) (Pre : LIB → Prop) : (∀ m m', calm_lib m m' → Pre m → Pre m') → Runs calm_lib f → triple Pre f (λ _, Pre).
Proof. intros HP Hf m Hm. eapply HP; [apply Hf|exact Hm]. Qed.
(** A function that the context refers to and nothing else does. *)
Definition ready (ctx : positive) (c : USBTransferAsyncContext) m : Prop :=
  well_formed m ∧ fresh_context ctx m ∧ is_Some (vm c) ∧ ∃ r, callbackRef c = Some r ∧ r ∈ references (env_of m) ∧
    (∀ ctx' c', contexts m !! ctx' = Some c' → callbackRef c' ≠ Some r) ∧ claim_contexts m !! (r : Listener) = None.
Lemma ready_calm ctx c m m' : calm_lib m m' → ready ctx c m → ready ctx c m'.
Proof.
  intros Hcalm (Hw & Hf & Hv & Hr). split; [by eapply wf_calm|]. destruct Hcalm as [Hc Hl Ht _ [Href _]]. unfold fresh_context. by rewrite Hc, Hl, Href.
Qed.
Lemma ready_deletable ctx c m : ready ctx c m → deletable ctx c m.
Proof.
  intros (Hw & Hf & Hv & r & Hr & Hin & Hown & Hcl). split; [by apply fresh_not_posted|]. exists r. split; [done|]. split; [done|].
  split; [|done]. intros ctx' c' Hc' Hr'. by destruct (Hown ctx' c').
Qed.
(** It is put into the table. *)
Lemma ready_insert ctx c c' m : ready ctx c m → callbackRef c' = callbackRef c → vm c' = vm c →
  let m' := set_contexts (<[ctx := c']> (contexts m)) m in well_formed m' ∧ deletable ctx c' m'.
Proof.
  intros (Hw & Hf & Hv & r & Hr & Hin & Hown & Hcl) Hr' Hv' m'. pose proof (fresh_not_posted _ _ Hw Hf) as Hp. subst m'.
  destruct m as [p cs cl ts], Hw. unfold fresh_context, env_of in *. cbn in *. split.
  - split; cbn; try done.
    + intros k x [[<- <-]|[Hne Hx]]%lookup_insert_Some; [|by apply (wf_alive0 k)]. rewrite Hr', Hv'. split; [done|]. by exists r.
    + intros k1 k2 x1 x2 [[<- <-]|[Hne1 H1]]%lookup_insert_Some [[<- <-]|[Hne2 H2]]%lookup_insert_Some Heq; try done.
      * rewrite Hr', Hr in Heq. by destruct (Hown k2 x2).
      * rewrite Hr', Hr in Heq. by destruct (Hown k1 x1).
      * by apply (wf_injective0 k1 k2 x1 x2).
    + intros k x l [[<- <-]|[Hne Hx]]%lookup_insert_Some Hl; [congruence|by apply (wf_apart0 k x l)].
    + intros k Hk. destruct (decide (ctx = k)) as [->|Hne]; [by rewrite lookup_insert_eq; eexists|]. rewrite lookup_insert_ne by done. by apply wf_posted_there0.
  - split; [done|]. exists r. split; [congruence|]. split; [done|]. split; [|done]. cbn.
    intros k x [[<- <-]|[Hne Hx]]%lookup_insert_Some Heq; [done|]. by destruct (Hown k x).
Qed.
Lemma wf_set_contexts_fresh ctx m : well_formed m → fresh_context ctx m → well_formed (delete_context ctx m).2.
Proof.
  intros Hw Hf. eapply wf_calm; [|exact Hw]. destruct m as [p cs cl ts]. unfold fresh_context in Hf. cbn in *. split; cbn; try done.
  by apply delete_id.
Qed.
Lemma extract_vm b c e : silent e (ExtractBufferData b c e).2 ∧ (∀ c', (ExtractBufferData b c e).1 = Some c' → is_Some (vm c') ∧ callbackRef c' = callbackRef c).
Proof.
  unfold ExtractBufferData. run_unfold. pose proof (law_get_env e) as He. destruct (get_env e) as [env e1]. cbn [snd] in He.
  destruct env; cbn [negb]; [|by split]. pose proof (law_vm e1) as Hv. destruct (GetVM e1) as [[ok v] e2], Hv as [H2 Hv].
  assert (silent e e2) as H02 by (by etransitivity). destruct ok; cbn [negb]; [|by split].
  pose proof (law_field b "buffer" e2) as H3. destruct (Object_GetFieldByName_Ref b "buffer" e2) as [[r|] e3]; cbn [snd] in *;
    (assert (silent e e3) as H03 by (by etransitivity)); [|by split].
  pose proof (law_info r e3) as H4. destruct (ArrayBuffer_GetInfo r e3) as [i e4]. cbn [fst snd] in *. split; [by etransitivity|].
  destruct i as [[data n]|]; [|done]. intros c' [= <-]. split; [|done]. by apply Hv.
Qed.

Lemma on_env_run {A} (f : state E A) m : ∃ p, on_env f m = ((f (env_of m)).1, set_process p m) ∧
  engine p = (f (env_of m)).2 ∧ bad_delete p = bad_delete (process m).
Proof.
  unfold on_env, on_process, on_engine, zoom, env_of. destruct (f (engine (process m))) as [a e].
  exists (set_engine e (process m)). by destruct (process m).
Qed.
Lemma calm_env_step p m : engine p = engine (process m) ∨ quiet (env_of m) (engine p) → bad_delete p = bad_delete (process m) →
  calm_lib m (set_process p m).
Proof. intros He Hd. destruct m as [p0 cs cl ts]. split; try done. unfold env_of in *. cbn in *. by destruct He as [->|]. Qed.

(** Each step of [submit]. *)
Definition underway (ctx : positive) m : Prop := well_formed m ∧ fresh_context ctx m.
Lemma underway_calm ctx m m' : calm_lib m m' → underway ctx m → underway ctx m'.
Proof. intros Hc [Hw Hf]. split; [by eapply wf_calm|]. unfold fresh_context. by destruct Hc as [-> _ _ _ _]. Qed.
Lemma create_context transfer : triple well_formed (CreateTransferContext transfer)
  (λ r m, match r with None => well_formed m | Some (ctx, c) => underway ctx m end).
Proof.
  intros m Hw. unfold CreateTransferContext. rewrite bind_run. cbn [get fst snd]. rewrite bind_run.
  pose proof (calm_on_memory (new_context (dom (contexts m))) m) as Hc.
  assert (∀ k, (on_memory (new_context (dom (contexts m))) m).1 = Some k → fresh_context k m) as Hf.
  { intros k Hk. apply not_elem_of_dom. eapply (law_new_context _ (system (process m))). unfold on_memory, on_process, on_system, zoom in Hk.
    by destruct (new_context _ _). }
  destruct (on_memory (new_context (dom (contexts m))) m) as [[ctx|] m1]; cbn [fst snd] in *.
  - cbn. split; [by eapply wf_calm|]. unfold fresh_context. rewrite (calm_contexts _ _ Hc). by apply Hf.
  - rewrite bind_run. change (well_formed (on_process (ThrowBusinessError CAPABILITY_NOT_SUPPORT "") m1).2).
    apply wf_runs; [auto with runs|by eapply wf_calm].
Qed.
Lemma extract_data ctx b c : triple (underway ctx) (on_env (ExtractBufferData b c))
  (λ r m, (∀ c', r = Some c' → is_Some (vm c')) ∧ underway ctx m).
Proof.
  intros m Hu. destruct (on_env_run (ExtractBufferData b c) m) as (p & -> & Hp & Hd). destruct (extract_vm b c (env_of m)) as [Hs Hv].
  cbn [fst snd]. split; [intros c' Hc'; by apply (Hv c')|]. eapply underway_calm; [|done]. apply calm_env_step; [|done]. right. rewrite Hp. apply Hs.
Qed.
Lemma setup_callback ctx o c : is_Some (vm c) → triple (underway ctx) (on_env (SetupCallback o c))
  (λ r m, match r with None => underway ctx m | Some c' => ready ctx c' m end).
Proof.
  intros Hv m Hu. destruct (on_env_run (SetupCallback o c) m) as (p & -> & Hp & Hd). cbn [fst snd].
  unfold SetupCallback in *. rewrite !bind_run in *. pose proof (law_get_env (env_of m)) as He. destruct (get_env (env_of m)) as [env e1]. cbn [fst snd] in *.
  destruct env; cbn [negb] in *; [|cbn in *; eapply underway_calm; [|done]; apply calm_env_step; [|done]; right; rewrite Hp; apply He].
  rewrite !bind_run in *. pose proof (law_create o e1) as Hl. destruct (GlobalReference_Create o e1) as [[r|] e2]; cbn in *.
  - destruct Hl as (Hn & Hr & Hc), He as [[Hr1 Hc1] _ _ _]. rewrite Hr1 in Hn, Hr. destruct Hu as [Hw Hf].
    destruct m as [p0 cs cl ts]. unfold env_of in *. cbn in *. subst e2. split.
    { eapply wf_grow; [..|exact Hw]; try done. unfold env_of. cbn. rewrite Hr, dom_insert_L. apply union_subseteq_r. }
    split; [done|]. split; [done|]. exists r. split; [done|]. unfold env_of. cbn. rewrite Hr, dom_insert_L. split; [by apply elem_of_union_l, elem_of_singleton|].
    split.
    + intros k x Hx Heq. destruct (wf_alive _ Hw k x Hx) as [_ (r' & Hr' & Hin)]. unfold env_of in Hin. cbn in Hin. congruence.
    + destruct (cl !! r) as [x|] eqn:Hx; [|done]. by destruct (wf_claim _ Hw r x Hx) as [_ Hin].
  - eapply underway_calm; [|done]. apply calm_env_step; [|done]. right. rewrite Hp. etransitivity; [apply He|exact Hl].
Qed.
Lemma wf_submit transfer : triple well_formed (submit TransferCompleteCallback uninit_flags transfer) (λ _, well_formed).
Proof.
  unfold submit. eapply triple_bind; [apply create_context|]. intros [[ctx c]|]; [|by apply triple_ret].
  eapply triple_bind; [apply extract_data|]. intros [c1|]; apply triple_pure; intros Hc1; [|intros m [Hw Hf]; by apply wf_set_contexts_fresh].
  eapply triple_bind; [apply setup_callback, (Hc1 _ eq_refl)|]. intros [c2|]; [|intros m [Hw Hf]; by apply wf_set_contexts_fresh].
  eapply triple_bind; [apply (triple_runs _ (ready ctx c2)); [apply ready_calm|runs]|]. intros [[a info]|].
  - eapply (triple_bind _ (λ _ m, well_formed m ∧ deletable ctx (set_ashmem a c2) m)); [intros m Hm; by apply (ready_insert ctx c2)|]. intros [].
    assert (∀ m m', calm_lib m m' → (well_formed m ∧ deletable ctx (set_ashmem a c2) m) → well_formed m' ∧ deletable ctx (set_ashmem a c2) m') as Hst.
    { intros m m' Hc [Hw Hd]. split; [by eapply wf_calm|by eapply deletable_calm]. }
    eapply triple_bind; [apply (triple_runs _ _ Hst); runs|]. intros ret. cbn beta. apply triple_if; intros _; [|by intros m []].
    eapply triple_bind; [apply (triple_runs _ _ Hst); runs|]. intros [].
    eapply (triple_bind _ (λ _, well_formed)); [intros m [Hw Hd]; by apply wf_DeleteCallback|]. intros []. apply triple_runs; [exact wf_calm|runs].
  - intros m Hr. apply wf_DeleteCallback; [apply Hr|by apply ready_deletable].
Qed.
Lemma wf_usbSubmitTransfer transfer m : well_formed m → well_formed (usbSubmitTransfer TransferCompleteCallback uninit_flags transfer m).2.
Proof.
  revert m. change (triple well_formed (usbSubmitTransfer TransferCompleteCallback uninit_flags transfer) (λ _, well_formed)).
  unfold usbSubmitTransfer. eapply triple_bind; [apply triple_runs; [exact wf_calm|runs]|]. intros now.
  eapply triple_bind; [apply triple_runs; [exact wf_calm|runs]|]. intros [].
  eapply (triple_bind _ (λ _, well_formed)).
  - apply triple_if; intros _; [apply triple_runs; [exact wf_calm|runs]|apply wf_submit].
  - intros []. apply triple_runs; [exact wf_calm|runs].
Qed.

(** *** Completion *)

(** A task has been posted. *)
Record posts (t : Task) m m' : Prop := {
  posts_contexts : contexts m' = contexts m;
  posts_claims : claim_contexts m' = claim_contexts m;
  posts_tasks : tasks m' = tasks m ++ [t];
  posts_delete : bad_delete (process m') = bad_delete (process m);
  posts_env : quiet (env_of m) (env_of m');
}.
Lemma posts_after t m m1 m2 : calm_lib m m1 → posts t m1 m2 → posts t m m2.
Proof. intros [] []. split; try congruence. by etransitivity. Qed.
Lemma send_posts t m : let '(sent, m') := SendEventToMainThread t m in if (sent : bool) then posts t m m' else calm_lib m m'.
Proof.
  unfold SendEventToMainThread. rewrite bind_run. pose proof (calm_on_env_silent mainHandler law_handler m) as H1.
  destruct (on_env mainHandler m) as [handler m1]. cbn [fst snd] in *. rewrite bind_run.
  assert (Runs calm_lib (if handler then mret true else on_env GetMainEventRunner)) as H2 by runs. specialize (H2 m1).
  destruct ((if handler then mret true else on_env GetMainEventRunner) m1) as [runner m2]. cbn [fst snd] in *.
  assert (calm_lib m m2) as H12 by (by etransitivity). destruct runner; cbn [negb]; [|done]. rewrite bind_run.
  assert (Runs calm_lib (on_env (if handler then mret () else set_mainHandler))) as H3 by (apply calm_on_env_silent; runs). specialize (H3 m2).
  destruct (on_env (if handler then mret () else set_mainHandler) m2) as [[] m3]. cbn [snd] in H3.
  assert (calm_lib m m3) as H13 by (by etransitivity). cbn. eapply posts_after; [exact H13|]. by destruct m3.
Qed.
Lemma send_works `{!AniWorks E} t m : (SendEventToMainThread t m).1 = true.
Proof.
  unfold SendEventToMainThread. rewrite bind_run. destruct (on_env mainHandler m) as [handler m1]. cbn [fst snd]. rewrite bind_run. destruct handler.
  - cbn [mret state_ret fst snd negb]. by rewrite bind_run.
  - destruct (on_env_run GetMainEventRunner m1) as (p & -> & _). cbn [fst snd]. rewrite works_runner. cbn [negb]. by rewrite bind_run.
Qed.
Lemma posted_app ts t : posted (ts ++ [t]) = posted ts ++ posted [t].
Proof. apply omap_app. Qed.
Lemma wf_posts t m m' : posts t m m' → well_formed m →
  match t with TransferTask ctx _ => (ctx ∉ posted (tasks m)) ∧ is_Some (contexts m !! ctx)
             | ConflictTask x _ => claim_contexts m !! (claim_callbackRef x : Listener) = Some x end → well_formed m'.
Proof.
  intros [Hc Hl Ht Hd [Hr _]] [] Hpost. split; rewrite ?Hc, ?Hl, ?Hd, ?Hr; try done; rewrite Ht.
  - rewrite posted_app. destruct t as [ctx ?|]; cbn; [|by rewrite app_nil_r]. apply NoDup_app. split; [done|].
    split; [|by apply NoDup_singleton]. intros k Hk ->%list_elem_of_singleton. by destruct Hpost.
  - intros k. rewrite posted_app, elem_of_app. intros [Hk|Hk]; [by apply wf_posted_there0|]. destruct t as [ctx ?|]; [|by apply elem_of_nil in Hk].
    apply list_elem_of_singleton in Hk. subst k. by destruct Hpost.
  - intros x q [Hin|Hin%list_elem_of_singleton]%elem_of_app; [by eapply wf_conflicts0|]. by subst t.
Qed.
Lemma AniCallBack_posts ctx c info m : let m' := (AniCallBack ctx c info m).2 in
  posts (TransferTask ctx (callback_param info)) m m' ∨ ∃ m1, calm_lib m m1 ∧ m' = (DeleteCallback ctx c m1).2.
Proof.
  unfold AniCallBack. rewrite bind_run. pose proof (calm_read_data c info m) as H1. destruct (ReadDataToBuffer c info m) as [[] m1]. cbn [fst snd] in *.
  rewrite bind_run. pose proof (send_posts (TransferTask ctx (callback_param info)) m1) as H2. destruct (SendEventToMainThread _ m1) as [sent m2].
  cbn [fst snd]. destruct sent; cbn [negb].
  - left. by eapply posts_after.
  - right. exists m2. split; [by etransitivity|done].
Qed.
Lemma on_completion_context info ctx c m : info_userData info = Z.pos ctx → contexts m !! ctx = Some c →
  on_completion info m = AniCallBack ctx c info m.
Proof. intros Hu Hc. unfold on_completion. rewrite bind_run. cbn [get fst snd]. rewrite Hu. cbn. by rewrite Hc. Qed.
Lemma wf_context_deletable ctx c m : well_formed m → contexts m !! ctx = Some c → ctx ∉ posted (tasks m) → deletable ctx c m.
Proof.
  intros Hw Hc Hp. split; [done|]. destruct (wf_alive _ Hw _ _ Hc) as [_ (r & Hr & Hin)]. exists r. split; [done|]. split; [done|].
  split; [|by eapply wf_apart]. intros ctx' c' Hc' Hr'. eapply (wf_injective _ Hw); [done..|congruence].
Qed.
Lemma wf_completion info ctx m : well_formed m → info_userData info = Z.pos ctx → is_Some (contexts m !! ctx) → ctx ∉ posted (tasks m) →
  well_formed (on_completion info m).2.
Proof.
  intros Hw Hu [c Hc] Hp. rewrite (on_completion_context info ctx c m Hu Hc). destruct (AniCallBack_posts ctx c info m) as [Hpost|(m1 & Hm1 & ->)].
  - eapply wf_posts; [exact Hpost|done|]. split; [done|by eexists].
  - assert (well_formed m1) as Hw1 by (by eapply wf_calm). apply wf_DeleteCallback; [done|]. eapply deletable_calm; [exact Hm1|].
    by apply wf_context_deletable.
Qed.

(** *** Tasks *)

Lemma silent_attach v : Runs silent (attach v).
Proof. unfold attach. runs. Qed.
Lemma silent_default_error : Runs silent GetDefaultBusinessError.
Proof. unfold GetDefaultBusinessError. runs. Qed.
#[local] Hint Resolve silent_attach silent_default_error : runs.
(** A call of a function that is referred to. *)
Lemma call_function_refs r cls args e : r ∈ references e → referred (call_function r cls args e).2 = referred e.
Proof.
  intros [o Hr]%elem_of_dom. unfold call_function. rewrite bind_run. pose proof (law_class cls e) as [[Hr1 _] _ _ _].
  destruct (FindClass cls e) as [[k|] e1]; cbn [fst snd] in *; [|done]. rewrite bind_run.
  pose proof (law_instance r k e1) as [[Hr2 _] _ _ _]. destruct (Object_InstanceOf r k e1) as [[[]|] e2]; cbn [fst snd] in *;
    [|cbn; congruence..]. rewrite bind_run.
  pose proof (law_call r o args e2) as Hl. destruct (FunctionalObject_Call r args e2) as [b e3]. cbn.
  destruct Hl as (Hr3 & _); [by rewrite Hr2, Hr1|]. congruence.
Qed.
Lemma call_function_works `{!AniWorks E} r o cls args vs e : referred e !! r = Some o →
  Forall2 (λ a v, ∃ x, a = Some x ∧ values e !! x = Some v) args vs →
  called (call_function r cls args e).2 = called e ++ [(o, map Some vs)].
Proof.
  intros Hr Hargs. unfold call_function. rewrite bind_run. pose proof (law_class cls e) as [[Hr1 Hc1] Hv1 _ _].
  destruct (works_class cls e) as [k Hk]. destruct (FindClass cls e) as [k' e1]. cbn [fst snd] in *. subst k'. rewrite bind_run.
  pose proof (law_instance r k e1) as [[Hr2 Hc2] Hv2 _ _]. pose proof (works_instance r k e1) as Hi. rewrite Hr1 in Hi.
  specialize (Hi (elem_of_dom_2 _ _ _ Hr)). destruct (Object_InstanceOf r k e1) as [b e2]. cbn [fst snd] in *. subst b. rewrite bind_run.
  pose proof (law_call r o args e2) as Hl. destruct (FunctionalObject_Call r args e2) as [b e3]. cbn.
  destruct Hl as (_ & ->); [by rewrite Hr2, Hr1|]. rewrite Hc2, Hc1. do 3 f_equal.
  assert (values e ⊆ values e2) as Hv by (by etransitivity). clear -Hargs Hv.
  induction Hargs as [|a v args vs (x & -> & Hx) _ IH]; [done|]. cbn. rewrite IH. f_equal. by eapply lookup_weaken.
Qed.
Definition callable (ctx : positive) (c : USBTransferAsyncContext) m : Prop := well_formed m ∧ deletable ctx c m.
Lemma callable_calm ctx c m m' : calm_lib m m' → callable ctx c m → callable ctx c m'.
Proof. intros Hc [Hw Hd]. split; [by eapply wf_calm|by eapply deletable_calm]. Qed.
Lemma triple_call_function ctx c r cls args : callbackRef c = Some r →
  triple (callable ctx c) (on_env (call_function r cls args)) (λ _, callable ctx c).
Proof.
  intros Hr m [Hw Hd]. pose proof Hd as (Hp & r' & Hr' & Hin & Hrest). rewrite Hr in Hr'. injection Hr' as <-.
  pose proof (call_function_refs r cls args (env_of m) Hin) as Href.
  destruct (on_env_run (call_function r cls args) m) as (p & -> & He & Hb). cbn [fst snd]. rewrite <- He in Href.
  assert (references (env_of (set_process p m)) = references (env_of m)) as Hs by (destruct m; unfold env_of in *; cbn in *; by rewrite Href). destruct m as [p0 cs cl ts]. split.
  - eapply wf_grow; [..|exact Hw]; try done. by rewrite Hs.
  - split; [done|]. exists r. split; [done|]. by rewrite Hs.
Qed.
Lemma wf_transfer_task ctx c param m : well_formed m → contexts m !! ctx = Some c → ctx ∉ posted (tasks m) →
  well_formed (run_transfer_task ctx param m).2.
Proof.
  intros Hw Hc Hp. pose proof (wf_context_deletable ctx c m Hw Hc Hp) as Hd. unfold run_transfer_task. rewrite bind_run. cbn [get fst snd]. rewrite Hc.
  assert (callable ctx c m) as Hm by done. clear Hw Hc Hp Hd.
  refine (triple_bind (callable ctx c) (λ _, callable ctx c) _ _ (λ _, well_formed) _ _ m Hm); clear m Hm.
  { apply triple_runs; [apply callable_calm|runs]. }
  assert (∀ A (a : A), triple (callable ctx c) (DeleteCallback ctx c;; mret a) (λ _, well_formed)) as Hdel.
  { intros A a. eapply (triple_bind _ (λ _, well_formed)); [intros m [Hw Hd]; by apply wf_DeleteCallback|]. intros []. by apply triple_ret. }
  intros [[]| |]; [|apply Hdel|by apply triple_ret; intros m []..].
  eapply (triple_bind _ (λ _, callable ctx c)); [apply triple_runs; [apply callable_calm|runs]|]. intros scope.
  apply triple_if; intros _; [apply Hdel|]. eapply (triple_bind _ (λ _, callable ctx c)); [apply triple_runs; [apply callable_calm|runs]|]. intros err.
  eapply (triple_bind _ (λ _, callable ctx c)); [apply triple_runs; [apply callable_calm|runs]|]. intros res.
  eapply (triple_bind _ (λ _, callable ctx c)); [destruct (callbackRef c) eqn:Hr; [by apply triple_call_function|by apply triple_ret]|]. intros [].
  eapply (triple_bind _ (λ _, well_formed)); [intros m [Hw Hd]; by apply wf_DeleteCallback|]. intros [].
  eapply triple_bind; [apply triple_runs; [exact wf_calm|runs]|]. intros []. by apply triple_ret.
Qed.
Lemma pop_wf t rest m : well_formed m → tasks m = t :: rest → well_formed (set_tasks rest m) ∧
  (match t with TransferTask ctx _ => (ctx ∉ posted rest) ∧ is_Some (contexts m !! ctx) | ConflictTask x _ => claim_contexts m !! (claim_callbackRef x : Listener) = Some x end).
Proof.
  intros [] Ht. rewrite Ht in *. destruct m as [p cs cl ts]. cbn in *. split.
  - split; cbn; try done.
    + destruct t; cbn in *; [by apply NoDup_cons in wf_posted0 as []|done].
    + intros ctx Hin. apply wf_posted_there0. destruct t; cbn in *; [by right|done].
    + intros x q Hin. eapply wf_conflicts0. by right.
  - destruct t as [ctx|x q]; cbn in *; [|by eapply wf_conflicts0; left].
    apply NoDup_cons in wf_posted0 as []. split; [done|]. apply wf_posted_there0. by left.
Qed.
Lemma wf_conflict_task x q m : well_formed m → claim_contexts m !! (claim_callbackRef x : Listener) = Some x → well_formed (on_env (run_conflict_task x q) m).2.
Proof.
  intros Hw Hx. destruct (wf_claim _ Hw _ _ Hx) as [_ Hin].
  assert (referred (env_of m) = referred (run_conflict_task x q (env_of m)).2) as Hr.
  { unfold run_conflict_task. rewrite bind_run. pose proof (silent_attach (Some (claim_vm x)) (env_of m)) as [[Hr1 _] _ _ _].
    destruct (attach (Some (claim_vm x)) (env_of m)) as [[[]| |] e1]; cbn [fst snd] in *; try done. rewrite bind_run.
    pose proof (law_scope LOCAL_SCOPE_SIZE e1) as [[Hr2 _] _ _ _]. destruct (CreateLocalScope LOCAL_SCOPE_SIZE e1) as [[] e2]; cbn [fst snd negb] in *; [|cbn; congruence].
    rewrite bind_run. pose proof (silent_into_conflict q e2) as [[Hr3 _] _ _ _]. destruct (into_ani_conflict q e2) as [v e3]. cbn [fst snd] in *.
    rewrite bind_run. pose proof (call_function_refs (claim_callbackRef x) "std.core.Function1" [Some v] e3) as Hr4.
    rewrite Hr3, Hr2, Hr1 in Hr4. specialize (Hr4 Hin).
    destruct (call_function _ _ _ e3) as [[] e4]. cbn [fst snd] in *. rewrite bind_run. pose proof (law_scope_end e4) as [Hr5 _].
    destruct (DestroyLocalScope e4) as [[] e5]. cbn in *. congruence. }
  destruct (on_env_run (run_conflict_task x q) m) as (p & -> & He & Hb). rewrite <- He in Hr. destruct m as [p0 cs cl ts].
  eapply wf_grow; [..|exact Hw]; try done. unfold env_of in *. cbn in *. by rewrite Hr.
Qed.
Lemma wf_run_task m : well_formed m → well_formed (run_task m).2.
Proof.
  intros Hw. unfold run_task. rewrite bind_run. cbn [get fst snd]. destruct (tasks m) as [|t rest] eqn:Ht; [done|].
  destruct (pop_wf t rest m Hw Ht) as [Hw' Hpop]. rewrite bind_run. cbn [modify fst snd]. destruct m as [p cs cl ts]. cbn in *.
  destruct t as [ctx param|x q]; [|by apply wf_conflict_task]. destruct Hpop as [Hp [c Hc]]. by eapply wf_transfer_task.
Qed.

(** *** Claims *)

Lemma wf_drop_claim (l : Listener) m : well_formed m → (∀ x q, ConflictTask x q ∈ tasks m → claim_callbackRef x ≠ l) → well_formed (drop_claim l m).2.
Proof.
  intros Hw Hno. unfold drop_claim. rewrite bind_run. cbn [get fst snd]. destruct (claim_contexts m !! l) as [x|] eqn:Hx; [|exact Hw].
  destruct (wf_claim _ Hw _ _ Hx) as [Hl Hin]. rewrite bind_run. cbn [modify fst snd].
  assert (references (env_of m) ∖ {[l]} ⊆ references (DeleteClaimCallback x (env_of m)).2) as Hr.
  { unfold DeleteClaimCallback. rewrite bind_run. pose proof (law_attach (claim_vm x) (env_of m)) as [[Hr1 _] _ _ _].
    destruct (AttachCurrentThread (claim_vm x) (env_of m)) as [[st env] e1]. cbn [fst snd] in *. rewrite bind_run.
    assert (Runs silent (if negb (bool_decide (st = ANI_OK)) then '(_, env) ← GetEnv (claim_vm x); mret env else mret env : state E bool)) as H2 by runs.
    specialize (H2 e1) as [[Hr2 _] _ _ _]. match goal with |- context [snd (?f e1)] => destruct (f e1) as [env' e2] end. cbn [fst snd] in *.
    destruct env'; [|cbn; rewrite Hr2, Hr1; by apply subseteq_difference_l]. rewrite bind_run. subst l.
    pose proof (law_delete (claim_callbackRef x) e2) as Hd. destruct (GlobalReference_Delete (claim_callbackRef x) e2) as [b e3]. cbn.
    destruct Hd as [-> _]; [by rewrite Hr2, Hr1|]. by rewrite Hr2, Hr1, dom_delete_L. }
  match goal with |- well_formed (on_env _ ?m1).2 => destruct (on_env_run (DeleteClaimCallback x) m1) as (p & -> & He & Hb) end.
  destruct m as [p0 cs cl ts], Hw. unfold env_of in *. cbn in *. rewrite <- He in Hr. split; cbn; try done.
  - by rewrite Hb.
  - intros ctx c Hc. destruct (wf_alive0 ctx c Hc) as [Hv (r & Hrc & Hrin)]. split; [done|]. exists r. split; [done|]. apply Hr, elem_of_difference.
    split; [done|]. intros ->%elem_of_singleton. by rewrite (wf_apart0 _ _ _ Hc Hrc) in Hx.
  - intros ctx c k Hc Hk. apply lookup_delete_None. right. by eapply wf_apart0.
  - intros k y [Hne Hy]%lookup_delete_Some. destruct (wf_claim0 _ _ Hy) as [Hk Hkin]. split; [done|]. apply Hr, elem_of_difference.
    split; [done|]. by intros ->%elem_of_singleton.
  - intros y q Hy. rewrite lookup_delete_ne; [by eapply wf_conflicts0|]. intros Heq. by eapply Hno.
Qed.
Lemma wf_on_conflict (l : Listener) b d i m : well_formed m → well_formed (on_conflict l b d i m).2.
Proof.
  intros Hw. unfold on_conflict. rewrite bind_run. cbn [get fst snd]. destruct (claim_contexts m !! l) as [x|] eqn:Hx; [|exact Hw].
  unfold OnClaimConflict. rewrite bind_run. destruct (wf_claim _ Hw _ _ Hx) as [<- _].
  match goal with |- context [SendEventToMainThread ?t m] => pose proof (send_posts t m) as Hp; destruct (SendEventToMainThread t m) as [[] m1] end; cbn.
  - by eapply wf_posts.
  - by eapply wf_calm.
Qed.
Lemma wf_conflict_callback o : triple well_formed (conflict_callback o) (λ _, well_formed).
Proof.
  intros m Hw. unfold conflict_callback. destruct o as [r0|]; [|done]. destruct (r0 =? 0); [done|]. rewrite bind_run.
  destruct (on_env_run (SetupClaimCallback r0) m) as (p & -> & He & Hb). cbn [fst snd].
  enough (match (SetupClaimCallback r0 (env_of m)).1 with
          | None => references (env_of m) ⊆ references (SetupClaimCallback r0 (env_of m)).2
          | Some x => (claim_callbackRef x ∉ references (env_of m)) ∧
              references (SetupClaimCallback r0 (env_of m)).2 = {[claim_callbackRef x]} ∪ references (env_of m)
          end) as Hs.
  - rewrite <- He in Hs. destruct (SetupClaimCallback r0 (env_of m)).1 as [x|].
    + destruct Hs as [Hn Hs]. rewrite bind_run. cbn [modify mret state_ret fst snd]. destruct m as [p0 cs cl ts], Hw. unfold env_of in *. cbn in *. split; cbn; try done.
      * by rewrite Hb.
      * intros ctx c Hc. destruct (wf_alive0 ctx c Hc) as [Hv (r & Hrc & Hrin)]. split; [done|]. exists r. split; [done|].
        unfold env_of. cbn. rewrite Hs. by apply elem_of_union_r.
      * intros ctx c l Hc Hl. rewrite lookup_insert_ne; [by eapply wf_apart0|]. intros Hk. destruct (wf_alive0 ctx c Hc) as [_ (r & Hrc & Hrin)]. congruence.
      * intros k y [[<- <-]|[Hne Hy]]%lookup_insert_Some; unfold env_of; cbn; rewrite Hs;
          [split; [done|by apply elem_of_union_l, elem_of_singleton]|].
        destruct (wf_claim0 _ _ Hy). split; [done|by apply elem_of_union_r].
      * intros y q Hy. destruct (wf_claim0 _ _ (wf_conflicts0 _ _ Hy)) as [_ Hin]. rewrite lookup_insert_ne; [by eapply wf_conflicts0|]. by intros Hk; rewrite Hk in Hn.
    + cbn. eapply wf_grow; [..|exact Hw]; try done; by destruct m.
  - unfold SetupClaimCallback. rewrite bind_run. pose proof (law_get_env (env_of m)) as [[Hr1 _] _ _ _]. destruct (get_env (env_of m)) as [env e1].
    cbn [fst snd] in *. destruct env; cbn [negb]; [|cbn; by rewrite Hr1]. rewrite bind_run. pose proof (law_create r0 e1) as Hc.
    destruct (GlobalReference_Create r0 e1) as [[r|] e2]; cbn [fst snd] in *; [|cbn; by rewrite (quiet_referred _ _ Hc), Hr1].
    destruct Hc as (Hn & Hr2 & _). rewrite Hr1 in *. rewrite bind_run. pose proof (silent_vm e2) as [[Hr3 _] _ _ _].
    destruct (GetVM e2) as [[ok v] e3]. cbn [fst snd] in *. destruct (if ok then v else None) as [w|]; cbn; [by rewrite Hr3, Hr2, dom_insert_L|].
    rewrite bind_run. pose proof (law_delete r e3) as Hd. destruct (GlobalReference_Delete r e3) as [b e4]. cbn.
    destruct Hd as [-> _]; [rewrite Hr3, Hr2, dom_insert_L; by apply elem_of_union_l, elem_of_singleton|].
    rewrite Hr3, Hr2, dom_delete_L, dom_insert_L. intros k Hk.
    apply elem_of_difference. split; [by apply elem_of_union_r|]. by intros ->%elem_of_singleton.
Qed.
Lemma calm_claim_error ret : Runs calm_process (ThrowClaimError ret).
Proof. unfold ThrowClaimError. runs. Qed.
#[local] Hint Resolve calm_claim_error : runs.
Lemma wf_claim_exclusive q i f o m : well_formed m → well_formed (claimInterfaceExclusive others q i f o m).2.
Proof.
  revert m. change (triple well_formed (claimInterfaceExclusive others q i f o) (λ _, well_formed)). unfold claimInterfaceExclusive.
  apply triple_if; intros _; [apply triple_runs; [exact wf_calm|runs]|]. eapply triple_bind; [apply wf_conflict_callback|]. intros cb.
  apply triple_runs; [exact wf_calm|runs].
Qed.

(** *** What a submission leaves *)

(** Nothing is called and what was referred to still is; there may be one more context,
    which refers to the function of the program. *)
Record submitted (transfer : UsbDataTransferParams) m m' : Prop := {
  submitted_tasks : tasks m' = tasks m;
  submitted_claims : claim_contexts m' = claim_contexts m;
  submitted_called : called (env_of m') = called (env_of m);
  submitted_referred : referred (env_of m) ⊆ referred (env_of m');
  submitted_contexts : contexts m' = contexts m ∨ ∃ ctx c r, contexts m !! ctx = None ∧ contexts m' = <[ctx := c]> (contexts m) ∧
    callbackRef c = Some r ∧ referred (env_of m') !! r = Some (t_callback transfer);
}.
Lemma submitted_calm transfer m m1 m2 : calm_lib m1 m2 → submitted transfer m m1 → submitted transfer m m2.
Proof. intros [Hc Hl Ht _ [Hr Hca]] []. split; rewrite ?Hc, ?Hl, ?Ht, ?Hr, ?Hca; done. Qed.
Lemma submitted_of_calm transfer m m' : calm_lib m m' → submitted transfer m m'.
Proof. intros [Hc Hl Ht _ [Hr Hca]]. split; try done; [by rewrite Hr|by left]. Qed.
(** The context that is being filled refers to the function. *)
Definition holding (transfer : UsbDataTransferParams) m0 (c : USBTransferAsyncContext) m : Prop :=
  contexts m = contexts m0 ∧ claim_contexts m = claim_contexts m0 ∧ tasks m = tasks m0 ∧ called (env_of m) = called (env_of m0) ∧
  ∃ r, callbackRef c = Some r ∧ (r ∉ references (env_of m0)) ∧ referred (env_of m) = <[r := t_callback transfer]> (referred (env_of m0)).
Lemma holding_calm transfer m0 c m m' : calm_lib m m' → holding transfer m0 c m → holding transfer m0 c m'.
Proof. intros [Hc Hl Ht _ [Hr Hca]]. unfold holding. by rewrite Hc, Hl, Ht, Hr, Hca. Qed.
Lemma setup_holds transfer m0 c : triple (calm_lib m0) (on_env (SetupCallback (t_callback transfer) c))
  (λ r m, match r with None => calm_lib m0 m | Some c' => holding transfer m0 c' m end).
Proof.
  intros m Hm. destruct (on_env_run (SetupCallback (t_callback transfer) c) m) as (p & -> & Hp & Hd). cbn [fst snd].
  unfold SetupCallback in *. rewrite !bind_run in *. pose proof (law_get_env (env_of m)) as [He _ _ _]. destruct (get_env (env_of m)) as [env e1].
  cbn [fst snd] in *. destruct env; cbn [negb] in *; [|cbn in *; etransitivity; [exact Hm|]; apply calm_env_step; [right; by rewrite Hp|done]].
  rewrite !bind_run in *. pose proof (law_create (t_callback transfer) e1) as Hl. destruct (GlobalReference_Create (t_callback transfer) e1) as [[r|] e2]; cbn in *.
  - destruct Hl as (Hn & Hr & Hc), He as [Hr1 Hc1], Hm as [Hcs Hcl Ht _ [Hr0 Hc0]]. destruct m as [p0 cs cl ts]. unfold env_of in *. cbn in *. subst e2.
    split; [done|]. split; [done|]. split; [done|]. unfold env_of. cbn. split; [congruence|]. exists r. split; [done|]. rewrite <- Hr0, <- Hr1. done.
  - etransitivity; [exact Hm|]. apply calm_env_step; [|done]. right. rewrite Hp. by etransitivity.
Qed.
Lemma holding_deleted transfer m0 ctx c cs : (∀ k, k ≠ ctx → cs !! k = contexts m0 !! k) → contexts m0 !! ctx = None →
  triple (λ m, holding transfer m0 c (set_contexts (contexts m0) m) ∧ contexts m = cs) (DeleteCallback ctx c) (λ _, submitted transfer m0).
Proof.
  intros Hcs Hf m [(_ & Hl & Ht & Hca & r & Hr & Hn & Href) Hm].
  assert (env_of (set_contexts (contexts m0) m) = env_of m ∧ tasks (set_contexts (contexts m0) m) = tasks m ∧
    claim_contexts (set_contexts (contexts m0) m) = claim_contexts m) as (He & Ht' & Hl') by (by destruct m). rewrite He, ?Ht', ?Hl' in *.
  destruct (DeleteCallback_deleted ctx c r m Hr) as [Hc1 Hl1 Ht1 _ Hr1 Hca1]; [by rewrite Href, dom_insert_L; apply elem_of_union_l, elem_of_singleton|].
  split; [congruence..| |].
  - apply not_elem_of_dom in Hn. by rewrite Href, delete_insert_id in Hr1.
  - left. rewrite Hc1, Hm. apply map_eq. intros k. destruct (decide (k = ctx)) as [->|Hne]; [by rewrite lookup_delete_eq|].
    rewrite lookup_delete_ne by done. by apply Hcs.
Qed.

Definition inserted (transfer : UsbDataTransferParams) m0 (c : USBTransferAsyncContext) (cs : gmap positive USBTransferAsyncContext) m : Prop :=
  holding transfer m0 c (set_contexts (contexts m0) m) ∧ contexts m = cs.
Lemma inserted_calm transfer m0 c cs m m' : calm_lib m m' → inserted transfer m0 c cs m → inserted transfer m0 c cs m'.
Proof.
  intros Hc [Hh Hm]. split; [|by rewrite (calm_contexts _ _ Hc)]. eapply holding_calm; [|exact Hh]. by destruct m, m', Hc.
Qed.
Lemma create_fresh m0 transfer : triple (calm_lib m0) (CreateTransferContext transfer)
  (λ r m, (∀ ctx c, r = Some (ctx, c) → contexts m0 !! ctx = None) ∧ calm_lib m0 m).
Proof.
  intros m Hm. unfold CreateTransferContext. rewrite bind_run. cbn [get fst snd]. rewrite bind_run.
  pose proof (calm_on_memory (new_context (dom (contexts m))) m) as Hc.
  assert (∀ k, (on_memory (new_context (dom (contexts m))) m).1 = Some k → contexts m0 !! k = None) as Hf.
  { intros k Hk. rewrite <- (calm_contexts _ _ Hm). apply not_elem_of_dom. eapply (law_new_context _ (system (process m))).
    unfold on_memory, on_process, on_system, zoom in Hk. by destruct (new_context _ _). }
  destruct (on_memory (new_context (dom (contexts m))) m) as [[ctx|] m1]; cbn [fst snd] in *.
  - cbn. split; [|by etransitivity]. intros k c [= <- <-]. by apply Hf.
  - rewrite bind_run. split; [done|]. etransitivity; [exact Hm|]. etransitivity; [exact Hc|].
    assert (Runs calm_lib (on_process (ThrowBusinessError CAPABILITY_NOT_SUPPORT ""))) as Hr by auto with runs. exact (Hr m1).
Qed.
Lemma delete_fresh m0 ctx : contexts m0 !! ctx = None → triple (calm_lib m0) (delete_context ctx) (λ _, calm_lib m0).
Proof.
  intros Hf m Hm. etransitivity; [exact Hm|]. destruct Hm as [Hc _ _ _ _]. destruct m as [p cs cl ts]. cbn in *. split; cbn; try done.
  apply delete_id. by rewrite Hc.
Qed.
Lemma calm_extract b c : Runs calm_lib (on_env (ExtractBufferData b c)).
Proof. apply calm_on_env_silent. intros e. apply extract_vm. Qed.
Lemma weaken_post {A} (Pre : LIB → Prop) (f : TM A) (Q Q' : A → LIB → Prop) : triple Pre f Q → (∀ a m, Q a m → Q' a m) → triple Pre f Q'.
Proof. intros Hf HQ m Hm. by apply HQ, Hf. Qed.
Lemma submit_submitted transfer m0 : triple (calm_lib m0) (submit TransferCompleteCallback uninit_flags transfer) (λ _, submitted transfer m0).
Proof.
  assert (∀ m m', calm_lib m m' → calm_lib m0 m → calm_lib m0 m') as Hst by (intros; by etransitivity).
  unfold submit. eapply triple_bind; [apply create_fresh|].
  intros [[ctx c]|]; [|apply triple_pure; intros _; apply triple_ret, submitted_of_calm].
  apply triple_pure; intros Hfresh. pose proof (Hfresh ctx c eq_refl) as Hf. clear Hfresh.
  eapply triple_bind; [apply (triple_runs _ _ Hst), calm_extract|].
  intros [c1|]; [|eapply weaken_post; [by apply delete_fresh|intros [] m; apply submitted_of_calm]].
  eapply triple_bind; [apply setup_holds|]. intros [c2|]; [|eapply weaken_post; [by apply delete_fresh|intros [] m; apply submitted_of_calm]].
  eapply triple_bind; [apply (triple_runs _ (holding transfer m0 c2)); [apply holding_calm|runs]|]. intros [[a info]|].
  - eapply (triple_bind _ (λ _, inserted transfer m0 (set_ashmem a c2) (<[ctx := set_ashmem a c2]> (contexts m0)))).
    { intros m Hm. pose proof Hm as (Hcs & _). by destruct m; cbn in *; rewrite Hcs in *. }
    intros []. eapply triple_bind; [apply (triple_runs _ _ (inserted_calm _ _ _ _)); runs|]. intros ret. cbn beta. apply triple_if; intros _.
    + eapply triple_bind; [apply (triple_runs _ _ (inserted_calm _ _ _ _)); runs|]. intros [].
      eapply triple_bind; [apply holding_deleted; [intros k Hk; by rewrite lookup_insert_ne|done]|]. intros [].
      apply triple_runs; [intros ??; apply submitted_calm|runs].
    + intros m [(_ & Hl & Ht & Hca & r & Hr & Hn & Href) Hm]. destruct m as [p cs cl ts]. unfold env_of in *. cbn in *. subst cs. split; try done.
      * unfold env_of. cbn. rewrite Href. apply insert_subseteq. by apply not_elem_of_dom.
      * right. exists ctx, (set_ashmem a c2), r. split; [done|]. split; [done|]. split; [done|]. unfold env_of. cbn. by rewrite Href, lookup_insert_eq.
  - intros m Hm. apply (holding_deleted transfer m0 ctx c2 (contexts m0) (λ _ _, eq_refl) Hf). pose proof Hm as (Hcs & _). by destruct m; cbn in *; subst.
Qed.
Lemma usbSubmitTransfer_submitted transfer m : submitted transfer m (usbSubmitTransfer TransferCompleteCallback uninit_flags transfer m).2.
Proof.
  revert m. enough (∀ m0, triple (calm_lib m0) (usbSubmitTransfer TransferCompleteCallback uninit_flags transfer) (λ _, submitted transfer m0)) as Hs
    by (intros m; by apply (Hs m m)).
  intros m0. assert (∀ m m', calm_lib m m' → calm_lib m0 m → calm_lib m0 m') as Hst by (intros; by etransitivity).
  unfold usbSubmitTransfer. eapply triple_bind; [apply (triple_runs _ _ Hst); runs|]. intros now.
  eapply triple_bind; [apply (triple_runs _ _ Hst); runs|]. intros [].
  eapply (triple_bind _ (λ _, submitted transfer m0)).
  - apply triple_if; intros _; [|apply submit_submitted]. eapply weaken_post; [apply (triple_runs _ _ Hst); runs|]. intros [] m. apply submitted_of_calm.
  - intros []. apply triple_runs; [intros ??; apply submitted_calm|runs].
Qed.

(** *** What claims leave *)

Lemma setup_claim_grows o e : referred e ⊆ referred (SetupClaimCallback o e).2 ∧ called (SetupClaimCallback o e).2 = called e.
Proof.
  unfold SetupClaimCallback. rewrite bind_run. pose proof (law_get_env e) as [[Hr1 Hc1] _ _ _]. destruct (get_env e) as [env e1]. cbn [fst snd] in *.
  destruct env; cbn [negb]; [|cbn; by rewrite Hr1]. rewrite bind_run. pose proof (law_create o e1) as Hl.
  destruct (GlobalReference_Create o e1) as [[r|] e2]; cbn [fst snd] in *; [|destruct Hl as [Hr2 Hc2]; cbn; by rewrite Hr2, Hc2, Hr1].
  destruct Hl as (Hn & Hr2 & Hc2). rewrite Hr1 in *. rewrite bind_run. pose proof (silent_vm e2) as [[Hr3 Hc3] _ _ _].
  apply not_elem_of_dom in Hn. destruct (GetVM e2) as [[ok v] e3]. cbn [fst snd] in *. destruct (if ok then v else None) as [w|]; cbn.
  - rewrite Hr3, Hr2. split; [by apply insert_subseteq|congruence].
  - rewrite bind_run. pose proof (law_delete r e3) as Hd. destruct (GlobalReference_Delete r e3) as [b e4]. cbn.
    destruct Hd as [-> Hc4]; [rewrite Hr3, Hr2, dom_insert_L; by apply elem_of_union_l, elem_of_singleton|].
    rewrite Hr3, Hr2, delete_insert_id by done. split; [done|congruence].
Qed.
Lemma delete_claim_leaves x e : claim_callbackRef x ∈ references e →
  delete (claim_callbackRef x) (referred e) ⊆ referred (DeleteClaimCallback x e).2 ∧ called (DeleteClaimCallback x e).2 = called e.
Proof.
  intros Hin. unfold DeleteClaimCallback. rewrite bind_run. pose proof (law_attach (claim_vm x) e) as [[Hr1 Hc1] _ _ _].
  destruct (AttachCurrentThread (claim_vm x) e) as [[st env] e1]. cbn [fst snd] in *. rewrite bind_run.
  assert (Runs silent (if negb (bool_decide (st = ANI_OK)) then '(_, env) ← GetEnv (claim_vm x); mret env else mret env : state E bool)) as H2 by runs.
  specialize (H2 e1) as [[Hr2 Hc2] _ _ _]. match goal with |- context [snd (?f e1)] => destruct (f e1) as [env' e2] end. cbn [fst snd] in *.
  destruct env'; [|cbn; rewrite Hr2, Hr1; split; [apply delete_subseteq|congruence]]. rewrite bind_run.
  pose proof (law_delete (claim_callbackRef x) e2) as Hd. destruct (GlobalReference_Delete (claim_callbackRef x) e2) as [b e3]. cbn.
  destruct Hd as [-> Hc3]; [by rewrite Hr2, Hr1|]. rewrite Hr2, Hr1. split; [done|congruence].
Qed.
(** Transfers are not concerned by the rest. *)
Record apart m m' : Prop := {
  apart_contexts : contexts m' = contexts m;
  apart_called : called (env_of m') = called (env_of m);
  apart_referred ctx c r : contexts m !! ctx = Some c → callbackRef c = Some r → referred (env_of m') !! r = referred (env_of m) !! r;
}.
Lemma apart_calm m m' : calm_lib m m' → apart m m'.
Proof. intros [Hc _ _ _ [Hr Hca]]. split; try done. intros. by rewrite Hr. Qed.
Lemma apart_posts t m m' : posts t m m' → apart m m'.
Proof. intros [Hc _ _ _ [Hr Hca]]. split; try done. intros. by rewrite Hr. Qed.
Lemma apart_after m m1 m2 : apart m m1 → calm_lib m1 m2 → apart m m2.
Proof. intros [Hc Hca Hr] [Hc' _ _ _ [Hr' Hca']]. split; try congruence. intros. rewrite Hr'. by eapply Hr. Qed.
Lemma alive_kept m (f : gmap ani_ref ani_ref) ctx c r : well_formed m → referred (env_of m) ⊆ f → contexts m !! ctx = Some c → callbackRef c = Some r →
  f !! r = referred (env_of m) !! r.
Proof.
  intros Hw Hf Hc Hr. destruct (wf_alive _ Hw _ _ Hc) as [_ (r' & Hr' & [o Ho]%elem_of_dom)]. rewrite Hr in Hr'. injection Hr' as <-.
  rewrite Ho. by eapply lookup_weaken.
Qed.
Lemma apart_claim q i f o m : well_formed m → apart m (claimInterfaceExclusive others q i f o m).2.
Proof.
  intros Hw. unfold claimInterfaceExclusive. destruct (negb _).
  { apply apart_calm. assert (Runs calm_lib (on_process (ThrowBusinessError CAPABILITY_NOT_SUPPORT "");; mret (Done ()))) as Hr by runs. apply Hr. }
  rewrite bind_run. eapply (apart_after _ (conflict_callback o m).2).
  - unfold conflict_callback. destruct o as [r0|]; [|by apply apart_calm]. destruct (r0 =? 0); [by apply apart_calm|].
    rewrite bind_run. destruct (on_env_run (SetupClaimCallback r0) m) as (p & -> & He & _). destruct (setup_claim_grows r0 (env_of m)) as [Hs Hc].
    rewrite <- He in Hs, Hc. cbn [fst snd]. assert (apart m (set_process p m)) as Ha.
    { split; [by destruct m|by destruct m|]. intros ctx c r Hctx Hr. assert (env_of (set_process p m) = engine p) as -> by (by destruct m).
      by eapply alive_kept. }
    destruct (SetupClaimCallback r0 (env_of m)).1; [|exact Ha]. rewrite bind_run. cbn [modify mret state_ret fst snd].
    destruct Ha as [Ha1 Ha2 Ha3]. by destruct m; split.
  - match goal with |- calm_lib _ (?f ?m1).2 => assert (Runs calm_lib f) as Hr by runs; apply Hr end.
Qed.
Lemma apart_conflict (l : Listener) b d i m : well_formed m → apart m (on_conflict l b d i m).2.
Proof.
  intros Hw. unfold on_conflict. rewrite bind_run. cbn [get fst snd]. destruct (claim_contexts m !! l) as [x|] eqn:Hx; [|by apply apart_calm].
  unfold OnClaimConflict. rewrite bind_run.
  match goal with |- context [SendEventToMainThread ?t m] => pose proof (send_posts t m) as Hp; destruct (SendEventToMainThread t m) as [[] m1] end; cbn;
    [by eapply apart_posts|by apply apart_calm].
Qed.
Lemma apart_drop (l : Listener) m : well_formed m → apart m (drop_claim l m).2.
Proof.
  intros Hw. unfold drop_claim. rewrite bind_run. cbn [get fst snd]. destruct (claim_contexts m !! l) as [x|] eqn:Hx; [|by apply apart_calm].
  destruct (wf_claim _ Hw _ _ Hx) as [Hl Hin]. rewrite bind_run. cbn [modify fst snd].
  match goal with |- apart _ (on_env _ ?m1).2 => destruct (on_env_run (DeleteClaimCallback x) m1) as (p & -> & He & Hb) end.
  destruct (delete_claim_leaves x (env_of m)) as [Hs Hc]; [by rewrite Hl|]. pose proof (wf_alive _ Hw) as Halive. pose proof (wf_apart _ Hw) as Hapart.
  destruct m as [p0 cs cl ts]. unfold env_of in *. cbn in *. rewrite <- He in Hs, Hc. split; [done|done|]. intros ctx c r Hctx Hr. unfold env_of. cbn.
  destruct (Halive _ _ Hctx) as [_ (r' & Hr' & [o Ho]%elem_of_dom)]. rewrite Hr in Hr'. injection Hr' as <-. rewrite Ho.
  eapply lookup_weaken; [|exact Hs]. rewrite lookup_delete_ne; [done|]. intros Heq. subst l r.
  assert (Some x = None) by (rewrite <- Hx; exact (Hapart _ _ _ Hctx Hr)). done.
Qed.

(** ** Histories *)

(** The calls of the module, what the service and the client library report, and the main
    thread.  The service is assumed to report the end of a transfer once, and only of one
    that is under way ([l_complete]): the callback uses the address that comes back without
    a test, so another report would use a deleted context.  A function
    that a conflict waits for is not dropped; the rest of the module and of the process
    leaves the references. *)
Inductive library_step m : LIB → Prop :=
  | l_submit transfer : library_step m (usbSubmitTransfer TransferCompleteCallback uninit_flags transfer m).2
  | l_cancel transfer : library_step m (usbCancelTransfer transfer m).2
  | l_complete info ctx : info_userData info = Z.pos ctx → is_Some (contexts m !! ctx) → ctx ∉ posted (tasks m) →
      library_step m (on_completion info m).2
  | l_task : library_step m (run_task m).2
  | l_claim pipe iface force onConflict : library_step m (claimInterfaceExclusive others pipe iface force onConflict m).2
  | l_conflict l busNum devAddr interfaceId : library_step m (on_conflict l busNum devAddr interfaceId m).2
  | l_drop l : (∀ x q, ConflictTask x q ∈ tasks m → claim_callbackRef x ≠ l) → library_step m (drop_claim l m).2
  | l_other p : bad_delete p = bad_delete (process m) → quiet (engine (process m)) (engine p) → library_step m (set_process p m).
(** What a function is told of a transfer that has ended: what was reported, with the two
    lengths of a packet exchanged. *)
Definition reported (info : Completion) : SubmitTransferCallback := {|
  sub_actualLength := info_actualLength info; sub_status := info_status info;
  sub_isoPacketDescs := map (λ i, {| iso_length := isoActualLength i; iso_actualLength := isoLength i; iso_status := isoStatus i |}) (info_iso info) |}.
(** The module when it has been loaded. *)
Definition loaded m : Prop := bad_delete (process m) = false ∧ contexts m = ∅ ∧ claim_contexts m = ∅ ∧ tasks m = [].
Definition reachable m : Prop := ∃ m0, loaded m0 ∧ rtc library_step m0 m.
Lemma wf_loaded m : loaded m → well_formed m.
Proof.
  intros (Hd & Hc & Hl & Ht). split; rewrite ?Hd, ?Hc, ?Hl, ?Ht; try done.
  - apply NoDup_nil_2.
  - by intros ctx ?%elem_of_nil.
  - by intros x p ?%elem_of_nil.
Qed.
Lemma wf_step m m' : library_step m m' → well_formed m → well_formed m'.
Proof.
  intros Hs Hw. destruct Hs; [by apply wf_usbSubmitTransfer|by apply wf_runs; [apply calm_cancel|]|by eapply wf_completion|by apply wf_run_task|
    by apply wf_claim_exclusive|by apply wf_on_conflict|by apply wf_drop_claim|].
  eapply wf_calm; [|exact Hw]. apply calm_env_step; [by right|done].
Qed.
Lemma reachable_wf m : reachable m → well_formed m.
Proof. intros (m0 & Hl & Hr). apply wf_loaded in Hl. induction Hr; eauto using wf_step. Qed.

(** ** A main thread that works *)

Section Works.
Context `{!AniWorks E}.

Definition with_env (e : E) m : LIB := set_process (set_engine e (process m)) m.
Lemma on_env_with {A} (f : state E A) m : on_env f m = ((f (env_of m)).1, with_env (f (env_of m)).2 m).
Proof. unfold on_env, on_process, on_engine, zoom, env_of. by destruct (f (engine (process m))). Qed.
Lemma env_with e m : env_of (with_env e m) = e.
Proof. by destruct m as [[] ? ? ?]. Qed.
Lemma with_with e e' m : with_env e' (with_env e m) = with_env e' m.
Proof. by destruct m as [[] ? ? ?]. Qed.
Lemma on_env_bind {A B} (f : state E A) (g : A → TM B) m : (on_env f ≫= g) m = g (f (env_of m)).1 (with_env (f (env_of m)).2 m).
Proof. by rewrite bind_run, on_env_with. Qed.

Lemma attach_works v e : is_Some v → (attach v e).1 = Done true.
Proof.
  intros [w ->]. unfold attach. rewrite bind_run. pose proof (works_attach w e) as Ha. destruct (AttachCurrentThread w e) as [[st env] e1].
  cbn [fst snd] in *. by injection Ha as -> ->.
Qed.
Lemma default_error_works e : ∃ x, (GetDefaultBusinessError e).1 = Some x ∧ values (GetDefaultBusinessError e).2 !! x = Some V_error.
Proof.
  unfold GetDefaultBusinessError. rewrite bind_run. destruct (works_class "@ohos.base.BusinessError" e) as [k Hk].
  destruct (FindClass _ e) as [k' e1]. cbn [fst snd] in *. subst k'. rewrite bind_run. destruct (works_method k "<ctor>" ":" e1) as [c Hc].
  destruct (Class_FindMethod k "<ctor>" ":" e1) as [c' e2]. cbn [fst snd] in *. subst c'.
  destruct (works_new k c e2) as [x Hx]. exists x. split; [done|]. pose proof (law_new k c e2) as Hl. destruct (Object_New k c e2) as [x' e3].
  cbn [fst snd] in *. subst x'. by apply Hl.
Qed.
Lemma DeleteCallback_works ctx c r m : callbackRef c = Some r → r ∈ references (env_of m) → ∃ e',
  DeleteCallback ctx c m = ((), set_contexts (delete ctx (contexts m)) (with_env e' m)) ∧
  referred e' = delete r (referred (env_of m)) ∧ called e' = called (env_of m).
Proof.
  intros Hc Hr. unfold DeleteCallback. rewrite Hc, on_env_bind. pose proof (works_env (env_of m)) as Hw.
  pose proof (law_get_env (env_of m)) as [[Hr1 Hc1] _ _ _]. destruct (get_env (env_of m)) as [b e1]. cbn [fst snd] in *. subst b.
  rewrite bind_run, on_env_bind. cbn [fst snd mret state_ret]. rewrite env_with, with_with. pose proof (law_delete r e1) as Hd.
  destruct (GlobalReference_Delete r e1) as [b e2]. cbn [fst snd]. destruct Hd as [Hr2 Hc2]; [by rewrite Hr1|]. exists e2.
  split; [by destruct m|]. split; congruence.
Qed.
(** What a task calls: the function of the program, with what it gets. *)
Definition call_of m (t : Task) : option (ani_ref * list (option ani_value)) :=
  match t with
  | TransferTask ctx param =>
      c ← contexts m !! ctx; r ← callbackRef c; o ← referred (env_of m) !! r; Some (o, [Some V_error; Some (V_callback param)])
  | ConflictTask x param => o ← referred (env_of m) !! claim_callbackRef x; Some (o, [Some (V_conflict param)])
  end.
Definition gone (t : Task) (cs : gmap positive USBTransferAsyncContext) : gmap positive USBTransferAsyncContext :=
  match t with TransferTask ctx _ => delete ctx cs | ConflictTask _ _ => cs end.
Definition released m (t : Task) : gmap ani_ref ani_ref :=
  match t with
  | TransferTask ctx _ => match c ← contexts m !! ctx; callbackRef c with Some r => delete r (referred (env_of m)) | None => referred (env_of m) end
  | ConflictTask _ _ => referred (env_of m)
  end.
Lemma transfer_task_calls ctx c param m : well_formed m → contexts m !! ctx = Some c →
  let '(res, m') := run_transfer_task ctx param m in
  res = Done () ∧ (∃ x, call_of m (TransferTask ctx param) = Some x ∧ called (env_of m') = called (env_of m) ++ [x]) ∧
  contexts m' = delete ctx (contexts m) ∧ tasks m' = tasks m ∧ referred (env_of m') = released m (TransferTask ctx param).
Proof.
  intros Hw Hc. destruct (wf_alive _ Hw _ _ Hc) as [Hv (r & Hr & Hin)]. pose proof Hin as [o Ho]%elem_of_dom. cbn [call_of released]. rewrite Hc. cbn [mbind option_bind].
  rewrite Hr. cbn [mbind option_bind]. rewrite Ho. cbn [mbind option_bind]. unfold run_transfer_task. rewrite bind_run. cbn [get fst snd]. rewrite Hc, on_env_bind.
  pose proof (silent_attach (vm c) (env_of m)) as [[Hr1 Hc1] _ _ _]. rewrite (attach_works _ _ Hv). destruct (attach (vm c) (env_of m)) as [a e1].
  cbn [fst snd] in *. rewrite on_env_bind, env_with, with_with. pose proof (law_scope LOCAL_SCOPE_SIZE e1) as [[Hr2 Hc2] _ _ _].
  rewrite works_scope. destruct (CreateLocalScope LOCAL_SCOPE_SIZE e1) as [b e2]. cbn [fst snd negb] in *. rewrite on_env_bind, env_with, with_with.
  destruct (default_error_works e2) as (x & Hx & Hvx). pose proof (silent_default_error e2) as [[Hr3 Hc3] _ _ _].
  destruct (GetDefaultBusinessError e2) as [x' e3]. cbn [fst snd] in *. subst x'. rewrite on_env_bind, env_with, with_with.
  pose proof (law_into_callback param e3) as Hl. destruct (into_ani_callback param e3) as [y e4], Hl as [[[Hr4 Hc4] Hv4 _ _] Hy]. cbn [fst snd] in *.
  rewrite Hr, on_env_bind, env_with, with_with.
  assert (referred e4 = referred (env_of m)) as H04 by congruence.
  pose proof (call_function_works r o "std.core.Function2" [Some x; Some y] [V_error; V_callback param] e4) as Hcall. rewrite H04 in Hcall. specialize (Hcall Ho).
  pose proof (call_function_refs r "std.core.Function2" [Some x; Some y] e4) as Hr5. rewrite H04 in Hr5. specialize (Hr5 Hin).
  destruct (call_function r "std.core.Function2" [Some x; Some y] e4) as [[] e5]. cbn [fst snd] in *. rewrite bind_run.
  destruct (DeleteCallback_works ctx c r (with_env e5 m) Hr) as (e6 & -> & Hr6 & Hc6); [by rewrite env_with, Hr5|]. rewrite env_with in *. cbn [fst snd].
  rewrite on_env_bind. destruct m as [p cs cl ts]. unfold env_of in *. cbn in *. destruct p as [x1 e0 x3 x4 x5 x6 x7 x8 x9]. cbn in *.
  pose proof (law_scope_end e6) as [Hr7 Hc7]. destruct (DestroyLocalScope e6) as [[] e7]. cbn in *. split; [done|]. split; [eexists; split; [done|]|].
  - rewrite Hc7, Hc6, Hcall; [congruence|]. constructor; [|constructor; [|constructor]]; eexists; (split; [done|]); [|done]. by eapply lookup_weaken.
  - split; [done|]. split; [done|]. congruence.
Qed.
Lemma conflict_task_calls x param m : well_formed m → claim_contexts m !! (claim_callbackRef x : Listener) = Some x →
  let '(res, m') := on_env (run_conflict_task x param) m in
  res = Done () ∧ (∃ y, call_of m (ConflictTask x param) = Some y ∧ called (env_of m') = called (env_of m) ++ [y]) ∧
  contexts m' = contexts m ∧ tasks m' = tasks m ∧ referred (env_of m') = released m (ConflictTask x param).
Proof.
  intros Hw Hx. destruct (wf_claim _ Hw _ _ Hx) as [_ Hin]. destruct (proj1 (elem_of_dom (referred (env_of m)) (claim_callbackRef x)) Hin) as [o Ho]. cbn [call_of released]. rewrite Ho.
  cbn [mbind option_bind]. rewrite on_env_with. cbn [fst snd].
  enough ((run_conflict_task x param (env_of m)).1 = Done () ∧
    called (run_conflict_task x param (env_of m)).2 = called (env_of m) ++ [(o, [Some (V_conflict param)])] ∧
    referred (run_conflict_task x param (env_of m)).2 = referred (env_of m)) as (H1 & H2 & H3).
  { split; [done|]. rewrite env_with. split; [by eexists|]. by destruct m. }
  unfold run_conflict_task. rewrite bind_run.
  pose proof (silent_attach (Some (claim_vm x)) (env_of m)) as [[Hr1 Hc1] _ _ _].
  pose proof (attach_works (Some (claim_vm x)) (env_of m) (mk_is_Some _ _ eq_refl)) as Ha.
  destruct (attach (Some (claim_vm x)) (env_of m)) as [a e1]. cbn [fst snd] in *. subst a. rewrite bind_run.
  pose proof (law_scope LOCAL_SCOPE_SIZE e1) as [[Hr2 Hc2] _ _ _]. pose proof (works_scope LOCAL_SCOPE_SIZE e1) as Hs.
  destruct (CreateLocalScope LOCAL_SCOPE_SIZE e1) as [b e2]. cbn [fst snd] in *. subst b. cbn [negb]. rewrite bind_run.
  pose proof (law_into_conflict param e2) as Hl. destruct (into_ani_conflict param e2) as [v e3], Hl as [[[Hr3 Hc3] _ _ _] Hv]. cbn [fst snd] in *.
  assert (referred e3 = referred (env_of m)) as H03 by congruence. rewrite bind_run.
  pose proof (call_function_works (claim_callbackRef x) o "std.core.Function1" [Some v] [V_conflict param] e3) as Hcall. rewrite H03 in Hcall. specialize (Hcall Ho).
  pose proof (call_function_refs (claim_callbackRef x) "std.core.Function1" [Some v] e3) as Hr5. rewrite H03 in Hr5. specialize (Hr5 Hin).
  destruct (call_function _ _ _ e3) as [[] e4]. cbn [fst snd] in *. rewrite bind_run.
  pose proof (law_scope_end e4) as [Hr6 Hc6]. destruct (DestroyLocalScope e4) as [[] e5]. cbn in *. split; [done|]. split; [|congruence].
  rewrite Hc6, Hcall; [congruence|]. by constructor; [eexists|constructor].
Qed.

(** *** The queue *)

Lemma run_task_calls t rest m : well_formed m → tasks m = t :: rest →
  let '(res, m') := run_task m in
  res = Done () ∧ (∃ y, call_of m t = Some y ∧ called (env_of m') = called (env_of m) ++ [y]) ∧
  contexts m' = gone t (contexts m) ∧ tasks m' = rest ∧ referred (env_of m') = released m t.
Proof.
  intros Hw Ht. destruct (pop_wf t rest m Hw Ht) as [Hw' Hpop]. unfold run_task. rewrite bind_run. cbn [get fst snd]. rewrite Ht, bind_run. cbn [modify fst snd].
  destruct m as [p cs cl ts]. cbn in Ht. subst ts. cbn [set_tasks contexts claim_contexts] in *. destruct t as [ctx param|x param]; cbn [gone].
  - destruct Hpop as [_ [c Hc]]. exact (transfer_task_calls ctx c param (Build_Library p cs cl rest) Hw' Hc).
  - exact (conflict_task_calls x param (Build_Library p cs cl rest) Hw' Hpop).
Qed.
(** What a task leaves is what another one needs. *)
Lemma call_of_later t u rest m m' : well_formed m → tasks m = t :: rest → u ∈ rest → contexts m' = gone t (contexts m) →
  referred (env_of m') = released m t → call_of m' u = call_of m u.
Proof.
  intros Hw Ht Hu Hc Hr. destruct t as [ctx p|x p]; cbn [gone released] in Hc, Hr; [|by destruct u; cbn; rewrite ?Hc, Hr].
  assert ((ctx ∉ posted rest) ∧ is_Some (contexts m !! ctx)) as [Hp [c Hctx]] by (by destruct (pop_wf _ _ m Hw Ht) as [_ ?]).
  destruct (wf_alive _ Hw _ _ Hctx) as [_ (r & Hrc & _)]. rewrite Hctx in Hr. cbn in Hr. rewrite Hrc in Hr.
  destruct u as [ctx' q|x q]; cbn; rewrite Hr.
  - assert (ctx' ∈ posted rest) as Hin.
    { clear -Hu. apply list_elem_of_omap. by exists (TransferTask ctx' q). }
    assert (ctx ≠ ctx') as Hne by (by intros ->). rewrite Hc, lookup_delete_ne by done.
    destruct (contexts m !! ctx') as [c'|] eqn:Hctx'; cbn; [|done]. destruct (callbackRef c') as [r'|] eqn:Hr'; cbn; [|done].
    rewrite lookup_delete_ne; [done|]. intros ->. apply Hne. eapply (wf_injective _ Hw); [done..|congruence].
  - rewrite lookup_delete_ne; [done|]. intros ->. pose proof (wf_conflicts _ Hw x q) as Hcl. rewrite Ht in Hcl. specialize (Hcl (list_elem_of_further _ _ _ Hu)).
    by rewrite (wf_apart _ Hw _ _ _ Hctx Hrc) in Hcl.
Qed.
(** The main thread runs what has been posted. *)
Fixpoint run_tasks (n : nat) : TM (outcome ()) :=
  match n with
  | Datatypes.O => mret (Done ())
  | Datatypes.S n => r ← run_task; match r with Done _ => run_tasks n | _ => mret r end
  end.
Lemma run_tasks_calls ts : ∀ m, well_formed m → tasks m = ts →
  let '(res, m') := run_tasks (length ts) m in
  res = Done () ∧ (∃ ys, map (call_of m) ts = map Some ys ∧ called (env_of m') = called (env_of m) ++ ys) ∧
  (∀ ctx, contexts m' !! ctx = if decide (ctx ∈ posted ts) then None else contexts m !! ctx) ∧ tasks m' = [] ∧ well_formed m'.
Proof.
  induction ts as [|t ts IH]; intros m Hw Ht; cbn [length run_tasks].
  - split; [done|]. split; [exists []; by rewrite app_nil_r|]. split; [|done]. intros ctx. by rewrite decide_False by (by apply not_elem_of_nil).
  - rewrite bind_run. pose proof (run_task_calls t ts m Hw Ht) as H1. pose proof (wf_run_task m Hw) as Hw1. destruct (run_task m) as [res m1]. cbn [fst snd] in *.
    destruct H1 as (-> & (y & Hy & Hc1) & Hcs & Ht1 & Hr1). specialize (IH m1 Hw1 Ht1). destruct (run_tasks (length ts) m1) as [res2 m2].
    destruct IH as (-> & (ys & Hys & Hc2) & Hcs2 & Ht2 & Hw2). split; [done|]. split; [|split; [|done]].
    + exists (y :: ys). cbn. split; [|by rewrite Hc2, Hc1, <- app_assoc]. rewrite Hy, <- Hys. f_equal. apply map_ext_in. intros u Hu%list_elem_of_In.
      symmetry. by eapply call_of_later.
    + intros ctx. rewrite Hcs2, Hcs. destruct t as [k p|x p]; [|done]. cbn. destruct (decide (ctx = k)) as [->|Hne].
      * rewrite lookup_delete_eq. rewrite (decide_True (P := k ∈ k :: _)) by (by left). by destruct (decide _).
      * rewrite lookup_delete_ne by done. apply decide_ext. split; [by right|]. by intros [?|?]%elem_of_cons.
Qed.

(** *** What becomes of a transfer *)

(** The function [o] waits for the end of the transfer [ctx]. *)
Definition waits (ctx : positive) (o : ani_ref) m : Prop :=
  ∃ c r, contexts m !! ctx = Some c ∧ callbackRef c = Some r ∧ referred (env_of m) !! r = Some o.
(** The transfer is over, and the function has been called. *)
Definition called_back (ctx : positive) (o : ani_ref) m m' : Prop :=
  contexts m' !! ctx = None ∧ ∃ param, called (env_of m') = called (env_of m) ++ [(o, [Some V_error; Some (V_callback param)])].
Lemma waits_apart ctx o m m' : apart m m' → waits ctx o m → waits ctx o m'.
Proof. intros [Hc _ Hr] (c & r & Hctx & Hcr & Ho). exists c, r. rewrite Hc, (Hr _ _ _ Hctx Hcr). done. Qed.
Lemma completion_posts info ctx c m : info_userData info = Z.pos ctx → contexts m !! ctx = Some c →
  posts (TransferTask ctx (callback_param info)) m (on_completion info m).2.
Proof.
  intros Hu Hc. rewrite (on_completion_context info ctx c m Hu Hc). unfold AniCallBack. rewrite bind_run.
  pose proof (calm_read_data c info m) as H1. destruct (ReadDataToBuffer c info m) as [[] m1]. cbn [fst snd] in *. rewrite bind_run.
  pose proof (send_posts (TransferTask ctx (callback_param info)) m1) as H2. pose proof (send_works (TransferTask ctx (callback_param info)) m1) as H3.
  destruct (SendEventToMainThread _ m1) as [sent m2]. cbn [fst snd] in *. subst sent. cbn [negb]. by eapply posts_after.
Qed.
Lemma waits_submit ctx o transfer m : well_formed m → waits ctx o m → waits ctx o (usbSubmitTransfer TransferCompleteCallback uninit_flags transfer m).2.
Proof.
  intros Hw (c & r & Hctx & Hcr & Ho). destruct (usbSubmitTransfer_submitted transfer m) as [_ _ _ Hr Hc]. exists c, r.
  split; [|split; [done|by eapply lookup_weaken]]. destruct Hc as [->|(k & x & r' & Hk & -> & _)]; [done|]. rewrite lookup_insert_ne; [done|]. congruence.
Qed.
Lemma waits_task ctx o m : well_formed m → waits ctx o m → waits ctx o (run_task m).2 ∨ called_back ctx o m (run_task m).2.
Proof.
  intros Hw (c & r & Hctx & Hcr & Ho). destruct (tasks m) as [|t rest] eqn:Ht.
  { left. unfold run_task. rewrite bind_run. cbn [get fst snd]. rewrite Ht. by exists c, r. }
  pose proof (run_task_calls t rest m Hw Ht) as Hrun. destruct (run_task m) as [res m']. destruct Hrun as (_ & (y & Hy & Hca) & Hc & _ & Hr). cbn [snd].
  destruct t as [k param|x param]; cbn [gone released] in *; [|left; exists c, r; by rewrite Hc, Hr].
  destruct (decide (k = ctx)) as [->|Hne].
  - right. split; [by rewrite Hc, lookup_delete_eq|]. exists param. rewrite Hca. unfold call_of in Hy. rewrite Hctx in Hy. cbn in Hy. rewrite Hcr in Hy. cbn in Hy.
    rewrite Ho in Hy. by injection Hy as <-.
  - left. exists c, r. rewrite Hc, lookup_delete_ne, Hr by done. split; [done|]. split; [done|]. destruct (contexts m !! k) as [c'|] eqn:Hk; cbn; [|done].
    destruct (callbackRef c') as [r'|] eqn:Hr'; [|done]. rewrite lookup_delete_ne; [done|]. intros ->. apply Hne. eapply (wf_injective _ Hw); [done..|congruence].
Qed.
Lemma waits_step ctx o m m' : well_formed m → waits ctx o m → library_step m m' → waits ctx o m' ∨ called_back ctx o m m'.
Proof.
  intros Hw Hwait Hs. destruct Hs as [|transfer|info k Hu Hk Hp| |pipe iface force f|l b d i|l Hl|p Hp Hq].
  - left. by apply waits_submit.
  - left. eapply waits_apart; [apply apart_calm, calm_cancel|done].
  - left. destruct Hk as [c Hc]. eapply waits_apart; [eapply apart_posts; by eapply completion_posts|done].
  - by apply waits_task.
  - left. eapply waits_apart; [by apply apart_claim|done].
  - left. eapply waits_apart; [by apply apart_conflict|done].
  - left. eapply waits_apart; [by apply apart_drop|done].
  - left. eapply waits_apart; [apply apart_calm, calm_env_step; [by right|done]|done].
Qed.
(** Nothing but a task calls a function. *)
Lemma step_calls m m' : well_formed m → library_step m m' → called (env_of m') = called (env_of m) ∨ m' = (run_task m).2.
Proof.
  intros Hw Hs. destruct Hs as [transfer|transfer|info k Hu [c Hc] Hp| |pipe iface force f|l b d i|l Hl|p Hp Hq]; [left|left|left|by right|left..].
  - apply usbSubmitTransfer_submitted.
  - apply (apart_calm m), calm_cancel.
  - by apply (apart_posts _ _ _ (completion_posts info k c m Hu Hc)).
  - by apply apart_claim.
  - by apply apart_conflict.
  - by apply apart_drop.
  - assert (env_of (set_process p m) = engine p) as -> by (by destruct m). apply Hq.
Qed.

(** C30: Submitted transfers of the ArkTS module call back once.  In every state that the
    module can reach, with a main thread that works: a submission calls nothing, and what it adds to
    the transfers under way is at most one, with the function that it was given; that function
    waits until a task calls it, with an error object and a result, which is also when the
    transfer is forgotten; nothing but tasks calls functions; the end of a transfer posts its
    result, the length, the status and the packets that the service reported, with the
    two lengths of each packet exchanged; running what is posted calls each function that was posted for, in order, and
    empties the queue, and every transfer that was posted is over; and no context is ever
    used after it has been deleted.  The service is taken to report the end of a transfer
    once, and only of one under way: the module does not look ([l_complete]). *)
Theorem transfers_call_back m : reachable m →
  bad_delete (process m) = false ∧
  (∀ transfer, let m' := (usbSubmitTransfer TransferCompleteCallback uninit_flags transfer m).2 in
     called (env_of m') = called (env_of m) ∧ tasks m' = tasks m ∧
     (contexts m' = contexts m ∨ ∃ ctx c, contexts m !! ctx = None ∧ contexts m' = <[ctx := c]> (contexts m) ∧ waits ctx (t_callback transfer) m')) ∧
  (∀ ctx, is_Some (contexts m !! ctx) → ∃ o, waits ctx o m) ∧
  (∀ ctx o m', waits ctx o m → library_step m m' → waits ctx o m' ∨ called_back ctx o m m') ∧
  (∀ m', library_step m m' → called (env_of m') = called (env_of m) ∨ m' = (run_task m).2) ∧
  (∀ info ctx, info_userData info = Z.pos ctx → is_Some (contexts m !! ctx) →
     tasks (on_completion info m).2 = tasks m ++ [TransferTask ctx (reported info)] ∧ contexts (on_completion info m).2 = contexts m) ∧
  (let '(res, m') := run_tasks (length (tasks m)) m in
   res = Done () ∧ (∃ calls, map (call_of m) (tasks m) = map Some calls ∧ called (env_of m') = called (env_of m) ++ calls) ∧
   (∀ ctx, contexts m' !! ctx = if decide (ctx ∈ posted (tasks m)) then None else contexts m !! ctx) ∧ tasks m' = []).
Proof.
  intros Hw%reachable_wf. split; [apply Hw|]. split; [|split; [|split; [|split; [|split]]]].
  - intros transfer m'. destruct (usbSubmitTransfer_submitted transfer m) as [Ht _ Hc _ Hcs]. split; [done|]. split; [done|].
    destruct Hcs as [?|(ctx & c & r & Hn & Hcs & Hr & Ho)]; [by left|]. right. exists ctx, c. split; [done|]. split; [done|]. exists c, r.
    subst m'. by rewrite Hcs, lookup_insert_eq.
  - intros ctx [c Hc]. destruct (wf_alive _ Hw _ _ Hc) as [_ (r & Hr & [o Ho]%elem_of_dom)]. by exists o, c, r.
  - intros ctx o m'. by apply waits_step.
  - intros m'. by apply step_calls.
  - intros info ctx Hu [c Hc]. by destruct (completion_posts info ctx c m Hu Hc).
  - pose proof (run_tasks_calls (tasks m) m Hw eq_refl) as Hr. destruct (run_tasks _ m). by destruct Hr as (? & ? & ? & ? & _).
Qed.
End Works.
End Library.

(** ** Functions that answer at once *)

Section AtOnce.
Context {S P E O : Type} `{!IUsbServer S, !ClientPlatform P, !ErrCodeBase, !Ani E, !NapiSystem O, !AniView E, !AniLaws E}.
Context (others : state (UsbSrvClient S P) ()).
Implicit Types p : UsbInfo S P E O.

(** *** Failures *)

(** An error is set for the caller and counted, and nothing else happens. *)
Lemma fail_with_sets {A} (r : A) c msg p : error_set (engine p) = None →
  let '(a, p') := fail_with r c msg p in
  a = r ∧ error_set (engine p') = Some (c, GetErrMsgByErrCode c +:+ msg) ∧ quiet (engine p) (engine p') ∧
  g_usbClient p' = g_usbClient p ∧ g_accFd p' = g_accFd p ∧ system p' = system p.
Proof.
  intros He. destruct p as [x1 e x3 x4 x5 x6 x7 x8 x9]. cbn in He. unfold fail_with, SetErrorCode, ThrowBusinessError, on_engine, zoom. run_unfold. cbn.
  pose proof (law_error c (GetErrMsgByErrCode c +:+ msg) e He) as Hs. pose proof (law_error_quiet c (GetErrMsgByErrCode c +:+ msg) e) as Hq.
  by destruct (set_business_error c (GetErrMsgByErrCode c +:+ msg) e) as [[] e'].
Qed.
(** What is not built in is refused before anything is asked. *)
Lemma unsupported_throws {A} (r : A) f k p : HasFeature O f = false → error_set (engine p) = None →
  let '(a, p') := unsupported r f k p in
  a = r ∧ error_set (engine p') = Some (CAPABILITY_NOT_SUPPORT, "BusinessError 801:Capability not supported.") ∧
  quiet (engine p) (engine p') ∧ g_usbClient p' = g_usbClient p ∧ g_accFd p' = g_accFd p ∧ system p' = system p.
Proof. intros Hf He. unfold unsupported. rewrite Hf. exact (fail_with_sets r CAPABILITY_NOT_SUPPORT "" p He). Qed.
(** The two refusals of a system function, which are the only answers that they change. *)
Lemma system_api_answers {A} (r1 r2 : A) ret msg1 msg2 k p : error_set (engine p) = None →
  let '(a, p') := system_api r1 r2 ret msg1 msg2 k p in
  (ret = uec UEC_SERVICE_PERMISSION_DENIED_SYSAPI → a = r1 ∧ option_map fst (error_set (engine p')) = Some OHEC_COMMON_NORMAL_APP_NOT_ALLOWED) ∧
  (ret = uec UEC_SERVICE_PERMISSION_DENIED_SYSAPI_FAILED → ret ≠ uec UEC_SERVICE_PERMISSION_DENIED_SYSAPI →
     a = r2 ∧ option_map fst (error_set (engine p')) = Some OHEC_COMMON_PERMISSION_NOT_ALLOWED) ∧
  (ret ≠ uec UEC_SERVICE_PERMISSION_DENIED_SYSAPI → ret ≠ uec UEC_SERVICE_PERMISSION_DENIED_SYSAPI_FAILED → (a, p') = k p).
Proof.
  intros He. unfold system_api. destruct (Z.eqb_spec ret (uec UEC_SERVICE_PERMISSION_DENIED_SYSAPI)) as [->|H1].
  - pose proof (fail_with_sets r1 OHEC_COMMON_NORMAL_APP_NOT_ALLOWED msg1 p He) as Hf. destruct (fail_with _ _ _ p) as [a p'].
    destruct Hf as (-> & -> & _). split; [done|]. by split.
  - destruct (Z.eqb_spec ret (uec UEC_SERVICE_PERMISSION_DENIED_SYSAPI_FAILED)) as [->|H2].
    + pose proof (fail_with_sets r2 OHEC_COMMON_PERMISSION_NOT_ALLOWED msg2 p He) as Hf. destruct (fail_with _ _ _ p) as [a p'].
      destruct Hf as (-> & -> & _). split; [done|]. by split.
    + destruct (k p). split; [done|]. by split.
Qed.
(** A right for an accessory can end in five errors; the accessory is never kept. *)
Lemma accessory_answer_sets {A} (r : A) ret msg1 msg2 msg3 p : error_set (engine p) = None →
  let '(a, p') := accessory_answer r ret msg1 msg2 msg3 p in
  a = r ∧ (error_set (engine p') = None ↔ ret = UEC_OK) ∧ g_usbClient p' = g_usbClient p.
Proof.
  intros He. unfold accessory_answer. destruct (Z.eqb_spec ret UEC_OK) as [->|H0]; [by cbn|].
  repeat match goal with |- context [if ?b then _ else _] => destruct b end;
    match goal with |- context [fail_with r ?c ?m p] => pose proof (fail_with_sets r c m p He) as Hf; destruct (fail_with r c m p) as [a p'] end;
    destruct Hf as (-> & -> & _ & -> & _); (split; [done|split; [by split|done]]).
Qed.

(** *** What the structures carry *)

(** An endpoint that the program was given is the one that it gives back. *)
Lemma endpoint_returns e : ep_ok e → ConvertToUSBEndpoint (ParseToUSBEndpoint e) = e.
Proof.
  intros (Ha & Ht & Hi & Hm & Hf). destruct e as [a t i m f]. cbn in *.
  unfold ConvertToUSBEndpoint, ParseToUSBEndpoint, GetInterfaceId. cbn.
  rewrite !u32_back by done. f_equal. unfold to_u8, Prelude.in_u8 in *. Z.div_mod_to_equations. lia.
Qed.
(** A device that the program was given is the one that is opened. *)
Lemma device_is_opened d pipe : Prelude.in_u8 (UsbDevice.busNum_ d) → Prelude.in_u8 (UsbDevice.devAddr_ d) →
  OpenDevice others (ConvertToUsbDevice (ParseToUSBDevice d)) pipe = OpenDevice others d pipe.
Proof. intros Hb Ha. unfold OpenDevice. cbn. by rewrite !to_u8_id. Qed.
(** A configuration loses its power's unit each time it comes back. *)
Lemma power_doubles c : USBConfig.GetMaxPower (ConvertToUSBConfig (ParseToUSBConfiguration c)) = 2 * USBConfig.GetMaxPower c.
Proof. unfold USBConfig.GetMaxPower. cbn. unfold USBConfig.GetMaxPower. lia. Qed.
(** A mode of a port is one of the keys. *)
Lemma port_mode_is_a_key (q : UsbPortManager.UsbPort) : 0 <= port_supportedModes (ConvertUSBPort q) < NUM_MODES.
Proof.
  unfold ConvertUSBPort. cbn. destruct ((0 <=? _) && (_ <? NUM_MODES)) eqn:Hm; [|done].
  apply andb_true_iff in Hm as [H1%Z.leb_le H2%Z.ltb_lt]. done.
Qed.

(** *** Serial ports *)

Lemma serial_check_answers {A} (r : A) assertion c msg (k : state (UsbInfo S P E O) A) p : error_set (engine p) = None →
  let '(a, p') := SerialPorts.check r assertion c msg k p in
  if assertion then (a, p') = k p else
    a = r ∧ error_set (engine p') = Some (c, c_str msg) ∧ quiet (engine p) (engine p') ∧ g_usbClient p' = g_usbClient p.
Proof.
  intros He. unfold SerialPorts.check, SerialPorts.CheckAndThrowOnError. destruct assertion; cbn [negb]; [change (let '(a, p') := k p in (a, p') = k p); by destruct (k p)|].
  destruct p as [x1 e x3 x4 x5 x6 x7 x8 x9]. cbn in He. unfold SetErrorCode, on_engine, zoom. run_unfold. cbn.
  pose proof (law_error c (c_str msg) e He) as Hs. pose proof (law_error_quiet c (c_str msg) e) as Hq.
  by destruct (set_business_error c (c_str msg) e) as [[] e'].
Qed.
(** Attributes go to the service only when all four are there. *)
Lemma attributes_are_required `{!TaiheEnum} a : (∃ x, SerialPorts.attribute_of_taihe a = inl x) ↔
  is_Some (sa_dataBits a) ∧ is_Some (sa_parity a) ∧ is_Some (sa_stopBits a).
Proof.
  destruct a as [b [d|] [p|] [s|]]; cbn; split; try (by intros [? [=]]); try (by intros ([? ?] & [? ?] & [? ?])).
  intros _. by repeat (split; [by eexists|]); eexists.
Qed.
(** Attributes with values of the interface come back as they were set. *)
Lemma attributes_return `{!TaiheEnum} a x b d q s : SerialPorts.attribute_of_taihe a = inl x →
  a = {| sa_baudRate := Z.of_nat b; sa_dataBits := Some (Z.of_nat d); sa_parity := Some (Z.of_nat q); sa_stopBits := Some (Z.of_nat s) |} →
  (b < 30)%nat → (d < 4)%nat → (q < 5)%nat → (s < 2)%nat → SerialPorts.SerialAttributeToTaihe x = a.
Proof.
  intros Hx -> Hb Hd Hq Hs. cbn in Hx. injection Hx as <-. unfold SerialPorts.SerialAttributeToTaihe. cbn.
  assert (∀ l k, NoDup l → (k < length l)%nat → from_value l (get_value l (Z.of_nat k)) = Z.of_nat k) as Hback.
  { intros l k Hl [v Hv]%lookup_lt_is_Some. rewrite (law_get_value l k v Hv). by apply law_from_value. }
  by rewrite !Hback by (done || (apply (bool_decide_unpack _); by vm_compute)).
Qed.
End AtOnce.

(** ** A concrete program *)

#[local] Existing Instance no_json.
#[local] Existing Instance demo_err_base.
#[local] Existing Instance demo_records.
#[local] Existing Instance demo_records_laws.
#[local] Existing Instance demo_right_service.
#[local] Existing Instance demo_right_laws.
#[local] Existing Instance alice_server.

(** A runtime that always works: what it refers to, makes and is asked to do. *)
Record Runtime := {
  rt_error : option (Z * string);
  rt_referred : gmap ani_ref ani_ref;
  rt_values : gmap ani_ref ani_value;
  rt_called : list (ani_ref * list (option ani_value));
  rt_bytes : gmap data_ptr (list Z);
}.
Definition make_value (v : ani_value) (e : Runtime) : ani_ref * Runtime :=
  let r := base.fresh (dom (rt_values e)) in
  (r, {| rt_error := rt_error e; rt_referred := rt_referred e; rt_values := <[r := v]> (rt_values e); rt_called := rt_called e; rt_bytes := rt_bytes e |}).
Definition set_referred (f : gmap ani_ref ani_ref) (e : Runtime) : Runtime :=
  {| rt_error := rt_error e; rt_referred := f; rt_values := rt_values e; rt_called := rt_called e; rt_bytes := rt_bytes e |}.
#[local] Instance runtime : Ani Runtime := {|
  set_business_error c msg e := ((), {| rt_error := Some (c, msg); rt_referred := rt_referred e; rt_values := rt_values e; rt_called := rt_called e;
    rt_bytes := rt_bytes e |});
  get_env := mret true;
  Object_GetFieldByName_Ref o k := mret (Some o);
  ArrayBuffer_GetInfo r := e ← get; mret (Some (Some r, Z.of_nat (length (default [] (rt_bytes e !! r)))));
  GlobalReference_Create o e := let r := base.fresh (dom (rt_referred e)) in (Some r, set_referred (<[r := o]> (rt_referred e)) e);
  GlobalReference_Delete r e := (true, set_referred (delete r (rt_referred e)) e);
  GetVM := mret (true, Some 1);
  AttachCurrentThread v := mret (ANI_OK, true);
  GetEnv v := mret (ANI_OK, true);
  CreateLocalScope n := mret true;
  DestroyLocalScope := mret ();
  FindClass n := mret (Some 1);
  Class_FindMethod c n s := mret (Some 2);
  Object_New c m := r ← make_value V_error; mret (Some r);
  Object_InstanceOf r c := mret (Some true);
  FunctionalObject_Call r args e := (true, {| rt_error := rt_error e; rt_referred := rt_referred e; rt_values := rt_values e;
    rt_called := rt_called e ++ match rt_referred e !! r with Some o => [(o, map (λ a, a ≫= λ a, rt_values e !! a) args)] | None => [] end;
    rt_bytes := rt_bytes e |});
  into_ani_callback p := make_value (V_callback p);
  into_ani_conflict p := make_value (V_conflict p);
  mainHandler := mret true;
  set_mainHandler := mret ();
  GetMainEventRunner := mret true;
  array_read p n := e ← get; mret (take (Z.to_nat n) (default [] (rt_bytes e !! p)));
  memcpy_s p n data e := (true, match p with Some p => {| rt_error := rt_error e; rt_referred := rt_referred e; rt_values := rt_values e;
    rt_called := rt_called e; rt_bytes := <[p := data]> (rt_bytes e) |} | None => e end);
|}.
#[local] Instance runtime_view : AniView Runtime := {|
  error_set := rt_error; referred := rt_referred; values := rt_values; called := rt_called; array_bytes := rt_bytes |}.
Lemma make_value_fresh v e : let '(r, e') := make_value v e in silent e e' ∧ values e' !! r = Some v.
Proof.
  cbn. split; [|by rewrite lookup_insert_eq]. split; [done| |done|done]. cbn. apply insert_subseteq. apply not_elem_of_dom, is_fresh.
Qed.
Lemma silent_returns {A} (a : A) : Runs silent (mret a : state Runtime A).
Proof. by intros e. Qed.
#[local] Instance runtime_laws : AniLaws Runtime.
Proof.
  split; try (intros; apply silent_returns); try (by intros *; split).
  - intros o e. cbn. split; [apply is_fresh|done].
  - intros c m e. pose proof (make_value_fresh V_error e) as [Hs Hv]. split; [exact Hs|]. by intros r [= <-].
  - intros r o args e Hr. cbn in *. by rewrite Hr.
  - intros p e. apply make_value_fresh.
  - intros p e. apply make_value_fresh.
  - intros [p|] n data e; by split.
Qed.
#[local] Instance runtime_works : AniWorks Runtime.
Proof. split; try done; by intros; eexists. Qed.
(** Memory that can be shared. *)
#[local] Instance shared_system : NapiSystem Z := {|
  USB_MANAGER_FEATURE_HOST := true; USB_MANAGER_FEATURE_DEVICE := true; USB_MANAGER_FEATURE_PORT := true; USB_MANAGER_METRICS_ENABLE := true;
  gettimeofday := λ t, ((t, 0), t + 1); report h := λ t, ((), t); usb_owner_tag := 7;
  fdsan_exchange_owner_tag fd a b := λ t, ((), t); fdsan_close_with_tag fd tag := λ t, ((), t); close_fd fd := λ t, ((), t);
  new_nothrow := λ t, (true, t); new_context s := λ t, (Some (base.fresh s), t);
  CreateAshmem name n := λ t, (Some {| ashmem_fd := 1; ashmem_size := n |}, t); MapReadAndWriteAshmem a := λ t, ((), t); WriteToAshmem a d := λ t, (true, t);
  ReadFromAshmem a n := λ t, (Some (replicate (Z.to_nat n) 7), t); UnmapAshmem a := λ t, ((), t); CloseAshmem a := λ t, ((), t);
|}.
#[local] Instance shared_system_new : NewLaws Z.
Proof. intros used o k [= <-]. apply is_fresh. Qed.

Definition program_array : data_ptr := 1000.
Abbreviation Program := (Library System (option RemoteObject) Runtime Z).
Definition program : Program := Build_Library (Build_UsbInfo alice_client
  {| rt_error := None; rt_referred := ∅; rt_values := ∅; rt_called := []; rt_bytes := {[program_array := [1; 2; 3; 4]]} |} 0 0
  (UsbApiMetrics.construct "" (0, 0)) [] ∅ [] false) ∅ ∅ [].
Definition read_four : UsbDataTransferParams := {| t_devPipe := {| p_busNum := 1; p_devAddress := 2 |}; t_flags := 0; t_endpoint := 129; t_type := 2;
  t_timeout := 0; t_length := 4; t_callback := 55; t_buffer := program_array; t_isoPacketCount := 0 |}.
Definition submitted_program : Program := (usbSubmitTransfer 33 0 read_four program).2.
(** Descriptors that are closed are noted. *)
#[local] Instance noting_system : NapiSystem (list Z) := {|
  USB_MANAGER_FEATURE_HOST := true; USB_MANAGER_FEATURE_DEVICE := true; USB_MANAGER_FEATURE_PORT := true; USB_MANAGER_METRICS_ENABLE := false;
  gettimeofday := λ t, ((0, 0), t); report h := λ t, ((), t); usb_owner_tag := 7;
  fdsan_exchange_owner_tag fd a b := λ t, ((), t); fdsan_close_with_tag fd tag := λ t, ((), t); close_fd fd := λ t, ((), t ++ [fd]);
  new_nothrow := λ t, (true, t); new_context s := λ t, (None, t);
  CreateAshmem name n := λ t, (None, t); MapReadAndWriteAshmem a := λ t, ((), t); WriteToAshmem a d := λ t, (false, t);
  ReadFromAshmem a n := λ t, (None, t); UnmapAshmem a := λ t, ((), t); CloseAshmem a := λ t, ((), t);
|}.
(** The end of a transfer that brought three bytes of four. *)
Definition ended (ctx n : Z) (iso : list UsbTransferCallbacks.UsbIsoPacketDescriptor) : Completion :=
  {| info_status := 0; info_actualLength := n; info_iso := iso; info_userData := ctx |}.
Definition with_function (o : ani_ref) (t : UsbDataTransferParams) : UsbDataTransferParams := {| t_devPipe := t_devPipe t; t_flags := t_flags t;
  t_endpoint := t_endpoint t; t_type := t_type t; t_timeout := t_timeout t; t_length := t_length t; t_callback := o; t_buffer := t_buffer t;
  t_isoPacketCount := t_isoPacketCount t |}.
(** Two transfers are submitted, with the functions 55 and 56, and end in the other order. *)
Definition two_submitted : Program := (usbSubmitTransfer 33 0 (with_function 56 read_four) submitted_program).2.
Definition one_ended : Program := (on_completion (ended 2 3 []) two_submitted).2.
Definition two_ended : Program := (on_completion (ended 1 0 []) one_ended).2.
Lemma program_loaded : loaded program.
Proof. done. Qed.
Lemma first_ends : is_Some (contexts two_submitted !! 2%positive) ∧ 2%positive ∉ posted (tasks two_submitted).
Proof. split; [by vm_compute; eexists|]. apply (bool_decide_unpack _). by vm_compute. Qed.
Lemma second_ends : is_Some (contexts one_ended !! 1%positive) ∧ 1%positive ∉ posted (tasks one_ended).
Proof. split; [by vm_compute; eexists|]. apply (bool_decide_unpack _). by vm_compute. Qed.
Abbreviation program_step := (library_step UsbSrvClientExamples.quiet 33 0).
Lemma two_ended_reachable : reachable UsbSrvClientExamples.quiet 33 0 two_ended.
Proof.
  assert (program_step program submitted_program) as H1 by exact (l_submit _ 33 0 program read_four).
  assert (program_step submitted_program two_submitted) as H2 by exact (l_submit _ 33 0 submitted_program (with_function 56 read_four)).
  assert (program_step two_submitted one_ended) as H3.
  { destruct first_ends as [Hs Hp]. exact (l_complete _ 33 0 two_submitted (ended 2 3 []) 2 eq_refl Hs Hp). }
  assert (program_step one_ended two_ended) as H4.
  { destruct second_ends as [Hs Hp]. exact (l_complete _ 33 0 one_ended (ended 1 0 []) 1 eq_refl Hs Hp). }
  exists program. split; [exact program_loaded|]. exact (rtc_l _ _ _ _ H1 (rtc_l _ _ _ _ H2 (rtc_l _ _ _ _ H3 (rtc_once _ _ H4)))).
Qed.
Lemma transfers_call_back_witness :
  let '(res, m') := run_tasks 2 two_ended in
  res = Done () ∧ map fst (called (env_of m')) = [56; 55] ∧ contexts m' !! 1%positive = None ∧ tasks m' = [].
Proof.
  destruct (transfers_call_back UsbSrvClientExamples.quiet 33 0 two_ended two_ended_reachable) as (_ & _ & _ & _ & _ & _ & Hrun).
  change (length (tasks two_ended)) with 2%nat in Hrun. destruct (run_tasks 2 two_ended) as [res m'], Hrun as (Hres & (calls & Hcalls & Hc) & Hcs & Ht).
  split; [exact Hres|]. split; [|split; [|exact Ht]].
  - rewrite Hc. vm_compute in Hcalls. destruct calls as [|a [|b [|? ?]]]; try discriminate Hcalls. injection Hcalls as <- <-. vm_compute. reflexivity.
  - rewrite (Hcs 1%positive). vm_compute. reflexivity.
Defined.
Example the_array_is_filled : array_bytes (env_of two_ended) !! program_array = Some [7; 7; 7].
Proof. vm_compute. reflexivity. Qed.
(** A packet of 8 bytes of which 3 arrived is given as 3 bytes of which 8 did. *)
Example packet_lengths_are_swapped :
  map (λ p, (iso_length p, iso_actualLength p)) (sub_isoPacketDescs (callback_param (ended 1 0
    [{| UsbTransferCallbacks.isoLength := 8; UsbTransferCallbacks.isoActualLength := 3; UsbTransferCallbacks.isoStatus := 0 |}]))) = [(3, 8)].
Proof. reflexivity. Qed.

(** A read of a device that is not there: the library refuses, and the answer is that of a
    read of no bytes. *)
Definition read_status : USBDeviceRequestParams := {| req_bmRequestType := 128; req_bRequest := 0; req_wValue := 0; req_wIndex := 0; req_wLength := 2;
  req_data := program_array |}.
Example a_refused_read_answers :
  let '(n, p) := usbControlTransferSync {| p_busNum := 9; p_devAddress := 9 |} read_status None (process program) in
  (n, (UsbControlTransfer {| pipe_busNum_ := 9; pipe_devAddr_ := 9 |} {| requestType := 128; requestCmd := 0; ctrl_value := 0; ctrl_index := 0;
     ctrl_length := 2; ctrl_timeout := 0 |} [1; 2; 3; 4] (g_usbClient (process program))).1.1 =? UEC_OK, error_set (engine p)) = (0, false, None).
Proof. vm_compute. reflexivity. Qed.
(** With no accessory open, a descriptor that is not one of an accessory is closed, and only
    then is the service asked. *)
Example any_descriptor_is_closed :
  let p := (closeAccessory (O := list Z) UsbSrvClientExamples.quiet 5 (Build_UsbInfo alice_client (engine (process program)) [] 0
    (UsbApiMetrics.construct "" (0, 0)) [] ∅ [] false)).2 in system p = [5].
Proof. vm_compute. reflexivity. Qed.
